(* ===== verification/_CoqProject ===== *)
-Q . S2P
Prelude.v
Strings.v
Bytes.v
Ring.v
Printf.v
Grep.v
UserProgs.v
UserSpec.v
Monad.v
Umalloc.v
UmallocInv.v
UmallocOps.v
UmallocUse.v
Spinlock.v
Machine.v
Kalloc.v
Vm.v
Mp.v
MpInv.v
VmInv.v
VmOps.v
VmFree.v
VmKern.v
VmFault.v
VmCow.v
Demo.v
VmUser.v
ProcDefs.v
KernDefs.v
RunQueue.v
Proc.v
ProcInv.v
DemoProc.v
FutexInv.v
Uthread.v
Sleeplock.v
Bio.v
BioInv.v
Log.v
LogInv.v
LogCrash.v
LogOps.v
DemoKern.v
Fs.v
File.v
Fork.v
ForkInv.v
Exec.v
Syscall.v
Sysfile.v
PipeInv.v
Console.v
ConsoleInv.v
Ide.v
Boot.v
Trap.v
Seg.v
Apic.v
ApicInv.v
Sh.v
ShInv.v
ShPrint.v
ShRun.v
FsTx.v
FsBitmap.v
FsFile.v
FsData.v
DemoFs.v
FsDir.v
FsInode.v
FsAtomic.v
Mkfs.v
MkfsInv.v
MkfsOps.v
MkfsMain.v
