(* ===== verification/Prelude.v ===== *)
(** * xv6 with copy-on-write memory, per-CPU priority scheduling and threads

    A verification development for the kernel, the shell, the user libraries and the
    file-system builder under src/: an x86 teaching kernel extended with reference-counted frames,
    copy-on-write fork, lazily allocated heap pages, per-CPU run queues with
    priorities and aging, threads that share an address space, and futexes.

    ** Style

    C functions are Rocq functions with the source's names.  Pure code is a function;
    kernel code that changes globals is a program of the monad of Monad.v, whose
    outcomes are a value in a new state, a panic, exhausted fuel, or the CPU given up
    together with the rest of the function, resumed from whatever state other
    processes leave.  [wp] is total correctness (the program returns, and the result
    satisfies the postcondition); [wps I R] also allows the CPU to be given up in
    states satisfying [I] and resumed in states related by [R].  Words are integers in
    [0, 2^w) with the wrap-around written out ([u32], [s32]); addresses of kernel
    objects that live in tables are indexes; an access out of bounds panics in the
    model.

    The state is layered: [mstate] (Machine.v: physical memory, allocator, paging
    registers, locks held) inside [pstate] (ProcDefs.v: process table, run queues,
    current process) inside [kstate] (KernDefs.v: buffers, log, disk, inodes, files,
    pipes, console, disk queue).  [zoom] lifts a program of one layer to the next.

    ** Parts

    - Prelude, Bytes, Ring, Monad: tactics, machine integers, little-endian fields,
      ring buffers with wrapping counters, the monad and its rules.
    - Strings (string.c, ulib.c), Printf (printf.c, cprintf), Grep (grep.c).
    - UserProgs (cat.c, echo.c, wc.c, ln.c, rm.c, mkdir.c, kill.c, init.c ...): programs
      as trees of system calls whose answers the environment chooses.  UserSpec proves
      them against [must], total correctness over all answers the kernel may give.
    - Umalloc (umalloc.c): the heap as words of memory, headers and free list included.
      UmallocInv states how the circular list tiles the heap, UmallocOps proves the
      operations, UmallocUse relates them to a map of live blocks.  The class [Sbrk] is
      what the allocator relies on from the kernel.
    - Spinlock (spinlock.c): CPUs interleaving at every observable access;
      [spinlock_contract] gives exclusion and the exact conditions for panics.  The other
      files use the contract: a set of held locks, with panics on misuse.
    - Machine (param.h, memlayout.h, mmu.h), Kalloc (kalloc.c), Vm (vm.c), with the
      invariant [vm_inv] in VmInv and the operations' specifications in VmOps, VmFree,
      VmKern, VmFault and VmCow.  VmUser has the client's view: every process owns a
      private array of pages, which loads, stores, faults, fork and exit respect.  The
      TLB is part of the state.  Demo instantiates the invariant.
    - Mp, MpInv (mp.c, acpi.c): the search for the firmware's tables in physical memory
      and the list of processors and I/O APICs they describe.
    - ProcDefs, RunQueue, Proc, ProcInv, DemoProc (proc.c, proc.h): run queues refine
      lists per priority; aging and bounded waiting; the process-table invariant under
      scheduler, sleep, wakeup, yield, kill.  FutexInv: which sleepers futex_wake
      wakes.  Uthread (uthread.c): mutexes and condition variables over futexes.
    - KernDefs, Sleeplock (sleeplock.c), Bio and BioInv (bio.c, memide.c): the cache
      refines an array of blocks [blk].  Ide (ide.c): the same interface by an
      interrupt-driven queue, over a class of drives that are busy for a while and may
      then report an error; the registers select the drive and the sector.
    - Log, LogInv, LogCrash, LogOps (log.c): the disk is the sequence of writes it has
      performed; a crash keeps a prefix of it and recovery runs on what that leaves.
    - Fs (fs.c), FsTx, FsBitmap, FsFile, FsData, FsDir, FsInode, FsAtomic: blocks within
      a transaction, allocation, block maps, file contents, directories as maps, inodes
      on disk, and [write_atomic], which puts the file layer on top of the log.  DemoKern and DemoFs
      are a disk with one small file.
    - File (file.c, pipe.c), PipeInv, Fork and ForkInv (fork, clone, exit of proc.c), Exec
      (exec.c), Syscall (syscall.c, sysproc.c), Sysfile (sysfile.c), Trap (trap.c), Console
      and ConsoleInv (console.c, kbd.c).
    - Boot (bootmain.c): the loader, against a class of drives.  Seg (mmu.h, seginit,
      tvinit, entrypgdir): descriptors as C builds and as the processor decodes them.
      Apic and ApicInv (lapic.c, ioapic.c, picirq.c, uart.c): device drivers as histories
      of register accesses, with the answers chosen by the device.
    - Sh (sh.c), ShInv, ShPrint, ShRun: the shell's parser and the processes it starts.
    - Mkfs (mkfs.c), MkfsInv, MkfsOps, MkfsMain: the builder of the initial image, over
      the same blocks, inodes and directory entries as the kernel reads.

    ** What the theorems show

    - Memory: copy-on-write, lazy allocation and the TLB are invisible; a store reaches
      one word of one process; frames are freed exactly when nobody uses them.  The one
      fault that is not resolved is a user's write to its guard page, which repeats.
    - Scheduling: the queue operations refine lists; no process is lost; aging brings
      every waiting process to the top, where, along every run of the queue operations,
      no more are taken before it than were ahead of it; the scheduler, sleep,
      wakeup and yield keep the table consistent and never panic.
    - Locks and threads: exclusion for spinlocks, sleep locks and user mutexes, the last
      with no lost wakeup.
    - Storage: the cache is an array; commit, and a write to a file with it, is atomic
      under crashes at any disk write and leaves an empty log on the disk; recovery
      may be interrupted; reads return what
      was written, and other files are not touched; a directory is a map from names to
      inodes that dirlink extends by one name and dirlookup reads; the disk driver
      completes requests in order, and on an error leaves the buffer's old content.
    - Devices and pipes: a pipe is a queue, and a write adds all its bytes or, when nobody
      will read on, a prefix of them; the console is a line editor.
    - Shell: parsing terminates and inverts printing; each process of a pipeline is
      connected as the line says.
    - User side: malloc and free implement a map of disjoint live blocks, inside the
      memory sbrk granted, for requests below 2^31 - 16 bytes; cat and wc handle every way read may cut their input.
    - Processes: fork adds a copy of its caller with private memory and counted
      references, or leaves no trace of the attempt.
    - Set-up: the boot loader places every segment of the kernel's file, if none reaches
      into the memory the sectors of the next are copied to; the only way into
      the kernel open to user code is the system call gate; interrupts reach the CPU the
      driver asked for; the clock is read without mixing two dates.  The image mkfs
      writes is a file system with the named files and contents, in which only a root
      directory of a multiple of 32 entries claims a block it does not have; processor
      discovery finds the table when there is one.

    ** Fuel and bounds

    Loops that are not structural get fuel from the data: list walks the number of
    buffers, processes or slots, transfers [rw_fuel n] = n / BSIZE + 3 blocks, the
    parser the length of the line, page loops the pages of the range, the allocator the
    number of headers on its list, mkfs the bytes to append, the boot loader the sectors of
    a segment, and the table scans of mp.c and acpi.c the length the table declares.
    Loops that wait for a device take the device's own bound as an argument.  Theorems about
    results use [wp], where running out of fuel is failure, so they show that it is
    enough.  The class [Fuel] bounds only loops that wait for another process, and
    [wps] holds for every value of it.  A transaction is bounded by [log_limit] = 29
    blocks, as in log_write.

    ** Not modelled

    Assembly (boot sector, entry, swtch, trap entry), and the rest of main.c, which calls
    the set-up functions in turn and starts the other processors on entryother.S.  Other
    CPUs appear in Spinlock and in what [wps] allows while a process sleeps; between these
    points the code runs under its locks.  Device answers are inputs.  procdump, which
    prints the process table; [consoleintr] ends with whether it is called.  ideinit, which
    probes for the second disk.  The test programs, which only exercise system calls and
    print what they see, are left out. *)

From stdpp Require Export base numbers gmap list strings.
From Stdlib Require Export ZArith Lia.
#[global] Open Scope Z_scope.

(** ** Tactics shared by the development *)

(** Case analysis on the boolean tests that occur in the definitions, turning
    each into the proposition it decides. *)
Ltac zbool :=
  repeat match goal with
  | H : (_ =? _) = true |- _ => apply Z.eqb_eq in H
  | H : (_ =? _) = false |- _ => apply Z.eqb_neq in H
  | H : (_ <? _) = true |- _ => apply Z.ltb_lt in H
  | H : (_ <? _) = false |- _ => apply Z.ltb_ge in H
  | H : (_ <=? _) = true |- _ => apply Z.leb_le in H
  | H : (_ <=? _) = false |- _ => apply Z.leb_gt in H
  | H : negb _ = true |- _ => apply negb_true_iff in H
  | H : negb _ = false |- _ => apply negb_false_iff in H
  | H : _ && _ = true |- _ => apply andb_true_iff in H; destruct H
  | H : _ || _ = false |- _ => apply orb_false_iff in H; destruct H
  end.

(** Splits the innermost [if] or [match] on a boolean in the goal. *)
Ltac zif :=
  match goal with
  | |- context [if ?b then _ else _] =>
      lazymatch type of b with
      | bool => let E := fresh "E" in destruct b eqn:E; zbool
      | _ => let E := fresh "E" in destruct b as [E|E]
      end
  end.

(** Adds a fact that is not in the context yet. *)
Ltac learn H :=
  let T := type of H in
  lazymatch goal with _ : T |- _ => fail | _ => pose proof H end.

(** Linear arithmetic with division and remainder by constants. *)
Ltac zdiv := Z.to_euclidean_division_equations; lia.

(** ** C integers *)

Definition u16 (z : Z) : Z := z mod 2 ^ 16.
Definition u32 (z : Z) : Z := z mod 2 ^ 32.
Definition s32 (z : Z) : Z := let w := z mod 2 ^ 32 in if w <? 2 ^ 31 then w else w - 2 ^ 32.

Lemma u32_range z : 0 <= u32 z < 2 ^ 32.
Proof. apply Z.mod_pos_bound. lia. Qed.

Lemma u32_small z : 0 <= z < 2 ^ 32 -> u32 z = z.
Proof. intros. by apply Z.mod_small. Qed.

Lemma u16_small z : 0 <= z < 2 ^ 16 -> u16 z = z.
Proof. intros. by apply Z.mod_small. Qed.

Lemma s32_small z : - 2 ^ 31 <= z < 2 ^ 31 -> s32 z = z.
Proof.
  intros H. unfold s32. destruct (decide (0 <= z)).
  - rewrite Z.mod_small by lia. zif; lia.
  - rewrite <- (Z.mod_unique z (2 ^ 32) (-1) (z + 2 ^ 32)) by lia. zif; lia.
Qed.

Lemma s32_range z : - 2 ^ 31 <= s32 z < 2 ^ 31.
Proof. unfold s32. pose proof (Z.mod_pos_bound z (2 ^ 32)). zif; lia. Qed.

(** ** Bits *)

(** [has w f] is the C test [w & f]. *)
Definition has (w f : Z) : bool := negb (Z.land w f =? 0).

Lemma has_bit w n : 0 <= n -> has w (2 ^ n) = Z.testbit w n.
Proof.
  intros Hn. unfold has. destruct (Z.testbit w n) eqn:E.
  - apply negb_true_iff, Z.eqb_neq. intros H0.
    assert (Z.testbit (Z.land w (2 ^ n)) n = true) as H1
      by (rewrite Z.land_spec, E, Z.pow2_bits_true by lia; done).
    by rewrite H0, Z.bits_0 in H1.
  - apply negb_false_iff, Z.eqb_eq. apply Z.bits_inj'. intros m Hm.
    rewrite Z.land_spec, Z.bits_0. destruct (decide (m = n)) as [->|].
    + by rewrite E.
    + rewrite Z.pow2_bits_false by lia. apply andb_false_r.
Qed.

(** ** Sums over finite maps *)

Section msum.
Context {K A : Type} `{Countable K}.
Implicit Types (m : gmap K A) (w : K -> A -> Z).

Definition msum w m : Z := map_fold (fun k a acc => w k a + acc) 0 m.

Lemma msum_empty w : msum w ∅ = 0.
Proof. apply map_fold_empty. Qed.

Lemma msum_insert_fresh w m k a : m !! k = None -> msum w (<[k:=a]> m) = w k a + msum w m.
Proof. intros Hk. unfold msum. rewrite map_fold_insert_L; [done | intros; lia | done]. Qed.

Lemma msum_delete w m k a : m !! k = Some a -> msum w m = w k a + msum w (delete k m).
Proof.
  intros Hk. rewrite <- (insert_delete_id m k a Hk) at 1.
  apply msum_insert_fresh. apply lookup_delete_eq.
Qed.

Lemma msum_insert w m k a b :
  m !! k = Some b -> msum w (<[k:=a]> m) = msum w m - w k b + w k a.
Proof.
  intros Hk. rewrite <- insert_delete_eq, msum_insert_fresh by apply lookup_delete_eq.
  rewrite (msum_delete w m k b Hk). lia.
Qed.

Lemma msum_ext w w' m :
  (forall k a, m !! k = Some a -> w k a = w' k a) -> msum w m = msum w' m.
Proof.
  induction m as [|k a m Hk IH] using map_ind; intros Hw; [by rewrite !msum_empty|].
  rewrite !msum_insert_fresh by done. rewrite Hw by apply lookup_insert_eq.
  rewrite IH; [done|]. intros k' a' Hk'. apply Hw. rewrite lookup_insert_ne; naive_solver.
Qed.

Lemma msum_nonneg w m : (forall k a, m !! k = Some a -> 0 <= w k a) -> 0 <= msum w m.
Proof.
  induction m as [|k a m Hk IH] using map_ind; intros Hw; [by rewrite msum_empty|].
  rewrite msum_insert_fresh by done.
  pose proof (Hw k a (lookup_insert_eq _ _ _)).
  enough (0 <= msum w m) by lia. apply IH. intros k' a' Hk'. apply Hw.
  rewrite lookup_insert_ne; naive_solver.
Qed.

Lemma msum_le_bound w m c :
  (forall k a, m !! k = Some a -> w k a <= c) -> msum w m <= c * Z.of_nat (size m).
Proof.
  induction m as [|k a m Hk IH] using map_ind; intros Hw.
  - rewrite msum_empty, map_size_empty. lia.
  - rewrite msum_insert_fresh, map_size_insert_None by done.
    pose proof (Hw k a (lookup_insert_eq _ _ _)).
    enough (msum w m <= c * Z.of_nat (size m)) by lia. apply IH.
    intros k' a' Hk'. apply Hw. rewrite lookup_insert_ne; naive_solver.
Qed.

(** One entry is at most the sum. *)
Lemma msum_ge w m k a :
  (forall k a, m !! k = Some a -> 0 <= w k a) -> m !! k = Some a -> w k a <= msum w m.
Proof.
  intros Hw Hk. rewrite (msum_delete w m k a Hk).
  enough (0 <= msum w (delete k m)) by lia. apply msum_nonneg.
  intros k' a' Hk'. apply Hw. by apply lookup_delete_Some in Hk' as [_ ?].
Qed.

(** Two different entries together are at most the sum. *)
Lemma msum_ge2 w m k a k' a' :
  (forall k a, m !! k = Some a -> 0 <= w k a) ->
  m !! k = Some a -> m !! k' = Some a' -> k <> k' -> w k a + w k' a' <= msum w m.
Proof.
  intros Hw Hk Hk' Hne. rewrite (msum_delete w m k a Hk).
  enough (w k' a' <= msum w (delete k m)) by lia. apply msum_ge.
  - intros k2 a2 Hk2. apply Hw. by apply lookup_delete_Some in Hk2 as [_ ?].
  - by rewrite lookup_delete_ne.
Qed.

Lemma msum_pos w m :
  (forall k a, m !! k = Some a -> 0 <= w k a) -> 0 < msum w m ->
  exists k a, m !! k = Some a /\ 0 < w k a.
Proof.
  induction m as [|k a m Hk IH] using map_ind; intros Hw Hp.
  { rewrite msum_empty in Hp. lia. }
  rewrite msum_insert_fresh in Hp by done.
  destruct (decide (0 < w k a)) as [|Hn]; [exists k, a; by rewrite lookup_insert_eq|].
  destruct IH as (k' & a' & Hk' & Hw'); [|lia|].
  - intros k' a' Hk'. apply Hw. rewrite lookup_insert_ne; naive_solver.
  - exists k', a'. rewrite lookup_insert_ne by naive_solver. done.
Qed.

Lemma msum_zero m : msum (fun _ _ => 0) m = 0.
Proof.
  induction m as [|k a m Hk IH] using map_ind; [by rewrite msum_empty|].
  by rewrite msum_insert_fresh.
Qed.

(** At most one entry counts, for at most 1. *)
Lemma msum_le_one w m :
  (forall k a, m !! k = Some a -> 0 <= w k a <= 1) ->
  (forall k a k' a', m !! k = Some a -> m !! k' = Some a' -> 0 < w k a -> 0 < w k' a' -> k = k') ->
  msum w m <= 1.
Proof.
  intros Hw Hu. destruct (decide (0 < msum w m)) as [Hp|]; [|lia].
  assert (forall k a, m !! k = Some a -> 0 <= w k a) as Hn by (intros k a Hk; apply (Hw k a Hk)).
  destruct (msum_pos w m Hn Hp) as (k & a & Hk & Hpos). rewrite (msum_delete w m k a Hk).
  rewrite (msum_ext w (fun _ _ => 0) (delete k m)); [rewrite msum_zero; pose proof (Hw k a Hk); lia|].
  intros k' a' [Hne Hk']%lookup_delete_Some. pose proof (Hw k' a' Hk').
  destruct (decide (0 < w k' a')); [|lia]. destruct Hne. by eapply Hu.
Qed.

Lemma msum_same w m m' :
  (forall k, from_option (w k) (-1) (m !! k) = from_option (w k) (-1) (m' !! k)) ->
  (forall k, is_Some (m !! k) <-> is_Some (m' !! k)) -> msum w m = msum w m'.
Proof.
  revert m'. induction m as [|k a m Hk IH] using map_ind; intros m' Hw Hd.
  - assert (m' = ∅) as ->; [|done]. apply map_empty. intros k. apply eq_None_not_Some.
    rewrite <- Hd, lookup_empty. by intros [? ?].
  - assert (is_Some (m' !! k)) as [b Hb] by (apply Hd; rewrite lookup_insert_eq; eauto).
    rewrite msum_insert_fresh, (msum_delete w m' k b Hb) by done.
    specialize (Hw k) as Hwk. rewrite lookup_insert_eq, Hb in Hwk. cbn in Hwk. f_equal; [done|].
    apply IH; intros k'; (destruct (decide (k' = k)) as [->|Hne];
      [rewrite lookup_delete_eq, Hk|rewrite lookup_delete_ne by done]).
    + done.
    + specialize (Hw k'). by rewrite lookup_insert_ne in Hw.
    + done.
    + specialize (Hd k'). by rewrite lookup_insert_ne in Hd.
Qed.

Lemma msum_singleton w k a : msum w {[k := a]} = w k a.
Proof.
  rewrite <- insert_empty, msum_insert_fresh, msum_empty by apply lookup_empty. lia.
Qed.

Lemma msum_add w w' m : msum (fun k a => w k a + w' k a) m = msum w m + msum w' m.
Proof.
  induction m as [|k a m Hk IH] using map_ind; [by rewrite !msum_empty|].
  rewrite !msum_insert_fresh by done. lia.
Qed.
End msum.

Lemma filter_ext_in {A} (P P' : A -> Prop) `{forall x, Decision (P x), forall x, Decision (P' x)} (l : list A) :
  (forall x, x ∈ l -> P x <-> P' x) -> filter P l = filter P' l.
Proof.
  induction l as [|x l IH]; intros Hp; [done|]. rewrite !filter_cons.
  specialize (Hp x) as Hx. rewrite IH by set_solver.
  destruct (decide (P x)), (decide (P' x)); set_solver.
Qed.

Lemma filter_all {A} (P : A -> Prop) `{forall x, Decision (P x)} (l : list A) :
  (forall x, x ∈ l -> P x) -> filter P l = l.
Proof.
  induction l as [|x l IH]; intros Hp; [done|]. rewrite filter_cons_True by (apply Hp; set_solver).
  f_equal. apply IH. set_solver.
Qed.
