(* ===== verification/Strings.v ===== *)
(** * String and memory routines (string.c, ulib.c)

    Memory is a function from addresses to bytes.  The kernel's [memset] and
    [memmove] are proved to fill and to copy a range, [memmove] also when the
    ranges overlap; the string routines are related to the sequence of bytes
    before the terminating NUL. *)

From Stdlib Require Import Ascii.
From S2P Require Import Prelude.

(** The bytes of a literal. *)
Definition codes (s : string) : list Z := map (fun a => Z.of_N (N_of_ascii a)) (String.list_ascii_of_string s).

Definition u8 (z : Z) : Z := z mod 2 ^ 8.
Definition bmem : Type := Z -> Z.
Definition poke (a v : Z) (m : bmem) : bmem := fun x => if x =? a then u8 v else m x.

(** Pointer arithmetic is modulo the address size. *)
Definition padd (a n : Z) : Z := u32 (a + n).

(** x86.h *)
Fixpoint stosb (cnt : nat) (addr data : Z) (m : bmem) : bmem :=
  match cnt with
  | O => m
  | S cnt => stosb cnt (padd addr 1) data (poke addr data m)
  end.

Definition peek32 (a : Z) (m : bmem) : Z :=
  m a + 2 ^ 8 * m (padd a 1) + 2 ^ 16 * m (padd a 2) + 2 ^ 24 * m (padd a 3).
Definition poke32 (a v : Z) (m : bmem) : bmem :=
  poke (padd a 3) (Z.shiftr v 24) (poke (padd a 2) (Z.shiftr v 16) (poke (padd a 1) (Z.shiftr v 8) (poke a v m))).

Fixpoint stosl (cnt : nat) (addr data : Z) (m : bmem) : bmem :=
  match cnt with
  | O => m
  | S cnt => stosl cnt (padd addr 4) data (poke32 addr data m)
  end.

(** ** string.c *)

Definition memset (dst c n : Z) (m : bmem) : bmem :=
  if (Z.rem (s32 dst) 4 =? 0) && (n mod 4 =? 0) then
    let c := Z.land c 0xFF in
    stosl (Z.to_nat (n / 4)) dst (Z.lor (Z.lor (Z.lor (Z.shiftl c 24) (Z.shiftl c 16)) (Z.shiftl c 8)) c) m
  else stosb (Z.to_nat n) dst c m.

Fixpoint memcmp_loop (n : nat) (s1 s2 : Z) (m : bmem) : Z :=
  match n with
  | O => 0
  | S n => if negb (m s1 =? m s2) then m s1 - m s2 else memcmp_loop n (padd s1 1) (padd s2 1) m
  end.
Definition memcmp (v1 v2 n : Z) (m : bmem) : Z := memcmp_loop (Z.to_nat n) v1 v2 m.

(** The two loops of [memmove]: from the end, and from the start. *)
Fixpoint memmove_down (n : nat) (d s : Z) (m : bmem) : bmem :=
  match n with
  | O => m
  | S n => let d := padd d (-1) in let s := padd s (-1) in memmove_down n d s (poke d (m s) m)
  end.
Fixpoint memmove_up (n : nat) (d s : Z) (m : bmem) : bmem :=
  match n with
  | O => m
  | S n => memmove_up n (padd d 1) (padd s 1) (poke d (m s) m)
  end.
Definition memmove (dst src n : Z) (m : bmem) : bmem :=
  if (src <? dst) && (dst <? padd src n)
  then memmove_down (Z.to_nat n) (padd dst n) (padd src n) m
  else memmove_up (Z.to_nat n) dst src m.

Fixpoint strncmp_loop (n : nat) (p q : Z) (m : bmem) : Z :=
  match n with
  | O => 0
  | S n => if negb (m p =? 0) && (m p =? m q) then strncmp_loop n (padd p 1) (padd q 1) m else m p - m q
  end.
Definition strncmp (p q n : Z) (m : bmem) : Z := strncmp_loop (Z.to_nat n) p q m.

Fixpoint strncpy_loop (n : nat) (s t : Z) (m : bmem) : bmem :=
  match n with
  | O => m
  | S n =>
      let c := m t in
      let m := poke s c m in
      if c =? 0 then stosb n (padd s 1) 0 m else strncpy_loop n (padd s 1) (padd t 1) m
  end.
Definition strncpy (s t n : Z) (m : bmem) : bmem := strncpy_loop (Z.to_nat n) s t m.

(** [n] more bytes may be copied before the last one, which is kept for NUL. *)
Fixpoint safestrcpy_loop (n : nat) (s t : Z) (m : bmem) : bmem :=
  match n with
  | O => poke s 0 m
  | S n =>
      let c := m t in
      let m := poke s c m in
      if c =? 0 then poke (padd s 1) 0 m else safestrcpy_loop n (padd s 1) (padd t 1) m
  end.
Definition safestrcpy (s t n : Z) (m : bmem) : bmem :=
  if n <=? 0 then m else safestrcpy_loop (Z.to_nat (n - 1)) s t m.

(** [None] when no NUL is met in [fuel] bytes. *)
Fixpoint strlen_loop (fuel : nat) (s n : Z) (m : bmem) : option Z :=
  match fuel with
  | O => None
  | S fuel => if negb (m (padd s n) =? 0) then strlen_loop fuel s (s32 (n + 1)) m else Some n
  end.
Definition strlen (fuel : nat) (s : Z) (m : bmem) : option Z := strlen_loop fuel s 0 m.

(** ** ulib.c *)

Module Ulib.

Fixpoint strcpy (fuel : nat) (s t : Z) (m : bmem) : option bmem :=
  match fuel with
  | O => None
  | S fuel =>
      let c := m t in
      let m := poke s c m in
      if c =? 0 then Some m else strcpy fuel (padd s 1) (padd t 1) m
  end.

Fixpoint strcmp (fuel : nat) (p q : Z) (m : bmem) : option Z :=
  match fuel with
  | O => None
  | S fuel => if negb (m p =? 0) && (m p =? m q) then strcmp fuel (padd p 1) (padd q 1) m else Some (m p - m q)
  end.

(** The null pointer is returned as [Some 0]. *)
Fixpoint strchr (fuel : nat) (s c : Z) (m : bmem) : option Z :=
  match fuel with
  | O => None
  | S fuel => if m s =? 0 then Some 0 else if m s =? u8 c then Some s else strchr fuel (padd s 1) c m
  end.

Definition memset (dst c n : Z) (m : bmem) : bmem := stosb (Z.to_nat n) dst c m.
Definition memmove (vdst vsrc n : Z) (m : bmem) : bmem := memmove_up (Z.to_nat n) vdst vsrc m.

(** '0' is 48 and '9' is 57. *)
Fixpoint atoi_loop (fuel : nat) (s n : Z) (m : bmem) : option Z :=
  match fuel with
  | O => None
  | S fuel =>
      if (48 <=? m s) && (m s <=? 57) then atoi_loop fuel (padd s 1) (s32 (n * 10 + m s - 48)) m else Some n
  end.
Definition atoi (fuel : nat) (s : Z) (m : bmem) : option Z := atoi_loop fuel s 0 m.

End Ulib.

(** ** Ranges *)

Definition in_rng (a n x : Z) : bool := (a <=? x) && (x <? a + n).

Lemma in_rng_spec a n x : in_rng a n x = true <-> a <= x < a + n.
Proof. unfold in_rng. rewrite andb_true_iff, Z.leb_le, Z.ltb_lt. done. Qed.

Lemma in_rng_false a n x : in_rng a n x = false <-> ~ a <= x < a + n.
Proof. rewrite <- in_rng_spec. by destruct (in_rng a n x). Qed.

Ltac rng :=
  repeat match goal with
  | H : in_rng _ _ _ = true |- _ => apply in_rng_spec in H
  | H : in_rng _ _ _ = false |- _ => apply in_rng_false in H
  | |- context [in_rng ?a ?n ?x] => let E := fresh "E" in destruct (in_rng a n x) eqn:E
  end.

Lemma padd_small a n : 0 <= a + n < 2 ^ 32 -> padd a n = a + n.
Proof. apply u32_small. Qed.

Lemma u8_idem z : u8 (u8 z) = u8 z.
Proof. apply Z.mod_mod. lia. Qed.

Lemma u8_small z : 0 <= z < 256 -> u8 z = z.
Proof. apply Z.mod_small. Qed.

Definition bytes_ok (m : bmem) : Prop := forall a, 0 <= m a < 256.

Lemma poke_ok a v m : bytes_ok m -> bytes_ok (poke a v m).
Proof. intros H x. unfold poke. zif; [apply Z.mod_pos_bound; lia|apply H]. Qed.

Lemma poke_same a v m : poke a v m a = u8 v.
Proof. unfold poke. by rewrite Z.eqb_refl. Qed.

Lemma poke_ne a v m x : x <> a -> poke a v m x = m x.
Proof. intros. unfold poke. by rewrite (proj2 (Z.eqb_neq _ _)). Qed.

Lemma stosb_at cnt a c m x :
  0 <= a -> a + Z.of_nat cnt <= 2 ^ 32 ->
  stosb cnt a c m x = if in_rng a (Z.of_nat cnt) x then u8 c else m x.
Proof.
  revert a m. induction cnt as [|n IH]; intros a m Ha Hn; cbn [stosb].
  { rng; [lia|done]. }
  destruct (decide (n = 0%nat)) as [->|].
  - cbn [stosb]. unfold poke. rng; zif; done || lia.
  - rewrite padd_small, IH by lia. unfold poke. rng; try zif; done || lia.
Qed.

(** The word of four copies of a byte. *)
Lemma fill_word_byte c k :
  0 <= c < 256 -> k = 0 \/ k = 8 \/ k = 16 \/ k = 24 ->
  u8 (Z.shiftr (Z.lor (Z.lor (Z.lor (Z.shiftl c 24) (Z.shiftl c 16)) (Z.shiftl c 8)) c) k) = c.
Proof.
  intros Hc Hk. unfold u8. apply Z.bits_inj'. intros i Hi.
  assert (forall j, 8 <= j -> Z.testbit c j = false) as Hhi.
  { intros j Hj. rewrite <- (Z.mod_small c (2 ^ 8)) by lia. apply Z.mod_pow2_bits_high. lia. }
  destruct (decide (i < 8)) as [Hlt|].
  - rewrite Z.mod_pow2_bits_low by lia. rewrite Z.shiftr_spec, !Z.lor_spec, !Z.shiftl_spec by lia.
    destruct Hk as [->|[->|[->| ->]]];
      repeat match goal with
      | |- context [Z.testbit c ?j] => first [rewrite (Z.testbit_neg_r c j) by lia|rewrite (Hhi j) by lia]
      end; rewrite ?orb_false_l, ?orb_false_r; f_equal; lia.
  - rewrite Z.mod_pow2_bits_high by lia. by rewrite Hhi by lia.
Qed.

Lemma stosl_at cnt a c m x :
  0 <= a -> a + 4 * Z.of_nat cnt <= 2 ^ 32 -> 0 <= c < 256 ->
  stosl cnt a (Z.lor (Z.lor (Z.lor (Z.shiftl c 24) (Z.shiftl c 16)) (Z.shiftl c 8)) c) m x =
  if in_rng a (4 * Z.of_nat cnt) x then c else m x.
Proof.
  intros Ha Hn Hc. set (w := Z.lor _ c).
  assert (u8 w = c /\ u8 (Z.shiftr w 8) = c /\ u8 (Z.shiftr w 16) = c /\ u8 (Z.shiftr w 24) = c) as (W0&W1&W2&W3).
  { split_and!; [rewrite <- (Z.shiftr_0_r w)|..]; apply fill_word_byte; auto. }
  clearbody w. revert a m Ha Hn. induction cnt as [|n IH]; intros a m Ha Hn; cbn [stosl].
  { rng; [lia|done]. }
  assert (forall x, poke32 a w m x = if in_rng a 4 x then c else m x) as Hp.
  { intros y. unfold poke32, poke. rewrite !padd_small, W0, W1, W2, W3 by lia. rng; repeat zif; done || lia. }
  destruct (decide (n = 0%nat)) as [->|].
  - cbn [stosl]. rewrite Hp. done.
  - rewrite padd_small, IH, Hp by lia. rng; done || lia.
Qed.

Lemma rem_s32 a : 0 <= a < 2 ^ 32 -> (Z.rem (s32 a) 4 =? 0) = (a mod 4 =? 0).
Proof.
  intros Ha. unfold s32. rewrite Z.mod_small by lia.
  apply eq_true_iff_eq. rewrite !Z.eqb_eq. zif; Z.to_euclidean_division_equations; lia.
Qed.

(** ** Correctness *)

(** [memset] fills exactly the range, by words when it is aligned, by bytes when
    it is not. *)
Theorem memset_fills dst c n m x :
  0 <= dst -> 0 <= n -> dst + n <= 2 ^ 32 ->
  memset dst c n m x = if in_rng dst n x then u8 c else m x.
Proof.
  intros Hd Hn Hr. unfold memset. destruct ((Z.rem _ 4 =? 0) && (n mod 4 =? 0)) eqn:E.
  - apply andb_true_iff in E as [_ E]. zbool.
    assert (Z.land c 255 = u8 c) as -> by (apply (Z.land_ones c 8); lia).
    assert (4 * Z.of_nat (Z.to_nat (n / 4)) = n) as En by zdiv.
    rewrite stosl_at, En; [done|lia|lia|apply Z.mod_pos_bound; lia].
  - rewrite stosb_at, Z2Nat.id by lia. done.
Qed.

(** Both loops of [memmove] copy the range they are chosen for. *)
Lemma memmove_up_at n d s m x :
  bytes_ok m -> 0 <= d -> 0 <= s -> d + Z.of_nat n <= 2 ^ 32 -> s + Z.of_nat n <= 2 ^ 32 ->
  d <= s \/ s + Z.of_nat n <= d ->
  memmove_up n d s m x = if in_rng d (Z.of_nat n) x then m (s + (x - d)) else m x.
Proof.
  intros Hm. revert d s m Hm. induction n as [|n IH]; intros d s m Hm Hd Hs Hdn Hsn Hov; cbn [memmove_up].
  { rng; [lia|done]. }
  assert (u8 (m s) = m s) as Hb by apply u8_small, Hm. destruct (decide (n = 0%nat)) as [->|].
  - cbn [memmove_up]. unfold poke. rng; zif; try lia; subst; rewrite ?Hb; first [done|f_equal; lia].
  - rewrite !padd_small, IH by (try apply poke_ok; try done; lia). unfold poke. rewrite Hb.
    rng; repeat zif; try lia; try done; f_equal; lia.
Qed.

Lemma memmove_down_at n d s m x :
  bytes_ok m -> 0 <= d -> 0 <= s -> d + Z.of_nat n < 2 ^ 32 -> s + Z.of_nat n < 2 ^ 32 -> s <= d ->
  memmove_down n (d + Z.of_nat n) (s + Z.of_nat n) m x = if in_rng d (Z.of_nat n) x then m (s + (x - d)) else m x.
Proof.
  revert m. induction n as [|n IH]; intros m Hm Hd Hs Hdn Hsn Hov; cbn [memmove_down].
  { rng; [lia|done]. }
  rewrite !padd_small by lia.
  replace (d + Z.of_nat (S n) + -1) with (d + Z.of_nat n) by lia.
  replace (s + Z.of_nat (S n) + -1) with (s + Z.of_nat n) by lia.
  rewrite IH by (try apply poke_ok; try done; lia). unfold poke. rewrite u8_small by apply Hm.
  rng; repeat zif; try lia; try done; f_equal; lia.
Qed.

(** [memmove] copies: afterwards the destination holds what the source held
    before, and nothing else changed, whether or not the ranges overlap. *)
Theorem memmove_copies dst src n m x :
  bytes_ok m -> 0 <= dst -> 0 <= src -> 0 <= n -> dst + n < 2 ^ 32 -> src + n < 2 ^ 32 ->
  memmove dst src n m x = if in_rng dst n x then m (src + (x - dst)) else m x.
Proof.
  intros Hm Hd Hs Hn Hdn Hsn. unfold memmove. rewrite !padd_small by lia.
  destruct ((src <? dst) && (dst <? src + n)) eqn:E.
  - zbool. rewrite <- (Z2Nat.id n) at 2 3 4 by lia. apply memmove_down_at; try done; lia.
  - rewrite memmove_up_at, Z2Nat.id by (try done; rewrite ?Z2Nat.id; apply andb_false_iff in E as [E|E]; zbool; lia). done.
Qed.

(** User programs' [memmove] copies forward only, so it is right when the
    destination does not start inside the source. *)
Theorem ulib_memmove_copies dst src n m x :
  bytes_ok m -> 0 <= dst -> 0 <= src -> 0 <= n -> dst + n <= 2 ^ 32 -> src + n <= 2 ^ 32 ->
  dst <= src \/ src + n <= dst ->
  Ulib.memmove dst src n m x = if in_rng dst n x then m (src + (x - dst)) else m x.
Proof. intros. unfold Ulib.memmove. rewrite memmove_up_at, Z2Nat.id by (rewrite ?Z2Nat.id; done || lia). done. Qed.

(** It is not when the destination starts inside: a byte is copied over and over. *)
Lemma ulib_memmove_overlap :
  let m := fun a => if (a =? 100) then 7 else 0 in
  map (Ulib.memmove 101 100 3 m) [101; 102; 103] = [7; 7; 7] /\
  map (memmove 101 100 3 m) [101; 102; 103] = [7; 0; 0].
Proof. by vm_compute. Qed.

(** *** Strings *)

(** The bytes at [a]. *)
Fixpoint at_bytes (m : bmem) (a : Z) (l : list Z) : Prop :=
  match l with
  | [] => True
  | c :: l => m a = c /\ at_bytes m (a + 1) l
  end.

(** A NUL-terminated string. *)
Definition cstr (m : bmem) (a : Z) (l : list Z) : Prop := at_bytes m a (l ++ [0]) /\ Forall (fun c => c <> 0) l.

Lemma cstr_nil m a : cstr m a [] <-> m a = 0.
Proof. unfold cstr. cbn. split; [tauto|done]. Qed.

Lemma cstr_cons m a c l : cstr m a (c :: l) <-> m a = c /\ c <> 0 /\ cstr m (a + 1) l.
Proof. unfold cstr. cbn. rewrite Forall_cons. tauto. Qed.

Lemma at_bytes_ext m m' a l :
  (forall x, a <= x < a + Z.of_nat (length l) -> m' x = m x) -> at_bytes m a l -> at_bytes m' a l.
Proof.
  revert a. induction l as [|c l IH]; intros a H; [done|]. cbn [at_bytes length] in *. intros [Hc Hl].
  split; [rewrite H by lia; done|]. apply IH; [|done]. intros x Hx. apply H. lia.
Qed.

Lemma cstr_ext m m' a l :
  (forall x, a <= x <= a + Z.of_nat (length l) -> m' x = m x) -> cstr m a l -> cstr m' a l.
Proof.
  intros H [H1 H2]. split; [|done]. eapply at_bytes_ext; [|done]. intros x Hx. apply H.
  rewrite length_app in Hx. cbn in Hx. lia.
Qed.

Lemma strlen_cstr fuel s k m l :
  cstr m (s + k) l -> 0 <= s -> 0 <= k -> s + k + Z.of_nat (length l) < 2 ^ 32 -> k + Z.of_nat (length l) < 2 ^ 31 ->
  (length l < fuel)%nat -> strlen_loop fuel s k m = Some (k + Z.of_nat (length l)).
Proof.
  revert k l. induction fuel as [|fuel IH]; intros k l Hl Hs Hk Hr Hr2 Hf; [lia|]. cbn [strlen_loop].
  rewrite padd_small by lia. destruct l as [|c l].
  - apply cstr_nil in Hl. rewrite Hl. cbn. f_equal. lia.
  - apply cstr_cons in Hl as (Hc & Hnz & Hl). rewrite Hc, (proj2 (Z.eqb_neq _ _)) by done. cbn [negb length] in *.
    rewrite s32_small by lia. rewrite (IH (k + 1) l); [f_equal; lia|by rewrite Z.add_assoc|lia..].
Qed.

(** [strlen] returns, and returns the length, on every NUL-terminated string. *)
Theorem strlen_spec fuel s m l :
  cstr m s l -> 0 <= s -> s + Z.of_nat (length l) < 2 ^ 32 -> Z.of_nat (length l) < 2 ^ 31 -> (length l < fuel)%nat ->
  strlen fuel s m = Some (Z.of_nat (length l)).
Proof. intros. unfold strlen. rewrite (strlen_cstr fuel s 0 m l); rewrite ?Z.add_0_r; try done; lia. Qed.

(** *** Fixed-size names

    The bytes before the first NUL, at most [n]: what a directory entry or a
    process name holds. *)
Fixpoint name_of (n : nat) (a : Z) (m : bmem) : list Z :=
  match n with
  | O => []
  | S n => if m a =? 0 then [] else m a :: name_of n (a + 1) m
  end.

Lemma name_of_ext n a m m' :
  (forall x, a <= x < a + Z.of_nat n -> m' x = m x) -> name_of n a m' = name_of n a m.
Proof.
  revert a. induction n as [|n IH]; intros a H; [done|]. cbn [name_of]. rewrite H by lia.
  destruct (m a =? 0); [done|]. f_equal. apply IH. intros x Hx. apply H. lia.
Qed.

(** [strncmp] returns 0 exactly when the names are equal. *)
Theorem strncmp_eq p q n m :
  0 <= n -> 0 <= p -> 0 <= q -> p + n <= 2 ^ 32 -> q + n <= 2 ^ 32 ->
  strncmp p q n m = 0 <-> name_of (Z.to_nat n) p m = name_of (Z.to_nat n) q m.
Proof.
  intros Hn. rewrite <- (Z2Nat.id n) at 1 2 by done. unfold strncmp.
  generalize (Z.to_nat n) as k. clear n Hn. intros k. revert p q.
  induction k as [|k IH]; intros p q Hp Hq Hpn Hqn; [done|]. cbn [strncmp_loop name_of].
  destruct (m p =? 0) eqn:E0; destruct (m q =? 0) eqn:E1; zbool; cbn [negb andb].
  - rewrite E0, E1. done.
  - split; [lia|done].
  - rewrite E1, (proj2 (Z.eqb_neq _ _)) by done. split; [lia|done].
  - destruct (m p =? m q) eqn:E2; zbool.
    + destruct (decide (k = 0%nat)) as [->|]; [by rewrite E2|].
      rewrite !padd_small, IH by lia. rewrite E2. split; [by intros ->|by intros [= ->]].
    + split; [lia|]. by intros [= ? _].
Qed.

Lemma strncpy_at k s t m :
  bytes_ok m -> 0 <= s -> 0 <= t -> s + Z.of_nat k <= 2 ^ 32 -> t + Z.of_nat k <= 2 ^ 32 ->
  s + Z.of_nat k <= t \/ t + Z.of_nat k <= s ->
  let m' := strncpy_loop k s t m in
  (forall x, ~ s <= x < s + Z.of_nat k -> m' x = m x) /\
  (forall i, (i < k)%nat -> m' (s + Z.of_nat i) = default 0 (name_of k t m !! i)).
Proof.
  revert s t m. induction k as [|k IH]; intros s t m Hm Hs Ht Hsk Htk Hd; cbn [strncpy_loop name_of].
  { split; [done|lia]. }
  assert (u8 (m t) = m t) as Hb by apply u8_small, Hm.
  destruct (m t =? 0) eqn:E0; zbool.
  - destruct (decide (k = 0%nat)) as [->|Hk].
    + cbn [stosb]. split.
      * intros x Hx. apply poke_ne. lia.
      * intros i Hi. replace i with 0%nat by lia. rewrite Z.add_0_r, poke_same, Hb. done.
    + rewrite padd_small by lia. split.
      * intros x Hx. rewrite stosb_at by lia. unfold poke. rng; try zif; done || lia.
      * intros i Hi. rewrite stosb_at by lia. rewrite lookup_nil. cbn [default].
        unfold poke. rewrite Hb, E0. rng; [done|]. zif; [done|]. lia.
  - destruct (decide (k = 0%nat)) as [->|Hk].
    + cbn [strncpy_loop]. split; [intros x Hx; apply poke_ne; lia|].
      intros i Hi. replace i with 0%nat by lia. rewrite Z.add_0_r, poke_same, Hb. done.
    + rewrite !padd_small by lia.
      destruct (IH (s + 1) (t + 1) (poke s (m t) m)) as [H1 H2]; [by apply poke_ok|lia..|].
      rewrite (name_of_ext k (t + 1) m) in H2 by (intros x Hx; apply poke_ne; lia).
      split.
      * intros x Hx. rewrite H1 by lia. apply poke_ne. lia.
      * intros [|i] Hi.
        -- rewrite Z.add_0_r, H1, poke_same, Hb by lia. done.
        -- change ((m t :: name_of k (t + 1) m) !! S i) with (name_of k (t + 1) m !! i).
           rewrite <- H2 by lia. f_equal. lia.
Qed.

(** [strncpy] copies a name and fills the rest of the field with NULs; nothing
    outside the field changes. *)
Theorem strncpy_copies s t n m :
  bytes_ok m -> 0 <= n -> 0 <= s -> 0 <= t -> s + n <= 2 ^ 32 -> t + n <= 2 ^ 32 -> s + n <= t \/ t + n <= s ->
  let m' := strncpy s t n m in
  name_of (Z.to_nat n) s m' = name_of (Z.to_nat n) t m /\
  (forall x, ~ s <= x < s + n -> m' x = m x) /\
  (forall i, 0 <= i < n -> m' (s + i) = default 0 (name_of (Z.to_nat n) t m !! Z.to_nat i)).
Proof.
  intros Hm Hn Hs Ht Hsn Htn Hd. destruct (strncpy_at (Z.to_nat n) s t m) as [H1 H2]; rewrite ?Z2Nat.id by done; try done.
  rewrite Z2Nat.id in H1 by done. cbv zeta. split_and!; [|exact H1|].
  2:{ intros i Hi. rewrite <- H2 by lia. unfold strncpy. f_equal. lia. }
  assert (forall k a (M M' : bmem) l, l = name_of k a M -> forall s', (forall i, (i < k)%nat -> M' (s' + Z.of_nat i) = default 0 (l !! i)) ->
            name_of k s' M' = l) as Hgen.
  { induction k as [|k IH]; intros a M M' l -> s' HM; [done|]. cbn [name_of].
    pose proof (HM 0%nat ltac:(lia)) as H0. rewrite Z.add_0_r in H0. rewrite H0. cbn [name_of].
    destruct (M a =? 0) eqn:E; cbn; [done|]. rewrite E. f_equal. apply (IH (a + 1) M); [done|].
    intros i Hi. specialize (HM (S i) ltac:(lia)). cbn [name_of] in HM. rewrite E in HM.
    etrans; [|exact HM]. f_equal. lia. }
  apply (Hgen _ t m); [done|exact H2].
Qed.

Lemma safestrcpy_at k s t m :
  bytes_ok m -> 0 <= s -> 0 <= t -> s + Z.of_nat k < 2 ^ 32 -> t + Z.of_nat k <= 2 ^ 32 ->
  s + Z.of_nat k < t \/ t + Z.of_nat k <= s ->
  let m' := safestrcpy_loop k s t m in
  cstr m' s (name_of k t m) /\ forall x, ~ s <= x <= s + Z.of_nat k -> m' x = m x.
Proof.
  revert s t m. induction k as [|k IH]; intros s t m Hm Hs Ht Hsk Htk Hd; cbn [safestrcpy_loop name_of].
  { split; [apply cstr_nil, poke_same|]. intros x Hx. apply poke_ne. lia. }
  assert (u8 (m t) = m t) as Hb by apply u8_small, Hm. rewrite !(padd_small s) by lia.
  destruct (m t =? 0) eqn:E0; zbool.
  - split.
    + apply cstr_nil. rewrite poke_ne by lia. by rewrite poke_same, Hb.
    + intros x Hx. rewrite !poke_ne by lia. done.
  - destruct (decide (k = 0%nat)) as [->|Hk].
    + cbn [safestrcpy_loop name_of]. split.
      * apply cstr_cons. rewrite poke_ne, poke_same, Hb by lia. split_and!; [done|done|]. apply cstr_nil, poke_same.
      * intros x Hx. rewrite !poke_ne by lia. done.
    + rewrite padd_small by lia.
      destruct (IH (s + 1) (t + 1) (poke s (m t) m)) as [H1 H2]; [by apply poke_ok|lia..|].
      rewrite (name_of_ext k (t + 1) m) in H1 by (intros x Hx; apply poke_ne; lia). split.
      * apply cstr_cons. rewrite H2, poke_same, Hb by lia. done.
      * intros x Hx. rewrite H2, poke_ne by lia. done.
Qed.

(** [safestrcpy] leaves a NUL-terminated string: the first [n - 1] bytes of the
    source, within the [n] bytes of the destination. *)
Theorem safestrcpy_terminates s t n m :
  bytes_ok m -> 0 < n -> 0 <= s -> 0 <= t -> s + n <= 2 ^ 32 -> t + n <= 2 ^ 32 -> s + n <= t \/ t + n <= s ->
  let m' := safestrcpy s t n m in
  cstr m' s (name_of (Z.to_nat (n - 1)) t m) /\ forall x, ~ s <= x < s + n -> m' x = m x.
Proof.
  intros Hm Hn Hs Ht Hsn Htn Hd. unfold safestrcpy. rewrite (proj2 (Z.leb_gt _ _)) by lia.
  destruct (safestrcpy_at (Z.to_nat (n - 1)) s t m) as [H1 H2]; try done; try lia. split; [done|].
  intros x Hx. apply H2. lia.
Qed.

(** ** Witnesses *)

(** "abc" at 100, NULs elsewhere. *)
Definition demo_bytes : bmem := fun a => if (100 <=? a) && (a <=? 102) then a - 3 else 0.

Lemma demo_bytes_ok : bytes_ok demo_bytes.
Proof. intros a. unfold demo_bytes. destruct (_ && _) eqn:E; zbool; lia. Qed.

Lemma memmove_copies_witness : memmove 101 100 3 demo_bytes 103 = demo_bytes 102.
Proof.
  rewrite (memmove_copies 101 100 3 demo_bytes 103); [reflexivity|exact demo_bytes_ok|lia..].
Defined.

Lemma strncmp_eq_witness :
  strncmp 100 200 14 demo_bytes = 0 <-> name_of (Z.to_nat 14) 100 demo_bytes = name_of (Z.to_nat 14) 200 demo_bytes.
Proof. apply (strncmp_eq 100 200 14 demo_bytes); lia. Defined.

Lemma strncpy_copies_witness : name_of (Z.to_nat 14) 200 (strncpy 200 100 14 demo_bytes) = [97; 98; 99].
Proof.
  destruct (strncpy_copies 200 100 14 demo_bytes demo_bytes_ok) as [H _]; [lia..|]. rewrite H. reflexivity.
Defined.
