(* ===== verification/Bytes.v ===== *)
(** * Little-endian fields of byte blocks

    The 16- and 32-bit fields the kernel reads and writes through casts of a
    block's bytes: log headers, disk inodes, indirect blocks, directory entries. *)

From S2P Require Import Prelude.

Definition byte_at (d : list Z) (o : nat) : Z := nth o d 0.
Definition byte_of (v k : Z) : Z := Z.shiftr v (8 * k) mod 256.

Definition get16 (d : list Z) (o : nat) : Z := byte_at d o + 2 ^ 8 * byte_at d (o + 1).
Definition get32 (d : list Z) (o : nat) : Z :=
  byte_at d o + 2 ^ 8 * byte_at d (o + 1) + 2 ^ 16 * byte_at d (o + 2) + 2 ^ 24 * byte_at d (o + 3).
Definition put16 (o : nat) (v : Z) (d : list Z) : list Z :=
  <[(o + 1)%nat := byte_of v 1]> (<[o := byte_of v 0]> d).
Definition put32 (o : nat) (v : Z) (d : list Z) : list Z :=
  <[(o + 3)%nat := byte_of v 3]> (<[(o + 2)%nat := byte_of v 2]> (<[(o + 1)%nat := byte_of v 1]> (<[o := byte_of v 0]> d))).

(** Overwrites the bytes from [o] on: [memmove] into a block. *)
Definition blk_write (o : nat) (l d : list Z) : list Z := list_inserts o l d.
Definition blk_read (o n : nat) (d : list Z) : list Z := take n (drop o d).

Lemma length_put16 o v d : length (put16 o v d) = length d.
Proof. unfold put16. by rewrite !length_insert. Qed.

Lemma length_put32 o v d : length (put32 o v d) = length d.
Proof. unfold put32. by rewrite !length_insert. Qed.

Lemma length_blk_write o l d : length (blk_write o l d) = length d.
Proof. apply length_inserts. Qed.

Lemma byte_at_insert d i j v :
  (i < length d)%nat -> byte_at (<[i := v]> d) j = if decide (j = i) then v else byte_at d j.
Proof.
  intros Hi. unfold byte_at. rewrite !nth_lookup. destruct (decide (j = i)) as [->|Hne].
  - by rewrite list_lookup_insert_eq.
  - by rewrite list_lookup_insert_ne by done.
Qed.

Lemma byte_at_put32 o v d j :
  (o + 4 <= length d)%nat -> ~ (o <= j < o + 4)%nat -> byte_at (put32 o v d) j = byte_at d j.
Proof.
  intros Hl Hj. unfold put32. rewrite !byte_at_insert by (rewrite ?length_insert; lia).
  repeat case_decide; done || lia.
Qed.

Lemma byte_at_put16 o v d j :
  (o + 2 <= length d)%nat -> ~ (o <= j < o + 2)%nat -> byte_at (put16 o v d) j = byte_at d j.
Proof.
  intros Hl Hj. unfold put16. rewrite !byte_at_insert by (rewrite ?length_insert; lia).
  repeat case_decide; done || lia.
Qed.

Lemma get32_put32 o v d : (o + 4 <= length d)%nat -> get32 (put32 o v d) o = u32 v.
Proof.
  intros Hl. unfold get32, put32. rewrite !byte_at_insert by (rewrite ?length_insert; lia).
  repeat case_decide; try lia. unfold byte_of, u32. rewrite !Z.shiftr_div_pow2 by lia.
  change (2 ^ (8 * 0)) with 1. change (2 ^ (8 * 1)) with 256. change (2 ^ (8 * 2)) with 65536.
  change (2 ^ (8 * 3)) with 16777216. zdiv.
Qed.

Lemma get16_put16 o v d : (o + 2 <= length d)%nat -> get16 (put16 o v d) o = u16 v.
Proof.
  intros Hl. unfold get16, put16. rewrite !byte_at_insert by (rewrite ?length_insert; lia).
  repeat case_decide; try lia. unfold byte_of, u16. rewrite !Z.shiftr_div_pow2 by lia.
  change (2 ^ (8 * 0)) with 1. change (2 ^ (8 * 1)) with 256. zdiv.
Qed.

(** Fields that do not overlap do not interfere. *)
Lemma get32_put32_ne o o' v d :
  (o + 4 <= length d)%nat -> (o + 4 <= o' \/ o' + 4 <= o)%nat -> get32 (put32 o v d) o' = get32 d o'.
Proof. intros Hl Ho. unfold get32. by rewrite !byte_at_put32 by lia. Qed.

Lemma get32_put16_ne o o' v d :
  (o + 2 <= length d)%nat -> (o + 2 <= o' \/ o' + 4 <= o)%nat -> get32 (put16 o v d) o' = get32 d o'.
Proof. intros Hl Ho. unfold get32. by rewrite !byte_at_put16 by lia. Qed.

Lemma get16_put32_ne o o' v d :
  (o + 4 <= length d)%nat -> (o + 4 <= o' \/ o' + 2 <= o)%nat -> get16 (put32 o v d) o' = get16 d o'.
Proof. intros Hl Ho. unfold get16. by rewrite !byte_at_put32 by lia. Qed.

Lemma get16_put16_ne o o' v d :
  (o + 2 <= length d)%nat -> (o + 2 <= o' \/ o' + 2 <= o)%nat -> get16 (put16 o v d) o' = get16 d o'.
Proof. intros Hl Ho. unfold get16. by rewrite !byte_at_put16 by lia. Qed.

Definition bytes_in (d : list Z) : Prop := Forall (fun b => 0 <= b < 256) d.

Lemma byte_of_range v k : 0 <= byte_of v k < 256.
Proof. apply Z.mod_pos_bound. lia. Qed.

Lemma bytes_in_insert d i v : bytes_in d -> 0 <= v < 256 -> bytes_in (<[i := v]> d).
Proof. intros. by apply Forall_insert. Qed.

Lemma bytes_in_put32 o v d : bytes_in d -> bytes_in (put32 o v d).
Proof. intros. unfold put32. repeat apply bytes_in_insert; try apply byte_of_range. done. Qed.

Lemma byte_at_range d o : bytes_in d -> 0 <= byte_at d o < 256.
Proof.
  intros H. unfold byte_at. rewrite nth_lookup. destruct (d !! o) as [b|] eqn:E; cbn; [|lia].
  by eapply Forall_lookup_1 in H.
Qed.

Lemma get32_range d o : bytes_in d -> 0 <= get32 d o < 2 ^ 32.
Proof.
  intros H. unfold get32. pose proof (byte_at_range d o H). pose proof (byte_at_range d (o + 1) H).
  pose proof (byte_at_range d (o + 2) H). pose proof (byte_at_range d (o + 3) H). lia.
Qed.

(** ** Byte ranges *)

Lemma blk_read_write o l d :
  (o + length l <= length d)%nat -> blk_read o (length l) (blk_write o l d) = l.
Proof.
  intros Hl. unfold blk_read, blk_write. apply list_eq. intros i.
  destruct (decide (i < length l)%nat).
  - rewrite lookup_take_lt, lookup_drop by lia. rewrite list_lookup_inserts by lia. f_equal. lia.
  - rewrite !lookup_ge_None_2; [done|lia|]. rewrite length_take. lia.
Qed.

Lemma byte_at_blk_write o l d j :
  (o + length l <= length d)%nat ->
  byte_at (blk_write o l d) j = if decide (o <= j < o + length l)%nat then nth (j - o) l 0 else byte_at d j.
Proof.
  intros Hl. unfold byte_at, blk_write. rewrite !nth_lookup. case_decide.
  - by rewrite list_lookup_inserts by lia.
  - destruct (decide (j < o)%nat).
    + by rewrite list_lookup_inserts_lt by lia.
    + by rewrite list_lookup_inserts_ge by lia.
Qed.
