(* ===== verification/Ring.v ===== *)
(** * Ring buffers indexed by 32-bit counters

    Shared by the pipes and the console: an array of [N] bytes, [N] a divisor of
    2^32, addressed by counters that are taken modulo [N] and wrap around. *)

From S2P Require Import Prelude.

(** How far the counter [b] is ahead of [a]. *)
Definition ahead (a b : Z) : nat := Z.to_nat (u32 (b - a)).

Lemma ahead_back a b : 0 <= b < 2 ^ 32 -> b = u32 (a + Z.of_nat (ahead a b)).
Proof.
  intros Hb. unfold ahead, u32. rewrite Z2Nat.id by (apply Z.mod_pos_bound; lia).
  rewrite Zplus_mod_idemp_r. replace (a + (b - a)) with b by lia. by rewrite Z.mod_small.
Qed.

Lemma ahead_at a n : 0 <= n < 2 ^ 32 -> ahead a (u32 (a + n)) = Z.to_nat n.
Proof. intros Hn. unfold ahead, u32. rewrite Zminus_mod_idemp_l. replace (a + n - a) with n by lia. by rewrite Z.mod_small. Qed.

Lemma ahead_u32_l a b : ahead (u32 a) b = ahead a b.
Proof. unfold ahead, u32. by rewrite Zminus_mod_idemp_r. Qed.

Lemma ahead_u32_r a b : ahead a (u32 b) = ahead a b.
Proof. unfold ahead, u32. by rewrite Zminus_mod_idemp_l. Qed.

Lemma u32_add_l a b : u32 (u32 a + b) = u32 (a + b).
Proof. unfold u32. by rewrite Zplus_mod_idemp_l. Qed.

(** The counter one further ahead. *)
Lemma ahead_succ a b : 0 <= b < 2 ^ 32 -> Z.of_nat (ahead a b) + 1 < 2 ^ 32 -> ahead a (u32 (b + 1)) = S (ahead a b).
Proof.
  intros Hb Hl. rewrite (ahead_back a b Hb) at 1. rewrite u32_add_l, <- Z.add_assoc, ahead_at by lia. lia.
Qed.

(** The first counter one further. *)
Lemma ahead_pred a b : 0 <= b < 2 ^ 32 -> (0 < ahead a b)%nat -> ahead (u32 (a + 1)) b = (ahead a b - 1)%nat.
Proof.
  intros Hb Hl. rewrite ahead_u32_l, (ahead_back a b Hb) at 1. rewrite ahead_u32_r.
  assert (Z.of_nat (ahead a b) < 2 ^ 32) by (unfold ahead; pose proof (Z.mod_pos_bound (b - a) (2 ^ 32)); unfold u32; lia).
  unfold ahead at 1. replace (a + Z.of_nat (ahead a b) - (a + 1)) with (Z.of_nat (ahead a b - 1)) by lia. rewrite u32_small by lia. lia.
Qed.

Lemma ahead_trans a b c :
  0 <= b < 2 ^ 32 -> 0 <= c < 2 ^ 32 -> Z.of_nat (ahead a b + ahead b c) < 2 ^ 32 -> ahead a c = (ahead a b + ahead b c)%nat.
Proof.
  intros Hb Hc Hl. rewrite (ahead_back b c Hc) at 1. rewrite (ahead_back a b Hb) at 1.
  rewrite u32_add_l, <- Z.add_assoc, ahead_at by lia. lia.
Qed.

Lemma ahead_0 a b : 0 <= a < 2 ^ 32 -> 0 <= b < 2 ^ 32 -> ahead a b = 0%nat <-> a = b.
Proof.
  intros Ha Hb. split.
  - intros E. rewrite (ahead_back a b Hb), E, Z.add_0_r. by rewrite u32_small.
  - intros ->. unfold ahead. by rewrite Z.sub_diag.
Qed.

Section ring.
Context (N : Z) (HN : 0 < N) (Hdiv : (N | 2 ^ 32)).

Definition slot (z : Z) : nat := Z.to_nat (z mod N).

(** The [len] bytes from counter [start]. *)
Definition ring (buf : list Z) (start : Z) (len : nat) : list Z :=
  map (fun k => buf !!! slot (start + Z.of_nat k)) (seq 0 len).

Lemma slot_lt z : (slot z < Z.to_nat N)%nat.
Proof using HN. unfold slot. pose proof (Z.mod_pos_bound z N). lia. Qed.

Lemma slot_u32 z : slot (u32 z) = slot z.
Proof using Hdiv. unfold slot, u32. by rewrite Z.mod_mod_divide. Qed.

Lemma slot_u32_add z k : slot (u32 z + k) = slot (z + k).
Proof using Hdiv. rewrite <- (slot_u32 (u32 z + k)). unfold u32. rewrite Zplus_mod_idemp_l. apply slot_u32. Qed.

Lemma slot_ne start j k : 0 <= j < N -> 0 <= k < N -> j <> k -> slot (start + j) <> slot (start + k).
Proof using HN.
  intros Hj Hk Hne E. apply Hne. unfold slot in E. pose proof (Z.mod_pos_bound (start + j) N). pose proof (Z.mod_pos_bound (start + k) N).
  assert ((start + j) mod N = (start + k) mod N) as E2 by lia.
  rewrite <- (Z.mod_small j N), <- (Z.mod_small k N) by done.
  replace j with (start + j - start) by lia. replace k with (start + k - start) by lia. by rewrite Zminus_mod, E2, <- Zminus_mod.
Qed.

Lemma length_ring buf start len : length (ring buf start len) = len.
Proof using Type. unfold ring. by rewrite length_map, length_seq. Qed.

Lemma ring_u32 buf start len : ring buf (u32 start) len = ring buf start len.
Proof using Hdiv. unfold ring. apply map_ext. intros k. by rewrite slot_u32_add. Qed.

Lemma ring_S buf start len : ring buf start (S len) = ring buf start len ++ [buf !!! slot (start + Z.of_nat len)].
Proof using Type. unfold ring. rewrite seq_S, map_app. done. Qed.

(** The first byte. *)
Lemma ring_cons buf start len : ring buf start (S len) = buf !!! slot start :: ring buf (start + 1) len.
Proof using Type.
  unfold ring. cbn [seq map]. rewrite Z.add_0_r. f_equal. rewrite <- seq_shift, map_map. apply map_ext. intros k. f_equal. f_equal. lia.
Qed.

Lemma ring_app buf start a b : ring buf start (a + b) = ring buf start a ++ ring buf (start + Z.of_nat a) b.
Proof using Type.
  induction b as [|b IH]; [by rewrite Nat.add_0_r, app_nil_r|]. rewrite Nat.add_succ_r, !ring_S, IH, app_assoc. do 4 f_equal. lia.
Qed.

(** Storing after the last byte. *)
Lemma ring_push buf start len c :
  length buf = Z.to_nat N -> Z.of_nat len < N ->
  ring (<[slot (start + Z.of_nat len) := c]> buf) start (S len) = ring buf start len ++ [c].
Proof using HN.
  intros Hb Hl. rewrite ring_S. f_equal.
  - unfold ring. apply map_ext_in. intros k Hk%in_seq. apply list_lookup_total_insert_ne. apply slot_ne; lia.
  - f_equal. apply list_lookup_total_insert_eq. rewrite Hb. apply slot_lt.
Qed.

End ring.
