(* ===== verification/Printf.v ===== *)
(** * Formatted output (printf.c, and printint and cprintf of console.c)

    What is printed is a list of bytes.  An argument of a variadic call is a word;
    when it is the address of a string, the string comes with it. *)

From S2P Require Import Prelude Strings Bytes.

(** ** Numbers *)

(** The loop of both [printint]s: digits from the least significant one, appended
    to [buf], which has room for 16. *)
Fixpoint printint_loop (fuel : nat) (digits : list Z) (x base : Z) (buf : list Z) : option (list Z) :=
  match fuel with
  | O => None
  | S fuel =>
      let buf := buf ++ [byte_at digits (Z.to_nat (x mod base))] in
      let x := x / base in
      if negb (x =? 0) then printint_loop fuel digits x base buf else Some buf
  end.

(** "0123456789ABCDEF" and "0123456789abcdef". *)
Definition DIGITS : list Z := [48; 49; 50; 51; 52; 53; 54; 55; 56; 57; 65; 66; 67; 68; 69; 70].
Definition cdigits : list Z := [48; 49; 50; 51; 52; 53; 54; 55; 56; 57; 97; 98; 99; 100; 101; 102].

(** A 32-bit number has at most 32 digits in any base. *)
Definition num_fuel : nat := 32.

(** printf.c *)
Definition printint (xx base : Z) (sgn : bool) : option (list Z) :=
  let neg := sgn && (xx <? 0) in
  let x := if neg then u32 (- xx) else u32 xx in
  match printint_loop num_fuel DIGITS x base [] with
  | Some buf => Some (rev (if neg then buf ++ [45] else buf))
  | None => None
  end.

(** console.c *)
Definition cprintint (xx base : Z) (sign : bool) : option (list Z) :=
  let sign := sign && (xx <? 0) in
  let x := if sign then u32 (- xx) else u32 xx in
  match printint_loop num_fuel cdigits x base [] with
  | Some buf => Some (rev (if sign then buf ++ [45] else buf))
  | None => None
  end.

(** ** Formats *)

Record varg : Type := MkArg { va_word : Z; va_str : list Z }.
Definition null_str : list Z := [40; 110; 117; 108; 108; 41].
Definition str_of (a : varg) : list Z := if va_word a =? 0 then null_str else va_str a.

(** An argument beyond those passed is whatever the stack holds; here, 0. *)
Definition arg_hd (ap : list varg) : varg := match ap with a :: _ => a | [] => MkArg 0 [] end.

(** [state] is 0 or '%' (37). *)
Fixpoint printf_loop (fmt : list Z) (percent : bool) (ap : list varg) : option (list Z) :=
  match fmt with
  | [] => Some []
  | c :: fmt =>
      if negb percent then
        if c =? 37 then printf_loop fmt true ap
        else option_map (cons c) (printf_loop fmt false ap)
      else
        let emit l ap := option_map (app l) (printf_loop fmt false ap) in
        if c =? 100 then match printint (s32 (va_word (arg_hd ap))) 10 true with Some l => emit l (tl ap) | None => None end
        else if (c =? 120) || (c =? 112) then match printint (s32 (va_word (arg_hd ap))) 16 false with Some l => emit l (tl ap) | None => None end
        else if c =? 115 then emit (str_of (arg_hd ap)) (tl ap)
        else if c =? 99 then emit [u8 (va_word (arg_hd ap))] (tl ap)
        else if c =? 37 then emit [c] ap
        else emit [37; c] ap
  end.
Definition printf (fmt : list Z) (ap : list varg) : option (list Z) := printf_loop fmt false ap.

(** cprintf: the character after a '%' is read at once; a '%' at the end of the
    format ends it. *)
Fixpoint cprintf_loop (fmt : list Z) (argp : list varg) : option (list Z) :=
  match fmt with
  | [] => Some []
  | c :: fmt =>
      if negb (c =? 37) then option_map (cons c) (cprintf_loop fmt argp) else
      match fmt with
      | [] => Some []
      | c :: fmt =>
          let emit l argp := option_map (app l) (cprintf_loop fmt argp) in
          if c =? 100 then match cprintint (s32 (va_word (arg_hd argp))) 10 true with Some l => emit l (tl argp) | None => None end
          else if (c =? 120) || (c =? 112) then match cprintint (s32 (va_word (arg_hd argp))) 16 false with Some l => emit l (tl argp) | None => None end
          else if c =? 115 then emit (str_of (arg_hd argp)) (tl argp)
          else if c =? 37 then emit [37] argp
          else emit [37; c] argp
      end
  end.
Definition cprintf (fmt : list Z) (argp : list varg) : option (list Z) := cprintf_loop fmt argp.

(** ** Numbers print as their digits *)

(** The number whose digits are [ds], least significant first. *)
Fixpoint lsd_val (base : Z) (ds : list Z) : Z :=
  match ds with
  | [] => 0
  | d :: ds => d + base * lsd_val base ds
  end.

Lemma printint_loop_digits fuel digits base x buf k :
  2 <= base -> 0 <= x < base ^ Z.of_nat k -> (1 <= k <= fuel)%nat ->
  exists ds, printint_loop fuel digits x base buf = Some (buf ++ map (fun d => byte_at digits (Z.to_nat d)) ds) /\
    Forall (fun d => 0 <= d < base) ds /\ lsd_val base ds = x /\ (1 <= length ds <= k)%nat.
Proof.
  intros Hb. revert x buf k. induction fuel as [|fuel IH]; intros x buf k Hx Hk; [lia|]. cbn [printint_loop].
  assert (0 <= x mod base < base) as Hm by (apply Z.mod_pos_bound; lia).
  pose proof (Z.div_mod x base ltac:(lia)) as Hdm. assert (0 <= x / base) by (apply Z.div_pos; lia).
  destruct (Z.eqb_spec (x / base) 0) as [E|E]; cbn [negb].
  - exists [x mod base]. cbn. split_and!; [done|by apply Forall_singleton|nia|lia|lia].
  - destruct k as [|k]; [lia|]. assert (x / base < base ^ Z.of_nat k) as Hlt.
    { apply Z.div_lt_upper_bound; [lia|]. rewrite <- Z.pow_succ_r by lia. rewrite <- Nat2Z.inj_succ. lia. }
    destruct (decide (k = 0%nat)) as [->|]; [cbn in Hlt; lia|].
    destruct (IH (x / base) (buf ++ [byte_at digits (Z.to_nat (x mod base))]) k) as (ds & E1 & E2 & E3 & E4); [lia|lia|].
    exists (x mod base :: ds). rewrite E1. cbn. rewrite <- app_assoc. split_and!; [done|by constructor|nia|lia|lia].
Qed.

Lemma decimal_byte d : 0 <= d < 10 -> byte_at DIGITS (Z.to_nat d) = 48 + d.
Proof.
  intros Hd. assert (d = 0 \/ d = 1 \/ d = 2 \/ d = 3 \/ d = 4 \/ d = 5 \/ d = 6 \/ d = 7 \/ d = 8 \/ d = 9) as Hc by lia.
  destruct_or! Hc; subst d; done.
Qed.

Lemma lsd_val_app base ds ds' : lsd_val base (ds ++ ds') = lsd_val base ds + base ^ Z.of_nat (length ds) * lsd_val base ds'.
Proof.
  induction ds as [|d ds IH]; cbn [app lsd_val length]; [rewrite Z.pow_0_r; lia|]. rewrite IH, Nat2Z.inj_succ, Z.pow_succ_r by lia. lia.
Qed.

Lemma lsd_val_nonneg base ds : 0 <= base -> Forall (fun d => 0 <= d < base) ds -> 0 <= lsd_val base ds.
Proof. intros Hb. induction 1 as [|d ds Hd _ IH]; cbn; [lia|nia]. Qed.

(** [atoi] on the digits, most significant first. *)
Lemma atoi_digits fuel a n m ds :
  Forall (fun d => 0 <= d < 10) ds -> cstr m a (rev (map (fun d => 48 + d) ds)) -> (length ds < fuel)%nat ->
  0 <= a -> a + Z.of_nat (length ds) < 2 ^ 32 -> 0 <= n -> n * 10 ^ Z.of_nat (length ds) + lsd_val 10 ds < 2 ^ 31 ->
  Ulib.atoi_loop fuel a n m = Some (n * 10 ^ Z.of_nat (length ds) + lsd_val 10 ds).
Proof.
  intros Hds. revert fuel a n. induction ds as [|d ds IH] using rev_ind; intros fuel a n Hc Hf Ha Hal Hn Hv.
  - destruct fuel as [|fuel]; [cbn in Hf; lia|]. cbn [Ulib.atoi_loop]. cbn in Hc. apply cstr_nil in Hc. rewrite Hc. cbn. f_equal. lia.
  - rewrite length_app in *. cbn [length] in *. apply Forall_app in Hds as [Hds Hd]. rewrite Forall_singleton in Hd.
    rewrite map_app, rev_app_distr in Hc. cbn [map rev app] in Hc. apply cstr_cons in Hc as (E & _ & Hc).
    destruct fuel as [|fuel]; [lia|]. cbn [Ulib.atoi_loop]. rewrite E.
    rewrite (proj2 (Z.leb_le 48 (48 + d))), (proj2 (Z.leb_le (48 + d) 57)) by lia. cbn [andb].
    rewrite lsd_val_app in *. cbn [lsd_val] in *. rewrite Nat2Z.inj_add, Z.pow_add_r in * by lia. change (10 ^ Z.of_nat 1) with 10 in *.
    set (q := 10 ^ Z.of_nat (length ds)) in *. assert (1 <= q) by (unfold q; pose proof (Z.pow_pos_nonneg 10 (Z.of_nat (length ds))); lia).
    pose proof (lsd_val_nonneg 10 ds ltac:(lia) Hds) as H0. rewrite padd_small by lia.
    rewrite s32_small by nia. rewrite IH; [f_equal; unfold q; ring|done|done|lia|lia|lia|lia|fold q; nia].
Qed.

(** Numbers print as their digits and read back: for a non-negative int, %d
    prints at most 10 characters, which fit the 16-byte buffer, and [atoi] of what
    it prints is the number. *)
Theorem printint_atoi x m a fuel :
  0 <= x < 2 ^ 31 -> 0 <= a -> a + 11 < 2 ^ 32 -> (10 < fuel)%nat ->
  exists l, printint x 10 true = Some l /\ (1 <= length l <= 10)%nat /\
    (cstr m a l -> Ulib.atoi fuel a m = Some x).
Proof.
  intros Hx Ha Ha' Hf. unfold printint. rewrite (proj2 (Z.ltb_ge _ _)) by lia. cbn [andb]. rewrite u32_small by lia.
  destruct (printint_loop_digits num_fuel DIGITS 10 x [] 10) as (ds & E1 & E2 & E3 & E4); [lia|change (10 ^ Z.of_nat 10) with 10000000000; lia|unfold num_fuel; lia|].
  rewrite E1. cbn [app]. eexists. split; [done|]. rewrite length_rev, length_map. split; [done|].
  assert (map (fun d => byte_at DIGITS (Z.to_nat d)) ds = map (fun d => 48 + d) ds) as ->.
  { apply map_ext_in. intros d Hd. apply decimal_byte. rewrite Forall_forall in E2. by apply E2, list_elem_of_In. }
  intros Hc. unfold Ulib.atoi. rewrite (atoi_digits fuel a 0 m ds); [f_equal; lia|done|done|lia|done|lia|lia|lia].
Qed.

(** What %d prints. *)
Definition decimal (x : Z) : list Z := default [] (printint x 10 true).

Lemma printint_decimal x : 0 <= x < 2 ^ 31 -> printint x 10 true = Some (decimal x).
Proof.
  intros Hx. unfold decimal. unfold printint at 1 2. rewrite (proj2 (Z.ltb_ge _ _)) by lia. cbn [andb]. rewrite u32_small by lia.
  destruct (printint_loop_digits num_fuel DIGITS 10 x [] 10) as (ds & -> & _); [lia|change (10 ^ Z.of_nat 10) with 10000000000; lia|unfold num_fuel; lia|]. done.
Qed.

(** Memory with "2026" at 100. *)
Definition demo_num : bmem := fun a => byte_at [50; 48; 50; 54] (Z.to_nat (a - 100)).

Lemma printint_atoi_witness : exists l, printint 2026 10 true = Some l /\ (1 <= length l <= 10)%nat /\
  (cstr demo_num 100 l -> Ulib.atoi 20 100 demo_num = Some 2026).
Proof. apply (printint_atoi 2026 demo_num 100 20); lia. Defined.
