(* ===== verification/Grep.v ===== *)
(** * grep (grep.c)

    The pattern matcher, on C strings as lists of bytes, against the language of
    the pattern; and the loop that splits what is read into lines. *)

From S2P Require Import Prelude Strings Bytes.

(** '.' is 46, '*' 42, '^' 94, '$' 36, newline 10. *)
Definition DOT : Z := 46.
Definition STAR : Z := 42.
Definition CARET : Z := 94.
Definition DOLLAR : Z := 36.
Definition NL : Z := 10.

(** ** The matcher *)

(** [matchstar], given [matchhere] on the rest of the pattern. *)
Fixpoint matchstar (here : list Z -> bool) (c : Z) (text : list Z) : bool :=
  here text ||
  match text with
  | [] => false
  | t :: text => ((t =? c) || (c =? DOT)) && matchstar here c text
  end.

Fixpoint matchhere (re text : list Z) : bool :=
  match re with
  | [] => true
  | c :: re1 =>
      match re1 with
      | s :: re2 =>
          if s =? STAR then matchstar (matchhere re2) c text else
          match text with
          | t :: text => ((c =? DOT) || (c =? t)) && matchhere re1 text
          | [] => false
          end
      | [] =>
          if c =? DOLLAR then match text with [] => true | _ => false end else
          match text with
          | t :: text => ((c =? DOT) || (c =? t)) && matchhere re1 text
          | [] => false
          end
      end
  end.

(** The loop of [match]: every suffix, the empty one included. *)
Fixpoint match_from (re text : list Z) : bool :=
  matchhere re text ||
  match text with
  | [] => false
  | _ :: text => match_from re text
  end.
Definition match_re (re text : list Z) : bool :=
  match re with
  | c :: re1 => if c =? CARET then matchhere re1 text else match_from re text
  | [] => match_from re text
  end.

(** ** The loop *)

(** The lines of [buf]: what is written for those that match, and what is left
    after the last newline. *)
Fixpoint grep_lines (pattern : list Z) (line buf : list Z) : list Z * list Z :=
  match buf with
  | [] => ([], line)
  | c :: buf =>
      if c =? NL then
        let (out, rest) := grep_lines pattern [] buf in
        ((if match_re pattern line then line ++ [NL] else []) ++ out, rest)
      else grep_lines pattern (line ++ [c]) buf
  end.

Definition has_nl (l : list Z) : bool := existsb (fun c => c =? NL) l.

(** [reads] are the results of the successive calls of [read]; [keep] is what the
    buffer of 1024 bytes holds before the next one, which fills it up to 1023.  A
    buffer without a newline is dropped ([p == buf]).  A read of nothing ends. *)
Fixpoint grep (pattern : list Z) (keep : list Z) (reads : list (list Z)) : list Z :=
  match reads with
  | [] => []
  | r :: reads =>
      let r := take (1023 - length keep) r in
      match r with
      | [] => []
      | _ =>
          let buf := keep ++ r in
          let (out, rest) := grep_lines pattern [] buf in
          out ++ grep pattern (if has_nl buf then rest else []) reads
      end
  end.

(** ** The language of a pattern *)

Inductive item : Type := One (c : Z) | Many (c : Z).

(** The items of a pattern, and whether it is anchored at the end. *)
Fixpoint parse (re : list Z) : list item * bool :=
  match re with
  | [] => ([], false)
  | c :: re1 =>
      match re1 with
      | s :: re2 =>
          if s =? STAR then let (l, e) := parse re2 in (Many c :: l, e)
          else let (l, e) := parse re1 in (One c :: l, e)
      | [] => if c =? DOLLAR then ([], true) else ([One c], false)
      end
  end.

Definition accepts (c t : Z) : Prop := c = DOT \/ c = t.
Definition item_lang (i : item) (w : list Z) : Prop :=
  match i with
  | One c => exists t, w = [t] /\ accepts c t
  | Many c => Forall (accepts c) w
  end.
Fixpoint lang (l : list item) (w : list Z) : Prop :=
  match l with
  | [] => w = []
  | i :: l => exists u v, w = u ++ v /\ item_lang i u /\ lang l v
  end.

(** The text begins with a word of the pattern, or is one if anchored. *)
Definition matches_here (re text : list Z) : Prop :=
  let (l, e) := parse re in exists w rest, text = w ++ rest /\ lang l w /\ (e = true -> rest = []).

(** Somewhere in the text, or at its beginning after '^'. *)
Definition matches (re text : list Z) : Prop :=
  match re with
  | c :: re1 => if c =? CARET then matches_here re1 text else exists pre suf, text = pre ++ suf /\ matches_here re suf
  | [] => True
  end.

Lemma accepts_spec c t : (c =? DOT) || (c =? t) = true <-> accepts c t.
Proof. unfold accepts. rewrite orb_true_iff, !Z.eqb_eq. tauto. Qed.

Lemma accepts_spec' c t : (t =? c) || (c =? DOT) = true <-> accepts c t.
Proof. unfold accepts. rewrite orb_true_iff, !Z.eqb_eq. intuition. Qed.

Lemma matchstar_spec here c text :
  matchstar here c text = true <-> exists u v, text = u ++ v /\ Forall (accepts c) u /\ here v = true.
Proof.
  induction text as [|t text IH]; cbn [matchstar]; rewrite orb_true_iff.
  - split.
    + intros [H|H]; [|done]. exists [], []. split_and!; [done|by constructor|done].
    + intros (u & v & E & _ & H). symmetry in E. apply app_eq_nil in E as [-> ->]. by left.
  - rewrite andb_true_iff, IH, accepts_spec'. split.
    + intros [H|[H (u & v & -> & Hu & Hv)]].
      * exists [], (t :: text). split_and!; [done|by constructor|done].
      * exists (t :: u), v. split_and!; [done|by constructor|done].
    + intros ([|t' u] & v & E & Hu & Hv); cbn in E; [subst v; by left|].
      injection E as -> ->. apply Forall_cons in Hu as [H1 H2]. right. split; [done|]. by exists u, v.
Qed.

(** One literal item in front. *)
Lemma one_here c l e text (here : list Z -> bool) :
  (forall text, here text = true <-> exists w rest, text = w ++ rest /\ lang l w /\ (e = true -> rest = [])) ->
  match text with t :: text => ((c =? DOT) || (c =? t)) && here text | [] => false end = true <->
  exists w rest, text = w ++ rest /\ lang (One c :: l) w /\ (e = true -> rest = []).
Proof.
  intros Hh. destruct text as [|t text].
  - split; [done|]. intros (w & rest & E & (u & v & -> & (t & -> & _) & _) & _). done.
  - rewrite andb_true_iff, accepts_spec, Hh. split.
    + intros [Ha (w & rest & -> & Hl & He)]. exists (t :: w), rest. split_and!; [done| |done]. exists [t], w. split_and!; [done| |done]. by exists t.
    + intros (w & rest & E & (u & v & -> & (t' & -> & Ha) & Hl) & He). cbn in E. injection E as -> ->. split; [done|]. by exists v, rest.
Qed.

(** Unfolding one character, the rest of the pattern kept folded. *)
Lemma matchhere_cons c s re text :
  matchhere (c :: s :: re) text =
    if s =? STAR then matchstar (matchhere re) c text else
    match text with t :: text => ((c =? DOT) || (c =? t)) && matchhere (s :: re) text | [] => false end.
Proof. done. Qed.
Lemma parse_cons c s re :
  parse (c :: s :: re) = if s =? STAR then let (l, e) := parse re in (Many c :: l, e) else let (l, e) := parse (s :: re) in (One c :: l, e).
Proof. done. Qed.

Lemma matchhere_spec re text : matchhere re text = true <-> matches_here re text.
Proof.
  remember (length re) as n eqn:En. revert re En text. induction n as [n IH] using lt_wf_ind. intros re -> text.
  destruct re as [|c [|s re2]].
  - cbn. split; [intros _; by exists [], text|done].
  - cbn [matchhere]. unfold matches_here. cbn [parse]. destruct (c =? DOLLAR).
    + split.
      * destruct text; [|done]. intros _. by exists [], [].
      * intros (w & rest & -> & -> & H). cbn. by rewrite H.
    + apply (one_here c [] false text (fun _ => true)). intros text'. split; [|done]. intros _. by exists [], text'.
  - rewrite matchhere_cons. unfold matches_here. rewrite parse_cons. destruct (s =? STAR) eqn:Es.
    + specialize (IH (length re2) ltac:(cbn; lia) re2 eq_refl). unfold matches_here in IH. destruct (parse re2) as [l e].
      rewrite matchstar_spec. split.
      * intros (u & v & -> & Hu & Hv). apply IH in Hv as (w & rest & -> & Hl & He). exists (u ++ w), rest.
        split_and!; [by rewrite app_assoc| |done]. by exists u, w.
      * intros (w & rest & -> & (u & v & -> & Hu & Hl) & He). exists u, (v ++ rest). split_and!; [by rewrite app_assoc|done|].
        apply IH. by exists v, rest.
    + specialize (IH (length (s :: re2)) ltac:(cbn; lia) (s :: re2) eq_refl). unfold matches_here in IH.
      destruct (parse (s :: re2)) as [l e]. apply (one_here c l e text (matchhere (s :: re2))). exact IH.
Qed.

Lemma match_from_spec re text : match_from re text = true <-> exists pre suf, text = pre ++ suf /\ matches_here re suf.
Proof.
  induction text as [|t text IH]; cbn [match_from]; rewrite orb_true_iff, matchhere_spec.
  - split.
    + intros [H|H]; [|done]. by exists [], [].
    + intros (pre & suf & E & H). symmetry in E. apply app_eq_nil in E as [-> ->]. by left.
  - rewrite IH. split.
    + intros [H|(pre & suf & -> & H)]; [by exists [], (t :: text)|by exists (t :: pre), suf].
    + intros ([|t' pre] & suf & E & H); cbn in E; [subst suf; by left|]. injection E as -> ->. right. by exists pre, suf.
Qed.

(** C40. grep's matcher decides the language of the pattern: [match] succeeds exactly
    when some part of the text (from its start after '^', up to its end before '$')
    is a word of the pattern read as a sequence of characters, dots and starred
    characters. *)
Theorem match_decides re text : match_re re text = true <-> matches re text.
Proof.
  destruct re as [|c re]; cbn [match_re matches].
  - split; [done|]. intros _. by destruct text.
  - destruct (c =? CARET); [apply matchhere_spec|apply match_from_spec].
Qed.

(** A line that arrives in two reads loses what the first one brought: "ab", then
    "c" and a newline, has no line that matches "ab". *)
Lemma grep_loses : grep [97; 98] [] [[97; 98]; [99; NL]] = [] /\ grep [97; 98] [] [[97; 98; 99; NL]] = [97; 98; 99; NL].
Proof. done. Qed.

(** *** Complete lines *)

(** The lines of the input that match, in order; an unfinished one is left. *)
Lemma grep_lines_app pattern line a b :
  grep_lines pattern line (a ++ b) =
    let (out, rest) := grep_lines pattern line a in
    let (out', rest') := grep_lines pattern rest b in (out ++ out', rest').
Proof.
  revert line. induction a as [|c a IH]; intros line; cbn [app grep_lines]; [by destruct (grep_lines pattern line b)|].
  destruct (c =? NL); [|apply IH]. rewrite IH. destruct (grep_lines pattern [] a) as [o r]. destruct (grep_lines pattern r b) as [o' r'].
  by rewrite <- app_assoc.
Qed.

Lemma grep_rest pattern line a : has_nl line = false -> has_nl ((grep_lines pattern line a).2) = false.
Proof.
  revert line. induction a as [|c a IH]; intros line Hl; cbn [grep_lines]; [done|]. destruct (c =? NL) eqn:E.
  - specialize (IH [] eq_refl). by destruct (grep_lines pattern [] a).
  - apply IH. unfold has_nl in *. rewrite existsb_app, Hl. cbn. by rewrite E.
Qed.

Lemma grep_lines_keep pattern line : has_nl line = false -> grep_lines pattern [] line = ([], line).
Proof.
  assert (forall l a, has_nl a = false -> grep_lines pattern l a = ([], l ++ a)) as H; [|apply H].
  intros l a. revert l. induction a as [|c a IH]; intros l Ha; cbn [grep_lines]; [by rewrite app_nil_r|].
  unfold has_nl in Ha. cbn in Ha. apply orb_false_iff in Ha as [-> Ha]. rewrite IH by done. by rewrite <- app_assoc.
Qed.

(** [fits] says that the buffer never overflows and every read brings a newline. *)
Fixpoint fits (pattern keep : list Z) (reads : list (list Z)) : Prop :=
  match reads with
  | [] => True
  | r :: reads => has_nl r = true /\ (length keep + length r <= 1023)%nat /\ fits pattern (grep_lines pattern keep r).2 reads
  end.

(** When every read ends at least one line and lines fit the buffer, grep writes
    exactly the complete lines of its input that match, in order, however the
    input was cut into reads. *)
Theorem grep_prints pattern reads :
  fits pattern [] reads -> grep pattern [] reads = (grep_lines pattern [] (concat reads)).1.
Proof.
  assert (forall keep, has_nl keep = false -> fits pattern keep reads ->
    grep pattern keep reads = (grep_lines pattern keep (concat reads)).1) as H; [|by apply H].
  induction reads as [|r reads IH]; intros keep Hk Hf; cbn [grep concat fits] in *; [done|]. destruct Hf as (Hr & Hl & Hf).
  rewrite take_ge by lia. destruct r as [|c r]; [done|]. rewrite grep_lines_app, (grep_lines_keep pattern keep Hk).
  pose proof (grep_rest pattern keep (c :: r) Hk) as Hn. rewrite grep_lines_app.
  destruct (grep_lines pattern keep (c :: r)) as [o rest] eqn:E. cbn [snd] in *.
  unfold has_nl in Hr |- *. rewrite existsb_app, Hr, orb_true_r. cbn [app]. rewrite IH by done.
  by destruct (grep_lines pattern rest (concat reads)).
Qed.

Lemma grep_prints_witness :
  grep [97; DOLLAR] [] [[97; NL; 98]; [97; NL]] = (grep_lines [97; DOLLAR] [] (concat [[97; NL; 98]; [97; NL]])).1.
Proof. apply (grep_prints [97; DOLLAR] [[97; NL; 98]; [97; NL]]). cbn. split_and!; first [done|lia]. Defined.
