(* ===== verification/UserProgs.v ===== *)
(** * User programs (cat.c, wc.c, echo.c, kill.c, ln.c, mkdir.c, rm.c, ls.c, init.c, zombie.c)

    Programs as interaction trees over the system calls they make.  A path or an argument
    is the bytes of the string; a read returns the bytes read, or nothing when it fails. *)

From ITree Require Import ITree.
From S2P Require Import Prelude Strings Bytes Printf.

(** stat.h *)
Record stat_t : Type := MkStat { st_type : Z; st_ino : Z; st_size : Z }.

Inductive sysE : Type -> Type :=
| ERead (fd n : Z) : sysE (option (list Z))
| EWrite (fd : Z) (bs : list Z) : sysE Z
| EOpen (path : list Z) (mode : Z) : sysE Z
| EClose (fd : Z) : sysE Z
| EDup (fd : Z) : sysE Z
| EFstat (fd : Z) : sysE (option stat_t)
| EMknod (path : list Z) (major minor : Z) : sysE Z
| EMkdir (path : list Z) : sysE Z
| EUnlink (path : list Z) : sysE Z
| ELink (old new : list Z) : sysE Z
| EKill (pid : Z) : sysE Z
| EFork : sysE Z
| EExec (path : list Z) (argv : list (list Z)) : sysE Z
| EWait : sysE Z
| ESleep (n : Z) : sysE Z
| EExit : sysE void.

Definition prog : Type -> Type := itree sysE.
Definition sys {R} (e : sysE R) : prog R := ITree.trigger e.
Definition exit_ {R} : prog R := Vis EExit (fun v : void => match v with end).

#[export] Instance prog_bind : MBind prog := fun A B k t => ITree.bind t k.

Definition nl : list Z := [10].

(** [printf] makes a system call per byte. *)
Fixpoint putcs (fd : Z) (bs : list Z) : prog unit :=
  match bs with
  | [] => Ret tt
  | c :: bs => sys (EWrite fd [c]);; putcs fd bs
  end.
Definition fprintf (fd : Z) (fmt : list Z) (ap : list varg) : prog unit :=
  match printf fmt ap with
  | Some bs => putcs fd bs
  | None => ITree.spin
  end.
(** A string argument. *)
Definition sarg (s : list Z) : varg := MkArg 1 s.
Definition iarg (n : Z) : varg := MkArg n [].

Fixpoint for_each {A} (l : list A) (f : A -> prog unit) : prog unit :=
  match l with
  | [] => Ret tt
  | a :: l => f a;; for_each l f
  end.

(** ** cat.c *)

Definition cat (fd : Z) : prog unit :=
  ITree.iter (fun _ : unit =>
    r ← sys (ERead fd 512);
    match r with
    | None => fprintf 1 (codes "cat: read error" ++ nl) [];; exit_
    | Some [] => Ret (inr tt)
    | Some bs =>
        n ← sys (EWrite 1 bs);
        if negb (n =? Z.of_nat (length bs)) then fprintf 1 (codes "cat: write error" ++ nl) [];; exit_ else
        Ret (inl tt)
    end) tt.

Definition cat_main (argv : list (list Z)) : prog unit :=
  match tail argv with
  | [] => cat 0;; exit_
  | args =>
      for_each args (fun a =>
        fd ← sys (EOpen a 0);
        if fd <? 0 then fprintf 1 (codes "cat: cannot open %s" ++ nl) [sarg a];; exit_ else
        cat fd;;
        sys (EClose fd);;
        Ret tt);;
      exit_
  end.

(** ** wc.c *)

(** " \r\t\n\v" *)
Definition blank (c : Z) : bool := existsb (Z.eqb c) [32; 13; 9; 10; 11].

(** The lines, words and characters so far, and [inword]. *)
Record wc_t : Type := MkWc { wc_l : Z; wc_w : Z; wc_c : Z; wc_in : bool }.
Definition wc_byte (s : wc_t) (b : Z) : wc_t :=
  let c := wc_c s + 1 in
  let l := if b =? 10 then wc_l s + 1 else wc_l s in
  if blank b then MkWc l (wc_w s) c false
  else if negb (wc_in s) then MkWc l (wc_w s + 1) c true
  else MkWc l (wc_w s) c true.

Definition wc (fd : Z) (name : list Z) : prog unit :=
  s ← ITree.iter (fun s : wc_t =>
    r ← sys (ERead fd 512);
    match r with
    | None => fprintf 1 (codes "wc: read error" ++ nl) [];; exit_
    | Some [] => Ret (inr s)
    | Some bs => Ret (inl (fold_left wc_byte bs s))
    end) (MkWc 0 0 0 false);
  fprintf 1 (codes "%d %d %d %s" ++ nl) [iarg (wc_l s); iarg (wc_w s); iarg (wc_c s); sarg name].

Definition wc_main (argv : list (list Z)) : prog unit :=
  match tail argv with
  | [] => wc 0 [];; exit_
  | args =>
      for_each args (fun a =>
        fd ← sys (EOpen a 0);
        if fd <? 0 then fprintf 1 (codes "wc: cannot open %s" ++ nl) [sarg a];; exit_ else
        wc fd a;;
        sys (EClose fd);;
        Ret tt);;
      exit_
  end.

(** ** echo.c, kill.c, ln.c, mkdir.c, rm.c, zombie.c *)

Fixpoint echo_args (args : list (list Z)) : prog unit :=
  match args with
  | [] => Ret tt
  | a :: args => fprintf 1 (codes "%s%s") [sarg a; sarg (match args with [] => nl | _ => [32] end)];; echo_args args
  end.
Definition echo_main (argv : list (list Z)) : prog unit := echo_args (tail argv);; exit_.

(** [atoi] of ulib.c on a string of bytes. *)
Fixpoint atoi_bytes (n : Z) (s : list Z) : Z :=
  match s with
  | c :: s => if (48 <=? c) && (c <=? 57) then atoi_bytes (s32 (n * 10 + c - 48)) s else n
  | [] => n
  end.

Definition kill_main (argv : list (list Z)) : prog unit :=
  match tail argv with
  | [] => fprintf 2 (codes "usage: kill pid..." ++ nl) [];; exit_
  | args => for_each args (fun a => sys (EKill (atoi_bytes 0 a));; Ret tt);; exit_
  end.

Definition ln_main (argv : list (list Z)) : prog unit :=
  match argv with
  | [_; old; new] =>
      r ← sys (ELink old new);
      (if r <? 0 then fprintf 2 (codes "link %s %s: failed" ++ nl) [sarg old; sarg new] else Ret tt);;
      exit_
  | _ => fprintf 2 (codes "Usage: ln old new" ++ nl) [];; exit_
  end.

(** The loops of mkdir.c and rm.c: stop at the first failure. *)
Fixpoint until_fails (call : list Z -> sysE Z) (msg : list Z) (args : list (list Z)) : prog unit :=
  match args with
  | [] => Ret tt
  | a :: args =>
      r ← sys (call a);
      if r <? 0 then fprintf 2 msg [sarg a] else until_fails call msg args
  end.
Definition mkdir_main (argv : list (list Z)) : prog unit :=
  match tail argv with
  | [] => fprintf 2 (codes "Usage: mkdir files..." ++ nl) [];; exit_
  | args => until_fails EMkdir (codes "mkdir: %s failed to create" ++ nl) args;; exit_
  end.
Definition rm_main (argv : list (list Z)) : prog unit :=
  match tail argv with
  | [] => fprintf 2 (codes "Usage: rm files..." ++ nl) [];; exit_
  | args => until_fails EUnlink (codes "rm: %s failed to delete" ++ nl) args;; exit_
  end.

Definition zombie_main : prog unit :=
  pid ← sys EFork;
  (if 0 <? pid then sys (ESleep 5);; Ret tt else Ret tt);;
  exit_.

(** ** init.c *)

Abbreviation O_RDWR := 2.
Definition wait_for (pid : Z) : prog unit :=
  ITree.iter (fun _ : unit =>
    wpid ← sys EWait;
    if (0 <=? wpid) && negb (wpid =? pid) then fprintf 1 (codes "zombie!" ++ nl) [];; Ret (inl tt) else Ret (inr tt)) tt.
Definition init_main : prog unit :=
  fd ← sys (EOpen (codes "console") O_RDWR);
  (if fd <? 0 then sys (EMknod (codes "console") 1 1);; sys (EOpen (codes "console") O_RDWR);; Ret tt else Ret tt);;
  sys (EDup 0);;
  sys (EDup 0);;
  ITree.iter (fun _ : unit =>
    fprintf 1 (codes "init: starting sh" ++ nl) [];;
    pid ← sys EFork;
    if pid <? 0 then fprintf 1 (codes "init: fork failed" ++ nl) [];; exit_ else
    if pid =? 0 then sys (EExec (codes "sh") [codes "sh"]);; fprintf 1 (codes "init: exec sh failed" ++ nl) [];; exit_ else
    wait_for pid;;
    Ret (inl tt)) tt.

(** ** ls.c *)

(** What follows the last slash. *)
Fixpoint last_name (path cur : list Z) : list Z :=
  match path with
  | [] => cur
  | c :: path => if c =? 47 then last_name path path else last_name path cur
  end.
Definition fmtname (path : list Z) : list Z :=
  let p := last_name path path in
  if (14 <=? length p)%nat then p else p ++ replicate (14 - length p) 32.

Definition stat_ (path : list Z) : prog (option stat_t) :=
  fd ← sys (EOpen path 0);
  if fd <? 0 then Ret None else
  r ← sys (EFstat fd);
  sys (EClose fd);;
  Ret r.

Definition ls_line (name : list Z) (st : stat_t) : prog unit :=
  fprintf 1 (codes "%s %d %d %d" ++ nl) [sarg (fmtname name); iarg (st_type st); iarg (st_ino st); iarg (st_size st)].

(** The string that ends at the first NUL. *)
Fixpoint upto_nul (l : list Z) : list Z :=
  match l with
  | [] => []
  | c :: l => if c =? 0 then [] else c :: upto_nul l
  end.

Definition ls_dir (fd : Z) (path : list Z) : prog unit :=
  ITree.iter (fun _ : unit =>
    r ← sys (ERead fd 16);
    match r with
    | Some de =>
        if negb (length de =? 16)%nat then Ret (inr tt) else
        if get16 de 0 =? 0 then Ret (inl tt) else
        let buf := path ++ [47] ++ upto_nul (drop 2 de) in
        st ← stat_ buf;
        match st with
        | None => fprintf 1 (codes "ls: cannot stat %s" ++ nl) [sarg buf];; Ret (inl tt)
        | Some st => ls_line buf st;; Ret (inl tt)
        end
    | None => Ret (inr tt)
    end) tt.

Definition ls (path : list Z) : prog unit :=
  fd ← sys (EOpen path 0);
  if fd <? 0 then fprintf 2 (codes "ls: cannot open %s" ++ nl) [sarg path] else
  r ← sys (EFstat fd);
  match r with
  | None => fprintf 2 (codes "ls: cannot stat %s" ++ nl) [sarg path];; sys (EClose fd);; Ret tt
  | Some st =>
      (if st_type st =? 2 then ls_line path st
       else if st_type st =? 1 then
         if (512 <? length path + 1 + 14 + 1)%nat then fprintf 1 (codes "ls: path too long" ++ nl) []
         else ls_dir fd path
       else Ret tt);;
      sys (EClose fd);;
      Ret tt
  end.

Definition ls_main (argv : list (list Z)) : prog unit :=
  match tail argv with
  | [] => ls [46];; exit_
  | args => for_each args ls;; exit_
  end.
