(* ===== verification/UserSpec.v ===== *)
(** * What the user programs do

    The programs against a specification of the system calls that leaves open how many
    bytes a read returns and which descriptor an open gives: they end on every run, and
    print what they should. *)

From ITree Require Import ITree.
From S2P Require Import Prelude Strings Bytes Printf UserProgs.

(** ** The system calls *)

(** Files by name, the bytes left to read of each descriptor, and what was written to
    descriptors 1 and 2. *)
Record world : Type := MkWorld {
  wfiles : gmap (list Z) (list Z);
  wfds : gmap Z (list Z);
  wout : list Z;
  werr : list Z
}.
Definition set_fds (x : gmap Z (list Z)) (w : world) : world := MkWorld (wfiles w) x (wout w) (werr w).
Definition emit (fd : Z) (bs : list Z) (w : world) : world :=
  if fd =? 1 then MkWorld (wfiles w) (wfds w) (wout w ++ bs) (werr w)
  else if fd =? 2 then MkWorld (wfiles w) (wfds w) (wout w) (werr w ++ bs)
  else w.

(** The results a call may have.  Reading returns some of the bytes left, none only at
    the end; opening a file for reading gives a new descriptor at its beginning. *)
Definition sys_step {A} (e : sysE A) (w : world) : A -> world -> Prop :=
  match e with
  | ERead fd n => fun r w' =>
      match wfds w !! fd with
      | None => r = None /\ w' = w
      | Some rest => exists bs rest', rest = bs ++ rest' /\ Z.of_nat (length bs) <= n /\ (bs = [] -> rest = []) /\
          r = Some bs /\ w' = set_fds (<[fd := rest']> (wfds w)) w
      end
  | EWrite fd bs => fun r w' => r = Z.of_nat (length bs) /\ w' = emit fd bs w
  | EOpen path mode => fun r w' =>
      match wfiles w !! path with
      | None => r = -1 /\ w' = w
      | Some bs => exists fd, 0 <= fd /\ wfds w !! fd = None /\ r = fd /\ w' = set_fds (<[fd := bs]> (wfds w)) w
      end
  | EClose fd => fun r w' => r = 0 /\ w' = set_fds (delete fd (wfds w)) w
  | _ => fun _ w' => w' = w
  end.

(** ** Runs *)

(** All runs of [t] from [w] end: by returning a value and a world with [Q], or by
    exiting in a world with [X]. *)
Inductive must {R} (Q : R -> world -> Prop) (X : world -> Prop) : prog R -> world -> Prop :=
| must_ret t w r : observe t = RetF r -> Q r w -> must Q X t w
| must_tau t w t' : observe t = TauF t' -> must Q X t' w -> must Q X t w
| must_exit t w k : observe t = VisF EExit k -> X w -> must Q X t w
| must_vis t w A (e : sysE A) k : observe t = VisF e k -> (forall a w', sys_step e w a w' -> must Q X (k a) w') -> must Q X t w.

Section rules.
Context (X : world -> Prop).

Lemma must_observe {R} (Q : R -> world -> Prop) t t' w : observe t' = observe t -> must Q X t w -> must Q X t' w.
Proof.
  intros E H. destruct H; [eapply must_ret|eapply must_tau|eapply must_exit|eapply must_vis]; try done; rewrite E; eassumption.
Qed.

Lemma bind_observe {R S} (t : prog R) (k : R -> prog S) :
  observe (ITree.bind t k) =
  match observe t with
  | RetF r => observe (k r)
  | TauF t => TauF (ITree.bind t k)
  | VisF e h => VisF e (fun x => ITree.bind (h x) k)
  end.
Proof.
  transitivity (observe (match observe t with RetF r => k r | TauF t => Tau (ITree.bind t k) | VisF e h => Vis e (fun x => ITree.bind (h x) k) end)); [reflexivity|].
  by destruct (observe t).
Qed.

Lemma must_bind {R S} (Q : S -> world -> Prop) (t : prog R) (k : R -> prog S) w :
  must (fun r w' => must Q X (k r) w') X t w -> must Q X (t ≫= k) w.
Proof.
  unfold mbind, prog_bind. induction 1 as [t w r E H|t w t' E H IH|t w k' E H|t w A e k' E H IH].
  - eapply must_observe; [|exact H]. by rewrite bind_observe, E.
  - eapply must_tau; [|exact IH]. by rewrite bind_observe, E.
  - eapply must_exit; [|exact H]. by rewrite bind_observe, E.
  - eapply must_vis; [|exact IH]. by rewrite bind_observe, E.
Qed.

Lemma must_mono {R} (Q Q' : R -> world -> Prop) t w : must Q X t w -> (forall r w', Q r w' -> Q' r w') -> must Q' X t w.
Proof. intros H HQ. induction H; [by eapply must_ret; [|apply HQ]|by eapply must_tau|by eapply must_exit|by eapply must_vis]. Qed.

Lemma must_value {R} (Q : R -> world -> Prop) r w : Q r w -> must Q X (Ret r) w.
Proof. by apply must_ret. Qed.

Lemma must_stop {R} (Q : R -> world -> Prop) w : X w -> must Q X exit_ w.
Proof. by eapply must_exit. Qed.

Lemma must_sys {R} (Q : R -> world -> Prop) (e : sysE R) w : (forall a w', sys_step e w a w' -> Q a w') -> must Q X (sys e) w.
Proof. intros H. eapply must_vis; [done|]. intros a w' Hs. by apply must_value, H. Qed.

Lemma must_iter {R I} (Q : R -> world -> Prop) (f : I -> prog (I + R)) i w :
  must (fun lr w' => match lr with inl j => must Q X (ITree.iter f j) w' | inr r => Q r w' end) X (f i) w ->
  must Q X (ITree.iter f i) w.
Proof.
  intros H. assert (must Q X (f i ≫= (fun lr => match lr with inl j => Tau (ITree.iter f j) | inr r => Ret r end)) w) as Hb.
  { apply must_bind. induction H as [t w r E H|t w t' E H IH|t w k E H|t w A e k E H IH].
    - eapply must_ret; [done|]. destruct r; [by eapply must_tau|by apply must_value].
    - by eapply must_tau.
    - by eapply must_exit.
    - by eapply must_vis. }
  eapply must_observe; [|exact Hb]. done.
Qed.
End rules.

(** ** Output *)

Lemma putcs_must X fd bs w (Q : unit -> world -> Prop) : fd = 1 \/ fd = 2 -> Q tt (emit fd bs w) -> must Q X (putcs fd bs) w.
Proof.
  intros Hfd. revert w. induction bs as [|c bs IH]; intros w HQ; cbn [putcs].
  - apply must_value. destruct Hfd as [-> | ->]; destruct w; unfold emit in HQ; cbn in HQ; by rewrite app_nil_r in HQ.
  - apply must_bind, must_sys. intros a w' [_ ->]. apply IH. destruct Hfd as [-> | ->]; unfold emit in *; cbn in *; by rewrite <- app_assoc.
Qed.

Lemma fprintf_must X fd fmt ap bs w (Q : unit -> world -> Prop) :
  printf fmt ap = Some bs -> fd = 1 \/ fd = 2 -> Q tt (emit fd bs w) -> must Q X (fprintf fd fmt ap) w.
Proof. intros E Hfd HQ. unfold fprintf. rewrite E. by apply putcs_must. Qed.

(** A loop over arguments. *)
Lemma for_each_must {A} X (f : A -> prog unit) (I : list A -> world -> Prop) l : forall donel w (Q : unit -> world -> Prop),
  I donel w -> (forall d a rest w, donel ++ l = d ++ a :: rest -> I d w -> must (fun _ w' => I (d ++ [a]) w') X (f a) w) ->
  (forall w', I (donel ++ l) w' -> Q tt w') -> must Q X (for_each l f) w.
Proof.
  induction l as [|a l IH]; intros donel w Q H0 Hf HQ; cbn [for_each]; [apply must_value, HQ; by rewrite app_nil_r|].
  apply must_bind. eapply must_mono; [by eapply (Hf donel a l)|]. cbn beta. intros _ w' Hw'. apply (IH (donel ++ [a])); [done| |].
  - intros d b rest w1 E. apply (Hf d b rest). by rewrite <- app_assoc in E.
  - intros w1. rewrite <- app_assoc. apply HQ.
Qed.

(** ** cat *)

(** Reading a descriptor to its end prints it. *)
Lemma cat_must X fd bs w (Q : unit -> world -> Prop) :
  wfds w !! fd = Some bs -> Q tt (emit 1 bs (set_fds (<[fd := []]> (wfds w)) w)) -> must Q X (cat fd) w.
Proof.
  remember (length bs) as n eqn:En. revert bs w En. induction n as [n IH] using lt_wf_ind. intros bs w -> Hfd HQ. apply must_iter.
  apply must_bind, must_sys. intros r w' Hs. cbn in Hs. rewrite Hfd in Hs. destruct Hs as (b & rest & -> & Hb & Hne & -> & ->). destruct b as [|c b].
  - specialize (Hne eq_refl). cbn in Hne. subst rest. apply must_value. cbn in HQ. unfold emit in HQ. cbn in HQ. rewrite app_nil_r in HQ. done.
  - apply must_bind, must_sys. intros m w' [-> ->]. rewrite Z.eqb_refl. cbn [negb]. apply must_value. apply (IH (length rest) ltac:(rewrite length_app; cbn; lia) rest); [done| |].
    + cbn. by rewrite lookup_insert_eq.
    + unfold emit, set_fds in *. cbn in *. by rewrite insert_insert_eq, <- app_assoc.
Qed.

(** [cat] of files that exist prints their bytes one after the other, however the
    reads cut them up, and ends. *)
Theorem cat_prints names fs w :
  names <> [] -> Forall2 (fun n bs => wfiles w !! n = Some bs) names fs ->
  must (fun _ _ => False) (fun w' => wout w' = wout w ++ concat fs /\ werr w' = werr w) (cat_main (codes "cat" :: names)) w.
Proof.
  intros Hne HF. unfold cat_main. cbn [tail]. destruct names as [|n0 names0]; [done|]. set (names := n0 :: names0) in *. apply must_bind.
  apply (for_each_must _ _ (fun d w' => wfiles w' = wfiles w /\ werr w' = werr w /\ wout w' = wout w ++ concat (take (length d) fs)) names []).
  - cbn. by rewrite app_nil_r.
  - intros d a rest w1 E (I1 & I2 & I3). cbn [app] in E. assert (names !! length d = Some a) as Ha by (rewrite E; by apply list_lookup_middle).
    destruct (Forall2_lookup_l _ _ _ _ _ HF Ha) as (bs & Hbs & Hf). apply must_bind, must_sys. intros fd w2 Hs. cbn in Hs. rewrite I1, Hf in Hs.
    destruct Hs as (fd' & H0 & Hfd & -> & ->). rewrite (proj2 (Z.ltb_ge _ _)) by done. apply must_bind. apply (cat_must _ fd' bs); [cbn; by rewrite lookup_insert_eq|].
    apply must_bind, must_sys. intros r w3 [_ ->]. apply must_value. cbn. split_and!; [done|done|]. rewrite I3, length_app. cbn. rewrite Nat.add_1_r, (take_S_r _ _ _ Hbs), concat_app. cbn. by rewrite app_nil_r, app_assoc.
  - intros w' (_ & I2 & I3). apply must_stop. split; [|done]. rewrite I3. cbn [app]. f_equal. f_equal. apply take_ge. apply Forall2_length in HF. lia.
Qed.

(** ** wc *)

(** The first field of [l] and the others, separated by blanks. *)
Fixpoint fields (l : list Z) : list Z * list (list Z) :=
  match l with
  | [] => ([], [])
  | c :: l => let (f, fs) := fields l in if blank c then ([], f :: fs) else (c :: f, fs)
  end.
Definition nonempty {A} (l : list A) : Z := match l with [] => 0 | _ => 1 end.
Fixpoint count_words (fs : list (list Z)) : Z :=
  match fs with
  | [] => 0
  | f :: fs => nonempty f + count_words fs
  end.
Definition words (l : list Z) : Z := let (f, fs) := fields l in count_words (f :: fs).
Definition lines (l : list Z) : Z := Z.of_nat (length (filter (fun c => c = 10) l)).

Lemma wc_bytes l s :
  fold_left wc_byte l s = MkWc (wc_l s + lines l) (wc_w s + words l - (if wc_in s then nonempty (fst (fields l)) else 0)) (wc_c s + Z.of_nat (length l))
    (match l with [] => wc_in s | _ => negb (blank (List.last l 0)) end).
Proof.
  revert s. induction l as [|c l IH]; intros s.
  - destruct s as [a b d []]; cbn; unfold words, lines; cbn; f_equal; lia.
  - cbn [fold_left]. rewrite IH. clear IH. unfold words, lines, wc_byte. cbn [fields length]. destruct (fields l) as [f fs] eqn:Ef. rewrite filter_cons.
    assert (List.last (c :: l) 0 = match l with [] => c | _ => List.last l 0 end) as El by by destruct l. rewrite El. clear El.
    destruct (blank c) eqn:Eb; destruct (wc_in s); destruct (Z.eqb_spec c 10); cbn [wc_l wc_w wc_c wc_in negb fst snd count_words nonempty];
      rewrite ?decide_True, ?decide_False by done; cbn [length]; f_equal; first [lia|by destruct l; rewrite ?Eb].
Qed.

Definition wc_line (name bs : list Z) : list Z :=
  decimal (lines bs) ++ [32] ++ decimal (words bs) ++ [32] ++ decimal (Z.of_nat (length bs)) ++ [32] ++ name ++ [10].

Lemma words_bound l : 0 <= words l <= Z.of_nat (length l).
Proof.
  assert (0 <= nonempty (fst (fields l)) <= words l /\ words l <= Z.of_nat (length l)) as H; [|lia].
  unfold words. induction l as [|c l IH]; [cbn; lia|]. cbn [fields length]. destruct (fields l) as [f fs]. cbn [fst count_words] in *.
  destruct (blank c); destruct f; cbn [fst count_words nonempty] in *; lia.
Qed.
Lemma lines_bound l : 0 <= lines l <= Z.of_nat (length l).
Proof. unfold lines. pose proof (length_filter (fun c => c = 10) l). lia. Qed.

Lemma wc_printf bs name :
  Z.of_nat (length bs) < 2 ^ 31 ->
  printf (codes "%d %d %d %s" ++ nl) [iarg (lines bs); iarg (words bs); iarg (Z.of_nat (length bs)); sarg name] = Some (wc_line name bs).
Proof.
  intros Hl. pose proof (words_bound bs). pose proof (lines_bound bs). unfold printf. change (codes "%d %d %d %s" ++ nl) with [37; 100; 32; 37; 100; 32; 37; 100; 32; 37; 115; 10].
  cbn [printf_loop negb Z.eqb Pos.eqb orb arg_hd iarg va_word tl hd]. rewrite !s32_small by lia. rewrite !printint_decimal by lia.
  cbn [option_map str_of sarg va_word va_str Z.eqb]. done.
Qed.

Lemma wc_must X fd name bs w (Q : unit -> world -> Prop) :
  wfds w !! fd = Some bs -> Z.of_nat (length bs) < 2 ^ 31 ->
  Q tt (emit 1 (wc_line name bs) (set_fds (<[fd := []]> (wfds w)) w)) -> must Q X (wc fd name) w.
Proof.
  intros Hfd Hl HQ. unfold wc. apply must_bind.
  assert (forall n pre rest w1, n = length rest -> bs = pre ++ rest -> wfds w1 !! fd = Some rest -> set_fds (<[fd := []]> (wfds w1)) w1 = set_fds (<[fd := []]> (wfds w)) w ->
    must (fun s w' => must Q X (fprintf 1 (codes "%d %d %d %s" ++ nl) [iarg (wc_l s); iarg (wc_w s); iarg (wc_c s); sarg name]) w') X
      (ITree.iter (fun s : wc_t =>
        r ← sys (ERead fd 512);
        match r with
        | None => fprintf 1 (codes "wc: read error" ++ nl) [];; exit_
        | Some [] => Ret (inr s)
        | Some bs => Ret (inl (fold_left wc_byte bs s))
        end) (fold_left wc_byte pre (MkWc 0 0 0 false))) w1) as Hloop; [|by apply (Hloop (length bs) [] bs w)].
  induction n as [n IH] using lt_wf_ind. intros pre rest w1 -> Ebs Hfd1 Ew. apply must_iter, must_bind, must_sys. intros r w2 Hs. cbn in Hs. rewrite Hfd1 in Hs.
  destruct Hs as (b & rest' & -> & Hb & Hne & -> & ->). destruct b as [|c b].
  - specialize (Hne eq_refl). cbn in Hne. subst rest'. rewrite app_nil_r in Ebs. subst pre. apply must_value.
    rewrite wc_bytes. cbn [wc_l wc_w wc_c wc_in]. rewrite Z.sub_0_r, !Z.add_0_l.
    eapply fprintf_must; [by apply wc_printf|by left|]. by rewrite Ew.
  - apply must_value. rewrite <- fold_left_app. apply (IH (length rest') ltac:(rewrite length_app; cbn; lia) (pre ++ c :: b) rest'); [done|by rewrite <- app_assoc|cbn; by rewrite lookup_insert_eq|].
    rewrite <- Ew. unfold set_fds. cbn. by rewrite insert_insert_eq.
Qed.

(** [wc] prints, for each file, the numbers of its newlines, of its words (the fields
    between blanks that are not empty) and of its bytes, however the reads cut the file
    up, and ends. *)
Theorem wc_counts names fs w :
  names <> [] -> Forall2 (fun n bs => wfiles w !! n = Some bs /\ Z.of_nat (length bs) < 2 ^ 31) names fs ->
  must (fun _ _ => False) (fun w' => wout w' = wout w ++ concat (zip_with wc_line names fs) /\ werr w' = werr w) (wc_main (codes "wc" :: names)) w.
Proof.
  intros Hne HF. unfold wc_main. cbn [tail]. destruct names as [|n0 names0]; [done|]. set (names := n0 :: names0) in *. apply must_bind.
  apply (for_each_must _ _ (fun d w' => wfiles w' = wfiles w /\ werr w' = werr w /\ wout w' = wout w ++ concat (take (length d) (zip_with wc_line names fs))) names []).
  - cbn. by rewrite app_nil_r.
  - intros d a rest w1 E (I1 & I2 & I3). cbn [app] in E. assert (names !! length d = Some a) as Ha by (rewrite E; by apply list_lookup_middle).
    destruct (Forall2_lookup_l _ _ _ _ _ HF Ha) as (bs & Hbs & Hf & Hl). apply must_bind, must_sys. intros fd w2 Hs. cbn in Hs. rewrite I1, Hf in Hs.
    destruct Hs as (fd' & H0 & Hfd & -> & ->). rewrite (proj2 (Z.ltb_ge _ _)) by done. apply must_bind. apply (wc_must _ fd' a bs); [cbn; by rewrite lookup_insert_eq|done|].
    apply must_bind, must_sys. intros r w3 [_ ->]. apply must_value. unfold emit, set_fds. cbn [Z.eqb Pos.eqb wfiles wfds wout werr]. split_and!; [done|done|]. rewrite I3, length_app. cbn [length].
    assert (zip_with wc_line names fs !! length d = Some (wc_line a bs)) as Hz by (by rewrite lookup_zip_with, Ha, Hbs).
    rewrite Nat.add_1_r, (take_S_r _ _ _ Hz), concat_app. cbn [concat]. by rewrite app_nil_r, app_assoc.
  - intros w' (_ & I2 & I3). apply must_stop. split; [|done]. rewrite I3. cbn [app]. f_equal. f_equal. apply take_ge. rewrite length_zip_with. lia.
Qed.

(** ** echo *)

Fixpoint echo_bytes (args : list (list Z)) : list Z :=
  match args with
  | [] => []
  | [a] => a ++ [10]
  | a :: args => a ++ [32] ++ echo_bytes args
  end.

(** [echo] prints its arguments with spaces between them and a newline at the end. *)
Theorem echo_prints args w :
  must (fun _ _ => False) (fun w' => wout w' = wout w ++ echo_bytes args /\ werr w' = werr w) (echo_main (codes "echo" :: args)) w.
Proof.
  unfold echo_main. cbn [tail]. apply must_bind.
  assert (forall w1 pre, wout w1 = wout w ++ pre -> werr w1 = werr w ->
    must (fun _ w' => must (fun (_ : unit) _ => False) (fun w2 => wout w2 = wout w ++ pre ++ echo_bytes args /\ werr w2 = werr w) exit_ w') (fun w2 => wout w2 = wout w ++ pre ++ echo_bytes args /\ werr w2 = werr w) (echo_args args) w1) as H.
  { induction args as [|a args IH]; intros w1 pre E1 E2; cbn [echo_args]; [apply must_value, must_stop; by rewrite app_nil_r|].
    apply must_bind. set (sep := match args with [] => nl | _ => [32] end).
    assert (printf (codes "%s%s") [sarg a; sarg sep] = Some (a ++ sep)) as Ep by (unfold printf; cbn; by rewrite app_nil_r).
    eapply fprintf_must; [exact Ep|by left|]. assert (pre ++ echo_bytes (a :: args) = (pre ++ a ++ sep) ++ echo_bytes args) as ->.
    { subst sep. destruct args; cbn [echo_bytes]; unfold nl; by rewrite <- ?app_assoc, ?app_nil_r. }
    apply IH; [|done]. unfold emit. cbn. by rewrite E1, <- app_assoc. }
  apply (H w []); [by rewrite app_nil_r|done].
Qed.

(** ** A concrete run *)

Definition demo_world : world := MkWorld {[ codes "a" := codes "hi  there" ++ nl; codes "b" := [] ]} ∅ [] [].

Lemma cat_prints_witness :
  must (fun _ _ => False) (fun w' => wout w' = codes "hi  there" ++ nl /\ werr w' = []) (cat_main [codes "cat"; codes "a"; codes "b"]) demo_world.
Proof. apply (cat_prints [codes "a"; codes "b"] [codes "hi  there" ++ nl; []] demo_world); [done|]. repeat constructor. Defined.

Lemma wc_counts_witness :
  must (fun _ _ => False) (fun w' => wout w' = codes "1 2 10 a" ++ nl ++ codes "0 0 0 b" ++ nl /\ werr w' = []) (wc_main [codes "wc"; codes "a"; codes "b"]) demo_world.
Proof. apply (wc_counts [codes "a"; codes "b"] [codes "hi  there" ++ nl; []] demo_world); [done|]. repeat constructor. Defined.
