(* ===== verification/Monad.v ===== *)
(** * The effects of the kernel's C code

    A C function that reads and writes the kernel's globals is a function from
    the state to an outcome: it returns a value in a new state, it panics, or it
    gives up the CPU ([sched] in proc.c), in which case the outcome also holds
    the rest of the function, to be run from whatever state the process is
    resumed in.  Loops that are not structural carry fuel, and running out of it
    is an outcome of its own, so that no theorem about a returned value can hold
    because a loop was cut short. *)

From S2P Require Import Prelude.

Inductive outcome (S A : Type) : Type :=
  | Ok (a : A) (s : S)
  | Panic (msg : string)
  | Switch (s : S) (k : S -> outcome S A)
  | NoFuel.
Arguments Ok {S A} a s.
Arguments Panic {S A} msg.
Arguments Switch {S A} s k.
Arguments NoFuel {S A}.

Definition M (S A : Type) : Type := S -> outcome S A.

Definition ret {S A} (a : A) : M S A := fun s => Ok a s.
Fixpoint obind {S A B} (o : outcome S A) (k : A -> M S B) : outcome S B :=
  match o with
  | Ok a s' => k a s'
  | Panic msg => Panic msg
  | Switch s' r => Switch s' (fun s => obind (r s) k)
  | NoFuel => NoFuel
  end.
Definition bind {S A B} (m : M S A) (k : A -> M S B) : M S B := fun s => obind (m s) k.
Definition panic {S A} (msg : string) : M S A := fun _ => Panic msg.
Definition nofuel {S A} : M S A := fun _ => NoFuel.
Definition gets {S A} (f : S -> A) : M S A := fun s => Ok (f s) s.
Definition modify {S} (f : S -> S) : M S unit := fun s => Ok tt (f s).

(** Gives up the CPU; returns in the state the caller is resumed in. *)
Definition switch {S} : M S unit := fun s => Switch s (fun s' => Ok tt s').

(** Runs code of an inner component on the part of the state it owns. *)
Fixpoint olift {S T A} (get : S -> T) (set : T -> S -> S) (s : S) (o : outcome T A) : outcome S A :=
  match o with
  | Ok a t => Ok a (set t s)
  | Panic msg => Panic msg
  | Switch t r => Switch (set t s) (fun s' => olift get set s' (r (get s')))
  | NoFuel => NoFuel
  end.
Definition zoom {S T A} (get : S -> T) (set : T -> S -> S) (m : M T A) : M S A := fun s =>
  olift get set s (m (get s)).

Declare Scope c_scope.
Delimit Scope c_scope with c.
Notation "'let*' x := m 'in' k" := (bind m (fun x => k))
  (at level 10, x name, m at level 100, k at level 200) : c_scope.
Notation "m ';;;' k" := (bind m (fun _ => k))
  (at level 100, k at level 200, right associativity) : c_scope.
#[global] Open Scope c_scope.

(** [when] is an [if] without an [else]. *)
Definition when {S} (b : bool) (m : M S unit) : M S unit := if b then m else ret tt.

(** ** Weakest preconditions

    [wp m Q s]: from [s], [m] returns, without panicking or giving up the CPU, a
    value and a state satisfying [Q]. *)

Definition wp {S A} (m : M S A) (Q : A -> S -> Prop) (s : S) : Prop :=
  match m s with Ok a s' => Q a s' | _ => False end.

(** [wps I R m Q s]: [m] does not panic; it gives up the CPU only in states
    satisfying [I], and, resumed after each such state [s'] in any state [s'']
    with [R s' s''], goes on to satisfy [Q] if it returns. *)
Fixpoint sat {S A} (I : S -> Prop) (R : S -> S -> Prop) (Q : A -> S -> Prop) (o : outcome S A) : Prop :=
  match o with
  | Ok a s' => Q a s'
  | Panic _ => False
  | Switch s' k => I s' /\ forall s'', R s' s'' -> sat I R Q (k s'')
  | NoFuel => True
  end.
Definition wps {S A} (I : S -> Prop) (R : S -> S -> Prop) (m : M S A) (Q : A -> S -> Prop) (s : S) : Prop :=
  sat I R Q (m s).

Section rules.
Context {S A B : Type}.
Implicit Types (m : M S A) (Q : A -> S -> Prop) (s : S).

Lemma wp_mono m Q Q' s : wp m Q s -> (forall a s', Q a s' -> Q' a s') -> wp m Q' s.
Proof. unfold wp. destruct (m s); naive_solver. Qed.

(** A run that ends, checked by evaluation. *)
Lemma wp_eval m (f : A -> S -> bool) s :
  match m s with Ok a s' => f a s' | _ => false end = true -> wp m (fun a s' => f a s' = true) s.
Proof. unfold wp. destruct (m s); done. Qed.

Lemma wp_bind m (k : A -> M S B) (Q : B -> S -> Prop) s :
  wp m (fun a s' => wp (k a) Q s') s -> wp (bind m k) Q s.
Proof. unfold wp, bind. destruct (m s); done. Qed.

Lemma wp_ret (a : A) Q s : Q a s -> wp (ret a) Q s.
Proof. done. Qed.

Lemma wp_gets (f : S -> A) Q s : Q (f s) s -> wp (gets f) Q s.
Proof. done. Qed.

Lemma wp_modify (f : S -> S) (Q : unit -> S -> Prop) s : Q tt (f s) -> wp (modify f) Q s.
Proof. done. Qed.

Lemma wp_when b (m : M S unit) (Q : unit -> S -> Prop) s :
  (b = true -> wp m Q s) -> (b = false -> Q tt s) -> wp (when b m) Q s.
Proof. destruct b; cbn; auto. Qed.

Lemma wp_ok m Q s : wp m Q s <-> exists a s', m s = Ok a s' /\ Q a s'.
Proof. unfold wp. destruct (m s); naive_solver. Qed.

Lemma wp_zoom {T} (get : S -> T) (set : T -> S -> S) (m : M T A) Q s :
  wp m (fun a t => Q a (set t s)) (get s) -> wp (zoom get set m) Q s.
Proof. unfold wp, zoom. destruct (m (get s)); done. Qed.

Context (I : S -> Prop) (R : S -> S -> Prop).

Lemma sat_mono Q Q' o : sat I R Q o -> (forall a s', Q a s' -> Q' a s') -> sat I R Q' o.
Proof.
  intros H HQ. induction o as [a s|msg|s k IH|]; cbn in *; auto.
  destruct H as [H1 H2]. split; [done|]. intros s' Hs. by apply IH, H2.
Qed.

Lemma sat_bind (o : outcome S A) (k : A -> M S B) (Q : B -> S -> Prop) :
  sat I R (fun a s' => sat I R Q (k a s')) o -> sat I R Q (obind o k).
Proof.
  induction o as [a s|msg|s r IH|]; cbn; auto.
  intros [H1 H2]. split; [done|]. intros s' Hs. by apply IH, H2.
Qed.

Lemma wps_mono m Q Q' s : wps I R m Q s -> (forall a s', Q a s' -> Q' a s') -> wps I R m Q' s.
Proof. apply sat_mono. Qed.

Lemma wps_bind m (k : A -> M S B) (Q : B -> S -> Prop) s :
  wps I R m (fun a s' => wps I R (k a) Q s') s -> wps I R (bind m k) Q s.
Proof. apply sat_bind. Qed.

Lemma wp_wps m Q s : wp m Q s -> wps I R m Q s.
Proof. unfold wp, wps. by destruct (m s). Qed.

Lemma wps_switch (Q : unit -> S -> Prop) s :
  I s -> (forall s', R s s' -> Q tt s') -> wps I R switch Q s.
Proof. by split. Qed.
End rules.

(** A specification for code in the middle of a sequence, used at its end. *)
Lemma wp_tail {S} (m1 m2 : M S unit) (R : unit -> S -> Prop) s : wp (m1 ;;; m2 ;;; ret tt) R s -> wp (m1 ;;; m2) R s.
Proof. unfold wp, bind. destruct (m1 s) as [u s1| | |]; cbn [obind]; try done. destruct (m2 s1) as [[] s2| | |]; done. Qed.

(** Code of an inner component, resumed while the rest of the state changed: [K] is
    what holds of the rest whenever the inner component runs. *)
Lemma wps_zoom {S T A} (get : S -> T) (set : T -> S -> S) (m : M T A) (K : S -> Prop)
  (J : T -> Prop) (RT : T -> T -> Prop) (P : A -> T -> Prop)
  (I : S -> Prop) (R : S -> S -> Prop) (Q : A -> S -> Prop) s :
  wps J RT m P (get s) -> K s ->
  (forall t s, K s -> J t -> I (set t s)) ->
  (forall t s s', K s -> J t -> R (set t s) s' -> K s' /\ RT t (get s')) ->
  (forall a t s, K s -> P a t -> Q a (set t s)) ->
  wps I R (zoom get set m) Q s.
Proof.
  intros Hm HK HI HR HQ.
  assert (forall o, sat J RT P o -> forall s, K s -> sat I R Q (olift get set s o)) as Ho; [|by apply Ho].
  clear s Hm HK. intros o. induction o as [a t|msg|t k IH|]; cbn; intros Hm s HK; auto.
  destruct Hm as [H1 H2]. split; [auto|]. intros s' Hs. destruct (HR t s s' HK H1 Hs) as [HK' HT].
  apply IH; [by apply H2|done].
Qed.

(** One symbolic step of a [wp] goal: binds are opened, pure primitives run. *)
Ltac wp_step :=
  match goal with
  | |- wp (bind _ _) _ _ => apply wp_bind
  | |- wp (ret _) _ _ => apply wp_ret
  | |- wp (gets _) _ _ => apply wp_gets
  | |- wp (modify _) _ _ => apply wp_modify
  | |- wp (zoom _ _ _) _ _ => apply wp_zoom
  | |- wp (let _ := _ in _) _ _ => cbv zeta
  | |- wps _ _ (bind _ _) _ _ => apply wps_bind
  | |- wps _ _ (ret _) _ _ => apply wp_wps, wp_ret
  | |- wps _ _ (gets _) _ _ => apply wp_wps, wp_gets
  | |- wps _ _ (modify _) _ _ => apply wp_wps, wp_modify
  end.
Ltac wp_go := repeat (wp_step; cbn beta).

(** Uses a specification of the first call of the goal. *)
Tactic Notation "wp_use" uconstr(lem) := eapply wp_mono; [eapply lem | cbn beta].
