(* ===== verification/Umalloc.v ===== *)
(** * The user memory allocator (umalloc.c)

    The free blocks are a circular list in address order, threaded through headers in
    the process's own memory; [free] merges a block with its neighbours, [malloc] takes
    the first block large enough, from the tail of it, and gets more memory with [sbrk]
    when a round finds none.  Pointers are compared as unsigned words, and [sizeof(Header)]
    is 8. *)

From S2P Require Import Prelude Strings Monad.

(** The process's memory, its size (what [sbrk] moves) and the static [freep]. *)
Record uheap : Type := MkUH { hmem : bmem; brk : Z; freep : Z }.
Definition set_hmem (m : bmem) (h : uheap) : uheap := MkUH m (brk h) (freep h).
Definition set_brk (b : Z) (h : uheap) : uheap := MkUH (hmem h) b (freep h).
Definition set_freep (p : Z) (h : uheap) : uheap := MkUH (hmem h) (brk h) p.

(** [union header]: the fields [s.ptr] and [s.size] of the header at [p]. *)
Definition h_ptr (p : Z) : M uheap Z := gets (fun h => peek32 p (hmem h)).
Definition h_size (p : Z) : M uheap Z := gets (fun h => peek32 (padd p 4) (hmem h)).
Definition h_set_ptr (p v : Z) : M uheap unit := modify (fun h => set_hmem (poke32 p v (hmem h)) h).
Definition h_set_size (p v : Z) : M uheap unit := modify (fun h => set_hmem (poke32 (padd p 4) v (hmem h)) h).
(** [p + n] for a [Header *]. *)
Definition hadd (p n : Z) : Z := padd p (8 * n).

(** [sbrk]: the kernel moves the end of memory by a signed amount, or refuses; user
    memory ends at 2^31. *)
Class Sbrk : Type := {
  sbrk_ok : Z -> Z -> bool;
  sbrk_limit b n : 0 <= b -> 0 <= n < 2 ^ 31 -> sbrk_ok b n = true -> b + n <= 2 ^ 31
}.

(** What [sys_sbrk] accepts: the new size is below [KERNBASE]. *)
#[export] Instance lazy_sbrk : Sbrk.
Proof.
  refine {| sbrk_ok b n := negb ((2 ^ 31 <=? u32 (b + n)) || (u32 (b + n) <? b)) |}.
  intros b n Hb Hn H. apply negb_true_iff, orb_false_iff in H as [H1 H2].
  unfold u32 in *. destruct (decide (b + n < 2 ^ 32)); [rewrite Z.mod_small in H1 by lia; lia|].
  pose proof (Z.mod_pos_bound (b + n) (2 ^ 32) ltac:(lia)). pose proof (Z.div_mod (b + n) (2 ^ 32) ltac:(lia)).
  pose proof (Z.div_le_lower_bound (b + n) (2 ^ 32) 1 ltac:(lia) ltac:(lia)). lia.
Defined.

Section umalloc.
Context {SB : Sbrk} (base : Z).

Definition sbrk (n : Z) : M uheap Z :=
  let* b := gets brk in
  if sbrk_ok b (s32 n) then modify (set_brk (b + s32 n)) ;;; ret b else ret (u32 (-1)).

(** The heap holds at most one header in every 8 bytes. *)
Definition heap_fuel (h : uheap) : nat := S (S (Z.to_nat (brk h / 8))).

Fixpoint free_search (f : nat) (p bp : Z) : M uheap Z :=
  match f with
  | O => nofuel
  | S f =>
      let* next := h_ptr p in
      if (p <? bp) && (bp <? next) then ret p else
      if (next <=? p) && ((p <? bp) || (bp <? next)) then ret p else
      free_search f next bp
  end.

Definition free (ap : Z) : M uheap unit :=
  let bp := hadd ap (-1) in
  let* f := gets heap_fuel in
  let* p := gets freep in
  let* p := free_search f p bp in
  let* bsize := h_size bp in
  let* next := h_ptr p in
  (if hadd bp bsize =? next then
     let* nsize := h_size next in
     h_set_size bp (u32 (bsize + nsize)) ;;;
     let* next := h_ptr p in
     let* nnext := h_ptr next in
     h_set_ptr bp nnext
   else h_set_ptr bp next) ;;;
  let* psize := h_size p in
  (if hadd p psize =? bp then
     let* bsize := h_size bp in
     h_set_size p (u32 (psize + bsize)) ;;;
     let* bnext := h_ptr bp in
     h_set_ptr p bnext
   else h_set_ptr p bp) ;;;
  modify (set_freep p).

Definition morecore (nu : Z) : M uheap Z :=
  let nu := if nu <? 4096 then 4096 else nu in
  let* p := sbrk (u32 (nu * 8)) in
  if p =? u32 (-1) then ret 0 else
  h_set_size p nu ;;;
  free (hadd p 1) ;;;
  gets freep.

Fixpoint malloc_loop (f : nat) (nunits prevp p : Z) : M uheap Z :=
  match f with
  | O => nofuel
  | S f =>
      let* size := h_size p in
      if nunits <=? size then
        let* p := (if size =? nunits then
            let* next := h_ptr p in
            h_set_ptr prevp next ;;;
            ret p
          else
            h_set_size p (u32 (size - nunits)) ;;;
            let* size := h_size p in
            let p := hadd p size in
            h_set_size p nunits ;;;
            ret p) in
        modify (set_freep prevp) ;;;
        ret (hadd p 1)
      else
        let* fp := gets freep in
        if p =? fp then
          let* p := morecore nunits in
          if p =? 0 then ret 0 else
          let* next := h_ptr p in
          malloc_loop f nunits p next
        else
          let* next := h_ptr p in
          malloc_loop f nunits p next
  end.

Definition malloc (nbytes : Z) : M uheap Z :=
  let nunits := u32 (u32 (nbytes + 8 - 1) / 8 + 1) in
  let* prevp := gets freep in
  let* prevp := (if prevp =? 0 then
      modify (set_freep base) ;;;
      h_set_ptr base base ;;;
      h_set_size base 0 ;;;
      ret base
    else ret prevp) in
  let* p := h_ptr prevp in
  let* h := gets (fun h => h) in
  malloc_loop (2 * heap_fuel h) nunits prevp p.

End umalloc.

(** ** Words in memory *)

Lemma poke32_at a v m x :
  0 <= a -> a + 4 < 2 ^ 32 ->
  poke32 a v m x = if decide (a <= x < a + 4) then u8 (Z.shiftr v (8 * (x - a))) else m x.
Proof.
  intros H0 H1. unfold poke32. rewrite !padd_small by lia. unfold poke. case_decide as E.
  - assert (x = a \/ x = a + 1 \/ x = a + 2 \/ x = a + 3) as [-> | [-> | [-> | ->]]] by lia.
    all: repeat (zif; try lia). all: do 2 f_equal; try lia. by rewrite Z.sub_diag.
  - repeat (zif; try lia).
Qed.

Lemma peek32_poke32 a v m : 0 <= a -> a + 4 < 2 ^ 32 -> peek32 a (poke32 a v m) = u32 v.
Proof.
  intros H0 H1. unfold peek32. rewrite !padd_small by lia. rewrite !poke32_at by lia. rewrite !decide_True by lia.
  replace (8 * (a - a)) with 0 by lia. replace (8 * (a + 1 - a)) with 8 by lia. replace (8 * (a + 2 - a)) with 16 by lia. replace (8 * (a + 3 - a)) with 24 by lia.
  rewrite !Z.shiftr_div_pow2 by lia. unfold u8, u32. change (2 ^ 0) with 1. zdiv.
Qed.

Lemma peek32_ext a m m' : 0 <= a -> a + 4 < 2 ^ 32 -> (forall x, a <= x < a + 4 -> m' x = m x) -> peek32 a m' = peek32 a m.
Proof. intros H0 H1 H. unfold peek32. rewrite !padd_small by lia. by rewrite !H by lia. Qed.

Definition ptr_at (m : bmem) (p : Z) : Z := peek32 p m.
Definition size_at (m : bmem) (p : Z) : Z := peek32 (p + 4) m.

(** The memories agree outside the headers at [ps]. *)
Definition headers_only (ps : list Z) (m m' : bmem) : Prop := forall x, (forall p, p ∈ ps -> ~ p <= x < p + 8) -> m' x = m x.

Lemma headers_only_trans ps m1 m2 m3 : headers_only ps m1 m2 -> headers_only ps m2 m3 -> headers_only ps m1 m3.
Proof. intros H1 H2 x Hx. rewrite H2, H1; done. Qed.

Lemma headers_only_mono ps qs m m' : headers_only ps m m' -> ps ⊆ qs -> headers_only qs m m'.
Proof. intros H Hs x Hx. apply H. intros p Hp. by apply Hx, Hs. Qed.

Lemma headers_only_field ps m m' q o :
  headers_only ps m m' -> 0 <= q -> q + 8 < 2 ^ 32 -> 0 <= o <= 4 -> (forall p, p ∈ ps -> p + 8 <= q \/ q + 8 <= p) -> peek32 (q + o) m' = peek32 (q + o) m.
Proof. intros H H0 H1 Ho Hps. apply peek32_ext; [lia|lia|]. intros x Hx. apply H. intros p Hp. destruct (Hps p Hp); lia. Qed.
