(* ===== verification/UmallocInv.v ===== *)
(** * What the user memory allocator promises

    Blocks given out are inside the heap, as large as asked for and disjoint from each
    other and from the free ones, and freeing a block makes its space available again. *)

From stdpp Require Import sorting.
From S2P Require Import Prelude Strings Monad Umalloc.

(** A block: the address of its header, and its size in headers. *)
Abbreviation ublock := (Z * Z)%type.

(** The end of a block; the list's first element is a header without space. *)
Definition uend (x : ublock) : Z := x.1 + 8 * Z.max 1 x.2.
Definition apart (x y : ublock) : Prop := uend x <= y.1 \/ uend y <= x.1.

Fixpoint separate (l : list ublock) : Prop :=
  match l with
  | [] => True
  | x :: l => Forall (apart x) l /\ separate l
  end.

Lemma apart_sym x y : apart x y -> apart y x.
Proof. unfold apart. tauto. Qed.

#[export] Instance separate_proper : Proper (Permutation ==> iff) separate.
Proof.
  assert (forall l l', Permutation l l' -> separate l -> separate l') as H.
  { induction 1 as [|x l l' Hp IH|x y l|l l' l'' H1 IH1 H2 IH2]; cbn; [done| | |auto].
    - intros [Hx Hl]. split; [by rewrite <- Hp|auto].
    - intros [Hy [Hx Hl]]. apply Forall_cons in Hy as [Hyx Hy]. split; [|done]. apply Forall_cons. split; [by apply apart_sym|done]. }
  intros l l' Hp. split; by apply H.
Qed.

Lemma separate_app l1 l2 : separate (l1 ++ l2) <-> separate l1 /\ separate l2 /\ forall x y, x ∈ l1 -> y ∈ l2 -> apart x y.
Proof.
  induction l1 as [|x l1 IH]; cbn; [set_solver|]. rewrite Forall_app, IH, !Forall_forall. set_solver.
Qed.

Lemma separate_elem l x y : separate l -> x ∈ l -> y ∈ l -> x <> y -> apart x y.
Proof.
  induction l as [|z l IH]; intros Hs Hx Hy Hne; [set_solver|]. destruct Hs as [Hz Hs]. rewrite Forall_forall in Hz.
  apply elem_of_cons in Hx as [->|Hx], Hy as [->|Hy]; [done|by apply Hz|by apply apart_sym, Hz|by apply IH].
Qed.

(** Parts of blocks are as far apart as the blocks. *)
Lemma apart_within x x' y : apart x y -> x.1 <= x'.1 -> uend x' <= uend x -> apart x' y.
Proof. unfold apart. lia. Qed.

Definition first (l : list ublock) (e : Z) : Z := match l with [] => e | x :: _ => x.1 end.

(** The pointers of the blocks [l] lead from each to the next, and from the last to [e]. *)
Fixpoint chained (m : bmem) (l : list ublock) (e : Z) : Prop :=
  match l with
  | [] => True
  | x :: l => ptr_at m x.1 = first l e /\ chained m l e
  end.

Lemma first_app l1 l2 e : first (l1 ++ l2) e = first l1 (first l2 e).
Proof. by destruct l1. Qed.

Lemma chained_app m l1 l2 e : chained m (l1 ++ l2) e <-> chained m l1 (first l2 e) /\ chained m l2 e.
Proof. induction l1 as [|x l1 IH]; cbn; [tauto|]. rewrite IH, first_app. tauto. Qed.

Lemma chained_ext m m' l e : (forall x, x ∈ l -> ptr_at m' x.1 = ptr_at m x.1) -> chained m l e -> chained m' l e.
Proof. induction l as [|x l IH]; cbn; [done|]. intros H [H1 H2]. split; [rewrite H by set_solver; done|]. apply IH; [set_solver|done]. Qed.

Fixpoint units (l : list ublock) : Z :=
  match l with
  | [] => 0
  | x :: l => x.2 + units l
  end.

Lemma units_app l1 l2 : units (l1 ++ l2) = units l1 + units l2.
Proof. induction l1 as [|x l1 IH]; cbn; [done|]. rewrite IH. lia. Qed.

#[export] Instance units_proper : Proper (Permutation ==> eq) units.
Proof. induction 1; cbn; lia. Qed.

Section heap.
Context {SB : Sbrk} (base : Z).

(** The free blocks [L] and the blocks given out [A]. *)
Record heap_ok (L A : list ublock) (h : uheap) : Prop := {
  ho_base : exists L', L = (base, 0) :: L';
  ho_sorted : StronglySorted (fun x y => x.1 < y.1) L;
  ho_range : forall x, x ∈ L ++ A -> x = (base, 0) \/ 1 <= x.2 /\ uend x <= brk h;
  ho_pos : 0 < base /\ base + 8 <= brk h <= 2 ^ 31;
  ho_low : forall x, x ∈ L ++ A -> base <= x.1;
  ho_apart : separate (L ++ A);
  ho_chain : chained (hmem h) L base;
  ho_size : forall x, x ∈ L ++ A -> size_at (hmem h) x.1 = x.2;
  ho_freep : freep h ∈ L.*1
}.

Lemma ho_bounds L A h x : heap_ok L A h -> x ∈ L ++ A -> 0 < x.1 /\ uend x <= 2 ^ 31 /\ x.1 + 8 <= uend x /\ 0 <= x.2.
Proof.
  intros H Hx. pose proof (ho_pos _ _ _ H). pose proof (ho_low _ _ _ H x Hx). unfold uend in *.
  destruct (ho_range _ _ _ H x Hx) as [-> | [R1 R2]]; unfold uend in *; cbn in *; lia.
Qed.

Lemma apart_headers x y : apart x y -> x.1 + 8 <= y.1 \/ y.1 + 8 <= x.1.
Proof. unfold apart, uend. lia. Qed.

(** Fields of a block apart from those whose headers changed. *)
Lemma kept_fields ps m m' L A h x :
  heap_ok L A h -> x ∈ L ++ A -> headers_only ps m m' -> (forall p, p ∈ ps -> p + 8 <= x.1 \/ x.1 + 8 <= p) ->
  ptr_at m' x.1 = ptr_at m x.1 /\ size_at m' x.1 = size_at m x.1.
Proof.
  intros H Hx Hm Hp. pose proof (ho_bounds _ _ _ _ H Hx) as (B1 & B2 & B3 & B4). unfold ptr_at, size_at. split.
  - rewrite <- (Z.add_0_r x.1). eapply headers_only_field; [done|lia|lia|lia|done].
  - eapply headers_only_field; [done|lia|lia|lia|done].
Qed.

Lemma sorted_fit lo hi (l : list ublock) :
  StronglySorted (fun x y => x.1 < y.1) l -> separate l -> (forall x, x ∈ l -> lo <= x.1 /\ uend x <= hi) -> lo <= hi ->
  lo + 8 * Z.of_nat (length l) <= hi.
Proof.
  revert lo. induction l as [|x l IH]; intros lo Hs Ha Hr Hlh; [cbn; lia|]. apply StronglySorted_inv in Hs as [Hs Hx]. destruct Ha as [Hax Ha].
  destruct (Hr x ltac:(set_solver)) as [R1 R2]. rewrite Forall_forall in Hx, Hax.
  specialize (IH (x.1 + 8) Hs Ha). cbn [length]. cut (x.1 + 8 + 8 * Z.of_nat (length l) <= hi); [lia|]. unfold uend in *. apply IH; [|lia].
  intros y Hy. destruct (Hr y ltac:(set_solver)) as [_ R4]. specialize (Hx y Hy). destruct (Hax y Hy) as [E|E]; unfold uend in *; lia.
Qed.

Lemma sorted_app_lt (l1 l2 : list ublock) x y : StronglySorted (fun x y => x.1 < y.1) (l1 ++ l2) -> x ∈ l1 -> y ∈ l2 -> x.1 < y.1.
Proof. intros H Hx Hy. by eapply StronglySorted_app_1_elem_of in H. Qed.

Lemma sorted_inj (l : list ublock) x y : StronglySorted (fun x y => x.1 < y.1) l -> x ∈ l -> y ∈ l -> x.1 = y.1 -> x = y.
Proof.
  induction l as [|z l IH]; intros Hs Hx Hy E; [set_solver|]. apply StronglySorted_inv in Hs as [Hs Hz]. rewrite Forall_forall in Hz.
  apply elem_of_cons in Hx as [->|Hx], Hy as [->|Hy]; [done|specialize (Hz y Hy); lia|specialize (Hz x Hx); lia|by apply IH].
Qed.

Lemma free_fuel L A h : heap_ok L A h -> (length L < heap_fuel h)%nat.
Proof.
  intros H. destruct (ho_base _ _ _ H) as [L' EL]. pose proof (ho_pos _ _ _ H) as (P1 & P2 & P3).
  assert (base + 8 + 8 * Z.of_nat (length L') <= Z.max (base + 8) (brk h)) as Hf.
  { pose proof (ho_sorted _ _ _ H) as Hs. pose proof (ho_apart _ _ _ H) as Ha. rewrite EL in Hs, Ha. apply StronglySorted_inv in Hs as [Hs Hx].
    apply separate_app in Ha as [[Hb Ha] _]. rewrite Forall_forall in Hx, Hb. apply sorted_fit; [done|done| |lia].
    intros x Hx'. specialize (Hx x Hx'). specialize (Hb x Hx'). cbn in Hx. assert (x ∈ L ++ A) as Hin by (rewrite EL; set_solver).
    destruct (ho_range _ _ _ H x Hin) as [-> | [R1 R2]]; [cbn in Hx; lia|]. destruct Hb as [E|E]; unfold uend in *; cbn in *; lia. }
  unfold heap_fuel. rewrite EL. cbn [length]. assert (Z.of_nat (length L') <= brk h / 8) by (apply Z.div_le_lower_bound; lia). lia.
Qed.

(** ** [free] *)

Lemma free_base L A h z : heap_ok L A h -> z ∈ L -> base <= z.1.
Proof. intros Hok Hz. apply (ho_low _ _ _ Hok). set_solver. Qed.

Lemma free_head L A h z : heap_ok L A h -> z ∈ L -> z.1 = base -> z = (base, 0).
Proof.
  intros Hok Hz E. destruct (ho_base _ _ _ Hok) as [L' EL].
  apply (sorted_inj L); [by eapply ho_sorted|done|rewrite EL; set_solver|done].
Qed.

Section search.
Context (L A : list ublock) (h : uheap) (bp bn : Z) (Lp : list ublock) (y : ublock) (L2 : list ublock).
Hypotheses (Hok : heap_ok L A h) (EL : L = Lp ++ y :: L2) (Hy : y.1 < bp) (Hgt : forall z, z ∈ L2 -> bp < z.1).

Lemma search_up K Lq f :
  Lp = Lq ++ K -> (length K < f)%nat -> wp (free_search f (first (K ++ y :: L2) base) bp) (fun r s => r = y.1 /\ s = h) h.
Proof.
  revert Lq f. induction K as [|x K IH]; intros Lq f EK Hf; (destruct f as [|f]; [cbn in Hf; lia|]); cbn [free_search app first];
    unfold h_ptr; apply wp_bind, wp_gets; change (peek32 ?a (hmem h)) with (ptr_at (hmem h) a);
    pose proof (ho_chain _ _ _ Hok) as Hc; rewrite EL in Hc.
  - apply chained_app in Hc as [_ [Hc _]]. rewrite Hc. rewrite (proj2 (Z.ltb_lt _ _) Hy). cbn [andb orb].
    destruct L2 as [|z L3]; cbn [first].
    + assert (base <= y.1) as Hb by (eapply free_base; [exact Hok|rewrite EL; set_solver]). rewrite (proj2 (Z.ltb_ge bp base)), (proj2 (Z.leb_le base y.1)) by lia. done.
    + rewrite (proj2 (Z.ltb_lt bp z.1)) by (apply Hgt; set_solver). done.
  - rewrite EK, <- app_assoc in Hc. apply chained_app in Hc as [_ [Hc _]]. cbn [app first] in Hc. rewrite Hc.
    assert (forall z, z ∈ K ++ y :: L2 -> x.1 < z.1) as Hx.
    { intros z Hz. pose proof (ho_sorted _ _ _ Hok) as Hs. rewrite EL, EK in Hs. eapply (sorted_app_lt (Lq ++ [x]) (K ++ y :: L2)); [|set_solver|done].
      by rewrite <- !app_assoc in *. }
    assert (x.1 < y.1) by (apply Hx; set_solver). rewrite (proj2 (Z.ltb_lt x.1 bp)) by lia. cbn [andb orb].
    assert (first (K ++ y :: L2) base < bp /\ x.1 < first (K ++ y :: L2) base) as [F1 F2].
    { destruct K as [|z K]; cbn [app first]; [split; [done|apply Hx; set_solver]|]. split; [|apply Hx; set_solver].
      pose proof (ho_sorted _ _ _ Hok) as Hs. rewrite EL in Hs. pose proof (sorted_app_lt _ _ z y Hs ltac:(rewrite EK; set_solver) ltac:(set_solver)). lia. }
    rewrite (proj2 (Z.ltb_ge bp _)), (proj2 (Z.leb_gt _ x.1)) by lia. cbn [andb].
    apply (IH (Lq ++ [x])); [by rewrite <- app_assoc|cbn in Hf; lia].
Qed.

Lemma search_wrap K Lq f :
  L2 = Lq ++ K -> K <> [] -> (length K + length Lp < f)%nat -> wp (free_search f (first K base) bp) (fun r s => r = y.1 /\ s = h) h.
Proof.
  revert Lq f. induction K as [|x K IH]; intros Lq f EK Hne Hf; [done|]. destruct f as [|f]; [cbn in Hf; lia|]. cbn [free_search first].
  unfold h_ptr. apply wp_bind, wp_gets. change (peek32 ?a (hmem h)) with (ptr_at (hmem h) a).
  pose proof (ho_chain _ _ _ Hok) as Hc. rewrite EL, EK in Hc. apply chained_app in Hc as [_ [_ Hc]]. apply chained_app in Hc as [_ [Hc _]]. rewrite Hc.
  assert (bp < x.1) as Hx by (apply Hgt; rewrite EK; set_solver). rewrite (proj2 (Z.ltb_ge x.1 bp)) by lia. cbn [andb orb].
  assert (base < bp) as Hb by (assert (base <= y.1) by (eapply free_base; [exact Hok|rewrite EL; set_solver]); lia).
  destruct K as [|z K]; cbn [first length] in *.
  - rewrite (proj2 (Z.leb_le base x.1)), (proj2 (Z.ltb_ge bp base)) by lia. cbn [andb].
    destruct (ho_base _ _ _ Hok) as [L' EB]. replace base with (first (Lp ++ y :: L2) base) at 1.
    + apply (search_up Lp []); [done|lia].
    + rewrite <- EL, EB. done.
  - assert (x.1 < z.1) as Hz.
    { pose proof (ho_sorted _ _ _ Hok) as Hs. rewrite EL, EK in Hs. eapply (sorted_app_lt (Lp ++ y :: Lq ++ [x]) (z :: K)); [|set_solver|set_solver].
      rewrite <- !app_assoc. cbn. by rewrite <- !app_assoc. }
    rewrite (proj2 (Z.leb_gt z.1 x.1)) by lia. cbn [andb]. apply (IH (Lq ++ [x])); [by rewrite <- app_assoc|done|lia].
Qed.

End search.

Lemma free_split (l : list ublock) bp :
  StronglySorted (fun x y => x.1 < y.1) l -> (forall x, x ∈ l -> x.1 <> bp) -> (exists x, x ∈ l /\ x.1 < bp) ->
  exists l1 y l2, l = l1 ++ y :: l2 /\ y.1 < bp /\ forall z, z ∈ l2 -> bp < z.1.
Proof.
  induction l as [|x l IH]; intros Hs Hne [z [Hz Hlt]]; [set_solver|]. apply StronglySorted_inv in Hs as [Hs Hx]. rewrite Forall_forall in Hx.
  destruct (decide (Exists (fun w => w.1 < bp) l)) as [He|He].
  - apply Exists_exists in He. destruct IH as (l1 & y & l2 & -> & Hy & Hgt); [done|set_solver|done|]. by exists (x :: l1), y, l2.
  - exists [], x, l. split; [done|]. split.
    + apply elem_of_cons in Hz as [->|Hz]; [done|]. exfalso. apply He, Exists_exists. by exists z.
    + intros w Hw. assert (~ w.1 < bp) by (intros Hlt'; apply He, Exists_exists; by exists w). pose proof (Hne w ltac:(set_solver)). lia.
Qed.

Lemma free_search_wp L A h b :
  heap_ok L A h -> b ∈ A ->
  exists Lp y L2, L = Lp ++ y :: L2 /\ y.1 < b.1 /\ (forall z, z ∈ L2 -> b.1 < z.1) /\
    wp (free_search (heap_fuel h) (freep h) b.1) (fun r s => r = y.1 /\ s = h) h.
Proof.
  intros Hok Hb. destruct (ho_base _ _ _ Hok) as [L' EB]. pose proof (ho_apart _ _ _ Hok) as Ha. apply separate_app in Ha as (_ & _ & Ha).
  assert (forall x, x ∈ L -> x.1 <> b.1) as Hne by (intros x Hx; pose proof (apart_headers _ _ (Ha x b Hx Hb)); lia).
  destruct (free_split L b.1) as (Lp & y & L2 & EL & Hy & Hgt); [by eapply ho_sorted|done| |].
  { exists (base, 0). split; [rewrite EB; set_solver|]. pose proof (Hne (base, 0) ltac:(rewrite EB; set_solver)).
    pose proof (ho_low _ _ _ Hok b ltac:(set_solver)). cbn in *. lia. }
  exists Lp, y, L2. split; [done|]. split; [done|]. split; [done|].
  pose proof (free_fuel _ _ _ Hok) as Hf. rewrite EL, length_app in Hf. cbn in Hf.
  pose proof (ho_freep _ _ _ Hok) as Hp. apply list_elem_of_fmap in Hp as (x & -> & Hx).
  rewrite EL in Hx. apply elem_of_app in Hx as [Hx|Hx]; [|apply elem_of_cons in Hx as [->|Hx]].
  - apply list_elem_of_split in Hx as (K1 & K2 & EK). pose proof (search_up L A h b.1 Lp y L2 Hok EL Hy Hgt (x :: K2) K1 (heap_fuel h) EK) as H.
    apply H. rewrite EK, length_app in Hf. cbn in *. lia.
  - apply (search_up L A h b.1 Lp y L2 Hok EL Hy Hgt [] Lp); [by rewrite app_nil_r|cbn; lia].
  - apply list_elem_of_split in Hx as (K1 & K2 & EK). apply (search_wrap L A h b.1 Lp y L2 Hok EL Hy Hgt (x :: K2) K1 (heap_fuel h) EK); [done|].
    rewrite EK, length_app in Hf. cbn in *. lia.
Qed.

(** ** Where the blocks are *)

Record blocks_ok (L A : list ublock) (top : Z) : Prop := {
  bo_base : exists L', L = (base, 0) :: L';
  bo_sorted : StronglySorted (fun x y => x.1 < y.1) L;
  bo_range : forall x, x ∈ L ++ A -> x = (base, 0) \/ 1 <= x.2 /\ uend x <= top;
  bo_low : forall x, x ∈ L ++ A -> base <= x.1;
  bo_apart : separate (L ++ A)
}.

Lemma heap_blocks L A h : heap_ok L A h -> blocks_ok L A (brk h).
Proof. intros []. by split. Qed.

(** A block given out is not the list's first element. *)
Lemma given_real L A top b : blocks_ok L A top -> b ∈ A -> 1 <= b.2 /\ uend b <= top /\ base + 8 <= b.1.
Proof.
  intros [[L' EL] _ R Lo S] Hb. apply separate_app in S as (_ & _ & S). specialize (S (base, 0) b ltac:(rewrite EL; set_solver) Hb).
  specialize (Lo b ltac:(set_solver)). destruct S as [S|S]; unfold uend in S; cbn in S; [|lia].
  destruct (R b ltac:(set_solver)) as [-> | R']; cbn in *; [lia|]. by destruct R'.
Qed.

(** A block given out comes back between [y] and [L2]. *)
Lemma blocks_insert Lp y L2 A A' top b :
  blocks_ok (Lp ++ y :: L2) A top -> A ≡ₚ b :: A' -> y.1 < b.1 -> (forall z, z ∈ L2 -> b.1 < z.1) -> blocks_ok (Lp ++ y :: b :: L2) A' top.
Proof.
  intros H HA Hy Hgt. assert (Lp ++ y :: b :: L2 ++ A' ≡ₚ Lp ++ y :: L2 ++ A) as HP by (rewrite HA; solve_Permutation).
  destruct H as [[L' EL] So R Lo S]. split.
  - destruct Lp as [|w Lp]; cbn in *; injection EL as -> <-; by eexists.
  - apply StronglySorted_app in So as (So1 & So2 & So3). apply StronglySorted_inv in So3 as [So3 So4]. rewrite Forall_forall in So4.
    apply StronglySorted_app_2; [|done|].
    + intros v w Hv Hw. pose proof (So1 v y Hv ltac:(set_solver)). apply elem_of_cons in Hw as [->|Hw]; [done|].
      apply elem_of_cons in Hw as [->|Hw]; [lia|]. apply So1; set_solver.
    + repeat apply SSorted_cons; [done|by apply Forall_forall|]. apply Forall_cons. split; [done|by apply Forall_forall].
  - intros x Hx. apply R. rewrite <- app_assoc in *. cbn [app] in *. by rewrite <- HP.
  - intros x Hx. apply Lo. rewrite <- app_assoc in *. cbn [app] in *. by rewrite <- HP.
  - rewrite <- app_assoc in *. cbn [app] in *. by rewrite HP.
Qed.

(** Neighbours are merged. *)
Lemma blocks_merge l1 x z l2 A top :
  blocks_ok (l1 ++ x :: z :: l2) A top -> uend x = z.1 -> x.1 <> base -> blocks_ok (l1 ++ (x.1, x.2 + z.2) :: l2) A top.
Proof.
  intros [[L' EL] So R Lo S] He Hx. set (y := (x.1, x.2 + z.2)). rewrite <- app_assoc in *. cbn [app] in *.
  assert (1 <= x.2 /\ 1 <= z.2 /\ uend z <= top) as (H1 & H2 & H3).
  { destruct (R x ltac:(set_solver)) as [-> | [R1 R2]]; [done|]. destruct (R z ltac:(set_solver)) as [-> | [R3 R4]]; [|done].
    pose proof (Lo x ltac:(set_solver)). unfold uend in *. cbn in *. lia. }
  assert (uend y = uend z) as Ey by (unfold uend in *; cbn; lia).
  assert (forall w, w ∈ l1 ++ y :: l2 ++ A -> w = y \/ w ∈ l1 ++ x :: z :: l2 ++ A) as Hin by set_solver.
  split.
  - destruct l1 as [|w l1]; cbn in *; injection EL as -> <-; [done|]. by eexists.
  - apply StronglySorted_app in So as (So1 & So2 & So3). apply StronglySorted_inv in So3 as [So3 So4]. apply StronglySorted_inv in So3 as [So3 So5].
    rewrite Forall_forall in So4, So5. apply StronglySorted_app_2; [|done|].
    + intros v w Hv [->|Hw]%elem_of_cons; [apply (So1 v x Hv); set_solver|apply So1; set_solver].
    + apply SSorted_cons; [done|]. apply Forall_forall. intros w Hw. apply (So4 w). set_solver.
  - rewrite <- app_assoc. cbn [app]. intros w [->|Hw]%Hin; [right; cbn; lia|by apply R].
  - rewrite <- app_assoc. cbn [app]. intros w [->|Hw]%Hin; [apply (Lo x); set_solver|by apply Lo].
  - rewrite <- app_assoc. cbn [app]. apply separate_app in S as (S1 & [S2 [S3 S4]] & S5). rewrite Forall_forall in S2, S3.
    assert (forall w, apart x w -> apart z w -> apart y w) as Hyw.
    { intros w Hx1 Hz1. pose proof (Lo x ltac:(set_solver)). unfold apart, uend in *. cbn in *. lia. }
    apply separate_app. split; [done|]. split; [split; [|done]|].
    + apply Forall_forall. intros w Hw. apply Hyw; [apply S2; set_solver|by apply S3].
    + intros v w Hv [->|Hw]%elem_of_cons; [|apply S5; set_solver]. apply apart_sym, Hyw; apply apart_sym; apply S5; set_solver.
Qed.

Lemma headers_only_poke ps p o v m : p ∈ ps -> 0 <= p -> p + 8 < 2 ^ 32 -> 0 <= o <= 4 -> headers_only ps m (poke32 (p + o) v m).
Proof. intros Hp H0 H1 Ho x Hx. rewrite poke32_at by lia. rewrite decide_False; [done|]. specialize (Hx p Hp). lia. Qed.

Lemma fields_poke p v m : 0 <= p -> p + 8 < 2 ^ 32 -> 0 <= v < 2 ^ 32 ->
  ptr_at (poke32 p v m) p = v /\ size_at (poke32 (p + 4) v m) p = v /\
  size_at (poke32 p v m) p = size_at m p /\ ptr_at (poke32 (p + 4) v m) p = ptr_at m p.
Proof.
  intros H0 H1 Hv. unfold ptr_at, size_at. rewrite !peek32_poke32, u32_small by lia. split_and!; try done.
  - apply peek32_ext; [lia|lia|]. intros x Hx. rewrite poke32_at, decide_False by lia. done.
  - apply peek32_ext; [lia|lia|]. intros x Hx. rewrite poke32_at, decide_False by lia. done.
Qed.

Lemma poke_header p v m : 0 <= p -> p + 8 < 2 ^ 32 -> headers_only [p] m (poke32 p v m) /\ headers_only [p] m (poke32 (p + 4) v m).
Proof.
  intros H0 H1. split; [rewrite <- (Z.add_0_r p) at 2|]; apply headers_only_poke; lia || set_solver.
Qed.

Lemma first_range L A h l : heap_ok L A h -> l ⊆ L -> 0 <= first l base < 2 ^ 31.
Proof.
  intros Hok Hl. pose proof (ho_pos _ _ _ Hok). destruct l as [|x l]; cbn; [lia|].
  assert (x ∈ L) as Hx by (apply Hl; set_solver). pose proof (ho_bounds _ _ _ x Hok ltac:(set_solver)). lia.
Qed.

(** The bytes of the blocks [A] are unchanged. *)
Definition keeps (A : list ublock) (m m' : bmem) : Prop := forall y a, y ∈ A -> y.1 <= a < uend y -> m' a = m a.

Section freeing.
Context (L A A' : list ublock) (h : uheap) (b : ublock) (Lp : list ublock) (y : ublock) (L2 : list ublock).
Hypotheses (Hok : heap_ok L A h) (EL : L = Lp ++ y :: L2) (HA : A ≡ₚ b :: A') (Hy : y.1 < b.1) (Hgt : forall z, z ∈ L2 -> b.1 < z.1).

Lemma freeing_blocks : blocks_ok (Lp ++ y :: b :: L2) A' (brk h).
Proof. eapply blocks_insert; [|exact HA|done|done]. rewrite <- EL. by apply heap_blocks. Qed.

Lemma freeing_b : b ∈ A.
Proof. rewrite HA. set_solver. Qed.

Lemma freeing_range : base + 8 <= b.1 /\ 1 <= b.2 /\ b.1 + 8 * b.2 <= brk h <= 2 ^ 31 /\ 0 < base.
Proof.
  destruct (given_real _ _ _ b (heap_blocks _ _ _ Hok) freeing_b) as (? & ? & ?). pose proof (ho_pos _ _ _ Hok). unfold uend in *. lia.
Qed.

Lemma freeing_apart w : w ∈ L -> w.1 + 8 <= b.1 \/ b.1 + 8 <= w.1.
Proof.
  intros Hw. apply apart_headers. pose proof (ho_apart _ _ _ Hok) as Ha. apply separate_app in Ha as (_ & _ & Ha). apply Ha; [done|apply freeing_b].
Qed.

Lemma freeing_fields m1 w : headers_only [b.1] (hmem h) m1 -> w ∈ L -> ptr_at m1 w.1 = ptr_at (hmem h) w.1 /\ size_at m1 w.1 = w.2.
Proof.
  intros H1 Hw. rewrite <- (ho_size _ _ _ Hok w) by set_solver. eapply kept_fields; [exact Hok|set_solver|exact H1|].
  intros q ->%list_elem_of_singleton. destruct (freeing_apart w Hw); lia.
Qed.

(** The block is merged with the one after it, or linked to it. *)
Lemma merge_next_wp (R : unit -> uheap -> Prop) :
  (forall c L2' m1, c.1 = b.1 -> b.2 <= c.2 -> units (c :: L2') = b.2 + units L2 -> blocks_ok (Lp ++ y :: c :: L2') A' (brk h) ->
     headers_only [b.1] (hmem h) m1 -> ptr_at m1 b.1 = first L2' base -> size_at m1 b.1 = c.2 -> L2' ⊆ L2 -> (length L2' <= length L2)%nat -> chained (hmem h) L2' base ->
     R tt (set_hmem m1 h)) ->
  wp (if hadd b.1 b.2 =? first L2 base then
        let* nsize := h_size (first L2 base) in
        h_set_size b.1 (u32 (b.2 + nsize)) ;;;
        let* next := h_ptr y.1 in
        let* nnext := h_ptr next in
        h_set_ptr b.1 nnext
      else h_set_ptr b.1 (first L2 base)) R h.
Proof.
  intros HR. pose proof freeing_range as (B1 & B2 & B3 & B4). pose proof freeing_blocks as Hbl. pose proof freeing_fields as Hfld.
  pose proof (ho_chain _ _ _ Hok) as Hc. rewrite EL in Hc. apply chained_app in Hc as [_ [Hcy Hc2]].
  pose proof (first_range _ _ _ L2 Hok ltac:(rewrite EL; set_solver)) as Hr2. pose proof (ho_size _ _ _ Hok b ltac:(rewrite HA; set_solver)) as Hbs.
  unfold hadd, h_size, h_ptr, h_set_size, h_set_ptr. rewrite padd_small by lia. rewrite (padd_small b.1 4) by lia.
  destruct (Z.eqb_spec (b.1 + 8 * b.2) (first L2 base)) as [E|E].
  - destruct L2 as [|z L3]; cbn [first] in *; [lia|]. destruct Hc2 as [Hcz Hc3].
    assert (z ∈ L /\ y ∈ L) as [Hz Hyin] by (rewrite EL; set_solver). pose proof (ho_bounds _ _ _ z Hok ltac:(set_solver)) as (Z1 & Z2 & Z3 & Z4).
    pose proof (first_range _ _ _ L3 Hok ltac:(rewrite EL; set_solver)) as Hr3.
    assert (z.2 < 2 ^ 28) as Z5 by (unfold uend in Z2; lia).
    apply wp_bind, wp_gets. rewrite (padd_small z.1) by lia. change (peek32 (z.1 + 4) ?m) with (size_at m z.1). rewrite (ho_size _ _ _ Hok z) by set_solver.
    rewrite u32_small by lia. apply wp_bind, wp_modify. set (m1 := poke32 _ _ _).
    destruct (poke_header b.1 (b.2 + z.2) (hmem h)) as [_ H1]; [lia|lia|]. fold m1 in H1.
    apply wp_bind, wp_gets. cbn [hmem set_hmem]. change (peek32 ?a m1) with (ptr_at m1 a). rewrite (proj1 (Hfld m1 y H1 Hyin)), Hcy.
    apply wp_bind, wp_gets. cbn [hmem set_hmem]. change (peek32 ?a m1) with (ptr_at m1 a). rewrite (proj1 (Hfld m1 z H1 Hz)), Hcz.
    apply wp_modify. cbn [hmem set_hmem]. set (m2 := poke32 b.1 _ m1).
    destruct (poke_header b.1 (first L3 base) m1) as [H2 _]; [lia|lia|].
    destruct (fields_poke b.1 (first L3 base) m1) as (F1 & _ & F3 & _); [lia|lia|lia|].
    destruct (fields_poke b.1 (b.2 + z.2) (hmem h)) as (_ & F5 & _ & _); [lia|lia|lia|].
    apply (HR (b.1, b.2 + z.2) L3 m2); cbn; try done; try lia.
    + pose proof (blocks_merge (Lp ++ [y]) b z L3 A' (brk h)) as Hmg. rewrite <- !app_assoc in Hmg. apply Hmg; [done|unfold uend; lia|lia].
    + by eapply headers_only_trans.
    + unfold m2. by rewrite F3.
    + set_solver.
  - apply wp_modify. set (m1 := poke32 b.1 _ _). destruct (poke_header b.1 (first L2 base) (hmem h)) as [H1 _]; [lia|lia|].
    destruct (fields_poke b.1 (first L2 base) (hmem h)) as (F1 & _ & F3 & _); [lia|lia|lia|].
    apply (HR b L2 m1); cbn; try done; try lia. unfold m1. by rewrite F3.
Qed.

(** What the rest of [free] starts from. *)
Section prev.
Context (c : ublock) (L2' : list ublock) (m1 : bmem).
Hypotheses (Hc1 : c.1 = b.1) (Hc2 : b.2 <= c.2) (Hbl : blocks_ok (Lp ++ y :: c :: L2') A' (brk h)) (Hm1 : headers_only [b.1] (hmem h) m1).
Hypotheses (Hp1 : ptr_at m1 b.1 = first L2' base) (Hs1 : size_at m1 b.1 = c.2) (Hsub : L2' ⊆ L2) (Hch : chained (hmem h) L2' base).

(** Fields of the blocks that stay, after the headers at [b] and [y] changed. *)
Lemma stay_fields m2 w :
  headers_only [y.1] m1 m2 -> w ∈ Lp ++ L2' ++ A' -> ptr_at m2 w.1 = ptr_at (hmem h) w.1 /\ size_at m2 w.1 = w.2.
Proof.
  intros H2 Hw. assert (w ∈ L ++ A) as Hin by (rewrite EL, HA; set_solver). rewrite <- (ho_size _ _ _ Hok w Hin).
  assert (headers_only [b.1; y.1] (hmem h) m2) as H.
  { eapply headers_only_trans; (eapply headers_only_mono; [eassumption|set_solver]). }
  eapply kept_fields; [exact Hok|exact Hin|exact H|]. pose proof (bo_apart _ _ _ Hbl) as Ha. rewrite <- app_assoc in Ha. cbn [app] in Ha.
  apply separate_app in Ha as (_ & [Hay [Hac _]] & Ha). rewrite Forall_forall in Hay, Hac.
  assert (apart y w /\ apart c w) as [H3 H4].
  { apply elem_of_app in Hw as [Hw|Hw]; [split; apply apart_sym, Ha; set_solver|]. split; [apply Hay; set_solver|by apply Hac]. }
  apply apart_headers in H3, H4. intros q [->|[->|[]%elem_of_nil]%elem_of_cons]%elem_of_cons; lia.
Qed.

Lemma freeing_keeps m2 : headers_only [y.1] m1 m2 -> keeps A' (hmem h) m2.
Proof.
  intros H2 w a Hw Ha. pose proof (bo_apart _ _ _ Hbl) as Hs. rewrite <- app_assoc in Hs. cbn [app] in Hs.
  apply separate_app in Hs as (_ & [Hay [Hac _]] & _). rewrite Forall_forall in Hay, Hac.
  pose proof (Hay w ltac:(set_solver)) as H3. pose proof (Hac w ltac:(set_solver)) as H4. unfold apart in H3, H4.
  assert (y.1 + 8 <= uend y /\ c.1 + 8 <= uend c) as [U1 U2] by (unfold uend; lia).
  rewrite H2, Hm1; [done|intros q ->%list_elem_of_singleton; lia..].
Qed.

Lemma freed_ok m2 x L3 :
  headers_only [y.1] m1 m2 -> blocks_ok (Lp ++ x :: L3) A' (brk h) -> x.1 = y.1 -> ptr_at m2 y.1 = first L3 base -> size_at m2 y.1 = x.2 ->
  chained m2 L3 base -> (forall w, w ∈ L3 -> size_at m2 w.1 = w.2) ->
  heap_ok (Lp ++ x :: L3) A' (MkUH m2 (brk h) y.1).
Proof.
  intros H2 Hb' Hx Hp Hs Hch3 Hs3. destruct Hb' as [B1 B2 B3 B4 B5]. split; cbn; try done.
  - apply Hok.
  - apply chained_app. cbn. rewrite Hx. split; [|done]. pose proof (ho_chain _ _ _ Hok) as Hc. rewrite EL in Hc. apply chained_app in Hc as [Hc _].
    eapply chained_ext; [|exact Hc]. intros w Hw. apply stay_fields; [done|set_solver].
  - intros w Hw. rewrite <- app_assoc in Hw. apply elem_of_app in Hw as [Hw|Hw]; [apply stay_fields; [done|set_solver]|].
    apply elem_of_cons in Hw as [->|Hw]; [by rewrite Hx|]. apply elem_of_app in Hw as [Hw|Hw]; [by apply Hs3|]. apply stay_fields; [done|set_solver].
  - rewrite fmap_app, fmap_cons, Hx. set_solver.
Qed.

Lemma merge_prev_wp (R : unit -> uheap -> Prop) :
  (forall L' m2, heap_ok L' A' (MkUH m2 (brk h) y.1) -> units L' = units Lp + y.2 + units (c :: L2') -> (exists x, x ∈ L' /\ b.2 <= x.2) ->
     (length L' <= S (length Lp + S (length L2')))%nat -> keeps A' (hmem h) m2 -> R tt (MkUH m2 (brk h) y.1)) ->
  wp (let* psize := h_size y.1 in
      (if hadd y.1 psize =? b.1 then
         let* bsize := h_size b.1 in
         h_set_size y.1 (u32 (psize + bsize)) ;;;
         let* bnext := h_ptr b.1 in
         h_set_ptr y.1 bnext
       else h_set_ptr y.1 b.1) ;;;
      modify (set_freep y.1)) R (set_hmem m1 h).
Proof.
  intros HR. pose proof freeing_range as (B1 & B2 & B3 & B4). assert (y ∈ L) as Hyin by (rewrite EL; set_solver).
  pose proof (ho_bounds _ _ _ y Hok ltac:(set_solver)) as (Y1 & Y2 & Y3 & Y4). unfold uend in Y2, Y3.
  pose proof (first_range _ _ _ L2' Hok ltac:(rewrite EL; set_solver)) as Hr2.
  assert (1 <= c.2 /\ uend c <= brk h) as [C1 C2].
  { split; [lia|]. destruct (bo_range _ _ _ Hbl c ltac:(set_solver)) as [-> | [_ ?]]; [cbn in Hc1; lia|done]. }
  unfold uend in C2. rewrite Hc1 in C2.
  unfold h_size, h_ptr, h_set_size, h_set_ptr. apply wp_bind, wp_gets. cbn [hmem set_hmem]. rewrite !(padd_small y.1 4) by lia. rewrite !(padd_small b.1 4) by lia.
  change (peek32 (y.1 + 4) m1) with (size_at m1 y.1). rewrite (proj2 (freeing_fields m1 y Hm1 Hyin)). unfold hadd. rewrite padd_small by lia.
  destruct (Z.eqb_spec (y.1 + 8 * y.2) b.1) as [E|E].
  - apply wp_bind, wp_bind, wp_gets. cbn [hmem set_hmem]. change (peek32 (b.1 + 4) m1) with (size_at m1 b.1). rewrite Hs1, u32_small by lia.
    apply wp_bind, wp_modify. cbn [hmem set_hmem]. set (m2 := poke32 _ _ _). destruct (poke_header y.1 (y.2 + c.2) m1) as [_ H2]; [lia|lia|]. fold m2 in H2.
    apply wp_bind, wp_gets. cbn [hmem set_hmem]. change (peek32 b.1 m2) with (ptr_at m2 b.1).
    assert (ptr_at m2 b.1 = first L2' base) as ->.
    { rewrite <- Hp1. unfold ptr_at. apply peek32_ext; [lia|lia|]. intros a Ha. apply H2. intros q ->%list_elem_of_singleton. lia. }
    apply wp_modify. cbn [hmem set_hmem]. set (m3 := poke32 y.1 _ m2). destruct (poke_header y.1 (first L2' base) m2) as [H3 _]; [lia|lia|].
    destruct (fields_poke y.1 (first L2' base) m2) as (F1 & _ & F3 & _); [lia|lia|lia|].
    destruct (fields_poke y.1 (y.2 + c.2) m1) as (_ & F5 & _ & _); [lia|lia|lia|]. fold m2 in F5. fold m3 in F1, F3, H3.
    apply wp_modify. cbn [hmem set_hmem set_freep]. pose proof (headers_only_trans _ _ _ _ H2 H3) as H13.
    assert (y.1 <> base) as Hyb by (intros Hyb; rewrite (free_head _ _ _ y Hok Hyin Hyb) in E; cbn in E; lia).
    apply (HR (Lp ++ (y.1, y.2 + c.2) :: L2') m3).
    + apply freed_ok; try done; [|by rewrite F3| |].
      * apply blocks_merge; [done|unfold uend; lia|done].
      * eapply chained_ext; [|exact Hch]. intros w Hw. apply stay_fields; [done|set_solver].
      * intros w Hw. apply stay_fields; [done|set_solver].
    + rewrite units_app. cbn. lia.
    + exists (y.1, y.2 + c.2). split; [set_solver|cbn; lia].
    + rewrite length_app. cbn. lia.
    + by apply freeing_keeps.
  - apply wp_bind, wp_modify, wp_modify. cbn [hmem set_hmem set_freep brk]. set (m2 := poke32 y.1 b.1 m1).
    destruct (poke_header y.1 b.1 m1) as [H2 _]; [lia|lia|]. destruct (fields_poke y.1 b.1 m1) as (F1 & _ & F3 & _); [lia|lia|lia|]. fold m2 in H2, F1, F3.
    assert (ptr_at m2 b.1 = first L2' base /\ size_at m2 b.1 = c.2) as [G1 G2].
    { rewrite <- Hp1, <- Hs1. unfold ptr_at, size_at. destruct (freeing_apart y Hyin); (split; (apply peek32_ext; [lia|lia|]; intros a Ha; apply H2; intros q ->%list_elem_of_singleton; lia)). }
    apply (HR (Lp ++ y :: c :: L2') m2).
    + apply freed_ok; try done.
      * by rewrite F1.
      * rewrite F3. apply freeing_fields; done.
      * cbn. rewrite Hc1. split; [done|]. eapply chained_ext; [|exact Hch]. intros w Hw. apply stay_fields; [done|set_solver].
      * intros w [->|Hw]%elem_of_cons; [by rewrite Hc1|]. apply stay_fields; [done|set_solver].
    + rewrite units_app. cbn. lia.
    + exists c. split; [set_solver|done].
    + rewrite length_app. cbn. lia.
    + by apply freeing_keeps.
Qed.

End prev.

End freeing.

Lemma free_wp L A A' h b (R : unit -> uheap -> Prop) :
  heap_ok L A h -> A ≡ₚ b :: A' ->
  (forall L' m' f, heap_ok L' A' (MkUH m' (brk h) f) -> units L' = units L + b.2 -> (exists x, x ∈ L' /\ b.2 <= x.2) ->
     (length L' <= S (length L))%nat -> keeps A' (hmem h) m' -> R tt (MkUH m' (brk h) f)) ->
  wp (free (b.1 + 8)) R h.
Proof.
  intros Hok HA HR. destruct (free_search_wp L A h b Hok ltac:(rewrite HA; set_solver)) as (Lp & y & L2 & EL & Hy & Hgt & Hs).
  pose proof (freeing_range L A A' h b Lp y L2 Hok EL HA Hy Hgt) as (B1 & B2 & B3 & B4).
  assert (hadd (b.1 + 8) (-1) = b.1) as Eb by (unfold hadd; rewrite padd_small by lia; lia). unfold free. rewrite Eb. cbv zeta.
  apply wp_bind, wp_gets, wp_bind, wp_gets, wp_bind. eapply wp_mono; [exact Hs|]. intros p s [-> ->].
  unfold h_size at 1. apply wp_bind, wp_gets. rewrite (padd_small b.1 4) by lia. change (peek32 (b.1 + 4) ?m) with (size_at m b.1).
  rewrite (ho_size _ _ _ Hok b) by (rewrite HA; set_solver). unfold h_ptr at 1. apply wp_bind, wp_gets. change (peek32 y.1 ?m) with (ptr_at m y.1).
  pose proof (ho_chain _ _ _ Hok) as Hc. rewrite EL in Hc. apply chained_app in Hc as [_ [Hcy _]]. rewrite Hcy.
  apply wp_bind. eapply merge_next_wp; [exact Hok|exact EL|exact HA|exact Hy|exact Hgt|].
  intros c L2' m1 Hc1 Hc2 Hu Hbl Hm1 Hp1 Hs1 Hsub Hlen Hch.
  apply (merge_prev_wp L A A' h b Lp y L2 Hok EL HA Hy Hgt c L2' m1 Hc1 Hc2 Hbl Hm1 Hp1 Hs1 Hsub Hch).
  intros L' m2 Hok' Hu' Hx Hl Hk. eapply HR; [done| |done| |done].
  - rewrite EL, Hu', Hu, units_app. cbn. lia.
  - rewrite EL, length_app. cbn. lia.
Qed.

End heap.
