(* ===== verification/UmallocOps.v ===== *)
(** * Giving out memory

    [malloc] returns a block as large as asked for, or 0 when the kernel refuses more
    memory; it ends after at most two rounds of the free list. *)

From stdpp Require Import sorting.
From S2P Require Import Prelude Strings Monad Umalloc UmallocInv.

Section ops.
Context {SB : Sbrk} (base : Z).
Abbreviation heap_ok := (heap_ok base).
Abbreviation blocks_ok := (blocks_ok base).

(** Membership in appended lists, from the hypotheses that are memberships. *)
Ltac elem :=
  repeat match goal with
  | H : context [_ ∈ _ ++ _] |- _ => rewrite elem_of_app in H
  | H : context [_ ∈ _ :: _] |- _ => rewrite elem_of_cons in H
  end;
  repeat first [rewrite elem_of_app | rewrite elem_of_cons];
  repeat match goal with H : ?T |- _ => lazymatch T with context[_ ∈ _] => fail | _ => lazymatch type of T with Prop => clear H | _ => fail end end end; tauto.

(** The element before [x] in the list is the one that points to it. *)
Lemma pred_split L A h v x :
  heap_ok L A h -> v ∈ L -> x ∈ L -> x.1 <> base -> ptr_at (hmem h) v.1 = x.1 -> exists La Lb, L = La ++ v :: x :: Lb.
Proof.
  intros Hok Hv Hx Hb Hp. apply list_elem_of_split in Hv as (La & Lc & E). pose proof (ho_chain _ _ _ _ Hok) as Hc. rewrite E in Hc.
  apply chained_app in Hc as [_ [Hc _]]. rewrite Hp in Hc. destruct Lc as [|z Lb]; cbn in Hc; [done|].
  exists La, Lb. replace x with z; [done|]. assert (z ∈ L) as Hz by (rewrite E; elem).
  by apply (sorted_inj L); [eapply ho_sorted|..].
Qed.

(** ** Taking a block *)

Section take.
Context (L A : list ublock) (h : uheap) (La : list ublock) (v x : ublock) (Lb : list ublock) (n : Z).
Hypotheses (Hok : heap_ok L A h) (EL : L = La ++ v :: x :: Lb) (Hn : 1 <= n <= x.2).

Lemma take_x : x ∈ L /\ v ∈ L /\ v.1 < x.1 /\ x.1 <> base /\ uend x <= brk h <= 2 ^ 31 /\ uend x = x.1 + 8 * x.2 /\ v.1 + 8 <= x.1 /\ 0 < v.1.
Proof.
  assert (x ∈ L /\ v ∈ L) as [Hx Hv] by (rewrite EL; elem). pose proof (ho_pos _ _ _ _ Hok) as (P1 & P2 & P3).
  assert (v.1 < x.1) as Hvx.
  { pose proof (ho_sorted _ _ _ _ Hok) as Hs. rewrite EL in Hs. apply (sorted_app_lt (La ++ [v]) (x :: Lb)); [by rewrite <- app_assoc|elem|elem]. }
  assert (x.1 <> base) as Hxb by (intros E; pose proof (free_base _ _ _ _ v Hok Hv); lia).
  destruct (ho_range _ _ _ _ Hok x ltac:(elem)) as [E|[R1 R2]]; [by rewrite E in Hxb|].
  pose proof (ho_bounds _ _ _ _ v Hok ltac:(elem)). pose proof (ho_apart _ _ _ _ Hok) as Ha. apply separate_app in Ha as [Ha _].
  rewrite EL in Ha. apply separate_app in Ha as (_ & [Ha _] & _). apply Forall_cons in Ha as [Ha _]. apply apart_headers in Ha.
  unfold uend in *. split_and!; done || lia.
Qed.

(** The whole block leaves the list. *)
Lemma take_all_blocks : x.2 = n -> blocks_ok (La ++ v :: Lb) ((x.1, n) :: A) (brk h).
Proof.
  intros En. pose proof take_x as (Hx & Hv & Hvx & Hxb & _). replace (x.1, n) with x by (destruct x; cbn in *; by subst).
  assert ((La ++ v :: Lb) ++ x :: A ≡ₚ L ++ A) as HP by (rewrite EL, <- !app_assoc; cbn; solve_Permutation).
  destruct (ho_base _ _ _ _ Hok) as [L' EB]. split.
  - rewrite EB in EL. destruct La as [|w La']; cbn in *; injection EL as -> ->; by eexists.
  - pose proof (ho_sorted _ _ _ _ Hok) as Hs. rewrite EL in Hs. apply StronglySorted_app in Hs as (S1 & S2 & S3).
    apply StronglySorted_inv in S3 as [S3 S4]. apply StronglySorted_inv in S3 as [S3 S5]. apply StronglySorted_app_2; [|done|].
    + intros a b Ha Hb. apply S1; elem.
    + apply SSorted_cons; [done|]. rewrite Forall_forall in *. set_solver.
  - intros y. rewrite HP. apply (ho_range _ _ _ _ Hok).
  - intros y. rewrite HP. apply (ho_low _ _ _ _ Hok).
  - rewrite HP. apply (ho_apart _ _ _ _ Hok).
Qed.

Abbreviation a := (x.1 + 8 * (x.2 - n)).
Abbreviation x' := (x.1, x.2 - n).

(** The end of the block is given out. *)
Lemma take_end_blocks : n < x.2 -> blocks_ok (La ++ v :: x' :: Lb) ((a, n) :: A) (brk h).
Proof.
  intros Hlt. pose proof take_x as (Hx & Hv & Hvx & Hxb & Hu1 & Hu2 & Hv8 & Hv0).
  assert (uend x' = a /\ uend (a, n) = uend x) as [U1 U2] by (unfold uend; cbn; lia).
  assert ((La ++ v :: x' :: Lb) ++ (a, n) :: A ≡ₚ x' :: (a, n) :: La ++ v :: Lb ++ A) as HP by (rewrite <- !app_assoc; cbn; solve_Permutation).
  assert (L ++ A ≡ₚ x :: La ++ v :: Lb ++ A) as HP0 by (rewrite EL, <- !app_assoc; cbn; solve_Permutation).
  destruct (ho_base _ _ _ _ Hok) as [L' EB]. split.
  - rewrite EB in EL. destruct La as [|w La']; cbn in *; injection EL as -> ->; by eexists.
  - pose proof (ho_sorted _ _ _ _ Hok) as Hs. rewrite EL in Hs. apply StronglySorted_app in Hs as (S1 & S2 & S3).
    apply StronglySorted_inv in S3 as [S3 S4]. apply StronglySorted_inv in S3 as [S3 S5]. rewrite Forall_forall in S4, S5. apply StronglySorted_app_2; [|done|].
    + intros b c Hb Hc. apply elem_of_cons in Hc as [->|Hc]; [apply S1; elem|]. apply elem_of_cons in Hc as [->|Hc]; [apply (S1 b x); elem|apply S1; elem].
    + repeat apply SSorted_cons; [done|by apply Forall_forall|]. apply Forall_cons. split; [done|]. apply Forall_forall. set_solver.
  - intros y. rewrite HP. intros [->|[->|Hy]%elem_of_cons]%elem_of_cons; [right; cbn; lia|right; cbn; lia|]. apply (ho_range _ _ _ _ Hok). rewrite HP0. elem.
  - intros y. rewrite HP. pose proof (free_base _ _ _ _ x Hok Hx). intros [->|[->|Hy]%elem_of_cons]%elem_of_cons; [cbn; lia|cbn; lia|].
    apply (ho_low _ _ _ _ Hok). rewrite HP0. elem.
  - rewrite HP. pose proof (ho_apart _ _ _ _ Hok) as Ha. rewrite HP0 in Ha. destruct Ha as [Ha1 Ha2]. rewrite Forall_forall in Ha1.
    split; [apply Forall_cons; split; [left; cbn; lia|]|split; [|done]]; apply Forall_forall; intros y Hy; (eapply apart_within; [by apply Ha1|cbn; lia|lia]).
Qed.

Lemma take_all_ok :
  x.2 = n -> let m2 := poke32 v.1 (ptr_at (hmem h) x.1) (hmem h) in
  heap_ok (La ++ v :: Lb) ((x.1, n) :: A) (MkUH m2 (brk h) v.1) /\ keeps A (hmem h) m2.
Proof.
  intros En m2. pose proof take_x as (Hx & Hv & Hvx & Hxb & Hu1 & Hu2 & Hv8 & Hv0). pose proof take_all_blocks as Hbl.
  destruct (Hbl En) as [B1 B2 B3 B4 B5]. pose proof (ho_chain _ _ _ _ Hok) as Hc. rewrite EL in Hc. apply chained_app in Hc as [Hc1 (Hc2 & Hc3 & Hc4)].
  assert (0 <= first Lb base < 2 ^ 31) as Hr by (eapply first_range; [exact Hok|rewrite EL; set_solver]).
  destruct (poke_header v.1 (ptr_at (hmem h) x.1) (hmem h)) as [H1 _]; [lia|lia|]. fold m2 in H1.
  destruct (fields_poke v.1 (ptr_at (hmem h) x.1) (hmem h)) as (F1 & _ & F3 & _); [lia|lia|rewrite Hc3; lia|]. fold m2 in F1, F3.
  assert (forall w, w ∈ L ++ A -> w <> v -> ptr_at m2 w.1 = ptr_at (hmem h) w.1 /\ size_at m2 w.1 = w.2 /\ apart v w) as Hkw.
  { intros w Hw Hne. assert (apart v w) as Hvw by (eapply separate_elem; [exact (ho_apart _ _ _ _ Hok)|elem|done|done]).
    rewrite <- (ho_size _ _ _ _ Hok w Hw).
    destruct (kept_fields base [v.1] (hmem h) m2 L A h w) as [K1 K2]; [done|done|done| |done]. intros q ->%list_elem_of_singleton. apply apart_headers in Hvw. lia. }
  assert (forall w, w ∈ La ++ Lb -> w <> v) as Hnv.
  { intros w Hw ->. pose proof (ho_sorted _ _ _ _ Hok) as Hs. rewrite EL in Hs. apply elem_of_app in Hw as [Hw|Hw].
    - pose proof (sorted_app_lt _ _ v v Hs Hw ltac:(elem)). lia.
    - pose proof (sorted_app_lt (La ++ [v; x]) Lb v v ltac:(by rewrite <- app_assoc) ltac:(elem) Hw). lia. }
  split; [split; cbn; try done|].
  - apply Hok.
  - apply chained_app. split; [eapply chained_ext; [|exact Hc1]|split; [by rewrite F1, Hc3|eapply chained_ext; [|exact Hc4]]];
      intros w Hw; apply Hkw; [rewrite EL; elem|apply Hnv; elem|rewrite EL; elem|apply Hnv; elem].
  - intros w Hw. destruct (decide (w = v)) as [->|Hne]; [rewrite F3; apply (ho_size _ _ _ _ Hok); elem|].
    replace (x.1, n) with x in Hw by (destruct x; cbn in *; by subst). apply Hkw; [rewrite EL; elem|done].
  - rewrite fmap_app, fmap_cons. elem.
  - intros w b Hw Hb. apply H1. intros q ->%list_elem_of_singleton.
    pose proof (ho_apart _ _ _ _ Hok) as Ha. apply separate_app in Ha as (_ & _ & Ha). pose proof (Ha v w Hv Hw) as Hvw.
    unfold apart in Hvw. assert (v.1 + 8 <= uend v) by (unfold uend; lia). lia.
Qed.

Lemma take_end_ok :
  n < x.2 -> let m2 := poke32 (a + 4) n (poke32 (x.1 + 4) (x.2 - n) (hmem h)) in
  heap_ok (La ++ v :: x' :: Lb) ((a, n) :: A) (MkUH m2 (brk h) v.1) /\ keeps A (hmem h) m2 /\
  size_at (poke32 (x.1 + 4) (x.2 - n) (hmem h)) x.1 = x.2 - n.
Proof.
  intros Hlt m2. pose proof take_x as (Hx & Hv & Hvx & Hxb & Hu1 & Hu2 & Hv8 & Hv0). pose proof take_end_blocks as Hbl.
  destruct (Hbl Hlt) as [B1 B2 B3 B4 B5]. set (m1 := poke32 (x.1 + 4) (x.2 - n) (hmem h)) in *.
  destruct (poke_header x.1 (x.2 - n) (hmem h)) as [_ H1]; [lia|lia|]. destruct (fields_poke x.1 (x.2 - n) (hmem h)) as (_ & F1 & _ & F2); [lia|lia|lia|]. fold m1 in H1, F1, F2.
  destruct (poke_header a n m1) as [_ H2]; [lia|lia|]. destruct (fields_poke a n m1) as (_ & G1 & _ & _); [lia|lia|lia|]. fold m2 in H2, G1.
  assert (headers_only [x.1; a] (hmem h) m2) as Hm by (eapply headers_only_trans; (eapply headers_only_mono; [eassumption|set_solver])).
  assert (ptr_at m2 x.1 = ptr_at (hmem h) x.1 /\ size_at m2 x.1 = x.2 - n) as [X1 X2].
  { rewrite <- F1, <- F2. split; (apply peek32_ext; [lia|lia|]; intros b Hb; apply H2; intros q ->%list_elem_of_singleton; lia). }
  assert (forall w, w ∈ L ++ A -> w <> x -> ptr_at m2 w.1 = ptr_at (hmem h) w.1 /\ size_at m2 w.1 = w.2) as Hkw.
  { intros w Hw Hne. assert (apart x w) as Hxw by (eapply separate_elem; [exact (ho_apart _ _ _ _ Hok)|elem|done|done]).
    rewrite <- (ho_size _ _ _ _ Hok w Hw).
    destruct (kept_fields base [x.1; a] (hmem h) m2 L A h w) as [K1 K2]; [done|done|done| |done].
    pose proof (ho_bounds _ _ _ _ w Hok Hw). unfold apart in Hxw. intros q [->|[->|[]%elem_of_nil]%elem_of_cons]%elem_of_cons; lia. }
  assert (forall w, w ∈ L -> ptr_at m2 w.1 = ptr_at (hmem h) w.1) as Hp.
  { intros w Hw. destruct (decide (w = x)) as [->|Hne]; [done|]. apply Hkw; [elem|done]. }
  assert (forall w, w ∈ La ++ v :: Lb ++ A -> w <> x) as Hnx.
  { intros w Hw ->. assert (L ++ A ≡ₚ x :: La ++ v :: Lb ++ A) as HP by (rewrite EL, <- !app_assoc; cbn; solve_Permutation).
    pose proof (ho_apart _ _ _ _ Hok) as Ha. rewrite HP in Ha. destruct Ha as [Ha _]. rewrite Forall_forall in Ha. specialize (Ha x Hw).
    unfold apart in Ha. lia. }
  split_and!; [split; cbn; try done| |done].
  - apply Hok.
  - pose proof (ho_chain _ _ _ _ Hok) as Hc. rewrite EL in Hc. apply chained_app in Hc as [Hc1 (Hc2 & Hc3 & Hc4)].
    apply chained_app. cbn. rewrite !Hp by done. split; [|split; [done|split; [done|]]]; (eapply chained_ext; [|eassumption]; intros w Hw; apply Hp; rewrite EL; elem).
  - intros w Hw. assert (w = x' \/ w = (a, n) \/ w ∈ La ++ v :: Lb ++ A) as [->|[->|Hw']] by elem; [done|done|].
    apply Hkw; [rewrite EL; elem|by apply Hnx].
  - rewrite fmap_app, fmap_cons. elem.
  - intros w b Hw Hb. apply Hm. pose proof (ho_apart _ _ _ _ Hok) as Ha. apply separate_app in Ha as (_ & _ & Ha). pose proof (Ha x w Hx Hw) as Hxw.
    unfold apart in Hxw. intros q [->|[->|[]%elem_of_nil]%elem_of_cons]%elem_of_cons; lia.
Qed.

(** The arm of the loop for a block that is large enough. *)
Lemma take_wp f (R : Z -> uheap -> Prop) :
  (forall L' m' b, heap_ok L' ((b, n) :: A) (MkUH m' (brk h) v.1) -> units L' + n = units L -> keeps A (hmem h) m' -> R (b + 8) (MkUH m' (brk h) v.1)) ->
  wp (malloc_loop (S f) n v.1 x.1) R h.
Proof.
  intros HR. pose proof take_x as (Hx & Hv & Hvx & Hxb & Hu1 & Hu2 & Hv8 & Hv0). pose proof take_all_ok as Hall. pose proof take_end_ok as Hend.
  assert (units L = units La + v.2 + x.2 + units Lb) as Hu by (rewrite EL, units_app; cbn; lia).
  pose proof (ho_size _ _ _ _ Hok x ltac:(elem)) as Hsx. cbn [malloc_loop]. unfold h_size at 1. apply wp_bind, wp_gets. rewrite (padd_small x.1 4) by lia.
  change (peek32 (x.1 + 4) ?m) with (size_at m x.1). rewrite Hsx. destruct (Z.leb_spec n x.2); [|lia]. apply wp_bind.
  destruct (Z.eqb_spec x.2 n) as [E|E].
  - destruct (Hall E) as [Hok' Hk]. unfold h_ptr, h_set_ptr. apply wp_bind, wp_gets, wp_bind, wp_modify, wp_ret, wp_bind, wp_modify, wp_ret.
    unfold hadd. rewrite padd_small by lia. apply (HR (La ++ v :: Lb)); [done|rewrite Hu, units_app; cbn; lia|done].
  - destruct (Hend ltac:(lia)) as (Hok' & Hk & Hs). unfold h_set_size at 1. apply wp_bind, wp_modify. rewrite (padd_small x.1 4), u32_small by lia.
    unfold h_size at 1. apply wp_bind, wp_gets. rewrite (padd_small x.1 4) by lia. cbn [set_hmem hmem]. change (peek32 (x.1 + 4) ?m) with (size_at m x.1). rewrite Hs.
    unfold hadd. rewrite padd_small by lia. unfold h_set_size. apply wp_bind, wp_modify, wp_ret, wp_bind, wp_modify, wp_ret.
    rewrite !padd_small by lia. apply (HR (La ++ v :: x' :: Lb)); [done|rewrite Hu, units_app; cbn; lia|done].
Qed.

End take.

(** ** A round of the list *)

(** What the loop does when it is back at [freep]. *)
Definition refill (f : nat) (n : Z) : M uheap Z :=
  let* p := morecore n in
  if p =? 0 then ret 0 else
  let* next := h_ptr p in
  malloc_loop f n p next.

Lemma round_wp L A h q n f W v (R : Z -> uheap -> Prop) :
  heap_ok L A h -> q ∈ L -> freep h = q.1 -> 1 <= n -> v ∈ L -> W ⊆ L -> (forall w, w ∈ W -> w.1 <> q.1) -> chained (hmem h) (v :: W) q.1 ->
  (forall L' m' p b, heap_ok L' ((b, n) :: A) (MkUH m' (brk h) p) -> units L' + n = units L -> keeps A (hmem h) m' -> R (b + 8) (MkUH m' (brk h) p)) ->
  ((forall w, w ∈ W ++ [q] -> w.2 < n) -> wp (refill f n) R h) ->
  wp (malloc_loop (S (length W) + f) n v.1 (first W q.1)) R h.
Proof.
  intros Hok Hq Hf Hn Hv HW Hne Hc HF HN. revert v Hv HW Hne Hc HN. induction W as [|w W IH]; intros v Hv HW Hne [Hcv Hc] HN.
  - cbn [first length Nat.add] in *. destruct (decide (n <= q.2)) as [Hle|Hgt].
    + destruct (pred_split L A h v q) as (La & Lb & EL); try done.
      { intros E. pose proof (free_head _ _ _ _ q Hok Hq E) as ->. cbn in Hle. lia. }
      eapply take_wp; [done|done|lia|]. intros; by eapply HF.
    + cbn [malloc_loop]. pose proof (ho_bounds _ _ _ _ q Hok ltac:(elem)) as (Q1 & Q2 & Q3 & _). unfold h_size at 1. apply wp_bind, wp_gets.
      rewrite (padd_small q.1 4) by lia. change (peek32 (q.1 + 4) ?m) with (size_at m q.1). rewrite (ho_size _ _ _ _ Hok) by elem.
      destruct (Z.leb_spec n q.2); [lia|]. apply wp_bind, wp_gets. rewrite Hf, Z.eqb_refl. apply HN. intros w Hw. apply list_elem_of_singleton in Hw as ->. lia.
  - assert (w ∈ L) as Hw by (apply HW; elem). cbn [first length] in *. destruct (decide (n <= w.2)) as [Hle|Hgt].
    + destruct (pred_split L A h v w) as (La & Lb & EL); try done.
      { intros E. pose proof (free_head _ _ _ _ w Hok Hw E) as ->. cbn in Hle. lia. }
      eapply take_wp; [done|done|lia|]. intros; by eapply HF.
    + change (S (S (length W)) + f)%nat with (S (S (length W) + f)). cbn [malloc_loop]. pose proof (ho_bounds _ _ _ _ w Hok ltac:(elem)) as (Q1 & Q2 & Q3 & _).
      unfold h_size at 1. apply wp_bind, wp_gets. rewrite (padd_small w.1 4) by lia. change (peek32 (w.1 + 4) ?m) with (size_at m w.1).
      rewrite (ho_size _ _ _ _ Hok) by elem. destruct (Z.leb_spec n w.2); [lia|]. apply wp_bind, wp_gets. rewrite Hf.
      destruct (Z.eqb_spec w.1 q.1) as [E|E]; [by destruct (Hne w ltac:(elem))|]. unfold h_ptr at 1. apply wp_bind, wp_gets.
      change (peek32 w.1 ?m) with (ptr_at m w.1). rewrite (proj1 Hc). apply IH; [done|set_solver|set_solver|done|].
      intros Hs. apply HN. intros z Hz. cbn in Hz. apply elem_of_cons in Hz as [->|Hz]; [lia|by apply Hs].
Qed.

(** From [freep] the loop sees every free block once. *)
Lemma full_round_wp L A h n f (R : Z -> uheap -> Prop) :
  heap_ok L A h -> 1 <= n ->
  (forall L' m' p b, heap_ok L' ((b, n) :: A) (MkUH m' (brk h) p) -> units L' + n = units L -> keeps A (hmem h) m' -> R (b + 8) (MkUH m' (brk h) p)) ->
  ((forall w, w ∈ L -> w.2 < n) -> wp (refill f n) R h) ->
  wp (malloc_loop (length L + f) n (freep h) (ptr_at (hmem h) (freep h))) R h.
Proof.
  intros Hok Hn HF HN. pose proof (ho_freep _ _ _ _ Hok) as Hq. apply list_elem_of_fmap in Hq as (q & Hf & Hq). rewrite Hf.
  pose proof Hq as Hq'. apply list_elem_of_split in Hq' as (L1 & L2 & EL). pose proof (ho_chain _ _ _ _ Hok) as Hc.
  destruct (ho_base _ _ _ _ Hok) as [L' EB]. assert (first L1 q.1 = base) as Hb by (rewrite EB in EL; destruct L1; injection EL as <- _; done).
  rewrite EL in Hc. apply chained_app in Hc as [Hc1 Hc2]. cbn [first] in Hc1. assert (chained (hmem h) (q :: L2 ++ L1) q.1) as Hc.
  { change (q :: L2 ++ L1) with ((q :: L2) ++ L1). apply chained_app. by rewrite Hb. }
  rewrite (proj1 Hc). replace (length L + f)%nat with (S (length (L2 ++ L1)) + f)%nat by (rewrite EL, !length_app; cbn; lia).
  apply (round_wp L A h q); [done|done|done|done|done| | |done|done|].
  - intros w Hw. rewrite EL. elem.
  - intros w Hw E. assert (w = q) as -> by (apply (sorted_inj L); [eapply ho_sorted; eassumption|rewrite EL; elem|done|done]).
    pose proof (ho_sorted _ _ _ _ Hok) as Hs. rewrite EL in Hs. apply elem_of_app in Hw as [Hw|Hw].
    + pose proof (sorted_app_lt (L1 ++ [q]) L2 q q ltac:(by rewrite <- app_assoc) ltac:(elem) Hw). lia.
    + pose proof (sorted_app_lt L1 (q :: L2) q q Hs Hw ltac:(elem)). lia.
  - intros Hs. apply HN. intros w Hw. apply Hs. rewrite EL in Hw. elem.
Qed.

(** ** More memory *)

(** A new block at the old end of memory is one given out. *)
Lemma grown_ok L A h nu :
  heap_ok L A h -> 1 <= nu -> brk h + 8 * nu <= 2 ^ 31 ->
  let m1 := poke32 (brk h + 4) nu (hmem h) in
  heap_ok L ((brk h, nu) :: A) (MkUH m1 (brk h + 8 * nu) (freep h)) /\ keeps A (hmem h) m1.
Proof.
  intros Hok Hnu Hlim m1. pose proof (ho_pos _ _ _ _ Hok) as (P1 & P2 & P3). destruct (poke_header (brk h) nu (hmem h)) as [_ H1]; [lia|lia|].
  destruct (fields_poke (brk h) nu (hmem h)) as (_ & F1 & _ & _); [lia|lia|lia|]. fold m1 in H1, F1.
  assert (forall w, w ∈ L ++ A -> uend w <= brk h) as He.
  { intros w Hw. destruct (ho_range _ _ _ _ Hok w Hw) as [->|[_ R]]; [unfold uend; cbn; lia|done]. }
  assert (forall w, w ∈ L ++ A -> ptr_at m1 w.1 = ptr_at (hmem h) w.1 /\ size_at m1 w.1 = w.2) as Hkw.
  { intros w Hw. rewrite <- (ho_size _ _ _ _ Hok w Hw). apply (kept_fields base [brk h] (hmem h) m1 L A h w); [done|done|done|].
    intros q ->%list_elem_of_singleton. pose proof (He w Hw). unfold uend in *. lia. }
  assert (L ++ (brk h, nu) :: A ≡ₚ (brk h, nu) :: L ++ A) as HP by solve_Permutation.
  split; [split; cbn; try apply Hok; try done|].
  - intros w. rewrite HP. intros [->|Hw]%elem_of_cons; [right; unfold uend; cbn; lia|].
    destruct (ho_range _ _ _ _ Hok w Hw) as [->|[R1 R2]]; [by left|right; lia].
  - lia.
  - intros w. rewrite HP. intros [->|Hw]%elem_of_cons; [cbn; lia|by apply (ho_low _ _ _ _ Hok)].
  - rewrite HP. split; [|apply Hok]. apply Forall_forall. intros w Hw. right. cbn. by apply He.
  - eapply chained_ext; [|apply Hok]. intros w Hw. apply Hkw. elem.
  - intros w. rewrite HP. intros [->|Hw]%elem_of_cons; [done|by apply Hkw].
  - intros w b Hw Hb. apply H1. intros q ->%list_elem_of_singleton. pose proof (He w ltac:(elem)). lia.
Qed.

(** At least 4096 units at a time. *)
Definition core (n : Z) : Z := if n <? 4096 then 4096 else n.

Lemma morecore_wp L A h n (R : Z -> uheap -> Prop) :
  heap_ok L A h -> 1 <= n < 2 ^ 28 ->
  (sbrk_ok (brk h) (8 * core n) = false -> R 0 h) ->
  (forall L' m' f x, sbrk_ok (brk h) (8 * core n) = true ->
     heap_ok L' A (MkUH m' (brk h + 8 * core n) f) -> units L' = units L + core n -> keeps A (hmem h) m' ->
     x ∈ L' -> n <= x.2 -> (length L' <= S (length L))%nat -> R f (MkUH m' (brk h + 8 * core n) f)) ->
  wp (morecore n) R h.
Proof.
  intros Hok Hn H0 H1. assert (n <= core n < 2 ^ 28) as Hcore by (unfold core; destruct (Z.ltb_spec n 4096); lia). unfold morecore. fold (core n). set (nu := core n) in *.
  unfold sbrk. apply wp_bind, wp_bind, wp_gets. rewrite u32_small by lia. replace (s32 (nu * 8)) with (8 * nu) by (rewrite s32_small; lia).
  pose proof (ho_pos _ _ _ _ Hok) as (P1 & P2 & P3). destruct (sbrk_ok (brk h) (8 * nu)) eqn:Es.
  - pose proof (sbrk_limit (brk h) (8 * nu) ltac:(lia) ltac:(lia) Es) as Hlim. apply wp_bind, wp_modify, wp_ret. destruct (Z.eqb_spec (brk h) (u32 (-1))) as [E|_]; [vm_compute (u32 (-1)) in E; lia|].
    unfold h_set_size. apply wp_bind, wp_modify. rewrite padd_small by lia. destruct (grown_ok L A h nu Hok) as [Hok1 Hk1]; [lia|lia|].
    unfold hadd. rewrite padd_small by lia. apply wp_bind. change (brk h + 8 * 1) with ((brk h, nu).1 + 8). eapply free_wp; [exact Hok1|done|]. cbn [hmem brk snd].
    intros L' m' f Hok' Hu (x & Hx & Hxn) Hl Hk. apply wp_gets. cbn [freep]. eapply H1; try done; [|lia].
    intros w b Hw Hb. etransitivity; [by apply (Hk w)|by apply (Hk1 w)].
  - apply wp_ret. rewrite Z.eqb_refl. by apply wp_ret, H0.
Qed.

(** ** The allocator *)

Lemma refill_wp L A h n f (R : Z -> uheap -> Prop) :
  heap_ok L A h -> 1 <= n < 2 ^ 28 -> (S (length L) <= f)%nat ->
  (sbrk_ok (brk h) (8 * core n) = false -> R 0 h) ->
  (forall L' m' p b, sbrk_ok (brk h) (8 * core n) = true -> heap_ok L' ((b, n) :: A) (MkUH m' (brk h + 8 * core n) p) ->
     units L' + n = units L + core n -> keeps A (hmem h) m' -> R (b + 8) (MkUH m' (brk h + 8 * core n) p)) ->
  wp (refill f n) R h.
Proof.
  intros Hok Hn Hf H0 H1. unfold refill. apply wp_bind. eapply morecore_wp; [exact Hok|done|intros E; rewrite Z.eqb_refl; by apply wp_ret, H0|].
  intros L' m' p x Es Hok' Hu Hk Hx Hxn Hl. pose proof (ho_freep _ _ _ _ Hok') as Hp. apply list_elem_of_fmap in Hp as (q & Hq & Hq'). cbn [freep] in Hq.
  pose proof (ho_bounds _ _ _ _ q Hok' ltac:(elem)). destruct (Z.eqb_spec p 0) as [E|_]; [lia|]. unfold h_ptr. apply wp_bind, wp_gets.
  replace f with (length L' + (f - length L'))%nat by lia. apply (full_round_wp L' A (MkUH m' (brk h + 8 * core n) p)); [done|lia| |].
  - intros L2 m2 p2 b Hok2 Hu2 Hk2. eapply H1; [done|exact Hok2|lia|]. intros w c Hw Hc. etransitivity; [by apply (Hk2 w)|by apply (Hk w)].
  - intros Hs. specialize (Hs x Hx). lia.
Qed.

(** The heap: not set up yet, or with free blocks [L] and blocks given out [A]. *)
Definition heap (L A : list ublock) (h : uheap) : Prop :=
  heap_ok L A h \/ freep h = 0 /\ L = [] /\ A = [] /\ 0 < base /\ base + 8 <= brk h <= 2 ^ 31.

Lemma heap_first h :
  freep h = 0 -> 0 < base -> base + 8 <= brk h <= 2 ^ 31 ->
  heap_ok [(base, 0)] [] (MkUH (poke32 (base + 4) 0 (poke32 base base (hmem h))) (brk h) base).
Proof.
  intros Hf H0 H1. destruct (fields_poke base base (hmem h)) as (F1 & _); [lia|lia|lia|].
  destruct (fields_poke base 0 (poke32 base base (hmem h))) as (_ & F2 & F3 & F4); [lia|lia|lia|]. split; cbn; try done.
  - by eexists.
  - repeat constructor.
  - intros x ->%list_elem_of_singleton. by left.
  - by intros x ->%list_elem_of_singleton.
  - split; [by rewrite F4|done].
  - intros x ->%list_elem_of_singleton. done.
  - set_solver.
Qed.

(** The units [malloc] asks for, the header included. *)
Definition nunits (nbytes : Z) : Z := (nbytes + 7) / 8 + 1.

Lemma nunits_bounds nbytes : 0 <= nbytes < 2 ^ 31 - 16 -> 1 <= nunits nbytes < 2 ^ 28 /\ nbytes <= 8 * (nunits nbytes - 1).
Proof. intros H. unfold nunits. zdiv. Qed.

Lemma malloc_wp L A h nbytes (R : Z -> uheap -> Prop) :
  heap L A h -> 0 <= nbytes < 2 ^ 31 - 16 -> let n := nunits nbytes in
  (forall L' m' p, heap L' A (MkUH m' (brk h) p) -> units L' = units L -> keeps A (hmem h) m' ->
     (forall x, x ∈ L -> x.2 < n) -> sbrk_ok (brk h) (8 * core n) = false -> R 0 (MkUH m' (brk h) p)) ->
  (forall L' m' top p b, heap L' ((b, n) :: A) (MkUH m' top p) -> keeps A (hmem h) m' ->
     (top = brk h /\ units L' + n = units L \/
      top = brk h + 8 * core n /\ units L' + n = units L + core n /\ (forall x, x ∈ L -> x.2 < n)) -> R (b + 8) (MkUH m' top p)) ->
  wp (malloc base nbytes) R h.
Proof.
  intros Hh Hb n H0 H1. destruct (nunits_bounds nbytes Hb) as [Hn _]. fold n in Hn. unfold malloc.
  replace (u32 (u32 (nbytes + 8 - 1) / 8 + 1)) with n.
  2:{ rewrite (u32_small (nbytes + 8 - 1)) by lia. replace (nbytes + 8 - 1) with (nbytes + 7) by lia. fold (nunits nbytes). fold n. by rewrite u32_small by lia. }
  apply wp_bind, wp_gets, wp_bind.
  assert (forall L1 h1, heap_ok L1 A h1 -> units L1 = units L -> brk h1 = brk h -> keeps A (hmem h) (hmem h1) -> (forall x, x ∈ L -> x ∈ L1) ->
    wp (let* p := h_ptr (freep h1) in let* h := gets (fun h => h) in malloc_loop (2 * heap_fuel h) n (freep h1) p) R h1) as Hmain.
  { intros L1 h1 Hok Hu Eb Hk HL. unfold h_ptr. apply wp_bind, wp_gets, wp_bind, wp_gets. pose proof (free_fuel _ _ _ _ Hok) as Hfu.
    replace (2 * heap_fuel h1)%nat with (length L1 + (2 * heap_fuel h1 - length L1))%nat by lia. apply (full_round_wp L1 A h1); [done|lia| |].
    - intros L' m' p b Hok' Hu' Hk'. rewrite Eb in *. eapply H1; [by left|intros w c Hw Hc; etransitivity; [by apply (Hk' w)|by apply (Hk w)]|]. left. lia.
    - intros Hs. rewrite <- Eb in *. eapply refill_wp; [exact Hok|done|lia| |].
      + intros Es. destruct h1 as [m1 b1 p1]. cbn [hmem brk] in *. apply (H0 L1); [by left|done|done|by auto|done].
      + intros L' m' p b Es Hok' Hu' Hk'. eapply H1; [by left|intros w c Hw Hc; etransitivity; [by apply (Hk' w)|by apply (Hk w)]|].
        right. split_and!; [done|lia|by auto]. }
  destruct Hh as [Hok|(Hf & -> & -> & P1 & P2)].
  - pose proof (ho_freep _ _ _ _ Hok) as Hp. apply list_elem_of_fmap in Hp as (q & Hq & Hq'). pose proof (ho_bounds _ _ _ _ q Hok ltac:(elem)).
    destruct (Z.eqb_spec (freep h) 0) as [E|_]; [lia|]. apply wp_ret. by apply (Hmain L).
  - rewrite Hf, Z.eqb_refl. unfold h_set_ptr, h_set_size. apply wp_bind, wp_modify, wp_bind, wp_modify, wp_bind, wp_modify, wp_ret.
    rewrite padd_small by lia. pose proof (heap_first h Hf P1 P2) as Hok. apply (Hmain _ _ Hok); [done|done|by intros ? ? []%elem_of_nil|by intros ? []%elem_of_nil].
Qed.

End ops.
