(* ===== verification/UmallocUse.v ===== *)
(** * Programs that use the allocator

    A program that allocates, writes and frees has, at any time, buffers that lie in its
    memory, do not overlap and hold what it wrote last. *)

From S2P Require Import Prelude Strings Monad Umalloc UmallocInv UmallocOps.

(** A buffer of the program: its address and its bytes. *)
Abbreviation buffer := (Z * list Z)%type.

Inductive ucmd : Type :=
| UMalloc (nbytes : Z)
| UFree (i : nat)
| UWrite (i j : nat) (v : Z).

(** The sizes [malloc] can compute with. *)
Definition ucmd_ok (c : ucmd) : bool :=
  match c with
  | UMalloc n => (0 <=? n) && (n <? 2 ^ 31 - 16)
  | _ => true
  end.

Section client.
Context {SB : Sbrk} (base : Z).
Abbreviation heap := (heap base).

Definition bytes_at (m : bmem) (p n : Z) : list Z := (fun i => m (p + Z.of_nat i)) <$> seq 0 (Z.to_nat n).

Definition ustep (c : ucmd) (B : list buffer) : M uheap (list buffer) :=
  match c with
  | UMalloc n =>
      let* p := malloc base n in
      if p =? 0 then ret B else
      let* bs := gets (fun h => bytes_at (hmem h) p n) in
      ret ((p, bs) :: B)
  | UFree i =>
      match B !! i with
      | Some (p, _) => free p ;;; ret (delete i B)
      | None => ret B
      end
  | UWrite i j v =>
      match B !! i with
      | Some (p, bs) =>
          if decide (j < length bs)%nat then
            modify (fun h => set_hmem (poke (p + Z.of_nat j) v (hmem h)) h) ;;;
            ret (<[i := (p, <[j := u8 v]> bs)]> B)
          else ret B
      | None => ret B
      end
  end.

Fixpoint urun (cs : list ucmd) (B : list buffer) : M uheap (list buffer) :=
  match cs with
  | [] => ret B
  | c :: cs => let* B := ustep c B in urun cs B
  end.

Record buffers_ok (B : list buffer) (h : uheap) : Prop := {
  bo_in : forall i p bs, B !! i = Some (p, bs) -> base + 8 <= p /\ p + Z.of_nat (length bs) <= brk h;
  bo_bytes : forall i p bs j, B !! i = Some (p, bs) -> (j < length bs)%nat -> bs !! j = Some (hmem h (p + Z.of_nat j));
  bo_apart : forall i i' p bs p' bs', i <> i' -> B !! i = Some (p, bs) -> B !! i' = Some (p', bs') ->
    p + Z.of_nat (length bs) <= p' \/ p' + Z.of_nat (length bs') <= p
}.

(** The block of a buffer. *)
Definition holds (m : bmem) (b : ublock) (f : buffer) : Prop :=
  f.1 = b.1 + 8 /\ Z.of_nat (length f.2) <= 8 * (b.2 - 1) /\
  forall j, (j < length f.2)%nat -> f.2 !! j = Some (m (f.1 + Z.of_nat j)).

Definition client_ok (B : list buffer) (h : uheap) : Prop := exists L A, heap L A h /\ Forall2 (holds (hmem h)) A B.

Lemma keeps_holds A B m m' : keeps A m m' -> Forall2 (holds m) A B -> Forall2 (holds m') A B.
Proof.
  intros Hk HF. apply Forall2_same_length_lookup. apply Forall2_same_length_lookup in HF as [Hl HF]. split; [done|].
  intros i b [p bs] Hb Hf. destruct (HF i b (p, bs) Hb Hf) as (E & Hn & Hbs). cbn in *. split_and!; [done|done|].
  intros j Hj. rewrite (Hk b); [by apply Hbs|by eapply list_elem_of_lookup_2|]. unfold uend. cbn in *. lia.
Qed.

Lemma separate_lookup A i j x y : separate A -> i <> j -> A !! i = Some x -> A !! j = Some y -> apart x y.
Proof.
  revert i j. induction A as [|z A IH]; intros i j Hs Hne Hi Hj; [done|]. destruct Hs as [Hz Hs]. rewrite Forall_forall in Hz.
  destruct i as [|i], j as [|j]; cbn in *; [done|injection Hi as ->|injection Hj as ->|].
  - by apply Hz; eapply list_elem_of_lookup_2.
  - by apply apart_sym, Hz; eapply list_elem_of_lookup_2.
  - eapply IH; [done| |done|done]. lia.
Qed.

(** The bytes of a block given out are the program's. *)
Lemma heap_write L A h i b a v :
  heap_ok base L A h -> A !! i = Some b -> b.1 + 8 <= a < uend b ->
  heap_ok base L A (set_hmem (poke a v (hmem h)) h).
Proof.
  intros Hok Hb Ha. assert (b ∈ A) as Hin by (by eapply list_elem_of_lookup_2).
  assert (forall x o, x ∈ L ++ A -> 0 <= o <= 4 -> peek32 (x.1 + o) (poke a v (hmem h)) = peek32 (x.1 + o) (hmem h)) as Hx.
  { intros x o Hx Ho. pose proof (ho_bounds _ _ _ _ x Hok Hx) as (X1 & X2 & X3 & X4). apply peek32_ext; [lia|lia|]. intros c Hc. unfold poke.
    destruct (Z.eqb_spec c a) as [->|]; [|done]. destruct (decide (x = b)) as [->|Hne]; [lia|].
    pose proof (separate_elem _ x b (ho_apart _ _ _ _ Hok) Hx ltac:(set_solver) Hne) as [Hap|Hap]; lia. }
  split; try apply Hok; cbn.
  - eapply chained_ext; [|apply Hok]. intros x Hxl. unfold ptr_at. pose proof (Hx x 0 ltac:(set_solver) ltac:(lia)) as E. by rewrite Z.add_0_r in E.
  - intros x Hxl. unfold size_at. rewrite Hx by (done || lia). by apply (ho_size _ _ _ _ Hok).
Qed.

Lemma bytes_at_spec m p n : 0 <= n -> Z.of_nat (length (bytes_at m p n)) = n /\ forall j, (j < length (bytes_at m p n))%nat -> bytes_at m p n !! j = Some (m (p + Z.of_nat j)).
Proof.
  intros Hn. unfold bytes_at. rewrite length_fmap, length_seq. split; [lia|]. intros j Hj. rewrite list_lookup_fmap, lookup_seq_lt by done. done.
Qed.

Lemma heap_given L A h b : heap L A h -> b ∈ A -> heap_ok base L A h.
Proof. intros [Hok|(_ & _ & -> & _)]; [done|]. by intros []%elem_of_nil. Qed.

Lemma holds_payload m b f j : holds m b f -> (j < length f.2)%nat -> b.1 + 8 <= f.1 + Z.of_nat j < uend b.
Proof. intros (-> & Hn & _) Hj. unfold uend. lia. Qed.

(** ** The steps *)

Lemma umalloc_wp n B h : client_ok B h -> ucmd_ok (UMalloc n) = true -> wp (ustep (UMalloc n) B) client_ok h.
Proof.
  intros (L & A & Hh & HF) Hc. cbn in Hc. assert (0 <= n < 2 ^ 31 - 16) as Hn by lia. destruct (nunits_bounds n Hn) as [N1 N2].
  cbn [ustep]. apply wp_bind. eapply malloc_wp; [exact Hh|done| |].
  - intros L' m' p Hh' _ Hk _ _. rewrite Z.eqb_refl. apply wp_ret. exists L', A. split; [done|by eapply keeps_holds].
  - intros L' m' top p b Hh' Hk _. pose proof (heap_given _ _ _ (b, nunits n) Hh' ltac:(set_solver)) as Hok.
    pose proof (ho_bounds _ _ _ _ (b, nunits n) Hok ltac:(set_solver)) as (B1 & _). cbn in B1. destruct (Z.eqb_spec (b + 8) 0) as [E|_]; [lia|].
    apply wp_bind, wp_gets, wp_ret. exists L', ((b, nunits n) :: A). split; [done|]. constructor; [|by eapply keeps_holds].
    cbn [hmem]. destruct (bytes_at_spec m' (b + 8) n ltac:(lia)) as [Hl Hj]. split_and!; [done|cbn [fst snd]; lia|done].
Qed.

Lemma ufree_wp i B h : client_ok B h -> wp (ustep (UFree i) B) client_ok h.
Proof.
  intros (L & A & Hh & HF). cbn [ustep]. destruct (B !! i) as [[p bs]|] eqn:Ei; [|by apply wp_ret; exists L, A].
  destruct (Forall2_lookup_r _ _ _ _ _ HF Ei) as (b & Hb & Hp & _). cbn [fst] in Hp. subst p.
  pose proof (heap_given _ _ _ b Hh ltac:(by eapply list_elem_of_lookup_2)) as Hok. apply wp_bind.
  eapply free_wp; [exact Hok|by apply delete_Permutation|]. intros L' m' f Hok' _ _ _ Hk. apply wp_ret. exists L', (delete i A). split; [by left|].
  eapply keeps_holds; [exact Hk|]. by apply Forall2_delete.
Qed.

Lemma uwrite_wp i j v B h : client_ok B h -> wp (ustep (UWrite i j v) B) client_ok h.
Proof.
  intros (L & A & Hh & HF). cbn [ustep]. destruct (B !! i) as [[p bs]|] eqn:Ei; [|by apply wp_ret; exists L, A].
  case_decide as Hj; [|by apply wp_ret; exists L, A]. destruct (Forall2_lookup_r _ _ _ _ _ HF Ei) as (b & Hb & Hh').
  pose proof (heap_given _ _ _ b Hh ltac:(by eapply list_elem_of_lookup_2)) as Hok. pose proof (holds_payload _ _ _ j Hh' Hj) as Hpay. cbn [fst] in Hpay.
  apply wp_bind, wp_modify, wp_ret. exists L, A. split; [left; by eapply heap_write|]. apply Forall2_same_length_lookup in HF as [Hl HF].
  apply Forall2_same_length_lookup. split; [by rewrite length_insert|]. intros k c f Hc Hk. destruct (decide (k = i)) as [->|Hne].
  - rewrite list_lookup_insert_eq in Hk by (by eapply lookup_lt_Some). injection Hk as <-. rewrite Hb in Hc. injection Hc as <-.
    destruct Hh' as (E & Hn & Hbs). cbn [fst snd] in *. split_and!; [done|cbn [snd]; by rewrite length_insert|]. cbn [fst snd]. rewrite length_insert. intros k Hk.
    cbn [set_hmem hmem]. unfold poke. destruct (decide (k = j)) as [->|Hkj]; [by rewrite list_lookup_insert_eq, Z.eqb_refl|].
    rewrite list_lookup_insert_ne by done. destruct (Z.eqb_spec (p + Z.of_nat k) (p + Z.of_nat j)); [lia|by apply Hbs].
  - rewrite list_lookup_insert_ne in Hk by done. specialize (HF k c f Hc Hk). pose proof HF as (E & Hn & Hbs). split_and!; [done|done|].
    intros z Hz. cbn [set_hmem hmem]. unfold poke. pose proof (holds_payload _ _ _ z HF Hz). pose proof (ho_apart _ _ _ _ Hok) as Ha.
    apply separate_app in Ha as (_ & Ha & _). pose proof (separate_lookup _ _ _ _ _ Ha Hne Hc Hb) as Hap.
    destruct (Z.eqb_spec (f.1 + Z.of_nat z) (p + Z.of_nat j)) as [Eq|_]; [|by apply Hbs]. destruct Hap; lia.
Qed.

Lemma urun_wp cs B h : client_ok B h -> forallb ucmd_ok cs = true -> wp (urun cs B) client_ok h.
Proof.
  revert B h. induction cs as [|c cs IH]; intros B h HB Hc; cbn [urun]; [done|]. cbn in Hc. apply andb_true_iff in Hc as [Hc Hcs].
  apply wp_bind. eapply wp_mono; [|intros B' h' HB'; by apply IH]. destruct c; [by apply umalloc_wp|by apply ufree_wp|by apply uwrite_wp].
Qed.

Lemma client_buffers B h : client_ok B h -> buffers_ok B h.
Proof.
  intros (L & A & Hh & HF).
  assert (forall i f, B !! i = Some f -> exists b, A !! i = Some b /\ holds (hmem h) b f /\ heap_ok base L A h /\ 1 <= b.2 /\ uend b <= brk h /\ base + 8 <= b.1) as HB.
  { intros i f Hf. destruct (Forall2_lookup_r _ _ _ _ _ HF Hf) as (b & Hb & Hh'). assert (b ∈ A) as Hin by (by eapply list_elem_of_lookup_2).
    pose proof (heap_given _ _ _ b Hh Hin) as Hok. exists b. split_and!; [done|done|done|..]; by apply (given_real _ _ _ _ b (heap_blocks _ _ _ _ Hok)). }
  split.
  - intros i p bs Hf. destruct (HB i _ Hf) as (b & _ & (E & Hn & _) & _ & B1 & B2 & B3). cbn [fst snd] in *. unfold uend in B2. lia.
  - intros i p bs j Hf Hj. destruct (HB i _ Hf) as (b & _ & (E & Hn & Hbs) & _). by apply Hbs.
  - intros i i' p bs p' bs' Hne Hf Hf'. destruct (HB i _ Hf) as (b & Hb & (E & Hn & _) & Hok & B1 & _). destruct (HB i' _ Hf') as (b' & Hb' & (E' & Hn' & _) & _ & B1' & _).
    pose proof (ho_apart _ _ _ _ Hok) as Ha. apply separate_app in Ha as (_ & Ha & _). cbn [fst snd] in *.
    destruct (separate_lookup _ _ _ _ _ Ha Hne Hb Hb') as [Hap|Hap]; unfold uend in Hap; lia.
Qed.

End client.

(** ** The properties *)

(** C16. A program that allocates buffers of less than 2^31 - 16 bytes each, frees them
    and writes to their bytes, in any order, starting with the allocator not set up:
    every call of [malloc] and [free] returns, and afterwards each buffer lies in the
    program's memory, overlaps no other, and holds the bytes written to it last.  The
    program frees only buffers it has and writes only inside them.  Larger requests
    are outside the contract: [malloc_size_wraps] is one that goes wrong. *)
Theorem umalloc_refines {SB : Sbrk} base h cs :
  freep h = 0 -> 0 < base -> base + 8 <= brk h <= 2 ^ 31 -> forallb ucmd_ok cs = true ->
  wp (urun base cs []) (fun B h' => buffers_ok base B h') h.
Proof.
  intros Hf H0 H1 Hcs. eapply wp_mono; [apply urun_wp; [|done]|intros B h'; apply client_buffers].
  exists [], []. split; [right; split_and!; done || lia|constructor].
Qed.

(** C36. For a request of less than 2^31 - 16 bytes, [malloc] returns a new block with
    room for the bytes asked for, inside the program's memory and apart from all blocks
    given out, whose bytes it does not change; or 0, and only when no free block is
    large enough and the kernel refuses more memory.  Beyond that bound the size
    computed in 32 bits need not be the one asked for ([malloc_size_wraps]). *)
Theorem malloc_bounds {SB : Sbrk} base L A h nbytes :
  heap base L A h -> 0 <= nbytes < 2 ^ 31 - 16 ->
  wp (malloc base nbytes) (fun r h' =>
    keeps A (hmem h) (hmem h') /\
    (r = 0 /\ brk h' = brk h /\ (exists L', heap base L' A h') /\
       (forall x, x ∈ L -> 8 * (x.2 - 1) < nbytes) /\ sbrk_ok (brk h) (8 * core (nunits nbytes)) = false \/
     exists L' b, r = b.1 + 8 /\ heap base L' (b :: A) h' /\
       base + 8 <= b.1 /\ nbytes <= 8 * (b.2 - 1) /\ b.1 + 8 * b.2 <= brk h' /\ Forall (apart b) A)) h.
Proof.
  intros Hh Hn. destruct (nunits_bounds nbytes Hn) as [N1 N2]. eapply malloc_wp; [exact Hh|done| |].
  - intros L' m' p Hh' _ Hk Hs Es. split; [done|]. left. split_and!; [done|done|by eexists| |done].
    intros x Hx. specialize (Hs x Hx). clear -Hs Hn. unfold nunits in Hs. zdiv.
  - intros L' m' top p b Hh' Hk _. split; [done|]. right. exists L', (b, nunits nbytes).
    pose proof (heap_given _ _ _ _ (b, nunits nbytes) Hh' ltac:(set_solver)) as Hok.
    destruct (given_real _ _ _ _ (b, nunits nbytes) (heap_blocks _ _ _ _ Hok) ltac:(set_solver)) as (B1 & B2 & B3).
    pose proof (ho_apart _ _ _ _ Hok) as Ha. apply separate_app in Ha as (_ & [Ha _] & _). unfold uend in B2. cbn [fst snd brk] in *.
    split_and!; done || lia.
Qed.

(** The memory of a block that was freed can be given out again: asking for at most
    its size returns a block without asking the kernel for memory. *)
Theorem free_reusable {SB : Sbrk} base L A b h nbytes :
  heap base L (b :: A) h -> 0 <= nbytes <= 8 * (b.2 - 1) -> 8 * (b.2 - 1) < 2 ^ 31 - 16 ->
  wp (free (b.1 + 8) ;;; malloc base nbytes) (fun r h' =>
    brk h' = brk h /\ keeps A (hmem h) (hmem h') /\
    exists L' c, r = c.1 + 8 /\ heap base L' (c :: A) h' /\ nbytes <= 8 * (c.2 - 1) /\ units L' + c.2 = units L + b.2) h.
Proof.
  intros Hh Hn Hb. pose proof (heap_given _ _ _ _ b Hh ltac:(set_solver)) as Hok. destruct (nunits_bounds nbytes ltac:(lia)) as [N1 N2].
  assert (nunits nbytes <= b.2) as Hle by (clear -Hn; unfold nunits; zdiv).
  apply wp_bind. eapply free_wp; [exact Hok|done|]. intros L' m' f Hok' Hu (x & Hx & Hxb) _ Hk.
  eapply (malloc_wp base L' A (MkUH m' (brk h) f)); [by left|lia| |].
  - intros L2 m2 p _ _ _ Hs. specialize (Hs x Hx). lia.
  - intros L2 m2 top p c Hh2 Hk2 [[-> Hu2]|(_ & _ & Hs)]; [|specialize (Hs x Hx); lia]. cbn [brk hmem] in *. split; [done|]. split.
    + intros y a Hy Ha. etransitivity; [by apply (Hk2 y)|by apply (Hk y)].
    + exists L2, (c, nunits nbytes). cbn [fst snd]. split_and!; done || lia.
Qed.

(** ** A concrete heap *)

Definition demo_heap : uheap := MkUH (fun _ => 0) 8192 0.
Definition demo_cmds : list ucmd :=
  [UMalloc 10; UMalloc 100; UWrite 1 3 65; UFree 0; UMalloc 20; UWrite 0 0 66; UMalloc (2 ^ 31 - 100); UFree 1; UMalloc 7].

Lemma umalloc_refines_witness :
  wp (urun 4096 demo_cmds []) (fun B h' => B.*1 = [40952; 40912] /\ brk h' = 40960) demo_heap /\
  wp (urun 4096 demo_cmds []) (fun B h' => buffers_ok 4096 B h') demo_heap.
Proof.
  split; [|apply umalloc_refines; vm_compute; (reflexivity || split; discriminate)].
  eapply wp_mono; [eapply (wp_eval _ (fun B h' => bool_decide (B.*1 = [40952; 40912] /\ brk h' = 40960))); vm_compute; reflexivity|].
  by intros B h' ?%bool_decide_eq_true.
Defined.

Lemma malloc_bounds_witness :
  heap 4096 [] [] demo_heap /\
  wp (malloc 4096 100) (fun r h' => exists b, r = b.1 + 8 /\ 100 <= 8 * (b.2 - 1) /\ b.1 + 8 * b.2 <= brk h') demo_heap.
Proof.
  assert (heap 4096 [] [] demo_heap) as Hh by (right; split_and!; done). split; [exact Hh|].
  eapply wp_mono; [apply (malloc_bounds 4096 [] [] demo_heap 100 Hh); lia|].
  intros r h' [_ [(_ & _ & _ & _ & E)|(L' & b & E & _ & _ & Hb & Ht & _)]]; [vm_compute in E; discriminate|by exists b].
Defined.

(** One block of 4 units given out at the end of the memory. *)
Definition demo_used : uheap :=
  MkUH (poke32 (8192 + 4) 4 (poke32 (4096 + 4) 0 (poke32 4096 4096 (fun _ => 0)))) (8192 + 8 * 4) 4096.

Lemma free_reusable_witness :
  heap 4096 [(4096, 0)] [(8192, 4)] demo_used /\
  wp (free (8192 + 8) ;;; malloc 4096 20) (fun r h' => brk h' = 8224 /\ exists L' c, r = c.1 + 8 /\ heap 4096 L' [c] h' /\ units L' + c.2 = 4) demo_used.
Proof.
  assert (heap 4096 [(4096, 0)] [(8192, 4)] demo_used) as Hh.
  { left. apply (grown_ok 4096 [(4096, 0)] [] (MkUH (poke32 (4096 + 4) 0 (poke32 4096 4096 (fun _ => 0))) 8192 4096) 4); [|done|done].
    by apply (heap_first 4096 demo_heap). }
  split; [exact Hh|]. eapply wp_mono; [apply (free_reusable 4096 [(4096, 0)] [] (8192, 4) demo_used 20 Hh); cbn; lia|].
  intros r h' (E & _ & L' & c & Er & Hc & _ & Hu). split; [done|]. by exists L', c.
Defined.

(** Near 2^32 the size wraps around, and the block has no room at all. *)
Lemma malloc_size_wraps :
  wp (malloc 4096 (2 ^ 32 - 7)) (fun r h' => r <> 0 /\ size_at (hmem h') (r - 8) = 1) demo_heap.
Proof.
  eapply wp_mono; [eapply (wp_eval _ (fun r h' => negb (r =? 0) && (size_at (hmem h') (r - 8) =? 1))); vm_compute; reflexivity|].
  intros r h' [E1 E2]%andb_true_iff. by zbool.
Qed.
