(* ===== verification/Spinlock.v ===== *)
(** * Spinlocks (spinlock.c)

    Several CPUs acquire and release locks; each runs the code of spinlock.c, and
    they interleave between the memory accesses another CPU can observe.  The
    contract the rest of the development uses follows: a lock is held by at most
    one CPU, [acquire] and [release] panic exactly on a lock the CPU holds or does
    not hold, and a CPU runs with interrupts off while it holds any lock and as
    before when it holds none.  The name and the call stack of a lock, recorded for
    debugging, are left out. *)

From S2P Require Import Prelude Monad.

(** ** The code *)

(** The fields of [struct cpu] the locks use, and the interrupt flag. *)
Record cpu_t : Type := MkCpu { ncli : Z; intena : bool; ifl : bool }.
Record spinlock : Type := MkLk { locked : Z; lk_cpu : option nat }.
Record lstate : Type := MkL { cpu_of : nat -> cpu_t; lock_of : nat -> spinlock }.

Definition fupd {A} (i : nat) (x : A) (f : nat -> A) : nat -> A := fun j => if decide (j = i) then x else f j.
Definition get_cpu {A} (c : nat) (f : cpu_t -> A) : M lstate A := gets (fun s => f (cpu_of s c)).
Definition set_cpu (c : nat) (f : cpu_t -> cpu_t) : M lstate unit :=
  modify (fun s => MkL (fupd c (f (cpu_of s c)) (cpu_of s)) (lock_of s)).
Definition get_lock {A} (l : nat) (f : spinlock -> A) : M lstate A := gets (fun s => f (lock_of s l)).
Definition set_lock (l : nat) (f : spinlock -> spinlock) : M lstate unit :=
  modify (fun s => MkL (cpu_of s) (fupd l (f (lock_of s l)) (lock_of s))).

Definition cli (c : nat) : M lstate unit := set_cpu c (fun x => MkCpu (ncli x) (intena x) false).
Definition sti (c : nat) : M lstate unit := set_cpu c (fun x => MkCpu (ncli x) (intena x) true).

Definition initlock (l : nat) : M lstate unit := set_lock l (fun _ => MkLk 0 None).

Definition pushcli (c : nat) : M lstate unit :=
  let* eflags := get_cpu c ifl in
  cli c ;;;
  let* n := get_cpu c ncli in
  when (n =? 0) (set_cpu c (fun x => MkCpu (ncli x) eflags (ifl x))) ;;;
  set_cpu c (fun x => MkCpu (s32 (ncli x + 1)) (intena x) (ifl x)).

Definition popcli (c : nat) : M lstate unit :=
  let* eflags := get_cpu c ifl in
  if eflags then panic "popcli - interruptible" else
  set_cpu c (fun x => MkCpu (s32 (ncli x - 1)) (intena x) (ifl x)) ;;;
  let* n := get_cpu c ncli in
  if n <? 0 then panic "popcli" else
  let* n := get_cpu c ncli in
  let* i := get_cpu c intena in
  when ((n =? 0) && i) (sti c).

Definition holding (c l : nat) : M lstate bool :=
  pushcli c ;;;
  let* r := get_lock l (fun k => negb (locked k =? 0) && bool_decide (lk_cpu k = Some c)) in
  popcli c ;;;
  ret r.

(** [acquire] up to the spin loop, the atomic exchange, and what follows it. *)
Definition acquire_enter (c l : nat) : M lstate unit :=
  pushcli c ;;;
  let* h := holding c l in
  if h : bool then panic "acquire" else ret tt.
Definition xchg (l : nat) (v : Z) : M lstate Z :=
  let* old := get_lock l locked in
  set_lock l (fun k => MkLk v (lk_cpu k)) ;;;
  ret old.
Definition acquire_record (c l : nat) : M lstate unit := set_lock l (fun k => MkLk (locked k) (Some c)).

Fixpoint spin (fuel : nat) (l : nat) : M lstate unit :=
  match fuel with
  | O => nofuel
  | S fuel => let* r := xchg l 1 in if negb (r =? 0) then spin fuel l else ret tt
  end.

Definition acquire (fuel c l : nat) : M lstate unit :=
  acquire_enter c l ;;;
  spin fuel l ;;;
  acquire_record c l.

(** [release] up to the store that frees the lock, and that store. *)
Definition release_enter (c l : nat) : M lstate unit :=
  let* h := holding c l in
  if negb h then panic "release" else
  set_lock l (fun k => MkLk (locked k) None).
Definition unlock (l : nat) : M lstate unit := set_lock l (fun k => MkLk 0 (lk_cpu k)).

Definition release (c l : nat) : M lstate unit :=
  release_enter c l ;;;
  unlock l ;;;
  popcli c.

(** The saved return addresses on the stack of a caller; [mem] reads a word. *)
Fixpoint getcallerpcs_loop (n : nat) (ebp : Z) (mem : Z -> Z) : list Z :=
  match n with
  | O => []
  | S n =>
      if (ebp =? 0) || (ebp <? 0x80000000) || (ebp =? 0xffffffff) then replicate (S n) 0
      else mem (u32 (ebp + 4)) :: getcallerpcs_loop n (mem ebp) mem
  end.
Definition getcallerpcs (v : Z) (mem : Z -> Z) : list Z := getcallerpcs_loop 10 (u32 (v - 8)) mem.

(** ** Interleavings *)

(** Where a CPU is: outside the code, holding [h]; spinning for [l]; past the
    exchange; in [release] before and after the store that frees [l]. *)
Inductive phase : Type :=
  | Run (h : list nat)
  | Spinning (h : list nat) (l : nat)
  | Taken (h : list nat) (l : nat)
  | Dropping (h : list nat) (l : nat)
  | Dropped (h : list nat).

Record config : Type := MkC { c_st : lstate; c_ph : nat -> phase }.

(** The kernel's locks are numbered below this. *)
Definition NLOCKS : nat := 1024.

Inductive lstep : config -> config -> Prop :=
  | ls_enter c l h s s' ph :
      ph c = Run h -> (l < NLOCKS)%nat -> acquire_enter c l s = Ok tt s' ->
      lstep (MkC s ph) (MkC s' (fupd c (Spinning h l) ph))
  | ls_spin c l h r s s' ph :
      ph c = Spinning h l -> xchg l 1 s = Ok r s' -> r <> 0 -> lstep (MkC s ph) (MkC s' ph)
  | ls_take c l h s s' ph :
      ph c = Spinning h l -> xchg l 1 s = Ok 0 s' -> lstep (MkC s ph) (MkC s' (fupd c (Taken h l) ph))
  | ls_record c l h s s' ph :
      ph c = Taken h l -> acquire_record c l s = Ok tt s' -> lstep (MkC s ph) (MkC s' (fupd c (Run (l :: h)) ph))
  | ls_release c l h s s' ph :
      ph c = Run h -> release_enter c l s = Ok tt s' ->
      lstep (MkC s ph) (MkC s' (fupd c (Dropping (filter (fun x => x <> l) h) l) ph))
  | ls_unlock c l h s s' ph :
      ph c = Dropping h l -> unlock l s = Ok tt s' -> lstep (MkC s ph) (MkC s' (fupd c (Dropped h) ph))
  | ls_pop c h s s' ph :
      ph c = Dropped h -> popcli c s = Ok tt s' -> lstep (MkC s ph) (MkC s' (fupd c (Run h) ph)).

(** All locks free, no CPU in the code, interrupts as in [i0]. *)
Definition linit (i0 : nat -> bool) : config :=
  MkC (MkL (fun c => MkCpu 0 false (i0 c)) (fun _ => MkLk 0 None)) (fun _ => Run []).

Inductive reachable (i0 : nat -> bool) : config -> Prop :=
  | r_init : reachable i0 (linit i0)
  | r_step x y : reachable i0 x -> lstep x y -> reachable i0 y.

(** ** The invariant *)

(** The locks recorded as the CPU's, and the lock whose [locked] word it owns
    without being recorded. *)
Definition held_by (p : phase) : list nat :=
  match p with Run h | Spinning h _ | Taken h _ | Dropping h _ | Dropped h => h end.
Definition pending (p : phase) : option nat :=
  match p with Taken _ l | Dropping _ l => Some l | _ => None end.
Definition owns (p : phase) (l : nat) : Prop := l ∈ held_by p \/ pending p = Some l.
Definition depth (p : phase) : nat :=
  match p with Run h => length h | p => S (length (held_by p)) end.

(** A CPU's nesting count and interrupt flag follow from its depth. *)
Definition cpu_ok (i0 : bool) (n : nat) (x : cpu_t) : Prop :=
  ncli x = Z.of_nat n /\ match n with O => ifl x = i0 | S _ => ifl x = false /\ intena x = i0 end.

Record linv (i0 : nat -> bool) (x : config) : Prop := {
  li_cpu : forall c, cpu_ok (i0 c) (depth (c_ph x c)) (cpu_of (c_st x) c);
  li_locked : forall l, locked (lock_of (c_st x) l) = 0 \/ locked (lock_of (c_st x) l) = 1;
  li_owned : forall l, locked (lock_of (c_st x) l) <> 0 <-> exists c, owns (c_ph x c) l;
  li_rec : forall l c, lk_cpu (lock_of (c_st x) l) = Some c <-> l ∈ held_by (c_ph x c);
  li_one : forall l c c', owns (c_ph x c) l -> owns (c_ph x c') l -> c = c';
  li_nodup : forall c, NoDup (held_by (c_ph x c)) /\ forall l, owns (c_ph x c) l -> (l < NLOCKS)%nat;
  li_pend : forall c l, pending (c_ph x c) = Some l -> l ∉ held_by (c_ph x c);
  li_spin : forall c h l, c_ph x c = Spinning h l -> (l < NLOCKS)%nat /\ l ∉ h
}.

Lemma fupd_eq {A} i (x : A) f : fupd i x f i = x.
Proof. unfold fupd. by rewrite decide_True. Qed.
Lemma fupd_ne {A} i (x : A) f j : j <> i -> fupd i x f j = f j.
Proof. intros. unfold fupd. by rewrite decide_False. Qed.

(** Only CPU [c]'s own fields change, to depth [n]. *)
Definition at_depth (c : nat) (i : bool) (n : nat) (s s' : lstate) : Prop :=
  lock_of s' = lock_of s /\ (forall c', c' <> c -> cpu_of s' c' = cpu_of s c') /\ cpu_ok i n (cpu_of s' c).

Lemma at_depth_trans c i n n' s1 s2 s3 : at_depth c i n s1 s2 -> at_depth c i n' s2 s3 -> at_depth c i n' s1 s3.
Proof.
  intros (H1 & H2 & _) (H3 & H4 & H5). split; [congruence|]. split; [|done].
  intros c' Hc. rewrite H4, H2 by done. done.
Qed.

Lemma pushcli_wp c i n s (Q : unit -> lstate -> Prop) :
  cpu_ok i n (cpu_of s c) -> Z.of_nat n < 2 ^ 30 -> (forall s', at_depth c i (S n) s s' -> Q tt s') -> wp (pushcli c) Q s.
Proof.
  intros [Hn Hi] Hlt HQ. unfold pushcli, cli, get_cpu, set_cpu. wp_go. cbn. rewrite fupd_eq. cbn. rewrite Hn.
  destruct n as [|n]; cbn [Z.of_nat Z.eqb when]; wp_go; cbn; apply HQ; (split; [done|]); (split; [intros c' Hc; cbn; by rewrite !fupd_ne|]).
  - repeat (cbn; rewrite fupd_eq). cbn. done.
  - repeat (cbn -[Z.of_nat]; rewrite fupd_eq). cbn -[Z.of_nat]. destruct Hi as [_ Hi]. split; [cbn [ncli]; rewrite s32_small; lia|]. done.
Qed.

Lemma popcli_wp c i n s (Q : unit -> lstate -> Prop) :
  cpu_ok i (S n) (cpu_of s c) -> Z.of_nat n < 2 ^ 30 -> (forall s', at_depth c i n s s' -> Q tt s') -> wp (popcli c) Q s.
Proof.
  intros (Hn & Hf & Hi) Hlt HQ. unfold popcli, sti, get_cpu, set_cpu. wp_go. rewrite Hf. wp_go.
  assert (s32 (ncli (cpu_of s c) - 1) = Z.of_nat n) as En by (rewrite s32_small; lia).
  repeat (cbn -[Z.of_nat]; rewrite fupd_eq). cbn -[Z.of_nat]. rewrite En, (proj2 (Z.ltb_ge _ _)) by lia. wp_go.
  repeat (cbn -[Z.of_nat]; rewrite fupd_eq). cbn -[Z.of_nat]. rewrite ?En, ?Hi.
  destruct (Z.of_nat n =? 0) eqn:E, i eqn:Ei; zbool; cbn [andb when]; wp_go; apply HQ;
    (split; [done|]); (split; [intros c' Hc; cbn; by rewrite !fupd_ne|]);
    repeat (cbn -[Z.of_nat]; rewrite fupd_eq); (split; [done|]); destruct n; cbn; rewrite ?Hf, ?Hi; done || lia.
Qed.

Definition holds (c l : nat) (s : lstate) : bool :=
  negb (locked (lock_of s l) =? 0) && bool_decide (lk_cpu (lock_of s l) = Some c).

Lemma holding_wp c l i n s (Q : bool -> lstate -> Prop) :
  cpu_ok i n (cpu_of s c) -> Z.of_nat n < 2 ^ 30 -> (forall s', at_depth c i n s s' -> Q (holds c l s) s') -> wp (holding c l) Q s.
Proof.
  intros Hc Hlt HQ. unfold holding, get_lock. wp_go. eapply pushcli_wp; [done|lia|]. intros s1 H1. wp_go.
  eapply popcli_wp; [apply H1|lia|]. intros s2 H2. wp_go.
  assert (holds c l s1 = holds c l s) as E by (unfold holds; by rewrite (proj1 H1)).
  unfold holds in E at 1. rewrite E. apply HQ. by eapply at_depth_trans.
Qed.

Lemma acquire_enter_wp c l i n s (Q : unit -> lstate -> Prop) :
  cpu_ok i n (cpu_of s c) -> Z.of_nat n + 1 < 2 ^ 30 -> holds c l s = false ->
  (forall s', at_depth c i (S n) s s' -> Q tt s') -> wp (acquire_enter c l) Q s.
Proof.
  intros Hc Hlt Hh HQ. unfold acquire_enter. wp_go. eapply pushcli_wp; [done|lia|]. intros s1 H1. wp_go.
  eapply holding_wp; [apply H1|lia|]. intros s2 H2.
  assert (holds c l s1 = false) as -> by (rewrite <- Hh; unfold holds; by rewrite (proj1 H1)).
  wp_go. apply HQ. by eapply at_depth_trans.
Qed.

Lemma acquire_enter_panic c l i n s :
  cpu_ok i n (cpu_of s c) -> Z.of_nat n + 1 < 2 ^ 30 -> holds c l s = true -> acquire_enter c l s = Panic "acquire".
Proof.
  intros Hc Hlt Hh. unfold acquire_enter, bind at 1.
  assert (wp (pushcli c) (fun _ s' => at_depth c i (S n) s s') s) as (u & s1 & E1 & H1)%wp_ok
    by (eapply pushcli_wp; [done|lia|done]).
  rewrite E1. cbn [obind]. unfold bind.
  assert (wp (holding c l) (fun r s' => r = holds c l s1 /\ at_depth c i (S n) s1 s') s1) as (r & s2 & E2 & -> & H2)%wp_ok
    by (eapply holding_wp; [apply H1|lia|done]).
  rewrite E2. cbn [obind]. assert (holds c l s1 = true) as -> by (rewrite <- Hh; unfold holds; by rewrite (proj1 H1)). done.
Qed.

Lemma release_enter_outcome c l i n s :
  cpu_ok i n (cpu_of s c) -> Z.of_nat n < 2 ^ 30 ->
  if holds c l s then exists s', release_enter c l s = Ok tt s' /\ cpu_ok i n (cpu_of s' c) /\
    (forall c', c' <> c -> cpu_of s' c' = cpu_of s c') /\
    lock_of s' = fupd l (MkLk (locked (lock_of s l)) None) (lock_of s)
  else release_enter c l s = Panic "release".
Proof.
  intros Hc Hlt. unfold release_enter, bind.
  assert (wp (holding c l) (fun r s' => r = holds c l s /\ at_depth c i n s s') s) as (r & s2 & E2 & -> & H1 & H2 & H3)%wp_ok
    by (eapply holding_wp; [done|lia|done]).
  rewrite E2. cbn [obind]. destruct (holds c l s); [|done]. cbn. eexists. split; [reflexivity|]. cbn. rewrite H1. done.
Qed.

(** ** Preservation *)

Lemma depth_small i0 x c : linv i0 x -> (length (held_by (c_ph x c)) <= NLOCKS)%nat.
Proof.
  intros Hi. destruct (li_nodup _ _ Hi c) as [Hnd Hlt].
  rewrite <- (length_seq NLOCKS 0). apply submseteq_length, NoDup_submseteq; [done|].
  intros l Hl. apply elem_of_seq. specialize (Hlt l). unfold owns in Hlt. split; [lia|]. cbn. apply Hlt. by left.
Qed.

Lemma depth_bound i0 x c : linv i0 x -> Z.of_nat (depth (c_ph x c)) + 1 < 2 ^ 30.
Proof.
  intros Hi. pose proof (depth_small i0 x c Hi) as H. assert (Z.of_nat NLOCKS = 1024) as E by done.
  assert (depth (c_ph x c) <= S (length (held_by (c_ph x c))))%nat by (destruct (c_ph x c); cbn; lia). lia.
Qed.

Lemma holds_held i0 x c l : linv i0 x -> holds c l (c_st x) = true <-> l ∈ held_by (c_ph x c).
Proof.
  intros Hi. unfold holds. rewrite andb_true_iff, negb_true_iff, Z.eqb_neq, bool_decide_eq_true, (li_rec _ _ Hi).
  split; [tauto|]. intros Hl. split; [|done]. apply (li_owned _ _ Hi). exists c. by left.
Qed.

(** A step of CPU [c] that leaves the locks alone. *)
Lemma linv_same i0 s ph c p s' :
  linv i0 (MkC s ph) -> at_depth c (i0 c) (depth p) s s' -> held_by p = held_by (ph c) -> pending p = pending (ph c) ->
  (forall h l, p = Spinning h l -> (l < NLOCKS)%nat /\ l ∉ h) -> linv i0 (MkC s' (fupd c p ph)).
Proof.
  intros [H1 H2 H3 H4 H5 H6 H7 H8] (El & Ec & Hc) Eh Ep Hsp. cbn in *.
  assert (forall c', held_by (fupd c p ph c') = held_by (ph c') /\ pending (fupd c p ph c') = pending (ph c')) as Hf.
  { intros c'. destruct (decide (c' = c)) as [->|Hne]; [by rewrite fupd_eq|by rewrite fupd_ne]. }
  assert (forall c' l, owns (fupd c p ph c') l <-> owns (ph c') l) as Ho.
  { intros c' l. unfold owns. by destruct (Hf c') as [-> ->]. }
  split; cbn; rewrite ?El.
  - intros c'. destruct (decide (c' = c)) as [->|Hne]; [by rewrite fupd_eq|]. rewrite fupd_ne, Ec by done. apply H1.
  - done.
  - intros l. rewrite H3. by setoid_rewrite Ho.
  - intros l c'. destruct (Hf c') as [-> _]. apply H4.
  - intros l c1 c2. rewrite !Ho. apply H5.
  - intros c'. destruct (Hf c') as [E1 E2]. rewrite E1. destruct (H6 c') as [Hn Hl]. split; [done|]. intros l. rewrite Ho. apply Hl.
  - intros c' l. destruct (Hf c') as [-> ->]. apply H7.
  - intros c' h l. destruct (decide (c' = c)) as [->|Hne]; [rewrite fupd_eq; apply Hsp|rewrite fupd_ne by done; apply H8].
Qed.

(** A step of CPU [c] on lock [l0], which no other CPU owns. *)
Lemma linv_lock i0 s ph c p s' l0 :
  linv i0 (MkC s ph) -> cpu_ok (i0 c) (depth p) (cpu_of s' c) -> (forall c', c' <> c -> cpu_of s' c' = cpu_of s c') ->
  (forall l, l <> l0 -> lock_of s' l = lock_of s l) ->
  (forall l, l <> l0 -> (l ∈ held_by p <-> l ∈ held_by (ph c)) /\ (pending p = Some l <-> pending (ph c) = Some l)) ->
  (forall c', c' <> c -> ~ owns (ph c') l0) -> (l0 < NLOCKS)%nat -> NoDup (held_by p) ->
  locked (lock_of s' l0) = 0 /\ ~ owns p l0 \/ locked (lock_of s' l0) = 1 /\ owns p l0 ->
  (forall c', lk_cpu (lock_of s' l0) = Some c' <-> c' = c /\ l0 ∈ held_by p) ->
  (pending p = Some l0 -> l0 ∉ held_by p) -> (forall h l, p <> Spinning h l) ->
  linv i0 (MkC s' (fupd c p ph)).
Proof.
  intros [H1 H2 H3 H4 H5 H6 H7 H8] Hc Ec El Hl Hex Hlt Hnd Hown Hrec Hp Hsp. cbn in *.
  assert (forall l, l <> l0 -> owns p l <-> owns (ph c) l) as Ho.
  { intros l Hne. unfold owns. destruct (Hl l Hne). tauto. }
  assert (forall c' l, l <> l0 -> owns (fupd c p ph c') l <-> owns (ph c') l) as Hof.
  { intros c' l Hne. destruct (decide (c' = c)) as [->|]; [rewrite fupd_eq; by apply Ho|by rewrite fupd_ne]. }
  assert (forall c', owns (fupd c p ph c') l0 -> c' = c) as Hof0.
  { intros c' Ho0. destruct (decide (c' = c)) as [|Hne]; [done|]. rewrite fupd_ne in Ho0 by done. by destruct (Hex c' Hne). }
  split; cbn.
  - intros c'. destruct (decide (c' = c)) as [->|Hne]; [by rewrite fupd_eq|]. rewrite fupd_ne, Ec by done. apply H1.
  - intros l. destruct (decide (l = l0)) as [->|Hne]; [tauto|]. rewrite El by done. apply H2.
  - intros l. destruct (decide (l = l0)) as [->|Hne].
    + split.
      * intros Hn. exists c. rewrite fupd_eq. destruct Hown as [[? _]|[_ ?]]; [congruence|done].
      * intros (c' & Ho'). pose proof (Hof0 c' Ho') as ->. rewrite fupd_eq in Ho'. destruct Hown as [[_ ?]|[-> _]]; done.
    + rewrite El, H3 by done. by setoid_rewrite Hof.
  - intros l c'. destruct (decide (l = l0)) as [->|Hne].
    + rewrite Hrec. destruct (decide (c' = c)) as [->|Hc']; [rewrite fupd_eq; tauto|]. rewrite fupd_ne by done.
      split; [by intros [? _]|]. intros Hin. destruct (Hex c' Hc'). by left.
    + rewrite El, H4 by done. destruct (decide (c' = c)) as [->|Hc']; [rewrite fupd_eq; symmetry; by apply Hl|by rewrite fupd_ne].
  - intros l c1 c2. destruct (decide (l = l0)) as [->|Hne].
    + intros Ha Hb. by rewrite (Hof0 _ Ha), (Hof0 _ Hb).
    + rewrite !Hof by done. apply H5.
  - intros c'. destruct (decide (c' = c)) as [->|Hc'].
    + rewrite fupd_eq. split; [done|]. intros l Hol. destruct (decide (l = l0)) as [->|Hne]; [done|]. apply (H6 c), Ho; done.
    + rewrite fupd_ne by done. apply H6.
  - intros c' l. destruct (decide (c' = c)) as [->|Hc']; [|rewrite fupd_ne by done; apply H7].
    rewrite fupd_eq. destruct (decide (l = l0)) as [->|Hne]; [done|]. destruct (Hl l Hne) as [Ha Hb]. rewrite Ha, Hb. apply H7.
  - intros c' h l. destruct (decide (c' = c)) as [->|Hne]; [rewrite fupd_eq; intros E; by destruct (Hsp h l)|rewrite fupd_ne by done; apply H8].
Qed.

Lemma linv_ext i0 s ph s' :
  linv i0 (MkC s ph) -> (forall l, lock_of s' l = lock_of s l) -> cpu_of s' = cpu_of s -> linv i0 (MkC s' ph).
Proof.
  intros [H1 H2 H3 H4 H5 H6 H7 H8] El Ec. split; cbn in *; rewrite ?Ec; try done; intros l; rewrite El; auto.
Qed.

Lemma filter_length_one (l : nat) h : NoDup h -> l ∈ h -> S (length (filter (fun x => x <> l) h)) = length h.
Proof.
  induction h as [|x h IH]; intros Hnd Hin; [set_solver|]. apply NoDup_cons in Hnd as [Hx Hnd]. rewrite filter_cons.
  destruct (decide (x = l)) as [->|Hne].
  - rewrite decide_False by naive_solver. cbn. f_equal. f_equal. apply filter_all. intros y Hy. intros ->. done.
  - rewrite decide_True by done. cbn [length]. f_equal. apply IH; [done|set_solver].
Qed.

Lemma linv_init i0 : linv i0 (linit i0).
Proof.
  assert (forall l, ~ owns (Run []) l) as Hno by (intros l [Hl|Hl]; [set_solver|done]).
  split; cbn; try done.
  - auto.
  - intros l. split; [done|]. intros [c Hc]. by destruct (Hno l).
  - intros l c. split; [done|]. set_solver.
  - intros l c c' Hc. by destruct (Hno l).
  - intros c. split; [apply NoDup_nil_2|]. intros l Hl. by destruct (Hno l).
Qed.

(** What the invariant says of the CPU that owns [l]. *)
Lemma only_owner i0 s ph c l : linv i0 (MkC s ph) -> owns (ph c) l -> forall c', c' <> c -> ~ owns (ph c') l.
Proof. intros Hi Hc c' Hne Hc'. apply Hne. by apply (li_one _ _ Hi l c' c). Qed.

(** ** Every step keeps the invariant *)

Ltac in_phase Hi c Hp Hc Hb :=
  pose proof (li_cpu _ _ Hi c) as Hc; cbn in Hc; rewrite Hp in Hc;
  pose proof (depth_bound _ _ c Hi) as Hb; cbn in Hb; rewrite Hp in Hb; cbn [depth held_by] in Hc, Hb.

Section steps.
Context (i0 : nat -> bool) (c l : nat) (h : list nat) (r : Z) (s s' : lstate) (ph : nat -> phase).
Hypothesis Hi : linv i0 (MkC s ph).

Lemma linv_enter : ph c = Run h -> (l < NLOCKS)%nat -> acquire_enter c l s = Ok tt s' -> linv i0 (MkC s' (fupd c (Spinning h l) ph)).
Proof.
  intros Hp Hl E. in_phase Hi c Hp Hc Hb.
  destruct (holds c l s) eqn:Eh.
  { erewrite acquire_enter_panic in E by done. done. }
  assert (wp (acquire_enter c l) (fun _ s1 => at_depth c (i0 c) (S (length h)) s s1) s) as Hw
      by by eapply acquire_enter_wp.
  unfold wp in Hw. rewrite E in Hw. apply (linv_same i0 s); try done; try (by rewrite Hp).
  intros h' l' [= <- <-]. split; [done|]. intros Hin.
  assert (holds c l s = true) as Ht by (apply (holds_held _ _ c l Hi); cbn; by rewrite Hp). congruence.
Qed.

Lemma linv_spin : ph c = Spinning h l -> xchg l 1 s = Ok r s' -> r <> 0 -> linv i0 (MkC s' ph).
Proof.
  intros Hp E Hr. in_phase Hi c Hp Hc Hb.
  unfold xchg, get_lock, set_lock, bind in E. cbn in E. injection E as <- <-.
  destruct (li_locked _ _ Hi l) as [E0|E1]; [by cbn in E0|]. cbn in E1. eapply linv_ext; [exact Hi| |done].
  intros j. cbn. unfold fupd. case_decide as Ej; [subst j|done]. rewrite <- E1. by destruct (lock_of s l).
Qed.

Lemma linv_take : ph c = Spinning h l -> xchg l 1 s = Ok 0 s' -> linv i0 (MkC s' (fupd c (Taken h l) ph)).
Proof.
  intros Hp E. in_phase Hi c Hp Hc Hb.
  unfold xchg, get_lock, set_lock, bind in E. cbn in E. injection E as E0 <-.
  assert (forall c', ~ owns (ph c') l) as Hfree.
  { intros c' Ho. assert (locked (lock_of s l) <> 0) as Hn by (apply (li_owned _ _ Hi l); by exists c'). done. }
  destruct (li_spin _ _ Hi c h l Hp) as [Hlt Hnh].
  apply (linv_lock i0 s ph c (Taken h l) _ l); cbn; try done.
  - intros l' Hne. by rewrite fupd_ne.
  - intros l' Hne. rewrite Hp. cbn. split; [done|]. split; [by intros [= ->]|done].
  - pose proof (li_nodup _ _ Hi c) as [Hnd _]. cbn in Hnd. by rewrite Hp in Hnd.
  - right. rewrite fupd_eq. split; [done|]. by right.
  - intros c'. rewrite fupd_eq. cbn. rewrite (li_rec _ _ Hi l c'). cbn. split; [|by intros [_ ?]].
      intros Hin. destruct (Hfree c'). by left.
Qed.

Lemma linv_record : ph c = Taken h l -> acquire_record c l s = Ok tt s' -> linv i0 (MkC s' (fupd c (Run (l :: h)) ph)).
Proof.
  intros Hp E. in_phase Hi c Hp Hc Hb.
  injection E as <-. destruct (li_nodup _ _ Hi c) as [Hnd Hlt]. cbn in Hnd, Hlt. rewrite Hp in Hnd, Hlt.
  assert (owns (ph c) l) as Ho by (rewrite Hp; by right).
  assert (l ∉ h) as Hnh by (pose proof (li_pend _ _ Hi c l) as Hq; cbn in Hq; rewrite Hp in Hq; by apply Hq).
  apply (linv_lock i0 s ph c (Run (l :: h)) _ l); cbn; try done.
  - intros l' Hne. by rewrite fupd_ne.
  - intros l' Hne. rewrite Hp. cbn. split; [set_solver|]. split; [done|by intros [= ->]].
  - by eapply only_owner.
  - apply Hlt. by right.
  - by apply NoDup_cons.
  - right. rewrite fupd_eq. cbn. split; [|left; set_solver].
      assert (locked (lock_of s l) <> 0) as Hn by (apply (li_owned _ _ Hi l); by exists c).
      destruct (li_locked _ _ Hi l); done.
  - intros c'. rewrite fupd_eq. cbn. split; [intros [= ->]; set_solver|by intros [-> _]].
Qed.

Lemma linv_release : ph c = Run h -> release_enter c l s = Ok tt s' -> linv i0 (MkC s' (fupd c (Dropping (filter (fun x => x <> l) h) l) ph)).
Proof.
  intros Hp E. in_phase Hi c Hp Hc Hb.
  pose proof (release_enter_outcome c l (i0 c) (length h) s Hc ltac:(lia)) as Ho.
  destruct (holds c l s) eqn:Eh; [|congruence]. destruct Ho as (s1 & E1 & Hc1 & Hoc & Hlk).
  rewrite E in E1. injection E1 as <-. apply (holds_held _ _ c l Hi) in Eh. cbn in Eh. rewrite Hp in Eh. cbn in Eh.
  destruct (li_nodup _ _ Hi c) as [Hnd Hlt]. cbn in Hnd, Hlt. rewrite Hp in Hnd, Hlt.
  assert (owns (ph c) l) as Hol by (rewrite Hp; by left).
  apply (linv_lock i0 s ph c (Dropping (filter (fun x => x <> l) h) l) _ l); try done.
  - cbn [depth held_by]. by rewrite filter_length_one.
  - intros l' Hne. by rewrite Hlk, fupd_ne.
  - intros l' Hne. rewrite Hp. cbn. rewrite list_elem_of_filter. split; [tauto|]. split; [by intros [= ->]|done].
  - by eapply only_owner.
  - apply Hlt. by left.
  - by apply NoDup_filter.
  - right. rewrite Hlk, fupd_eq. cbn. split; [|by right].
      assert (locked (lock_of s l) <> 0) as Hn by (apply (li_owned _ _ Hi l); by exists c).
      destruct (li_locked _ _ Hi l); done.
  - intros c'. rewrite Hlk, fupd_eq. cbn. rewrite list_elem_of_filter. split; [done|]. tauto.
  - cbn. intros _. rewrite list_elem_of_filter. tauto.
Qed.

Lemma linv_unlock : ph c = Dropping h l -> unlock l s = Ok tt s' -> linv i0 (MkC s' (fupd c (Dropped h) ph)).
Proof.
  intros Hp E. in_phase Hi c Hp Hc Hb.
  injection E as <-. destruct (li_nodup _ _ Hi c) as [Hnd Hlt]. cbn in Hnd, Hlt. rewrite Hp in Hnd, Hlt.
  assert (owns (ph c) l) as Ho by (rewrite Hp; by right).
  assert (l ∉ h) as Hnh by (pose proof (li_pend _ _ Hi c l) as Hq; cbn in Hq; rewrite Hp in Hq; by apply Hq).
  apply (linv_lock i0 s ph c (Dropped h) _ l); cbn; try done.
  - intros l' Hne. by rewrite fupd_ne.
  - intros l' Hne. rewrite Hp. cbn. split; [done|]. split; [done|by intros [= ->]].
  - by eapply only_owner.
  - apply Hlt. by right.
  - left. rewrite fupd_eq. split; [done|]. by intros [?|?].
  - intros c'. rewrite fupd_eq. cbn. rewrite (li_rec _ _ Hi l c'). cbn. split; [|tauto].
      intros Hin. exfalso. assert (c' = c) as ->; [|by rewrite Hp in Hin].
      apply (li_one _ _ Hi l); [by left|done].
Qed.

Lemma linv_pop : ph c = Dropped h -> popcli c s = Ok tt s' -> linv i0 (MkC s' (fupd c (Run h) ph)).
Proof.
  intros Hp E. in_phase Hi c Hp Hc Hb.
  assert (wp (popcli c) (fun _ s1 => at_depth c (i0 c) (length h) s s1) s) as Hw by (eapply popcli_wp; [done|lia|done]).
  unfold wp in Hw. rewrite E in Hw. apply (linv_same i0 s); try done; by rewrite Hp.
Qed.

End steps.

Lemma linv_step i0 x y : linv i0 x -> lstep x y -> linv i0 y.
Proof.
  intros Hi Hst. destruct Hst; eauto using linv_enter, linv_spin, linv_take, linv_record, linv_release, linv_unlock, linv_pop.
Qed.

Lemma reachable_inv i0 x : reachable i0 x -> linv i0 x.
Proof. induction 1 as [|x y _ IH Hst]; [apply linv_init|by eapply linv_step]. Qed.

(** C13. Mutual exclusion and the contract of [acquire] and [release], in every
    interleaving of any number of CPUs: no two CPUs own a lock; a CPU outside the
    lock code runs with interrupts as they were when it started if it holds no lock,
    and off otherwise; [acquire] panics exactly on a lock the CPU holds, and
    [release] exactly on one it does not. *)
Theorem spinlock_contract i0 x :
  reachable i0 x ->
  (forall l c c', owns (c_ph x c) l -> owns (c_ph x c') l -> c = c') /\
  forall c h, c_ph x c = Run h ->
    ifl (cpu_of (c_st x) c) = (if decide (h = []) then i0 c else false) /\
    forall l, (l ∈ h -> acquire_enter c l (c_st x) = Panic "acquire" /\ exists s, release_enter c l (c_st x) = Ok tt s) /\
              (l ∉ h -> release_enter c l (c_st x) = Panic "release" /\ exists s, acquire_enter c l (c_st x) = Ok tt s).
Proof.
  intros Hr. apply reachable_inv in Hr as Hi. split; [intros l c c'; apply (li_one _ _ Hi)|].
  intros c h Hp. pose proof (li_cpu _ _ Hi c) as Hc. rewrite Hp in Hc. cbn in Hc. split.
  { destruct Hc as [_ Hf]. destruct h; cbn in Hf; case_decide; done || tauto. }
  pose proof (depth_bound _ _ c Hi) as Hb. rewrite Hp in Hb. cbn [depth] in Hb.
  intros l. pose proof (holds_held _ _ c l Hi) as Hh. rewrite Hp in Hh. cbn in Hh.
  pose proof (release_enter_outcome c l (i0 c) (length h) (c_st x) Hc ltac:(lia)) as Ho. split; intros Hl.
  - assert (holds c l (c_st x) = true) as E by by apply Hh. rewrite E in Ho. destruct Ho as (s & Ho & _).
    split; [|by exists s]. by eapply acquire_enter_panic.
  - assert (holds c l (c_st x) = false) as E by (apply not_true_iff_false; by rewrite Hh). rewrite E in Ho.
    split; [done|].
    assert (wp (acquire_enter c l) (fun _ _ => True) (c_st x)) as (u & s & Es & _)%wp_ok
      by (eapply acquire_enter_wp; [done|lia|done|done]).
    exists s. by destruct u.
Qed.

(** CPU 0 takes lock 7 while CPU 1 waits for it. *)
Lemma demo_contended : exists x, reachable (fun _ => true) x /\ c_ph x 0%nat = Taken [] 7 /\ c_ph x 1%nat = Spinning [] 7.
Proof.
  assert (7 < NLOCKS)%nat as H7 by (unfold NLOCKS; lia).
  assert (forall c s, cpu_ok true 0 (cpu_of s c) -> holds c 7 s = false ->
            exists s', acquire_enter c 7 s = Ok tt s' /\ at_depth c true 1 s s') as Hen.
  { intros c s Hc Hh. assert (wp (acquire_enter c 7) (fun _ s' => at_depth c true 1 s s') s) as (u & s' & E & Hs)%wp_ok
      by (eapply acquire_enter_wp; [done|lia|done|done]). destruct u. by exists s'. }
  destruct (Hen 0%nat (c_st (linit (fun _ => true)))) as (s1 & E1 & L1 & C1 & _); [done|done|].
  destruct (Hen 1%nat s1) as (s2 & E2 & L2 & _ & _); [by rewrite C1|unfold holds; by rewrite L1|].
  assert (locked (lock_of s2 7) = 0) as Hz by by rewrite L2, L1.
  eexists. split; [|split].
  - eapply r_step; [eapply r_step; [eapply r_step; [apply r_init|]|]|].
    + eapply (ls_enter 0 7 []); [reflexivity|exact H7|exact E1].
    + eapply (ls_enter 1 7 []); [reflexivity|exact H7|exact E2].
    + eapply (ls_take 0 7 []); [reflexivity|]. unfold xchg, get_lock, set_lock, bind. cbn. rewrite Hz. reflexivity.
  - reflexivity.
  - reflexivity.
Qed.

Lemma spinlock_contract_witness : exists x, reachable (fun _ => true) x /\ c_ph x 0%nat = Taken [] 7 /\
  (forall l c c', owns (c_ph x c) l -> owns (c_ph x c') l -> c = c').
Proof.
  destruct demo_contended as (x & Hr & H0 & _). exists x. split; [exact Hr|]. split; [exact H0|].
  apply (spinlock_contract (fun _ => true) x Hr).
Defined.
