(* ===== verification/Machine.v ===== *)
(** * The x86 machine as the kernel sees it

    The constants and address macros of param.h, memlayout.h and mmu.h,
    physical memory as 4096-byte frames of 32-bit words, the paging registers
    and the set of spinlocks held by the executing CPU.  [P2V]/[V2P] are the
    kernel's direct map: a kernel pointer to a page is [P2V] of its frame. *)

From S2P Require Import Prelude Monad.

(** ** Constants *)

(** param.h *)
Abbreviation NPROC := (64)%Z.
Abbreviation KSTACKSIZE := (4096)%Z.
Definition NCPU : Z := 8.
Abbreviation NOFILE := (16)%Z.
Definition NPRIO : Z := 4.
Abbreviation QUANTUM_BASE := (2)%Z.
Definition AGING_INTERVAL : Z := 5.
Definition AGING_TICKS : Z := 10.

(** memlayout.h *)
Definition EXTMEM : Z := 0x100000.
Definition PHYSTOP : Z := 0xE000000.
Definition DEVSPACE : Z := 0xFE000000.
Definition KERNBASE : Z := 0x80000000.
Definition KERNLINK : Z := KERNBASE + EXTMEM.
Definition V2P (a : Z) : Z := u32 (a - KERNBASE).
Definition P2V (a : Z) : Z := u32 (a + KERNBASE).

(** mmu.h *)
Definition PTXSHIFT : Z := 12.
Definition PDXSHIFT : Z := 22.
Definition PGSIZE : Z := 4096.
Abbreviation NPDENTRIES := (1024)%Z.
Abbreviation NPTENTRIES := (1024)%Z.
Definition PDX (va : Z) : Z := Z.land (Z.shiftr va PDXSHIFT) 0x3FF.
Definition PTX (va : Z) : Z := Z.land (Z.shiftr va PTXSHIFT) 0x3FF.
Definition PGADDR (d t o : Z) : Z :=
  u32 (Z.lor (Z.lor (Z.shiftl d PDXSHIFT) (Z.shiftl t PTXSHIFT)) o).
Definition PGROUNDUP (sz : Z) : Z := Z.land (u32 (sz + PGSIZE - 1)) (Z.lnot (PGSIZE - 1)).
Definition PGROUNDDOWN (a : Z) : Z := Z.land a (Z.lnot (PGSIZE - 1)).
Definition PTE_P : Z := 0x001.
Definition PTE_W : Z := 0x002.
Definition PTE_U : Z := 0x004.
Definition PTE_COW : Z := 0x800.
Abbreviation FEC_PR := (0x1)%Z.
Abbreviation FEC_WR := (0x2)%Z.
Abbreviation FEC_U := (0x4)%Z.
Definition PTE_ADDR (pte : Z) : Z := Z.land pte (Z.lnot 0xFFF).
Definition PTE_FLAGS (pte : Z) : Z := Z.land pte 0xFFF.

(** Link-time symbols: [data], the first page of the kernel's writable data,
    [end], the first byte after the kernel, and the address of [forkret].
    kernel.ld links the kernel at [KERNLINK], aligns [data] to a page and puts
    [end] after the data; [main] hands [kinit1] the memory from [end] to 4 MB. *)
Class KernelImage := {
  kernel_data : Z;
  kernel_end : Z;
  kernel_forkret : Z;
  kernel_data_aligned : kernel_data mod PGSIZE = 0;
  kernel_layout : KERNLINK < kernel_data /\ kernel_data <= kernel_end /\
                  kernel_end < KERNBASE + 4 * 1024 * 1024
}.

(** ** Address arithmetic *)

Lemma land_ones_lnot a n : 0 <= n -> Z.land a (Z.lnot (Z.ones n)) = a - a mod 2 ^ n.
Proof.
  intros Hn. rewrite <- Z.ldiff_land, Z.ldiff_ones_r by lia.
  rewrite Z.shiftr_div_pow2, Z.shiftl_mul_pow2 by lia.
  pose proof (Z.div_mod a (2 ^ n)). lia.
Qed.

Lemma PGROUNDDOWN_spec a : PGROUNDDOWN a = a - a mod 4096.
Proof. apply (land_ones_lnot a 12). lia. Qed.

Lemma PTE_ADDR_spec e : PTE_ADDR e = e - e mod 4096.
Proof. apply (land_ones_lnot e 12). lia. Qed.

Lemma PTE_FLAGS_spec e : PTE_FLAGS e = e mod 4096.
Proof. apply (Z.land_ones e 12). lia. Qed.

Lemma PGROUNDUP_spec a :
  0 <= a < 2 ^ 32 - 4095 -> PGROUNDUP a = (a + 4095) - (a + 4095) mod 4096.
Proof.
  intros H. unfold PGROUNDUP. replace (a + PGSIZE - 1) with (a + 4095) by (unfold PGSIZE; lia).
  rewrite u32_small by lia. apply (land_ones_lnot (a + 4095) 12). lia.
Qed.

Lemma PDX_spec va : 0 <= va < 2 ^ 32 -> PDX va = va / 2 ^ 22.
Proof.
  intros H. unfold PDX, PDXSHIFT. rewrite Z.shiftr_div_pow2 by lia.
  rewrite (Z.land_ones _ 10) by lia. apply Z.mod_small.
  split; [apply Z.div_pos; lia | apply Z.div_lt_upper_bound; lia].
Qed.

Lemma PTX_spec va : PTX va = (va / 4096) mod 1024.
Proof.
  unfold PTX, PTXSHIFT. rewrite Z.shiftr_div_pow2 by lia. by rewrite (Z.land_ones _ 10) by lia.
Qed.

(** The page number of a virtual address, and its split in directory and table
    indexes. *)
Definition vpn (va : Z) : Z := va / 4096.

Lemma PDX_vpn va : 0 <= va < 2 ^ 32 -> PDX va = vpn va / 1024.
Proof. intros. rewrite PDX_spec by lia. unfold vpn. rewrite Z.div_div by lia. done. Qed.

Lemma PTX_vpn va : PTX va = vpn va mod 1024.
Proof. apply PTX_spec. Qed.

(** A page-aligned address or'ed with flag bits is their sum. *)
Lemma lor_aligned f fl : 0 <= fl < 4096 -> Z.lor (f * 4096) fl = f * 4096 + fl.
Proof.
  intros H. pose proof (Z.add_lor_land (f * 4096) fl).
  enough (Z.land (f * 4096) fl = 0) by lia.
  apply Z.bits_inj'. intros n Hn. rewrite Z.land_spec, Z.bits_0.
  destruct (decide (n < 12)).
  - change 4096 with (2 ^ 12). rewrite Z.mul_pow2_bits_low by lia. done.
  - rewrite <- (Z.mod_small fl (2 ^ 12)) by lia.
    rewrite Z.mod_pow2_bits_high by lia. apply andb_false_r.
Qed.

(** ** Physical memory *)

(** A frame holds 1024 little-endian words; a frame the map does not list is
    still zero. *)
Abbreviation page := (list Z).
Definition fill_page (w : Z) : page := replicate 1024 w.
#[global] Arguments fill_page : simpl never.
Definition page_of (m : gmap Z page) (f : Z) : page := default (fill_page 0) (m !! f).
Definition word (m : gmap Z page) (f i : Z) : Z := nth (Z.to_nat i) (page_of m f) 0.
Definition readw (m : gmap Z page) (pa : Z) : Z := word m (pa / 4096) (pa mod 4096 / 4).
Definition writew (m : gmap Z page) (pa v : Z) : gmap Z page :=
  <[pa / 4096 := <[Z.to_nat (pa mod 4096 / 4) := u32 v]> (page_of m (pa / 4096))]> m.

Definition wf_mem (m : gmap Z page) : Prop := forall f, length (page_of m f) = 1024%nat.

Lemma length_fill_page w : length (fill_page w) = 1024%nat.
Proof. apply length_replicate. Qed.

Lemma nth_fill_page w i : 0 <= i < 1024 -> nth (Z.to_nat i) (fill_page w) 0 = w.
Proof. intros. unfold fill_page. rewrite nth_lookup, lookup_replicate_2 by lia. done. Qed.

Lemma page_of_insert m f g pg :
  page_of (<[f := pg]> m) g = if decide (f = g) then pg else page_of m g.
Proof. unfold page_of. rewrite lookup_insert. by case_decide. Qed.

Lemma page_of_insert_ne m f g pg : f <> g -> page_of (<[f := pg]> m) g = page_of m g.
Proof. intros. rewrite page_of_insert. by case_decide. Qed.

Lemma page_of_insert_eq m f pg : page_of (<[f := pg]> m) f = pg.
Proof. rewrite page_of_insert. by case_decide. Qed.

Lemma word_insert_ne m f g pg i : f <> g -> word (<[f := pg]> m) g i = word m g i.
Proof. intros. unfold word. by rewrite page_of_insert_ne. Qed.

Lemma wf_mem_insert m f pg : wf_mem m -> length pg = 1024%nat -> wf_mem (<[f := pg]> m).
Proof. intros Hm Hp g. rewrite page_of_insert. by case_decide. Qed.

Lemma split_addr f i :
  0 <= i < 1024 -> (f * 4096 + 4 * i) / 4096 = f /\ (f * 4096 + 4 * i) mod 4096 / 4 = i.
Proof. intros Hi. zdiv. Qed.

Lemma readw_at m f i : 0 <= i < 1024 -> readw m (f * 4096 + 4 * i) = word m f i.
Proof. intros Hi. unfold readw. by destruct (split_addr f i Hi) as [-> ->]. Qed.

Lemma writew_at m f i v :
  0 <= i < 1024 ->
  writew m (f * 4096 + 4 * i) v = <[f := <[Z.to_nat i := u32 v]> (page_of m f)]> m.
Proof. intros Hi. unfold writew. by destruct (split_addr f i Hi) as [-> ->]. Qed.

(** Reading a word after a write to frame [f], index [i]. *)
Lemma word_write m f i v g j :
  wf_mem m -> 0 <= i < 1024 -> 0 <= j ->
  word (<[f := <[Z.to_nat i := u32 v]> (page_of m f)]> m) g j =
  if decide (f = g /\ i = j) then u32 v else word m g j.
Proof.
  intros Hm Hi Hj. unfold word. rewrite page_of_insert. destruct (decide (f = g)) as [<-|Hne].
  - rewrite !nth_lookup. destruct (decide (i = j)) as [<-|Hij].
    + rewrite list_lookup_insert_eq by (rewrite Hm; lia). by rewrite decide_True by done.
    + rewrite list_lookup_insert_ne by lia. by rewrite decide_False by naive_solver.
  - by rewrite decide_False by naive_solver.
Qed.

Lemma wf_mem_writew m pa v : wf_mem m -> wf_mem (writew m pa v).
Proof. intros Hm. apply wf_mem_insert; [done|]. by rewrite length_insert. Qed.

(** ** Machine state *)

(** The kernel's spinlocks; those of sleep-locks are named by the buffer or
    inode they protect. *)
Inductive lock : Type :=
  | LKmem | LVm | LPtable | LTicks | LCons | LFtable | LBcache | LLog | LIcache | LIde
  | LPipe (p : Z) | LSlBuf (i : nat) | LSlInode (i : nat).

#[export] Instance lock_eq_dec : EqDecision lock.
Proof. solve_decision. Defined.

(** [kmem] of kalloc.c. *)
Record kmem_t : Type := MkKmem {
  use_lock : bool;
  freelist : Z;
  refs : gmap Z Z
}.

(** What the executing CPU and the memory code share: the spinlocks held (in
    acquisition order, latest first), the page-table register and the cached
    translations (page number to page-table entry), physical memory, the page
    allocator and the kernel's own page directory. *)
Record mstate : Type := MkM {
  held : list lock;
  cr3 : Z;
  tlb : gmap Z Z;
  mem : gmap Z page;
  kmem : kmem_t;
  kpgdir : Z
}.

Definition set_held (x : list lock) (s : mstate) : mstate :=
  MkM x (cr3 s) (tlb s) (mem s) (kmem s) (kpgdir s).
Definition set_paging (c : Z) (t : gmap Z Z) (s : mstate) : mstate :=
  MkM (held s) c t (mem s) (kmem s) (kpgdir s).
Definition set_mem (x : gmap Z page) (s : mstate) : mstate :=
  MkM (held s) (cr3 s) (tlb s) x (kmem s) (kpgdir s).
Definition set_kmem (x : kmem_t) (s : mstate) : mstate :=
  MkM (held s) (cr3 s) (tlb s) (mem s) x (kpgdir s).
Definition set_kpgdir (x : Z) (s : mstate) : mstate :=
  MkM (held s) (cr3 s) (tlb s) (mem s) (kmem s) x.

(** The contract of spinlock.c that the rest of the kernel uses: [acquire]
    panics on a lock this CPU holds, [release] on one it does not hold. *)
Definition acquire (l : lock) : M mstate unit :=
  let* h := gets held in
  if bool_decide (l ∈ h) then panic "acquire" else modify (set_held (l :: h)).
Definition release (l : lock) : M mstate unit :=
  let* h := gets held in
  if bool_decide (l ∈ h) then modify (set_held (filter (fun x => x <> l) h)) else panic "release".

(** Loads and stores through a kernel pointer to a word, whole-page [memset]
    (string.c fills words with the byte [c] repeated) and whole-page [memmove]. *)
Definition load (va : Z) : M mstate Z := gets (fun s => readw (mem s) (V2P va)).
Definition store (va v : Z) : M mstate unit :=
  modify (fun s => set_mem (writew (mem s) (V2P va) v) s).
Definition fill_word (c : Z) : Z :=
  let c := Z.land c 0xFF in
  Z.lor (Z.lor (Z.lor (Z.shiftl c 24) (Z.shiftl c 16)) (Z.shiftl c 8)) c.
Definition memset_page (va c : Z) : M mstate unit :=
  modify (fun s => set_mem (<[V2P va / 4096 := fill_page (fill_word c)]> (mem s)) s).
Definition memmove_page (dst src : Z) : M mstate unit :=
  modify (fun s => set_mem (<[V2P dst / 4096 := page_of (mem s) (V2P src / 4096)]> (mem s)) s).

(** [lcr3] loads the page-table register and drops every cached translation;
    [invlpg] drops the one of a page. *)
Definition lcr3 (pa : Z) : M mstate unit := modify (set_paging pa ∅).
Definition invlpg (va : Z) : M mstate unit :=
  modify (fun s => set_paging (cr3 s) (delete (vpn va) (tlb s)) s).

(** ** Lemmas on the machine operations *)

(** The kernel pointer to frame [f]. *)
Definition kva (f : Z) : Z := KERNBASE + f * 4096.
Definition NFRAMES : Z := Z.shiftr PHYSTOP PTXSHIFT.

Lemma V2P_kva f o : 0 <= f < NFRAMES -> 0 <= o < 4096 -> V2P (kva f + o) = f * 4096 + o.
Proof.
  unfold V2P, kva, KERNBASE. change NFRAMES with 57344. intros.
  rewrite u32_small by lia. lia.
Qed.

Lemma V2P_kva0 f : 0 <= f < NFRAMES -> V2P (kva f) = f * 4096.
Proof. intros. rewrite <- (Z.add_0_r (kva f)), V2P_kva by lia. lia. Qed.

Lemma P2V_frame f : 0 <= f < NFRAMES -> P2V (f * 4096) = kva f.
Proof.
  unfold P2V, kva, KERNBASE. change NFRAMES with 57344. intros. rewrite u32_small; lia.
Qed.

Lemma kva_nonzero f : 0 <= f -> kva f <> 0.
Proof. unfold kva, KERNBASE. lia. Qed.

Lemma load_word f i (Q : Z -> mstate -> Prop) s :
  0 <= f < NFRAMES -> 0 <= i < 1024 -> Q (word (mem s) f i) s -> wp (load (kva f + 4 * i)) Q s.
Proof. intros Hf Hi HQ. apply wp_gets. rewrite V2P_kva, readw_at by lia. done. Qed.

Lemma store_word f i v (Q : unit -> mstate -> Prop) s :
  0 <= f < NFRAMES -> 0 <= i < 1024 ->
  Q tt (set_mem (<[f := <[Z.to_nat i := u32 v]> (page_of (mem s) f)]> (mem s)) s) ->
  wp (store (kva f + 4 * i) v) Q s.
Proof. intros Hf Hi HQ. apply wp_modify. rewrite V2P_kva, writew_at by lia. done. Qed.

Lemma memset_page_wp f c (Q : unit -> mstate -> Prop) s :
  0 <= f < NFRAMES ->
  Q tt (set_mem (<[f := fill_page (fill_word c)]> (mem s)) s) ->
  wp (memset_page (kva f) c) Q s.
Proof. intros Hf HQ. apply wp_modify. rewrite V2P_kva0, Z.div_mul by lia. done. Qed.

Lemma memmove_page_wp f g (Q : unit -> mstate -> Prop) s :
  0 <= f < NFRAMES -> 0 <= g < NFRAMES ->
  Q tt (set_mem (<[f := page_of (mem s) g]> (mem s)) s) ->
  wp (memmove_page (kva f) (kva g)) Q s.
Proof. intros Hf Hg HQ. apply wp_modify. rewrite !V2P_kva0, !Z.div_mul by lia. done. Qed.

Lemma filter_held (l : lock) (h : list lock) : l ∉ h -> filter (fun x => x <> l) (l :: h) = h.
Proof.
  intros Hl. rewrite filter_cons_False by naive_solver.
  induction h as [|x h IH]; [done|]. apply not_elem_of_cons in Hl as [Hx Hl].
  rewrite filter_cons_True by done. by rewrite IH.
Qed.

Lemma acquire_wp l (Q : unit -> mstate -> Prop) s :
  l ∉ held s -> Q tt (set_held (l :: held s) s) -> wp (acquire l) Q s.
Proof.
  intros Hl HQ. apply wp_bind, wp_gets. rewrite bool_decide_eq_false_2 by done. by apply wp_modify.
Qed.

Lemma release_wp l h (Q : unit -> mstate -> Prop) s :
  held s = l :: h -> l ∉ h -> Q tt (set_held h s) -> wp (release l) Q s.
Proof.
  intros Hh Hl HQ. apply wp_bind, wp_gets. rewrite Hh.
  rewrite bool_decide_eq_true_2 by set_solver. apply wp_modify. by rewrite filter_held.
Qed.

(** [s'] differs from [s] only in memory and allocator. *)
Definition same_cpu (s s' : mstate) : Prop :=
  held s' = held s /\ cr3 s' = cr3 s /\ tlb s' = tlb s /\ kpgdir s' = kpgdir s /\
  use_lock (kmem s') = use_lock (kmem s).

#[export] Instance same_cpu_preorder : PreOrder same_cpu.
Proof. split; [done|]. intros s1 s2 s3 (?&?&?&?&?) (?&?&?&?&?). unfold same_cpu. intuition congruence. Qed.
