(* ===== verification/Kalloc.v ===== *)
(** * The physical page allocator (kalloc.c)

    Frames carry a reference count; the free list is threaded through the first
    word of the free frames themselves.  The specification is an abstract
    allocator: a function [cnt] giving the number of references of every frame
    and the list of free frames, which are exactly the managed frames without
    references. *)

From S2P Require Import Prelude Monad Machine.

Section kalloc.
Context `{KernelImage}.

(** ** The code *)

Definition PA2IDX (pa : Z) : Z := Z.shiftr pa PTXSHIFT.

Definition ref_at (km : kmem_t) (idx : Z) : Z := default 0 (refs km !! idx).
Definition set_ref (idx v : Z) : M mstate unit :=
  modify (fun s => set_kmem (MkKmem (use_lock (kmem s)) (freelist (kmem s))
                                    (<[idx := u16 v]> (refs (kmem s)))) s).
Definition get_ref (idx : Z) : M mstate Z := gets (fun s => ref_at (kmem s) idx).
Definition set_freelist (v : Z) : M mstate unit :=
  modify (fun s => set_kmem (MkKmem (use_lock (kmem s)) v (refs (kmem s))) s).
Definition set_use_lock (b : bool) : M mstate unit :=
  modify (fun s => set_kmem (MkKmem b (freelist (kmem s)) (refs (kmem s))) s).

Definition kmem_lock : M mstate unit :=
  let* b := gets (fun s => use_lock (kmem s)) in
  when b (acquire LKmem).

Definition kmem_unlock : M mstate unit :=
  let* b := gets (fun s => use_lock (kmem s)) in
  when b (release LKmem).

Definition incref (pa : Z) : M mstate unit :=
  if PHYSTOP <=? pa then panic "incref: out of range" else
  kmem_lock ;;;
  let* n := get_ref (PA2IDX pa) in
  if n =? 0 then panic "incref: page is free" else
  set_ref (PA2IDX pa) (n + 1) ;;;
  kmem_unlock.

Definition getref (pa : Z) : M mstate Z :=
  if PHYSTOP <=? pa then panic "getref: out of range" else
  kmem_lock ;;;
  let* n := get_ref (PA2IDX pa) in
  kmem_unlock ;;;
  ret n.

Definition kfree (v : Z) : M mstate unit :=
  if negb (v mod PGSIZE =? 0) || (v <? kernel_end) || (PHYSTOP <=? V2P v)
  then panic "kfree" else
  let idx := PA2IDX (V2P v) in
  kmem_lock ;;;
  let* n := get_ref idx in
  if n =? 0 then panic "kfree: page has no references" else
  set_ref idx (n - 1) ;;;
  let* n' := get_ref idx in
  let last := n' =? 0 in
  kmem_unlock ;;;
  if negb last then ret tt else
  memset_page v 1 ;;;
  kmem_lock ;;;
  let* fl := gets (fun s => freelist (kmem s)) in
  store v fl ;;;
  set_freelist v ;;;
  kmem_unlock.

Definition kalloc : M mstate Z :=
  kmem_lock ;;;
  let* r := gets (fun s => freelist (kmem s)) in
  when (negb (r =? 0)) (
    let* next := load r in
    set_freelist next ;;;
    set_ref (PA2IDX (V2P r)) 1) ;;;
  kmem_unlock ;;;
  ret r.

(** The loops advance a page, or a list link, per unit of fuel. *)
Fixpoint freerange_loop (fuel : nat) (p vend : Z) : M mstate unit :=
  match fuel with
  | O => nofuel
  | S fuel =>
      if p + PGSIZE <=? vend then
        set_ref (PA2IDX (V2P p)) 1 ;;;
        kfree p ;;;
        freerange_loop fuel (p + PGSIZE) vend
      else ret tt
  end.

Definition freerange (vstart vend : Z) : M mstate unit :=
  freerange_loop (S (Z.to_nat ((vend - PGROUNDUP vstart) / PGSIZE))) (PGROUNDUP vstart) vend.

Definition kinit1 (vstart vend : Z) : M mstate unit :=
  set_use_lock false ;;;
  freerange vstart vend.

Definition kinit2 (vstart vend : Z) : M mstate unit :=
  freerange vstart vend ;;;
  set_use_lock true.

Fixpoint freemem_loop (fuel : nat) (r n : Z) : M mstate Z :=
  match fuel with
  | O => nofuel
  | S fuel =>
      if r =? 0 then ret n else
      let* next := load r in
      freemem_loop fuel next (n + 1)
  end.

Definition freemem : M mstate Z :=
  kmem_lock ;;;
  let* r := gets (fun s => freelist (kmem s)) in
  let* n := freemem_loop (S (Z.to_nat NFRAMES)) r 0 in
  kmem_unlock ;;;
  ret n.

(** ** The abstract allocator *)

Definition upd (cnt : Z -> Z) (f v : Z) : Z -> Z := fun g => if decide (g = f) then v else cnt g.

(** The free list starting at kernel pointer [a] runs through frames [l]. *)
Fixpoint free_chain (m : gmap Z page) (a : Z) (l : list Z) : Prop :=
  match l with
  | [] => a = 0
  | f :: l' => a = kva f /\ free_chain m (word m f 0) l'
  end.

(** Frames [lo..hi) are managed; [cnt] are their reference counts and [free]
    the free list. *)
Record kmem_inv (lo hi : Z) (cnt : Z -> Z) (free : list Z) (s : mstate) : Prop := {
  ki_range : kernel_end <= kva lo /\ 0 <= lo <= hi /\ hi <= NFRAMES;
  ki_chain : free_chain (mem s) (freelist (kmem s)) free;
  ki_nodup : NoDup free;
  ki_free : forall f, f ∈ free <-> lo <= f < hi /\ cnt f = 0;
  ki_ref : forall f, lo <= f < hi -> ref_at (kmem s) f = cnt f;
  ki_cnt : forall f, 0 <= cnt f < 2 ^ 16;
  ki_wf : wf_mem (mem s);
  ki_lock : LKmem ∉ held s
}.

(** ** Lemmas *)

Lemma upd_eq cnt f v : upd cnt f v f = v.
Proof. unfold upd. by case_decide. Qed.
Lemma upd_ne cnt f v g : g <> f -> upd cnt f v g = cnt g.
Proof. intros. unfold upd. by case_decide. Qed.

Lemma free_chain_ext m m' a l :
  (forall f, f ∈ l -> word m' f 0 = word m f 0) -> free_chain m a l -> free_chain m' a l.
Proof.
  revert a. induction l as [|f l IH]; intros a Hm; cbn; [done|].
  intros [-> Hl]. split; [done|]. rewrite Hm by set_solver.
  apply IH; [|done]. intros g Hg. apply Hm. set_solver.
Qed.

Lemma PA2IDX_frame f : PA2IDX (f * 4096) = f.
Proof. unfold PA2IDX, PTXSHIFT. rewrite Z.shiftr_div_pow2 by lia. apply Z.div_mul. lia. Qed.

(** The locks held inside a critical section on [kmem]. *)
Definition kmem_held (s : mstate) : list lock :=
  if use_lock (kmem s) then LKmem :: held s else held s.

Lemma kmem_lock_wp (Q : unit -> mstate -> Prop) s :
  LKmem ∉ held s -> Q tt (set_held (kmem_held s) s) -> wp kmem_lock Q s.
Proof.
  intros Hl HQ. apply wp_bind, wp_gets. unfold kmem_held in HQ.
  apply wp_when; intros E; rewrite E in HQ; [by apply acquire_wp | by destruct s].
Qed.

Lemma kmem_unlock_wp s0 (Q : unit -> mstate -> Prop) s :
  LKmem ∉ held s0 -> held s = kmem_held s0 -> use_lock (kmem s) = use_lock (kmem s0) ->
  Q tt (set_held (held s0) s) -> wp kmem_unlock Q s.
Proof.
  intros Hl Hh Hu HQ. apply wp_bind, wp_gets. unfold kmem_held in Hh. rewrite <- Hu in Hh.
  apply wp_when; intros E; rewrite E in Hh; [by eapply release_wp|].
  rewrite <- Hh in HQ. by destruct s.
Qed.

(** The kernel pointer of a managed frame passes the checks of [kfree]. *)
Lemma kfree_checks lo hi cnt free s f :
  kmem_inv lo hi cnt free s -> lo <= f < hi ->
  negb (kva f mod PGSIZE =? 0) || (kva f <? kernel_end) || (PHYSTOP <=? V2P (kva f)) = false.
Proof.
  intros Hi Hf. destruct (ki_range _ _ _ _ _ Hi) as (He & Hlo & Hhi).
  change NFRAMES with 57344 in *. rewrite V2P_kva0 by (change NFRAMES with 57344; lia).
  apply orb_false_iff; split; [apply orb_false_iff; split|].
  - apply negb_false_iff, Z.eqb_eq. unfold kva, PGSIZE, KERNBASE.
    rewrite Z.mod_add by lia. done.
  - apply Z.ltb_ge. unfold kva in *. lia.
  - apply Z.leb_gt. unfold PHYSTOP. lia.
Qed.

Lemma ref_at_insert ul fl rf i j v :
  ref_at (MkKmem ul fl (<[i := v]> rf)) j = if decide (i = j) then v else ref_at (MkKmem ul fl rf) j.
Proof. unfold ref_at; cbn. rewrite lookup_insert. by case_decide. Qed.

Lemma kalloc_wp lo hi cnt free (Q : Z -> mstate -> Prop) s :
  kmem_inv lo hi cnt free s ->
  (free = [] -> Q 0 s) ->
  (forall f rest s', free = f :: rest -> lo <= f < hi -> same_cpu s s' -> mem s' = mem s ->
     kmem_inv lo hi (upd cnt f 1) rest s' -> Q (kva f) s') ->
  wp kalloc Q s.
Proof.
  intros Hi H0 H1. pose proof (ki_lock _ _ _ _ _ Hi) as Hl.
  apply wp_bind, kmem_lock_wp; [done|]. apply wp_bind, wp_gets. cbn [set_held kmem].
  destruct Hi as [(He & Hlo & Hhi) Hc Hnd Hf Hr Hcnt Hw _].
  destruct free as [|f rest]; cbn in Hc.
  - rewrite Hc. cbn. apply wp_bind, wp_ret. apply wp_bind.
    eapply (kmem_unlock_wp s); [done..|]. apply wp_ret. destruct s. by apply H0.
  - destruct Hc as [Hfl Hc]. destruct (proj1 (Hf f)) as [Hfr Hf0]; [set_solver|].
    rewrite Hfl. rewrite (proj2 (Z.eqb_neq _ _)) by (apply kva_nonzero; lia).
    apply wp_bind. cbn [when negb]. apply wp_bind.
    rewrite <- (Z.add_0_r (kva f)) at 1. change (kva f + 0) with (kva f + 4 * 0).
    apply load_word; [lia..|]. apply wp_bind, wp_modify, wp_modify.
    rewrite V2P_kva0, PA2IDX_frame by lia. apply wp_bind.
    eapply (kmem_unlock_wp s); [done..|]. apply wp_ret.
    eapply (H1 f rest); [done..|]. destruct s as [h c t m [ul fl rf] kp]; cbn in *.
    apply NoDup_cons in Hnd as [Hnf Hnd]. split; cbn; try done.
    + intros g. split.
      * intros Hg. assert (g <> f) by set_solver. rewrite upd_ne by done. apply Hf. set_solver.
      * intros [Hg Hg0]. assert (g <> f) by (intros ->; rewrite upd_eq in Hg0; lia).
        rewrite upd_ne in Hg0 by done. assert (g ∈ f :: rest) by (apply Hf; lia). set_solver.
    + intros g Hg. rewrite ref_at_insert. case_decide; subst.
      * by rewrite upd_eq.
      * rewrite upd_ne by done. apply (Hr g Hg).
    + intros g. unfold upd. case_decide; [lia | apply Hcnt].
Qed.

Lemma kfree_wp lo hi cnt free f (Q : unit -> mstate -> Prop) s :
  kmem_inv lo hi cnt free s -> lo <= f < hi -> 1 <= cnt f ->
  (forall s', same_cpu s s' -> 1 < cnt f -> mem s' = mem s ->
     kmem_inv lo hi (upd cnt f (cnt f - 1)) free s' -> Q tt s') ->
  (forall s', same_cpu s s' -> cnt f = 1 ->
     (forall g, g <> f -> page_of (mem s') g = page_of (mem s) g) ->
     kmem_inv lo hi (upd cnt f 0) (f :: free) s' -> Q tt s') ->
  wp (kfree (kva f)) Q s.
Proof.
  intros Hi Hfr Hf1 Hmore Hlast. unfold kfree. rewrite (kfree_checks _ _ _ _ _ _ Hi Hfr).
  pose proof (ki_lock _ _ _ _ _ Hi) as Hl.
  destruct Hi as [(He & Hlo & Hhi) Hc Hnd Hf Hr Hcnt Hw _].
  pose proof (Hcnt f). cbv zeta. rewrite V2P_kva0, PA2IDX_frame by lia.
  apply wp_bind, kmem_lock_wp; [done|]. apply wp_bind, wp_gets. cbn [set_held kmem].
  rewrite (Hr f Hfr), (proj2 (Z.eqb_neq _ _)) by lia.
  apply wp_bind, wp_modify, wp_bind, wp_gets. rewrite u16_small by lia.
  cbn [set_held set_kmem kmem]. rewrite ref_at_insert, decide_True by done.
  apply wp_bind. eapply (kmem_unlock_wp s); [done..|].
  destruct s as [h c t m [ul fl rf] kp]; cbn in *.
  destruct (decide (cnt f = 1)) as [E1|E1].
  - rewrite E1. cbn. apply wp_bind, memset_page_wp; [lia|].
    apply wp_bind, kmem_lock_wp; [done|]. apply wp_bind, wp_gets. cbn.
    rewrite <- (Z.add_0_r (kva f)) at 1. change (kva f + 0) with (kva f + 4 * 0).
    apply wp_bind, store_word; [lia..|]. apply wp_bind, wp_modify.
    eapply (kmem_unlock_wp (MkM h c t m (MkKmem ul fl rf) kp)); [done..|].
    apply Hlast; [done|done| |]; cbn.
    { intros g Hg. by rewrite !page_of_insert_ne by done. }
    assert (f ∉ free) as Hnf by (intros [_ ?]%Hf; lia).
    assert (0 <= fl < 2 ^ 32).
    { destruct free as [|g ?]; cbn in Hc; [lia|]. destruct Hc as [-> _].
      destruct (proj1 (Hf g)); [set_solver|]. change NFRAMES with 57344 in *.
      unfold kva, KERNBASE. lia. }
    rewrite page_of_insert_eq. split; cbn; try done.
    + split; [done|]. unfold word at 1. rewrite page_of_insert_eq. cbn. rewrite u32_small by done.
      eapply free_chain_ext; [|exact Hc]. intros g Hg. by rewrite !word_insert_ne by set_solver.
    + by constructor.
    + intros g. rewrite elem_of_cons, Hf. unfold upd. case_decide; subst; intuition lia.
    + intros g Hg. rewrite ref_at_insert. unfold upd.
      repeat case_decide; subst; try lia. by apply Hr.
    + intros g. unfold upd. case_decide; [lia | apply Hcnt].
    + apply wf_mem_insert; [by apply wf_mem_insert|]. by rewrite length_insert, length_fill_page.
  - rewrite (proj2 (Z.eqb_neq _ _)) by lia. cbn. apply wp_ret.
    apply Hmore; [done|lia|done|]. split; cbn; try done.
    + intros g. rewrite Hf. unfold upd. case_decide; subst; intuition lia.
    + intros g Hg. rewrite ref_at_insert. unfold upd. repeat case_decide; subst; try done.
      by apply Hr.
    + intros g. unfold upd. case_decide; [lia | apply Hcnt].
Qed.

Lemma incref_wp lo hi cnt free f (Q : unit -> mstate -> Prop) s :
  kmem_inv lo hi cnt free s -> lo <= f < hi -> 1 <= cnt f -> cnt f + 1 < 2 ^ 16 ->
  (forall s', same_cpu s s' -> mem s' = mem s ->
     kmem_inv lo hi (upd cnt f (cnt f + 1)) free s' -> Q tt s') ->
  wp (incref (f * 4096)) Q s.
Proof.
  intros Hi Hfr Hf1 Hmax HQ. pose proof (ki_lock _ _ _ _ _ Hi) as Hl. unfold incref.
  destruct Hi as [(He & Hlo & Hhi) Hc Hnd Hf Hr Hcnt Hw _].
  rewrite (proj2 (Z.leb_gt _ _)) by (change NFRAMES with 57344 in *; unfold PHYSTOP; lia).
  rewrite PA2IDX_frame. apply wp_bind, kmem_lock_wp; [done|]. apply wp_bind, wp_gets.
  cbn [set_held kmem]. rewrite (Hr f Hfr), (proj2 (Z.eqb_neq _ _)) by lia.
  apply wp_bind, wp_modify. eapply (kmem_unlock_wp s); [done..|].
  destruct s as [h c t m [ul fl rf] kp]; cbn in *. apply HQ; [done..|].
  rewrite u16_small by lia. split; cbn; try done.
  - intros g. rewrite Hf. unfold upd. case_decide; subst; intuition lia.
  - intros g Hg. rewrite ref_at_insert. unfold upd. repeat case_decide; subst; try done.
    by apply Hr.
  - intros g. unfold upd. case_decide; [lia | apply Hcnt].
Qed.

Lemma getref_wp lo hi cnt free f (Q : Z -> mstate -> Prop) s :
  kmem_inv lo hi cnt free s -> lo <= f < hi -> Q (cnt f) s -> wp (getref (f * 4096)) Q s.
Proof.
  intros Hi Hfr HQ. pose proof (ki_lock _ _ _ _ _ Hi) as Hl. unfold getref.
  destruct Hi as [(He & Hlo & Hhi) Hc Hnd Hf Hr Hcnt Hw _].
  rewrite (proj2 (Z.leb_gt _ _)) by (change NFRAMES with 57344 in *; unfold PHYSTOP; lia).
  rewrite PA2IDX_frame. apply wp_bind, kmem_lock_wp; [done|]. apply wp_bind, wp_gets.
  cbn [set_held kmem]. rewrite (Hr f Hfr).
  apply wp_bind. eapply (kmem_unlock_wp s); [done..|]. apply wp_ret. by destruct s.
Qed.

Lemma kmem_inv_ext lo hi cnt cnt' free s :
  (forall f, cnt' f = cnt f) -> kmem_inv lo hi cnt free s -> kmem_inv lo hi cnt' free s.
Proof.
  intros E [? ? ? Hf Hr Hc ? ?]. split; try done.
  - intros f. rewrite E. apply Hf.
  - intros f Hf'. rewrite E. by apply Hr.
  - intros f. rewrite E. apply Hc.
Qed.

(** The frame after the managed range joins it, with one reference. *)
Lemma kmem_inv_extend lo hi cnt free s :
  kmem_inv lo hi cnt free s -> hi < NFRAMES -> cnt hi = 0 ->
  wp (set_ref hi 1) (fun _ s' => kmem_inv lo (hi + 1) (upd cnt hi 1) free s' /\
                                 same_cpu s s' /\ mem s' = mem s) s.
Proof.
  intros [(He & Hlo & Hhi) Hc Hnd Hf Hr Hcnt Hw Hl] Hlt H0. apply wp_modify.
  destruct s as [h c t m [ul fl rf] kp]; cbn in *. split; [|done].
  split; cbn; try done.
  - unfold kva in *. lia.
  - intros g. rewrite Hf. unfold upd. case_decide; subst; intuition lia.
  - intros g Hg. rewrite ref_at_insert. unfold upd. repeat case_decide; subst; try done.
    apply Hr. lia.
  - intros g. unfold upd. case_decide; [lia | apply Hcnt].
Qed.

(** [freerange] puts the frames of the range on the free list, last one first. *)
Lemma freerange_loop_wp fuel lo hi cnt free n s :
  kmem_inv lo hi cnt free s -> 0 <= n -> hi + n <= NFRAMES ->
  (forall f, hi <= f -> cnt f = 0) -> (Z.to_nat n < fuel)%nat ->
  forall vend, kva (hi + n) <= vend < kva (hi + n) + 4096 ->
  wp (freerange_loop fuel (kva hi) vend)
     (fun _ s' => kmem_inv lo (hi + n) cnt (reverse (seqZ hi n) ++ free) s' /\ same_cpu s s') s.
Proof.
  revert lo hi cnt free n s. induction fuel as [|fuel IH];
    intros lo hi cnt free n s Hi Hn Hmax H0 Hfuel vend Hv; [lia|].
  destruct (ki_range _ _ _ _ _ Hi) as (He & Hlo & _). cbn [freerange_loop].
  unfold kva, PGSIZE in *. destruct (decide (n = 0)) as [->|Hn0].
  - rewrite (proj2 (Z.leb_gt _ _)) by lia. apply wp_ret. rewrite Z.add_0_r. done.
  - rewrite (proj2 (Z.leb_le _ _)) by lia. fold (kva hi).
    rewrite V2P_kva0, PA2IDX_frame by lia. apply wp_bind.
    eapply wp_mono; [apply kmem_inv_extend; [done|lia|by apply H0]|].
    intros _ s1 (Hi1 & Hc1 & _). apply wp_bind.
    eapply kfree_wp; [done|lia|rewrite upd_eq; lia|intros ? _ ?; rewrite upd_eq in *; lia|].
    intros s2 Hc2 _ _ Hi2. replace (kva hi + 4096) with (kva (hi + 1)) by (unfold kva; lia).
    eapply wp_mono; [apply (IH lo (hi + 1) cnt (hi :: free) (n - 1)); try lia|].
    + eapply kmem_inv_ext; [|exact Hi2]. intros g. unfold upd.
      repeat case_decide; subst; try done. apply H0. lia.
    + intros f Hf. apply H0. lia.
    + intros _ s3 [Hi3 Hc3]. split; [|by do 3 etrans; [eassumption|..]].
      replace (hi + n) with (hi + 1 + (n - 1)) by lia.
      rewrite seqZ_cons by lia. rewrite reverse_cons, <- app_assoc. cbn.
      replace (Z.pred n) with (n - 1) by lia. done.
Qed.

Lemma freemem_loop_wp free fuel n s a :
  free_chain (mem s) a free -> Forall (fun f => 0 <= f < NFRAMES) free ->
  (length free < fuel)%nat ->
  wp (freemem_loop fuel a n) (fun r s' => r = n + Z.of_nat (length free) /\ s' = s) s.
Proof.
  revert free n a. induction fuel as [|fuel IH]; intros free n a Hc Hr Hl; [lia|].
  cbn [freemem_loop]. destruct free as [|f rest]; cbn in Hc.
  - subst a. apply wp_ret. cbn. split; [lia|done].
  - destruct Hc as [-> Hc]. apply Forall_cons in Hr as [Hf Hr].
    rewrite (proj2 (Z.eqb_neq _ _)) by (apply kva_nonzero; lia). apply wp_bind.
    rewrite <- (Z.add_0_r (kva f)). change (kva f + 0) with (kva f + 4 * 0).
    apply load_word; [lia..|]. eapply wp_mono; [apply (IH rest); [done|done|cbn in Hl; lia]|].
    intros r s' [-> ->]. cbn [length]. split; [lia|done].
Qed.

(** A duplicate-free list of frames is no longer than the number of frames. *)
Lemma frames_length (l : list Z) n :
  0 <= n -> NoDup l -> Forall (fun f => 0 <= f < n) l -> (length l <= Z.to_nat n)%nat.
Proof.
  intros Hn Hnd Hl. rewrite <- (length_seqZ 0 n). apply submseteq_length, NoDup_submseteq; [done|].
  intros f Hf. rewrite Forall_forall in Hl. apply elem_of_seqZ. specialize (Hl f Hf). lia.
Qed.

Lemma ki_free_frames lo hi cnt free s :
  kmem_inv lo hi cnt free s -> Forall (fun f => 0 <= f < NFRAMES) free.
Proof.
  intros Hi. destruct (ki_range _ _ _ _ _ Hi) as (He & Hlo & Hhi).
  apply Forall_forall. intros f [? ?]%(ki_free _ _ _ _ _ Hi). lia.
Qed.

Lemma freemem_wp lo hi cnt free s :
  kmem_inv lo hi cnt free s ->
  wp freemem (fun n s' => n = Z.of_nat (length free) /\ s' = s) s.
Proof.
  intros Hi. pose proof (ki_lock _ _ _ _ _ Hi) as Hl. pose proof (ki_free_frames _ _ _ _ _ Hi) as Hfr.
  apply wp_bind, kmem_lock_wp; [done|]. apply wp_bind, wp_gets, wp_bind.
  eapply wp_mono; [apply (freemem_loop_wp free); [by apply ki_chain in Hi|done|]|].
  - pose proof (frames_length free NFRAMES ltac:(done) (ki_nodup _ _ _ _ _ Hi) Hfr). lia.
  - intros n s' [-> ->]. apply wp_bind. eapply (kmem_unlock_wp s); [done..|].
    apply wp_ret. by destruct s.
Qed.

(** The first whole frame after the kernel. *)
Definition first_frame : Z := (kernel_end - KERNBASE + 4095) / 4096.

Lemma first_frame_spec :
  0 < first_frame <= 1024 /\ kernel_end <= kva first_frame /\ PGROUNDUP kernel_end = kva first_frame.
Proof.
  pose proof kernel_layout as (? & ? & ?). unfold first_frame, kva, KERNLINK, EXTMEM, KERNBASE in *.
  rewrite PGROUNDUP_spec by lia. zdiv.
Qed.

(** A range of whole frames, from a page boundary. *)
Lemma freerange_wp lo hi cnt free n s vstart vend :
  kmem_inv lo hi cnt free s -> 0 <= n -> hi + n <= NFRAMES -> (forall f, hi <= f -> cnt f = 0) ->
  PGROUNDUP vstart = kva hi -> vend = kva (hi + n) ->
  wp (freerange vstart vend)
     (fun _ s' => kmem_inv lo (hi + n) cnt (reverse (seqZ hi n) ++ free) s' /\ same_cpu s s') s.
Proof.
  intros Hi Hn Hmax H0 Hs ->. unfold freerange. rewrite Hs.
  eapply freerange_loop_wp; [done..| |lia].
  unfold kva, PGSIZE. zdiv.
Qed.

Lemma kinit1_wp s :
  freelist (kmem s) = 0 -> wf_mem (mem s) -> LKmem ∉ held s ->
  wp (kinit1 kernel_end (P2V (4 * 1024 * 1024)))
     (fun _ s' => kmem_inv first_frame 1024 (fun _ => 0)
                    (reverse (seqZ first_frame (1024 - first_frame))) s' /\
                  held s' = held s /\ use_lock (kmem s') = false) s.
Proof.
  intros Hfl Hwf Hl. destruct first_frame_spec as (Hff & He & Hr).
  apply wp_bind, wp_modify. set (s1 := set_kmem _ s).
  assert (kmem_inv first_frame first_frame (fun _ => 0) [] s1) as Hi.
  { split; cbn; try done.
    - change NFRAMES with 57344. lia.
    - constructor.
    - intros f. split; [intros []%elem_of_nil | lia].
    - intros; lia. }
  eapply wp_mono; [apply (freerange_wp _ _ _ _ (1024 - first_frame) _ _ _ Hi); try done|].
  - lia.
  - change NFRAMES with 57344. lia.
  - f_equal. replace (first_frame + (1024 - first_frame)) with 1024 by lia. done.
  - intros _ s' [Hi' (? & _ & _ & _ & ?)].
    rewrite app_nil_r in Hi'. by replace (first_frame + (1024 - first_frame)) with 1024 in Hi' by lia.
Qed.

Lemma kinit2_wp lo cnt free s :
  kmem_inv lo 1024 cnt free s -> (forall f, 1024 <= f -> cnt f = 0) ->
  wp (kinit2 (P2V (4 * 1024 * 1024)) (P2V PHYSTOP))
     (fun _ s' => kmem_inv lo NFRAMES cnt (reverse (seqZ 1024 (NFRAMES - 1024)) ++ free) s' /\
                  held s' = held s /\ use_lock (kmem s') = true) s.
Proof.
  intros Hi H0. apply wp_bind.
  eapply wp_mono; [apply (freerange_wp _ _ _ _ (NFRAMES - 1024) _ _ _ Hi); done|].
  intros _ s' [Hi' (? & _)]. apply wp_modify. split; [|done].
  destruct Hi'. by split.
Qed.

End kalloc.
