(* ===== verification/Vm.v ===== *)
(** * Virtual memory (vm.c)

    Page directories and page tables live in physical memory, as words; the
    functions below read and write them there, through kernel pointers, the way
    vm.c does.  A function that returns a pointer returns the kernel virtual
    address, 0 for null. *)

From S2P Require Import Prelude Monad Machine Kalloc.

Section vm.
Context `{KernelImage}.

(** Address of the page-table entry for [va] in [pgdir]; [alloc] creates a
    missing page table. *)
Definition walkpgdir (pgdir va : Z) (alloc : bool) : M mstate Z :=
  let pde := pgdir + 4 * PDX va in
  let* v := load pde in
  if has v PTE_P then ret (P2V (PTE_ADDR v) + 4 * PTX va) else
  if negb alloc then ret 0 else
  let* pgtab := kalloc in
  if pgtab =? 0 then ret 0 else
  memset_page pgtab 0 ;;;
  store pde (Z.lor (Z.lor (Z.lor (V2P pgtab) PTE_P) PTE_W) PTE_U) ;;;
  ret (pgtab + 4 * PTX va).

Fixpoint mappages_loop (fuel : nat) (pgdir a last pa perm : Z) : M mstate Z :=
  match fuel with
  | O => nofuel
  | S fuel =>
      let* pte := walkpgdir pgdir a true in
      if pte =? 0 then ret (-1) else
      let* e := load pte in
      if has e PTE_P then panic "remap" else
      store pte (Z.lor (Z.lor pa perm) PTE_P) ;;;
      if a =? last then ret 0 else
      mappages_loop fuel pgdir (u32 (a + PGSIZE)) last (u32 (pa + PGSIZE)) perm
  end.

Definition mappages (pgdir va size pa perm : Z) : M mstate Z :=
  let a := PGROUNDDOWN va in
  let last := PGROUNDDOWN (u32 (va + size - 1)) in
  mappages_loop (S (Z.to_nat (u32 (last - a) / PGSIZE))) pgdir a last pa perm.

(** Deallocates the pages of [a..oldsz). *)
Fixpoint deallocuvm_loop (fuel : nat) (pgdir a oldsz : Z) : M mstate unit :=
  match fuel with
  | O => nofuel
  | S fuel =>
      if negb (a <? oldsz) then ret tt else
      let* pte := walkpgdir pgdir a false in
      if pte =? 0 then
        let a := u32 (PGADDR (PDX a + 1) 0 0 - PGSIZE) in
        deallocuvm_loop fuel pgdir (u32 (a + PGSIZE)) oldsz
      else
        let* e := load pte in
        when (has e PTE_P) (
          let pa := PTE_ADDR e in
          if pa =? 0 then panic "kfree" else
          let v := P2V pa in
          kfree v ;;;
          store pte 0) ;;;
        deallocuvm_loop fuel pgdir (u32 (a + PGSIZE)) oldsz
  end.

Definition deallocuvm (pgdir oldsz newsz : Z) : M mstate Z :=
  if oldsz <=? newsz then ret oldsz else
  let a := PGROUNDUP newsz in
  deallocuvm_loop (S (Z.to_nat ((oldsz - a + PGSIZE - 1) / PGSIZE))) pgdir a oldsz ;;;
  ret newsz.

Fixpoint freevm_loop (n : nat) (pgdir i : Z) : M mstate unit :=
  match n with
  | O => ret tt
  | S n =>
      let* pde := load (pgdir + 4 * i) in
      when (has pde PTE_P) (
        let v := P2V (PTE_ADDR pde) in
        kfree v) ;;;
      freevm_loop n pgdir (i + 1)
  end.

Definition freevm (pgdir : Z) : M mstate unit :=
  if pgdir =? 0 then panic "freevm: no pgdir" else
  deallocuvm pgdir KERNBASE 0 ;;;
  freevm_loop (Z.to_nat NPDENTRIES) pgdir 0 ;;;
  kfree pgdir.

(** The kernel's mappings, present in every page table. *)
Record kmap_entry : Type := MkKmap { virt : Z; phys_start : Z; phys_end : Z; kperm : Z }.
Definition kmap : list kmap_entry :=
  [ MkKmap KERNBASE 0 EXTMEM PTE_W;
    MkKmap KERNLINK (V2P KERNLINK) (V2P kernel_data) 0;
    MkKmap kernel_data (V2P kernel_data) PHYSTOP PTE_W;
    MkKmap DEVSPACE DEVSPACE 0 PTE_W ].

Fixpoint setupkvm_loop (pgdir : Z) (ks : list kmap_entry) : M mstate Z :=
  match ks with
  | [] => ret pgdir
  | k :: ks =>
      let* r := mappages pgdir (virt k) (u32 (phys_end k - phys_start k)) (phys_start k) (kperm k) in
      if r <? 0 then freevm pgdir ;;; ret 0
      else setupkvm_loop pgdir ks
  end.

Definition setupkvm : M mstate Z :=
  let* pgdir := kalloc in
  if pgdir =? 0 then ret 0 else
  memset_page pgdir 0 ;;;
  if DEVSPACE <? P2V PHYSTOP then panic "PHYSTOP too high" else
  setupkvm_loop pgdir kmap.

Definition switchkvm : M mstate unit :=
  let* kp := gets kpgdir in lcr3 (V2P kp).

Definition kvmalloc : M mstate unit :=
  let* kp := setupkvm in
  modify (set_kpgdir kp) ;;;
  switchkvm.

Definition uva2pa (pgdir va : Z) : M mstate Z :=
  let* pte := walkpgdir pgdir va false in
  if pte =? 0 then ret 0 else
  let* e := load pte in
  if negb (has e PTE_P) then ret 0 else
  ret (Z.lor (PTE_ADDR e) (Z.land va 0xFFF)).

Fixpoint kmap_extend_loop (fuel : nat) (a aend : Z) : M mstate Z :=
  match fuel with
  | O => nofuel
  | S fuel =>
      if negb (a <? aend) then ret 0 else
      let* kp := gets kpgdir in
      let* pte := walkpgdir kp (u32 (KERNBASE + a)) true in
      if pte =? 0 then ret (-1) else
      let* e := load pte in
      when (negb (has e PTE_P)) (store pte (Z.lor (Z.lor a PTE_P) PTE_W)) ;;;
      kmap_extend_loop fuel (u32 (a + PGSIZE)) aend
  end.

Definition kmap_extend (pa len : Z) : M mstate Z :=
  let start := PGROUNDDOWN pa in
  let aend := PGROUNDUP (u32 (pa + len)) in
  if (aend <=? start) || (DEVSPACE <=? u32 (KERNBASE + aend)) then ret (-1) else
  kmap_extend_loop (S (Z.to_nat ((aend - start) / PGSIZE))) start aend.

Definition lazyalloc (pgdir va : Z) : M mstate Z :=
  let a := PGROUNDDOWN va in
  let* mem := kalloc in
  if mem =? 0 then ret (-1) else
  memset_page mem 0 ;;;
  let* r := mappages pgdir a PGSIZE (V2P mem) (Z.lor PTE_W PTE_U) in
  if r <? 0 then kfree mem ;;; ret (-1) else
  invlpg a ;;;
  ret 0.

Definition cowfault (pgdir va : Z) : M mstate Z :=
  let* pte := walkpgdir pgdir va false in
  if pte =? 0 then ret (-1) else
  let* e := load pte in
  if negb (has e PTE_P) then ret (-1) else
  if negb (has e PTE_COW) then ret (if has e PTE_W then 0 else -1) else
  let pa := PTE_ADDR e in
  let flags := Z.lor (Z.land (PTE_FLAGS e) (Z.lnot PTE_COW)) PTE_W in
  let* n := getref pa in
  if n =? 1 then
    store pte (Z.lor pa flags) ;;;
    invlpg (PGROUNDDOWN va) ;;;
    ret 0
  else
  let* mem := kalloc in
  if mem =? 0 then ret (-1) else
  memmove_page mem (P2V pa) ;;;
  store pte (Z.lor (V2P mem) flags) ;;;
  kfree (P2V pa) ;;;
  invlpg (PGROUNDDOWN va) ;;;
  ret 0.

(** [myproc] is the page directory and size of the current process, if any. *)
Definition pagefault (myproc : option (Z * Z)) (va err : Z) : M mstate Z :=
  match myproc with
  | None => ret (-1)
  | Some (pgdir, sz) =>
      if KERNBASE <=? va then ret (-1) else
      acquire LVm ;;;
      let* pte := walkpgdir pgdir va false in
      let* e := if pte =? 0 then ret 0 else load pte in
      if (pte =? 0) || negb (has e PTE_P) then
        if sz <=? va then release LVm ;;; ret (-1) else
        let* r := lazyalloc pgdir va in
        release LVm ;;;
        ret r
      else if has err FEC_WR && has e PTE_COW then
        let* r := cowfault pgdir va in
        release LVm ;;;
        ret r
      else if has err FEC_WR && has e PTE_W then
        release LVm ;;; ret 0
      else
        release LVm ;;; ret (-1)
  end.

(** The loop reports whether it reached [newsz]; on failure it has undone the
    growth. *)
Fixpoint allocuvm_loop (fuel : nat) (pgdir a oldsz newsz : Z) : M mstate Z :=
  match fuel with
  | O => nofuel
  | S fuel =>
      if negb (a <? newsz) then ret newsz else
      let* mem := kalloc in
      if mem =? 0 then
        deallocuvm pgdir newsz oldsz ;;; ret 0
      else
      memset_page mem 0 ;;;
      let* r := mappages pgdir a PGSIZE (V2P mem) (Z.lor PTE_W PTE_U) in
      if r <? 0 then
        deallocuvm pgdir newsz oldsz ;;;
        kfree mem ;;;
        ret 0
      else allocuvm_loop fuel pgdir (u32 (a + PGSIZE)) oldsz newsz
  end.

Definition allocuvm (pgdir oldsz newsz : Z) : M mstate Z :=
  if KERNBASE <=? newsz then ret 0 else
  if newsz <? oldsz then ret oldsz else
  let a := PGROUNDUP oldsz in
  allocuvm_loop (S (Z.to_nat ((newsz - a + PGSIZE - 1) / PGSIZE))) pgdir a oldsz newsz.

Definition clearpteu (pgdir uva : Z) : M mstate unit :=
  let* pte := walkpgdir pgdir uva false in
  if pte =? 0 then panic "clearpteu" else
  let* e := load pte in
  store pte (Z.land e (Z.lnot PTE_U)).

(** Shares the pages below [sz] of [pgdir] with [d]; [false] is the jump to
    [bad]. *)
Fixpoint cowuvm_loop (fuel : nat) (pgdir d i sz : Z) : M mstate bool :=
  match fuel with
  | O => nofuel
  | S fuel =>
      if negb (i <? sz) then ret true else
      let* pte := walkpgdir pgdir i false in
      if pte =? 0 then cowuvm_loop fuel pgdir d (u32 (i + PGSIZE)) sz else
      let* e := load pte in
      if negb (has e PTE_P) then cowuvm_loop fuel pgdir d (u32 (i + PGSIZE)) sz else
      when (has e PTE_W) (
        store pte (Z.land e (Z.lnot PTE_W)) ;;;
        let* e := load pte in
        store pte (Z.lor e PTE_COW)) ;;;
      let* e := load pte in
      let pa := PTE_ADDR e in
      let flags := PTE_FLAGS e in
      incref pa ;;;
      let* r := mappages d i PGSIZE pa flags in
      if r <? 0 then kfree (P2V pa) ;;; ret false
      else cowuvm_loop fuel pgdir d (u32 (i + PGSIZE)) sz
  end.

Definition cowuvm (pgdir sz : Z) : M mstate Z :=
  let* d := setupkvm in
  if d =? 0 then ret 0 else
  let* good := cowuvm_loop (S (Z.to_nat ((sz + PGSIZE - 1) / PGSIZE))) pgdir d 0 sz in
  if good then lcr3 (V2P pgdir) ;;; ret d
  else freevm d ;;; lcr3 (V2P pgdir) ;;; ret 0.

Definition uva2ka (pgdir uva : Z) : M mstate Z :=
  let* pte := walkpgdir pgdir uva false in
  if pte =? 0 then ret 0 else
  let* e := load pte in
  if negb (has e PTE_P) then ret 0 else
  if negb (has e PTE_U) then ret 0 else
  ret (P2V (PTE_ADDR e)).

(** Bytes of a page. *)
Definition set_byte (w k b : Z) : Z :=
  Z.lor (Z.land w (Z.lnot (Z.shiftl 0xFF (8 * k)))) (Z.shiftl (Z.land b 0xFF) (8 * k)).
Definition put_byte (pg : page) (off b : Z) : page :=
  <[Z.to_nat (off / 4) := set_byte (nth (Z.to_nat (off / 4)) pg 0) (off mod 4) b]> pg.
Fixpoint put_bytes (pg : page) (off : Z) (bs : list Z) : page :=
  match bs with
  | [] => pg
  | b :: bs => put_bytes (put_byte pg off b) (off + 1) bs
  end.
(** [memmove] of a buffer into a page, at kernel pointer [dst + off]. *)
Definition memmove_bytes (dst off : Z) (bs : list Z) : M mstate unit :=
  modify (fun s => let f := V2P dst / 4096 in
                   set_mem (<[f := put_bytes (page_of (mem s) f) off bs]> (mem s)) s).

Fixpoint copyout_loop (fuel : nat) (pgdir va : Z) (buf : list Z) : M mstate Z :=
  match fuel with
  | O => nofuel
  | S fuel =>
      let len := Z.of_nat (length buf) in
      if negb (0 <? len) then ret 0 else
      let va0 := PGROUNDDOWN va in
      let* pa0 := uva2ka pgdir va0 in
      if pa0 =? 0 then ret (-1) else
      let n := u32 (PGSIZE - (va - va0)) in
      let n := if len <? n then len else n in
      memmove_bytes pa0 (va - va0) (take (Z.to_nat n) buf) ;;;
      copyout_loop fuel pgdir (u32 (va0 + PGSIZE)) (drop (Z.to_nat n) buf)
  end.

Definition copyout (pgdir va : Z) (p : list Z) : M mstate Z :=
  copyout_loop (S (S (S (Z.to_nat (Z.of_nat (length p) / PGSIZE))))) pgdir va p.

(** A null [mem] would fault in the kernel. *)
Definition inituvm (pgdir : Z) (init : list Z) : M mstate unit :=
  if PGSIZE <=? Z.of_nat (length init) then panic "inituvm: more than a page" else
  let* mem := kalloc in
  if mem =? 0 then panic "kernel page fault" else
  memset_page mem 0 ;;;
  mappages pgdir 0 PGSIZE (V2P mem) (Z.lor PTE_W PTE_U) ;;;
  memmove_bytes mem 0 init.

End vm.
