(* ===== verification/Mp.v ===== *)
(** * Finding the processors (mp.c, acpi.c)

    The firmware leaves tables in memory that list the processors and the interrupt
    controller: the MultiProcessor configuration table, or the ACPI multiple APIC
    description table, which is found through the root table and mapped as it is read. *)

From S2P Require Import Prelude Strings Monad Machine Kalloc Vm.

(** The kernel's view of memory, by virtual address, the machine for the page tables,
    and the variables set: the APIC ids of [cpus], [ncpu], [ioapicid], [lapic], and the
    bytes written to ports. *)
Record disc : Type := MkDisc {
  dm : mstate;
  fw : bmem;
  apicids : list Z;
  ncpu : Z;
  ioapicid : Z;
  lapic : Z;
  ports : list (Z * Z)
}.
Definition set_dm (x : mstate) (s : disc) : disc := MkDisc x (fw s) (apicids s) (ncpu s) (ioapicid s) (lapic s) (ports s).
Definition set_ioapicid (x : Z) (s : disc) : disc := MkDisc (dm s) (fw s) (apicids s) (ncpu s) x (lapic s) (ports s).
Definition set_lapic (x : Z) (s : disc) : disc := MkDisc (dm s) (fw s) (apicids s) (ncpu s) (ioapicid s) x (ports s).
Definition add_cpu (id : Z) (s : disc) : disc :=
  MkDisc (dm s) (fw s) (<[Z.to_nat (ncpu s) := id]> (apicids s)) (ncpu s + 1) (ioapicid s) (lapic s) (ports s).

Definition peek16 (a : Z) (m : bmem) : Z := m a + 2 ^ 8 * m (padd a 1).

(** [memcmp(p, lit, n) == 0] with a literal. *)
Fixpoint sig_at (p : Z) (lit : list Z) (m : bmem) : bool :=
  match lit with
  | [] => true
  | c :: lit => (m p =? c) && sig_at (padd p 1) lit m
  end.

(** ** mp.c *)

Fixpoint sum_loop (n : nat) (addr acc : Z) (m : bmem) : Z :=
  match n with
  | O => acc
  | S n => sum_loop n (padd addr 1) (acc + m addr) m
  end.
Definition sum (addr len : Z) (m : bmem) : Z := u8 (sum_loop (Z.to_nat len) addr 0 m).

(** The address found, or 0. *)
Fixpoint mpsearch1_loop (n : nat) (p e : Z) (m : bmem) : Z :=
  match n with
  | O => 0
  | S n =>
      if negb (p <? e) then 0 else
      if sig_at p [95; 77; 80; 95] m && (sum p 16 m =? 0) then p else
      mpsearch1_loop n (padd p 16) e m
  end.
Definition mpsearch1 (a len : Z) (m : bmem) : Z :=
  let addr := P2V a in
  mpsearch1_loop (S (Z.to_nat (len / 16))) addr (padd addr len) m.

Definition mpsearch (m : bmem) : Z :=
  let bda := P2V 0x400 in
  let p := Z.shiftl (Z.lor (Z.shiftl (m (padd bda 0x0F)) 8) (m (padd bda 0x0E))) 4 in
  let r :=
    if negb (p =? 0) then mpsearch1 p 1024 m
    else
      let p := Z.lor (Z.shiftl (m (padd bda 0x14)) 8) (m (padd bda 0x13)) * 1024 in
      mpsearch1 (u32 (p - 1024)) 1024 m in
  if negb (r =? 0) then r else mpsearch1 0xF0000 0x10000 m.

(** The table and the pointer to it. *)
Definition mpconfig (m : bmem) : option (Z * Z) :=
  let mp := mpsearch m in
  if (mp =? 0) || (peek32 (padd mp 4) m =? 0) then None else
  let conf := P2V (peek32 (padd mp 4) m) in
  if negb (sig_at conf [80; 67; 77; 80] m) then None else
  let version := m (padd conf 6) in
  if negb (version =? 1) && negb (version =? 4) then None else
  if negb (sum conf (peek16 (padd conf 4) m) m =? 0) then None else
  Some (mp, conf).

Abbreviation MPPROC := 0x00.
Abbreviation MPBUS := 0x01.
Abbreviation MPIOAPIC := 0x02.
Abbreviation MPIOINTR := 0x03.
Abbreviation MPLINTR := 0x04.

(** The loop over the entries from [p] to [e]: [ismp] at its end.  An unknown entry is
    not skipped. *)
Fixpoint mpinit_loop (f : nat) (p e : Z) (ismp : bool) : M disc bool :=
  match f with
  | O => nofuel
  | S f =>
      if negb (p <? e) then ret ismp else
      let* m := gets fw in
      let type := m p in
      if type =? MPPROC then
        let* n := gets ncpu in
        when (n <? NCPU) (modify (add_cpu (m (padd p 1)))) ;;;
        mpinit_loop f (padd p 20) e ismp
      else if type =? MPIOAPIC then
        modify (set_ioapicid (m (padd p 1))) ;;;
        mpinit_loop f (padd p 8) e ismp
      else if (type =? MPBUS) || (type =? MPIOINTR) || (type =? MPLINTR) then
        mpinit_loop f (padd p 8) e ismp
      else
        mpinit_loop f p e false
  end.

(** [inb23] is what port 0x23 returns. *)
Definition mpinit (inb23 : Z) : M disc unit :=
  let* m := gets fw in
  match mpconfig m with
  | None => panic "Expect to run on an SMP"
  | Some (mp, conf) =>
      modify (set_lapic (peek32 (padd conf 36) m)) ;;;
      let len := peek16 (padd conf 4) m in
      let* ismp := mpinit_loop (S (Z.to_nat len)) (padd conf 44) (padd conf len) true in
      if negb ismp then panic "Didn't find a suitable machine" else
      when (negb (m (padd mp 12) =? 0))
        (modify (fun s => MkDisc (dm s) (fw s) (apicids s) (ncpu s) (ioapicid s) (lapic s) (ports s ++ [(0x22, 0x70); (0x23, Z.lor inb23 1)])))
  end.

(** ** acpi.c *)

Fixpoint acpi_checksum_loop (n : nat) (addr acc : Z) (m : bmem) : Z :=
  match n with
  | O => acc
  | S n => acpi_checksum_loop n (padd addr 1) (u8 (acc + m addr)) m
  end.
Definition acpi_checksum (addr len : Z) (m : bmem) : Z := acpi_checksum_loop (Z.to_nat len) addr 0 m.

(** The loops of [find_rsdp]; 0 if nothing is found. *)
Fixpoint rsdp_loop (n : nat) (p e : Z) (m : bmem) : Z :=
  match n with
  | O => 0
  | S n =>
      if negb (p <? e) then 0 else
      if sig_at p [82; 83; 68; 32; 80; 84; 82; 32] m && (acpi_checksum p 20 m =? 0) then p else
      rsdp_loop n (padd p 16) e m
  end.
Definition find_rsdp (m : bmem) : Z :=
  let ebda := Z.shiftl (peek16 (P2V 0x40E) m) 4 in
  let r := if negb (ebda =? 0) then rsdp_loop 65 (P2V ebda) (padd (P2V ebda) 1024) m else 0 in
  if negb (r =? 0) then r else rsdp_loop (Z.to_nat 8193) (P2V 0xE0000) (P2V 0x100000) m.

Abbreviation ACPI_MADT_LAPIC := 0.
Abbreviation ACPI_MADT_IOAPIC := 1.

Section acpi.
Context {KI : KernelImage}.

Definition dkmap (pa len : Z) : M disc Z := zoom dm set_dm (kmap_extend pa len).

(** The header of the table at [pa], or 0. *)
Definition map_table (pa : Z) : M disc Z :=
  let* r := dkmap pa 36 in
  if r <? 0 then ret 0 else
  let* m := gets fw in
  let hdr := P2V pa in
  let length := peek32 (padd hdr 4) m in
  if (length <? 36) || (0x10000 <? length) then ret 0 else
  let* r := dkmap pa length in
  if r <? 0 then ret 0 else
  if negb (acpi_checksum hdr length m =? 0) then ret 0 else
  ret hdr.

(** The first of the tables [i] .. [count - 1] with signature APIC, or 0. *)
Fixpoint find_madt (n : nat) (tables i : Z) : M disc Z :=
  match n with
  | O => ret 0
  | S n =>
      let* m := gets fw in
      let* hdr := map_table (peek32 (padd tables (4 * i)) m) in
      if hdr =? 0 then find_madt n tables (i + 1) else
      if sig_at hdr [65; 80; 73; 67] m then ret hdr else find_madt n tables (i + 1)
  end.

(** The entries from [p] to [e]; the result is [found]. *)
Fixpoint madt_loop (f : nat) (p e found : Z) : M disc Z :=
  match f with
  | O => nofuel
  | S f =>
      if negb (padd p 2 <=? e) then ret found else
      let* m := gets fw in
      let len := m (padd p 1) in
      if (len <? 2) || (e <? padd p len) then ret found else
      let type := m p in
      let* found := (if type =? ACPI_MADT_LAPIC then
          let* n := gets ncpu in
          if negb (Z.land (peek32 (padd p 4) m) 1 =? 0) && (n <? NCPU) then
            modify (add_cpu (m (padd p 3))) ;;;
            ret (found + 1)
          else ret found
        else if type =? ACPI_MADT_IOAPIC then
          modify (set_ioapicid (m (padd p 2))) ;;;
          ret found
        else ret found) in
      madt_loop f (padd p len) e found
  end.

Definition acpiinit : M disc Z :=
  let* m := gets fw in
  let rsdp := find_rsdp m in
  if rsdp =? 0 then ret (-1) else
  let* rsdt := map_table (peek32 (padd rsdp 16) m) in
  if rsdt =? 0 then ret (-1) else
  if negb (sig_at rsdt [82; 83; 68; 84] m) then ret (-1) else
  let count := (peek32 (padd rsdt 4) m - 36) / 4 in
  let* madt := find_madt (Z.to_nat count) (padd rsdt 36) 0 in
  if madt =? 0 then ret (-1) else
  modify (set_lapic (peek32 (padd madt 36) m)) ;;;
  let length := peek32 (padd madt 4) m in
  let* found := madt_loop (S (Z.to_nat length)) (padd madt 44) (padd madt length) 0 in
  if found =? 0 then ret (-1) else ret 0.

End acpi.
