(* ===== verification/MpInv.v ===== *)
(** * The processors found

    Both tables list processors in entries of several kinds; the kernel records the ids
    of the first [NCPU] of them, in order. *)

From S2P Require Import Prelude Strings Monad Machine Kalloc Vm Mp.

(** ** Tables in memory *)

(** [l] lies at [p]. *)
Definition lies (m : bmem) (p : Z) (l : list Z) : Prop := forall i c, l !! i = Some c -> m (p + Z.of_nat i) = c.

Lemma lies_app m p l1 l2 : lies m p (l1 ++ l2) -> lies m p l1 /\ lies m (p + Z.of_nat (length l1)) l2.
Proof.
  intros H. split; intros i c Hi.
  - apply H. by apply lookup_app_l_Some.
  - replace (p + Z.of_nat (length l1) + Z.of_nat i) with (p + Z.of_nat (length l1 + i)) by lia. apply H. by rewrite lookup_app_r, Nat.add_sub_swap, Nat.sub_diag by lia.
Qed.

(** Entries of a configuration table: a processor has 20 bytes, the others 8. *)
Definition mp_entry (l : list Z) : bool :=
  match l with
  | t :: _ => if t =? MPPROC then (length l =? 20)%nat else (1 <=? t) && (t <=? 4) && (length l =? 8)%nat
  | [] => false
  end.
Definition mp_cpu (l : list Z) : option Z :=
  match l with
  | t :: id :: _ => if t =? MPPROC then Some id else None
  | _ => None
  end.

(** Entries of the description table: the kind, the length, and, for a processor, its
    id and whether it is enabled. *)
Definition madt_entry (l : list Z) : bool :=
  match l with
  | t :: n :: _ => (n =? Z.of_nat (length l)) && (n <? 256) && (negb (t =? ACPI_MADT_LAPIC) || (8 <=? length l)%nat) && (negb (t =? ACPI_MADT_IOAPIC) || (3 <=? length l)%nat)
  | _ => false
  end.
Definition madt_cpu (l : list Z) : option Z :=
  match l with
  | t :: _ :: _ :: id :: f0 :: f1 :: f2 :: f3 :: _ =>
      if (t =? ACPI_MADT_LAPIC) && negb (Z.land (f0 + 2 ^ 8 * f1 + 2 ^ 16 * f2 + 2 ^ 24 * f3) 1 =? 0) then Some id else None
  | _ => None
  end.

(** ** What is recorded *)

(** [ids] were found so far. *)
Definition recorded (ids : list Z) (s : disc) : Prop :=
  ncpu s = Z.min NCPU (Z.of_nat (length ids)) /\ length (apicids s) = Z.to_nat NCPU /\ take (Z.to_nat (ncpu s)) (apicids s) = take (Z.to_nat NCPU) ids.

Lemma record_cpu ids s id :
  recorded ids s -> recorded (ids ++ [id]) (if ncpu s <? NCPU then add_cpu id s else s).
Proof.
  unfold recorded, NCPU. intros (N1 & N2 & N3). destruct (Z.ltb_spec (ncpu s) 8) as [Hlt|Hge]; split; cbn; rewrite ?length_app, ?length_insert; cbn; try lia.
  - split; [done|]. replace (Z.to_nat (ncpu s + 1)) with (S (Z.to_nat (ncpu s))) by lia.
    rewrite (take_S_r _ _ id) by (apply list_lookup_insert_eq; lia). rewrite take_insert_ge by lia. rewrite N3. change (Z.to_nat 8) with 8%nat.
    rewrite (take_ge ids 8), (take_ge (ids ++ [id]) 8) by (rewrite ?length_app; cbn; lia). done.
  - split; [done|]. rewrite N3. change (Z.to_nat 8) with 8%nat. by rewrite take_app_le by lia.
Qed.

Lemma recorded_ext ids s s' : ncpu s' = ncpu s -> apicids s' = apicids s -> recorded ids s -> recorded ids s'.
Proof. intros E1 E2. unfold recorded. by rewrite E1, E2. Qed.

Definition found_in (cpu : list Z -> option Z) (es : list (list Z)) : list Z := omap cpu es.

(** ** The loops *)

Section loops.
Context (m : bmem).

Lemma entry_byte p l es i c :
  lies m p (concat (l :: es)) -> l !! i = Some c -> m (p + Z.of_nat i) = c.
Proof. intros H Hi. cbn in H. apply lies_app in H as [H _]. by apply H. Qed.

Lemma mpinit_loop_wp es : forall f p ids s (Q : bool -> disc -> Prop),
  fw s = m -> forallb mp_entry es = true -> lies m p (concat es) -> 0 <= p -> p + Z.of_nat (length (concat es)) < 2 ^ 32 -> (length es < f)%nat ->
  recorded ids s ->
  (forall s', recorded (ids ++ found_in mp_cpu es) s' -> fw s' = m -> lapic s' = lapic s -> Q true s') ->
  wp (mpinit_loop f p (p + Z.of_nat (length (concat es))) true) Q s.
Proof.
  induction es as [|l es IH]; intros f p ids s Q Hm Hok Hl Hp Hb Hf Hr HQ; (destruct f as [|f]; [cbn in Hf; lia|]); cbn [mpinit_loop].
  - cbn [concat length Z.of_nat]. rewrite Z.add_0_r, Z.ltb_irrefl. apply wp_ret. unfold found_in in HQ. cbn in HQ. rewrite app_nil_r in HQ. by apply HQ.
  - cbn [forallb] in Hok. apply andb_true_iff in Hok as [Hl1 Hok]. cbn [concat] in *. rewrite length_app, Nat2Z.inj_add in *. cbn [length] in Hf.
    destruct l as [|t l]; [done|]. pose proof (entry_byte p (t :: l) es 0%nat t Hl eq_refl) as Et. rewrite Z.add_0_r in Et.
    apply lies_app in Hl as [Hll Hl]. assert (8 <= length (t :: l))%nat as H8.
    { cbn [mp_entry] in Hl1. destruct (t =? MPPROC); [apply Nat.eqb_eq in Hl1; lia|]. apply andb_true_iff in Hl1 as [_ Hl1]. apply Nat.eqb_eq in Hl1. lia. }
    destruct l as [|id l]; [cbn in H8; lia|]. pose proof (Hll 1%nat id eq_refl) as Eid. change (Z.of_nat 1) with 1 in Eid.
    rewrite (proj2 (Z.ltb_lt _ _)) by lia. cbn [negb]. apply wp_bind, wp_gets. rewrite Hm, Et. set (n := length (t :: id :: l)) in *.
    assert (forall s1 ids1, fw s1 = m -> lapic s1 = lapic s -> recorded ids1 s1 -> ids ++ found_in mp_cpu ((t :: id :: l) :: es) = ids1 ++ found_in mp_cpu es ->
      wp (mpinit_loop f (padd p (Z.of_nat n)) (p + (Z.of_nat n + Z.of_nat (length (concat es)))) true) Q s1) as Hnext.
    { intros s1 ids1 Hm1 Hl1' Hr1 E. rewrite padd_small by lia. rewrite Z.add_assoc. eapply (IH f _ ids1); [done|done|done|lia|lia|lia|done|].
      intros s' Hr' Hm' Hl'. apply HQ; [by rewrite E|done|congruence]. }
    rewrite padd_small, Eid by lia. cbn [mp_entry] in Hl1. fold n in Hl1. unfold found_in in *. cbn [omap list_omap mp_cpu] in Hnext.
    destruct (Z.eqb_spec t MPPROC) as [->|Hne].
    + apply Nat.eqb_eq in Hl1. rewrite Hl1 in Hnext |- *. apply wp_bind, wp_gets, wp_bind, wp_when; [intros E; apply wp_modify|intros E]; pose proof (record_cpu ids s id Hr) as Hr'; rewrite E in Hr';
        (apply (Hnext _ (ids ++ [id])); [done|done|done|by rewrite <- app_assoc]).
    + apply andb_true_iff in Hl1 as [Ht Hl1]. apply Nat.eqb_eq in Hl1. rewrite Hl1 in Hnext |- *. zbool. destruct (Z.eqb_spec t MPIOAPIC) as [->|Hne2].
      * apply wp_bind, wp_modify. apply (Hnext _ ids); [done|done|by eapply recorded_ext|done].
      * assert ((t =? MPBUS) || (t =? MPIOINTR) || (t =? MPLINTR) = true) as ->.
        { assert (t = 1 \/ t = 3 \/ t = 4) as [->|[->| ->]] by lia; done. }
        by apply (Hnext _ ids).
Qed.

(** An entry of another kind is never passed. *)
Lemma mpinit_unknown f p e ismp s :
  fw s = m -> p < e -> 4 < m p -> mpinit_loop f p e ismp s = NoFuel.
Proof.
  intros Hm Hp Ht. revert ismp. induction f as [|f IH]; intros ismp; [done|]. cbn [mpinit_loop]. rewrite (proj2 (Z.ltb_lt _ _)) by done. cbn [negb].
  unfold bind, gets. cbn [obind]. rewrite Hm.
  rewrite !(proj2 (Z.eqb_neq _ _)) by lia. cbn [orb]. apply IH.
Qed.

Lemma madt_loop_wp es : forall f p found ids s (Q : Z -> disc -> Prop),
  fw s = m -> forallb madt_entry es = true -> lies m p (concat es) -> 0 <= p -> p + Z.of_nat (length (concat es)) + 2 < 2 ^ 32 -> (length es < f)%nat ->
  recorded ids s -> found = ncpu s ->
  (forall s', recorded (ids ++ found_in madt_cpu es) s' -> fw s' = m -> lapic s' = lapic s -> Q (ncpu s') s') ->
  wp (madt_loop f p (p + Z.of_nat (length (concat es))) found) Q s.
Proof.
  induction es as [|l es IH]; intros f p found ids s Q Hm Hok Hl Hp Hb Hf Hr Hfo HQ; (destruct f as [|f]; [cbn in Hf; lia|]); cbn [madt_loop].
  - cbn [concat length Z.of_nat]. rewrite padd_small, (proj2 (Z.leb_gt _ _)) by lia. apply wp_ret. subst found. unfold found_in in HQ. cbn in HQ. rewrite app_nil_r in HQ. by apply HQ.
  - cbn [forallb] in Hok. apply andb_true_iff in Hok as [Hl1 Hok]. cbn [concat] in *. rewrite length_app, Nat2Z.inj_add in *. cbn [length] in Hf.
    destruct l as [|t [|n l]]; try done. set (len := length (t :: n :: l)) in *. cbn [madt_entry] in Hl1. fold len in Hl1.
    apply andb_true_iff in Hl1 as [Hl1 Hio]. apply andb_true_iff in Hl1 as [Hl1 Hla]. apply andb_true_iff in Hl1 as [Hn H256]. zbool.
    assert (2 <= len)%nat as H2 by (unfold len; cbn; lia). apply lies_app in Hl as [Hll Hl]. fold len in Hl.
    pose proof (Hll 0%nat t eq_refl) as Et. rewrite Z.add_0_r in Et. pose proof (Hll 1%nat n eq_refl) as En. change (Z.of_nat 1) with 1 in En.
    rewrite (padd_small p 2) by lia. rewrite (proj2 (Z.leb_le _ _)) by lia. cbn [negb]. apply wp_bind, wp_gets. rewrite (padd_small p 1) by lia. rewrite Hm. rewrite En, Et.
    rewrite (padd_small p n) by lia. rewrite (proj2 (Z.ltb_ge n 2)), (proj2 (Z.ltb_ge (_ + _) (p + n))) by lia. cbn [orb]. apply wp_bind.
    assert (forall fo s1 ids1, fw s1 = m -> lapic s1 = lapic s -> recorded ids1 s1 -> fo = ncpu s1 -> ids ++ found_in madt_cpu ((t :: n :: l) :: es) = ids1 ++ found_in madt_cpu es ->
      wp (madt_loop f (p + n) (p + (Z.of_nat len + Z.of_nat (length (concat es)))) fo) Q s1) as Hnext.
    { intros fo s1 ids1 Hm1 Hl1' Hr1 Hf1 E. rewrite Z.add_assoc, Hn. eapply (IH f _ _ ids1); [done|done|done|lia|lia|lia|done|done|].
      intros s' Hr' Hm' Hl'. apply HQ; [by rewrite E|done|congruence]. }
    unfold found_in in *. cbn [omap list_omap] in Hnext. destruct (Z.eqb_spec t ACPI_MADT_LAPIC) as [->|Hne].
    + cbn [negb orb] in Hla. apply Nat.leb_le in Hla. destruct l as [|b2 [|id [|f0 [|f1 [|f2 [|f3 l]]]]]]; try (unfold len in Hla; cbn in Hla; lia). cbn [madt_cpu Z.eqb andb] in Hnext.
      assert (m (padd p 3) = id /\ peek32 (padd p 4) m = f0 + 2 ^ 8 * f1 + 2 ^ 16 * f2 + 2 ^ 24 * f3) as [-> ->].
      { unfold peek32. rewrite !padd_small by lia. rewrite <- !Z.add_assoc. cbn [Z.add Pos.add Pos.succ].
        rewrite <- (Hll 3%nat id eq_refl), <- (Hll 4%nat f0 eq_refl), <- (Hll 5%nat f1 eq_refl), <- (Hll 6%nat f2 eq_refl), <- (Hll 7%nat f3 eq_refl). done. }
      apply wp_bind, wp_gets. destruct (Z.land (f0 + 2 ^ 8 * f1 + 2 ^ 16 * f2 + 2 ^ 24 * f3) 1 =? 0); cbn [negb andb] in *; [by apply wp_ret, (Hnext _ _ ids)|].
      pose proof (record_cpu ids s id Hr) as Hr'. destruct (ncpu s <? NCPU).
      * apply wp_bind, wp_modify, wp_ret. apply (Hnext _ _ (ids ++ [id])); [done|done|done|cbn; lia|by rewrite <- app_assoc].
      * apply wp_ret. apply (Hnext _ _ (ids ++ [id])); [done|done|done|done|by rewrite <- app_assoc].
    + assert (madt_cpu (t :: n :: l) = None) as En' by (destruct l as [|? [|? [|? [|? [|? [|? ?]]]]]]; cbn [madt_cpu]; try done; by rewrite (proj2 (Z.eqb_neq _ _) Hne)).
      rewrite En' in Hnext. destruct (t =? ACPI_MADT_IOAPIC); [apply wp_bind, wp_modify, wp_ret; apply (Hnext _ _ ids); done|by apply wp_ret, (Hnext _ _ ids)].
Qed.
End loops.

(** ** The properties *)

(** C37. When the configuration table is sound and has entries of the kinds the
    specification defines, [mpinit] ends, and has recorded the ids of the processors in
    the order of the table, up to [NCPU] of them, and the address of the local APIC. *)
Theorem mpinit_finds inb23 mp conf es s :
  mpconfig (fw s) = Some (mp, conf) -> 0 <= conf ->
  peek16 (padd conf 4) (fw s) = 44 + Z.of_nat (length (concat es)) -> conf + 44 + Z.of_nat (length (concat es)) < 2 ^ 32 ->
  forallb mp_entry es = true -> lies (fw s) (conf + 44) (concat es) -> recorded [] s ->
  wp (mpinit inb23) (fun _ s' => recorded (found_in mp_cpu es) s' /\ lapic s' = peek32 (padd conf 36) (fw s)) s.
Proof.
  intros Hc H0 Hlen Hb Hok Hl Hr. unfold mpinit. apply wp_bind, wp_gets. rewrite Hc. apply wp_bind, wp_modify. cbv zeta. rewrite Hlen.
  rewrite (padd_small conf 44), (padd_small conf (44 + _)), Z.add_assoc by lia. apply wp_bind.
  assert (length es <= length (concat es))%nat as Hle.
  { clear -Hok. induction es as [|l es IH]; [done|]. cbn [forallb concat length] in *. apply andb_true_iff in Hok as [Hl Hok]. rewrite length_app. specialize (IH Hok). destruct l; [done|cbn; lia]. }
  eapply (mpinit_loop_wp (fw s) es _ _ []); [done|done|done|lia|lia|lia|by eapply recorded_ext|]. intros s' Hr' _ El. cbn [negb].
  apply wp_when; intros _; [apply wp_modify|]; split; done.
Qed.

(** The description table: the enabled processors are recorded, and [madt_loop] returns
    how many. *)
Theorem madt_finds es f p s :
  forallb madt_entry es = true -> lies (fw s) p (concat es) -> 0 <= p -> p + Z.of_nat (length (concat es)) + 2 < 2 ^ 32 -> (length es < f)%nat ->
  recorded [] s ->
  wp (madt_loop f p (p + Z.of_nat (length (concat es))) 0) (fun r s' => recorded (found_in madt_cpu es) s' /\ r = ncpu s') s.
Proof.
  intros Hok Hl Hp Hb Hf Hr. eapply (madt_loop_wp (fw s) es f p 0 []); [done|done|done|done|done|done|done|by destruct Hr as [-> _]|]. intros s' Hr' _ _. by split.
Qed.

(** ** A concrete table *)

Definition demo_mp : list Z := [95; 77; 80; 95; 16; 0; 15; 0; 1; 4; 129; 0; 0; 0; 0; 0].
Definition demo_conf : list Z :=
  [80; 67; 77; 80; 100; 0; 4; 71; 0; 0; 0; 0; 0; 0; 0; 0; 0; 0; 0; 0; 0; 0; 0; 0; 0; 0; 0; 0; 0; 0; 0; 0; 0; 0; 4; 0; 0; 0; 224; 254; 0; 0; 0; 0].
(** Two processors, a bus and an I/O APIC. *)
Definition demo_entries : list (list Z) :=
  [[0; 0; 20; 3; 0; 0; 0; 0; 0; 0; 0; 0; 0; 0; 0; 0; 0; 0; 0; 0];
   [0; 1; 20; 1; 0; 0; 0; 0; 0; 0; 0; 0; 0; 0; 0; 0; 0; 0; 0; 0];
   [1; 0; 73; 83; 65; 32; 32; 32]; [2; 2; 17; 1; 0; 0; 192; 254]].
Definition demo_fw : bmem := fun a => nth (Z.to_nat (a - 0x800F0000)) (demo_mp ++ demo_conf ++ concat demo_entries) 0.
Definition demo_disc : disc := MkDisc (MkM [] 0 ∅ ∅ (MkKmem false 0 ∅) 0) demo_fw (replicate 8 0) 0 0 0 [].

Lemma demo_lies : lies demo_fw (0x800F0010 + 44) (concat demo_entries).
Proof.
  intros i c Hi. unfold demo_fw. replace (Z.to_nat (0x800F0010 + 44 + Z.of_nat i - 0x800F0000)) with (60 + i)%nat by lia. rewrite nth_lookup.
  rewrite app_assoc, lookup_app_r by (cbn; lia). cbn [length app demo_mp demo_conf]. replace (60 + i - 60)%nat with i by lia. by rewrite Hi.
Qed.

Lemma mpinit_finds_witness :
  wp (mpinit 0) (fun _ s' => ncpu s' = 2 /\ take 2 (apicids s') = [0; 1] /\ lapic s' = 0xFEE00000) demo_disc.
Proof.
  eapply wp_mono; [eapply (mpinit_finds 0 0x800F0000 0x800F0010 demo_entries demo_disc);
    [vm_compute; reflexivity|lia|vm_compute; reflexivity|vm_compute; reflexivity|vm_compute; reflexivity|exact demo_lies|by split_and!]|].
  intros _ s' [(N1 & N2 & N3) N4]. change (ncpu s' = 2) in N1. rewrite N1 in N3. split_and!; [exact N1|exact N3|exact N4].
Defined.
