(* ===== verification/VmInv.v ===== *)
(** * The address-space invariant

    The abstract state of the memory code: for every live page directory, its
    page tables and the entries they hold, plus a number of references owned by
    other holders (kernel stacks, pages just allocated).  [vm_inv] relates it to
    memory: the words of the directories and tables encode it, the allocator's
    reference counts are the number of references it contains, page-table frames
    are never shared, and a frame a user can write has exactly one reference. *)

From S2P Require Import Prelude Monad Machine Kalloc Vm.

(** ** Abstract state *)

(** Page-table frames by directory index, entries by page number. *)
Record aspace : Type := AS { as_pt : gmap Z Z; as_pte : gmap Z Z }.

Record ghost : Type := MkG { g_dirs : gmap Z aspace; g_ext : Z -> Z }.

(** User pages are those below KERNBASE. *)
Definition UPAGES : Z := 2 ^ 19.

(** The frame of an entry. *)
Definition pframe (e : Z) : Z := e / 4096.

Definition b2z (b : bool) : Z := if b then 1 else 0.
Definition pt_ref (f : Z) (_ p : Z) : Z := b2z (p =? f).
Definition pte_ref (f v e : Z) : Z := b2z ((v <? UPAGES) && (pframe e =? f)).
Definition as_cnt (f d : Z) (a : aspace) : Z :=
  b2z (d =? f) + msum (pt_ref f) (as_pt a) + msum (pte_ref f) (as_pte a).

(** References of frame [f]: the directories, tables and user mappings that are
    [f], and the other holders. *)
Definition cnt (G : ghost) (f : Z) : Z := g_ext G f + msum (as_cnt f) (g_dirs G).

Definition is_table (G : ghost) (f : Z) : Prop :=
  is_Some (g_dirs G !! f) \/
  exists d a i, g_dirs G !! d = Some a /\ as_pt a !! i = Some f.

(** ** Representation in memory *)

Record dir_rep (m : gmap Z page) (d : Z) (a : aspace) : Prop := {
  dr_pde : forall i, 0 <= i < 1024 ->
    word m d i = match as_pt a !! i with Some p => p * 4096 + 7 | None => 0 end;
  dr_pte : forall i p j, as_pt a !! i = Some p -> 0 <= j < 1024 ->
    word m p j = default 0 (as_pte a !! (i * 1024 + j));
  dr_ptdom : forall i p, as_pt a !! i = Some p -> 0 <= i < 1024;
  dr_dom : forall v e, as_pte a !! v = Some e ->
    0 <= v < 2 ^ 20 /\ is_Some (as_pt a !! (v / 1024));
  dr_ent : forall v e, as_pte a !! v = Some e -> 0 <= e < 2 ^ 32 /\ Z.testbit e 0 = true
}.

(** The user entry of page [v] in directory [d]. *)
Definition user_pte (G : ghost) (d v e : Z) : Prop :=
  exists a, g_dirs G !! d = Some a /\ as_pte a !! v = Some e /\ 0 <= v < UPAGES.

Record wf_ghost (lo hi : Z) (G : ghost) : Prop := {
  wg_ext : forall f, 0 <= g_ext G f;
  wg_owned : forall f, 0 < cnt G f -> lo <= f < hi;
  wg_table : forall f, is_table G f -> cnt G f = 1;
  wg_write : forall d v e, user_pte G d v e -> Z.testbit e 1 = true -> cnt G (pframe e) = 1;
  wg_inj : forall d v e v' e', user_pte G d v e -> user_pte G d v' e' ->
    pframe e = pframe e' -> v = v'
}.

Record vm_inv `{KernelImage} (lo hi : Z) (G : ghost) (free : list Z) (s : mstate) : Prop := {
  vi_kmem : kmem_inv lo hi (cnt G) free s;
  vi_rep : forall d a, g_dirs G !! d = Some a -> dir_rep (mem s) d a;
  vi_wf : wf_ghost lo hi G
}.

(** ** Counting lemmas *)

Lemma b2z_nonneg b : 0 <= b2z b.
Proof. destruct b; cbn; lia. Qed.

Lemma pt_ref_nonneg f i p : 0 <= pt_ref f i p.
Proof. apply b2z_nonneg. Qed.
Lemma pte_ref_nonneg f v e : 0 <= pte_ref f v e.
Proof. apply b2z_nonneg. Qed.

Lemma as_cnt_nonneg f d a : 0 <= as_cnt f d a.
Proof.
  unfold as_cnt. pose proof (b2z_nonneg (d =? f)).
  pose proof (msum_nonneg (pt_ref f) (as_pt a) (fun k x _ => pt_ref_nonneg f k x)).
  pose proof (msum_nonneg (pte_ref f) (as_pte a) (fun k x _ => pte_ref_nonneg f k x)). lia.
Qed.

Lemma cnt_ge_ext G f : g_ext G f <= cnt G f.
Proof.
  unfold cnt. pose proof (msum_nonneg (as_cnt f) (g_dirs G) (fun k x _ => as_cnt_nonneg f k x)). lia.
Qed.

(** A directory's share of the count. *)
Lemma cnt_ge_dir G f d a :
  g_dirs G !! d = Some a -> g_ext G f + as_cnt f d a <= cnt G f.
Proof.
  intros Hd. unfold cnt.
  pose proof (msum_ge (as_cnt f) (g_dirs G) d a (fun k x _ => as_cnt_nonneg f k x) Hd). lia.
Qed.

Lemma cnt_ge_dir2 G f d a d' a' :
  g_dirs G !! d = Some a -> g_dirs G !! d' = Some a' -> d <> d' ->
  g_ext G f + as_cnt f d a + as_cnt f d' a' <= cnt G f.
Proof.
  intros Hd Hd' Hne. unfold cnt.
  pose proof (msum_ge2 (as_cnt f) (g_dirs G) d a d' a' (fun k x _ => as_cnt_nonneg f k x) Hd Hd' Hne).
  lia.
Qed.

Lemma as_cnt_pt f d a i : as_pt a !! i = Some f ->
  b2z (d =? f) + 1 + msum (pte_ref f) (as_pte a) <= as_cnt f d a.
Proof.
  intros Hi. unfold as_cnt.
  pose proof (msum_ge (pt_ref f) (as_pt a) i f (fun k x _ => pt_ref_nonneg f k x) Hi) as Hp.
  unfold pt_ref at 1 in Hp. rewrite Z.eqb_refl in Hp. cbn in Hp. lia.
Qed.

Lemma as_cnt_pte f d a v e : as_pte a !! v = Some e -> v < UPAGES -> pframe e = f ->
  b2z (d =? f) + msum (pt_ref f) (as_pt a) + 1 <= as_cnt f d a.
Proof.
  intros Hv Hu Hf. unfold as_cnt.
  pose proof (msum_ge (pte_ref f) (as_pte a) v e (fun k x _ => pte_ref_nonneg f k x) Hv) as Hp.
  unfold pte_ref at 1 in Hp. rewrite (proj2 (Z.ltb_lt _ _) Hu), Hf, Z.eqb_refl in Hp. cbn in Hp. lia.
Qed.

(** Adds that the counts occurring in the hypotheses are not negative. *)
Ltac cnt_nonneg :=
  repeat match goal with
  | _ : context [msum (pt_ref ?f) ?m] |- _ =>
      learn (msum_nonneg (pt_ref f) m (fun k x _ => pt_ref_nonneg f k x))
  | _ : context [msum (pte_ref ?f) ?m] |- _ =>
      learn (msum_nonneg (pte_ref f) m (fun k x _ => pte_ref_nonneg f k x))
  | _ : context [b2z ?b] |- _ => learn (b2z_nonneg b)
  | _ : context [as_cnt ?f ?d ?a] |- _ => learn (as_cnt_nonneg f d a)
  end.

Lemma as_cnt_self d a : 1 <= as_cnt d d a.
Proof.
  unfold as_cnt. rewrite Z.eqb_refl. cbn [b2z].
  pose proof (as_cnt_nonneg d d a) as Hn. unfold as_cnt in Hn. cnt_nonneg. lia.
Qed.

(** ** Roles of frames are exclusive *)

Section roles.
Context (lo hi : Z) (G : ghost) (Hwf : wf_ghost lo hi G).

Lemma ext_not_table f : 1 <= g_ext G f -> ~ is_table G f.
Proof.
  intros He Ht. pose proof (wg_table _ _ _ Hwf f Ht) as Hc.
  destruct Ht as [[a Ha]|(d & a & i & Hd & Hi)].
  - pose proof (cnt_ge_dir G f f a Ha). pose proof (as_cnt_self f a). lia.
  - pose proof (cnt_ge_dir G f d a Hd). pose proof (as_cnt_pt f d a i Hi). cnt_nonneg. lia.
Qed.

Lemma dir_not_pt f b d a i :
  g_dirs G !! f = Some b -> g_dirs G !! d = Some a -> as_pt a !! i = Some f -> False.
Proof.
  intros Hf Hd Hi. pose proof (wg_table _ _ _ Hwf f (or_introl (ex_intro _ b Hf))) as Hc.
  pose proof (wg_ext _ _ _ Hwf f) as He. pose proof (as_cnt_pt f d a i Hi) as Hp.
  destruct (decide (d = f)) as [->|Hne].
  - pose proof (cnt_ge_dir G f f a Hd). rewrite Z.eqb_refl in Hp. cbn [b2z] in Hp. cnt_nonneg. lia.
  - pose proof (cnt_ge_dir2 G f d a f b Hd Hf Hne). pose proof (as_cnt_self f b). cnt_nonneg. lia.
Qed.

Lemma pt_unique p d a i d' a' i' :
  g_dirs G !! d = Some a -> as_pt a !! i = Some p ->
  g_dirs G !! d' = Some a' -> as_pt a' !! i' = Some p -> d = d' /\ i = i'.
Proof.
  intros Hd Hi Hd' Hi'.
  assert (cnt G p = 1) as Hc by (apply (wg_table _ _ _ Hwf); right; eauto).
  pose proof (wg_ext _ _ _ Hwf p) as He.
  pose proof (as_cnt_pt p d a i Hi). pose proof (as_cnt_pt p d' a' i' Hi').
  destruct (decide (d = d')) as [<-|Hne].
  - rewrite Hd in Hd'. injection Hd' as <-. split; [done|].
    destruct (decide (i = i')) as [|Hni]; [done|exfalso].
    pose proof (msum_ge2 (pt_ref p) (as_pt a) i p i' p (fun k x _ => pt_ref_nonneg p k x) Hi Hi' Hni) as Hp.
    unfold pt_ref in Hp at 1 2. rewrite Z.eqb_refl in Hp. cbn [b2z] in Hp.
    pose proof (cnt_ge_dir G p d a Hd) as Hg. unfold as_cnt in Hg. cnt_nonneg. lia.
  - pose proof (cnt_ge_dir2 G p d a d' a' Hd Hd' Hne). cnt_nonneg. lia.
Qed.

Lemma user_cnt d v e : user_pte G d v e -> 1 <= cnt G (pframe e).
Proof.
  intros (a & Hd & Hv & Hu). pose proof (cnt_ge_dir G (pframe e) d a Hd).
  pose proof (wg_ext _ _ _ Hwf (pframe e)).
  pose proof (as_cnt_pte (pframe e) d a v e Hv ltac:(lia) eq_refl). cnt_nonneg. lia.
Qed.

Lemma user_frame_range d v e : user_pte G d v e -> lo <= pframe e < hi.
Proof. intros Hu. apply (wg_owned _ _ _ Hwf). pose proof (user_cnt d v e Hu). lia. Qed.

Lemma user_not_table d v e : user_pte G d v e -> ~ is_table G (pframe e).
Proof.
  intros (a & Hd & Hv & Hu) Ht. pose proof (wg_table _ _ _ Hwf _ Ht) as Hc.
  set (f := pframe e) in *. pose proof (wg_ext _ _ _ Hwf f) as He.
  pose proof (as_cnt_pte f d a v e Hv ltac:(lia) eq_refl) as Hp.
  destruct Ht as [[b Hb]|(d' & b & i & Hb & Hi)].
  - destruct (decide (d = f)) as [->|Hne].
    + pose proof (cnt_ge_dir G f f a Hd). rewrite Z.eqb_refl in Hp. cbn [b2z] in Hp. cnt_nonneg. lia.
    + pose proof (cnt_ge_dir2 G f d a f b Hd Hb Hne). pose proof (as_cnt_self f b). cnt_nonneg. lia.
  - pose proof (as_cnt_pt f d' b i Hi) as Hq.
    destruct (decide (d = d')) as [<-|Hne].
    + rewrite Hd in Hb. injection Hb as <-. pose proof (cnt_ge_dir G f d a Hd) as Hg.
      pose proof (msum_ge (pt_ref f) (as_pt a) i f (fun k x _ => pt_ref_nonneg f k x) Hi) as Hr.
      unfold pt_ref in Hr at 1. rewrite Z.eqb_refl in Hr. cbn [b2z] in Hr. cnt_nonneg. lia.
    + pose proof (cnt_ge_dir2 G f d a d' b Hd Hb Hne). cnt_nonneg. lia.
Qed.

Lemma table_range f : is_table G f -> lo <= f < hi.
Proof. intros Ht. apply (wg_owned _ _ _ Hwf). rewrite (wg_table _ _ _ Hwf f Ht). lia. Qed.
End roles.

(** ** Updates of the abstract state *)

Definition put_pte (v : Z) (oe : option Z) (a : aspace) : aspace :=
  AS (as_pt a) (partial_alter (fun _ => oe) v (as_pte a)).
Definition put_pt (i p : Z) (a : aspace) : aspace := AS (<[i := p]> (as_pt a)) (as_pte a).
Definition set_dir (d : Z) (a : aspace) (G : ghost) : ghost := MkG (<[d := a]> (g_dirs G)) (g_ext G).
Definition del_dir (d : Z) (G : ghost) : ghost := MkG (delete d (g_dirs G)) (g_ext G).
Definition add_ext (f n : Z) (G : ghost) : ghost := MkG (g_dirs G) (upd (g_ext G) f (g_ext G f + n)).

Lemma cnt_set_dir d a a' G f :
  g_dirs G !! d = Some a -> cnt (set_dir d a' G) f = cnt G f - as_cnt f d a + as_cnt f d a'.
Proof. intros Hd. unfold cnt, set_dir; cbn. rewrite (msum_insert _ _ _ _ _ Hd). lia. Qed.

Lemma cnt_new_dir d a G f :
  g_dirs G !! d = None -> cnt (set_dir d a G) f = cnt G f + as_cnt f d a.
Proof. intros Hd. unfold cnt, set_dir; cbn. rewrite msum_insert_fresh by done. lia. Qed.

Lemma cnt_del_dir d a G f :
  g_dirs G !! d = Some a -> cnt (del_dir d G) f = cnt G f - as_cnt f d a.
Proof. intros Hd. unfold cnt, del_dir; cbn. rewrite (msum_delete _ _ _ _ Hd). lia. Qed.

Lemma cnt_add_ext g n G f : cnt (add_ext g n G) f = cnt G f + (if decide (f = g) then n else 0).
Proof. unfold cnt, add_ext, upd; cbn. case_decide; subst; lia. Qed.

Lemma msum_partial_alter (w : Z -> Z -> Z) (m : gmap Z Z) v oe :
  msum w (partial_alter (fun _ => oe) v m) =
  msum w m - from_option (w v) 0 (m !! v) + from_option (w v) 0 oe.
Proof.
  destruct oe as [e|]; cbn [from_option].
  - change (partial_alter (fun _ => Some e) v m) with (<[v := e]> m).
    destruct (m !! v) as [e0|] eqn:E; cbn [from_option].
    + rewrite (msum_insert _ _ _ _ _ E). lia.
    + rewrite msum_insert_fresh by done. lia.
  - change (partial_alter (fun _ => None) v m) with (delete v m).
    destruct (m !! v) as [e0|] eqn:E; cbn [from_option].
    + rewrite (msum_delete _ _ _ _ E). lia.
    + rewrite delete_id by done. lia.
Qed.

Lemma as_cnt_put_pte f d v oe a :
  as_cnt f d (put_pte v oe a) =
  as_cnt f d a - from_option (pte_ref f v) 0 (as_pte a !! v) + from_option (pte_ref f v) 0 oe.
Proof. unfold as_cnt, put_pte; cbn. rewrite msum_partial_alter. lia. Qed.

Lemma as_cnt_put_pt f d i p a :
  as_pt a !! i = None -> as_cnt f d (put_pt i p a) = as_cnt f d a + b2z (p =? f).
Proof. intros Hi. unfold as_cnt, put_pt; cbn. rewrite msum_insert_fresh by done. unfold pt_ref. lia. Qed.

Lemma as_cnt_empty f d : as_cnt f d (AS ∅ ∅) = b2z (d =? f).
Proof. unfold as_cnt; cbn. rewrite !msum_empty. lia. Qed.

(** ** Representation lemmas *)

Lemma dir_rep_ext m m' d a :
  page_of m' d = page_of m d -> (forall i p, as_pt a !! i = Some p -> page_of m' p = page_of m p) ->
  dir_rep m d a -> dir_rep m' d a.
Proof.
  intros Hd Hp [Hpde Hpte Hptd Hdom Hent]. unfold word in *. split; unfold word; try done.
  - by rewrite Hd.
  - intros i p j Hi Hj. rewrite (Hp i p Hi). by apply Hpte.
Qed.

(** Memory changes outside the page tables do not matter. *)
Lemma reps_ext G m m' :
  (forall f, is_table G f -> page_of m' f = page_of m f) ->
  (forall d a, g_dirs G !! d = Some a -> dir_rep m d a) ->
  forall d a, g_dirs G !! d = Some a -> dir_rep m' d a.
Proof.
  intros Hm Hr d a Hd. eapply dir_rep_ext; [| |by apply Hr].
  - apply Hm. left. eauto.
  - intros i p Hi. apply Hm. right. eauto.
Qed.

Definition valid_pte (oe : option Z) : Prop :=
  match oe with Some e => 0 <= e < 2 ^ 32 /\ Z.testbit e 0 = true | None => True end.

(** Writing the entry of page [i * 1024 + j]. *)
Lemma reps_store_pte lo hi G m d a i p j oe :
  wf_ghost lo hi G -> wf_mem m ->
  (forall d a, g_dirs G !! d = Some a -> dir_rep m d a) ->
  g_dirs G !! d = Some a -> as_pt a !! i = Some p -> 0 <= j < 1024 -> valid_pte oe ->
  forall d' a', g_dirs (set_dir d (put_pte (i * 1024 + j) oe a) G) !! d' = Some a' ->
  dir_rep (<[p := <[Z.to_nat j := u32 (default 0 oe)]> (page_of m p)]> m) d' a'.
Proof.
  intros Hwf Hwm Hr Hd Hi Hj Hoe d' a' Hd'. cbn in Hd'.
  assert (u32 (default 0 oe) = default 0 oe) as ->
    by (destruct oe; cbn in *; apply u32_small; lia).
  set (w := default 0 oe). apply lookup_insert_Some in Hd' as [[<- <-]|[Hne Hd']].
  - destruct (Hr d a Hd) as [Hpde Hpte Hptd Hdom Hent]. pose proof (Hptd i p Hi).
    split; cbn [put_pte as_pt as_pte]; try done.
    + intros k Hk. rewrite word_insert_ne; [by apply Hpde|].
      intros ->. eapply dir_not_pt; [exact Hwf|exact Hd|exact Hd|exact Hi].
    + intros k q l Hk Hl. destruct (decide (q = p)) as [->|Hqp].
      * destruct (pt_unique _ _ _ Hwf p d a i d a k Hd Hi Hd Hk) as [_ <-].
        unfold word. rewrite page_of_insert_eq, nth_lookup, list_lookup_insert.
        destruct (decide (j = l)) as [<-|Hjl].
        -- rewrite decide_True by (rewrite Hwm; lia). by rewrite lookup_partial_alter_eq.
        -- rewrite decide_False by lia. rewrite lookup_partial_alter_ne by lia.
           rewrite <- nth_lookup. by apply Hpte.
      * rewrite word_insert_ne by done. rewrite lookup_partial_alter_ne; [by apply Hpte|].
        intros E. assert (i = k) as <- by lia. congruence.
    + intros v e Hv. destruct (decide (v = i * 1024 + j)) as [->|Hvn].
      * split; [lia|]. replace ((i * 1024 + j) / 1024) with i by zdiv. eauto.
      * rewrite lookup_partial_alter_ne in Hv by done. by apply (Hdom v e).
    + intros v e Hv. destruct (decide (v = i * 1024 + j)) as [->|Hvn].
      * rewrite lookup_partial_alter_eq in Hv. subst oe. done.
      * rewrite lookup_partial_alter_ne in Hv by done. by apply (Hent v e).
  - eapply dir_rep_ext; [| |by apply Hr].
    + apply page_of_insert_ne. intros ->. eapply dir_not_pt; [exact Hwf|exact Hd'|exact Hd|exact Hi].
    + intros k q Hk. apply page_of_insert_ne. intros ->.
      destruct (pt_unique _ _ _ Hwf q d a i d' a' k Hd Hi Hd' Hk) as [-> _]. done.
Qed.

(** A zeroed frame [p] becomes the page table of directory index [i]. *)
Lemma reps_add_pt lo hi G m d a i p :
  wf_ghost lo hi G -> wf_mem m ->
  (forall d a, g_dirs G !! d = Some a -> dir_rep m d a) ->
  g_dirs G !! d = Some a -> as_pt a !! i = None -> 0 <= i < 1024 -> 0 <= p < NFRAMES ->
  ~ is_table G p -> page_of m p = fill_page 0 ->
  forall d' a', g_dirs (set_dir d (put_pt i p a) G) !! d' = Some a' ->
  dir_rep (<[d := <[Z.to_nat i := u32 (p * 4096 + 7)]> (page_of m d)]> m) d' a'.
Proof.
  intros Hwf Hwm Hr Hd Hi Hir Hp Hnt Hz d' a' Hd'. cbn in Hd'.
  rewrite u32_small by (change NFRAMES with 57344 in *; lia).
  assert (p <> d) as Hpd by (intros ->; apply Hnt; left; eauto).
  apply lookup_insert_Some in Hd' as [[<- <-]|[Hne Hd']].
  - destruct (Hr d a Hd) as [Hpde Hpte Hptd Hdom Hent].
    split; cbn [put_pt as_pt as_pte]; try done.
    + intros k Hk. unfold word. rewrite page_of_insert_eq, nth_lookup, list_lookup_insert.
      destruct (decide (i = k)) as [<-|Hik].
      * rewrite decide_True by (rewrite Hwm; lia). by rewrite lookup_insert_eq.
      * rewrite decide_False by lia. rewrite lookup_insert_ne by done.
        rewrite <- nth_lookup. by apply Hpde.
    + intros k q l Hk Hl. apply lookup_insert_Some in Hk as [[<- <-]|[Hik Hk]].
      * rewrite word_insert_ne by done. unfold word. rewrite Hz, nth_fill_page by done.
        destruct (as_pte a !! (i * 1024 + l)) as [e|] eqn:E; [|done].
        destruct (Hdom _ _ E) as [_ [q Hq]]. replace ((i * 1024 + l) / 1024) with i in Hq by zdiv.
        congruence.
      * rewrite word_insert_ne; [by apply Hpte|].
        intros ->. eapply dir_not_pt; [exact Hwf|exact Hd|exact Hd|exact Hk].
    + intros k q Hk. apply lookup_insert_Some in Hk as [[<- _]|[_ Hk]]; [done|by apply (Hptd k q)].
    + intros v e Hv. destruct (Hdom v e Hv) as [? [q Hq]]. split; [done|].
      rewrite lookup_insert_ne by congruence. eauto.
  - eapply dir_rep_ext; [| |by apply Hr].
    + by apply page_of_insert_ne.
    + intros k q Hk. apply page_of_insert_ne. intros ->.
      eapply dir_not_pt; [exact Hwf|exact Hd|exact Hd'|exact Hk].
Qed.

Lemma dir_rep_empty m d : page_of m d = fill_page 0 -> dir_rep m d (AS ∅ ∅).
Proof.
  intros Hz. split; cbn; try (intros *; rewrite lookup_empty; discriminate).
  intros i Hi. unfold word. rewrite Hz, nth_fill_page by done. by rewrite lookup_empty.
Qed.

(** ** Well-formedness after an update *)

Lemma user_pte_set_dir G d a a' d' v e :
  g_dirs G !! d = Some a -> user_pte (set_dir d a' G) d' v e ->
  (d' = d /\ as_pte a' !! v = Some e /\ 0 <= v < UPAGES) \/ (d' <> d /\ user_pte G d' v e).
Proof.
  intros Hd (b & Hb & Hv & Hu). cbn in Hb.
  apply lookup_insert_Some in Hb as [[<- <-]|[Hne Hb]]; [by left|]. right.
  split; [done|]. exists b. done.
Qed.

Lemma wf_add_ext lo hi G f n :
  wf_ghost lo hi G -> 0 <= g_ext G f + n -> (0 < cnt G f + n -> lo <= f < hi) ->
  ~ is_table G f ->
  (forall d v e, user_pte G d v e -> pframe e = f -> Z.testbit e 1 = true -> cnt G f + n = 1) ->
  wf_ghost lo hi (add_ext f n G).
Proof.
  intros [We Wo Wt Ww Wi] Hn Hr Hnt Hw. split.
  - intros g. cbn. unfold upd. case_decide; [lia|apply We].
  - intros g. rewrite cnt_add_ext. case_decide; subst; [done|]. rewrite Z.add_0_r. apply Wo.
  - intros g Hg. rewrite cnt_add_ext. case_decide; subst; [done|]. rewrite Z.add_0_r. by apply Wt.
  - intros d v e Hu Hb. rewrite cnt_add_ext. case_decide; [|rewrite Z.add_0_r; by eapply Ww].
    subst f. by eapply Hw.
  - done.
Qed.

(** Replacing the entry of page [v] when the total counts do not change. *)
Lemma wf_put_pte lo hi G d a v oe ext' :
  wf_ghost lo hi G -> g_dirs G !! d = Some a ->
  let G' := MkG (<[d := put_pte v oe a]> (g_dirs G)) ext' in
  (forall f, 0 <= ext' f) -> (forall f, cnt G' f = cnt G f) ->
  (forall e, oe = Some e -> 0 <= v < UPAGES ->
     (Z.testbit e 1 = true -> cnt G (pframe e) = 1) /\
     (forall v' e', v' <> v -> user_pte G d v' e' -> pframe e' <> pframe e)) ->
  wf_ghost lo hi G'.
Proof.
  intros [We Wo Wt Ww Wi] Hd G' Hext Hcnt Hnew. split.
  - done.
  - intros f. rewrite Hcnt. apply Wo.
  - intros f Hf. rewrite Hcnt. apply Wt. destruct Hf as [[b Hb]|(d' & b & i & Hb & Hi)]; cbn in Hb.
    + apply lookup_insert_Some in Hb as [[<- _]|[_ Hb]]; left; eauto.
    + apply lookup_insert_Some in Hb as [[<- <-]|[_ Hb]]; right; eauto 10.
  - intros d' v' e Hu Hb. rewrite Hcnt.
    destruct (user_pte_set_dir (MkG (g_dirs G) ext') d a (put_pte v oe a) d' v' e Hd Hu)
      as [(-> & Hv' & Hur)|[_ Hu']]; [|by eapply Ww].
    cbn in Hv'. destruct (decide (v' = v)) as [->|Hne].
    + rewrite lookup_partial_alter_eq in Hv'. by apply Hnew.
    + rewrite lookup_partial_alter_ne in Hv' by done. eapply Ww; [|done]. by exists a.
  - intros d' v1 e1 v2 e2 Hu1 Hu2 Hf.
    destruct (user_pte_set_dir (MkG (g_dirs G) ext') d a (put_pte v oe a) d' v1 e1 Hd Hu1)
      as [(-> & Hv1 & Hr1)|[Hne1 Hu1']];
    destruct (user_pte_set_dir (MkG (g_dirs G) ext') d a (put_pte v oe a) _ v2 e2 Hd Hu2)
      as [(E & Hv2 & Hr2)|[Hne2 Hu2']]; try done; [|by eapply Wi].
    cbn in Hv1, Hv2. destruct (decide (v1 = v2)) as [|Hne]; [done|exfalso].
    destruct (decide (v1 = v)) as [->|Hn1]; [|destruct (decide (v2 = v)) as [->|Hn2]].
    + rewrite lookup_partial_alter_eq in Hv1. rewrite lookup_partial_alter_ne in Hv2 by done.
      destruct (Hnew e1 Hv1 Hr1) as [_ Hi']. apply (Hi' v2 e2); [done|by exists a|done].
    + rewrite lookup_partial_alter_eq in Hv2. rewrite lookup_partial_alter_ne in Hv1 by done.
      destruct (Hnew e2 Hv2 Hr2) as [_ Hi']. apply (Hi' v1 e1); [done|by exists a|done].
    + rewrite lookup_partial_alter_ne in Hv1, Hv2 by done.
      apply Hne. eapply Wi; [by exists a|by exists a|done].
Qed.

(** A frame owned by the caller alone becomes a page table, or a directory. *)
Lemma wf_put_pt lo hi G d a i p :
  wf_ghost lo hi G -> g_dirs G !! d = Some a -> as_pt a !! i = None ->
  g_ext G p = 1 -> cnt G p = 1 -> wf_ghost lo hi (add_ext p (-1) (set_dir d (put_pt i p a) G)).
Proof.
  intros Hwf Hd Hi He Hc. pose proof Hwf as [We Wo Wt Ww Wi].
  assert (forall f, cnt (add_ext p (-1) (set_dir d (put_pt i p a) G)) f = cnt G f) as Hcnt.
  { intros f. rewrite cnt_add_ext, (cnt_set_dir d a) by done. rewrite as_cnt_put_pt by done.
    case_decide; subst; [rewrite Z.eqb_refl; cbn [b2z]; lia|].
    rewrite (proj2 (Z.eqb_neq p f)) by done. cbn [b2z]. lia. }
  split.
  - intros f. cbn. unfold upd. case_decide; [lia|apply We].
  - intros f. rewrite Hcnt. apply Wo.
  - intros f Hf. rewrite Hcnt. destruct (decide (f = p)) as [->|Hne]; [done|]. apply Wt.
    destruct Hf as [[b Hb]|(d' & b & k & Hb & Hk)]; cbn in Hb.
    + apply lookup_insert_Some in Hb as [[<- _]|[_ Hb]]; left; eauto.
    + apply lookup_insert_Some in Hb as [[<- <-]|[_ Hb]]; [|right; eauto 10].
      cbn in Hk. apply lookup_insert_Some in Hk as [[_ <-]|[_ Hk]]; [done|]. right. eauto 10.
  - intros d' v e Hu Hb. rewrite Hcnt. destruct Hu as (b & Hb' & Hv & Hr). cbn in Hb'.
    apply lookup_insert_Some in Hb' as [[<- <-]|[_ Hb']]; eapply Ww; try done;
      [exists a|exists b]; done.
  - intros d' v1 e1 v2 e2 (b1 & Hb1 & Hv1 & Hr1) (b2 & Hb2 & Hv2 & Hr2) Hf. cbn in Hb1, Hb2.
    rewrite Hb1 in Hb2. injection Hb2 as <-.
    apply lookup_insert_Some in Hb1 as [[<- <-]|[_ Hb1]]; eapply Wi; try done;
      [exists a|exists a|exists b1|exists b1]; done.
Qed.

Lemma wf_new_dir lo hi G d :
  wf_ghost lo hi G -> g_dirs G !! d = None -> g_ext G d = 1 -> cnt G d = 1 ->
  wf_ghost lo hi (add_ext d (-1) (set_dir d (AS ∅ ∅) G)).
Proof.
  intros Hwf Hd He Hc. pose proof Hwf as [We Wo Wt Ww Wi].
  assert (forall f, cnt (add_ext d (-1) (set_dir d (AS ∅ ∅) G)) f = cnt G f) as Hcnt.
  { intros f. rewrite cnt_add_ext, cnt_new_dir, as_cnt_empty by done.
    case_decide; subst; [rewrite Z.eqb_refl; cbn [b2z]; lia|].
    rewrite (proj2 (Z.eqb_neq d f)) by done. cbn [b2z]. lia. }
  assert (forall d' v e, user_pte (add_ext d (-1) (set_dir d (AS ∅ ∅) G)) d' v e -> user_pte G d' v e)
    as Hup.
  { intros d' v e (b & Hb & Hv & Hr). cbn in Hb.
    apply lookup_insert_Some in Hb as [[<- <-]|[_ Hb]]; [done|]. by exists b. }
  split.
  - intros f. cbn. unfold upd. case_decide; [lia|apply We].
  - intros f. rewrite Hcnt. apply Wo.
  - intros f Hf. rewrite Hcnt. destruct (decide (f = d)) as [->|Hne]; [done|]. apply Wt.
    destruct Hf as [[b Hb]|(d' & b & k & Hb & Hk)]; cbn in Hb.
    + rewrite lookup_insert_ne in Hb by done. left; eauto.
    + apply lookup_insert_Some in Hb as [[<- <-]|[_ Hb]]; [done|right; eauto 10].
  - intros d' v e Hu. rewrite Hcnt. eapply Ww, Hup, Hu.
  - intros d' v1 e1 v2 e2 Hu1 Hu2. eapply Wi; eapply Hup; eassumption.
Qed.

Lemma has_pde p : has (p * 4096 + 7) PTE_P = true.
Proof.
  unfold has, PTE_P. rewrite (Z.land_ones _ 1) by lia.
  apply negb_true_iff, Z.eqb_neq. zdiv.
Qed.

Lemma PTE_ADDR_pde p : PTE_ADDR (p * 4096 + 7) = p * 4096.
Proof. rewrite PTE_ADDR_spec. zdiv. Qed.

Lemma lor_pde p :
  0 <= p < NFRAMES -> Z.lor (Z.lor (Z.lor (V2P (kva p)) PTE_P) PTE_W) PTE_U = p * 4096 + 7.
Proof.
  intros Hp. rewrite V2P_kva0 by done. rewrite <- !Z.lor_assoc.
  change (Z.lor PTE_P (Z.lor PTE_W PTE_U)) with 7. apply lor_aligned. lia.
Qed.

(** ** Entries *)

Lemma lor_bound x y n : 0 <= n -> 0 <= x < 2 ^ n -> 0 <= y < 2 ^ n -> 0 <= Z.lor x y < 2 ^ n.
Proof.
  intros Hn Hx Hy. split; [apply Z.lor_nonneg; lia|].
  destruct (decide (Z.lor x y = 0)) as [->|Hz]; [lia|].
  assert (0 <= Z.lor x y) by (apply Z.lor_nonneg; lia).
  apply Z.log2_lt_pow2; [lia|]. rewrite Z.log2_lor by lia.
  destruct (decide (x = 0)) as [->|], (decide (y = 0)) as [->|]; cbn [Z.log2] in *;
    try (rewrite Z.lor_0_r in *; lia); apply Z.max_lub_lt; try (apply Z.log2_lt_pow2; lia);
    change (Z.log2 0) with 0; (destruct (decide (n = 0)) as [->|]; [cbn in *; lia|lia]).
Qed.

Lemma testbit_entry f fl n : 0 <= n < 12 -> Z.testbit (f * 4096 + fl) n = Z.testbit fl n.
Proof.
  intros Hn. rewrite <- (Z.mod_pow2_bits_low (f * 4096 + fl) 12) by lia.
  rewrite <- (Z.mod_pow2_bits_low fl 12) by lia. f_equal. change (2 ^ 12) with 4096.
  rewrite Z.add_comm. apply Z.mod_add. lia.
Qed.

Lemma pframe_entry f fl : 0 <= fl < 4096 -> pframe (f * 4096 + fl) = f.
Proof. intros. unfold pframe. zdiv. Qed.

Lemma entry_split e : 0 <= e -> e = pframe e * 4096 + PTE_FLAGS e /\ 0 <= PTE_FLAGS e < 4096.
Proof. intros He. rewrite PTE_FLAGS_spec. unfold pframe. zdiv. Qed.

Lemma PTE_ADDR_frame e : PTE_ADDR e = pframe e * 4096.
Proof. rewrite PTE_ADDR_spec. unfold pframe. zdiv. Qed.

(** The word [pa | perm | PTE_P]. *)
Lemma entry_value f perm :
  0 <= perm < 4096 ->
  Z.lor (Z.lor (f * 4096) perm) PTE_P = f * 4096 + Z.lor perm 1 /\ 0 <= Z.lor perm 1 < 4096.
Proof.
  intros Hp. pose proof (lor_bound perm 1 12 ltac:(lia) ltac:(lia) ltac:(lia)) as Hb.
  change (2 ^ 12) with 4096 in Hb. split; [|done].
  rewrite <- Z.lor_assoc. change PTE_P with 1. by apply lor_aligned.
Qed.

Lemma entry_valid f perm :
  0 <= f < NFRAMES -> 0 <= perm < 4096 -> valid_pte (Some (f * 4096 + Z.lor perm 1)).
Proof.
  intros Hf Hp. destruct (entry_value f perm Hp) as [_ Hb]. change NFRAMES with 57344 in *.
  split; [lia|]. rewrite testbit_entry, Z.lor_spec by lia. apply orb_true_r.
Qed.

(** ** Allocator calls under the invariant *)

Section ops.
Context `{KernelImage}.
Implicit Types (G : ghost) (s : mstate) (free : list Z).

Lemma vm_frames lo hi G free s : vm_inv lo hi G free s -> 0 <= lo /\ hi <= NFRAMES.
Proof. intros [Hk _ _]. destruct (ki_range _ _ _ _ _ Hk). lia. Qed.

Lemma vm_table_frame lo hi G free s f : vm_inv lo hi G free s -> is_table G f -> 0 <= f < NFRAMES.
Proof.
  intros Hi Ht. pose proof (vm_frames _ _ _ _ _ Hi).
  pose proof (table_range _ _ _ (vi_wf _ _ _ _ _ Hi) f Ht). lia.
Qed.

Lemma vm_user_frame lo hi G free s d v e :
  vm_inv lo hi G free s -> user_pte G d v e -> lo <= pframe e < hi /\ 0 <= pframe e < NFRAMES.
Proof.
  intros Hi Hu. pose proof (vm_frames _ _ _ _ _ Hi).
  pose proof (user_frame_range _ _ _ (vi_wf _ _ _ _ _ Hi) d v e Hu). lia.
Qed.

Lemma vm_kalloc_wp lo hi G free (Q : Z -> mstate -> Prop) s :
  vm_inv lo hi G free s ->
  (free = [] -> Q 0 s) ->
  (forall f rest s', free = f :: rest -> lo <= f < hi -> cnt G f = 0 -> same_cpu s s' ->
     mem s' = mem s -> vm_inv lo hi (add_ext f 1 G) rest s' -> Q (kva f) s') ->
  wp kalloc Q s.
Proof.
  intros [Hk Hr Hwf] H0 H1. eapply kalloc_wp; [done|done|].
  intros f rest s' Hfree Hf Hsc Hm Hk'.
  destruct (proj1 (ki_free _ _ _ _ _ Hk f)) as [_ Hc0]; [rewrite Hfree; set_solver|].
  apply (H1 f rest s'); try done. pose proof (wg_ext _ _ _ Hwf f) as He.
  pose proof (cnt_ge_ext G f). assert (g_ext G f = 0) as He0 by lia. split.
  - eapply kmem_inv_ext; [|exact Hk']. intros g. rewrite cnt_add_ext. unfold upd.
    case_decide; subst; lia.
  - intros d a Hd. rewrite Hm. by apply Hr.
  - apply wf_add_ext; try done; [lia| |].
    + intros Ht. pose proof (wg_table _ _ _ Hwf f Ht). lia.
    + intros d v e Hu <-. pose proof (user_cnt _ _ _ Hwf d v e Hu). lia.
Qed.

Lemma vm_kfree_wp lo hi G free f (Q : unit -> mstate -> Prop) s :
  vm_inv lo hi G free s -> 1 <= g_ext G f ->
  (forall free' s', same_cpu s s' -> vm_inv lo hi (add_ext f (-1) G) free' s' ->
     (forall g, g <> f \/ 1 < cnt G f -> page_of (mem s') g = page_of (mem s) g) ->
     free' = (if cnt G f =? 1 then f :: free else free) -> Q tt s') ->
  wp (kfree (kva f)) Q s.
Proof.
  intros [Hk Hr Hwf] He HQ. pose proof (cnt_ge_ext G f) as Hge.
  pose proof (wg_owned _ _ _ Hwf f ltac:(lia)) as Hf.
  pose proof (ext_not_table _ _ _ Hwf f He) as Hnt.
  assert (wf_ghost lo hi (add_ext f (-1) G)) as Hwf'.
  { apply wf_add_ext; try done; [lia|]. intros d v e (a & Hd & Hv & Hu) <- Hb.
    pose proof (wg_write _ _ _ Hwf d v e (ex_intro _ a (conj Hd (conj Hv Hu))) Hb).
    pose proof (cnt_ge_dir G (pframe e) d a Hd).
    pose proof (as_cnt_pte (pframe e) d a v e Hv ltac:(lia) eq_refl). cnt_nonneg. lia. }
  assert (forall s' n free', kmem_inv lo hi (upd (cnt G) f n) free' s' -> n = cnt G f - 1 ->
            (forall g, g <> f \/ 1 < cnt G f -> page_of (mem s') g = page_of (mem s) g) ->
            vm_inv lo hi (add_ext f (-1) G) free' s') as Hinv.
  { intros s' n free' Hk' -> Hpg. split; [|eapply reps_ext; [|exact Hr]|done].
    - eapply kmem_inv_ext; [|exact Hk']. intros g. rewrite cnt_add_ext. unfold upd.
      case_decide; subst; lia.
    - intros g Hg. apply Hpg. left. intros ->. done. }
  eapply kfree_wp; [done|lia|lia| |].
  - intros s' Hsc Hlt Hm Hk'. eapply HQ; [done| | |].
    + eapply Hinv; [exact Hk'|done|]. intros. by rewrite Hm.
    + intros. by rewrite Hm.
    + rewrite (proj2 (Z.eqb_neq _ _)) by lia. done.
  - intros s' Hsc H1 Hpg Hk'.
    assert (forall g, g <> f \/ 1 < cnt G f -> page_of (mem s') g = page_of (mem s) g) as Hpg'.
    { intros g [Hg|Hg]; [by apply Hpg|lia]. }
    eapply HQ; [done| |exact Hpg'|].
    + eapply Hinv; [exact Hk'|lia|done].
    + rewrite (proj2 (Z.eqb_eq _ _)) by lia. done.
Qed.

Lemma walkpgdir_find_wp lo hi G free d a va (Q : Z -> mstate -> Prop) s :
  vm_inv lo hi G free s -> g_dirs G !! d = Some a -> 0 <= va < 2 ^ 32 ->
  Q (match as_pt a !! (vpn va / 1024) with
     | Some p => kva p + 4 * (vpn va mod 1024)
     | None => 0
     end) s ->
  wp (walkpgdir (kva d) va false) Q s.
Proof.
  intros Hi Hd Hva HQ. unfold walkpgdir. cbv zeta. rewrite PDX_vpn, PTX_vpn by done.
  assert (is_table G d) as Htd by (left; eauto).
  pose proof (vm_table_frame _ _ _ _ _ d Hi Htd).
  assert (0 <= vpn va / 1024 < 1024) as Hpd by (unfold vpn; zdiv).
  apply wp_bind, load_word; [done..|].
  destruct (vi_rep _ _ _ _ _ Hi d a Hd) as [Hpde _ _ _ _]. rewrite (Hpde _ Hpd).
  destruct (as_pt a !! (vpn va / 1024)) as [p|] eqn:E.
  - assert (is_table G p) as Htp by (right; eauto).
    pose proof (vm_table_frame _ _ _ _ _ p Hi Htp).
    rewrite has_pde. apply wp_ret. by rewrite PTE_ADDR_pde, P2V_frame.
  - cbn. apply wp_ret. done.
Qed.
End ops.
