(* ===== verification/VmOps.v ===== *)
(** * Specifications of the page-table operations

    Each operation of vm.c, run in a state satisfying [vm_inv], returns without
    panicking in a state satisfying [vm_inv] for the updated abstract state. *)

From S2P Require Import Prelude Monad Machine Kalloc Vm VmInv.

Section ops.
Context `{KernelImage}.
Implicit Types (G : ghost) (s : mstate) (free : list Z) (a : aspace).

Lemma vm_inv_ext lo hi G G' free s :
  g_dirs G' = g_dirs G -> (forall f, g_ext G' f = g_ext G f) ->
  vm_inv lo hi G free s -> vm_inv lo hi G' free s.
Proof.
  destruct G as [D x], G' as [D' x']; cbn. intros -> Hx [Hk Hr [We Wo Wt Ww Wi]].
  assert (forall f, cnt (MkG D x') f = cnt (MkG D x) f) as Hc by (intros f; unfold cnt; cbn; by rewrite Hx).
  split; [eapply kmem_inv_ext; [exact Hc|done]|done|]. split.
  - intros f. cbn. rewrite Hx. apply We.
  - intros f. rewrite Hc. apply Wo.
  - intros f Hf. rewrite Hc. by apply Wt.
  - intros d v e Hu. rewrite Hc. by apply (Ww d v e).
  - done.
Qed.

(** Memory changes in [s'] that keep tables and free frames. *)
Lemma kmem_inv_mem lo hi c free s m' :
  kmem_inv lo hi c free s -> wf_mem m' ->
  (forall f, f ∈ free -> page_of m' f = page_of (mem s) f) ->
  kmem_inv lo hi c free (set_mem m' s).
Proof.
  intros [? Hc ? ? ? ? ? ?] Hw Hp. split; cbn; try done.
  eapply free_chain_ext; [|exact Hc]. intros f Hf. unfold word. by rewrite Hp.
Qed.

Lemma free_cnt lo hi G free s f : vm_inv lo hi G free s -> f ∈ free -> cnt G f = 0.
Proof. intros Hi Hf. by apply (ki_free _ _ _ _ _ (vi_kmem _ _ _ _ _ Hi)) in Hf as [_ ?]. Qed.

Lemma table_not_free lo hi G free s f : vm_inv lo hi G free s -> is_table G f -> f ∉ free.
Proof.
  intros Hi Ht Hf. pose proof (free_cnt _ _ _ _ _ f Hi Hf).
  pose proof (wg_table _ _ _ (vi_wf _ _ _ _ _ Hi) f Ht). lia.
Qed.

(** Only page tables changed between [s] and [s']. *)
Definition data_same (G : ghost) (s s' : mstate) : Prop :=
  forall g, ~ is_table G g -> page_of (mem s') g = page_of (mem s) g.

(** Frames that became page tables were not in use, frames in use still are. *)
Record grows (G G' : ghost) : Prop := {
  gr_table : forall g, is_table G' g -> is_table G g \/ cnt G g = 0;
  gr_live : forall g, 0 < cnt G g -> 0 < cnt G' g
}.

(** The tables of [a'] extend those of [a]. *)
Definition pt_grow (a a' : aspace) : Prop :=
  as_pte a' = as_pte a /\ (forall i p, as_pt a !! i = Some p -> as_pt a' !! i = Some p).

Lemma set_dir_same G d a : g_dirs G !! d = Some a -> g_dirs (set_dir d a G) = g_dirs G.
Proof. intros. cbn. by apply insert_id. Qed.

Lemma is_table_set_same G d a g :
  g_dirs G !! d = Some a -> is_table (set_dir d a G) g <-> is_table G g.
Proof. intros Hd. unfold is_table. by rewrite set_dir_same. Qed.

(** ** State updates that keep the invariant *)

(** Writing a page that is neither a table nor free. *)
Lemma vm_inv_data lo hi G free s f pg :
  vm_inv lo hi G free s -> ~ is_table G f -> f ∉ free -> length pg = 1024%nat ->
  vm_inv lo hi G free (set_mem (<[f := pg]> (mem s)) s).
Proof.
  intros [Hk Hr Hwf] Hnt Hnf Hlen. split; [| |done].
  - apply kmem_inv_mem; [done|apply wf_mem_insert; [by apply ki_wf in Hk|done]|].
    intros g Hg. apply page_of_insert_ne. set_solver.
  - cbn. eapply reps_ext; [|exact Hr]. intros g Hg. apply page_of_insert_ne. naive_solver.
Qed.

Lemma ext_not_free lo hi G free s f : vm_inv lo hi G free s -> 1 <= g_ext G f -> f ∉ free.
Proof. intros Hi He Hf. pose proof (free_cnt _ _ _ _ _ f Hi Hf). pose proof (cnt_ge_ext G f). lia. Qed.

Lemma cnt_add_pt G d a i p f :
  g_dirs G !! d = Some a -> as_pt a !! i = None ->
  cnt (add_ext p (-1) (set_dir d (put_pt i p a) G)) f = cnt G f.
Proof.
  intros Hd Hi. rewrite cnt_add_ext, (cnt_set_dir d a) by done. rewrite as_cnt_put_pt by done.
  case_decide; subst; [rewrite Z.eqb_refl; cbn [b2z]; lia|].
  rewrite (proj2 (Z.eqb_neq p f)) by done. cbn [b2z]. lia.
Qed.

(** Linking the zeroed page [p] as the page table of index [i]. *)
Lemma vm_inv_add_pt lo hi G free s d a i p :
  vm_inv lo hi G free s -> g_dirs G !! d = Some a -> as_pt a !! i = None -> 0 <= i < 1024 ->
  g_ext G p = 1 -> cnt G p = 1 -> page_of (mem s) p = fill_page 0 ->
  vm_inv lo hi (add_ext p (-1) (set_dir d (put_pt i p a) G)) free
    (set_mem (<[d := <[Z.to_nat i := u32 (p * 4096 + 7)]> (page_of (mem s) d)]> (mem s)) s).
Proof.
  intros Hi Hd Hpt Hir He Hc Hz. pose proof Hi as [Hk Hr Hwf].
  pose proof (ki_wf _ _ _ _ _ Hk) as Hwm. pose proof (vm_frames _ _ _ _ _ Hi).
  pose proof (wg_owned _ _ _ Hwf p ltac:(lia)). split.
  - eapply kmem_inv_ext; [intros f; by apply cnt_add_pt|]. apply kmem_inv_mem; [done| |].
    + apply wf_mem_insert; [done|]. by rewrite length_insert.
    + intros f Hf. apply page_of_insert_ne. intros <-.
      eapply table_not_free; [exact Hi|left; eauto|done].
  - cbn [set_mem mem]. eapply reps_add_pt; try done; [lia|].
    apply (ext_not_table _ _ _ Hwf). lia.
  - by apply wf_put_pt.
Qed.

(** Storing the entry of page [i * 1024 + j] when counts do not change. *)
Lemma vm_inv_store_pte lo hi G free s d a i p j oe ext' :
  vm_inv lo hi G free s -> g_dirs G !! d = Some a -> as_pt a !! i = Some p -> 0 <= j < 1024 ->
  valid_pte oe ->
  let G' := MkG (<[d := put_pte (i * 1024 + j) oe a]> (g_dirs G)) ext' in
  (forall f, 0 <= ext' f) -> (forall f, cnt G' f = cnt G f) ->
  (forall e, oe = Some e -> 0 <= i * 1024 + j < UPAGES ->
     (Z.testbit e 1 = true -> cnt G (pframe e) = 1) /\
     (forall v' e', v' <> i * 1024 + j -> user_pte G d v' e' -> pframe e' <> pframe e)) ->
  vm_inv lo hi G' free
    (set_mem (<[p := <[Z.to_nat j := u32 (default 0 oe)]> (page_of (mem s) p)]> (mem s)) s).
Proof.
  intros Hi Hd Hpt Hj Hoe G' Hext Hcnt Hnew. pose proof Hi as [Hk Hr Hwf].
  pose proof (ki_wf _ _ _ _ _ Hk) as Hwm. split.
  - eapply kmem_inv_ext; [exact Hcnt|]. apply kmem_inv_mem; [done| |].
    + apply wf_mem_insert; [done|]. by rewrite length_insert.
    + intros f Hf. apply page_of_insert_ne. intros <-.
      eapply table_not_free; [exact Hi|right; eauto|done].
  - cbn [set_mem mem]. eapply reps_store_pte; done.
  - by eapply wf_put_pte.
Qed.

(** ** [walkpgdir] *)

Lemma walkpgdir_alloc_wp lo hi G free d a va (Q : Z -> mstate -> Prop) s :
  vm_inv lo hi G free s -> g_dirs G !! d = Some a -> 0 <= va < 2 ^ 32 ->
  (free = [] -> Q 0 s) ->
  (forall a' free' p s', pt_grow a a' -> as_pt a' !! (vpn va / 1024) = Some p ->
     vm_inv lo hi (set_dir d a' G) free' s' -> same_cpu s s' ->
     data_same (set_dir d a' G) s s' -> free' `suffix_of` free ->
     (forall f, cnt (set_dir d a' G) f = cnt G f \/ cnt G f = 0) ->
     grows G (set_dir d a' G) ->
     Q (kva p + 4 * (vpn va mod 1024)) s') ->
  wp (walkpgdir (kva d) va true) Q s.
Proof.
  intros Hi Hd Hva H0 H1. unfold walkpgdir. cbv zeta. rewrite PDX_vpn, PTX_vpn by done.
  assert (is_table G d) as Htd by (left; eauto).
  pose proof (vm_table_frame _ _ _ _ _ d Hi Htd).
  assert (0 <= vpn va / 1024 < 1024) as Hpd by (unfold vpn; zdiv).
  set (i := vpn va / 1024) in *. apply wp_bind, load_word; [done..|].
  destruct (vi_rep _ _ _ _ _ Hi d a Hd) as [Hpde _ _ _ _]. rewrite (Hpde _ Hpd).
  destruct (as_pt a !! i) as [p|] eqn:E.
  - assert (is_table G p) as Htp by (right; eauto).
    pose proof (vm_table_frame _ _ _ _ _ p Hi Htp).
    rewrite has_pde. apply wp_ret. rewrite PTE_ADDR_pde, P2V_frame by done.
    eapply (H1 a free p s); try done.
    + eapply vm_inv_ext; [by apply set_dir_same|done|done].
    + intros f. left. rewrite (cnt_set_dir d a) by done. lia.
    + split; intros g Hg; [left; by rewrite <- (is_table_set_same G d a)|].
      rewrite (cnt_set_dir d a) by done. lia.
  - change (has 0 PTE_P) with false. cbn [negb]. apply wp_bind.
    eapply vm_kalloc_wp; [done|by intros ->; apply H0|].
    intros p rest s1 -> Hp Hc0 Hsc1 Hm1 Hi1. pose proof (vm_frames _ _ _ _ _ Hi).
    rewrite (proj2 (Z.eqb_neq _ _)) by (apply kva_nonzero; lia).
    apply wp_bind, memset_page_wp; [lia|]. apply wp_bind, store_word; [done..|]. apply wp_ret.
    pose proof (vi_wf _ _ _ _ _ Hi) as Hwf. pose proof (vi_wf _ _ _ _ _ Hi1) as Hwf1.
    assert (g_ext G p = 0) as He0 by (pose proof (cnt_ge_ext G p); pose proof (wg_ext _ _ _ Hwf p); lia).
    assert (1 <= g_ext (add_ext p 1 G) p) as He1 by (cbn; rewrite upd_eq; lia).
    apply (vm_inv_data _ _ _ _ _ p (fill_page 0)) in Hi1;
      [|by eapply ext_not_table|by eapply ext_not_free|apply length_fill_page].
    eapply (vm_inv_add_pt _ _ _ _ _ d a i p) in Hi1; try done;
      [|cbn; rewrite upd_eq; lia|rewrite cnt_add_ext, decide_True by done; lia
       |cbn; apply page_of_insert_eq].
    rewrite lor_pde by lia. eapply (H1 (put_pt i p a) rest p); try done.
    + split; [done|]. intros k q Hk. cbn. rewrite lookup_insert_ne by congruence. done.
    + cbn. by rewrite lookup_insert_eq.
    + eapply vm_inv_ext; [| |exact Hi1]; [done|].
      intros f. cbn. unfold upd. repeat case_decide; subst; lia.
    + intros g Hg. cbn. rewrite !page_of_insert_ne; [by rewrite Hm1| |].
      * intros <-. apply Hg. right. exists d, (put_pt i p a), i. cbn. by rewrite !lookup_insert_eq.
      * intros <-. apply Hg. left. cbn. rewrite lookup_insert_eq. eauto.
    + by apply suffix_cons_r.
    + intros f. rewrite (cnt_set_dir d a), as_cnt_put_pt by done.
      destruct (p =? f) eqn:Epf; zbool; [subst; by right|left; cbn; lia].
    + split; [|intros g Hg; rewrite (cnt_set_dir d a), as_cnt_put_pt by done;
                 pose proof (b2z_nonneg (p =? g)); lia].
      intros g [[b Hb]|(d' & b & k & Hb & Hk)]; cbn in Hb.
      * left. left. apply lookup_insert_Some in Hb as [[<- _]|[_ Hb]]; eauto.
      * apply lookup_insert_Some in Hb as [[<- <-]|[_ Hb]]; [|left; right; eauto].
        cbn in Hk. apply lookup_insert_Some in Hk as [[_ <-]|[_ Hk]]; [by right|left; right; eauto].
Qed.

(** ** [mappages] *)

Lemma is_table_put_pte G d a v oe ext' g :
  g_dirs G !! d = Some a ->
  is_table G g <-> is_table (MkG (<[d := put_pte v oe a]> (g_dirs G)) ext') g.
Proof.
  intros Hd. split; (intros [[b Hb]|(d' & b & k & Hb & Hk)]; [left|right]); cbn in *.
  - destruct (decide (d = g)) as [->|]; [rewrite lookup_insert_eq|rewrite lookup_insert_ne]; eauto.
  - destruct (decide (d = d')) as [<-|].
    + exists d, (put_pte v oe a), k. rewrite lookup_insert_eq. by simplify_eq.
    + exists d', b, k. by rewrite lookup_insert_ne.
  - apply lookup_insert_Some in Hb as [[<- _]|[_ Hb]]; eauto.
  - apply lookup_insert_Some in Hb as [[<- <-]|[_ Hb]]; eauto 10.
Qed.

Lemma cnt_map G d a v e f :
  g_dirs G !! d = Some a -> as_pte a !! v = None -> v < UPAGES ->
  cnt (add_ext (pframe e) (-1) (set_dir d (put_pte v (Some e) a) G)) f = cnt G f.
Proof.
  intros Hd Hv Hu. rewrite cnt_add_ext, (cnt_set_dir d a), as_cnt_put_pte, Hv by done. cbn.
  unfold pte_ref. rewrite (proj2 (Z.ltb_lt _ _) Hu). cbn.
  case_decide; subst; [rewrite Z.eqb_refl; cbn; lia|].
  rewrite (proj2 (Z.eqb_neq (pframe e) f)) by done. cbn. lia.
Qed.

Lemma split_vpn v : 0 <= v < 2 ^ 20 ->
  vpn (v * 4096) = v /\ v = v / 1024 * 1024 + v mod 1024 /\ 0 <= v mod 1024 < 1024 /\
  0 <= v * 4096 < 2 ^ 32.
Proof. intros. unfold vpn. zdiv. Qed.

(** One iteration of the loop of [mappages], before the test that ends it. *)
Lemma map_step_wp lo hi G free d a v pa perm e ext' (k : M mstate Z) (Q : Z -> mstate -> Prop) s :
  vm_inv lo hi G free s -> g_dirs G !! d = Some a -> 0 <= v < 2 ^ 20 -> as_pte a !! v = None ->
  e = Z.lor (Z.lor pa perm) PTE_P -> valid_pte (Some e) ->
  (forall f, 0 <= ext' f) ->
  (forall a' f, as_pte a' !! v = None -> cnt (MkG (<[d := put_pte v (Some e) a']> (g_dirs G)) ext') f =
                cnt (set_dir d a' G) f) ->
  (v < UPAGES -> 1 <= cnt G (pframe e) /\ (Z.testbit e 1 = true -> cnt G (pframe e) = 1) /\
     (forall v' e', user_pte G d v' e' -> pframe e' <> pframe e)) ->
  (free = [] -> Q (-1) s) ->
  (forall a' free' s', pt_grow a a' ->
     let G' := MkG (<[d := put_pte v (Some e) a']> (g_dirs G)) ext' in
     vm_inv lo hi G' free' s' -> same_cpu s s' -> data_same G' s s' -> free' `suffix_of` free ->
     grows G G' -> wp k Q s') ->
  wp (let* pte := walkpgdir (kva d) (v * 4096) true in
      if pte =? 0 then ret (-1) else
      let* e := load pte in
      if has e PTE_P then panic "remap" else
      store pte (Z.lor (Z.lor pa perm) PTE_P) ;;; k) Q s.
Proof.
  intros Hi Hd Hv Hnone Ee Hval Hext Hcnt Huser H0 H1.
  destruct (split_vpn v Hv) as (Evpn & Esplit & Hmod & Hva). rewrite <- Ee. apply wp_bind.
  eapply walkpgdir_alloc_wp; [done..|by intros ->; apply wp_ret, H0|].
  intros a' free' p s1 Hg Hp Hi1 Hsc1 Hds1 Hsuf Hcg Hnew. rewrite Evpn in *.
  assert (g_dirs (set_dir d a' G) !! d = Some a') as Hd1 by (cbn; by rewrite lookup_insert_eq).
  assert (is_table (set_dir d a' G) p) as Htp by (right; eauto).
  pose proof (vm_table_frame _ _ _ _ _ p Hi1 Htp) as Hpf.
  rewrite (proj2 (Z.eqb_neq _ _)) by (unfold kva, KERNBASE; lia).
  apply wp_bind, load_word; [done..|].
  destruct Hg as [Hgp Hgt]. assert (as_pte a' !! v = None) as Hnone' by (by rewrite Hgp).
  destruct (vi_rep _ _ _ _ _ Hi1 d a' Hd1) as [_ Hpte _ _ _].
  rewrite (Hpte _ _ _ Hp Hmod), <- Esplit, Hnone'. change (has (default 0 None) PTE_P) with false.
  apply wp_bind, store_word; [done..|].
  eapply (H1 a' free'); [by split| |exact Hsc1| |done|].
  - eapply (vm_inv_store_pte _ _ _ _ _ d a' (v / 1024) p (v mod 1024) (Some e) ext') in Hi1; try done.
    + rewrite <- Esplit in Hi1. eapply vm_inv_ext; [| |exact Hi1]; [|done].
      cbn. by rewrite insert_insert_eq.
    + intros g. rewrite <- Esplit, <- Hcnt by done. unfold cnt; cbn. by rewrite insert_insert_eq.
    + rewrite <- Esplit. intros e' [= <-] [_ Hu]. destruct (Huser Hu) as (Hc1 & Hw & Hinj). split.
      * intros Hb. destruct (Hcg (pframe e)) as [->|]; [by apply Hw|lia].
      * intros v' e' Hne (b & Hb & Hv' & Hr'). rewrite Hd1 in Hb. injection Hb as <-.
        apply (Hinj v'). exists a. by rewrite <- Hgp.
  - intros g Hg. cbn. rewrite page_of_insert_ne; [apply Hds1; intros Ht; apply Hg|].
    + apply (is_table_put_pte _ d a' v (Some e) ext' g Hd1) in Ht. cbn in Ht.
      by rewrite insert_insert_eq in Ht.
    + intros <-. apply Hg. right. exists d, (put_pte v (Some e) a'), (v / 1024). cbn.
      by rewrite lookup_insert_eq.
  - split; intros g Hg; [|rewrite Hcnt by done; by apply (gr_live _ _ Hnew)].
    apply (gr_table _ _ Hnew), (is_table_put_pte _ d a' v (Some e) ext' g Hd1). cbn.
    by rewrite insert_insert_eq.
Qed.

(** Mapping one user page to frame [f], of which the caller gives up a
    reference.  It fails only when no frame is left for a page table. *)
Lemma mappages_user_wp lo hi G free d a v f perm (Q : Z -> mstate -> Prop) s :
  vm_inv lo hi G free s -> g_dirs G !! d = Some a -> 0 <= v < UPAGES -> as_pte a !! v = None ->
  1 <= g_ext G f -> 0 <= perm < 4096 -> (Z.testbit perm 1 = true -> cnt G f = 1) ->
  (forall v' e', user_pte G d v' e' -> pframe e' <> f) ->
  (free = [] -> Q (-1) s) ->
  (forall a' free' s', pt_grow a a' ->
     let G' := add_ext f (-1) (set_dir d (put_pte v (Some (f * 4096 + Z.lor perm 1)) a') G) in
     vm_inv lo hi G' free' s' -> same_cpu s s' -> data_same G' s s' -> free' `suffix_of` free ->
     grows G G' -> Q 0 s') ->
  wp (mappages (kva d) (v * 4096) PGSIZE (f * 4096) perm) Q s.
Proof.
  intros Hi Hd Hv Hnone He Hperm Hw Hinj H0 H1. unfold UPAGES in Hv.
  unfold mappages. rewrite !PGROUNDDOWN_spec. unfold PGSIZE.
  rewrite (u32_small (v * 4096 + 4096 - 1)) by lia.
  replace (v * 4096 - (v * 4096) mod 4096) with (v * 4096) by zdiv.
  replace (v * 4096 + 4096 - 1 - (v * 4096 + 4096 - 1) mod 4096) with (v * 4096) by zdiv.
  rewrite Z.sub_diag. cbn [mappages_loop].
  pose proof (cnt_ge_ext G f). pose proof (vm_frames _ _ _ _ _ Hi).
  pose proof (wg_owned _ _ _ (vi_wf _ _ _ _ _ Hi) f ltac:(lia)).
  destruct (entry_value f perm Hperm) as [Ee Hfl].
  pose proof (pframe_entry f _ Hfl) as Ef.
  eapply (map_step_wp lo hi G free d a v (f * 4096) perm (f * 4096 + Z.lor perm 1)
            (g_ext (add_ext f (-1) G)));
    [done|done|lia|done|by rewrite Ee|by apply entry_valid; [lia|]| | | |done|].
  - intros g. cbn. unfold upd. pose proof (wg_ext _ _ _ (vi_wf _ _ _ _ _ Hi) g). case_decide; lia.
  - intros a' g Ha'. pose proof (cnt_map (set_dir d a' G) d a' v (f * 4096 + Z.lor perm 1) g) as Hc.
    cbn in Hc. rewrite <- Hc; [|by rewrite lookup_insert_eq|done|unfold UPAGES; lia].
    unfold cnt; cbn. by rewrite Ef, insert_insert_eq.
  - intros _. rewrite Ef. split_and!; [lia| |done].
    intros Hb. apply Hw. by rewrite testbit_entry, Z.lor_spec, orb_false_r in Hb by lia.
  - intros a' free' s' Hg G' Hi' Hsc Hds Hsuf Hnew. rewrite Z.eqb_refl. apply wp_ret.
    by eapply (H1 a' free').
Qed.

(** *** Kernel ranges *)

Definition same_user (a a' : aspace) : Prop :=
  forall v, 0 <= v < UPAGES -> as_pte a' !! v = as_pte a !! v.

(** The entry of page [v + k] in a range mapped from frame [q]. *)
Definition range_pte (v n q perm u : Z) : option Z :=
  if (v <=? u) && (u <? v + n) then Some ((q + (u - v)) * 4096 + Z.lor perm 1) else None.

Definition tables_grow (a a' : aspace) : Prop :=
  forall i p, as_pt a !! i = Some p -> as_pt a' !! i = Some p.

Lemma cnt_kernel_pte G d a v e f :
  g_dirs G !! d = Some a -> UPAGES <= v -> cnt (set_dir d (put_pte v (Some e) a) G) f = cnt G f - 0.
Proof.
  intros Hd Hv. rewrite (cnt_set_dir d a), as_cnt_put_pte by done. unfold pte_ref.
  rewrite (proj2 (Z.ltb_ge _ _) Hv). destruct (as_pte a !! v); cbn; lia.
Qed.

Lemma data_same_trans G G' s s1 s2 :
  (forall g, is_table G g -> is_table G' g) ->
  data_same G s s1 -> data_same G' s1 s2 -> data_same G' s s2.
Proof. intros Hsub H1 H2 g Hg. rewrite H2 by done. apply H1. intros Ht. by apply Hg, Hsub. Qed.

Lemma is_table_grow G d a a' ext' g :
  g_dirs G !! d = Some a -> tables_grow a a' ->
  is_table G g -> is_table (MkG (<[d := a']> (g_dirs G)) ext') g.
Proof.
  intros Hd Hg [[b Hb]|(d' & b & k & Hb & Hk)]; [left|right]; cbn in *.
  - destruct (decide (d = g)) as [->|]; [rewrite lookup_insert_eq|rewrite lookup_insert_ne]; eauto.
  - destruct (decide (d = d')) as [<-|].
    + exists d, a', k. rewrite lookup_insert_eq. simplify_eq. by rewrite (Hg k g).
    + exists d', b, k. by rewrite lookup_insert_ne.
Qed.

Lemma range_pte_cons v n q perm u :
  1 <= n -> range_pte v n q perm u = if decide (u = v) then Some (q * 4096 + Z.lor perm 1) else range_pte (v + 1) (n - 1) (q + 1) perm u.
Proof.
  intros Hn. unfold range_pte. case_decide as E.
  - subst u. rewrite Z.leb_refl, (proj2 (Z.ltb_lt _ _)) by lia. cbn [andb]. do 2 f_equal. lia.
  - destruct (Z.leb_spec v u), (Z.ltb_spec u (v + n)), (Z.leb_spec (v + 1) u), (Z.ltb_spec u (v + 1 + (n - 1))); cbn [andb]; try lia; try done.
    do 2 f_equal. lia.
Qed.

Lemma range_pte_none v q perm u : range_pte v 0 q perm u = None.
Proof. unfold range_pte. destruct (Z.leb_spec v u), (Z.ltb_spec u (v + 0)); cbn [andb]; lia || done. Qed.

Lemma mappages_kernel_loop_wp d perm lo hi fuel G free a v n q (Q : Z -> mstate -> Prop) s :
  vm_inv lo hi G free s -> g_dirs G !! d = Some a -> UPAGES <= v -> 1 <= n -> v + n <= 2 ^ 20 ->
  0 <= q -> q + n <= 2 ^ 20 -> 0 <= perm < 4096 -> (Z.to_nat n <= fuel)%nat ->
  (forall u, v <= u < v + n -> as_pte a !! u = None) ->
  (forall a' free' s', same_user a a' -> tables_grow a a' -> vm_inv lo hi (set_dir d a' G) free' s' ->
     same_cpu s s' -> data_same (set_dir d a' G) s s' -> free' `suffix_of` free -> Q (-1) s') ->
  (forall a' free' s', tables_grow a a' ->
     (forall u, as_pte a' !! u = match range_pte v n q perm u with
                                 | Some e => Some e | None => as_pte a !! u end) ->
     vm_inv lo hi (set_dir d a' G) free' s' ->
     same_cpu s s' -> data_same (set_dir d a' G) s s' -> free' `suffix_of` free -> Q 0 s') ->
  wp (mappages_loop fuel (kva d) (v * 4096) ((v + n - 1) * 4096) (q * 4096) perm) Q s.
Proof.
  revert G free a v n q s. induction fuel as [|fuel IH];
    intros G free a v n q s Hi Hd Hv Hn Hvn Hq Hqn Hperm Hfuel Hnone H0 H1; [lia|].
  cbn [mappages_loop]. destruct (entry_value q perm Hperm) as [Ee Hfl].
  unfold UPAGES in *.
  eapply (map_step_wp lo hi G free d a v (q * 4096) perm (q * 4096 + Z.lor perm 1) (g_ext G));
    [done|done|lia|apply Hnone; lia|done| |apply (wg_ext _ _ _ (vi_wf _ _ _ _ _ Hi))| | | |].
  - split; [lia|]. rewrite testbit_entry, Z.lor_spec by lia. apply orb_true_r.
  - intros a' f Ha'.
    assert (g_dirs (set_dir d a' G) !! d = Some a') as Hd' by (cbn; by rewrite lookup_insert_eq).
    rewrite <- (Z.sub_0_r (cnt (set_dir d a' G) f)).
    rewrite <- (cnt_kernel_pte (set_dir d a' G) d a' v (q * 4096 + Z.lor perm 1) f Hd' Hv).
    unfold cnt, set_dir; cbn. by rewrite insert_insert_eq.
  - unfold UPAGES. lia.
  - intros ->. eapply (H0 a []); [done|by intros ??| |done..]. eapply vm_inv_ext; [by apply set_dir_same|done|done].
  - intros a1 free1 s1 [Hp1 Ht1] G' Hi1 Hsc1 Hds1 Hsuf1 _.
    change G' with (set_dir d (put_pte v (Some (q * 4096 + Z.lor perm 1)) a1) G) in *.
    set (b := put_pte v (Some (q * 4096 + Z.lor perm 1)) a1) in *.
    assert (forall u, as_pte b !! u = if decide (u = v) then Some (q * 4096 + Z.lor perm 1) else as_pte a !! u) as Hb.
    { intros u. subst b. cbn. rewrite Hp1. case_decide as E; [subst u; apply lookup_partial_alter_eq|by rewrite lookup_partial_alter_ne by congruence]. }
    destruct (decide (n = 1)) as [->|Hn1].
    + rewrite (proj2 (Z.eqb_eq _ _)) by lia. apply wp_ret. eapply (H1 b free1); try done.
      intros u. rewrite range_pte_cons, range_pte_none, Hb by lia. by case_decide.
    + rewrite (proj2 (Z.eqb_neq _ _)) by lia. unfold PGSIZE. rewrite !u32_small by lia.
      replace (v * 4096 + 4096) with ((v + 1) * 4096) by lia.
      replace (q * 4096 + 4096) with ((q + 1) * 4096) by lia.
      replace (v + n - 1) with (v + 1 + (n - 1) - 1) by lia.
      assert (g_dirs (set_dir d b G) !! d = Some b) as Hd1 by (cbn; by rewrite lookup_insert_eq).
      assert (forall a2, set_dir d a2 (set_dir d b G) = set_dir d a2 G) as Esd
        by (intros a2; unfold set_dir; cbn; by rewrite insert_insert_eq).
      assert (tables_grow a b) as Hgb by (intros k r Hk; by apply Ht1).
      eapply (IH _ _ b); try done; try lia.
      * intros u Hu. rewrite Hb, decide_False by lia. apply Hnone. lia.
      * intros a2 free2 s2 Hu2 Hg2 Hi2 Hsc2 Hds2 Hsuf2. rewrite Esd in *.
        eapply (H0 a2 free2); try done.
        -- intros u Hu. rewrite Hu2, Hb, decide_False by (done || unfold UPAGES in *; lia). done.
        -- intros k r Hk. by apply Hg2, Hgb.
        -- by trans s1.
        -- eapply data_same_trans; [|exact Hds1|exact Hds2].
           intros g Hg. rewrite <- Esd. by eapply is_table_grow.
        -- by trans free1.
      * intros a2 free2 s2 Hg2 Hu2 Hi2 Hsc2 Hds2 Hsuf2. rewrite Esd in *.
        eapply (H1 a2 free2); try done.
        -- intros k r Hk. by apply Hg2, Hgb.
        -- intros u. rewrite Hu2, (range_pte_cons v n) by lia. rewrite Hb. destruct (decide (u = v)) as [->|]; [|done].
           unfold range_pte. by rewrite (proj2 (Z.leb_gt _ _)) by lia.
        -- by trans s1.
        -- eapply data_same_trans; [|exact Hds1|exact Hds2].
           intros g Hg. rewrite <- Esd. by eapply is_table_grow.
        -- by trans free1.
Qed.

End ops.
