(* ===== verification/VmFree.v ===== *)
(** * Releasing memory: [deallocuvm] and [freevm]

    Unmapping a range of user pages drops one reference of each frame, and
    freeing an address space returns its page tables and its directory. *)

From S2P Require Import Prelude Monad Machine Kalloc Vm VmInv VmOps.

Section ops.
Context `{KernelImage}.
Implicit Types (G : ghost) (s : mstate) (free : list Z) (a : aspace).

(** Pages that are still referenced keep their contents. *)
Definition data_kept (G : ghost) (s s' : mstate) : Prop :=
  forall g, 0 < cnt G g -> ~ is_table G g -> page_of (mem s') g = page_of (mem s) g.

Lemma data_kept_trans G1 G2 s s1 s2 :
  data_kept G1 s s1 -> data_kept G2 s1 s2 ->
  (forall g, 0 < cnt G2 g -> ~ is_table G2 g -> 0 < cnt G1 g /\ ~ is_table G1 g) ->
  data_kept G2 s s2.
Proof. intros H1 H2 Hs g Hc Ht. rewrite H2 by done. destruct (Hs g Hc Ht). by apply H1. Qed.

Lemma grows_kept G G' g :
  grows G G' -> 0 < cnt G g -> ~ is_table G g -> 0 < cnt G' g /\ ~ is_table G' g.
Proof.
  intros [Ht Hl] Hg Hng. split; [by apply Hl|]. intros Hg'. destruct (Ht g Hg'); [done|lia].
Qed.

Lemma data_kept_grows G0 G1 s s1 s2 :
  grows G0 G1 -> data_kept G0 s s1 -> data_kept G1 s1 s2 -> data_kept G0 s s2.
Proof.
  intros Hgr H1 H2 g Hg Hng. destruct (grows_kept _ _ g Hgr Hg Hng). rewrite H2 by done. by apply H1.
Qed.

Lemma data_same_kept G s s' : data_same G s s' -> data_kept G s s'.
Proof. intros Hd g _. apply Hd. Qed.

Lemma managed_frame lo hi G free s f :
  vm_inv lo hi G free s -> lo <= f < hi -> 1 <= f < NFRAMES.
Proof.
  intros Hi Hf. destruct (ki_range _ _ _ _ _ (vi_kmem _ _ _ _ _ Hi)) as (He & Hlo & Hhi).
  destruct kernel_layout as (?&?&?). unfold kva, KERNLINK, KERNBASE, EXTMEM in *. lia.
Qed.

(** ** One page *)

Lemma cnt_unmap G d a v e f :
  g_dirs G !! d = Some a -> as_pte a !! v = Some e -> v < UPAGES ->
  cnt (set_dir d (put_pte v None a) G) f = cnt G f - b2z (pframe e =? f).
Proof.
  intros Hd Hv Hu. rewrite (cnt_set_dir d a), as_cnt_put_pte, Hv by done. cbn. unfold pte_ref.
  rewrite (proj2 (Z.ltb_lt _ _) Hu). cbn. lia.
Qed.

Lemma wf_unmap lo hi G d a v e :
  wf_ghost lo hi G -> g_dirs G !! d = Some a -> as_pte a !! v = Some e -> 0 <= v < UPAGES ->
  wf_ghost lo hi (set_dir d (put_pte v None a) G).
Proof.
  intros Hwf Hd Hv Hu. set (G1 := MkG (<[d := put_pte v None a]> (g_dirs G))
                                      (upd (g_ext G) (pframe e) (g_ext G (pframe e) + 1))).
  assert (forall f, cnt G1 f = cnt G f) as Hc.
  { intros f. pose proof (cnt_unmap G d a v e f Hd Hv ltac:(lia)) as Hc.
    unfold G1, cnt, set_dir in *; cbn in *. unfold upd. case_decide; subst.
    - rewrite Z.eqb_refl in Hc. cbn in Hc. lia.
    - rewrite (proj2 (Z.eqb_neq (pframe e) f)) in Hc by done. cbn in Hc. lia. }
  assert (user_pte G d v e) as Hue by (exists a; done).
  pose proof (user_not_table _ _ _ Hwf d v e Hue) as Hnt.
  assert (wf_ghost lo hi G1) as Hwf1.
  { apply (wf_put_pte lo hi G d a v None); [done|done| |done|done].
    intros f. pose proof (wg_ext _ _ _ Hwf f). unfold upd. case_decide; subst; lia. }
  pose proof (wg_ext _ _ _ Hwf (pframe e)) as He.
  assert (wf_ghost lo hi (add_ext (pframe e) (-1) G1)) as Hwf2.
  { apply wf_add_ext; [done| | | |].
    - cbn. rewrite upd_eq. lia.
    - rewrite Hc. intros Hp. apply (wg_owned _ _ _ Hwf). lia.
    - intros Ht. apply Hnt. eapply is_table_put_pte; [exact Hd|exact Ht].
    - intros d' v' e' Hu' Ef Hb. pose proof (wg_write _ _ _ Hwf1 d' v' e' Hu' Hb) as H1.
      destruct Hu' as (b & Hb' & Hv' & Hr'). cbn in Hb'. rewrite Hc, Ef in H1.
      apply lookup_insert_Some in Hb' as [[<- <-]|[Hne Hb']].
      + cbn in Hv'. destruct (decide (v' = v)) as [->|Hvv].
        { by rewrite lookup_partial_alter_eq in Hv'. }
        rewrite lookup_partial_alter_ne in Hv' by done. exfalso. apply Hvv.
        eapply (wg_inj _ _ _ Hwf); [exists a; done|exact Hue|done].
      + pose proof (cnt_ge_dir2 G (pframe e) d a d' b Hd Hb' Hne).
        pose proof (as_cnt_pte (pframe e) d a v e Hv ltac:(lia) eq_refl).
        pose proof (as_cnt_pte (pframe e) d' b v' e' Hv' ltac:(lia) Ef). cnt_nonneg. lia. }
  destruct Hwf2 as [We Wo Wt Ww Wi].
  assert (forall f, g_ext (add_ext (pframe e) (-1) G1) f = g_ext G f) as Ee.
  { intros f. cbn. unfold upd. repeat case_decide; subst; lia. }
  assert (forall f, cnt (set_dir d (put_pte v None a) G) f = cnt (add_ext (pframe e) (-1) G1) f) as Ec.
  { intros f. unfold cnt. rewrite Ee. done. }
  split.
  - apply (wg_ext _ _ _ Hwf).
  - intros f. rewrite Ec. apply Wo.
  - intros f Hf. rewrite Ec. by apply Wt.
  - intros d' v' e' Hu'. rewrite Ec. by apply (Ww d' v').
  - exact Wi.
Qed.

(** The store that clears the entry, after its frame was released. *)
Lemma vm_inv_unmap lo hi G free s d a i p j e free' s1 :
  vm_inv lo hi G free s -> g_dirs G !! d = Some a -> as_pt a !! i = Some p -> 0 <= j < 1024 ->
  as_pte a !! (i * 1024 + j) = Some e -> i * 1024 + j < UPAGES ->
  kmem_inv lo hi (upd (cnt G) (pframe e) (cnt G (pframe e) - 1)) free' s1 ->
  (forall g, g <> pframe e -> page_of (mem s1) g = page_of (mem s) g) ->
  vm_inv lo hi (set_dir d (put_pte (i * 1024 + j) None a) G) free'
    (set_mem (<[p := <[Z.to_nat j := u32 0]> (page_of (mem s1) p)]> (mem s1)) s1).
Proof.
  intros [Hk Hr Hwf] Hd Hp Hj Hv Hu Hk1 Hpg.
  assert (0 <= i * 1024 + j < UPAGES) as Hur by (destruct (dr_dom _ _ _ (Hr d a Hd) _ _ Hv); lia).
  assert (user_pte G d (i * 1024 + j) e) as Hue by (exists a; done).
  pose proof (user_not_table _ _ _ Hwf _ _ _ Hue) as Hnt.
  assert (is_table G p) as Htp by (right; eauto).
  pose proof (ki_wf _ _ _ _ _ Hk1) as Hwm. split.
  - eapply kmem_inv_ext; [|apply kmem_inv_mem; [exact Hk1| |]].
    + intros f. rewrite (cnt_unmap G d a _ e) by done. unfold upd. case_decide; subst.
      * rewrite Z.eqb_refl. cbn. lia.
      * rewrite (proj2 (Z.eqb_neq (pframe e) f)) by done. cbn. lia.
    + apply wf_mem_insert; [done|]. by rewrite length_insert.
    + intros f Hf. apply page_of_insert_ne. intros <-.
      apply (ki_free _ _ _ _ _ Hk1) in Hf as [_ Hf]. rewrite upd_ne in Hf by naive_solver.
      rewrite (wg_table _ _ _ Hwf p Htp) in Hf. done.
  - cbn [set_mem mem]. change (u32 0) with (u32 (default 0 None)).
    eapply (reps_store_pte lo hi G (mem s1)); try done.
    eapply reps_ext; [|exact Hr]. intros g Hg. apply Hpg. naive_solver.
  - by eapply wf_unmap.
Qed.

(** ** The loop of [deallocuvm] *)

(** [a] without the entries of pages [v..w). *)
Definition unmap_range (a a' : aspace) (v w : Z) : Prop :=
  as_pt a' = as_pt a /\
  forall u, as_pte a' !! u = if (v <=? u) && (u <? w) then None else as_pte a !! u.

Lemma unmap_none a v w :
  (forall u, v <= u < w -> as_pte a !! u = None) -> unmap_range a a v w.
Proof.
  intros Hn. split; [done|]. intros u.
  destruct ((v <=? u) && (u <? w)) eqn:E; zbool; [apply Hn; lia|done].
Qed.

Lemma unmap_trans a a1 a2 v m w :
  v <= m <= w -> unmap_range a a1 v m -> unmap_range a1 a2 m w -> unmap_range a a2 v w.
Proof.
  intros Hm [Et1 E1] [Et2 E2]. split; [congruence|]. intros u. rewrite E2, E1.
  destruct (m <=? u) eqn:?, (u <? w) eqn:?, (v <=? u) eqn:?, (u <? m) eqn:?; cbn; zbool;
    (done || lia).
Qed.

Lemma unmap_one a v : unmap_range a (put_pte v None a) v (v + 1).
Proof.
  split; [done|]. intros u. cbn. destruct ((v <=? u) && (u <? v + 1)) eqn:E; zbool.
  - replace u with v by lia. by rewrite lookup_partial_alter_eq.
  - apply lookup_partial_alter_ne. intros ->. apply andb_false_iff in E as [?|?]; zbool; lia.
Qed.

Lemma is_table_set_dir G d a a' g :
  g_dirs G !! d = Some a -> as_pt a' = as_pt a -> is_table (set_dir d a' G) g <-> is_table G g.
Proof.
  intros Hd E. split; (intros [[b Hb]|(d' & b & k & Hb & Hk)]; [left|right]); cbn in *.
  - apply lookup_insert_Some in Hb as [[<- _]|[_ Hb]]; eauto.
  - apply lookup_insert_Some in Hb as [[<- <-]|[_ Hb]]; [rewrite E in Hk|]; eauto 10.
  - destruct (decide (d = g)) as [->|]; [rewrite lookup_insert_eq|rewrite lookup_insert_ne]; eauto.
  - destruct (decide (d = d')) as [<-|].
    + exists d, a', k. rewrite lookup_insert_eq. split; [done|]. rewrite E. by simplify_eq.
    + exists d', b, k. by rewrite lookup_insert_ne.
Qed.

(** One iteration on a present entry. *)
Lemma unmap_step_wp lo hi G free d a v p e (k : M mstate unit) (Q : unit -> mstate -> Prop) s :
  vm_inv lo hi G free s -> g_dirs G !! d = Some a -> 0 <= v < UPAGES ->
  as_pt a !! (v / 1024) = Some p -> as_pte a !! v = Some e ->
  (forall free' s', let G' := set_dir d (put_pte v None a) G in
     vm_inv lo hi G' free' s' -> same_cpu s s' -> data_kept G' s s' -> wp k Q s') ->
  wp (when (has e PTE_P) (
        if PTE_ADDR e =? 0 then panic "kfree" else
        kfree (P2V (PTE_ADDR e)) ;;; store (kva p + 4 * (v mod 1024)) 0) ;;; k) Q s.
Proof.
  intros Hi Hd Hv Hp He HQ. pose proof Hi as [Hk Hr Hwf].
  destruct (dr_ent _ _ _ (Hr d a Hd) _ _ He) as [Her Hbit].
  assert (user_pte G d v e) as Hue by (exists a; done).
  destruct (vm_user_frame _ _ _ _ _ d v e Hi Hue) as [Hf _].
  pose proof (managed_frame _ _ _ _ _ _ Hi Hf) as Hf1.
  pose proof (user_cnt _ _ _ Hwf d v e Hue) as Hc1.
  assert (is_table G p) as Htp by (right; eauto).
  pose proof (vm_table_frame _ _ _ _ _ p Hi Htp) as Hpf.
  unfold UPAGES in Hv. destruct (split_vpn v ltac:(lia)) as (_ & Esplit & Hmod & _).
  assert (has e PTE_P = true) as -> by (change PTE_P with (2 ^ 0); by rewrite has_bit).
  rewrite PTE_ADDR_frame, (proj2 (Z.eqb_neq _ _)), P2V_frame by lia.
  pose proof (fun free' s1 => vm_inv_unmap lo hi G free s d a (v / 1024) p (v mod 1024) e free' s1) as Hun.
  rewrite <- Esplit in Hun. unfold UPAGES in Hun.
  apply wp_bind, wp_bind. eapply kfree_wp; [exact Hk|done|done| |].
  - intros s1 Hsc H1 Hm Hk1. apply store_word; [done..|].
    eapply HQ; [| exact Hsc|].
    + apply (Hun free); try done; [lia|]. intros g _. by rewrite Hm.
    + intros g Hg Hnt. cbn. rewrite page_of_insert_ne; [by rewrite Hm|].
      intros <-. apply Hnt. by apply (is_table_set_dir G d a).
  - intros s1 Hsc H1 Hpg Hk1. apply store_word; [done..|].
    eapply HQ; [|exact Hsc|].
    + apply (Hun (pframe e :: free)); try done; [lia|by rewrite H1].
    + intros g Hg Hnt. cbn. rewrite page_of_insert_ne; [apply Hpg|].
      * intros ->. rewrite (cnt_unmap G d a v e) in Hg by (done || unfold UPAGES; lia).
        rewrite Z.eqb_refl in Hg. cbn in Hg. lia.
      * intros <-. apply Hnt. by apply (is_table_set_dir G d a).
Qed.

(** First page at or above [sz]. *)
Definition pages (sz : Z) : Z := (sz + 4095) / 4096.

Lemma pages_lt v sz : v * 4096 < sz <-> v < pages sz.
Proof. unfold pages. split; intros; zdiv. Qed.

Lemma dealloc_trans G s s1 s2 d a a1 a2 :
  g_dirs G !! d = Some a -> as_pt a1 = as_pt a -> as_pt a2 = as_pt a ->
  (forall g, cnt (set_dir d a2 G) g <= cnt (set_dir d a1 G) g) ->
  data_kept (set_dir d a1 G) s s1 -> data_kept (set_dir d a2 G) s1 s2 ->
  data_kept (set_dir d a2 G) s s2.
Proof.
  intros Hd E1 E2 Hle H1 H2. eapply data_kept_trans; [exact H1|exact H2|].
  intros g Hc Ht. pose proof (Hle g). split; [lia|].
  rewrite (is_table_set_dir G d a) in * by done. done.
Qed.

(** The skip to the next page directory index. *)
Lemma pd_skip v :
  0 <= v < UPAGES ->
  u32 (u32 (PGADDR (PDX (v * 4096) + 1) 0 0 - PGSIZE) + PGSIZE) = (v / 1024 + 1) * 1024 * 4096.
Proof.
  intros Hv. unfold UPAGES in Hv. destruct (split_vpn v ltac:(lia)) as (E & _ & _ & Hr).
  rewrite PDX_vpn, E by done. unfold PGADDR, PDXSHIFT.
  rewrite Z.shiftl_0_l, !Z.lor_0_r, Z.shiftl_mul_pow2 by lia.
  change (2 ^ 22) with 4194304. unfold PGSIZE.
  assert (0 <= v / 1024 < 512) by zdiv.
  rewrite (u32_small (_ * _)), (u32_small (_ - _)), u32_small by lia. lia.
Qed.

Lemma unmap_skip a a' v w n :
  v <= w -> (forall u, v <= u < w -> as_pte a !! u = None) -> unmap_range a a' w (Z.max w n) -> unmap_range a a' v n.
Proof.
  intros Hw Hno [Et Eu]. split; [done|]. intros u. rewrite Eu. destruct (decide (v <= u < w)) as [Hin|Hout].
  - rewrite (Hno u Hin). by repeat case_match.
  - destruct (Z.leb_spec v u), (Z.ltb_spec u n), (Z.leb_spec w u), (Z.ltb_spec u (Z.max w n)); cbn [andb]; lia || done.
Qed.

Lemma deallocuvm_loop_wp d lo hi oldsz fuel G free a v (Q : unit -> mstate -> Prop) s :
  vm_inv lo hi G free s -> g_dirs G !! d = Some a -> 0 <= v -> 0 <= oldsz <= KERNBASE ->
  v <= UPAGES -> (Z.to_nat (pages oldsz - v) < fuel)%nat ->
  (forall a' free' s', unmap_range a a' v (Z.max v (pages oldsz)) ->
     vm_inv lo hi (set_dir d a' G) free' s' -> same_cpu s s' -> data_kept (set_dir d a' G) s s' ->
     (forall g, cnt (set_dir d a' G) g <= cnt G g) -> Q tt s') ->
  wp (deallocuvm_loop fuel (kva d) (v * 4096) oldsz) Q s.
Proof.
  revert G free a v s. induction fuel as [|fuel IH];
    intros G free a v s Hi Hd Hv Hsz Hvu Hfuel HQ; [lia|]. cbn [deallocuvm_loop].
  assert (forall a', unmap_range a a' v (Z.max v (pages oldsz)) -> a' = a ->
            vm_inv lo hi (set_dir d a' G) free s) as Hsame.
  { intros a' _ ->. eapply vm_inv_ext; [by apply set_dir_same|done|done]. }
  assert (forall g, cnt (set_dir d a G) g <= cnt G g) as Hcle
    by (intros g; rewrite (cnt_set_dir d a) by done; lia).
  destruct (v * 4096 <? oldsz) eqn:Elt; cbn [negb]; zbool.
  2:{ assert (unmap_range a a v (Z.max v (pages oldsz))) as Hu.
      { apply unmap_none. intros u Hu. pose proof (pages_lt v oldsz). lia. }
      apply wp_ret. by eapply (HQ a free); [|apply Hsame| | |]. }
  pose proof (proj1 (pages_lt v oldsz) Elt) as Hlt.
  assert (pages oldsz <= UPAGES) as Hpu by (unfold pages, KERNBASE, UPAGES in *; zdiv).
  assert (0 <= v < 2 ^ 20) as Hv20 by (unfold UPAGES in *; lia).
  destruct (split_vpn v Hv20) as (Evpn & Esplit & Hmod & Hva).
  apply wp_bind. eapply walkpgdir_find_wp; [exact Hi|exact Hd|done|]. rewrite Evpn.
  rewrite (Z.max_r v (pages oldsz)) in * by lia.
  pose proof (vi_rep _ _ _ _ _ Hi d a Hd) as Hrep.
  assert (forall (k : Z), v < k -> (Z.to_nat (pages oldsz - k) < fuel)%nat) as Hfu by lia.
  assert (v + 1 = Z.min (v + 1) UPAGES) as Hv1 by lia.
  destruct (as_pt a !! (v / 1024)) as [p|] eqn:Ep.
  - assert (is_table G p) as Htp by (right; eauto).
    pose proof (vm_table_frame _ _ _ _ _ p Hi Htp) as Hpf.
    rewrite (proj2 (Z.eqb_neq _ _)) by (unfold kva, KERNBASE; lia).
    apply wp_bind, load_word; [done..|].
    rewrite (dr_pte _ _ _ Hrep _ _ _ Ep Hmod), <- Esplit. unfold PGSIZE.
    rewrite u32_small by (unfold UPAGES in *; lia). replace (v * 4096 + 4096) with ((v + 1) * 4096) by lia.
    assert (forall free1 s1 a1, unmap_range a a1 v (v + 1) -> vm_inv lo hi (set_dir d a1 G) free1 s1 ->
              same_cpu s s1 -> data_kept (set_dir d a1 G) s s1 ->
              (forall g, cnt (set_dir d a1 G) g <= cnt G g) ->
              wp (deallocuvm_loop fuel (kva d) ((v + 1) * 4096) oldsz) Q s1) as Hnext.
    { intros free1 s1 a1 Hu1 Hi1 Hsc1 Hd1 Hc1.
      assert (g_dirs (set_dir d a1 G) !! d = Some a1) as Hda by (cbn; by rewrite lookup_insert_eq).
      eapply (IH _ _ a1); [exact Hi1|exact Hda|lia|done|lia|apply Hfu; lia|].
      intros a2 free2 s2 Hu2 Hi2 Hsc2 Hd2 Hc2.
      rewrite (Z.max_r (v + 1)) in Hu2 by lia.
      assert (forall b, set_dir d b (set_dir d a1 G) = set_dir d b G) as Esd
        by (intros b; unfold set_dir; cbn; by rewrite insert_insert_eq).
      rewrite Esd in *.
      eapply (HQ a2 free2); [by apply (unmap_trans a a1 _ v (v + 1)); [lia|..]|done|by trans s1| |].
      - destruct Hu1 as [Et1 _], Hu2 as [Et2 _]. eapply (dealloc_trans G s s1 s2 d a a1 a2);
          [done|done|congruence|done|done|done].
      - intros g. pose proof (Hc1 g). pose proof (Hc2 g). lia. }
    destruct (as_pte a !! v) as [e|] eqn:Ee; cbn [default from_option].
    + eapply (unmap_step_wp lo hi G free d a v p e); [done|done|lia|done|done|].
      intros free1 s1 G' Hi1 Hsc1 Hd1. eapply Hnext; [apply unmap_one|done..|].
      intros g. rewrite (cnt_unmap G d a v e) by (done || lia). pose proof (b2z_nonneg (pframe e =? g)). lia.
    + change (has (id 0) PTE_P) with false. apply wp_bind, wp_ret.
      assert (unmap_range a a v (v + 1)) as Hu
        by (apply unmap_none; intros u Hu; by replace u with v by lia).
      eapply (Hnext free s a); try done. eapply vm_inv_ext; [by apply set_dir_same|done|done].
  - rewrite Z.eqb_refl. rewrite pd_skip by lia.
    assert (forall u, v <= u < (v / 1024 + 1) * 1024 -> as_pte a !! u = None) as Hno.
    { intros u Hu. destruct (as_pte a !! u) as [e|] eqn:E; [|done].
      destruct (dr_dom _ _ _ Hrep u e E) as [_ [q Hq]].
      replace (u / 1024) with (v / 1024) in Hq by zdiv. congruence. }
    assert (v < (v / 1024 + 1) * 1024 <= UPAGES) as Hb.
    { unfold UPAGES in *. zdiv. }
    eapply (IH G free a); [done|done|lia|done|lia|apply Hfu; lia|].
    intros a' free' s' Hu' Hi' Hsc Hdk Hc. eapply (HQ a' free'); try done. eapply unmap_skip; [|exact Hno|done]; lia.
Qed.

Lemma PGROUNDUP_pages sz : 0 <= sz <= KERNBASE -> PGROUNDUP sz = pages sz * 4096.
Proof.
  intros Hs. unfold KERNBASE in Hs. rewrite PGROUNDUP_spec by lia. unfold pages, PGSIZE. zdiv.
Qed.

Lemma pages_mono x y : x <= y -> pages x <= pages y.
Proof. intros. unfold pages. zdiv. Qed.
Lemma pages_upages sz : 0 <= sz <= KERNBASE -> 0 <= pages sz <= UPAGES.
Proof. intros. unfold pages, UPAGES, KERNBASE in *. zdiv. Qed.

Lemma deallocuvm_wp lo hi G free d a oldsz newsz (Q : Z -> mstate -> Prop) s :
  vm_inv lo hi G free s -> g_dirs G !! d = Some a -> 0 <= oldsz <= KERNBASE -> 0 <= newsz ->
  (forall a' free' s',
     unmap_range a a' (pages newsz) (Z.max (pages newsz) (pages oldsz)) ->
     vm_inv lo hi (set_dir d a' G) free' s' -> same_cpu s s' -> data_kept (set_dir d a' G) s s' ->
     (forall g, cnt (set_dir d a' G) g <= cnt G g) ->
     Q (if oldsz <=? newsz then oldsz else newsz) s') ->
  wp (deallocuvm (kva d) oldsz newsz) Q s.
Proof.
  intros Hi Hd Ho Hn HQ. unfold deallocuvm. destruct (oldsz <=? newsz) eqn:E; zbool.
  - pose proof (pages_mono _ _ E) as Hm. rewrite Z.max_l in HQ by lia.
    apply wp_ret, (HQ a free s); [apply unmap_none; lia| |done|done|].
    + eapply vm_inv_ext; [by apply set_dir_same|done|done].
    + intros g. rewrite (cnt_set_dir d a) by done. lia.
  - cbv zeta. rewrite PGROUNDUP_pages by lia. apply wp_bind.
    pose proof (pages_upages newsz ltac:(lia)).
    eapply (deallocuvm_loop_wp d lo hi oldsz); [exact Hi|exact Hd|lia|lia|lia| |].
    + unfold PGSIZE. replace ((oldsz - pages newsz * 4096 + 4096 - 1) / 4096) with (pages oldsz - pages newsz);
        [lia|]. unfold pages. zdiv.
    + intros a' free' s' Hu Hi' Hsc Hdk Hc. by apply wp_ret, (HQ a' free').
Qed.

(** ** [freevm] *)

(** Directory [d] taken out of the abstract state: its references become the
    caller's. *)
Definition take_dir (d : Z) (a : aspace) (G : ghost) : ghost :=
  MkG (delete d (g_dirs G)) (fun f => g_ext G f + as_cnt f d a).

Lemma cnt_take_dir G d a f : g_dirs G !! d = Some a -> cnt (take_dir d a G) f = cnt G f.
Proof. intros Hd. unfold cnt, take_dir; cbn. rewrite (msum_delete _ _ _ _ Hd). lia. Qed.

Lemma vm_inv_take_dir lo hi G free s d a :
  vm_inv lo hi G free s -> g_dirs G !! d = Some a -> vm_inv lo hi (take_dir d a G) free s.
Proof.
  intros [Hk Hr Hwf] Hd. destruct Hwf as [We Wo Wt Ww Wi].
  assert (forall d' b, delete d (g_dirs G) !! d' = Some b -> g_dirs G !! d' = Some b) as Hdel
    by (intros d' b; rewrite lookup_delete_Some; tauto).
  split; [eapply kmem_inv_ext; [|exact Hk]; intros; by apply cnt_take_dir| |split].
  - intros d' b Hb. by apply Hr, Hdel.
  - intros f. cbn. pose proof (We f). pose proof (as_cnt_nonneg f d a). lia.
  - intros f. rewrite cnt_take_dir by done. apply Wo.
  - intros f Hf. rewrite cnt_take_dir by done. apply Wt.
    destruct Hf as [[b Hb]|(d' & b & k & Hb & Hk')]; [left|right]; eauto 10.
  - intros d' v e (b & Hb & Hv). rewrite cnt_take_dir by done. apply (Ww d' v). exists b. eauto.
  - intros d' v e v' e' (b & Hb & Hv) (b' & Hb' & Hv') Ef. eapply Wi; [exists b; eauto|exists b'; eauto|done].
Qed.

(** The reference of the remaining page tables [pts] of a directory being freed. *)
Definition pts_ext (pts : gmap Z Z) (x : Z -> Z) (f : Z) : Z := x f + msum (pt_ref f) pts.

Lemma freevm_loop_wp d D x lo hi n i pts free (Q : unit -> mstate -> Prop) s :
  vm_inv lo hi (MkG D (pts_ext pts x)) free s -> 0 <= d < NFRAMES ->
  i + Z.of_nat n = 1024 -> 0 <= i -> 1 <= x d -> (forall f, 0 <= x f) ->
  (forall k p, pts !! k = Some p -> i <= k < 1024 /\ p <> d) ->
  (forall k, i <= k < 1024 ->
     word (mem s) d k = match pts !! k with Some p => p * 4096 + 7 | None => 0 end) ->
  (forall free' s', vm_inv lo hi (MkG D x) free' s' -> same_cpu s s' ->
     data_kept (MkG D x) s s' -> Q tt s') ->
  wp (freevm_loop n (kva d) i) Q s.
Proof.
  revert i pts free s. induction n as [|n IH];
    intros i pts free s Hi Hd Hn Hi0 Hxd Hx Hpts Hw HQ; cbn [freevm_loop].
  - assert (pts = ∅) as ->.
    { apply map_empty. intros k. destruct (pts !! k) eqn:E; [|done]. apply Hpts in E. lia. }
    apply wp_ret, (HQ free); [|done|done]. eapply vm_inv_ext; [| |exact Hi]; [done|].
    intros f. cbn. unfold pts_ext. rewrite msum_empty. lia.
  - apply wp_bind, load_word; [done|lia|]. rewrite Hw by lia.
    destruct (pts !! i) as [p|] eqn:Ep.
    + destruct (Hpts i p Ep) as [_ Hpd]. rewrite has_pde, PTE_ADDR_pde.
      assert (1 <= pts_ext pts x p) as Hep.
      { unfold pts_ext. pose proof (Hx p).
        pose proof (msum_ge (pt_ref p) pts i p (fun k x _ => pt_ref_nonneg p k x) Ep) as Hg.
        unfold pt_ref in Hg at 1. rewrite Z.eqb_refl in Hg. cbn in Hg. lia. }
      assert (0 <= p < NFRAMES) as Hpf.
      { pose proof (vm_frames _ _ _ _ _ Hi). pose proof (cnt_ge_ext (MkG D (pts_ext pts x)) p) as Hg.
        cbn in Hg. pose proof (wg_owned _ _ _ (vi_wf _ _ _ _ _ Hi) p). lia. }
      rewrite P2V_frame by lia. apply wp_bind. cbn [when].
      eapply vm_kfree_wp; [exact Hi|exact Hep|]. intros free1 s1 Hsc Hi1 Hpg _.
      assert (forall f, pts_ext (delete i pts) x f = pts_ext pts x f + (if decide (f = p) then -1 else 0))
        as Hext.
      { intros f. unfold pts_ext. rewrite (msum_delete (pt_ref f) pts i p Ep). unfold pt_ref at 2.
        case_decide; subst; [rewrite Z.eqb_refl; cbn; lia|].
        rewrite (proj2 (Z.eqb_neq p f)) by done. cbn. lia. }
      eapply (IH (i + 1) (delete i pts) free1); [|done|lia|lia|done|done| | |].
      * eapply vm_inv_ext; [| |exact Hi1]; [done|]. intros f. cbn. rewrite Hext. unfold upd.
        case_decide; subst; lia.
      * intros k q Hk. apply lookup_delete_Some in Hk as [Hki Hk]. destruct (Hpts k q Hk). lia.
      * intros k Hk. unfold word. rewrite Hpg by (left; done). rewrite lookup_delete_ne by lia.
        apply Hw. lia.
      * intros free2 s2 Hi2 Hsc2 Hdk2. eapply (HQ free2); [done|by trans s1|].
        intros g Hg Hnt. rewrite Hdk2 by done. apply Hpg.
        destruct (decide (g = p)) as [->|]; [right|by left].
        unfold cnt in *; cbn in *. specialize (Hext p). rewrite decide_True in Hext by done.
        unfold pts_ext in *. pose proof (msum_nonneg (pt_ref p) (delete i pts) (fun k x _ => pt_ref_nonneg p k x)).
        lia.
    + change (has 0 PTE_P) with false. apply wp_bind, wp_ret.
      eapply (IH (i + 1) pts free); [done|done|lia|lia|done|done| | |done].
      * intros k q Hk. destruct (Hpts k q Hk). split; [|done].
        destruct (decide (k = i)) as [->|]; [congruence|lia].
      * intros k Hk. apply Hw. lia.
Qed.

(** A frame still used when a directory is gone is not one of its tables. *)
Lemma del_dir_table lo hi G free s d a g :
  vm_inv lo hi G free s -> g_dirs G !! d = Some a -> 0 < cnt (del_dir d G) g -> g <> d -> is_table G g -> is_table (del_dir d G) g.
Proof.
  intros Hi Hd Hg Hgd [[b Hb]|(d' & b & k & Hb & Hk)].
  - left. cbn. rewrite lookup_delete_ne by done. eauto.
  - destruct (decide (d' = d)) as [->|Hne].
    2:{ right. exists d', b, k. cbn. by rewrite lookup_delete_ne. }
    exfalso. simplify_eq. pose proof (as_cnt_pt g d a k Hk) as Hp.
    assert (cnt G g = 1) by (apply (wg_table _ _ _ (vi_wf _ _ _ _ _ Hi)); right; eauto).
    rewrite (cnt_del_dir d a) in Hg by done. cnt_nonneg. lia.
Qed.

(** Nothing uses the directory itself once it is gone. *)
Lemma del_dir_self lo hi G free s d a : vm_inv lo hi G free s -> g_dirs G !! d = Some a -> cnt (del_dir d G) d = 0.
Proof.
  intros Hi Hd. pose proof (wg_table _ _ _ (vi_wf _ _ _ _ _ Hi) d ltac:(left; eauto)) as Hc.
  pose proof (cnt_del_dir d a G d Hd) as Hc'. pose proof (as_cnt_self d a).
  pose proof (cnt_ge_ext (del_dir d G) d). pose proof (wg_ext _ _ _ (vi_wf _ _ _ _ _ Hi) d).
  cbn in *. lia.
Qed.

(** Freeing an address space: the directory disappears from the abstract state,
    and with it every reference it held. *)
Lemma freevm_wp lo hi G free d a (Q : unit -> mstate -> Prop) s :
  vm_inv lo hi G free s -> g_dirs G !! d = Some a ->
  (forall free' s', vm_inv lo hi (del_dir d G) free' s' -> same_cpu s s' ->
     data_kept (del_dir d G) s s' -> Q tt s') ->
  wp (freevm (kva d)) Q s.
Proof.
  intros Hi Hd HQ. unfold freevm. assert (is_table G d) as Htd by (left; eauto).
  pose proof (vm_table_frame _ _ _ _ _ d Hi Htd) as Hdf.
  rewrite (proj2 (Z.eqb_neq _ _)) by (by apply kva_nonzero; lia).
  apply wp_bind. eapply deallocuvm_wp; [exact Hi|exact Hd|done|done|].
  change (pages 0) with 0. change (Z.max 0 (pages KERNBASE)) with UPAGES.
  intros a1 free1 s1 [Et Eu] Hi1 Hsc1 Hdk1 _.
  assert (g_dirs (set_dir d a1 G) !! d = Some a1) as Hd1 by (cbn; by rewrite lookup_insert_eq).
  pose proof (vi_wf _ _ _ _ _ Hi1) as Hwf1. pose proof (vi_rep _ _ _ _ _ Hi1 d a1 Hd1) as Hrep.
  assert (forall f, msum (pte_ref f) (as_pte a1) = 0) as Hz.
  { intros f. rewrite (msum_ext _ (fun _ _ => 0)); [by apply msum_zero|].
    intros v e Hv. unfold pte_ref. destruct (v <? UPAGES) eqn:Ev; [|done].
    destruct (dr_dom _ _ _ Hrep v e Hv) as [? _]. zbool.
    rewrite Eu, (proj2 (Z.leb_le _ _)), (proj2 (Z.ltb_lt _ _)) in Hv by lia. done. }
  pose proof (vm_inv_take_dir _ _ _ _ _ d a1 Hi1 Hd1) as Hi2.
  set (x := fun f => g_ext G f + b2z (d =? f)).
  assert (forall f, 0 <= x f) as Hx.
  { intros f. unfold x. pose proof (wg_ext _ _ _ (vi_wf _ _ _ _ _ Hi) f).
    pose proof (b2z_nonneg (d =? f)). lia. }
  assert (1 <= x d) as Hxd.
  { unfold x. rewrite Z.eqb_refl. cbn. pose proof (wg_ext _ _ _ (vi_wf _ _ _ _ _ Hi) d). lia. }
  apply wp_bind. eapply (freevm_loop_wp d (delete d (g_dirs G)) x lo hi _ 0 (as_pt a1) free1);
    [|done|done|done|done|done| | |].
  - eapply vm_inv_ext; [| |exact Hi2]; cbn; [by rewrite delete_insert_eq|].
    intros f. unfold pts_ext, x, as_cnt. rewrite Hz. lia.
  - intros k p Hk. split; [by apply (dr_ptdom _ _ _ Hrep k p)|].
    intros ->. by eapply (dir_not_pt _ _ _ Hwf1 d a1 d a1 k).
  - intros k Hk. by apply (dr_pde _ _ _ Hrep).
  - intros free2 s2 Hi3 Hsc2 Hdk2. eapply vm_kfree_wp; [exact Hi3|exact Hxd|].
    intros free3 s3 Hsc3 Hi4 Hpg _.
    assert (forall g, 0 < cnt (del_dir d G) g -> ~ is_table (del_dir d G) g -> g <> d ->
              page_of (mem s2) g = page_of (mem s1) g) as Hk2.
    { intros g Hg Hnt Hgd. apply Hdk2; [|done]. unfold cnt, del_dir, x in *; cbn in *.
      pose proof (b2z_nonneg (d =? g)). lia. }
    pose proof (del_dir_self _ _ _ _ _ d a Hi Hd) as Hd0.
    eapply (HQ free3).
    + eapply vm_inv_ext; [| |exact Hi4]; [done|]. intros f. cbn. unfold upd, x.
      case_decide as Ef; [rewrite Ef, Z.eqb_refl; cbn; lia|].
      rewrite (proj2 (Z.eqb_neq d f)) by done. cbn. lia.
    + trans s1; [done|]. by trans s2.
    + intros g Hg Hnt. assert (g <> d) as Hgd by (intros ->; lia).
      rewrite Hpg by (by left). rewrite Hk2 by done. apply Hdk1.
      * rewrite (cnt_set_dir d a) by done. rewrite (cnt_del_dir d a) in Hg by done.
        pose proof (as_cnt_nonneg g d a1). lia.
      * rewrite (is_table_set_dir G d a) by done. intros Ht. by eapply Hnt, del_dir_table.
Qed.

End ops.
