(* ===== verification/VmKern.v ===== *)
(** * The kernel half of an address space: [setupkvm] and [kvmalloc]

    A new page directory maps exactly the ranges of [kmap]; when memory runs out
    half-way, everything allocated so far is returned. *)

From Stdlib Require Import Sorting.Sorted.
From S2P Require Import Prelude Monad Machine Kalloc Vm VmInv VmOps VmFree.

Section ops.
Context `{KernelImage}.
Implicit Types (G : ghost) (s : mstate) (free : list Z) (a : aspace).

(** ** The entries [kmap] asks for *)

Definition kv (k : kmap_entry) : Z := virt k / 4096.
Definition kn (k : kmap_entry) : Z := u32 (phys_end k - phys_start k) / 4096.
Definition kq (k : kmap_entry) : Z := phys_start k / 4096.

(** The entry of page [u] once the ranges [ks] are mapped. *)
Fixpoint kmap_pte (ks : list kmap_entry) (u : Z) : option Z :=
  match ks with
  | [] => None
  | k :: ks => match kmap_pte ks u with
               | Some e => Some e
               | None => range_pte (kv k) (kn k) (kq k) (kperm k) u
               end
  end.

Record wf_kmap (k : kmap_entry) : Prop := {
  wk_virt : virt k = kv k * 4096;
  wk_size : u32 (phys_end k - phys_start k) = kn k * 4096;
  wk_phys : phys_start k = kq k * 4096;
  wk_user : UPAGES <= kv k;
  wk_n : 1 <= kn k;
  wk_top : kv k + kn k <= 2 ^ 20;
  wk_q : 0 <= kq k /\ kq k + kn k <= 2 ^ 20;
  wk_perm : 0 <= kperm k < 4096
}.

Definition kbefore (k k' : kmap_entry) : Prop := kv k + kn k <= kv k'.

Lemma kernel_data_range : KERNLINK < kernel_data < KERNBASE + 4 * 1024 * 1024 /\ kernel_data mod 4096 = 0.
Proof. pose proof kernel_data_aligned. destruct kernel_layout as (?&?&?). unfold PGSIZE in *. lia. Qed.

Lemma kmap_wf : Forall wf_kmap kmap.
Proof.
  destruct kernel_data_range as [Hd Ha]. unfold KERNLINK, KERNBASE, EXTMEM in Hd.
  unfold kmap. rewrite !Forall_cons. split_and!; [split..|done];
    unfold kv, kn, kq; cbn [virt phys_start phys_end kperm];
    unfold UPAGES, DEVSPACE, V2P, KERNLINK, KERNBASE, EXTMEM, PHYSTOP, PTE_W; try done;
    rewrite ?(u32_small (kernel_data - _)), ?(u32_small (2147483648 + 1048576 - _)) by lia;
    rewrite ?u32_small by lia; zdiv.
Qed.

Lemma kmap_sorted : StronglySorted kbefore kmap.
Proof.
  destruct kernel_data_range as [Hd Ha]. unfold KERNLINK, KERNBASE, EXTMEM in Hd.
  unfold kmap. repeat apply SSorted_cons; rewrite ?Forall_cons; split_and?;
    try apply SSorted_nil; try apply Forall_nil; unfold kbefore, kv, kn; cbn [virt phys_start phys_end kperm];
    unfold DEVSPACE, V2P, KERNLINK, KERNBASE, EXTMEM, PHYSTOP; try done;
    rewrite ?(u32_small (kernel_data - _)), ?(u32_small (2147483648 + 1048576 - _)) by lia;
    rewrite ?u32_small by lia; zdiv.
Qed.

Lemma range_pte_None v n q perm u : ~ (v <= u < v + n) -> range_pte v n q perm u = None.
Proof.
  intros Hu. unfold range_pte. destruct ((v <=? u) && (u <? v + n)) eqn:E; [|done]. zbool. lia.
Qed.

Lemma range_pte_Some v n q perm u e : range_pte v n q perm u = Some e -> v <= u < v + n.
Proof. unfold range_pte. destruct ((v <=? u) && (u <? v + n)) eqn:E; [|done]. zbool. lia. Qed.

Lemma kmap_pte_kernel ks u e : Forall wf_kmap ks -> kmap_pte ks u = Some e -> UPAGES <= u < 2 ^ 20.
Proof.
  induction 1 as [|k ks Hk _ IH]; cbn; [done|]. destruct (kmap_pte ks u); [by auto|].
  intros Hr%range_pte_Some. destruct Hk. lia.
Qed.

(** ** [mappages] on a kernel range *)

Lemma mappages_kernel_wp lo hi G free d a k (Q : Z -> mstate -> Prop) s :
  vm_inv lo hi G free s -> g_dirs G !! d = Some a -> wf_kmap k ->
  (forall u, kv k <= u < kv k + kn k -> as_pte a !! u = None) ->
  (forall a' free' s', vm_inv lo hi (set_dir d a' G) free' s' ->
     same_cpu s s' -> data_same (set_dir d a' G) s s' -> Q (-1) s') ->
  (forall a' free' s',
     (forall u, as_pte a' !! u = match range_pte (kv k) (kn k) (kq k) (kperm k) u with
                                 | Some e => Some e | None => as_pte a !! u end) ->
     tables_grow a a' -> vm_inv lo hi (set_dir d a' G) free' s' ->
     same_cpu s s' -> data_same (set_dir d a' G) s s' -> Q 0 s') ->
  wp (mappages (kva d) (virt k) (u32 (phys_end k - phys_start k)) (phys_start k) (kperm k)) Q s.
Proof.
  intros Hi Hd [Ev En Eq Hu Hn Ht Hq Hp] Hnone H0 H1. rewrite Ev, En, Eq.
  unfold mappages. rewrite !PGROUNDDOWN_spec. unfold UPAGES in Hu.
  rewrite (u32_small (kv k * 4096 + kn k * 4096 - 1)) by lia.
  replace (kv k * 4096 - (kv k * 4096) mod 4096) with (kv k * 4096) by zdiv.
  replace (kv k * 4096 + kn k * 4096 - 1 - (kv k * 4096 + kn k * 4096 - 1) mod 4096)
    with ((kv k + kn k - 1) * 4096) by zdiv.
  rewrite u32_small by lia. unfold PGSIZE.
  replace (((kv k + kn k - 1) * 4096 - kv k * 4096) / 4096) with (kn k - 1) by zdiv.
  eapply mappages_kernel_loop_wp; [exact Hi|exact Hd|done|done|lia|lia|lia|done|lia|done| |].
  - intros a' free' s' _ _ Hi' Hsc Hds _. by eapply H0.
  - intros a' free' s' Hg Hu' Hi' Hsc Hds _. by eapply H1.
Qed.

(** ** A new directory *)

Lemma vm_inv_new_dir lo hi G free s d :
  vm_inv lo hi (add_ext d 1 G) free s -> cnt G d = 0 -> 0 <= g_ext G d ->
  vm_inv lo hi (set_dir d (AS ∅ ∅) G) free (set_mem (<[d := fill_page 0]> (mem s)) s) /\
  g_dirs G !! d = None.
Proof.
  intros Hi Hc He0. pose proof (vi_wf _ _ _ _ _ Hi) as Hwf.
  assert (cnt (add_ext d 1 G) d = 1) as Hc1 by (rewrite cnt_add_ext, decide_True by done; lia).
  assert (g_ext G d = 0) as He by (pose proof (cnt_ge_ext G d); lia).
  assert (g_ext (add_ext d 1 G) d = 1) as He1 by (cbn; rewrite upd_eq; lia).
  assert (g_dirs G !! d = None) as Hd.
  { destruct (g_dirs G !! d) as [b|] eqn:E; [exfalso|done].
    pose proof (cnt_ge_dir G d d b E). pose proof (as_cnt_self d b). lia. }
  split; [|done].
  apply (vm_inv_data _ _ _ _ _ d (fill_page 0)) in Hi;
    [|by eapply ext_not_table; [done|lia]|by eapply ext_not_free; [done|lia]|apply length_fill_page].
  destruct Hi as [Hk Hr _].
  pose proof (wf_new_dir lo hi (add_ext d 1 G) d Hwf Hd He1 Hc1) as Hwf'.
  eapply (vm_inv_ext lo hi (add_ext d (-1) (set_dir d (AS ∅ ∅) (add_ext d 1 G)))); [done| |].
  { intros f. cbn. unfold upd. repeat case_decide; subst; lia. }
  split; [| |done].
  - eapply kmem_inv_ext; [|exact Hk]. intros f.
    rewrite cnt_add_ext, cnt_new_dir, as_cnt_empty by done.
    case_decide as Ef; [rewrite Ef, Z.eqb_refl; cbn [b2z]; lia|].
    rewrite (proj2 (Z.eqb_neq d f)) by done. cbn [b2z]. lia.
  - intros d' b Hb. cbn in Hb. apply lookup_insert_Some in Hb as [[<- <-]|[Hne Hb]].
    + apply dir_rep_empty. cbn. apply page_of_insert_eq.
    + by apply Hr.
Qed.

(** ** [setupkvm] *)

Lemma new_dir_grows lo hi G d a :
  wf_ghost lo hi (set_dir d a G) -> g_dirs G !! d = None -> (forall f, 0 <= cnt G f) ->
  grows G (set_dir d a G).
Proof.
  intros Hwf Hnd Hge. split; intros g Hg.
  2:{ rewrite cnt_new_dir by done. pose proof (as_cnt_nonneg g d a). lia. }
  pose proof (wg_table _ _ _ Hwf g Hg) as Ht. rewrite cnt_new_dir in Ht by done. pose proof (Hge g).
  destruct Hg as [[b Hb]|(d' & b & i & Hb & Hi)]; cbn in Hb;
    apply lookup_insert_Some in Hb as [[E1 E2]|[_ Hb]].
  - right. rewrite <- E1 in *. pose proof (as_cnt_self d a). lia.
  - left. left; eauto.
  - right. subst d' b. pose proof (as_cnt_pt g d a i Hi). cnt_nonneg. lia.
  - left. right; eauto.
Qed.

Lemma cnt_nonneg_inv lo hi G free s f : vm_inv lo hi G free s -> 0 <= cnt G f.
Proof. intros Hi. apply (ki_cnt _ _ _ _ _ (vi_kmem _ _ _ _ _ Hi)). Qed.

Lemma del_set_dir G d a : g_dirs G !! d = None -> del_dir d (set_dir d a G) = G.
Proof. intros Hnd. unfold del_dir, set_dir. cbn. rewrite delete_insert_id by done. by destruct G. Qed.
Lemma set_set_dir G d a b : set_dir d a (set_dir d b G) = set_dir d a G.
Proof. unfold set_dir; cbn. by rewrite insert_insert_eq. Qed.
Lemma lookup_set_dir G d a : g_dirs (set_dir d a G) !! d = Some a.
Proof. cbn. by rewrite lookup_insert_eq. Qed.

Lemma setupkvm_loop_wp lo hi G d ks free a (Q : Z -> mstate -> Prop) s :
  g_dirs G !! d = None -> (forall f, 0 <= cnt G f) ->
  vm_inv lo hi (set_dir d a G) free s -> Forall wf_kmap ks -> StronglySorted kbefore ks ->
  (forall k u, k ∈ ks -> kv k <= u < kv k + kn k -> as_pte a !! u = None) ->
  (forall free' s', vm_inv lo hi G free' s' -> same_cpu s s' -> data_kept G s s' -> Q 0 s') ->
  (forall a' free' s',
     (forall u, as_pte a' !! u = match kmap_pte ks u with Some e => Some e | None => as_pte a !! u end) ->
     tables_grow a a' -> vm_inv lo hi (set_dir d a' G) free' s' -> same_cpu s s' ->
     data_same (set_dir d a' G) s s' -> Q (kva d) s') ->
  wp (setupkvm_loop (kva d) ks) Q s.
Proof.
  intros Hnd Hge. revert free a s. induction ks as [|k ks IH];
    intros free a s Hi Hwf Hs Hnone H0 H1; cbn [setupkvm_loop].
  { apply wp_ret, (H1 a free); [done|by intros ??|done..]. }
  apply Forall_cons in Hwf as [Hk Hks]. apply StronglySorted_inv in Hs as [Hs Hf].
  assert (forall a' free' s1 s2, vm_inv lo hi (set_dir d a' G) free' s1 ->
            data_same (set_dir d a' G) s s1 -> data_kept G s1 s2 -> data_kept G s s2) as Hdk.
  { intros a' free' s1 s2 Hi1 Hds1 Hdk2. eapply data_kept_trans; [apply data_same_kept, Hds1|exact Hdk2|].
    intros g Hg Hnt. eapply grows_kept; [|done..].
    by eapply new_dir_grows; [apply (vi_wf _ _ _ _ _ Hi1)|..]. }
  apply wp_bind. eapply mappages_kernel_wp; [exact Hi|apply lookup_set_dir|done| | |].
  - intros u Hu. apply (Hnone k); [set_solver|done].
  - intros a' free' s1 Hi1 Hsc1 Hds1. rewrite set_set_dir in *. cbn [Z.ltb Z.compare].
    apply wp_bind. eapply freevm_wp; [exact Hi1|apply lookup_set_dir|].
    rewrite del_set_dir by done. intros free2 s2 Hi2 Hsc2 Hdk2.
    apply wp_ret, (H0 free2); [done|by trans s1|by eapply Hdk].
  - intros a' free' s1 Ha' Hg Hi1 Hsc1 Hds1. rewrite set_set_dir in *. cbn [Z.ltb Z.compare].
    eapply (IH free' a'); [done|done|done| | |].
    + intros k' u Hk' Hu. rewrite Ha', range_pte_None.
      * apply (Hnone k'); [set_solver|done].
      * rewrite Forall_forall in Hf. specialize (Hf k' Hk'). unfold kbefore in Hf. lia.
    + intros free2 s2 Hi2 Hsc2 Hdk2. apply (H0 free2); [done|by trans s1|by eapply Hdk].
    + intros a2 free2 s2 Ha2 Hg2 Hi2 Hsc2 Hds2. apply (H1 a2 free2); [| |done|by trans s1|].
      * intros u. rewrite Ha2, Ha'. cbn [kmap_pte].
        destruct (kmap_pte ks u), (range_pte (kv k) (kn k) (kq k) (kperm k) u); done.
      * intros i p Hp. by apply Hg2, Hg.
      * eapply data_same_trans; [|exact Hds1|exact Hds2]. intros g Hgt.
        rewrite <- (set_set_dir G d a2 a').
        eapply is_table_grow; [apply lookup_set_dir|done|done].
Qed.

(** [setupkvm] returns a directory that maps the kernel and nothing else, or 0
    when memory runs out, after returning what it allocated. *)
Lemma setupkvm_wp lo hi G free (Q : Z -> mstate -> Prop) s :
  vm_inv lo hi G free s ->
  (forall free' s', vm_inv lo hi G free' s' -> same_cpu s s' -> data_kept G s s' -> Q 0 s') ->
  (forall d a free' s', g_dirs G !! d = None -> 0 < d < NFRAMES ->
     (forall u, as_pte a !! u = kmap_pte kmap u) ->
     vm_inv lo hi (set_dir d a G) free' s' -> same_cpu s s' -> data_kept (set_dir d a G) s s' ->
     Q (kva d) s') ->
  wp setupkvm Q s.
Proof.
  intros Hi H0 H1. unfold setupkvm. apply wp_bind. eapply vm_kalloc_wp; [exact Hi| |].
  { intros _. by apply wp_ret, (H0 free). }
  intros d rest s1 -> Hd Hc0 Hsc1 Hm1 Hi1. pose proof (managed_frame _ _ _ _ _ d Hi Hd) as Hdf.
  rewrite (proj2 (Z.eqb_neq _ _)) by (apply kva_nonzero; lia).
  apply wp_bind, memset_page_wp; [lia|]. change (DEVSPACE <? P2V PHYSTOP) with false.
  pose proof (wg_ext _ _ _ (vi_wf _ _ _ _ _ Hi) d) as He.
  destruct (vm_inv_new_dir _ _ _ _ _ d Hi1 Hc0 He) as [Hi2 Hnd].
  set (s2 := set_mem _ s1) in *.
  assert (same_cpu s s2) as Hsc2 by exact Hsc1.
  assert (forall G', (0 < cnt G' d -> is_table G' d) -> data_kept G' s s2) as Hdk.
  { intros G' Hd' g Hg Hnt. subst s2. cbn. rewrite page_of_insert_ne; [by rewrite Hm1|].
    intros <-. apply Hnt, Hd', Hg. }
  eapply (setupkvm_loop_wp lo hi G d kmap rest);
    [done|intros; by eapply cnt_nonneg_inv|exact Hi2|apply kmap_wf|apply kmap_sorted|done| |].
  - intros free' s3 Hi3 Hsc3 Hdk3. apply (H0 free'); [done|by trans s2|].
    eapply data_kept_trans; [apply (Hdk G); lia|exact Hdk3|done].
  - intros a free' s3 Ha Hg Hi3 Hsc3 Hds3. apply (H1 d a free'); try done; [lia| |by trans s2|].
    + intros u. rewrite Ha. by destruct (kmap_pte kmap u).
    + eapply data_kept_trans; [apply (Hdk (set_dir d a G))|apply data_same_kept, Hds3|done].
      intros _. left. rewrite lookup_set_dir. eauto.
Qed.

End ops.
