(* ===== verification/VmFault.v ===== *)
(** * Page faults: [lazyalloc], [cowfault], [pagefault]

    A fault on a page below the process size that has no frame gets a zeroed
    one; a write to a copy-on-write page gets a private copy.  Neither changes
    what any process reads. *)

From S2P Require Import Prelude Monad Machine Kalloc Vm VmInv VmOps VmFree VmKern.

(** ** What a process sees *)

(** Contents of user page [v]: a page not allocated yet reads as zeros. *)
Definition view (m : gmap Z page) (a : aspace) (v : Z) : page :=
  match as_pte a !! v with
  | Some e => page_of m (pframe e)
  | None => fill_page 0
  end.

(** Every address space of [G] is still there in [G'], with the same user
    contents and the same kernel mappings. *)
Definition views_kept (G : ghost) (s : mstate) (G' : ghost) (s' : mstate) : Prop :=
  forall d a, g_dirs G !! d = Some a -> exists a', g_dirs G' !! d = Some a' /\
    (forall v, 0 <= v < UPAGES -> view (mem s') a' v = view (mem s) a v) /\
    (forall v, UPAGES <= v -> as_pte a' !! v = as_pte a !! v).

(** [same_cpu] up to the removal of page [v] from the TLB. *)
Definition same_cpu_but (v : Z) (s s' : mstate) : Prop :=
  held s' = held s /\ cr3 s' = cr3 s /\ tlb s' = delete v (tlb s) /\ kpgdir s' = kpgdir s /\
  use_lock (kmem s') = use_lock (kmem s).

(** The flags of a copy-on-write entry once the page is private. *)
Definition cow_flags (fl : Z) : Z := Z.lor (Z.land fl (Z.lnot PTE_COW)) PTE_W.

Lemma testbit_cow_flags fl n :
  0 <= n -> Z.testbit (cow_flags fl) n = (Z.testbit fl n && negb (n =? 11)) || (n =? 1).
Proof.
  intros Hn. unfold cow_flags. rewrite Z.lor_spec, Z.land_spec, Z.lnot_spec by done.
  change PTE_COW with (2 ^ 11). change PTE_W with (2 ^ 1).
  rewrite !Z.pow2_bits_eqb by lia. by rewrite (Z.eqb_sym 11), (Z.eqb_sym 1).
Qed.

Lemma cow_flags_range fl : 0 <= fl < 4096 -> 0 <= cow_flags fl < 4096.
Proof.
  intros Hf. unfold cow_flags. change 4096 with (2 ^ 12). apply lor_bound; [lia| |done].
  rewrite <- (Z.mod_small fl (2 ^ 12)), <- Z.land_ones by lia.
  rewrite <- Z.land_assoc, (Z.land_comm (Z.ones 12)), Z.land_assoc, Z.land_ones by lia.
  apply Z.mod_pos_bound. lia.
Qed.

Section ops.
Context `{KernelImage}.
Implicit Types (G : ghost) (s : mstate) (free : list Z) (a : aspace).

Lemma vm_inv_paging lo hi G free s c t :
  vm_inv lo hi G free s -> vm_inv lo hi G free (set_paging c t s).
Proof. intros [[? ? ? ? ? ? ? ?] Hr Hwf]. by split. Qed.

Lemma vm_inv_held lo hi G free s h :
  vm_inv lo hi G free s -> LKmem ∉ h -> vm_inv lo hi G free (set_held h s).
Proof. intros [[? ? ? ? ? ? ? ?] Hr Hwf] Hh. by split. Qed.

Lemma vpn_rounddown va : vpn (PGROUNDDOWN va) = vpn va.
Proof. rewrite PGROUNDDOWN_spec. unfold vpn. zdiv. Qed.

Lemma PGROUNDDOWN_vpn va : PGROUNDDOWN va = vpn va * 4096.
Proof. rewrite PGROUNDDOWN_spec. unfold vpn. zdiv. Qed.

Lemma vpn_user va : 0 <= va < KERNBASE -> 0 <= vpn va < UPAGES.
Proof. intros. unfold vpn, UPAGES, KERNBASE in *. zdiv. Qed.

Lemma invlpg_wp va (Q : unit -> mstate -> Prop) s :
  Q tt (set_paging (cr3 s) (delete (vpn va) (tlb s)) s) -> wp (invlpg va) Q s.
Proof. by apply wp_modify. Qed.

Lemma same_cpu_invlpg s s' v :
  same_cpu s s' -> same_cpu_but v s (set_paging (cr3 s') (delete v (tlb s')) s').
Proof. intros (?&?&Ht&?&?). unfold same_cpu_but; cbn. rewrite Ht. done. Qed.

(** ** [lazyalloc] *)

Lemma lazyalloc_wp lo hi G free d a va (Q : Z -> mstate -> Prop) s :
  vm_inv lo hi G free s -> g_dirs G !! d = Some a -> 0 <= va < KERNBASE ->
  as_pte a !! vpn va = None ->
  (forall free' s', (length free <= 1)%nat -> vm_inv lo hi G free' s' -> same_cpu s s' ->
     data_kept G s s' -> Q (-1) s') ->
  (forall a' f free' s', as_pte a' = <[vpn va := f * 4096 + 7]> (as_pte a) -> cnt G f = 0 ->
     page_of (mem s') f = fill_page 0 ->
     vm_inv lo hi (set_dir d a' G) free' s' -> same_cpu_but (vpn va) s s' -> data_kept G s s' ->
     Q 0 s') ->
  wp (lazyalloc (kva d) va) Q s.
Proof.
  intros Hi Hd Hva Hnone H0 H1. unfold lazyalloc. cbv zeta. apply wp_bind.
  pose proof (vpn_user va Hva) as Hv. pose proof (vi_wf _ _ _ _ _ Hi) as Hwf.
  eapply vm_kalloc_wp; [exact Hi|intros ->; by apply wp_ret, (H0 []); [cbn; lia|..]|].
  intros f rest s1 -> Hf Hc0 Hsc1 Hm1 Hi1. pose proof (managed_frame _ _ _ _ _ f Hi Hf) as Hff.
  rewrite (proj2 (Z.eqb_neq _ _)) by (apply kva_nonzero; lia).
  apply wp_bind, memset_page_wp; [lia|]. set (G1 := add_ext f 1 G) in *.
  assert (g_ext G f = 0) as He0 by (pose proof (cnt_ge_ext G f); pose proof (wg_ext _ _ _ Hwf f); lia).
  assert (g_ext G1 f = 1) as He1 by (cbn; rewrite upd_eq; lia).
  assert (cnt G1 f = 1) as Hc1 by (unfold G1; rewrite cnt_add_ext, decide_True by done; lia).
  pose proof (ext_not_table _ _ _ (vi_wf _ _ _ _ _ Hi1) f ltac:(lia)) as Hnt.
  apply (vm_inv_data _ _ _ _ _ f (fill_page 0)) in Hi1;
    [|done|by eapply ext_not_free; [done|lia]|apply length_fill_page].
  set (s2 := set_mem _ s1) in *. assert (same_cpu s s2) as Hsc2 by exact Hsc1.
  assert (data_kept G s s2) as Hdk2.
  { intros g Hg _. subst s2. cbn. rewrite page_of_insert_ne; [by rewrite Hm1|]. intros <-. lia. }
  rewrite PGROUNDDOWN_vpn, V2P_kva0 by lia. apply wp_bind.
  eapply (mappages_user_wp lo hi G1 rest d a (vpn va) f); try done; [lia| | |].
  - intros v' e' (b & Hb & Hv' & Hr') Ef. pose proof (user_cnt _ _ _ Hwf d v' e') as Hc'.
    rewrite Ef in Hc'. assert (1 <= cnt G f) by (apply Hc'; exists b; done). lia.
  - intros ->. cbn [Z.ltb Z.compare]. apply wp_bind.
    eapply vm_kfree_wp; [exact Hi1|lia|]. intros free3 s3 Hsc3 Hi3 Hpg3 _.
    apply wp_ret, (H0 free3); [done| |by trans s2|].
    + eapply vm_inv_ext; [| |exact Hi3]; [done|]. intros g. cbn. unfold upd. repeat case_decide; subst; lia.
    + eapply data_kept_trans; [exact Hdk2| |done]. intros g Hg _. apply Hpg3. left. intros ->. lia.
  - intros a' free' s3 [Hgp Hgt] G' Hi3 Hsc3 Hds3 _ Hnew. cbn [Z.ltb Z.compare].
    apply wp_bind, invlpg_wp, wp_ret. rewrite <- PGROUNDDOWN_vpn, vpn_rounddown.
    change (Z.lor (Z.lor PTE_W PTE_U) 1) with 7 in *.
    eapply (H1 (put_pte (vpn va) (Some (f * 4096 + 7)) a') f free'); [|done| | | |].
    + cbn. by rewrite Hgp.
    + cbn. rewrite Hds3; [subst s2; cbn; apply page_of_insert_eq|].
      intros Ht. apply (gr_table _ _ Hnew) in Ht as [Ht|Ht]; [done|lia].
    + apply vm_inv_paging. eapply vm_inv_ext; [| |exact Hi3]; [done|].
      intros g. cbn. unfold upd. repeat case_decide; subst; lia.
    + apply same_cpu_invlpg. by trans s2.
    + eapply data_kept_trans; [exact Hdk2| |done]. intros g Hg Hng. cbn. apply Hds3.
      intros Ht. apply (gr_table _ _ Hnew) in Ht as [Ht|Ht]; [done|]. unfold G1 in Ht. rewrite cnt_add_ext in Ht.
      case_decide; lia.
Qed.

(** ** [cowfault] *)

Lemma vm_store_pte_wp lo hi G free d a v p e e' ext' (Q : unit -> mstate -> Prop) s :
  vm_inv lo hi G free s -> g_dirs G !! d = Some a -> 0 <= v < UPAGES ->
  as_pt a !! (v / 1024) = Some p -> as_pte a !! v = Some e -> valid_pte (Some e') ->
  let G' := MkG (<[d := put_pte v (Some e') a]> (g_dirs G)) ext' in
  (forall f, 0 <= ext' f) -> (forall f, cnt G' f = cnt G f) ->
  (Z.testbit e' 1 = true -> cnt G (pframe e') = 1) ->
  (forall v' e0, v' <> v -> user_pte G d v' e0 -> pframe e0 <> pframe e') ->
  (forall s', vm_inv lo hi G' free s' -> same_cpu s s' -> data_same G s s' -> Q tt s') ->
  wp (store (kva p + 4 * (v mod 1024)) e') Q s.
Proof.
  intros Hi Hd Hv Hp He Hval G' Hext Hcnt Hw Hinj HQ.
  assert (is_table G p) as Htp by (right; eauto).
  pose proof (vm_table_frame _ _ _ _ _ p Hi Htp) as Hpf.
  unfold UPAGES in Hv. destruct (split_vpn v ltac:(lia)) as (_ & Esplit & Hmod & _).
  apply store_word; [done..|]. apply HQ; [|done|].
  - pose proof (vm_inv_store_pte lo hi G free s d a (v / 1024) p (v mod 1024) (Some e') ext') as Hst.
    rewrite <- Esplit in Hst. apply Hst; try done. intros ? [= <-] _. by split.
  - intros g Hg. cbn. apply page_of_insert_ne. by intros <-.
Qed.

Lemma cnt_swap G d a v e e' f :
  g_dirs G !! d = Some a -> as_pte a !! v = Some e -> v < UPAGES ->
  cnt (set_dir d (put_pte v (Some e') a) G) f =
  cnt G f - b2z (pframe e =? f) + b2z (pframe e' =? f).
Proof.
  intros Hd Hv Hu. rewrite (cnt_set_dir d a), as_cnt_put_pte, Hv by done. cbn. unfold pte_ref.
  rewrite (proj2 (Z.ltb_lt _ _) Hu). cbn. lia.
Qed.

Lemma cow_entry_valid f fl :
  0 <= f < NFRAMES -> 0 <= fl < 4096 -> Z.testbit fl 0 = true ->
  valid_pte (Some (f * 4096 + cow_flags fl)).
Proof.
  intros Hf Hfl Hb. pose proof (cow_flags_range fl Hfl). change NFRAMES with 57344 in *.
  split; [lia|]. by rewrite testbit_entry, testbit_cow_flags, Hb by lia.
Qed.

(** The copy of a shared page. *)
Lemma cow_copy_wp lo hi G free d a va p e (Q : Z -> mstate -> Prop) s :
  vm_inv lo hi G free s -> g_dirs G !! d = Some a -> 0 <= va < KERNBASE ->
  as_pt a !! (vpn va / 1024) = Some p -> as_pte a !! vpn va = Some e -> 1 < cnt G (pframe e) ->
  (free = [] -> Q (-1) s) ->
  (forall f free' s', cnt G f = 0 -> page_of (mem s') f = page_of (mem s) (pframe e) ->
     vm_inv lo hi (set_dir d (put_pte (vpn va) (Some (f * 4096 + cow_flags (PTE_FLAGS e))) a) G) free' s' ->
     same_cpu_but (vpn va) s s' -> data_kept G s s' -> Q 0 s') ->
  wp (let* mem := kalloc in
      if mem =? 0 then ret (-1) else
      memmove_page mem (P2V (PTE_ADDR e)) ;;;
      store (kva p + 4 * (vpn va mod 1024)) (Z.lor (V2P mem) (cow_flags (PTE_FLAGS e))) ;;;
      kfree (P2V (PTE_ADDR e)) ;;;
      invlpg (PGROUNDDOWN va) ;;;
      ret 0) Q s.
Proof.
  intros Hi Hd Hva Hp He Hc H0 H1. pose proof (vpn_user va Hva) as Hv. set (v := vpn va) in *.
  pose proof (vi_wf _ _ _ _ _ Hi) as Hwf. assert (user_pte G d v e) as Hue by (exists a; done).
  destruct (vm_user_frame _ _ _ _ _ d v e Hi Hue) as [Hfr Hff].
  destruct (dr_ent _ _ _ (vi_rep _ _ _ _ _ Hi d a Hd) _ _ He) as [Her Hbit].
  destruct (entry_split e ltac:(lia)) as [Ee Hfl].
  assert (Z.testbit (PTE_FLAGS e) 0 = true) as Hb0 by (rewrite Ee, testbit_entry in Hbit by lia; done).
  apply wp_bind. eapply vm_kalloc_wp; [exact Hi|intros ->; by apply wp_ret, H0|].
  intros m rest s1 -> Hm Hm0 Hsc1 Hm1 Hi1. pose proof (managed_frame _ _ _ _ _ m Hi Hm) as Hmf.
  rewrite (proj2 (Z.eqb_neq _ _)) by (apply kva_nonzero; lia).
  rewrite PTE_ADDR_frame, P2V_frame by lia. set (f := pframe e) in *.
  apply wp_bind, memmove_page_wp; [lia|lia|]. set (G1 := add_ext m 1 G) in *.
  assert (f <> m) as Hfm by (intros ->; lia).
  assert (g_ext G m = 0) as Hem by (pose proof (cnt_ge_ext G m); pose proof (wg_ext _ _ _ Hwf m); lia).
  assert (g_ext G1 m = 1) as He1 by (cbn; rewrite upd_eq; lia).
  assert (forall g, cnt G1 g = cnt G g + b2z (m =? g)) as Hc1.
  { intros g. unfold G1. rewrite cnt_add_ext. case_decide as E; [rewrite E, Z.eqb_refl; cbn; lia|].
    rewrite (proj2 (Z.eqb_neq m g)) by done. cbn. lia. }
  pose proof (ki_wf _ _ _ _ _ (vi_kmem _ _ _ _ _ Hi1)) as Hwm.
  pose proof (ext_not_table _ _ _ (vi_wf _ _ _ _ _ Hi1) m ltac:(lia)) as Hnt.
  apply (vm_inv_data _ _ _ _ _ m (page_of (mem s1) f)) in Hi1;
    [|done|by eapply ext_not_free; [done|lia]|apply Hwm].
  set (s2 := set_mem _ s1) in *. rewrite V2P_kva0, lor_aligned by (lia || by apply cow_flags_range).
  set (e' := m * 4096 + cow_flags (PTE_FLAGS e)).
  assert (pframe e' = m) as Ef' by (apply pframe_entry; by apply cow_flags_range).
  set (ext' := fun g => g_ext G g + b2z (f =? g)).
  assert (forall g, cnt (MkG (<[d := put_pte v (Some e') a]> (g_dirs G)) ext') g = cnt G1 g) as Hcc.
  { intros g. pose proof (cnt_swap G d a v e e' g Hd He ltac:(lia)) as Hs. rewrite Hc1.
    unfold cnt, set_dir, ext' in *; cbn in *. rewrite Ef' in Hs. subst f. lia. }
  apply wp_bind. eapply (vm_store_pte_wp lo hi G1 rest d a v p e e' ext');
    [exact Hi1|done|done|done|done| | |exact Hcc| | |].
  - by apply cow_entry_valid; [lia|..].
  - intros g. unfold ext'. pose proof (wg_ext _ _ _ Hwf g). pose proof (b2z_nonneg (f =? g)). lia.
  - intros _. rewrite Ef', Hc1, Z.eqb_refl, Hm0. done.
  - intros v' e0 _ Hu0 E0. pose proof (user_cnt _ _ _ Hwf d v' e0 Hu0) as Hcu.
    rewrite E0, Ef' in Hcu. lia.
  - intros s3 Hi3 Hsc3 Hds3. apply wp_bind.
    eapply (vm_kfree_wp _ _ _ _ f); [exact Hi3|cbn; unfold ext'; rewrite Z.eqb_refl; cbn;
      pose proof (wg_ext _ _ _ Hwf f); lia|].
    intros free4 s4 Hsc4 Hi4 Hpg4 _. apply wp_bind, invlpg_wp, wp_ret. rewrite vpn_rounddown.
    assert (1 < cnt (MkG (<[d:=put_pte v (Some e') a]> (g_dirs G)) ext') f) as Hcf.
    { rewrite Hcc, Hc1. pose proof (b2z_nonneg (m =? f)). lia. }
    assert (forall g, page_of (mem s4) g = page_of (mem s3) g) as Hpg.
    { intros g. apply Hpg4. by right. }
    apply (H1 m free4); [done| | | |].
    + cbn. rewrite Hpg, Hds3 by done. subst s2. cbn. rewrite page_of_insert_eq. by rewrite Hm1.
    + apply vm_inv_paging. eapply vm_inv_ext; [| |exact Hi4]; [done|].
      intros g. cbn. unfold upd, ext'. case_decide as E; [rewrite E, Z.eqb_refl; cbn; lia|].
      rewrite (proj2 (Z.eqb_neq f g)) by done. cbn. lia.
    + apply same_cpu_invlpg. trans s2; [exact Hsc1|]. by trans s3.
    + intros g Hg Hng. cbn. rewrite Hpg, Hds3 by done. subst s2. cbn.
      rewrite page_of_insert_ne; [by rewrite Hm1|]. intros <-. lia.
Qed.

Lemma cowfault_wp lo hi G free d a va e (Q : Z -> mstate -> Prop) s :
  vm_inv lo hi G free s -> g_dirs G !! d = Some a -> 0 <= va < KERNBASE ->
  as_pte a !! vpn va = Some e -> Z.testbit e 11 = true ->
  (free = [] -> Q (-1) s) ->
  (forall f free' s', page_of (mem s') f = page_of (mem s) (pframe e) ->
     vm_inv lo hi (set_dir d (put_pte (vpn va) (Some (f * 4096 + cow_flags (PTE_FLAGS e))) a) G) free' s' ->
     same_cpu_but (vpn va) s s' -> data_kept G s s' -> Q 0 s') ->
  wp (cowfault (kva d) va) Q s.
Proof.
  intros Hi Hd Hva He Hcow H0 H1. pose proof (vpn_user va Hva) as Hv. unfold cowfault.
  assert (user_pte G d (vpn va) e) as Hue by (exists a; done).
  pose proof (vi_wf _ _ _ _ _ Hi) as Hwf. pose proof (vi_rep _ _ _ _ _ Hi d a Hd) as Hrep.
  destruct (vm_user_frame _ _ _ _ _ d _ e Hi Hue) as [Hfr Hff].
  destruct (dr_ent _ _ _ Hrep _ _ He) as [Her Hbit].
  destruct (dr_dom _ _ _ Hrep _ _ He) as [Hv20 [p Hp]].
  destruct (split_vpn _ Hv20) as (_ & Esplit & Hmod & _).
  destruct (entry_split e ltac:(lia)) as [Ee Hfl].
  assert (is_table G p) as Htp by (right; eauto).
  pose proof (vm_table_frame _ _ _ _ _ p Hi Htp) as Hpf.
  apply wp_bind. eapply walkpgdir_find_wp; [exact Hi|exact Hd|unfold KERNBASE in *; lia|]. rewrite Hp.
  rewrite (proj2 (Z.eqb_neq _ _)) by (unfold kva, KERNBASE; lia).
  apply wp_bind, load_word; [done..|].
  rewrite (dr_pte _ _ _ Hrep _ _ _ Hp Hmod), <- Esplit, He. cbn [default from_option id].
  assert (has e PTE_P = true) as -> by (change PTE_P with (2 ^ 0); by rewrite has_bit).
  assert (has e PTE_COW = true) as -> by (change PTE_COW with (2 ^ 11); by rewrite has_bit).
  cbn [negb]. fold (cow_flags (PTE_FLAGS e)). apply wp_bind. rewrite (PTE_ADDR_frame e) at 1.
  eapply getref_wp; [apply (vi_kmem _ _ _ _ _ Hi)|done|].
  pose proof (user_cnt _ _ _ Hwf _ _ _ Hue) as Hcu.
  destruct (cnt G (pframe e) =? 1) eqn:E1; zbool.
  - rewrite PTE_ADDR_frame, lor_aligned by by apply cow_flags_range. apply wp_bind.
    assert (Z.testbit (PTE_FLAGS e) 0 = true) as Hb0 by (rewrite Ee, testbit_entry in Hbit by lia; done).
    pose proof (pframe_entry (pframe e) _ (cow_flags_range _ Hfl)) as Ef'.
    set (e' := pframe e * 4096 + cow_flags (PTE_FLAGS e)) in *.
    eapply (vm_store_pte_wp lo hi G free d a _ p e e' (g_ext G));
      [exact Hi|done|done|done|done|by apply cow_entry_valid|apply (wg_ext _ _ _ Hwf)| |by rewrite Ef'| |].
    + intros f. change (MkG _ (g_ext G)) with (set_dir d (put_pte (vpn va) (Some e') a) G).
      rewrite (cnt_swap G d a _ e) by (done || lia). rewrite Ef'. lia.
    + intros v' e0 Hne Hu0. rewrite Ef'. intros E0. apply Hne. by eapply (wg_inj _ _ _ Hwf).
    + intros s1 Hi1 Hsc1 Hds1. apply wp_bind, invlpg_wp, wp_ret. rewrite vpn_rounddown.
      eapply (H1 (pframe e) free); [|by apply vm_inv_paging|by apply same_cpu_invlpg|].
      * cbn. apply Hds1. by eapply user_not_table.
      * intros g _ Hg. cbn. by apply Hds1.
  - eapply (cow_copy_wp lo hi G free d a va p e); try done; [lia|].
    intros f free' s' _. apply H1.
Qed.

(** ** [pagefault] *)

(** What changes between [s] and [s'] when entry [v] of directory [d] may
    change: nothing any process sees. *)
Record fault_step (d : Z) (a a' : aspace) (v : Z) (G : ghost) (s s' : mstate) : Prop := {
  fs_views : views_kept G s (set_dir d a' G) s';
  fs_other : forall u, u <> v -> as_pte a' !! u = as_pte a !! u;
  fs_tlb : tlb s' = delete v (tlb s) \/ tlb s' = tlb s /\ as_pte a' = as_pte a;
  fs_cpu : held s' = held s /\ cr3 s' = cr3 s /\ kpgdir s' = kpgdir s
}.

Lemma views_kept_one lo hi G s d a a' v s' :
  wf_ghost lo hi G -> g_dirs G !! d = Some a -> data_kept G s s' ->
  (forall u, u <> v -> as_pte a' !! u = as_pte a !! u) ->
  0 <= v < UPAGES -> view (mem s') a' v = view (mem s) a v ->
  views_kept G s (set_dir d a' G) s'.
Proof.
  intros Hwf Hd Hdk Hoth Hv Hview.
  assert (forall d' b u, g_dirs G !! d' = Some b -> 0 <= u < UPAGES ->
            view (mem s') b u = view (mem s) b u) as Hsame.
  { intros d' b u Hb Hu. unfold view. destruct (as_pte b !! u) as [e|] eqn:E; [|done].
    assert (user_pte G d' u e) as Hue by (exists b; done). apply Hdk.
    - pose proof (user_cnt _ _ _ Hwf _ _ _ Hue). lia.
    - by eapply user_not_table. }
  intros d' b Hb. destruct (decide (d' = d)) as [->|Hne].
  - exists a'. rewrite Hd in Hb. injection Hb as <-. split; [apply lookup_set_dir|]. split.
    + intros u Hu. destruct (decide (u = v)) as [->|Huv]; [done|].
      rewrite <- (Hsame d a u Hd Hu). unfold view. by rewrite Hoth.
    + intros u Hu. apply Hoth. lia.
  - exists b. split; [cbn; by rewrite lookup_insert_ne|]. split; [|done]. intros. by eapply Hsame.
Qed.

Lemma fault_step_same G s d a v s' :
  g_dirs G !! d = Some a -> mem s' = mem s -> tlb s' = tlb s ->
  held s' = held s /\ cr3 s' = cr3 s /\ kpgdir s' = kpgdir s -> fault_step d a a v G s s'.
Proof.
  intros Hd Hm Ht Hc. split; [|done|by right|done].
  intros d' b Hb. exists b. unfold set_dir. cbn. rewrite insert_id by done. split; [done|].
  split; [|done]. intros. by rewrite Hm.
Qed.

(** After [pagefault] returns 0 the faulting access finds a present entry, which
    is writable if the access was a write, and still closed to the user if it
    was before. *)
Definition access_ok (a a' : aspace) (v err : Z) : Prop :=
  exists e, as_pte a' !! v = Some e /\ Z.testbit e 0 = true /\
    (has err FEC_WR = true -> Z.testbit e 1 = true) /\
    Z.testbit e 2 = from_option (fun e => Z.testbit e 2) true (as_pte a !! v).

(** Why [pagefault] fails: memory is exhausted, the address is outside the
    process, or the access is not one the page allows. *)
Definition fault_refused (free : list Z) (a : aspace) (sz va err : Z) : Prop :=
  (length free <= 1)%nat \/ (as_pte a !! vpn va = None /\ sz <= va) \/
  (exists e, as_pte a !! vpn va = Some e /\
     (has err FEC_WR = false \/ Z.testbit e 11 = false /\ Z.testbit e 1 = false)).

(** The directory is as it was. *)
Lemma fault_none lo hi G free d a v s s' :
  vm_inv lo hi G free s -> g_dirs G !! d = Some a -> 0 <= v < UPAGES ->
  same_cpu (set_held (LVm :: held s) s) s' -> data_kept G s s' -> fault_step d a a v G s (set_held (held s) s').
Proof.
  intros Hi Hd Hv (Eh&Ec&Et&Ek&_) Hdk. pose proof (vi_wf _ _ _ _ _ Hi) as Hwf. split; cbn; [|done|by right|done].
  eapply (views_kept_one lo hi G s d a a v); try done. cbn. unfold view.
  destruct (as_pte a !! v) as [e|] eqn:E; [|done].
  assert (user_pte G d v e) as Hue by (exists a; done). apply Hdk.
  - pose proof (user_cnt _ _ _ Hwf _ _ _ Hue). lia.
  - by eapply user_not_table.
Qed.

(** The page is the process's own now, and writable. *)
Lemma fault_cow lo hi G free d a v e f err s s' :
  let a' := put_pte v (Some (f * 4096 + cow_flags (PTE_FLAGS e))) a in
  vm_inv lo hi G free s -> g_dirs G !! d = Some a -> 0 <= v < UPAGES -> as_pte a !! v = Some e ->
  page_of (mem s') f = page_of (mem s) (pframe e) ->
  same_cpu_but v (set_held (LVm :: held s) s) s' -> data_kept G s s' ->
  fault_step d a a' v G s (set_held (held s) s') /\ access_ok a a' v err.
Proof.
  intros a' Hi Hd Hv He Hpg (Eh&Ec&Et&Ek&_) Hdk. pose proof (vi_wf _ _ _ _ _ Hi) as Hwf.
  destruct (dr_ent _ _ _ (vi_rep _ _ _ _ _ Hi d a Hd) _ _ He) as [Her Hbit]. destruct (entry_split e ltac:(lia)) as [Ee Hfl]. split.
  - split; cbn; [|intros u Hu; by rewrite lookup_partial_alter_ne|by left|done].
    eapply (views_kept_one lo hi G s d a _ v); try done.
    + intros u Hu. cbn. by rewrite lookup_partial_alter_ne.
    + unfold view. cbn. rewrite lookup_partial_alter_eq, He, pframe_entry; [done|]. by apply cow_flags_range.
  - exists (f * 4096 + cow_flags (PTE_FLAGS e)). split; [apply lookup_partial_alter_eq|].
    rewrite !testbit_entry, !testbit_cow_flags by lia.
    rewrite Ee, testbit_entry in Hbit by lia. rewrite Hbit. split; [done|]. split; [intros _; apply orb_true_r|].
    rewrite He. cbn [from_option].
    assert (Z.testbit e 2 = Z.testbit (PTE_FLAGS e) 2) as -> by (rewrite Ee at 1; apply testbit_entry; lia).
    by rewrite andb_true_r, orb_false_r.
Qed.

(** A page that was not there is, filled with zeros. *)
Lemma fault_lazy lo hi G free d a a' v f err s s' :
  vm_inv lo hi G free s -> g_dirs G !! d = Some a -> 0 <= v < UPAGES -> as_pte a !! v = None ->
  as_pte a' = <[v := f * 4096 + 7]> (as_pte a) -> page_of (mem s') f = fill_page 0 ->
  same_cpu_but v (set_held (LVm :: held s) s) s' -> data_kept G s s' ->
  fault_step d a a' v G s (set_held (held s) s') /\ access_ok a a' v err.
Proof.
  intros Hi Hd Hv He Ea' Hz (Eh&Ec&Et&Ek&_) Hdk. pose proof (vi_wf _ _ _ _ _ Hi) as Hwf.
  assert (forall u, u <> v -> as_pte a' !! u = as_pte a !! u) as Hoth by (intros u Hu; rewrite Ea'; by apply lookup_insert_ne). split.
  - split; cbn; [|done|by left|done]. eapply (views_kept_one lo hi G s d a a' v); try done.
    cbn. unfold view. rewrite He, Ea', lookup_insert_eq, pframe_entry; [done|lia].
  - exists (f * 4096 + 7). rewrite Ea', lookup_insert_eq, !testbit_entry, He by lia. done.
Qed.

(** The entry of a page that is not mapped reads as 0. *)
Lemma absent_pte_wp lo hi G free d a v (Q : Z -> mstate -> Prop) s :
  vm_inv lo hi G free s -> g_dirs G !! d = Some a -> 0 <= v < UPAGES -> as_pte a !! v = None -> Q 0 s ->
  let pte := match as_pt a !! (v / 1024) with Some p => kva p + 4 * (v mod 1024) | None => 0 end in
  wp (if pte =? 0 then ret 0 else load pte) Q s.
Proof.
  intros Hi Hd Hv He HQ pte. subst pte. pose proof (vi_rep _ _ _ _ _ Hi d a Hd) as Hrep.
  destruct (as_pt a !! (v / 1024)) as [p|] eqn:Hp; [|by apply wp_ret].
  assert (is_table G p) as Htp by (right; eauto). pose proof (vm_table_frame _ _ _ _ _ p Hi Htp) as Hpf.
  unfold UPAGES in Hv. destruct (split_vpn v ltac:(lia)) as (_ & Esplit & Hmod & _).
  rewrite (proj2 (Z.eqb_neq _ 0)) by (unfold kva, KERNBASE; lia). apply load_word; [done..|].
  by rewrite (dr_pte _ _ _ Hrep _ _ _ Hp Hmod), <- Esplit, He.
Qed.

Lemma pagefault_wp lo hi G free d a sz va err (Q : Z -> mstate -> Prop) s :
  vm_inv lo hi G free s -> g_dirs G !! d = Some a -> 0 <= va < KERNBASE -> LVm ∉ held s ->
  (forall a' free' s', vm_inv lo hi (set_dir d a' G) free' s' -> fault_step d a a' (vpn va) G s s' ->
     access_ok a a' (vpn va) err -> Q 0 s') ->
  (forall free' s', fault_refused free a sz va err -> vm_inv lo hi G free' s' ->
     fault_step d a a (vpn va) G s s' -> Q (-1) s') ->
  wp (pagefault (Some (kva d, sz)) va err) Q s.
Proof.
  intros Hi Hd Hva Hl H0 H1. pose proof (vpn_user va Hva) as Hv. unfold pagefault.
  rewrite (proj2 (Z.leb_gt _ _)) by lia. apply wp_bind, acquire_wp; [done|].
  set (s0 := set_held (LVm :: held s) s).
  assert (vm_inv lo hi G free s0) as Hi0.
  { apply vm_inv_held; [done|]. pose proof (ki_lock _ _ _ _ _ (vi_kmem _ _ _ _ _ Hi)). set_solver. }
  pose proof (vi_wf _ _ _ _ _ Hi) as Hwf. pose proof (vi_rep _ _ _ _ _ Hi d a Hd) as Hrep.
  assert (forall G' free' s', vm_inv lo hi G' free' s' -> vm_inv lo hi G' free' (set_held (held s) s')) as Hun.
  { intros G' free' s' Hi'. apply vm_inv_held; [done|]. apply (ki_lock _ _ _ _ _ (vi_kmem _ _ _ _ _ Hi)). }
  assert (forall r s', held s' = held s0 -> Q r (set_held (held s) s') ->
            wp (release LVm ;;; ret r) Q s') as Hrel.
  { intros r s' Hh HQ. apply wp_bind. eapply release_wp; [exact Hh|done|]. by apply wp_ret. }
  assert (forall s', same_cpu s0 s' -> data_kept G s0 s' -> fault_step d a a (vpn va) G s (set_held (held s) s'))
    as Hbad.
  { intros s' Hsc Hdk. by eapply fault_none. }
  apply wp_bind. eapply walkpgdir_find_wp; [exact Hi0|exact Hd|unfold KERNBASE in *; lia|].
  destruct (as_pte a !! vpn va) as [e|] eqn:He.
  - destruct (dr_dom _ _ _ Hrep _ _ He) as [Hv20 [p Hp]]. destruct (dr_ent _ _ _ Hrep _ _ He) as [Her Hbit].
    destruct (split_vpn _ Hv20) as (_ & Esplit & Hmod & _).
    assert (is_table G p) as Htp by (right; eauto).
    pose proof (vm_table_frame _ _ _ _ _ p Hi Htp) as Hpf. rewrite Hp.
    rewrite (proj2 (Z.eqb_neq _ 0)) by (unfold kva, KERNBASE; lia).
    apply wp_bind, load_word; [done..|]. cbn [s0 set_held mem].
    rewrite (dr_pte _ _ _ Hrep _ _ _ Hp Hmod), <- Esplit, He. cbn [default from_option id].
    assert (has e PTE_P = true) as -> by (change PTE_P with (2 ^ 0); by rewrite has_bit).
    change PTE_COW with (2 ^ 11). change PTE_W with (2 ^ 1). rewrite !has_bit by lia. cbn [orb negb].
    destruct (has err FEC_WR) eqn:Ewr; cbn [andb].
    2:{ apply Hrel; [done|]. eapply (H1 free); [right; right; eauto|by apply Hun|by apply Hbad]. }
    destruct (Z.testbit e 11) eqn:Ecow; [|destruct (Z.testbit e 1) eqn:Ew].
    + apply wp_bind. eapply cowfault_wp; [exact Hi0|done..| |].
      * intros ->. apply Hrel; [done|]. eapply (H1 []); [left; cbn; lia|by apply Hun|by apply Hbad].
      * intros f free' s' Hpg Hi' Hsc Hdk. apply Hrel; [apply Hsc|].
        destruct (fault_cow lo hi G free d a (vpn va) e f err s s') as [Hf Hok]; [done..|].
        by eapply H0; [apply Hun|exact Hf|].
    + apply Hrel; [done|]. eapply (H0 a free); [|by apply Hbad|exists e; by rewrite He].
      apply Hun. eapply vm_inv_ext; [by apply set_dir_same|done|done].
    + apply Hrel; [done|]. eapply (H1 free); [right; right; eauto|by apply Hun|by apply Hbad].
  - apply wp_bind. eapply absent_pte_wp; [exact Hi0|done..|]. change (has 0 PTE_P) with false. cbn [negb]. rewrite orb_true_r.
    destruct (sz <=? va) eqn:Esz.
    { zbool. apply Hrel; [done|]. eapply (H1 free); [right; left; eauto|by apply Hun|by apply Hbad]. }
    apply wp_bind. eapply lazyalloc_wp; [exact Hi0|done..| |].
    + intros free' s' Hlen Hi' Hsc Hdk. apply Hrel; [apply Hsc|].
      eapply (H1 free'); [by left|by apply Hun|by apply Hbad].
    + intros a' f free' s' Ea' Hc0 Hz Hi' Hsc Hdk. apply Hrel; [apply Hsc|].
      destruct (fault_lazy lo hi G free d a a' (vpn va) f err s s') as [Hf Hok]; [done..|].
      by eapply (H0 a' free'); [apply Hun|exact Hf|].
Qed.

End ops.
