(* ===== verification/VmCow.v ===== *)
(** * Copy-on-write duplication of an address space: [cowuvm]

    The child gets an entry for every page the parent has, with the same frame;
    writable entries become read-only and copy-on-write in both.  What the two
    processes read is the parent's contents, and no frame has a writable entry
    while it is shared. *)

From S2P Require Import Prelude Monad Machine Kalloc Vm VmInv VmOps VmFree VmKern VmFault.

(** ** Entries *)

Lemma ldiff_aligned f m : 0 <= m < 4096 -> Z.land (f * 4096) (Z.lnot m) = f * 4096.
Proof.
  intros Hm. apply Z.bits_inj'. intros n Hn. rewrite Z.land_spec, Z.lnot_spec by done.
  destruct (decide (n < 12)) as [Hl|Hg].
  - change 4096 with (2 ^ 12). by rewrite Z.mul_pow2_bits_low by lia.
  - rewrite (Z.bits_above_log2 m n); [by rewrite andb_true_r|lia|].
    destruct (decide (m = 0)) as [->|]; [cbn; lia|]. apply Z.log2_lt_pow2; [lia|].
    apply (Z.lt_le_trans _ (2 ^ 12)); [lia|]. apply Z.pow_le_mono_r; lia.
Qed.

Lemma land_mask_range fl m : 0 <= fl < 4096 -> 0 <= Z.land fl m < 4096.
Proof.
  intros Hf. rewrite <- (Z.mod_small fl 4096) by lia. change 4096 with (2 ^ 12).
  rewrite <- Z.land_ones, <- Z.land_assoc, (Z.land_comm (Z.ones 12)), Z.land_assoc, Z.land_ones by lia.
  apply Z.mod_pos_bound. lia.
Qed.

Lemma land_entry f fl m :
  0 <= fl < 4096 -> 0 <= m < 4096 ->
  Z.land (f * 4096 + fl) (Z.lnot m) = f * 4096 + Z.land fl (Z.lnot m).
Proof.
  intros Hf Hm. rewrite <- lor_aligned, Z.land_lor_distr_l, ldiff_aligned by done.
  apply lor_aligned. by apply land_mask_range.
Qed.

Lemma lor_entry f fl m :
  0 <= fl < 4096 -> 0 <= m < 4096 -> Z.lor (f * 4096 + fl) m = f * 4096 + Z.lor fl m.
Proof.
  intros Hf Hm. rewrite <- lor_aligned, <- Z.lor_assoc by done. apply lor_aligned.
  by apply (lor_bound fl m 12).
Qed.

Lemma lor_1_present x : Z.testbit x 0 = true -> Z.lor x 1 = x.
Proof.
  intros Hx. apply Z.bits_inj'. intros n Hn. rewrite Z.lor_spec. change 1 with (2 ^ 0).
  rewrite Z.pow2_bits_eqb by lia. destruct (Z.eqb_spec 0 n) as [<-|]; [by rewrite Hx|apply orb_false_r].
Qed.

(** The entry both processes hold after the fork. *)
Definition share (e : Z) : Z :=
  if Z.testbit e 1 then Z.lor (Z.land e (Z.lnot PTE_W)) PTE_COW else e.

(** [e] with its frame kept and its flags changed to [fl]. *)
Lemma entry_bits f fl : 0 <= fl < 4096 ->
  pframe (f * 4096 + fl) = f /\ PTE_FLAGS (f * 4096 + fl) = fl.
Proof. intros Hf. split; [by apply pframe_entry|]. rewrite PTE_FLAGS_spec. zdiv. Qed.

Lemma share_spec e : 0 <= e ->
  exists fl, share e = pframe e * 4096 + fl /\ 0 <= fl < 4096 /\
    Z.testbit fl 0 = Z.testbit e 0 /\ Z.testbit fl 1 = false /\
    Z.testbit fl 2 = Z.testbit e 2 /\ (Z.testbit e 1 = true -> Z.testbit fl 11 = true).
Proof.
  intros He. destruct (entry_split e He) as [Ee Hfl]. set (f := pframe e) in *. set (fl := PTE_FLAGS e) in *.
  assert (forall n, 0 <= n < 12 -> Z.testbit e n = Z.testbit fl n) as Hb
    by (intros n Hn; rewrite Ee; by apply testbit_entry).
  unfold share. destruct (Z.testbit e 1) eqn:E1.
  - exists (Z.lor (Z.land fl (Z.lnot PTE_W)) PTE_COW).
    pose proof (land_mask_range fl (Z.lnot PTE_W) Hfl) as Hm.
    rewrite Ee at 1. rewrite land_entry, lor_entry by done.
    split; [done|]. split; [by apply (lor_bound _ _ 12)|].
    rewrite !Z.lor_spec, !Z.land_spec, !Z.lnot_spec, !Hb by lia.
    change PTE_COW with (2 ^ 11). change PTE_W with (2 ^ 1). rewrite !Z.pow2_bits_eqb by lia.
    rewrite !orb_false_r, !andb_true_r, !andb_false_r by done. by rewrite orb_true_r.
  - exists fl. rewrite <- !Hb by lia. done.
Qed.

Lemma share_frame e : 0 <= e -> pframe (share e) = pframe e.
Proof. intros He. destruct (share_spec e He) as (fl & -> & Hf & _). by apply pframe_entry. Qed.

Lemma share_readonly e : 0 <= e -> Z.testbit (share e) 1 = false.
Proof. intros He. destruct (share_spec e He) as (fl & -> & Hf & _ & Hb & _). by rewrite testbit_entry. Qed.

Lemma share_valid e : valid_pte (Some e) -> pframe e < NFRAMES -> valid_pte (Some (share e)).
Proof.
  intros [He Hb] Hf. destruct (share_spec e ltac:(lia)) as (fl & -> & Hfl & H0 & _).
  assert (0 <= pframe e) by (unfold pframe; zdiv). change NFRAMES with 57344 in *.
  split; [lia|]. rewrite testbit_entry by lia. congruence.
Qed.

Lemma share_idem e : 0 <= e -> share (share e) = share e.
Proof. intros He. unfold share at 1. by rewrite share_readonly. Qed.

Section ops.
Context `{KernelImage}.
Implicit Types (G : ghost) (s : mstate) (free : list Z) (a : aspace).

(** ** The reference count of a user frame *)

(** Every directory maps a frame at most once, so a frame has at most one
    reference per address space besides those of other holders. *)
Lemma user_cnt_bound lo hi G free s d v e :
  vm_inv lo hi G free s -> user_pte G d v e ->
  cnt G (pframe e) <= g_ext G (pframe e) + Z.of_nat (size (g_dirs G)).
Proof.
  intros [_ Hr Hwf] Hu. pose proof (user_not_table _ _ _ Hwf _ _ _ Hu) as Hnt.
  set (f := pframe e) in *. unfold cnt. apply Z.add_le_mono_l.
  rewrite <- (Z.mul_1_l (Z.of_nat _)). apply msum_le_bound. intros d' b Hb. unfold as_cnt.
  rewrite (proj2 (Z.eqb_neq d' f)) by (intros ->; apply Hnt; left; eauto).
  rewrite (msum_ext (pt_ref f) (fun _ _ => 0)), msum_zero.
  2:{ intros i p Hi. unfold pt_ref. rewrite (proj2 (Z.eqb_neq p f)); [done|].
      intros ->. apply Hnt. right; eauto. }
  cbn [b2z]. enough (msum (pte_ref f) (as_pte b) <= 1) by lia. apply msum_le_one.
  - intros v' e' _. unfold pte_ref. destruct (_ && _); cbn; lia.
  - intros v1 e1 v2 e2 H1 H2. unfold pte_ref.
    destruct ((v1 <? UPAGES) && (pframe e1 =? f)) eqn:E1, ((v2 <? UPAGES) && (pframe e2 =? f)) eqn:E2;
      cbn; try lia. zbool. intros _ _.
    destruct (dr_dom _ _ _ (Hr d' b Hb) v1 e1 H1), (dr_dom _ _ _ (Hr d' b Hb) v2 e2 H2).
    apply (wg_inj _ _ _ Hwf d' v1 e1 v2 e2); [exists b|exists b|congruence]; split_and!; done || lia.
Qed.

(** Few enough references that a 16-bit count cannot overflow. *)
Definition few_refs (G : ghost) : Prop :=
  forall f, g_ext G f + Z.of_nat (size (g_dirs G)) + 1 < 2 ^ 16.

Lemma vm_incref_wp lo hi G free d v e (Q : unit -> mstate -> Prop) s :
  vm_inv lo hi G free s -> few_refs G -> user_pte G d v e -> Z.testbit e 1 = false ->
  (forall s', vm_inv lo hi (add_ext (pframe e) 1 G) free s' -> same_cpu s s' -> mem s' = mem s -> Q tt s') ->
  wp (incref (pframe e * 4096)) Q s.
Proof.
  intros Hi Hfew Hu Hb HQ. pose proof (vi_wf _ _ _ _ _ Hi) as Hwf.
  destruct (vm_user_frame _ _ _ _ _ d v e Hi Hu) as [Hfr _].
  pose proof (user_cnt _ _ _ Hwf _ _ _ Hu) as Hc. pose proof (user_cnt_bound _ _ _ _ _ _ _ _ Hi Hu) as Hc2.
  pose proof (Hfew (pframe e)). eapply incref_wp; [apply (vi_kmem _ _ _ _ _ Hi)|done|done|lia|].
  intros s' Hsc Hm Hk. apply HQ; [|done|done]. split.
  - eapply kmem_inv_ext; [|exact Hk]. intros g. rewrite cnt_add_ext. unfold upd. case_decide; subst; lia.
  - intros d' b Hd'. rewrite Hm. by apply (vi_rep _ _ _ _ _ Hi).
  - apply wf_add_ext; [done| |done|by eapply user_not_table|].
    + pose proof (wg_ext _ _ _ Hwf (pframe e)). lia.
    + intros d' v' e' Hu' Ef Hb'. exfalso. pose proof (wg_write _ _ _ Hwf _ _ _ Hu' Hb') as H1.
      destruct Hu as (b & Hd & Hv & Hur), Hu' as (b' & Hd' & Hv' & Hur'). rewrite Ef in H1.
      destruct (decide (d = d')) as [<-|Hne].
      * assert (v' = v) as -> by (eapply (wg_inj _ _ _ Hwf d); [exists b'|exists b|]; done).
        congruence.
      * pose proof (cnt_ge_dir2 G (pframe e) d b d' b' Hd Hd' Hne).
        pose proof (as_cnt_pte (pframe e) d b v e Hv ltac:(lia) eq_refl).
        pose proof (as_cnt_pte (pframe e) d' b' v' e' Hv' ltac:(lia) Ef).
        pose proof (wg_ext _ _ _ Hwf (pframe e)). cnt_nonneg. lia.
Qed.

(** ** Making the parent's entry read-only *)

Lemma store_flags_wp lo hi G free d a v p e e' (Q : unit -> mstate -> Prop) s :
  vm_inv lo hi G free s -> g_dirs G !! d = Some a -> 0 <= v < UPAGES ->
  as_pt a !! (v / 1024) = Some p -> as_pte a !! v = Some e ->
  valid_pte (Some e') -> pframe e' = pframe e -> Z.testbit e' 1 = false ->
  (forall s', vm_inv lo hi (set_dir d (put_pte v (Some e') a) G) free s' -> same_cpu s s' ->
     data_same G s s' -> Q tt s') ->
  wp (store (kva p + 4 * (v mod 1024)) e') Q s.
Proof.
  intros Hi Hd Hv Hp He Hval Ef Hb HQ. pose proof (vi_wf _ _ _ _ _ Hi) as Hwf.
  eapply (vm_store_pte_wp lo hi G free d a v p e e' (g_ext G)); try done; [apply (wg_ext _ _ _ Hwf)| | |].
  - intros f. change (MkG _ (g_ext G)) with (set_dir d (put_pte v (Some e') a) G).
    rewrite (cnt_swap G d a v e) by (done || lia). rewrite Ef. lia.
  - congruence.
  - intros v' e0 Hne Hu0. rewrite Ef. intros E0. apply Hne.
    eapply (wg_inj _ _ _ Hwf); [exact Hu0|exists a; done|done].
Qed.

Lemma put_put_pte v x y a : put_pte v x (put_pte v y a) = put_pte v x a.
Proof.
  unfold put_pte. cbn. f_equal. apply map_eq. intros u.
  destruct (decide (u = v)) as [->|]; [by rewrite !lookup_partial_alter_eq|].
  by rewrite !lookup_partial_alter_ne.
Qed.

Lemma share_pte_wp lo hi G free d a v p e (Q : unit -> mstate -> Prop) s :
  vm_inv lo hi G free s -> g_dirs G !! d = Some a -> 0 <= v < UPAGES ->
  as_pt a !! (v / 1024) = Some p -> as_pte a !! v = Some e ->
  (forall s', vm_inv lo hi (set_dir d (put_pte v (Some (share e)) a) G) free s' -> same_cpu s s' ->
     data_same G s s' -> Q tt s') ->
  wp (let pte := kva p + 4 * (v mod 1024) in
      when (has e PTE_W) (
        store pte (Z.land e (Z.lnot PTE_W)) ;;;
        let* e := load pte in
        store pte (Z.lor e PTE_COW))) Q s.
Proof.
  intros Hi Hd Hv Hp He HQ. pose proof (vi_rep _ _ _ _ _ Hi d a Hd) as Hrep.
  destruct (dr_ent _ _ _ Hrep _ _ He) as [Her Hbit]. destruct (entry_split e ltac:(lia)) as [Ee Hfl].
  assert (user_pte G d v e) as Hue by (exists a; done).
  destruct (vm_user_frame _ _ _ _ _ d v e Hi Hue) as [_ Hff].
  assert (is_table G p) as Htp by (right; eauto).
  pose proof (vm_table_frame _ _ _ _ _ p Hi Htp) as Hpf. cbv zeta.
  change (has e PTE_W) with (has e (2 ^ 1)). rewrite has_bit by lia.
  destruct (Z.testbit e 1) eqn:E1; cbn [when].
  2:{ apply wp_ret, HQ; [|done|done]. unfold share. rewrite E1.
      assert (put_pte v (Some e) a = a) as ->.
      { unfold put_pte. destruct a as [t m]. cbn in *. f_equal. apply map_eq. intros u.
        destruct (decide (u = v)) as [->|]; [by rewrite lookup_partial_alter_eq|by rewrite lookup_partial_alter_ne]. }
      eapply vm_inv_ext; [by apply set_dir_same|done|done]. }
  set (e0 := Z.land e (Z.lnot PTE_W)).
  assert (e0 = pframe e * 4096 + Z.land (PTE_FLAGS e) (Z.lnot PTE_W)) as E0
    by (unfold e0; rewrite Ee at 1; by apply land_entry).
  pose proof (land_mask_range (PTE_FLAGS e) (Z.lnot PTE_W) Hfl) as Hfl0.
  assert (pframe e0 = pframe e) as Ef0 by (rewrite E0; by apply pframe_entry).
  assert (valid_pte (Some e0)) as Hv0.
  { change NFRAMES with 57344 in *. split; [lia|]. unfold e0. by rewrite Z.land_spec, Hbit. }
  assert (Z.testbit e0 1 = false) as Hb0 by (unfold e0; rewrite Z.land_spec; apply andb_false_r).
  apply wp_bind. eapply (store_flags_wp lo hi G free d a v p e e0); try done.
  intros s1 Hi1 Hsc1 Hds1. set (a1 := put_pte v (Some e0) a) in *.
  assert (as_pt a1 !! (v / 1024) = Some p) as Hp1 by done.
  assert (as_pte a1 !! v = Some e0) as He1 by apply lookup_partial_alter_eq.
  pose proof (lookup_set_dir G d a1) as Hd1.
  unfold UPAGES in Hv. destruct (split_vpn v ltac:(lia)) as (_ & Esplit & Hmod & _).
  apply wp_bind, load_word; [done..|].
  rewrite (dr_pte _ _ _ (vi_rep _ _ _ _ _ Hi1 d a1 Hd1) _ _ _ Hp1 Hmod), <- Esplit, He1.
  cbn [default from_option id].
  assert (Z.lor e0 PTE_COW = share e) as -> by (unfold share; by rewrite E1).
  eapply (store_flags_wp lo hi _ free d a1 v p e0); [exact Hi1|done|done|done|done| | | |].
  - by apply share_valid; [split|lia].
  - rewrite share_frame by lia. congruence.
  - apply share_readonly. lia.
  - intros s2 Hi2 Hsc2 Hds2. unfold a1 in Hi2. rewrite set_set_dir, put_put_pte in Hi2.
    apply HQ; [done|by trans s1|]. intros g Hg. rewrite Hds2; [by apply Hds1|].
    by rewrite (is_table_set_dir G d a).
Qed.

(** ** One page *)

(** The user entries of the child [b] share the frames of the parent's. *)
Definition frames_of (a b : aspace) : Prop :=
  forall v e', as_pte b !! v = Some e' -> v < UPAGES ->
    exists e, as_pte a !! v = Some e /\ pframe e = pframe e'.

(** The parent [d] with entries [a] and the child [c] with entries [b]. *)
Definition pair (d c : Z) (a b : aspace) (G : ghost) : ghost := set_dir c b (set_dir d a G).

Lemma pair_parent d c a b G : d <> c -> g_dirs (pair d c a b G) !! d = Some a.
Proof. intros Hne. cbn. rewrite lookup_insert_ne by done. apply lookup_insert_eq. Qed.

Lemma set_parent d c a a' b G : d <> c -> set_dir d a' (pair d c a b G) = pair d c a' b G.
Proof.
  intros Hne. unfold pair, set_dir. cbn. f_equal.
  rewrite insert_insert_ne by done. by rewrite insert_insert_eq.
Qed.

Lemma set_child d c a b b' G : set_dir c b' (pair d c a b G) = pair d c a b' G.
Proof. apply set_set_dir. Qed.

Lemma few_refs_set_dir G d a a' : g_dirs G !! d = Some a -> few_refs G -> few_refs (set_dir d a' G).
Proof.
  intros Hd Hf f. cbn. rewrite map_size_insert_Some; [apply Hf|]. eauto.
Qed.

Lemma few_refs_pair d c a b a' b' G :
  d <> c -> few_refs (pair d c a b G) -> few_refs (pair d c a' b' G).
Proof.
  intros Hne Hf. rewrite <- (set_child d c a' b), <- (set_parent d c a a') by done.
  eapply few_refs_set_dir; [rewrite set_parent by done; apply lookup_insert_eq|].
  eapply few_refs_set_dir; [by apply pair_parent|done].
Qed.

(** Sharing an entry of the parent changes neither the counts nor the tables. *)
Lemma share_pair d c a b v e G :
  d <> c -> v < UPAGES -> as_pte a !! v = Some e -> 0 <= e ->
  let G1 := pair d c (put_pte v (Some (share e)) a) b G in
  (forall g, cnt G1 g = cnt (pair d c a b G) g) /\ (forall g, is_table G1 g <-> is_table (pair d c a b G) g).
Proof.
  intros Hne Hv He H0 G1. pose proof (pair_parent d c a b G Hne) as Hd. unfold G1. rewrite <- (set_parent d c a) by done. split; intros g.
  - rewrite (cnt_swap _ d a v e) by done. rewrite share_frame by lia. lia.
  - by eapply is_table_set_dir.
Qed.

(** The child's entry for the shared frame adds tables only where there was nothing. *)
Lemma cow_grows d c a b b' v e f G :
  let G0 := pair d c a b G in
  let G1 := pair d c (put_pte v (Some (share e)) a) b G in
  (forall g, cnt G1 g = cnt G0 g) -> (forall g, is_table G1 g <-> is_table G0 g) -> 1 <= cnt G1 f -> 0 <= g_ext G f ->
  grows (add_ext f 1 G1) (add_ext f (-1) (set_dir c (put_pte v (Some (share e)) b') (add_ext f 1 G1))) ->
  grows G0 (pair d c (put_pte v (Some (share e)) a) (put_pte v (Some (share e)) b') G).
Proof.
  intros G0 G1 Hc Htab Hcf Hef Hnew. split; intros g Hg.
  - rewrite <- Htab, <- Hc. destruct (gr_table _ _ Hnew g) as [Ht|Ht]; [|by left|right].
    + unfold is_table in *. cbn in *. by rewrite insert_insert_eq.
    + rewrite cnt_add_ext in Ht. case_decide; [subst g|]; lia.
  - assert (0 < cnt (add_ext f 1 G1) g) as Hg1 by (rewrite cnt_add_ext, Hc; case_decide; lia).
    apply (gr_live _ _ Hnew) in Hg1. unfold G1, cnt, add_ext, upd in *; cbn in *. rewrite insert_insert_eq in Hg1.
    by repeat case_decide; subst; lia.
Qed.

Lemma cow_step_wp lo hi G free d c a b v p e (k : M mstate bool) (Q : bool -> mstate -> Prop) s :
  vm_inv lo hi (pair d c a b G) free s -> d <> c -> few_refs (pair d c a b G) ->
  0 <= v < UPAGES -> as_pt a !! (v / 1024) = Some p -> as_pte a !! v = Some e ->
  as_pte b !! v = None -> frames_of a b ->
  let a' := put_pte v (Some (share e)) a in
  (forall free' s', vm_inv lo hi (pair d c a' b G) free' s' -> same_cpu s s' ->
     data_kept (pair d c a b G) s s' -> Q false s') ->
  (forall b' free' s', pt_grow b b' ->
     let G' := pair d c a' (put_pte v (Some (share e)) b') G in
     vm_inv lo hi G' free' s' -> same_cpu s s' -> data_kept (pair d c a b G) s s' ->
     grows (pair d c a b G) G' -> wp k Q s') ->
  wp (let pte := kva p + 4 * (v mod 1024) in
      when (has e PTE_W) (
        store pte (Z.land e (Z.lnot PTE_W)) ;;;
        let* e := load pte in
        store pte (Z.lor e PTE_COW)) ;;;
      let* e := load pte in
      let pa := PTE_ADDR e in
      let flags := PTE_FLAGS e in
      incref pa ;;;
      let* r := mappages (kva c) (v * 4096) PGSIZE pa flags in
      if r <? 0 then kfree (P2V pa) ;;; ret false else k) Q s.
Proof.
  intros Hi Hne Hfew Hv Hp He Hb Hfr a' H0 H1. cbv zeta. set (G0 := pair d c a b G) in *.
  pose proof (pair_parent d c a b G Hne) as Hd. fold G0 in Hd.
  destruct (dr_ent _ _ _ (vi_rep _ _ _ _ _ Hi d a Hd) _ _ He) as [Her Hbit].
  assert (user_pte G0 d v e) as Hue by (exists a; done).
  destruct (vm_user_frame _ _ _ _ _ d v e Hi Hue) as [_ Hff].
  destruct (share_spec e ltac:(lia)) as (fl & Es & Hfl & Hs0 & Hs1 & _).
  apply wp_bind. eapply (share_pte_wp lo hi G0); [exact Hi|done..|].
  intros s1 Hi1 Hsc1 Hds1. fold a' in Hi1. unfold G0 in Hi1. rewrite set_parent in Hi1 by done.
  set (G1 := pair d c a' b G) in *.
  assert (g_dirs G1 !! d = Some a') as Hd1 by (by apply pair_parent).
  assert (as_pte a' !! v = Some (share e)) as He1 by apply lookup_partial_alter_eq.
  assert (is_table G0 p) as Htp by (right; eauto).
  pose proof (vm_table_frame _ _ _ _ _ p Hi Htp) as Hpf.
  unfold UPAGES in Hv. destruct (split_vpn v ltac:(lia)) as (_ & Esplit & Hmod & _).
  apply wp_bind, load_word; [done..|].
  rewrite (dr_pte _ _ _ (vi_rep _ _ _ _ _ Hi1 d a' Hd1) _ _ _ (Hp : as_pt a' !! _ = Some p) Hmod),
    <- Esplit, He1. cbn [default from_option id].
  rewrite PTE_ADDR_frame, share_frame by lia. set (f := pframe e) in *.
  assert (PTE_FLAGS (share e) = fl) as Efl by (rewrite Es; by apply entry_bits). rewrite Efl.
  assert (user_pte G1 d v (share e)) as Hus by (exists a'; done).
  assert (few_refs G1) as Hfew1.
  { unfold G1. rewrite <- (set_parent d c a) by done. eapply few_refs_set_dir; [exact Hd|done]. }
  assert (data_kept G0 s s1) as Hdk1 by (intros g _ Hg; by apply Hds1).
  destruct (share_pair d c a b v e G Hne) as [Hc01 Htab]; [unfold UPAGES; lia|done|lia|]. fold a' G1 G0 in Hc01, Htab.
  apply wp_bind. replace f with (pframe (share e)) by (apply share_frame; lia).
  eapply (vm_incref_wp lo hi G1); [exact Hi1|done|done|by apply share_readonly; lia|].
  rewrite share_frame by lia. fold f. intros s2 Hi2 Hsc2 Hm2.
  pose proof (wg_ext _ _ _ (vi_wf _ _ _ _ _ Hi1) f) as Hef.
  assert (data_kept G0 s s2) as Hdk2 by (intros g Hg Hng; rewrite Hm2; by apply Hdk1).
  apply wp_bind. eapply (mappages_user_wp lo hi _ free c b v f fl); [exact Hi2|..].
  - cbn. apply lookup_insert_eq.
  - unfold UPAGES. lia.
  - done.
  - cbn. rewrite upd_eq. cbn in Hef. lia.
  - done.
  - congruence.
  - intros v' e' (b0 & Hb0 & Hv' & Hr') Ef. cbn in Hb0. rewrite lookup_insert_eq in Hb0.
    injection Hb0 as <-. destruct (Hfr v' e' Hv' ltac:(lia)) as (e0 & Ha0 & E0).
    assert (v' = v) as ->; [|congruence].
    eapply (wg_inj _ _ _ (vi_wf _ _ _ _ _ Hi) d v' e0 v e); [exists a; done|done|by rewrite E0].
  - intros ->. cbn [Z.ltb Z.compare]. rewrite P2V_frame by lia. apply wp_bind.
    eapply vm_kfree_wp; [exact Hi2|cbn; rewrite upd_eq; cbn in Hef; lia|].
    intros free3 s3 Hsc3 Hi3 Hpg3 _. apply wp_ret, (H0 free3).
    + eapply vm_inv_ext; [| |exact Hi3]; [done|]. intros g. cbn. unfold upd. repeat case_decide; subst; lia.
    + trans s1; [done|]. by trans s2.
    + intros g Hg Hng. rewrite Hpg3; [by apply Hdk2|].
      destruct (decide (g = f)) as [->|]; [right|by left].
      rewrite cnt_add_ext, decide_True, Hc01 by done. lia.
  - intros b' free3 s3 Hpg G' Hi3 Hsc3 Hds3 _ Hnew. cbn [Z.ltb Z.compare].
    assert (f * 4096 + Z.lor fl 1 = share e) as Ese
      by (rewrite Es, lor_1_present; congruence).
    assert (grows G0 (pair d c a' (put_pte v (Some (share e)) b') G)) as Hnt.
    { pose proof (user_cnt _ _ _ (vi_wf _ _ _ _ _ Hi1) d v (share e) Hus) as Hcu. rewrite share_frame in Hcu by lia. fold f in Hcu.
      apply (cow_grows d c a b b' v e f G); [done|done|fold a' G1; lia|done|]. unfold G' in Hnew. by rewrite Ese in Hnew. }
    eapply (H1 b' free3); [done| | | |done].
    + unfold G' in Hi3. rewrite Ese in Hi3. eapply vm_inv_ext; [| |exact Hi3]; cbn.
      * by rewrite insert_insert_eq.
      * intros g. unfold upd. repeat case_decide; subst; lia.
    + trans s1; [done|]. by trans s2.
    + intros g Hg Hng. rewrite Hds3; [by apply Hdk2|]. intros Ht.
      destruct (gr_table _ _ Hnt g) as [|]; [|done|lia].
      unfold G' in Ht. rewrite Ese in Ht. unfold is_table in *. cbn in *. by rewrite insert_insert_eq in Ht.
Qed.

(** ** The loop *)

Definition in_range (v w u : Z) : bool := (v <=? u) && (u <? w).

Lemma in_range_spec v w u : in_range v w u = true <-> v <= u < w.
Proof. unfold in_range. rewrite andb_true_iff, Z.leb_le, Z.ltb_lt. done. Qed.

(** [a1] is [a] with the entries of pages [v..w) shared; [b1] is [b] with them
    added. *)
Record shared_range (a b a1 b1 : aspace) (v w : Z) : Prop := {
  sr_pt : as_pt a1 = as_pt a;
  sr_parent : forall u, as_pte a1 !! u = if in_range v w u then share <$> as_pte a !! u else as_pte a !! u;
  sr_child : forall u, as_pte b1 !! u = if in_range v w u then share <$> as_pte a !! u else as_pte b !! u
}.

(** What is left of the parent when the copy fails half-way. *)
Record shared_some (a a1 : aspace) : Prop := {
  ss_pt : as_pt a1 = as_pt a;
  ss_pte : forall u, as_pte a1 !! u = as_pte a !! u \/ u < UPAGES /\ as_pte a1 !! u = share <$> as_pte a !! u
}.

Lemma shared_some_cnt lo hi G free s d a a1 f :
  vm_inv lo hi G free s -> g_dirs G !! d = Some a -> shared_some a a1 ->
  cnt (set_dir d a1 G) f = cnt G f.
Proof.
  intros Hi Hd [Et Ep]. rewrite (cnt_set_dir d a) by done. unfold as_cnt. rewrite Et.
  enough (msum (pte_ref f) (as_pte a1) = msum (pte_ref f) (as_pte a)) by lia.
  apply msum_same; intros u; destruct (Ep u) as [->|[_ ->]]; try done.
  - destruct (as_pte a !! u) as [e|] eqn:E; cbn; [|done]. unfold pte_ref.
    destruct (dr_ent _ _ _ (vi_rep _ _ _ _ _ Hi d a Hd) _ _ E). by rewrite share_frame by lia.
  - apply fmap_is_Some.
Qed.

Lemma shared_range_step a b a' b' a1 b1 v w e :
  as_pte a !! v = e -> as_pt a' = as_pt a ->
  (forall u, as_pte a' !! u = if decide (u = v) then share <$> e else as_pte a !! u) ->
  (forall u, as_pte b' !! u = if decide (u = v) then share <$> e else as_pte b !! u) ->
  v < w -> shared_range a' b' a1 b1 (v + 1) w -> shared_range a b a1 b1 v w.
Proof.
  intros He Ht Ha Hb Hw [Et Ep Ec].
  assert (forall u, in_range (v + 1) w u = if decide (u = v) then false else in_range v w u) as Hr.
  { intros u. case_decide as E; apply eq_true_iff_eq; rewrite ?in_range_spec; [subst; split; [lia|done]|lia]. }
  assert (in_range v w v = true) as Hv by (apply in_range_spec; lia).
  split; [congruence| |]; intros u; [rewrite Ep|rewrite Ec]; rewrite Hr, ?Ha, ?Hb;
    case_decide; subst; rewrite ?Hv; done.
Qed.

Lemma shared_some_trans a a' a1 v :
  as_pt a' = as_pt a -> (forall e, as_pte a !! v = Some e -> 0 <= e) -> v < UPAGES ->
  (forall u, as_pte a' !! u = if decide (u = v) then share <$> as_pte a !! v else as_pte a !! u) ->
  shared_some a' a1 -> shared_some a a1.
Proof.
  intros Ht He Hv Ha [Et Ep]. split; [congruence|]. intros u. specialize (Ha u).
  destruct (Ep u) as [->|[Hu ->]]; rewrite Ha; case_decide; subst; auto.
  right. split; [done|]. destruct (as_pte a !! v) as [e|] eqn:E; cbn; [|done].
  by rewrite share_idem by by apply He.
Qed.

Lemma cowuvm_loop_wp d c lo hi G sz fuel free a b v (Q : bool -> mstate -> Prop) s :
  vm_inv lo hi (pair d c a b G) free s -> d <> c -> few_refs (pair d c a b G) ->
  0 <= v <= UPAGES -> 0 <= sz <= KERNBASE -> (Z.to_nat (pages sz - v) < fuel)%nat ->
  frames_of a b -> (forall u, v <= u < UPAGES -> as_pte b !! u = None) ->
  (forall a1 b1 free' s', shared_some a a1 -> vm_inv lo hi (pair d c a1 b1 G) free' s' ->
     same_cpu s s' -> data_kept (pair d c a b G) s s' -> Q false s') ->
  (forall a1 b1 free' s', shared_range a b a1 b1 v (Z.max v (pages sz)) ->
     vm_inv lo hi (pair d c a1 b1 G) free' s' ->
     same_cpu s s' -> data_kept (pair d c a b G) s s' -> Q true s') ->
  wp (cowuvm_loop fuel (kva d) (kva c) (v * 4096) sz) Q s.
Proof.
  intros Hi Hne. revert free a b v s Hi. induction fuel as [|fuel IH];
    intros free a b v s Hi Hfew Hv Hsz Hfuel Hfr Hnone H0 H1; [lia|]. cbn [cowuvm_loop].
  pose proof (pair_parent d c a b G Hne) as Hd.
  destruct (v * 4096 <? sz) eqn:Elt; cbn [negb]; zbool.
  2:{ apply wp_ret, (H1 a b free); try done.
      assert (forall u, in_range v (Z.max v (pages sz)) u = false) as Hr.
      { intros u. apply not_true_iff_false. rewrite in_range_spec. pose proof (pages_lt v sz). lia. }
      split; [done|intros u; by rewrite Hr..]. }
  pose proof (proj1 (pages_lt v sz) Elt) as Hlt. pose proof (pages_upages sz Hsz) as Hpu.
  rewrite (Z.max_r v (pages sz)) in H1 by lia.
  assert (0 <= v < 2 ^ 20) as Hv20 by (unfold UPAGES in *; lia).
  destruct (split_vpn v Hv20) as (Evpn & Esplit & Hmod & Hva). unfold PGSIZE at 1 2 4.
  rewrite u32_small by (unfold UPAGES in *; lia). replace (v * 4096 + 4096) with ((v + 1) * 4096) by lia.
  pose proof (vi_rep _ _ _ _ _ Hi d a Hd) as Hrep.
  assert (as_pte a !! v = None -> wp (cowuvm_loop fuel (kva d) (kva c) ((v + 1) * 4096) sz) Q s) as Hskip.
  { intros Hn. eapply (IH free a b); try done; [lia|lia|intros u Hu; apply Hnone; lia|].
    intros a1 b1 free' s' Hsr. rewrite Z.max_r in Hsr by lia. eapply H1.
    apply (shared_range_step a b a b _ _ v _ None); try done; intros u; case_decide; subst; try done.
    apply Hnone; lia. }
  apply wp_bind. eapply walkpgdir_find_wp; [exact Hi|exact Hd|done|]. rewrite Evpn.
  destruct (as_pt a !! (v / 1024)) as [p|] eqn:Ep.
  2:{ rewrite Z.eqb_refl. apply Hskip. destruct (as_pte a !! v) as [e|] eqn:E; [|done].
      destruct (dr_dom _ _ _ Hrep v e E) as [_ [q Hq]]. congruence. }
  assert (is_table (pair d c a b G) p) as Htp by (right; eauto).
  pose proof (vm_table_frame _ _ _ _ _ p Hi Htp) as Hpf.
  rewrite (proj2 (Z.eqb_neq _ 0)) by (unfold kva, KERNBASE; lia).
  apply wp_bind, load_word; [done..|]. rewrite (dr_pte _ _ _ Hrep _ _ _ Ep Hmod), <- Esplit.
  destruct (as_pte a !! v) as [e|] eqn:Ee; cbn [default from_option id];
    [|change (has 0 PTE_P) with false; by apply Hskip].
  destruct (dr_ent _ _ _ Hrep _ _ Ee) as [Her Hbit].
  assert (has e PTE_P = true) as -> by (change PTE_P with (2 ^ 0); by rewrite has_bit). cbn [negb].
  set (a' := put_pte v (Some (share e)) a).
  assert (forall u, as_pte a' !! u = if decide (u = v) then share <$> Some e else as_pte a !! u) as Ha'.
  { intros u. subst a'. cbn. case_decide; subst; [by rewrite lookup_partial_alter_eq|by rewrite lookup_partial_alter_ne]. }
  assert (forall a1, shared_some a' a1 -> shared_some a a1) as Hss.
  { intros a1. apply (shared_some_trans a a' a1 v); [done| |lia|by rewrite Ee].
    intros e0. rewrite Ee. intros [= <-]. lia. }
  eapply (cow_step_wp lo hi G free d c a b v p e);
    [exact Hi|done|done|lia|done|done|apply Hnone; lia|done| |].
  - intros free' s' Hi' Hsc Hdk. eapply (H0 a' b); try done. apply Hss. split; [done|]. by left.
  - intros b' free' s1 [Hgp Hgt] G' Hi1 Hsc1 Hdk1 Hgr. subst G'. fold a' in Hi1, Hgr.
    set (b2 := put_pte v (Some (share e)) b') in *.
    assert (forall u, as_pte b2 !! u = if decide (u = v) then share <$> Some e else as_pte b !! u) as Hb2.
    { intros u. subst b2. cbn. rewrite Hgp.
      case_decide; subst; [by rewrite lookup_partial_alter_eq|by rewrite lookup_partial_alter_ne]. }
    eapply (IH free' a' b2); [exact Hi1| |lia|done|lia| | | |].
    + by apply (few_refs_pair d c a b).
    + intros u e' Hu Hup. rewrite Hb2 in Hu. rewrite Ha'. case_decide; subst.
      * exists (share e). by injection Hu as <-.
      * by apply Hfr.
    + intros u Hu. rewrite Hb2. rewrite decide_False by lia. apply Hnone. lia.
    + intros a1 b1 free2 s2 Hss2 Hi2 Hsc2 Hdk2. eapply (H0 a1 b1); [by apply Hss|done|by trans s1|].
      by eapply data_kept_grows.
    + intros a1 b1 free2 s2 Hsr Hi2 Hsc2 Hdk2. rewrite Z.max_r in Hsr by lia.
      eapply (H1 a1 b1); [|done|by trans s1|by eapply data_kept_grows].
      by eapply (shared_range_step a b a' b2).
Qed.

(** ** [cowuvm] *)

Lemma pair_new G d c a b : g_dirs G !! d = Some a -> g_dirs (pair d c a b G) = g_dirs (set_dir c b G).
Proof. intros Hd. cbn. by rewrite (insert_id (g_dirs G) d a). Qed.

(** The flush at the end reloads the parent's page directory. *)
Definition flushed (d : Z) (s s' : mstate) : Prop :=
  held s' = held s /\ cr3 s' = d * 4096 /\ tlb s' = ∅ /\ kpgdir s' = kpgdir s /\
  use_lock (kmem s') = use_lock (kmem s).

Lemma same_cpu_flush d s s' : same_cpu s s' -> flushed d s (set_paging (d * 4096) ∅ s').
Proof. intros (?&?&?&?&?). done. Qed.

Lemma kmap_frames a b : (forall u, as_pte b !! u = kmap_pte kmap u) -> frames_of a b.
Proof. intros Hb v e' He Hv. rewrite Hb in He. apply kmap_pte_kernel in He; [lia|apply kmap_wf]. Qed.

Lemma kmap_user b u : (forall u, as_pte b !! u = kmap_pte kmap u) -> u < UPAGES -> as_pte b !! u = None.
Proof.
  intros Hb Hu. rewrite Hb. destruct (kmap_pte kmap u) eqn:E; [|done].
  apply kmap_pte_kernel in E; [lia|apply kmap_wf].
Qed.

Lemma cowuvm_wp lo hi G free d a sz (Q : Z -> mstate -> Prop) s :
  vm_inv lo hi G free s -> g_dirs G !! d = Some a -> 0 <= sz <= KERNBASE ->
  (forall f, g_ext G f + Z.of_nat (size (g_dirs G)) + 2 < 2 ^ 16) ->
  (forall a1 free' s', shared_some a a1 -> vm_inv lo hi (set_dir d a1 G) free' s' ->
     same_cpu s s' /\ a1 = a \/ flushed d s s' -> data_kept G s s' -> Q 0 s') ->
  (forall c a1 b1 free' s', g_dirs G !! c = None -> 0 < c < NFRAMES -> as_pt a1 = as_pt a ->
     (forall u, as_pte a1 !! u = if in_range 0 (pages sz) u then share <$> as_pte a !! u else as_pte a !! u) ->
     (forall u, as_pte b1 !! u = if in_range 0 (pages sz) u then share <$> as_pte a !! u else kmap_pte kmap u) ->
     vm_inv lo hi (pair d c a1 b1 G) free' s' -> flushed d s s' -> data_kept G s s' -> Q (kva c) s') ->
  wp (cowuvm (kva d) sz) Q s.
Proof.
  intros Hi Hd Hsz Hfew H0 H1. unfold cowuvm. apply wp_bind.
  assert (is_table G d) as Htd by (left; eauto).
  pose proof (vm_table_frame _ _ _ _ _ d Hi Htd) as Hdf. pose proof (pages_upages sz Hsz) as Hps.
  eapply setupkvm_wp; [exact Hi| |].
  { intros free' s' Hi' Hsc Hdk. apply wp_ret, (H0 a free'); [split; [done|by left]| |by left|done].
    eapply vm_inv_ext; [by apply set_dir_same|done|done]. }
  intros c b free1 s1 Hnc Hc Hb Hi1 Hsc1 Hdk1.
  rewrite (proj2 (Z.eqb_neq _ _)) by (apply kva_nonzero; lia).
  assert (d <> c) as Hne by congruence.
  assert (vm_inv lo hi (pair d c a b G) free1 s1) as Hi2
    by (eapply vm_inv_ext; [by apply pair_new|done|done]).
  assert (grows G (set_dir c b G)) as Hgr0
    by (eapply new_dir_grows; [apply (vi_wf _ _ _ _ _ Hi1)|done|intros; by eapply cnt_nonneg_inv]).
  assert (grows G (pair d c a b G)) as Hgr.
  { destruct Hgr0 as [Ht Hl]. pose proof (pair_new G d c a b Hd) as E.
    split; intros g; [specialize (Ht g); unfold is_table in *|specialize (Hl g); unfold cnt in *]; by rewrite E. }
  assert (data_kept G s s1) as Hdk1'
    by (intros g Hg Hng; destruct (grows_kept _ _ g Hgr0 Hg Hng); by apply Hdk1).
  apply wp_bind. change 0 with (0 * 4096) at 1.
  eapply (cowuvm_loop_wp d c lo hi G sz); [exact Hi2|done| |unfold UPAGES; lia|done| |by apply kmap_frames| | |].
  - intros f. rewrite (pair_new G d c a b Hd). cbn. rewrite map_size_insert_None by done. specialize (Hfew f). lia.
  - unfold PGSIZE. replace ((sz + 4096 - 1) / 4096) with (pages sz) by (unfold pages; f_equal; lia). lia.
  - intros u Hu. apply kmap_user; [done|lia].
  - intros a1 b1 free2 s2 Hss Hi3 Hsc2 Hdk2. apply wp_bind.
    eapply freevm_wp; [exact Hi3|apply lookup_set_dir|]. unfold pair. rewrite del_set_dir by (cbn; by rewrite lookup_insert_ne).
    intros free3 s3 Hi4 Hsc3 Hdk3. apply wp_bind, wp_modify, wp_ret. rewrite V2P_kva0 by done.
    eapply (H0 a1 free3); [done|by apply vm_inv_paging|right|].
    + apply same_cpu_flush. trans s1; [done|]. by trans s2.
    + eapply (data_kept_grows _ (set_dir d a1 G)); [|by eapply (data_kept_grows G)|done].
      assert (forall g, cnt (set_dir d a1 G) g = cnt G g) as Hcs.
      { intros g. eapply shared_some_cnt; [exact Hi|done|done]. }
      split; intros g; [|by rewrite Hcs]. destruct Hss as [Et _]. rewrite (is_table_set_dir G d a) by done. auto.
  - intros a1 b1 free2 s2 [Et Ea Eb] Hi3 Hsc2 Hdk2. rewrite Z.max_r in Ea, Eb by lia.
    apply wp_bind, wp_modify, wp_ret. rewrite V2P_kva0 by done.
    eapply (H1 c a1 b1 free2); try done.
    + intros u. rewrite Eb. by rewrite Hb.
    + by apply vm_inv_paging.
    + apply same_cpu_flush. by trans s1.
    + by eapply data_kept_grows.
Qed.

End ops.
