(* ===== verification/Demo.v ===== *)
(** * A small concrete machine

    One address space with one page, and three free frames; it shows that the
    invariants hold of an actual state, and theorems are instantiated on it. *)

From S2P Require Import Prelude Monad Machine Kalloc Vm VmInv VmOps VmFree VmKern.

Lemma demo_layout : 0x80108000 mod PGSIZE = 0 /\ KERNLINK < 0x80108000 /\ 0x80108000 <= 0x80200000 /\
  0x80200000 < KERNBASE + 4 * 1024 * 1024.
Proof. done. Qed.

Definition demo_image : KernelImage :=
  {| kernel_data := 0x80108000; kernel_end := 0x80200000; kernel_forkret := 0x80103000;
     kernel_data_aligned := proj1 demo_layout; kernel_layout := proj2 demo_layout |}.

#[local] Existing Instance demo_image.

(** Frames 1024, 1025 and 1026 are the directory, its page table and a page of
    the process; 1027 to 1029 are free. *)
Definition demo_free : list Z := [1027; 1028; 1029].
Definition demo_mem : gmap Z page :=
  <[1027 := <[0%nat := kva 1028]> (fill_page 0)]> (<[1028 := <[0%nat := kva 1029]> (fill_page 0)]> ∅).
Definition demo_s0 : mstate :=
  MkM [] (1024 * 4096) ∅ demo_mem
      (MkKmem true (kva 1027) (<[1024 := 1]> (<[1025 := 1]> (<[1026 := 1]> ∅)))) (kva 1024).

Definition demo_ext (lo : Z) (f : Z) : Z := if (lo <=? f) && (f <? 1027) then 1 else 0.

Lemma demo_kmem : kmem_inv 1024 1030 (demo_ext 1024) demo_free demo_s0.
Proof.
  assert (forall f, 1024 <= f < 1030 ->
    f = 1024 \/ f = 1025 \/ f = 1026 \/ f = 1027 \/ f = 1028 \/ f = 1029) as Hf by lia.
  split.
  - done.
  - assert (word demo_mem 1027 0 = kva 1028) as E1 by (unfold word, demo_mem; by rewrite page_of_insert_eq).
    assert (word demo_mem 1028 0 = kva 1029) as E2
      by (unfold word, demo_mem; by rewrite page_of_insert_ne, page_of_insert_eq).
    assert (word demo_mem 1029 0 = 0) as E3 by (unfold word, demo_mem; by rewrite !page_of_insert_ne).
    cbn [demo_free free_chain demo_s0 mem kmem freelist]. by rewrite E1, E2, E3.
  - unfold demo_free. rewrite !NoDup_cons. split_and!; [set_solver by lia..|by apply NoDup_nil].
  - intros f. unfold demo_free. rewrite !elem_of_cons, elem_of_nil. unfold demo_ext.
    split; [intros [->|[->|[->|[]]]]; done|].
    intros [Hr H0]. destruct (Hf f Hr) as [->|[->|[->|[->|[->| ->]]]]]; try done; auto.
  - intros f Hr. destruct (Hf f Hr) as [->|[->|[->|[->|[->| ->]]]]]; done.
  - intros f. unfold demo_ext. destruct (_ && _); lia.
  - unfold demo_s0, demo_mem. cbn [mem]. repeat (apply wf_mem_insert; [|by rewrite length_insert, length_fill_page]).
    intros f. apply length_fill_page.
  - set_solver.
Qed.

Lemma demo_vm0 : vm_inv 1024 1030 (MkG ∅ (demo_ext 1024)) demo_free demo_s0.
Proof.
  assert (forall f, cnt (MkG ∅ (demo_ext 1024)) f = demo_ext 1024 f) as Hc.
  { intros f. unfold cnt. cbn. rewrite msum_empty. lia. }
  split; [eapply kmem_inv_ext; [exact Hc|apply demo_kmem]|done|split].
  - intros f. cbn. unfold demo_ext. destruct (_ && _); lia.
  - intros f. rewrite Hc. unfold demo_ext. destruct (_ && _) eqn:E; zbool; lia.
  - intros f [[a Ha]|(d & a & i & Ha & _)]; done.
  - intros d v e (a & Ha & _); done.
  - intros d v e v' e' (a & Ha & _); done.
Qed.

Definition demo_s1 : mstate := set_mem (<[1024 := fill_page 0]> (mem demo_s0)) demo_s0.
Definition demo_s2 : mstate :=
  set_mem (<[1024 := <[0%nat := u32 (1025 * 4096 + 7)]> (page_of (mem demo_s1) 1024)]> (mem demo_s1)) demo_s1.

(** The process owns page 0, with flags [fl], in frame 1026. *)
Definition demo_sf (fl : Z) : mstate :=
  set_mem (<[1025 := <[0%nat := u32 (1026 * 4096 + fl)]> (page_of (mem demo_s2) 1025)]> (mem demo_s2)) demo_s2.
Definition demo_asf (fl : Z) : aspace := AS {[0 := 1025]} {[0 := 1026 * 4096 + fl]}.
Definition demo_Gf (fl : Z) : ghost := MkG {[1024 := demo_asf fl]} (fun _ => 0).

(** Writable. *)
Definition demo_s : mstate := demo_sf 7.
Definition demo_as : aspace := demo_asf 7.
Definition demo_G : ghost := demo_Gf 7.

Lemma demo_vm1 : vm_inv 1024 1030 (MkG {[1024 := AS ∅ ∅]} (demo_ext 1025)) demo_free demo_s1.
Proof.
  destruct (vm_inv_new_dir 1024 1030 (MkG ∅ (demo_ext 1025)) demo_free demo_s0 1024) as [Hi _].
  - eapply vm_inv_ext; [| |exact demo_vm0]; [done|]. intros f. cbn. unfold upd. case_decide as E; [by subst|].
    unfold demo_ext. destruct (1025 <=? f) eqn:E1, (1024 <=? f) eqn:E2; zbool; done || lia.
  - unfold cnt. cbn. rewrite msum_empty. done.
  - done.
  - eapply vm_inv_ext; [| |exact Hi]; done.
Qed.

Lemma demo_vm2 : vm_inv 1024 1030 (MkG {[1024 := AS {[0 := 1025]} ∅]} (demo_ext 1026)) demo_free demo_s2.
Proof.
  pose proof (vm_inv_add_pt 1024 1030 _ demo_free demo_s1 1024 (AS ∅ ∅) 0 1025 demo_vm1) as Hi.
  eapply vm_inv_ext; [| |apply Hi]; try done.
  - intros f. cbn. unfold upd. case_decide as E; [by subst|].
    unfold demo_ext. destruct (1025 <=? f) eqn:E1, (1026 <=? f) eqn:E2; zbool; done || lia.
Qed.

Lemma demo_vm_flags fl : fl = 7 \/ fl = 3 -> vm_inv 1024 1030 (demo_Gf fl) demo_free (demo_sf fl).
Proof.
  intros Hfl.
  set (G := MkG {[1024 := AS {[0 := 1025]} ∅]} (demo_ext 1026)).
  assert (forall f, cnt (MkG (<[1024 := put_pte 0 (Some (1026 * 4096 + fl)) (AS {[0 := 1025]} ∅)]> (g_dirs G))
                             (fun _ => 0)) f = cnt G f) as Hc.
  { intros f. unfold cnt. cbn -[put_pte]. rewrite insert_singleton_eq, !msum_singleton.
    rewrite as_cnt_put_pte. cbn [as_pte from_option]. rewrite lookup_empty. cbn [from_option].
    unfold pte_ref, demo_ext. change (0 <? UPAGES) with true. rewrite andb_true_l.
    assert (pframe (1026 * 4096 + fl) = 1026) as -> by by destruct Hfl as [-> | ->].
    destruct (1026 =? f) eqn:E, ((1026 <=? f) && (f <? 1027)) eqn:E2; cbn [b2z]; zbool; try lia. }
  destruct Hfl as [-> | ->];
    (eapply vm_inv_ext; [| |eapply (vm_inv_store_pte 1024 1030 G demo_free demo_s2 1024 (AS {[0 := 1025]} ∅)
      0 1025 0 (Some _) (fun _ => 0)); try done]; try done; [apply demo_vm2|]);
    (intros e [= <-] _; split; [intros _; unfold cnt, G; cbn; rewrite msum_singleton; by vm_compute|];
     intros v' e' _ (b & Hb & Hv & _); cbn in Hb; apply lookup_singleton_Some in Hb as [_ <-]; done).
Qed.

Lemma demo_vm : vm_inv 1024 1030 demo_G demo_free demo_s.
Proof. apply demo_vm_flags. by left. Qed.
