(* ===== verification/VmUser.v ===== *)
(** * Private memory: what the virtual memory code promises

    The abstract memory of the system gives every address space its own array of
    pages.  Copy-on-write, lazy allocation, the TLB and page faults implement
    it: a user store changes one word of one page of one process, a fork copies
    the pages, a page fault changes nothing.  The user side runs on a model of
    the MMU, which caches entries in the TLB, walks the two-level tables in
    memory, and faults into [pagefault]. *)

From S2P Require Import Prelude Monad Machine Kalloc Vm VmInv VmOps VmFree VmKern VmFault VmCow Demo.

(** ** The MMU *)

(** An entry with the permissions its directory entry leaves. *)
Definition effective (pde pte : Z) : Z := Z.land pte (Z.lor (Z.lnot 6) pde).

(** [us]: an access from user mode; [wr]: a write.  The kernel sets CR0.WP, so
    its writes respect PTE_W too. *)
Definition permits (us : bool) (e : Z) (wr : bool) : bool :=
  has e PTE_P && (negb us || has e PTE_U) && (negb wr || has e PTE_W).

Definition mmu_walk (va : Z) : M mstate (option Z) :=
  gets (fun s =>
    let pde := word (mem s) (cr3 s / 4096) (PDX va) in
    if negb (has pde PTE_P) then None else
    let pte := word (mem s) (pde / 4096) (PTX va) in
    if negb (has pte PTE_P) then None else Some (effective pde pte)).

(** Translation of an access: a fault drops the cached entry. *)
Definition translate (us : bool) (va : Z) (wr : bool) : M mstate (option Z) :=
  let* t := gets tlb in
  match t !! vpn va with
  | Some e => if permits us e wr then ret (Some e) else invlpg va ;;; ret None
  | None =>
      let* r := mmu_walk va in
      match r with
      | Some e =>
          if permits us e wr
          then modify (fun s => set_paging (cr3 s) (<[vpn va := e]> (tlb s)) s) ;;; ret (Some e)
          else ret None
      | None => ret None
      end
  end.

(** Word of a page an address selects. *)
Definition widx (va : Z) : nat := Z.to_nat (va mod 4096 / 4).

Section user.
Context `{KernelImage}.

(** An access to user memory on behalf of a process with page directory and size
    [p]: faults are handled by the kernel and the instruction restarts; [None]
    when the kernel refuses. *)
Fixpoint access {A} (us : bool) (fuel : nat) (p : Z * Z) (va : Z) (wr : bool) (k : Z -> M mstate A)
    : M mstate (option A) :=
  match fuel with
  | O => nofuel
  | S fuel =>
      let* r := translate us va wr in
      match r with
      | Some e => let* x := k (pframe e) in ret (Some x)
      | None =>
          let* r := pagefault (Some p) va (Z.lor (if us then FEC_U else 0) (if wr then FEC_WR else 0)) in
          if r <? 0 then ret None else access us fuel p va wr k
      end
  end.

Definition user_load (fuel : nat) (p : Z * Z) (va : Z) : M mstate (option Z) :=
  access true fuel p va false (fun f => gets (fun s => nth (widx va) (page_of (mem s) f) 0)).

Definition user_store (fuel : nat) (p : Z * Z) (va w : Z) : M mstate (option unit) :=
  access true fuel p va true (fun f =>
    modify (fun s => set_mem (<[f := <[widx va := w]> (page_of (mem s) f)]> (mem s)) s)).

(** Words the kernel reads and writes in user memory; a fault it cannot resolve
    in kernel mode is a panic in [trap]. *)
Definition kern_load (p : Z * Z) (va : Z) : M mstate Z :=
  let* r := access false 2 p va false (fun f => gets (fun s => nth (widx va) (page_of (mem s) f) 0)) in
  match r with Some x => ret x | None => panic "trap" end.

Definition kern_store (p : Z * Z) (va w : Z) : M mstate unit :=
  let* r := access false 2 p va true (fun f =>
    modify (fun s => set_mem (<[f := <[widx va := u32 w]> (page_of (mem s) f)]> (mem s)) s)) in
  match r with Some x => ret x | None => panic "trap" end.

End user.

(** ** Abstract memory *)

(** User page [v] of address space [d]. *)
Definition umem (G : ghost) (s : mstate) (d v : Z) : option page :=
  if in_range 0 UPAGES v then (fun a => view (mem s) a v) <$> g_dirs G !! d else None.

Definition same_umem (G : ghost) (s : mstate) (G' : ghost) (s' : mstate) : Prop :=
  forall d v, umem G' s' d v = umem G s d v.

(** The TLB of a CPU running [d] caches entries of its page table. *)
Definition coherent (d : Z) (a : aspace) (s : mstate) : Prop :=
  cr3 s = d * 4096 /\ forall v e, tlb s !! v = Some e -> as_pte a !! v = Some e.

Section proofs.
Context `{KernelImage}.
Implicit Types (G : ghost) (s : mstate) (free : list Z) (a : aspace).

Lemma effective_pde p e : effective (p * 4096 + 7) e = e.
Proof.
  unfold effective. replace (Z.lor (Z.lnot 6) (p * 4096 + 7)) with (-1); [apply Z.land_m1_r|].
  symmetry. apply Z.bits_inj'. intros n Hn. rewrite Z.lor_spec, Z.lnot_spec, Z.bits_m1 by done.
  destruct (decide (n = 1)) as [->|]; [by rewrite testbit_entry by lia|].
  destruct (decide (n = 2)) as [->|]; [by rewrite testbit_entry by lia|].
  assert (Z.testbit 6 n = false) as ->; [|done].
  destruct (decide (n = 0)) as [->|]; [done|]. apply Z.bits_above_log2; cbn; lia.
Qed.

Lemma mmu_walk_wp lo hi G free d a va (Q : option Z -> mstate -> Prop) s :
  vm_inv lo hi G free s -> g_dirs G !! d = Some a -> cr3 s = d * 4096 -> 0 <= va < KERNBASE ->
  Q (as_pte a !! vpn va) s -> wp (mmu_walk va) Q s.
Proof.
  intros Hi Hd Hc Hva HQ. apply wp_gets. cbv beta zeta. rewrite Hc, Z.div_mul by done.
  rewrite PDX_vpn, PTX_vpn by (unfold KERNBASE in *; lia).
  pose proof (vi_rep _ _ _ _ _ Hi d a Hd) as Hrep. pose proof (vpn_user va Hva) as Hv.
  unfold UPAGES in Hv. destruct (split_vpn (vpn va) ltac:(lia)) as (_ & Esplit & Hmod & _).
  assert (0 <= vpn va / 1024 < 1024) as Hpd by zdiv. rewrite (dr_pde _ _ _ Hrep _ Hpd).
  destruct (as_pt a !! (vpn va / 1024)) as [p|] eqn:Ep.
  - rewrite has_pde. cbn [negb]. replace ((p * 4096 + 7) / 4096) with p by zdiv.
    rewrite (dr_pte _ _ _ Hrep _ _ _ Ep Hmod), <- Esplit.
    destruct (as_pte a !! vpn va) as [e|] eqn:Ee; cbn [default from_option id]; [|done].
    destruct (dr_ent _ _ _ Hrep _ _ Ee) as [_ Hb].
    assert (has e PTE_P = true) as -> by (change PTE_P with (2 ^ 0); by rewrite has_bit).
    cbn [negb]. by rewrite effective_pde.
  - cbn. destruct (as_pte a !! vpn va) as [e|] eqn:Ee; [|done].
    destruct (dr_dom _ _ _ Hrep _ _ Ee) as [_ [q Hq]]. congruence.
Qed.

(** The entry a user access may use. *)
Definition user_entry (us : bool) (a : aspace) (v : Z) (wr : bool) : option Z :=
  match as_pte a !! v with
  | Some e => if permits us e wr then Some e else None
  | None => None
  end.

Lemma translate_wp lo hi G free d a us va wr (Q : option Z -> mstate -> Prop) s :
  vm_inv lo hi G free s -> g_dirs G !! d = Some a -> coherent d a s -> 0 <= va < KERNBASE ->
  (forall t', coherent d a (set_paging (cr3 s) t' s) -> Q (user_entry us a (vpn va) wr) (set_paging (cr3 s) t' s)) ->
  wp (translate us va wr) Q s.
Proof.
  intros Hi Hd [Hc Ht] Hva HQ. unfold translate. apply wp_bind, wp_gets.
  assert (set_paging (cr3 s) (tlb s) s = s) as Hsame by by destruct s.
  specialize (HQ (tlb s)) as HQ0. rewrite Hsame in HQ0. unfold user_entry in *.
  destruct (tlb s !! vpn va) as [e|] eqn:Et.
  - rewrite (Ht _ _ Et) in *. destruct (permits us e wr); [by apply wp_ret, HQ0|].
    apply wp_bind, invlpg_wp, wp_ret, HQ. split; [done|]. cbn.
    intros v e' [_ Hv]%lookup_delete_Some. by apply Ht.
  - apply wp_bind. eapply mmu_walk_wp; [done..|].
    destruct (as_pte a !! vpn va) as [e|] eqn:Ee; [|by apply wp_ret, HQ0].
    destruct (permits us e wr); [|by apply wp_ret, HQ0].
    apply wp_bind, wp_modify, wp_ret, HQ. split; [done|]. cbn.
    intros v e' [[<- <-]|[_ Hv]]%lookup_insert_Some; [done|by apply Ht].
Qed.

(** ** User accesses *)

Lemma views_same_umem G s d a' s' :
  is_Some (g_dirs G !! d) -> views_kept G s (set_dir d a' G) s' -> same_umem G s (set_dir d a' G) s'.
Proof.
  intros [a Hd] Hv d' v. unfold umem. destruct (in_range 0 UPAGES v) eqn:Er; [|done].
  apply in_range_spec in Er. destruct (g_dirs G !! d') as [b|] eqn:Eb.
  - destruct (Hv d' b Eb) as (b' & -> & Hview & _). cbn. by rewrite Hview.
  - cbn. rewrite lookup_insert_ne by congruence. by rewrite Eb.
Qed.

(** A user access is to a user's page, and a write is to a writable or copy-on-write page;
    pages without an entry are allocated on demand. *)
Definition access_allowed (us : bool) (a : aspace) (v : Z) (wr : bool) : Prop :=
  forall e, as_pte a !! v = Some e ->
    (us = true -> Z.testbit e 2 = true) /\ (wr = true -> Z.testbit e 1 = true \/ Z.testbit e 11 = true).

Lemma permits_bits us e wr :
  Z.testbit e 0 = true -> (us = true -> Z.testbit e 2 = true) -> (wr = true -> Z.testbit e 1 = true) -> permits us e wr = true.
Proof.
  intros H0 H2 H1. unfold permits. change PTE_P with (2 ^ 0). change PTE_U with (2 ^ 2).
  change PTE_W with (2 ^ 1). rewrite !has_bit, H0 by lia.
  destruct us; [rewrite H2 by done|]; destruct wr; cbn; (by apply H1) || done.
Qed.

Lemma err_wr (us wr : bool) :
  has (Z.lor (if us then FEC_U else 0) (if wr then FEC_WR else 0)) FEC_WR = wr.
Proof. by destruct us, wr. Qed.

Lemma user_entry_permits us a v wr e :
  user_entry us a v wr = Some e -> as_pte a !! v = Some e /\ permits us e wr = true.
Proof. unfold user_entry. destruct (as_pte a !! v); [|done]. destruct (permits _ _) eqn:E; naive_solver. Qed.

Lemma coherent_fault d a a' v G s s' :
  coherent d a s -> fault_step d a a' v G s s' -> coherent d a' s'.
Proof.
  intros [Hc Ht] [_ Hoth Htlb (_ & Hc' & _)]. split; [congruence|]. intros u e Hu.
  destruct Htlb as [E|[E ->]]; rewrite E in Hu; [|by apply Ht].
  apply lookup_delete_Some in Hu as [Hne Hu]. rewrite Hoth by done. by apply Ht.
Qed.

Lemma access_wp {A} lo hi G free d a sz us va wr (k : Z -> M mstate A) (Q : option A -> mstate -> Prop) s :
  vm_inv lo hi G free s -> g_dirs G !! d = Some a -> coherent d a s -> LVm ∉ held s ->
  0 <= va < sz -> sz <= KERNBASE -> access_allowed us a (vpn va) wr -> (2 <= length free)%nat ->
  (forall a' free' e s', vm_inv lo hi (set_dir d a' G) free' s' -> coherent d a' s' ->
     same_umem G s (set_dir d a' G) s' -> as_pte a' !! vpn va = Some e -> permits us e wr = true ->
     wp (let* x := k (pframe e) in ret (Some x)) Q s') ->
  wp (access us 2 (kva d, sz) va wr k) Q s.
Proof.
  intros Hi Hd Hco Hl Hva Hsz Hok Hlen HQ. cbn [access].
  apply wp_bind. eapply translate_wp; [exact Hi|exact Hd|done|lia|]. intros t Hco1.
  set (s1 := set_paging (cr3 s) t s) in *.
  assert (vm_inv lo hi G free s1) as Hi1 by by apply vm_inv_paging.
  destruct (user_entry us a (vpn va) wr) as [e|] eqn:Ee.
  { apply user_entry_permits in Ee as [Ee Hp]. eapply (HQ a free e); try done.
    - eapply vm_inv_ext; [by apply set_dir_same|done|done].
    - intros d' v. unfold umem. cbn. by rewrite insert_id. }
  apply wp_bind. eapply pagefault_wp; [exact Hi1|exact Hd|lia|done| |].
  - intros a' free' s2 Hi2 Hfs (e & He & H0 & H1 & H2). cbn [Z.ltb Z.compare].
    assert (g_dirs (set_dir d a' G) !! d = Some a') as Hd' by apply lookup_set_dir.
    assert (coherent d a' s2) as Hco2 by by eapply coherent_fault.
    assert (same_umem G s (set_dir d a' G) s2) as Hum.
    { apply views_same_umem; [eauto|]. destruct Hfs as [Hv _ _ _]. exact Hv. }
    assert (permits us e wr = true) as Hp.
    { apply permits_bits; [done| |rewrite err_wr in H1; done]. intros Hus. rewrite H2.
      destruct (as_pte a !! vpn va) as [e0|] eqn:E0; [|done]. cbn. by apply (Hok e0 E0). }
    apply wp_bind. eapply translate_wp; [exact Hi2|exact Hd'|done|lia|]. intros t2 Hco3.
    unfold user_entry. rewrite He, Hp. eapply (HQ a' free' e); try done. by apply vm_inv_paging.
  - intros free' s' Hre _ _. exfalso. destruct Hre as [Hre|[[_ Hre]|(e & He & Hre)]]; [lia|lia|].
    rewrite err_wr in Hre. unfold user_entry in Ee. rewrite He in Ee.
    destruct (Hok e He) as [H2 H1]. destruct (permits us e wr) eqn:Hp; [done|].
    destruct (dr_ent _ _ _ (vi_rep _ _ _ _ _ Hi d a Hd) _ _ He) as [_ H0].
    destruct Hre as [->|[E11 E1]].
    + rewrite permits_bits in Hp; done.
    + destruct wr; [destruct (H1 eq_refl); congruence|]. rewrite permits_bits in Hp; done.
Qed.

(** ** A writable page has one owner *)

Lemma writable_private lo hi G d v e d' v' e' :
  wf_ghost lo hi G -> user_pte G d v e -> Z.testbit e 1 = true -> user_pte G d' v' e' ->
  pframe e' = pframe e -> d' = d /\ v' = v.
Proof.
  intros Hwf Hu Hw Hu' Ef. pose proof (wg_write _ _ _ Hwf _ _ _ Hu Hw) as Hc.
  destruct (decide (d' = d)) as [->|Hne].
  { split; [done|]. by eapply (wg_inj _ _ _ Hwf). }
  exfalso. destruct Hu as (b & Hd & Hv & Hr), Hu' as (b' & Hd' & Hv' & Hr').
  pose proof (cnt_ge_dir2 G (pframe e) d b d' b' Hd Hd' ltac:(done)).
  pose proof (as_cnt_pte (pframe e) d b v e Hv ltac:(lia) eq_refl).
  pose proof (as_cnt_pte (pframe e) d' b' v' e' Hv' ltac:(lia) Ef).
  pose proof (wg_ext _ _ _ Hwf (pframe e)). cnt_nonneg. lia.
Qed.

(** Writing the frame of a writable entry changes one page of one process. *)
Lemma umem_write lo hi G s d a v e pg d' v' :
  wf_ghost lo hi G -> g_dirs G !! d = Some a -> as_pte a !! v = Some e -> 0 <= v < UPAGES ->
  Z.testbit e 1 = true ->
  umem G (set_mem (<[pframe e := pg]> (mem s)) s) d' v' =
  if decide (d' = d /\ v' = v) then Some pg else umem G s d' v'.
Proof.
  intros Hwf Hd He Hv Hw. unfold umem.
  assert (user_pte G d v e) as Hu by (exists a; done).
  destruct (in_range 0 UPAGES v') eqn:Er.
  2:{ rewrite decide_False; [done|]. intros [_ ->].
      apply not_true_iff_false in Er. apply Er, in_range_spec. lia. }
  apply in_range_spec in Er. destruct (g_dirs G !! d') as [b|] eqn:Eb; cbn.
  2:{ rewrite decide_False by naive_solver. done. }
  unfold view. destruct (as_pte b !! v') as [e'|] eqn:Ee'.
  - destruct (decide (pframe e' = pframe e)) as [Ef|Hne].
    + assert (user_pte G d' v' e') as Hu' by (exists b; done).
      destruct (writable_private _ _ _ _ _ _ _ _ _ Hwf Hu Hw Hu' Ef) as [-> ->].
      rewrite decide_True by done. by rewrite Ef, page_of_insert_eq.
    + rewrite page_of_insert_ne by done. rewrite decide_False; [done|]. intros [-> ->].
      simplify_eq.
  - rewrite decide_False; [done|]. intros [-> ->]. simplify_eq.
Qed.

Lemma vm_inv_user_write lo hi G free s d a v e pg :
  vm_inv lo hi G free s -> g_dirs G !! d = Some a -> as_pte a !! v = Some e -> 0 <= v < UPAGES ->
  length pg = 1024%nat -> vm_inv lo hi G free (set_mem (<[pframe e := pg]> (mem s)) s).
Proof.
  intros Hi Hd He Hv Hlen. assert (user_pte G d v e) as Hu by (exists a; done).
  pose proof (vi_wf _ _ _ _ _ Hi) as Hwf. apply vm_inv_data; [done|by eapply user_not_table| |done].
  intros Hf. pose proof (free_cnt _ _ _ _ _ _ Hi Hf). pose proof (user_cnt _ _ _ Hwf _ _ _ Hu). lia.
Qed.

Lemma permits_write us e : permits us e true = true -> Z.testbit e 1 = true.
Proof.
  unfold permits. change PTE_W with (2 ^ 1). rewrite (has_bit e 1) by lia. cbn [negb orb].
  rewrite !andb_true_iff. tauto.
Qed.

Lemma umem_view G s d a v : g_dirs G !! d = Some a -> 0 <= v < UPAGES -> umem G s d v = Some (view (mem s) a v).
Proof. intros Hd Hv. unfold umem. rewrite (proj2 (in_range_spec 0 UPAGES v)) by lia. by rewrite Hd. Qed.

(** ** Copying an address space *)

(** What a copy of address space [d] at [c] holds. *)
Definition copied (G : ghost) (s : mstate) (d c sz : Z) (G' : ghost) (s' : mstate) : Prop :=
  forall d' v, umem G' s' d' v =
    if decide (d' = c) then
      if in_range 0 UPAGES v then
        if in_range 0 (pages sz) v then umem G s d v else Some (fill_page 0)
      else None
    else umem G s d' v.

Lemma coherent_flushed d a s s' : flushed d s s' -> coherent d a s'.
Proof. intros (_ & Hc & Ht & _). split; [done|]. by rewrite Ht. Qed.

Lemma cowuvm_umem_wp lo hi G free d a sz (Q : Z -> mstate -> Prop) s :
  vm_inv lo hi G free s -> g_dirs G !! d = Some a -> 0 <= sz <= KERNBASE ->
  (forall f, g_ext G f + Z.of_nat (size (g_dirs G)) + 2 < 2 ^ 16) ->
  (forall a1 free' s', vm_inv lo hi (set_dir d a1 G) free' s' -> same_umem G s (set_dir d a1 G) s' ->
     (forall f, cnt (set_dir d a1 G) f = cnt G f) -> held s' = held s ->
     (coherent d a s -> coherent d a1 s') -> Q 0 s') ->
  (forall c a1 b1 free' s', g_dirs G !! c = None -> 0 < c < NFRAMES -> vm_inv lo hi (pair d c a1 b1 G) free' s' ->
     flushed d s s' -> copied G s d c sz (pair d c a1 b1 G) s' -> Q (kva c) s') ->
  wp (cowuvm (kva d) sz) Q s.
Proof.
  intros Hi Hd Hsz Hfew HQ0 HQ1. pose proof (vi_wf _ _ _ _ _ Hi) as Hwf. pose proof (pages_upages sz Hsz) as Hps.
  assert (forall s' b v e, g_dirs G !! b = Some e -> data_kept G s s' -> 0 <= v < UPAGES ->
            view (mem s') e v = view (mem s) e v) as Hold.
  { intros s' b v x Hb Hdk Hv. unfold view. destruct (as_pte x !! v) as [e|] eqn:E; [|done].
    assert (user_pte G b v e) as Hu by (exists x; done). apply Hdk; [|by eapply user_not_table].
    pose proof (user_cnt _ _ _ Hwf _ _ _ Hu). lia. }
  assert (forall m x v (y : aspace) e, g_dirs G !! d = Some x -> as_pte x !! v = Some e ->
            as_pte y !! v = share <$> as_pte x !! v -> view m y v = view m x v) as Hshare.
  { intros m x v y e Hx He Hy. unfold view. rewrite Hy, He. cbn.
    destruct (dr_ent _ _ _ (vi_rep _ _ _ _ _ Hi d x Hx) _ _ He) as [Her _]. by rewrite share_frame by lia. }
  assert (forall m (y : aspace) v, as_pte y !! v = as_pte a !! v \/ as_pte y !! v = share <$> as_pte a !! v ->
            view m y v = view m a v) as Hpar.
  { intros m y v [E|E]; [unfold view; by rewrite E|]. destruct (as_pte a !! v) as [e|] eqn:Ea.
    - eapply (Hshare m a v y e); [done..|by rewrite Ea].
    - unfold view. by rewrite E, Ea. }
  eapply cowuvm_wp; [exact Hi|exact Hd|done|done| |].
  - intros a1 free' s' Hshs Hi' Hcpu Hdk. pose proof Hshs as [_ Hss]. apply (HQ0 a1 free'); [done| | | |].
    2:{ intros f. by eapply shared_some_cnt. }
    2:{ by destruct Hcpu as [[(? & _) _]|(? & _)]. }
    2:{ destruct Hcpu as [[(_ & Hc & Ht & _) ->]|Hf]; [|intros _; by eapply coherent_flushed].
        intros [Hc1 Ht1]. split; [congruence|]. by rewrite Ht. }
    intros d' v. unfold umem. destruct (in_range 0 UPAGES v) eqn:Er; [|done]. apply in_range_spec in Er. cbn.
    destruct (decide (d' = d)) as [->|]; [rewrite lookup_insert_eq, Hd|rewrite lookup_insert_ne by done].
    + cbn. rewrite Hpar; [by erewrite Hold|]. destruct (Hss v) as [|[_ ?]]; auto.
    + destruct (g_dirs G !! d') eqn:E; [|done]. cbn. by erewrite Hold.
  - intros c a1 b1 free' s' Hc Hcf _ Ha Hb Hi' Hfl Hdk. apply (HQ1 c a1 b1 free'); [done..|].
    intros d' v. unfold umem. destruct (in_range 0 UPAGES v) eqn:Er; [|by case_decide].
    apply in_range_spec in Er. specialize (Ha v). specialize (Hb v). cbn.
    case_decide as Edc; [subst d'; rewrite lookup_insert_eq|rewrite lookup_insert_ne by done].
    + cbn. destruct (in_range 0 (pages sz) v) eqn:Ep.
      * rewrite Hd. cbn. rewrite (Hpar _ b1 v) by auto. by erewrite Hold.
      * unfold view. destruct (kmap_pte kmap v) as [e|] eqn:Ek; [|by rewrite Hb].
        apply kmap_pte_kernel in Ek; [lia|apply kmap_wf].
    + destruct (decide (d' = d)) as [->|]; [rewrite lookup_insert_eq, Hd|rewrite lookup_insert_ne by done].
      * cbn. rewrite (Hpar _ a1 v); [by erewrite Hold|]. destruct (in_range 0 (pages sz) v); auto.
      * destruct (g_dirs G !! d') eqn:E; [|done]. cbn. by erewrite Hold.
Qed.

(** ** The theorems *)

(** C3. A user store is a store to private memory.  Whatever the state of the
    page (writable, shared copy-on-write, or not allocated yet) and of the TLB,
    a store of a running process to an address below its size completes, and its
    only effect on the memory of the system is to change that word of that page
    of that process; the invariant and TLB coherence are kept. *)
Theorem user_store_private lo hi G free d a sz va w s :
  vm_inv lo hi G free s -> g_dirs G !! d = Some a -> coherent d a s -> LVm ∉ held s ->
  0 <= va < sz -> sz <= KERNBASE -> access_allowed true a (vpn va) true -> (2 <= length free)%nat ->
  wp (user_store 2 (kva d, sz) va w) (fun r s' => r = Some tt /\ exists a' free',
    let G' := set_dir d a' G in
    vm_inv lo hi G' free' s' /\ coherent d a' s' /\
    forall d' v', umem G' s' d' v' =
      if decide (d' = d /\ v' = vpn va) then (fun pg => <[widx va := w]> pg) <$> umem G s d (vpn va)
      else umem G s d' v') s.
Proof.
  intros Hi Hd Hco Hl Hva Hsz Hok Hlen. unfold user_store.
  apply (access_wp lo hi G free d a sz true va true); [assumption..|].
  intros a' free' e s' Hi' Hco' Hum He Hp. apply wp_bind, wp_modify, wp_ret. split; [done|].
  pose proof (vpn_user va ltac:(lia)) as Hv. pose proof (lookup_set_dir G d a') as Hd'.
  exists a', free'. split_and!.
  - eapply vm_inv_user_write; try done. rewrite length_insert. apply (ki_wf _ _ _ _ _ (vi_kmem _ _ _ _ _ Hi')).
  - exact Hco'.
  - intros d' v'. rewrite (umem_write lo hi _ s' d a' (vpn va) e); try done;
      [|apply (vi_wf _ _ _ _ _ Hi')|by eapply permits_write].
    case_decide as Hdv; [|apply Hum]. rewrite <- Hum, (umem_view _ s' d a') by done.
    unfold view. by rewrite He.
Qed.

(** C21. A user load reads private memory: it returns the word of the process's own
    page (zero in a page not allocated yet), and changes the memory of no
    process. *)
Theorem user_load_private lo hi G free d a sz va s :
  vm_inv lo hi G free s -> g_dirs G !! d = Some a -> coherent d a s -> LVm ∉ held s ->
  0 <= va < sz -> sz <= KERNBASE -> access_allowed true a (vpn va) false -> (2 <= length free)%nat ->
  wp (user_load 2 (kva d, sz) va) (fun r s' => r = (fun pg => nth (widx va) pg 0) <$> umem G s d (vpn va) /\
    exists a' free', let G' := set_dir d a' G in
    vm_inv lo hi G' free' s' /\ coherent d a' s' /\ same_umem G s G' s') s.
Proof.
  intros Hi Hd Hco Hl Hva Hsz Hok Hlen. unfold user_load.
  apply (access_wp lo hi G free d a sz true va false); [assumption..|].
  intros a' free' e s' Hi' Hco' Hum He Hp. apply wp_bind, wp_gets, wp_ret.
  split; [|by exists a', free']. pose proof (vpn_user va ltac:(lia)) as Hv.
  rewrite <- Hum, (umem_view _ s' d a') by (done || apply lookup_set_dir). unfold view. by rewrite He.
Qed.

(** C6. Copy-on-write refines copying.  When [cowuvm] succeeds it returns a new
    address space whose pages below [sz] hold what the parent's hold and whose
    other pages are empty; no other address space changes, the parent's TLB is
    flushed, so it holds no entry that was writable before, and the invariant
    (in particular, that a frame with two references is writable by no one)
    holds. *)
Theorem cowuvm_copies lo hi G free d a sz s :
  vm_inv lo hi G free s -> g_dirs G !! d = Some a -> 0 <= sz <= KERNBASE ->
  (forall f, g_ext G f + Z.of_nat (size (g_dirs G)) + 2 < 2 ^ 16) ->
  wp (cowuvm (kva d) sz) (fun r s' =>
    (r = 0 /\ exists a1 free', vm_inv lo hi (set_dir d a1 G) free' s' /\
       same_umem G s (set_dir d a1 G) s') \/
    (exists c a1 b1 free', r = kva c /\ g_dirs G !! c = None /\ let G' := pair d c a1 b1 G in
       vm_inv lo hi G' free' s' /\ coherent d a1 s' /\ tlb s' = ∅ /\ copied G s d c sz G' s')) s.
Proof.
  intros Hi Hd Hsz Hfew. eapply cowuvm_umem_wp; [exact Hi|exact Hd|done|done| |].
  - intros a1 free' s' Hi' Hum _ _ _. left. eauto.
  - intros c a1 b1 free' s' Hc _ Hi' Hfl Hcp. right. exists c, a1, b1, free'. cbv zeta.
    split_and!; try done; [by eapply coherent_flushed|apply Hfl].
Qed.

(** A page user code may use, or that is yet to be allocated for it; exec's guard page
    is one it may not use. *)
Definition users_page (a : aspace) (v : Z) : bool := from_option (fun e => Z.testbit e 2) true (as_pte a !! v).

Lemma access_ok_restarts lo hi G free d a a' va err us s :
  vm_inv lo hi G free s -> g_dirs G !! d = Some a' -> coherent d a' s -> 0 <= va < KERNBASE -> access_ok a a' (vpn va) err ->
  wp (translate us va (has err FEC_WR)) (fun t _ => is_Some t <-> (us = true -> users_page a (vpn va) = true)) s.
Proof.
  intros Hi Hd Hco Hva (e & He & H0 & H1 & H2). eapply translate_wp; [exact Hi|exact Hd|done|done|]. intros t _.
  unfold user_entry, users_page. rewrite He, <- H2. split.
  - destruct (permits us e (has err FEC_WR)) eqn:Ep; [intros _ ->|by intros [? ?]].
    unfold permits in Ep. zbool. change PTE_U with (2 ^ 2) in *. by rewrite has_bit in * by lia.
  - intros Hu. rewrite permits_bits by done. eauto.
Qed.

(** C7. A page fault is invisible.  [pagefault] returns 0 or -1 without panicking,
    keeps the invariant, releases what it locks, keeps the TLB coherent and
    leaves the memory of every process as it was.  If it returns 0, the access that
    faulted, a write or not, is translated when it is restarted, unless it is one of
    user code to a page that was mapped without PTE_U, such as the guard page below
    the stack: such an access faults again.  [pagefault] returns -1 only when memory
    is exhausted, the address is beyond the process size, or the page does not
    allow the access. *)
Theorem pagefault_transparent lo hi G free d a sz va err s :
  vm_inv lo hi G free s -> g_dirs G !! d = Some a -> coherent d a s -> LVm ∉ held s ->
  0 <= va < KERNBASE ->
  wp (pagefault (Some (kva d, sz)) va err) (fun r s' => exists a' free',
    let G' := set_dir d a' G in
    vm_inv lo hi G' free' s' /\ coherent d a' s' /\ held s' = held s /\ same_umem G s G' s' /\
    ((r = 0 /\ forall us, wp (translate us va (has err FEC_WR))
                           (fun t _ => is_Some t <-> (us = true -> users_page a (vpn va) = true)) s') \/
     (r = -1 /\ fault_refused free a sz va err))) s.
Proof.
  intros Hi Hd Hco Hl Hva. eapply pagefault_wp; [exact Hi|exact Hd|done|done| |].
  - intros a' free' s' Hi' Hfs Hok. exists a', free'. pose proof Hfs as [Hv _ _ (Hh & _)].
    assert (coherent d a' s') as Hco' by by eapply coherent_fault.
    split_and!; [done|done|done|apply views_same_umem; [eauto|done]|left; split; [done|]].
    intros us. eapply access_ok_restarts; [exact Hi'|apply lookup_insert_eq|done..].
  - intros free' s' Hre Hi' Hfs. exists a, free'. pose proof Hfs as [Hv _ _ (Hh & _)].
    split_and!; [|by eapply coherent_fault|done|apply views_same_umem; [eauto|done]|by right].
    eapply vm_inv_ext; [by apply set_dir_same|done|done].
Qed.

(** C22. [freevm] gives back an address space: it does not panic, the address space
    disappears and no other one changes, and a frame is on the free list
    afterwards exactly when nothing else refers to it, so nothing leaks and
    nothing still in use is freed. *)
Theorem freevm_releases lo hi G free d a s :
  vm_inv lo hi G free s -> g_dirs G !! d = Some a ->
  wp (freevm (kva d)) (fun _ s' => exists free', let G' := del_dir d G in
    vm_inv lo hi G' free' s' /\
    (forall f, f ∈ free' <-> lo <= f < hi /\ cnt G f = as_cnt f d a) /\
    (forall d' v, umem G' s' d' v = if decide (d' = d) then None else umem G s d' v)) s.
Proof.
  intros Hi Hd. eapply freevm_wp; [exact Hi|exact Hd|]. intros free' s' Hi' _ Hdk.
  exists free'. cbv zeta. split_and!; [done| |].
  - intros f. rewrite (ki_free _ _ _ _ _ (vi_kmem _ _ _ _ _ Hi')), (cnt_del_dir d a) by done. lia.
  - intros d' v. unfold umem. destruct (in_range 0 UPAGES v) eqn:Er; [|by case_decide].
    apply in_range_spec in Er. cbn. case_decide as E; [by rewrite E, lookup_delete_eq|].
    rewrite lookup_delete_ne by done. destruct (g_dirs G !! d') as [b|] eqn:Eb; [|done]. cbn. f_equal.
    unfold view. destruct (as_pte b !! v) as [e|] eqn:Ee; [|done].
    assert (user_pte (del_dir d G) d' v e) as Hu by (exists b; cbn; by rewrite lookup_delete_ne).
    pose proof (vi_wf _ _ _ _ _ Hi') as Hwf'.
    apply Hdk; [pose proof (user_cnt _ _ _ Hwf' _ _ _ Hu); lia|by eapply user_not_table].
Qed.

(** C23. [setupkvm] builds the kernel half of an address space: either it returns a
    new directory whose entries are exactly those of the [kmap] table (the
    kernel's I/O space, text, data and free memory, and devices, with their
    permissions, and no user page), or it returns 0 and the address spaces are
    those of before. *)
Theorem setupkvm_maps_kernel lo hi G free s :
  vm_inv lo hi G free s ->
  wp setupkvm (fun r s' =>
    (r = 0 /\ exists free', vm_inv lo hi G free' s' /\ same_umem G s G s') \/
    (exists d a free', r = kva d /\ g_dirs G !! d = None /\
       vm_inv lo hi (set_dir d a G) free' s' /\ (forall u, as_pte a !! u = kmap_pte kmap u) /\
       forall d' v, d' <> d -> umem (set_dir d a G) s' d' v = umem G s d' v)) s.
Proof.
  intros Hi. assert (forall s' G' d' v, data_kept G' s s' -> grows G G' ->
    umem G s' d' v = umem G s d' v) as Hkept.
  { intros s' G' d' v Hdk Hgr. unfold umem. destruct (in_range 0 UPAGES v) eqn:Er; [|done].
    apply in_range_spec in Er. destruct (g_dirs G !! d') as [b|] eqn:Eb; [|done]. cbn. f_equal.
    unfold view. destruct (as_pte b !! v) as [e|] eqn:Ee; [|done].
    assert (user_pte G d' v e) as Hu by (exists b; done). pose proof (vi_wf _ _ _ _ _ Hi) as Hwf.
    pose proof (user_cnt _ _ _ Hwf _ _ _ Hu). pose proof (user_not_table _ _ _ Hwf _ _ _ Hu).
    destruct (grows_kept G G' (pframe e)) as [? ?]; [done|lia|done|]. by apply Hdk. }
  eapply setupkvm_wp; [exact Hi| |].
  - intros free' s' Hi' _ Hdk. left. split; [done|]. exists free'. split; [done|].
    intros d v. apply (Hkept s' G); [done|]. by split; [left|].
  - intros d a free' s' Hd _ Ha Hi' _ Hdk. right. exists d, a, free'. split_and!; try done.
    intros d' v Hne. rewrite <- (Hkept s' (set_dir d a G)); [|done|].
    + unfold umem. cbn. by rewrite lookup_insert_ne.
    + eapply new_dir_grows; [apply (vi_wf _ _ _ _ _ Hi')|done|intros; by eapply cnt_nonneg_inv].
Qed.

(** ** The guard page *)

(** A write fault on a page that is present and writable is taken to be stale: the
    kernel returns success and changes nothing. *)
Lemma pagefault_writable_wp lo hi G free d a e sz va err (Q : Z -> mstate -> Prop) s :
  vm_inv lo hi G free s -> g_dirs G !! d = Some a -> 0 <= va < KERNBASE -> LVm ∉ held s ->
  as_pte a !! vpn va = Some e -> Z.testbit e 1 = true -> Z.testbit e 11 = false -> has err FEC_WR = true ->
  Q 0 s -> wp (pagefault (Some (kva d, sz)) va err) Q s.
Proof.
  intros Hi Hd Hva Hl He Hw Hcow Herr HQ. unfold pagefault. rewrite (proj2 (Z.leb_gt _ _)) by lia.
  apply wp_bind, acquire_wp; [done|]. set (s0 := set_held (LVm :: held s) s).
  assert (vm_inv lo hi G free s0) as Hi0.
  { apply vm_inv_held; [done|]. pose proof (ki_lock _ _ _ _ _ (vi_kmem _ _ _ _ _ Hi)). set_solver. }
  pose proof (vi_rep _ _ _ _ _ Hi d a Hd) as Hrep.
  destruct (dr_dom _ _ _ Hrep _ _ He) as [Hv20 [p Hp]]. destruct (dr_ent _ _ _ Hrep _ _ He) as [_ Hbit].
  destruct (split_vpn _ Hv20) as (_ & Esplit & Hmod & _).
  assert (is_table G p) as Htp by (right; eauto).
  pose proof (vm_table_frame _ _ _ _ _ p Hi Htp) as Hpf.
  apply wp_bind. eapply walkpgdir_find_wp; [exact Hi0|exact Hd|unfold KERNBASE in *; lia|].
  rewrite Hp, (proj2 (Z.eqb_neq _ 0)) by (unfold kva, KERNBASE; lia).
  apply wp_bind, load_word; [done..|]. cbn [s0 set_held mem].
  rewrite (dr_pte _ _ _ Hrep _ _ _ Hp Hmod), <- Esplit, He. cbn [default from_option id].
  assert (has e PTE_P = true) as -> by (change PTE_P with (2 ^ 0); by rewrite has_bit).
  change PTE_COW with (2 ^ 11). change PTE_W with (2 ^ 1). rewrite !has_bit, Hw, Hcow, Herr by lia. cbn [orb negb andb].
  apply wp_bind. eapply release_wp; [done|done|]. apply wp_ret. by destruct s.
Qed.

(** A user store to a page the kernel keeps for itself, such as the stack guard
    page, whose entry is present and writable but lacks PTE_U, never completes and
    never fails: every fault is answered with success and the store restarts, for
    any number of faults, instead of the process being killed. *)
Theorem guard_store_spins lo hi G free d a e sz va w s fuel :
  vm_inv lo hi G free s -> g_dirs G !! d = Some a -> coherent d a s -> LVm ∉ held s -> 0 <= va < KERNBASE ->
  as_pte a !! vpn va = Some e -> Z.testbit e 1 = true -> Z.testbit e 2 = false -> Z.testbit e 11 = false ->
  user_store fuel (kva d, sz) va w s = NoFuel.
Proof.
  intros Hi Hd Hco Hl Hva He Hw Hu Hcow. revert s Hi Hco Hl.
  unfold user_store. induction fuel as [|n IH]; intros s Hi Hco Hl; [done|]. cbn [access].
  assert (wp (translate true va true) (fun r s' => r = None /\ vm_inv lo hi G free s' /\ coherent d a s' /\ held s' = held s) s)
    as (r & s1 & E1 & -> & Hi1 & Hco1 & Hh1)%wp_ok.
  { eapply translate_wp; [exact Hi|exact Hd|done|done|]. intros t Ht. split_and!; try done; [|by apply vm_inv_paging].
    unfold user_entry. rewrite He. unfold permits. change PTE_U with (2 ^ 2). by rewrite has_bit, Hu, andb_false_r by lia. }
  unfold bind. rewrite E1. cbn [obind].
  assert (wp (pagefault (Some (kva d, sz)) va (Z.lor FEC_U FEC_WR)) (fun r s' => r = 0 /\ s' = s1) s1)
    as (r & s2 & E2 & -> & ->)%wp_ok.
  { eapply pagefault_writable_wp; try done. by rewrite Hh1. }
  rewrite E2. cbn [obind Z.ltb Z.compare]. apply IH; [done|done|by rewrite Hh1].
Qed.

End proofs.

(** ** Instances on the concrete machine *)

#[local] Existing Instance demo_image.

Lemma demo_coherent : coherent 1024 demo_as demo_s.
Proof. split; [done|]. intros v e. change (tlb demo_s) with (∅ : gmap Z Z). by rewrite lookup_empty. Qed.

Lemma user_store_private_witness :
  wp (user_store 2 (kva 1024, 8192) 4104 7) (fun r _ => r = Some tt) demo_s.
Proof.
  eapply wp_mono.
  - eapply (user_store_private 1024 1030 demo_G demo_free 1024 demo_as 8192 4104 7 demo_s);
      [exact demo_vm|done|exact demo_coherent|set_solver|done|done|by intros e|cbn; lia].
  - intros r s' [Hr _]. exact Hr.
Defined.

Lemma user_load_private_witness :
  wp (user_load 2 (kva 1024, 8192) 4104) (fun r _ => r = Some 0) demo_s.
Proof.
  eapply wp_mono.
  - eapply (user_load_private 1024 1030 demo_G demo_free 1024 demo_as 8192 4104 demo_s);
      [exact demo_vm|done|exact demo_coherent|set_solver|done|done|by intros e|cbn; lia].
  - intros r s' [-> _]. reflexivity.
Defined.

Lemma demo_few f : g_ext demo_G f + Z.of_nat (size (g_dirs demo_G)) + 2 < 2 ^ 16.
Proof. cbn [demo_G demo_Gf g_ext g_dirs]. by rewrite map_size_singleton. Qed.

Lemma cowuvm_copies_witness :
  wp (cowuvm (kva 1024) 8192) (fun r _ => r = 0 \/ exists c, r = kva c) demo_s.
Proof.
  eapply wp_mono.
  - eapply (cowuvm_copies 1024 1030 demo_G demo_free 1024 demo_as 8192 demo_s);
      [exact demo_vm|done|done|exact demo_few].
  - intros r s' [[-> _]|(c & _ & _ & _ & -> & _)]; eauto.
Defined.

Lemma pagefault_transparent_witness :
  wp (pagefault (Some (kva 1024, 8192)) 4104 (Z.lor FEC_U FEC_WR)) (fun r s' => r = 0 \/ r = -1) demo_s.
Proof.
  eapply wp_mono.
  - eapply (pagefault_transparent 1024 1030 demo_G demo_free 1024 demo_as 8192 4104);
      [exact demo_vm|done|exact demo_coherent|set_solver|done].
  - intros r s' (a' & free' & _ & _ & _ & _ & [[-> _]|[-> _]]); auto.
Defined.

Lemma freevm_releases_witness :
  wp (freevm (kva 1024)) (fun _ s' => exists free', vm_inv 1024 1030 (del_dir 1024 demo_G) free' s') demo_s.
Proof.
  eapply wp_mono.
  - eapply (freevm_releases 1024 1030 demo_G demo_free 1024 demo_as); [exact demo_vm|done].
  - intros r s' (free' & Hi & _). eauto.
Defined.

Lemma setupkvm_maps_kernel_witness : wp setupkvm (fun r _ => r = 0 \/ exists d, r = kva d) demo_s.
Proof.
  eapply wp_mono.
  - eapply (setupkvm_maps_kernel 1024 1030 demo_G demo_free); exact demo_vm.
  - intros r s' [[-> _]|(d & _ & _ & -> & _)]; eauto.
Defined.

(** Page 0 as exec leaves the page below a stack: present, writable, not the
    user's. *)
Lemma guard_store_spins_witness : user_store 1000 (kva 1024, 8192) 4 1 (demo_sf 3) = NoFuel.
Proof.
  apply (guard_store_spins 1024 1030 (demo_Gf 3) demo_free 1024 (demo_asf 3) (1026 * 4096 + 3) 8192 4 1 (demo_sf 3) 1000);
    try done; [apply demo_vm_flags; by right|set_solver].
Defined.
