(* ===== verification/ProcDefs.v ===== *)
(** * Process state (proc.h)

    The process table, the run queues and the state of the executing CPU.  A
    pointer to a process is its index in the table.  The trap frame and the saved
    context, which live at the top of the kernel stack, are fields of the
    process. *)

From S2P Require Import Prelude Monad Machine.

Definition nprio : nat := Z.to_nat NPRIO.
Definition nproc : nat := Z.to_nat NPROC.

Inductive procstate : Type := UNUSED | EMBRYO | SLEEPING | RUNNABLE | RUNNING | ZOMBIE.
#[export] Instance procstate_eq_dec : EqDecision procstate.
Proof. solve_decision. Defined.

(** What a process sleeps on.  Kernel objects are named, a futex is a physical
    address; kernel addresses and physical addresses below PHYSTOP differ, so
    the cases are distinct. *)
Inductive chan : Type :=
  | ChNone
  | ChProc (i : nat)
  | ChTicks
  | ChPhys (pa : Z)
  | ChPipeR (p : Z)
  | ChPipeW (p : Z)
  | ChLog
  | ChBuf (i : nat)
  | ChCons
  | ChSlBuf (i : nat)
  | ChSlInode (i : nat).
#[export] Instance chan_eq_dec : EqDecision chan.
Proof. solve_decision. Defined.

(** Registers saved on a trap (x86.h). *)
Record trapframe : Type := MkTf {
  tf_edi : Z; tf_esi : Z; tf_ebp : Z; tf_oesp : Z; tf_ebx : Z; tf_edx : Z; tf_ecx : Z; tf_eax : Z;
  tf_gs : Z; tf_fs : Z; tf_es : Z; tf_ds : Z; tf_trapno : Z; tf_err : Z; tf_eip : Z; tf_cs : Z; tf_eflags : Z; tf_esp : Z; tf_ss : Z
}.
Definition tf_zero : trapframe := MkTf 0 0 0 0 0 0 0 0 0 0 0 0 0 0 0 0 0 0 0.
Definition set_eax (x : Z) (t : trapframe) : trapframe :=
  MkTf (tf_edi t) (tf_esi t) (tf_ebp t) (tf_oesp t) (tf_ebx t) (tf_edx t) (tf_ecx t) x (tf_gs t) (tf_fs t) (tf_es t) (tf_ds t) (tf_trapno t) (tf_err t) (tf_eip t) (tf_cs t) (tf_eflags t) (tf_esp t) (tf_ss t).
Definition set_eip (x : Z) (t : trapframe) : trapframe :=
  MkTf (tf_edi t) (tf_esi t) (tf_ebp t) (tf_oesp t) (tf_ebx t) (tf_edx t) (tf_ecx t) (tf_eax t) (tf_gs t) (tf_fs t) (tf_es t) (tf_ds t) (tf_trapno t) (tf_err t) x (tf_cs t) (tf_eflags t) (tf_esp t) (tf_ss t).
Definition set_esp (x : Z) (t : trapframe) : trapframe :=
  MkTf (tf_edi t) (tf_esi t) (tf_ebp t) (tf_oesp t) (tf_ebx t) (tf_edx t) (tf_ecx t) (tf_eax t) (tf_gs t) (tf_fs t) (tf_es t) (tf_ds t) (tf_trapno t) (tf_err t) (tf_eip t) (tf_cs t) (tf_eflags t) x (tf_ss t).
Definition set_cs (x : Z) (t : trapframe) : trapframe :=
  MkTf (tf_edi t) (tf_esi t) (tf_ebp t) (tf_oesp t) (tf_ebx t) (tf_edx t) (tf_ecx t) (tf_eax t) (tf_gs t) (tf_fs t) (tf_es t) (tf_ds t) (tf_trapno t) (tf_err t) (tf_eip t) x (tf_eflags t) (tf_esp t) (tf_ss t).
Definition set_ds (x : Z) (t : trapframe) : trapframe :=
  MkTf (tf_edi t) (tf_esi t) (tf_ebp t) (tf_oesp t) (tf_ebx t) (tf_edx t) (tf_ecx t) (tf_eax t) (tf_gs t) (tf_fs t) (tf_es t) x (tf_trapno t) (tf_err t) (tf_eip t) (tf_cs t) (tf_eflags t) (tf_esp t) (tf_ss t).
Definition set_es (x : Z) (t : trapframe) : trapframe :=
  MkTf (tf_edi t) (tf_esi t) (tf_ebp t) (tf_oesp t) (tf_ebx t) (tf_edx t) (tf_ecx t) (tf_eax t) (tf_gs t) (tf_fs t) x (tf_ds t) (tf_trapno t) (tf_err t) (tf_eip t) (tf_cs t) (tf_eflags t) (tf_esp t) (tf_ss t).
Definition set_ss (x : Z) (t : trapframe) : trapframe :=
  MkTf (tf_edi t) (tf_esi t) (tf_ebp t) (tf_oesp t) (tf_ebx t) (tf_edx t) (tf_ecx t) (tf_eax t) (tf_gs t) (tf_fs t) (tf_es t) (tf_ds t) (tf_trapno t) (tf_err t) (tf_eip t) (tf_cs t) (tf_eflags t) (tf_esp t) x.
Definition set_eflags (x : Z) (t : trapframe) : trapframe :=
  MkTf (tf_edi t) (tf_esi t) (tf_ebp t) (tf_oesp t) (tf_ebx t) (tf_edx t) (tf_ecx t) (tf_eax t) (tf_gs t) (tf_fs t) (tf_es t) (tf_ds t) (tf_trapno t) (tf_err t) (tf_eip t) (tf_cs t) x (tf_esp t) (tf_ss t).

(** Callee-saved registers of a switched-out kernel thread. *)
Record context : Type := MkCtx { c_edi : Z; c_esi : Z; c_ebx : Z; c_ebp : Z; c_eip : Z }.
Definition ctx_zero : context := MkCtx 0 0 0 0 0.

Record proc : Type := MkProc {
  p_sz : Z;
  p_pgdir : Z;
  p_kstack : Z;
  p_state : procstate;
  p_pid : Z;
  p_parent : option nat;
  p_tf : trapframe;
  p_context : context;
  p_chan : chan;
  p_killed : Z;
  p_ofile : list (option nat);
  p_cwd : option nat;
  p_name : list Z;
  p_base_prio : Z;
  p_prio : Z;
  p_slice : Z;
  p_waited : Z;
  p_rqcpu : nat;
  p_rqnext : option nat;
  p_isthread : Z;
  p_ustack : Z
}.

(** A slot of the zero-initialised table. *)
Definition proc0 : proc :=
  MkProc 0 0 0 UNUSED 0 None tf_zero ctx_zero ChNone 0 (replicate 16 None) None [] 0 0 0 0 0 None 0 0.
#[export] Instance proc_inhabited : Inhabited proc := populate proc0.

Definition set_sz (x : Z) (p : proc) : proc :=
  MkProc x (p_pgdir p) (p_kstack p) (p_state p) (p_pid p) (p_parent p) (p_tf p) (p_context p) (p_chan p) (p_killed p) (p_ofile p) (p_cwd p) (p_name p) (p_base_prio p) (p_prio p) (p_slice p) (p_waited p) (p_rqcpu p) (p_rqnext p) (p_isthread p) (p_ustack p).
Definition set_pgdir (x : Z) (p : proc) : proc :=
  MkProc (p_sz p) x (p_kstack p) (p_state p) (p_pid p) (p_parent p) (p_tf p) (p_context p) (p_chan p) (p_killed p) (p_ofile p) (p_cwd p) (p_name p) (p_base_prio p) (p_prio p) (p_slice p) (p_waited p) (p_rqcpu p) (p_rqnext p) (p_isthread p) (p_ustack p).
Definition set_kstack (x : Z) (p : proc) : proc :=
  MkProc (p_sz p) (p_pgdir p) x (p_state p) (p_pid p) (p_parent p) (p_tf p) (p_context p) (p_chan p) (p_killed p) (p_ofile p) (p_cwd p) (p_name p) (p_base_prio p) (p_prio p) (p_slice p) (p_waited p) (p_rqcpu p) (p_rqnext p) (p_isthread p) (p_ustack p).
Definition set_state (x : procstate) (p : proc) : proc :=
  MkProc (p_sz p) (p_pgdir p) (p_kstack p) x (p_pid p) (p_parent p) (p_tf p) (p_context p) (p_chan p) (p_killed p) (p_ofile p) (p_cwd p) (p_name p) (p_base_prio p) (p_prio p) (p_slice p) (p_waited p) (p_rqcpu p) (p_rqnext p) (p_isthread p) (p_ustack p).
Definition set_pid (x : Z) (p : proc) : proc :=
  MkProc (p_sz p) (p_pgdir p) (p_kstack p) (p_state p) x (p_parent p) (p_tf p) (p_context p) (p_chan p) (p_killed p) (p_ofile p) (p_cwd p) (p_name p) (p_base_prio p) (p_prio p) (p_slice p) (p_waited p) (p_rqcpu p) (p_rqnext p) (p_isthread p) (p_ustack p).
Definition set_parent (x : option nat) (p : proc) : proc :=
  MkProc (p_sz p) (p_pgdir p) (p_kstack p) (p_state p) (p_pid p) x (p_tf p) (p_context p) (p_chan p) (p_killed p) (p_ofile p) (p_cwd p) (p_name p) (p_base_prio p) (p_prio p) (p_slice p) (p_waited p) (p_rqcpu p) (p_rqnext p) (p_isthread p) (p_ustack p).
Definition set_tf (x : trapframe) (p : proc) : proc :=
  MkProc (p_sz p) (p_pgdir p) (p_kstack p) (p_state p) (p_pid p) (p_parent p) x (p_context p) (p_chan p) (p_killed p) (p_ofile p) (p_cwd p) (p_name p) (p_base_prio p) (p_prio p) (p_slice p) (p_waited p) (p_rqcpu p) (p_rqnext p) (p_isthread p) (p_ustack p).
Definition set_context (x : context) (p : proc) : proc :=
  MkProc (p_sz p) (p_pgdir p) (p_kstack p) (p_state p) (p_pid p) (p_parent p) (p_tf p) x (p_chan p) (p_killed p) (p_ofile p) (p_cwd p) (p_name p) (p_base_prio p) (p_prio p) (p_slice p) (p_waited p) (p_rqcpu p) (p_rqnext p) (p_isthread p) (p_ustack p).
Definition set_chan (x : chan) (p : proc) : proc :=
  MkProc (p_sz p) (p_pgdir p) (p_kstack p) (p_state p) (p_pid p) (p_parent p) (p_tf p) (p_context p) x (p_killed p) (p_ofile p) (p_cwd p) (p_name p) (p_base_prio p) (p_prio p) (p_slice p) (p_waited p) (p_rqcpu p) (p_rqnext p) (p_isthread p) (p_ustack p).
Definition set_killed (x : Z) (p : proc) : proc :=
  MkProc (p_sz p) (p_pgdir p) (p_kstack p) (p_state p) (p_pid p) (p_parent p) (p_tf p) (p_context p) (p_chan p) x (p_ofile p) (p_cwd p) (p_name p) (p_base_prio p) (p_prio p) (p_slice p) (p_waited p) (p_rqcpu p) (p_rqnext p) (p_isthread p) (p_ustack p).
Definition set_ofile (x : list (option nat)) (p : proc) : proc :=
  MkProc (p_sz p) (p_pgdir p) (p_kstack p) (p_state p) (p_pid p) (p_parent p) (p_tf p) (p_context p) (p_chan p) (p_killed p) x (p_cwd p) (p_name p) (p_base_prio p) (p_prio p) (p_slice p) (p_waited p) (p_rqcpu p) (p_rqnext p) (p_isthread p) (p_ustack p).
Definition set_cwd (x : option nat) (p : proc) : proc :=
  MkProc (p_sz p) (p_pgdir p) (p_kstack p) (p_state p) (p_pid p) (p_parent p) (p_tf p) (p_context p) (p_chan p) (p_killed p) (p_ofile p) x (p_name p) (p_base_prio p) (p_prio p) (p_slice p) (p_waited p) (p_rqcpu p) (p_rqnext p) (p_isthread p) (p_ustack p).
Definition set_name (x : list Z) (p : proc) : proc :=
  MkProc (p_sz p) (p_pgdir p) (p_kstack p) (p_state p) (p_pid p) (p_parent p) (p_tf p) (p_context p) (p_chan p) (p_killed p) (p_ofile p) (p_cwd p) x (p_base_prio p) (p_prio p) (p_slice p) (p_waited p) (p_rqcpu p) (p_rqnext p) (p_isthread p) (p_ustack p).
Definition set_base_prio (x : Z) (p : proc) : proc :=
  MkProc (p_sz p) (p_pgdir p) (p_kstack p) (p_state p) (p_pid p) (p_parent p) (p_tf p) (p_context p) (p_chan p) (p_killed p) (p_ofile p) (p_cwd p) (p_name p) x (p_prio p) (p_slice p) (p_waited p) (p_rqcpu p) (p_rqnext p) (p_isthread p) (p_ustack p).
Definition set_prio (x : Z) (p : proc) : proc :=
  MkProc (p_sz p) (p_pgdir p) (p_kstack p) (p_state p) (p_pid p) (p_parent p) (p_tf p) (p_context p) (p_chan p) (p_killed p) (p_ofile p) (p_cwd p) (p_name p) (p_base_prio p) x (p_slice p) (p_waited p) (p_rqcpu p) (p_rqnext p) (p_isthread p) (p_ustack p).
Definition set_slice (x : Z) (p : proc) : proc :=
  MkProc (p_sz p) (p_pgdir p) (p_kstack p) (p_state p) (p_pid p) (p_parent p) (p_tf p) (p_context p) (p_chan p) (p_killed p) (p_ofile p) (p_cwd p) (p_name p) (p_base_prio p) (p_prio p) x (p_waited p) (p_rqcpu p) (p_rqnext p) (p_isthread p) (p_ustack p).
Definition set_waited (x : Z) (p : proc) : proc :=
  MkProc (p_sz p) (p_pgdir p) (p_kstack p) (p_state p) (p_pid p) (p_parent p) (p_tf p) (p_context p) (p_chan p) (p_killed p) (p_ofile p) (p_cwd p) (p_name p) (p_base_prio p) (p_prio p) (p_slice p) x (p_rqcpu p) (p_rqnext p) (p_isthread p) (p_ustack p).
Definition set_rqcpu (x : nat) (p : proc) : proc :=
  MkProc (p_sz p) (p_pgdir p) (p_kstack p) (p_state p) (p_pid p) (p_parent p) (p_tf p) (p_context p) (p_chan p) (p_killed p) (p_ofile p) (p_cwd p) (p_name p) (p_base_prio p) (p_prio p) (p_slice p) (p_waited p) x (p_rqnext p) (p_isthread p) (p_ustack p).
Definition set_rqnext (x : option nat) (p : proc) : proc :=
  MkProc (p_sz p) (p_pgdir p) (p_kstack p) (p_state p) (p_pid p) (p_parent p) (p_tf p) (p_context p) (p_chan p) (p_killed p) (p_ofile p) (p_cwd p) (p_name p) (p_base_prio p) (p_prio p) (p_slice p) (p_waited p) (p_rqcpu p) x (p_isthread p) (p_ustack p).
Definition set_isthread (x : Z) (p : proc) : proc :=
  MkProc (p_sz p) (p_pgdir p) (p_kstack p) (p_state p) (p_pid p) (p_parent p) (p_tf p) (p_context p) (p_chan p) (p_killed p) (p_ofile p) (p_cwd p) (p_name p) (p_base_prio p) (p_prio p) (p_slice p) (p_waited p) (p_rqcpu p) (p_rqnext p) x (p_ustack p).
Definition set_ustack (x : Z) (p : proc) : proc :=
  MkProc (p_sz p) (p_pgdir p) (p_kstack p) (p_state p) (p_pid p) (p_parent p) (p_tf p) (p_context p) (p_chan p) (p_killed p) (p_ofile p) (p_cwd p) (p_name p) (p_base_prio p) (p_prio p) (p_slice p) (p_waited p) (p_rqcpu p) (p_rqnext p) (p_isthread p) x.

(** One FIFO per priority, linked through [p_rqnext]. *)
Record runqueue : Type := MkRq { rq_head : list (option nat); rq_tail : list (option nat); nready : Z }.
Definition rq0 : runqueue := MkRq (replicate nprio None) (replicate nprio None) 0.
#[export] Instance rq_inhabited : Inhabited runqueue := populate rq0.
Definition set_head (k : nat) (x : option nat) (q : runqueue) : runqueue :=
  MkRq (<[k := x]> (rq_head q)) (rq_tail q) (nready q).
Definition set_tail (k : nat) (x : option nat) (q : runqueue) : runqueue :=
  MkRq (rq_head q) (<[k := x]> (rq_tail q)) (nready q).
Definition add_nready (d : Z) (q : runqueue) : runqueue :=
  MkRq (rq_head q) (rq_tail q) (nready q + d).

(** [me] is the executing CPU and [cpus] the process each CPU runs. *)
Record pstate : Type := MkP {
  pm : mstate;
  procs : list proc;
  runq : list runqueue;
  last_aged : Z;
  initproc : option nat;
  nextpid : Z;
  ncpu : nat;
  me : nat;
  cpus : list (option nat);
  ticks : Z
}.
Definition put_pm (x : mstate) (s : pstate) : pstate :=
  MkP x (procs s) (runq s) (last_aged s) (initproc s) (nextpid s) (ncpu s) (me s) (cpus s) (ticks s).
Definition put_procs (x : list proc) (s : pstate) : pstate :=
  MkP (pm s) x (runq s) (last_aged s) (initproc s) (nextpid s) (ncpu s) (me s) (cpus s) (ticks s).
Definition put_runq (x : list runqueue) (s : pstate) : pstate :=
  MkP (pm s) (procs s) x (last_aged s) (initproc s) (nextpid s) (ncpu s) (me s) (cpus s) (ticks s).
Definition put_last_aged (x : Z) (s : pstate) : pstate :=
  MkP (pm s) (procs s) (runq s) x (initproc s) (nextpid s) (ncpu s) (me s) (cpus s) (ticks s).
Definition put_initproc (x : option nat) (s : pstate) : pstate :=
  MkP (pm s) (procs s) (runq s) (last_aged s) x (nextpid s) (ncpu s) (me s) (cpus s) (ticks s).
Definition put_nextpid (x : Z) (s : pstate) : pstate :=
  MkP (pm s) (procs s) (runq s) (last_aged s) (initproc s) x (ncpu s) (me s) (cpus s) (ticks s).
Definition put_cpus (x : list (option nat)) (s : pstate) : pstate :=
  MkP (pm s) (procs s) (runq s) (last_aged s) (initproc s) (nextpid s) (ncpu s) (me s) x (ticks s).
Definition put_ticks (x : Z) (s : pstate) : pstate :=
  MkP (pm s) (procs s) (runq s) (last_aged s) (initproc s) (nextpid s) (ncpu s) (me s) (cpus s) x.

(** ** Primitive accesses *)

Definition mem_op {A} (m : M mstate A) : M pstate A := zoom pm put_pm m.

Definition getp {A} (i : nat) (f : proc -> A) : M pstate A := gets (fun s => f (procs s !!! i)).
Definition setp (i : nat) (f : proc -> proc) : M pstate unit :=
  modify (fun s => put_procs (alter f i (procs s)) s).
Definition getq {A} (c : nat) (f : runqueue -> A) : M pstate A := gets (fun s => f (runq s !!! c)).
Definition setq (c : nat) (f : runqueue -> runqueue) : M pstate unit :=
  modify (fun s => put_runq (alter f c (runq s)) s).

Definition cpuid : M pstate nat := gets me.
Definition myproc : M pstate (option nat) := gets (fun s => cpus s !!! me s).
Definition set_myproc (p : option nat) : M pstate unit :=
  modify (fun s => put_cpus (<[me s := p]> (cpus s)) s).

Definition pacquire (l : lock) : M pstate unit := mem_op (acquire l).
Definition prelease (l : lock) : M pstate unit := mem_op (release l).
