(* ===== verification/KernDefs.v ===== *)
(** * Kernel state outside the process table

    The buffer cache (bio.c), the log (log.c), the disk, the inode cache (fs.c),
    the open files (file.c), the pipes (pipe.c), the console and the IDE driver's
    queue, around the process state of ProcDefs.v.  A pointer to a buffer, an inode or a file is its index; a pipe is
    named by the address of the page it lives in. *)

From S2P Require Import Prelude Monad Machine ProcDefs.

(** ** Constants *)

(** param.h *)
Abbreviation NFILE := (100)%Z.
Abbreviation NINODE := (50)%Z.
Abbreviation NDEV := (10)%Z.
Definition ROOTDEV : Z := 1.
Definition MAXOPBLOCKS : Z := 10.
Definition LOGSIZE : Z := MAXOPBLOCKS * 3.
Definition NBUF : Z := MAXOPBLOCKS * 3.
Definition FSSIZE : Z := 2000.

(** fs.h, buf.h, stat.h *)
Definition ROOTINO : Z := 1.
Definition BSIZE : Z := 512.
Definition NDIRECT : Z := 12.
Definition NINDIRECT : Z := BSIZE / 4.
Definition MAXFILE : Z := NDIRECT + NINDIRECT.
Definition IPB : Z := BSIZE / 64.
Definition BPB : Z := BSIZE * 8.
Abbreviation DIRSIZ := (14)%Z.
Definition B_VALID : Z := 0x2.
Definition B_DIRTY : Z := 0x4.
Definition T_DIR : Z := 1.
Definition T_FILE : Z := 2.
Abbreviation T_DEV := (3)%Z.

Definition nbuf : nat := Z.to_nat NBUF.
Definition ninode : nat := Z.to_nat NINODE.
Definition nfile : nat := Z.to_nat NFILE.
Definition bsize : nat := Z.to_nat BSIZE.

(** A disk block: [BSIZE] bytes. *)
Abbreviation block := (list Z).
Definition zero_block : block := replicate bsize 0.

(** ** Data *)

(** sleeplock.h; the spinlock inside is named by [LSlBuf] or [LSlInode]. *)
Record sleeplock : Type := MkSl { sl_locked : Z; sl_pid : Z }.
Definition sl0 : sleeplock := MkSl 0 0.

(** buf.h; the links of the LRU list and of the disk queue are kept apart. *)
Record buf : Type := MkBuf {
  b_flags : Z;
  b_dev : Z;
  b_blockno : Z;
  b_lock : sleeplock;
  b_refcnt : Z;
  b_data : block
}.
Definition set_b_flags (x : Z) (b : buf) : buf := MkBuf x (b_dev b) (b_blockno b) (b_lock b) (b_refcnt b) (b_data b).
Definition set_b_dev (x : Z) (b : buf) : buf := MkBuf (b_flags b) x (b_blockno b) (b_lock b) (b_refcnt b) (b_data b).
Definition set_b_blockno (x : Z) (b : buf) : buf := MkBuf (b_flags b) (b_dev b) x (b_lock b) (b_refcnt b) (b_data b).
Definition set_b_lock (x : sleeplock) (b : buf) : buf := MkBuf (b_flags b) (b_dev b) (b_blockno b) x (b_refcnt b) (b_data b).
Definition set_b_refcnt (x : Z) (b : buf) : buf := MkBuf (b_flags b) (b_dev b) (b_blockno b) (b_lock b) x (b_data b).
Definition set_b_data (x : block) (b : buf) : buf := MkBuf (b_flags b) (b_dev b) (b_blockno b) (b_lock b) (b_refcnt b) x.
Definition buf0 : buf := MkBuf 0 0 0 sl0 0 zero_block.
#[export] Instance buf_inhabited : Inhabited buf := populate buf0.

(** log.c: [struct log] with its [struct logheader]. *)
Record log_t : Type := MkLog {
  l_start : Z;
  l_size : Z;
  l_outstanding : Z;
  l_committing : Z;
  l_dev : Z;
  lh_n : Z;
  lh_block : list Z
}.
Definition set_l_start (x : Z) (l : log_t) : log_t := MkLog x (l_size l) (l_outstanding l) (l_committing l) (l_dev l) (lh_n l) (lh_block l).
Definition set_l_size (x : Z) (l : log_t) : log_t := MkLog (l_start l) x (l_outstanding l) (l_committing l) (l_dev l) (lh_n l) (lh_block l).
Definition set_l_outstanding (x : Z) (l : log_t) : log_t := MkLog (l_start l) (l_size l) x (l_committing l) (l_dev l) (lh_n l) (lh_block l).
Definition set_l_committing (x : Z) (l : log_t) : log_t := MkLog (l_start l) (l_size l) (l_outstanding l) x (l_dev l) (lh_n l) (lh_block l).
Definition set_l_dev (x : Z) (l : log_t) : log_t := MkLog (l_start l) (l_size l) (l_outstanding l) (l_committing l) x (lh_n l) (lh_block l).
Definition set_lh_n (x : Z) (l : log_t) : log_t := MkLog (l_start l) (l_size l) (l_outstanding l) (l_committing l) (l_dev l) x (lh_block l).
Definition set_lh_block (x : list Z) (l : log_t) : log_t := MkLog (l_start l) (l_size l) (l_outstanding l) (l_committing l) (l_dev l) (lh_n l) x.

(** fs.h *)
Record superblock : Type := MkSb {
  sb_size : Z;
  sb_nblocks : Z;
  sb_ninodes : Z;
  sb_nlog : Z;
  sb_logstart : Z;
  sb_inodestart : Z;
  sb_bmapstart : Z
}.
Definition sb0 : superblock := MkSb 0 0 0 0 0 0 0.

(** file.h *)
Record inode : Type := MkInode {
  i_dev : Z;
  i_inum : Z;
  i_ref : Z;
  i_lock : sleeplock;
  i_valid : Z;
  i_type : Z;
  i_major : Z;
  i_minor : Z;
  i_nlink : Z;
  i_size : Z;
  i_addrs : list Z
}.
Definition set_i_dev (x : Z) (i : inode) : inode := MkInode x (i_inum i) (i_ref i) (i_lock i) (i_valid i) (i_type i) (i_major i) (i_minor i) (i_nlink i) (i_size i) (i_addrs i).
Definition set_i_inum (x : Z) (i : inode) : inode := MkInode (i_dev i) x (i_ref i) (i_lock i) (i_valid i) (i_type i) (i_major i) (i_minor i) (i_nlink i) (i_size i) (i_addrs i).
Definition set_i_ref (x : Z) (i : inode) : inode := MkInode (i_dev i) (i_inum i) x (i_lock i) (i_valid i) (i_type i) (i_major i) (i_minor i) (i_nlink i) (i_size i) (i_addrs i).
Definition set_i_lock (x : sleeplock) (i : inode) : inode := MkInode (i_dev i) (i_inum i) (i_ref i) x (i_valid i) (i_type i) (i_major i) (i_minor i) (i_nlink i) (i_size i) (i_addrs i).
Definition set_i_valid (x : Z) (i : inode) : inode := MkInode (i_dev i) (i_inum i) (i_ref i) (i_lock i) x (i_type i) (i_major i) (i_minor i) (i_nlink i) (i_size i) (i_addrs i).
Definition set_i_type (x : Z) (i : inode) : inode := MkInode (i_dev i) (i_inum i) (i_ref i) (i_lock i) (i_valid i) x (i_major i) (i_minor i) (i_nlink i) (i_size i) (i_addrs i).
Definition set_i_major (x : Z) (i : inode) : inode := MkInode (i_dev i) (i_inum i) (i_ref i) (i_lock i) (i_valid i) (i_type i) x (i_minor i) (i_nlink i) (i_size i) (i_addrs i).
Definition set_i_minor (x : Z) (i : inode) : inode := MkInode (i_dev i) (i_inum i) (i_ref i) (i_lock i) (i_valid i) (i_type i) (i_major i) x (i_nlink i) (i_size i) (i_addrs i).
Definition set_i_nlink (x : Z) (i : inode) : inode := MkInode (i_dev i) (i_inum i) (i_ref i) (i_lock i) (i_valid i) (i_type i) (i_major i) (i_minor i) x (i_size i) (i_addrs i).
Definition set_i_size (x : Z) (i : inode) : inode := MkInode (i_dev i) (i_inum i) (i_ref i) (i_lock i) (i_valid i) (i_type i) (i_major i) (i_minor i) (i_nlink i) x (i_addrs i).
Definition set_i_addrs (x : list Z) (i : inode) : inode := MkInode (i_dev i) (i_inum i) (i_ref i) (i_lock i) (i_valid i) (i_type i) (i_major i) (i_minor i) (i_nlink i) (i_size i) x.
Definition inode0 : inode := MkInode 0 0 0 sl0 0 0 0 0 0 0 (replicate 13 0).
#[export] Instance inode_inhabited : Inhabited inode := populate inode0.

Inductive fdtype : Type := FD_NONE | FD_PIPE | FD_INODE.
#[export] Instance fdtype_eq_dec : EqDecision fdtype.
Proof. solve_decision. Defined.

(** file.h *)
Record file : Type := MkFile {
  f_type : fdtype;
  f_ref : Z;
  f_readable : Z;
  f_writable : Z;
  f_pipe : Z;
  f_ip : option nat;
  f_off : Z
}.
Definition set_f_type (x : fdtype) (f : file) : file := MkFile x (f_ref f) (f_readable f) (f_writable f) (f_pipe f) (f_ip f) (f_off f).
Definition set_f_ref (x : Z) (f : file) : file := MkFile (f_type f) x (f_readable f) (f_writable f) (f_pipe f) (f_ip f) (f_off f).
Definition set_f_readable (x : Z) (f : file) : file := MkFile (f_type f) (f_ref f) x (f_writable f) (f_pipe f) (f_ip f) (f_off f).
Definition set_f_writable (x : Z) (f : file) : file := MkFile (f_type f) (f_ref f) (f_readable f) x (f_pipe f) (f_ip f) (f_off f).
Definition set_f_pipe (x : Z) (f : file) : file := MkFile (f_type f) (f_ref f) (f_readable f) (f_writable f) x (f_ip f) (f_off f).
Definition set_f_ip (x : option nat) (f : file) : file := MkFile (f_type f) (f_ref f) (f_readable f) (f_writable f) (f_pipe f) x (f_off f).
Definition set_f_off (x : Z) (f : file) : file := MkFile (f_type f) (f_ref f) (f_readable f) (f_writable f) (f_pipe f) (f_ip f) x.
Definition file0 : file := MkFile FD_NONE 0 0 0 0 None 0.
#[export] Instance file_inhabited : Inhabited file := populate file0.

(** pipe.c *)
Record pipe : Type := MkPipe {
  p_data : list Z;
  p_nread : Z;
  p_nwrite : Z;
  p_readopen : Z;
  p_writeopen : Z
}.
Definition set_p_data (x : list Z) (p : pipe) : pipe := MkPipe x (p_nread p) (p_nwrite p) (p_readopen p) (p_writeopen p).
Definition set_p_nread (x : Z) (p : pipe) : pipe := MkPipe (p_data p) x (p_nwrite p) (p_readopen p) (p_writeopen p).
Definition set_p_nwrite (x : Z) (p : pipe) : pipe := MkPipe (p_data p) (p_nread p) x (p_readopen p) (p_writeopen p).
Definition set_p_readopen (x : Z) (p : pipe) : pipe := MkPipe (p_data p) (p_nread p) (p_nwrite p) x (p_writeopen p).
Definition set_p_writeopen (x : Z) (p : pipe) : pipe := MkPipe (p_data p) (p_nread p) (p_nwrite p) (p_readopen p) x.

(** The disk: its blocks, and, latest first, the block writes it has performed. *)
Record disk_t : Type := MkDisk {
  d_blocks : list block;
  d_writes : list (Z * block)
}.

(** The screen: the cursor position and the 25 rows of 80 cells at 0xb8000. *)
Record cga_t : Type := MkCga { cga_pos : Z; cga_crt : list Z }.

(** console.c: [input], [panicked], the screen, and, latest first, the characters given
    to [uartputc]. *)
Record cons_t : Type := MkCons {
  c_buf : list Z;
  c_r : Z;
  c_w : Z;
  c_e : Z;
  c_panicked : bool;
  c_cga : cga_t;
  c_out : list Z
}.
Definition set_c_buf (x : list Z) (c : cons_t) : cons_t := MkCons x (c_r c) (c_w c) (c_e c) (c_panicked c) (c_cga c) (c_out c).
Definition set_c_r (x : Z) (c : cons_t) : cons_t := MkCons (c_buf c) x (c_w c) (c_e c) (c_panicked c) (c_cga c) (c_out c).
Definition set_c_w (x : Z) (c : cons_t) : cons_t := MkCons (c_buf c) (c_r c) x (c_e c) (c_panicked c) (c_cga c) (c_out c).
Definition set_c_e (x : Z) (c : cons_t) : cons_t := MkCons (c_buf c) (c_r c) (c_w c) x (c_panicked c) (c_cga c) (c_out c).
Definition set_c_cga (x : cga_t) (c : cons_t) : cons_t := MkCons (c_buf c) (c_r c) (c_w c) (c_e c) (c_panicked c) x (c_out c).
Definition set_c_out (x : list Z) (c : cons_t) : cons_t := MkCons (c_buf c) (c_r c) (c_w c) (c_e c) (c_panicked c) (c_cga c) x.

(** ide.c: the queue linked through [qnext], and, latest first, the values written to the
    controller's ports. *)
Record ide_t : Type := MkIde {
  ide_queue : list nat;
  havedisk1 : Z;
  ide_ports : list (Z * Z)
}.
Definition set_ide_queue (x : list nat) (d : ide_t) : ide_t := MkIde x (havedisk1 d) (ide_ports d).
Definition set_havedisk1 (x : Z) (d : ide_t) : ide_t := MkIde (ide_queue d) x (ide_ports d).
Definition set_ide_ports (x : list (Z * Z)) (d : ide_t) : ide_t := MkIde (ide_queue d) (havedisk1 d) x.

(** [bnext] and [bprev] are the links of the buffers' LRU list; index [nbuf] is its head. *)
Record kstate : Type := MkK {
  kp : pstate;
  bufs : list buf;
  bnext : list nat;
  bprev : list nat;
  disk : disk_t;
  klog : log_t;
  ksb : superblock;
  icache : list inode;
  ftable : list file;
  pipes : gmap Z pipe;
  cons : cons_t;
  ide : ide_t
}.
Definition put_kp (x : pstate) (s : kstate) : kstate := MkK x (bufs s) (bnext s) (bprev s) (disk s) (klog s) (ksb s) (icache s) (ftable s) (pipes s) (cons s) (ide s).
Definition put_bufs (x : list buf) (s : kstate) : kstate := MkK (kp s) x (bnext s) (bprev s) (disk s) (klog s) (ksb s) (icache s) (ftable s) (pipes s) (cons s) (ide s).
Definition put_bnext (x : list nat) (s : kstate) : kstate := MkK (kp s) (bufs s) x (bprev s) (disk s) (klog s) (ksb s) (icache s) (ftable s) (pipes s) (cons s) (ide s).
Definition put_bprev (x : list nat) (s : kstate) : kstate := MkK (kp s) (bufs s) (bnext s) x (disk s) (klog s) (ksb s) (icache s) (ftable s) (pipes s) (cons s) (ide s).
Definition put_disk (x : disk_t) (s : kstate) : kstate := MkK (kp s) (bufs s) (bnext s) (bprev s) x (klog s) (ksb s) (icache s) (ftable s) (pipes s) (cons s) (ide s).
Definition put_klog (x : log_t) (s : kstate) : kstate := MkK (kp s) (bufs s) (bnext s) (bprev s) (disk s) x (ksb s) (icache s) (ftable s) (pipes s) (cons s) (ide s).
Definition put_ksb (x : superblock) (s : kstate) : kstate := MkK (kp s) (bufs s) (bnext s) (bprev s) (disk s) (klog s) x (icache s) (ftable s) (pipes s) (cons s) (ide s).
Definition put_icache (x : list inode) (s : kstate) : kstate := MkK (kp s) (bufs s) (bnext s) (bprev s) (disk s) (klog s) (ksb s) x (ftable s) (pipes s) (cons s) (ide s).
Definition put_ftable (x : list file) (s : kstate) : kstate := MkK (kp s) (bufs s) (bnext s) (bprev s) (disk s) (klog s) (ksb s) (icache s) x (pipes s) (cons s) (ide s).
Definition put_pipes (x : gmap Z pipe) (s : kstate) : kstate := MkK (kp s) (bufs s) (bnext s) (bprev s) (disk s) (klog s) (ksb s) (icache s) (ftable s) x (cons s) (ide s).
Definition put_cons (x : cons_t) (s : kstate) : kstate := MkK (kp s) (bufs s) (bnext s) (bprev s) (disk s) (klog s) (ksb s) (icache s) (ftable s) (pipes s) x (ide s).
Definition put_ide (x : ide_t) (s : kstate) : kstate := MkK (kp s) (bufs s) (bnext s) (bprev s) (disk s) (klog s) (ksb s) (icache s) (ftable s) (pipes s) (cons s) x.

(** ** Primitive accesses *)

Definition proc_op {A} (m : M pstate A) : M kstate A := zoom kp put_kp m.
Definition kacquire (l : lock) : M kstate unit := proc_op (pacquire l).
Definition krelease (l : lock) : M kstate unit := proc_op (prelease l).

Definition getb {A} (i : nat) (f : buf -> A) : M kstate A := gets (fun s => f (bufs s !!! i)).
Definition setb (i : nat) (f : buf -> buf) : M kstate unit := modify (fun s => put_bufs (alter f i (bufs s)) s).
Definition getl {A} (f : log_t -> A) : M kstate A := gets (fun s => f (klog s)).
Definition setl (f : log_t -> log_t) : M kstate unit := modify (fun s => put_klog (f (klog s)) s).
Definition geti {A} (i : nat) (f : inode -> A) : M kstate A := gets (fun s => f (icache s !!! i)).
Definition seti (i : nat) (f : inode -> inode) : M kstate unit := modify (fun s => put_icache (alter f i (icache s)) s).
Definition getf {A} (i : nat) (f : file -> A) : M kstate A := gets (fun s => f (ftable s !!! i)).
Definition setf (i : nat) (f : file -> file) : M kstate unit := modify (fun s => put_ftable (alter f i (ftable s)) s).
