(* ===== verification/RunQueue.v ===== *)
(** * Per-CPU run queues (proc.c)

    Each CPU has a FIFO list of processes per priority, linked through the
    process table.  The code is proved to implement queues of process indices:
    [rq_push] appends at the level of the process's priority, [rq_pop] takes the
    first process of the first non-empty level, [rq_age] raises the processes
    that have waited long enough and keeps the order of the rest. *)

From S2P Require Import Prelude Monad Machine ProcDefs.

(** ** The code *)

Definition quantum_for (prio : Z) : Z := QUANTUM_BASE * (NPRIO - prio).

Definition rq_push (cpu p : nat) : M pstate unit :=
  let* prio := getp p p_prio in
  let k := Z.to_nat prio in
  setp p (set_rqnext None) ;;;
  setp p (set_rqcpu cpu) ;;;
  let* t := getq cpu (fun q => rq_tail q !!! k) in
  match t with
  | Some t => setp t (set_rqnext (Some p))
  | None => setq cpu (set_head k (Some p))
  end ;;;
  setq cpu (set_tail k (Some p)) ;;;
  setq cpu (add_nready 1).

(** Levels [k..k+n). *)
Fixpoint rq_pop_loop (cpu n k : nat) : M pstate (option nat) :=
  match n with
  | O => ret None
  | S n =>
      let* h := getq cpu (fun q => rq_head q !!! k) in
      match h with
      | Some p =>
          let* next := getp p p_rqnext in
          setq cpu (set_head k next) ;;;
          let* h := getq cpu (fun q => rq_head q !!! k) in
          match h with None => setq cpu (set_tail k None) | Some _ => ret tt end ;;;
          setp p (set_rqnext None) ;;;
          setq cpu (add_nready (-1)) ;;;
          ret (Some p)
      | None => rq_pop_loop cpu n (S k)
      end
  end.

Definition rq_pop (cpu : nat) : M pstate (option nat) := rq_pop_loop cpu nprio 0.

Definition nready_of (c : nat) : M pstate Z := getq c nready.

Fixpoint least_loaded_loop (n i best : nat) (bestn : Z) : M pstate nat :=
  match n with
  | O => ret best
  | S n =>
      let* r := nready_of i in
      if r <? bestn then least_loaded_loop n (S i) i r else least_loaded_loop n (S i) best bestn
  end.

Definition least_loaded_cpu : M pstate nat :=
  let* bestn := nready_of 0 in
  let* n := gets ncpu in
  least_loaded_loop (n - 1) 1 0 bestn.

Fixpoint rq_steal_loop (n i self : nat) (best : option nat) (bestn : Z) : M pstate (option nat) :=
  match n with
  | O => ret best
  | S n =>
      if bool_decide (i = self) then rq_steal_loop n (S i) self best bestn else
      let* r := nready_of i in
      if bestn <? r then rq_steal_loop n (S i) self (Some i) r else rq_steal_loop n (S i) self best bestn
  end.

Definition rq_steal (self : nat) : M pstate (option nat) :=
  let* n := gets ncpu in
  let* best := rq_steal_loop n 0 self None 1 in
  match best with
  | None => ret None
  | Some b => rq_pop b
  end.

(** At most [n] processes of [cpu], in the order they are popped. *)
Fixpoint pop_all (n cpu : nat) : M pstate (list nat) :=
  match n with
  | O => ret []
  | S n =>
      let* p := rq_pop cpu in
      match p with
      | Some p => let* ps := pop_all n cpu in ret (p :: ps)
      | None => ret []
      end
  end.

Definition age_proc (elapsed : Z) (p : proc) : proc :=
  let p := set_waited (s32 (p_waited p + elapsed)) p in
  if (AGING_TICKS <=? p_waited p) && (0 <? p_prio p)
  then set_waited 0 (set_prio (p_prio p - 1) p) else p.

Fixpoint age_push (cpu : nat) (elapsed : Z) (pending : list nat) : M pstate unit :=
  match pending with
  | [] => ret tt
  | p :: ps =>
      setp p (age_proc elapsed) ;;;
      rq_push cpu p ;;;
      age_push cpu elapsed ps
  end.

Fixpoint rq_age_loop (n c : nat) (elapsed : Z) : M pstate unit :=
  match n with
  | O => ret tt
  | S n =>
      let* pending := pop_all nproc c in
      age_push c elapsed pending ;;;
      rq_age_loop n (S c) elapsed
  end.

Definition rq_age (elapsed : Z) : M pstate unit :=
  let* n := gets ncpu in
  rq_age_loop n 0 elapsed.

Definition scheduler_tick (now : Z) : M pstate unit :=
  let* last := gets last_aged in
  if u32 (now - last) <? AGING_INTERVAL then ret tt else
  pacquire LPtable ;;;
  let* last := gets last_aged in
  let elapsed := u32 (now - last) in
  modify (put_last_aged now) ;;;
  rq_age elapsed ;;;
  prelease LPtable.

(** ** Queues as lists *)

(** The processes of every CPU and level. *)
Definition queues : Type := nat -> nat -> list nat.
Definition upd_q (Q : queues) (c k : nat) (l : list nat) : queues := fun c' k' =>
  if decide (c' = c /\ k' = k) then l else Q c' k'.

(** The processes of CPU [c] in the order they will be run. *)
Definition qall (Q : queues) (c : nat) : list nat := concat (map (Q c) (seq 0 nprio)).

Fixpoint chain (ps : list proc) (h : option nat) (q : list nat) : Prop :=
  match q with
  | [] => h = None
  | p :: q' => h = Some p /\ chain ps (p_rqnext (ps !!! p)) q'
  end.

Record rq_inv (Q : queues) (s : pstate) : Prop := {
  rq_ncpu : (ncpu s <= length (runq s))%nat;
  rq_dim : forall c, (c < length (runq s))%nat ->
    length (rq_head (runq s !!! c)) = nprio /\ length (rq_tail (runq s !!! c)) = nprio;
  rq_chain : forall c k, (c < length (runq s))%nat -> (k < nprio)%nat ->
    chain (procs s) (rq_head (runq s !!! c) !!! k) (Q c k) /\
    rq_tail (runq s !!! c) !!! k = last (Q c k);
  rq_nready : forall c, (c < length (runq s))%nat -> nready (runq s !!! c) = Z.of_nat (length (qall Q c));
  rq_nodup : forall c k, NoDup (Q c k);
  rq_once : forall c k c' k' p, p ∈ Q c k -> p ∈ Q c' k' -> c = c' /\ k = k';
  rq_elem : forall c k p, p ∈ Q c k ->
    (c < length (runq s))%nat /\ (k < nprio)%nat /\ (p < length (procs s))%nat /\
    p_prio (procs s !!! p) = Z.of_nat k /\ p_rqcpu (procs s !!! p) = c
}.

(** The parts of a process the queues do not use. *)
Definition erase_q (p : proc) : proc := set_rqnext None (set_rqcpu 0 p).

(** Only the run queues and the links of processes differ. *)
Record rq_frame (s s' : pstate) : Prop := {
  rf_pm : pm s' = pm s;
  rf_last : last_aged s' = last_aged s;
  rf_init : initproc s' = initproc s;
  rf_pid : nextpid s' = nextpid s;
  rf_ncpu : ncpu s' = ncpu s;
  rf_me : me s' = me s;
  rf_cpus : cpus s' = cpus s;
  rf_ticks : ticks s' = ticks s;
  rf_nq : length (runq s') = length (runq s);
  rf_np : length (procs s') = length (procs s);
  rf_proc : forall i, erase_q (procs s' !!! i) = erase_q (procs s !!! i)
}.

#[export] Instance rq_frame_preorder : PreOrder rq_frame.
Proof.
  split; [by split|]. intros s1 s2 s3 [] []. split; try congruence.
Qed.

(** A field the queues do not use is kept. *)
Lemma rf_field {A} (f : proc -> A) s s' i :
  (forall p q, erase_q p = erase_q q -> f p = f q) -> rq_frame s s' ->
  f (procs s' !!! i) = f (procs s !!! i).
Proof. intros Hf Hr. apply Hf, (rf_proc _ _ Hr). Qed.

Lemma erase_inj p q : erase_q p = erase_q q -> p = set_rqnext (p_rqnext p) (set_rqcpu (p_rqcpu p) q).
Proof. destruct p, q; cbn. intros [=]; subst. done. Qed.

Ltac erase_field := intros ?p ?q E; apply erase_inj in E; rewrite E; reflexivity.

(** ** Lists *)

Lemma qall_elem Q c p : p ∈ qall Q c <-> exists k, (k < nprio)%nat /\ p ∈ Q c k.
Proof.
  unfold qall. change (seq 0 nprio) with [0; 1; 2; 3]%nat. cbn [map concat].
  rewrite !elem_of_app, elem_of_nil. change nprio with 4%nat. split.
  { intros [Hp|[Hp|[Hp|[Hp|[]]]]]; [exists 0%nat|exists 1%nat|exists 2%nat|exists 3%nat]; (split; [lia|done]). }
  intros (k & Hk & Hp). destruct k as [|[|[|[|k]]]]; [auto..|lia].
Qed.

Lemma chain_frame ps ps' h q :
  (forall x, x ∈ q -> p_rqnext (ps' !!! x) = p_rqnext (ps !!! x)) -> chain ps h q -> chain ps' h q.
Proof.
  revert h. induction q as [|x q IH]; intros h Hf; cbn; [done|].
  intros [-> Hc]. split; [done|]. rewrite Hf by set_solver. apply IH; [set_solver|done].
Qed.

Lemma chain_snoc ps ps' h q t p :
  last q = Some t -> NoDup q -> p ∉ q ->
  p_rqnext (ps' !!! t) = Some p -> p_rqnext (ps' !!! p) = None ->
  (forall x, x <> t -> x <> p -> p_rqnext (ps' !!! x) = p_rqnext (ps !!! x)) ->
  chain ps h q -> chain ps' h (q ++ [p]).
Proof.
  intros Hl Hnd Hp Ht Hpn Hf. revert h Hl Hnd Hp. induction q as [|x q IH]; intros h Hl Hnd Hp; [done|].
  apply NoDup_cons in Hnd as [Hx Hnd]. cbn. intros [-> Hc]. split; [done|].
  destruct q as [|y q].
  - injection Hl as ->. cbn. done.
  - rewrite last_cons_cons in Hl. rewrite Hf; [apply IH; [done|done|set_solver|done]| |set_solver].
    intros ->. apply last_Some_elem_of in Hl. done.
Qed.

Lemma upd_q_eq Q c k l : upd_q Q c k l c k = l.
Proof. unfold upd_q. by rewrite decide_True. Qed.
Lemma upd_q_ne Q c k l c' k' : ~ (c' = c /\ k' = k) -> upd_q Q c k l c' k' = Q c' k'.
Proof. intros. unfold upd_q. by rewrite decide_False. Qed.

Lemma qall_ne Q c k l c' : c' <> c -> qall (upd_q Q c k l) c' = qall Q c'.
Proof.
  intros Hc. unfold qall. f_equal. apply map_ext. intros k'. apply upd_q_ne. naive_solver.
Qed.

Lemma qall_length Q c : length (qall Q c) = sum_list_with (fun k => length (Q c k)) (seq 0 nprio).
Proof. unfold qall. induction (seq 0 nprio) as [|k l IH]; cbn; [done|]. rewrite length_app, IH. done. Qed.

Lemma qall_length_upd Q c k l :
  (k < nprio)%nat -> (length (qall (upd_q Q c k l) c) + length (Q c k) = length (qall Q c) + length l)%nat.
Proof.
  intros Hk. rewrite !qall_length. change (seq 0 nprio) with [0; 1; 2; 3]%nat. cbn [sum_list_with].
  destruct k as [|[|[|[|k]]]]; [rewrite upd_q_eq, !upd_q_ne by lia; lia..|change nprio with 4%nat in Hk; lia].
Qed.

(** ** [rq_push] *)

(** What [rq_push] does to queue [c] and to the links, [t] being the old tail. *)
Record pushed (c k p : nat) (t : option nat) (s s' : pstate) : Prop := {
  pu_frame : rq_frame s s';
  pu_other : forall c', c' <> c -> runq s' !!! c' = runq s !!! c';
  pu_dim : length (rq_head (runq s' !!! c)) = length (rq_head (runq s !!! c)) /\
           length (rq_tail (runq s' !!! c)) = length (rq_tail (runq s !!! c));
  pu_head : forall k', rq_head (runq s' !!! c) !!! k' =
    if decide (k' = k /\ t = None) then Some p else rq_head (runq s !!! c) !!! k';
  pu_tail : forall k', rq_tail (runq s' !!! c) !!! k' =
    if decide (k' = k) then Some p else rq_tail (runq s !!! c) !!! k';
  pu_nready : nready (runq s' !!! c) = nready (runq s !!! c) + 1;
  pu_next : forall i, p_rqnext (procs s' !!! i) =
    if decide (i = p) then None else if decide (Some i = t) then Some p else p_rqnext (procs s !!! i);
  pu_cpu : forall i, p_rqcpu (procs s' !!! i) = if decide (i = p) then c else p_rqcpu (procs s !!! i)
}.

Lemma rq_elem_field {A} (f : proc -> A) s s' :
  (forall p q, erase_q p = erase_q q -> f p = f q) -> rq_frame s s' ->
  forall i, f (procs s' !!! i) = f (procs s !!! i).
Proof. intros Hf Hr i. by apply rf_field. Qed.

Lemma pushed_inv Q s c k p s' :
  rq_inv Q s -> (c < length (runq s))%nat -> (k < nprio)%nat -> (p < length (procs s))%nat ->
  (forall c' k', p ∉ Q c' k') -> p_prio (procs s !!! p) = Z.of_nat k ->
  pushed c k p (last (Q c k)) s s' -> rq_inv (upd_q Q c k (Q c k ++ [p])) s'.
Proof.
  intros Hi Hc Hk Hp Hnew Hprio [Hf Ho [Hd1 Hd2] Hh Ht Hn Hnx Hcpu]. pose proof Hf as [_ _ _ _ Hnc _ _ _ Hnq Hnp _].
  assert (forall i, p_prio (procs s' !!! i) = p_prio (procs s !!! i)) as Epr
    by (intros i; apply rf_field; [erase_field|done]).
  assert (forall c' k', p ∉ Q c' k') as Hnq' by done.
  split; rewrite ?Hnc, ?Hnq, ?Hnp; [apply Hi|..].
  - intros c' Hc'. destruct (decide (c' = c)) as [->|Hne]; [|rewrite Ho by done]; [|by apply Hi].
    rewrite Hd1, Hd2. by apply Hi.
  - intros c' k' Hc' Hk'. destruct (rq_chain _ _ Hi c' k' Hc' Hk') as [Hch Htl].
    destruct (decide (c' = c /\ k' = k)) as [[-> ->]|Hne].
    + rewrite upd_q_eq, Ht, decide_True, last_snoc, Hh by done. split; [|done].
      destruct (last (Q c k)) as [t|] eqn:El.
      * rewrite decide_False by naive_solver.
        assert (t ∈ Q c k) as Htq by (by apply last_Some_elem_of).
        eapply (chain_snoc (procs s) _ _ _ t); try done; [apply Hi| | |].
        -- rewrite Hnx, decide_False, decide_True; [done|done|]. intros ->. by apply (Hnq' c k).
        -- rewrite Hnx, decide_True by done. done.
        -- intros x Hxt Hxp. rewrite Hnx, decide_False, decide_False; [done|congruence|done].
      * apply last_None in El. rewrite El. rewrite decide_True by done. cbn.
        rewrite Hnx, decide_True by done. done.
    + rewrite upd_q_ne by done.
      assert (chain (procs s') (rq_head (runq s !!! c') !!! k') (Q c' k')) as Hch'.
      { eapply chain_frame; [|exact Hch]. intros x Hx. rewrite Hnx, decide_False, decide_False; [done| |].
        - intros E. symmetry in E. apply last_Some_elem_of in E.
          apply Hne. by eapply (rq_once _ _ Hi _ _ _ _ x).
        - intros ->. by apply (Hnq' c' k'). }
      destruct (decide (c' = c)) as [->|Hcc].
      * rewrite Hh, Ht, decide_False by naive_solver. rewrite decide_False by naive_solver. done.
      * rewrite Ho by done. done.
  - intros c' Hc'. destruct (decide (c' = c)) as [->|Hne].
    + rewrite Hn, (rq_nready _ _ Hi) by done. pose proof (qall_length_upd Q c k (Q c k ++ [p]) Hk) as E.
      rewrite length_app in E. cbn in E. lia.
    + rewrite Ho, qall_ne by done. by apply Hi.
  - intros c' k'. destruct (decide (c' = c /\ k' = k)) as [[-> ->]|Hne]; [rewrite upd_q_eq|rewrite upd_q_ne by done].
    + apply NoDup_app. split_and!; [apply Hi|set_solver|apply NoDup_singleton].
    + apply Hi.
  - assert (forall c' k' x, x ∈ upd_q Q c k (Q c k ++ [p]) c' k' -> x ∈ Q c' k' \/ x = p /\ c' = c /\ k' = k) as Hel.
    { intros c' k' x. unfold upd_q. case_decide as E; [destruct E as [-> ->]|by left]. set_solver. }
    intros c1 k1 c2 k2 x H1 H2. apply Hel in H1, H2.
    destruct H1 as [H1|(-> & -> & ->)], H2 as [H2|(E & -> & ->)]; subst; try done.
    + by eapply (rq_once _ _ Hi).
    + by apply Hnq' in H1.
    + by apply Hnq' in H2.
  - intros c' k' x Hx. rewrite Epr, Hcpu. unfold upd_q in Hx. case_decide as E.
    + destruct E as [-> ->]. apply elem_of_app in Hx as [Hx| ->%list_elem_of_singleton].
      * rewrite decide_False by (intros ->; by apply (Hnq' c k)). by apply (rq_elem _ _ Hi).
      * rewrite decide_True by done. done.
    + rewrite decide_False by (intros ->; by apply (Hnq' c' k')). by apply (rq_elem _ _ Hi).
Qed.

(** Reads through the updates of the tables. *)
Ltac rq_lookup :=
  intros; rewrite ?list_lookup_total_alter, ?length_alter;
  repeat (case_decide; try (destruct_and?; subst; exfalso; (done || lia)));
  cbn; rewrite ?length_insert, ?list_lookup_total_insert; repeat case_decide; naive_solver lia.

Lemma rq_push_wp Q s c k p (R : unit -> pstate -> Prop) :
  rq_inv Q s -> (c < length (runq s))%nat -> (p < length (procs s))%nat ->
  (forall c' k', p ∉ Q c' k') -> p_prio (procs s !!! p) = Z.of_nat k -> (k < nprio)%nat ->
  (forall s', rq_frame s s' -> rq_inv (upd_q Q c k (Q c k ++ [p])) s' ->
     (forall i, i <> p -> p_rqcpu (procs s' !!! i) = p_rqcpu (procs s !!! i)) -> R tt s') ->
  wp (rq_push c p) R s.
Proof.
  intros Hi Hc Hp Hnew Hprio Hk HR. destruct (rq_chain _ _ Hi c k Hc Hk) as [_ Htl].
  destruct (rq_dim _ _ Hi c Hc) as [Hd1 Hd2].
  enough (wp (rq_push c p) (fun _ s' => pushed c k p (last (Q c k)) s s') s) as Hwp.
  { eapply wp_mono; [exact Hwp|]. intros [] s' Hpu. apply HR; [apply Hpu|by eapply pushed_inv|].
    intros i Hne. rewrite (pu_cpu _ _ _ _ _ _ Hpu). by rewrite decide_False. }
  unfold rq_push. apply wp_bind, wp_gets. rewrite Hprio, Nat2Z.id.
  apply wp_bind, wp_modify, wp_bind, wp_modify, wp_bind, wp_gets. cbn [runq put_procs]. rewrite Htl.
  assert (forall t, last (Q c k) = Some t -> t <> p /\ (t < length (procs s))%nat) as Ht.
  { intros t Ht%last_Some_elem_of. split; [intros ->; by apply (Hnew c k)|].
    apply (rq_elem _ _ Hi) in Ht. tauto. }
  apply wp_bind. destruct (last (Q c k)) as [t|];
    [destruct (Ht t eq_refl) as [Htp Htl']|]; apply wp_modify, wp_bind, wp_modify, wp_modify;
    (split; cbn [runq put_procs put_runq procs]; [split; cbn; try done; rq_lookup|rq_lookup..]).
Qed.

(** ** [rq_pop] *)

Record popped (c k p : nat) (rest : list nat) (s s' : pstate) : Prop := {
  po_frame : rq_frame s s';
  po_other : forall c', c' <> c -> runq s' !!! c' = runq s !!! c';
  po_dim : length (rq_head (runq s' !!! c)) = length (rq_head (runq s !!! c)) /\
           length (rq_tail (runq s' !!! c)) = length (rq_tail (runq s !!! c));
  po_head : forall k', rq_head (runq s' !!! c) !!! k' =
    if decide (k' = k) then p_rqnext (procs s !!! p) else rq_head (runq s !!! c) !!! k';
  po_tail : forall k', rq_tail (runq s' !!! c) !!! k' =
    if decide (k' = k /\ p_rqnext (procs s !!! p) = None) then None else rq_tail (runq s !!! c) !!! k';
  po_nready : nready (runq s' !!! c) = nready (runq s !!! c) + -1;
  po_next : forall i, i <> p -> p_rqnext (procs s' !!! i) = p_rqnext (procs s !!! i);
  po_cpu : forall i, p_rqcpu (procs s' !!! i) = p_rqcpu (procs s !!! i)
}.

Lemma popped_inv Q s c k p rest s' :
  rq_inv Q s -> (c < length (runq s))%nat -> (k < nprio)%nat -> Q c k = p :: rest ->
  popped c k p rest s s' -> rq_inv (upd_q Q c k rest) s'.
Proof.
  intros Hi Hc Hk EQ [Hf Ho [Hd1 Hd2] Hh Ht Hn Hnx Hcpu]. pose proof Hf as [_ _ _ _ Hnc _ _ _ Hnq Hnp _].
  assert (forall i, p_prio (procs s' !!! i) = p_prio (procs s !!! i)) as Epr
    by (intros i; apply rf_field; [erase_field|done]).
  assert (NoDup (p :: rest)) as Hnd by (rewrite <- EQ; apply Hi).
  apply NoDup_cons in Hnd as [Hpr Hnd].
  assert (forall c' k' x, x ∈ upd_q Q c k rest c' k' -> x ∈ Q c' k' /\ x <> p) as Hel.
  { intros c' k' x. unfold upd_q. case_decide as E.
    - destruct E as [-> ->]. rewrite EQ. set_solver.
    - intros Hx. split; [done|]. intros ->. apply E.
      eapply (rq_once _ _ Hi _ _ _ _ p); [exact Hx|rewrite EQ; set_solver]. }
  split; rewrite ?Hnc, ?Hnq, ?Hnp; [apply Hi|..].
  - intros c' Hc'. destruct (decide (c' = c)) as [->|Hne]; [|rewrite Ho by done]; [|by apply Hi].
    rewrite Hd1, Hd2. by apply Hi.
  - intros c' k' Hc' Hk'. destruct (rq_chain _ _ Hi c' k' Hc' Hk') as [Hch Htl].
    assert (forall h, chain (procs s) h (upd_q Q c k rest c' k') -> chain (procs s') h (upd_q Q c k rest c' k')) as Hfr.
    { intros h. apply chain_frame. intros x Hx. apply Hnx. apply Hel in Hx. tauto. }
    destruct (decide (c' = c /\ k' = k)) as [[-> ->]|Hne].
    + rewrite Hh, Ht, decide_True by done. rewrite upd_q_eq in *. rewrite EQ in *. cbn in Hch.
      destruct Hch as [_ Hch]. split; [by apply Hfr|]. destruct rest as [|y rest].
      * cbn in Hch. by rewrite decide_True.
      * cbn in Hch. destruct Hch as [Ey _]. rewrite decide_False by (rewrite Ey; naive_solver). done.
    + rewrite upd_q_ne in * by done. destruct (decide (c' = c)) as [->|Hcc].
      * rewrite Hh, Ht, decide_False by naive_solver. rewrite decide_False by naive_solver. auto.
      * rewrite Ho by done. auto.
  - intros c' Hc'. destruct (decide (c' = c)) as [->|Hne].
    + rewrite Hn, (rq_nready _ _ Hi) by done. pose proof (qall_length_upd Q c k rest Hk) as E.
      rewrite EQ in E. cbn in E. lia.
    + rewrite Ho, qall_ne by done. by apply Hi.
  - intros c' k'. destruct (decide (c' = c /\ k' = k)) as [[-> ->]|Hne]; [by rewrite upd_q_eq|].
    rewrite upd_q_ne by done. apply Hi.
  - intros c1 k1 c2 k2 x [H1 _]%Hel [H2 _]%Hel. by eapply (rq_once _ _ Hi).
  - intros c' k' x [Hx _]%Hel. rewrite Epr, Hcpu. by apply (rq_elem _ _ Hi).
Qed.

Lemma rq_pop_loop_wp Q s c n k (R : option nat -> pstate -> Prop) :
  rq_inv Q s -> (c < length (runq s))%nat -> (n + k = nprio)%nat -> (forall j, (j < k)%nat -> Q c j = []) ->
  (qall Q c = [] -> R None s) ->
  (forall p k rest s', Q c k = p :: rest -> (k < nprio)%nat -> (forall j, (j < k)%nat -> Q c j = []) ->
     rq_frame s s' -> rq_inv (upd_q Q c k rest) s' ->
     (forall i, p_rqcpu (procs s' !!! i) = p_rqcpu (procs s !!! i)) -> R (Some p) s') ->
  wp (rq_pop_loop c n k) R s.
Proof.
  intros Hi Hc. revert k. induction n as [|n IH]; intros k Hn Hlow H0 H1; cbn [rq_pop_loop].
  - apply wp_ret, H0. unfold qall. assert (forall l, (forall j, j ∈ l -> Q c j = []) -> concat (map (Q c) l) = []) as Hl.
    { induction l as [|j l IHl]; cbn; [done|]. intros Hj. rewrite Hj, IHl; set_solver. }
    apply Hl. intros j [_ Hj]%elem_of_seq. apply Hlow. lia.
  - assert (k < nprio)%nat as Hk by lia. destruct (rq_chain _ _ Hi c k Hc Hk) as [Hch Htl].
    destruct (rq_dim _ _ Hi c Hc) as [Hd1 Hd2].
    apply wp_bind, wp_gets. destruct (Q c k) as [|p rest] eqn:EQ; cbn in Hch.
    + rewrite Hch. apply IH; [lia| |done|done]. intros j Hj.
      destruct (decide (j = k)) as [->|]; [done|apply Hlow; lia].
    + destruct Hch as [-> Hch]. assert (p ∈ Q c k) as Hpq by (rewrite EQ; set_solver).
      destruct (rq_elem _ _ Hi _ _ _ Hpq) as (_ & _ & Hpl & _).
      match goal with |- wp ?m _ _ => enough (wp m (fun r s' => r = Some p /\ popped c k p rest s s') s) as Hwp end.
      { eapply wp_mono; [exact Hwp|]. intros r s' [-> Hpo]. eapply (H1 p k rest); try done.
        - apply Hpo.
        - by eapply popped_inv.
        - apply Hpo. }
      apply wp_bind, wp_gets, wp_bind, wp_modify, wp_bind, wp_gets. cbn [runq put_runq].
      rewrite list_lookup_total_alter_eq by done. cbn [rq_head set_head].
      rewrite list_lookup_total_insert_eq by (rewrite Hd1; done).
      apply wp_bind. destruct (p_rqnext (procs s !!! p)) as [q|] eqn:En;
        [apply wp_ret|apply wp_modify]; apply wp_bind, wp_modify, wp_bind, wp_modify, wp_ret;
        (split; [done|]; split; cbn [runq put_procs put_runq procs]; [split; cbn; try done; rq_lookup|rq_lookup..]).
Qed.

Lemma rq_pop_wp Q s c (R : option nat -> pstate -> Prop) :
  rq_inv Q s -> (c < length (runq s))%nat ->
  (qall Q c = [] -> R None s) ->
  (forall p k rest s', Q c k = p :: rest -> (k < nprio)%nat -> (forall j, (j < k)%nat -> Q c j = []) ->
     rq_frame s s' -> rq_inv (upd_q Q c k rest) s' ->
     (forall i, p_rqcpu (procs s' !!! i) = p_rqcpu (procs s !!! i)) -> R (Some p) s') ->
  wp (rq_pop c) R s.
Proof. intros Hi Hc. apply rq_pop_loop_wp; [done..|lia]. Qed.

(** ** Aging *)

Lemma qall_pop Q c k p rest :
  (k < nprio)%nat -> Q c k = p :: rest -> (forall j, (j < k)%nat -> Q c j = []) ->
  qall Q c = p :: qall (upd_q Q c k rest) c.
Proof.
  intros Hk EQ Hlow. unfold qall. change (seq 0 nprio) with [0; 1; 2; 3]%nat. cbn [map concat].
  destruct k as [|[|[|[|k]]]]; [..|change nprio with 4%nat in Hk; lia];
    rewrite EQ, upd_q_eq, !upd_q_ne by lia.
  - done.
  - by rewrite (Hlow 0%nat) by lia.
  - by rewrite (Hlow 0%nat), (Hlow 1%nat) by lia.
  - by rewrite (Hlow 0%nat), (Hlow 1%nat), (Hlow 2%nat) by lia.
Qed.

Lemma qall_nodup Q s c : rq_inv Q s -> NoDup (qall Q c).
Proof.
  intros Hi. unfold qall.
  assert (forall l, NoDup l -> NoDup (concat (map (Q c) l))) as Hl; [|apply Hl, NoDup_seq].
  induction l as [|k l IH]; cbn; [by intros; apply NoDup_nil|].
  intros [Hk Hl]%NoDup_cons. apply NoDup_app. split_and!; [apply Hi| |by apply IH].
  intros p Hp Hin. assert (exists j, j ∈ l /\ p ∈ Q c j) as (j & Hj & Hpj).
  { clear -Hin. induction l as [|j l IHl]; cbn in Hin; [set_solver|].
    apply elem_of_app in Hin as [Hin|Hin]; [exists j; set_solver|]. destruct (IHl Hin) as (j' & ? & ?).
    exists j'. set_solver. }
  destruct (rq_once _ _ Hi _ _ _ _ _ Hp Hpj) as [_ ->]. done.
Qed.

Lemma qall_bound Q s c : rq_inv Q s -> (length (qall Q c) <= length (procs s))%nat.
Proof.
  intros Hi. rewrite <- (length_seq (length (procs s)) 0). apply submseteq_length.
  apply NoDup_submseteq; [by eapply qall_nodup|]. intros p (k & _ & Hp)%qall_elem.
  apply (rq_elem _ _ Hi) in Hp as (_ & _ & Hp & _). apply elem_of_seq. lia.
Qed.

(** The queues of [c] emptied. *)
Definition clear_q (Q : queues) (c : nat) : queues := fun c' k => if decide (c' = c) then [] else Q c' k.

Lemma rq_inv_ext Q Q' s : (forall c k, Q' c k = Q c k) -> rq_inv Q s -> rq_inv Q' s.
Proof.
  intros He [H1 H2 H3 H4 H5 H6 H7].
  assert (forall c, qall Q' c = qall Q c) as Ha by (intros c; unfold qall; f_equal; apply map_ext; auto).
  split; try done; intros *; rewrite ?He, ?Ha; auto. apply H6.
Qed.

Lemma rq_empty_level Q s c k : rq_inv Q s -> (nprio <= k)%nat -> Q c k = [].
Proof.
  intros Hi Hk. destruct (Q c k) as [|p l] eqn:E; [done|exfalso].
  assert (p ∈ Q c k) as Hp by (rewrite E; set_solver). apply (rq_elem _ _ Hi) in Hp. lia.
Qed.

Lemma clear_q_empty Q s c : rq_inv Q s -> qall Q c = [] -> rq_inv (clear_q Q c) s.
Proof.
  intros Hi E. eapply rq_inv_ext; [|exact Hi]. intros c' k. unfold clear_q. case_decide as Ec; [|done]. subst c'.
  destruct (decide (k < nprio)%nat) as [Hk|Hk]; [|symmetry; eapply rq_empty_level; [exact Hi|lia]].
  destruct (Q c k) as [|p l] eqn:Eq; [done|]. assert (p ∈ qall Q c) as Hp.
  { apply qall_elem. exists k. rewrite Eq. split; [done|set_solver]. }
  rewrite E in Hp. set_solver.
Qed.

Lemma pop_all_wp n c Q s (R : list nat -> pstate -> Prop) :
  rq_inv Q s -> (c < length (runq s))%nat -> (length (qall Q c) <= n)%nat ->
  (forall s', rq_frame s s' -> rq_inv (clear_q Q c) s' ->
     (forall i, p_rqcpu (procs s' !!! i) = p_rqcpu (procs s !!! i)) -> R (qall Q c) s') ->
  wp (pop_all n c) R s.
Proof.
  revert Q s R. induction n as [|n IH]; intros Q s R Hi Hc Hn HR; cbn [pop_all].
  { destruct (qall Q c) eqn:E; [|cbn in Hn; lia]. apply wp_ret, HR; [done|by apply clear_q_empty|done]. }
  apply wp_bind. eapply rq_pop_wp; [exact Hi|done| |].
  - intros E. apply wp_ret. rewrite E in HR. apply HR; [done|by apply clear_q_empty|done].
  - intros p k rest s1 EQ Hk Hlow Hf Hi1 Hcpu. pose proof (qall_pop Q c k p rest Hk EQ Hlow) as Eall.
    rewrite Eall in Hn. cbn in Hn. apply wp_bind. eapply IH; [exact Hi1| |lia|].
    + by rewrite (rf_nq _ _ Hf).
    + intros s2 Hf2 Hi2 Hcpu2. apply wp_ret. rewrite Eall in HR. apply HR; [by trans s1| |].
      * eapply rq_inv_ext; [|exact Hi2]. intros c' k'. unfold clear_q. case_decide as Ec; [done|].
        rewrite upd_q_ne by naive_solver. done.
      * intros i. by rewrite Hcpu2.
Qed.

(** [s] with the processes [L] aged. *)
Definition age_state (e : Z) (L : list nat) (s : pstate) : pstate :=
  put_procs (imap (fun i p => if decide (i ∈ L) then age_proc e p else p) (procs s)) s.

Lemma age_state_lookup e L s i :
  (i < length (procs s))%nat ->
  procs (age_state e L s) !!! i = if decide (i ∈ L) then age_proc e (procs s !!! i) else procs s !!! i.
Proof.
  intros Hi. apply list_lookup_total_correct. cbn. rewrite list_lookup_imap.
  by rewrite (list_lookup_lookup_total_lt _ _ Hi).
Qed.

Lemma age_state_ge e L s i :
  (length (procs s) <= i)%nat -> procs (age_state e L s) !!! i = procs s !!! i.
Proof.
  intros Hi. rewrite !list_lookup_total_alt. cbn. rewrite list_lookup_imap.
  by rewrite lookup_ge_None_2.
Qed.

(** The level of process [p] once aged. *)
Definition aged_level (e : Z) (s : pstate) (p : nat) : nat := Z.to_nat (p_prio (age_proc e (procs s !!! p))).

Definition aged_q (e : Z) (s : pstate) (c : nat) (ps : list nat) (Q : queues) : queues := fun c' k =>
  if decide (c' = c) then Q c' k ++ filter (fun p => aged_level e s p = k) ps else Q c' k.

Lemma age_erase e p q : erase_q p = erase_q q -> erase_q (age_proc e p) = erase_q (age_proc e q).
Proof.
  intros E. apply erase_inj in E. rewrite E. unfold age_proc; cbn. by destruct (_ && _).
Qed.

Lemma age_prio e p k : p_prio p = Z.of_nat k -> (k < nprio)%nat ->
  exists k', p_prio (age_proc e p) = Z.of_nat k' /\ (k' <= k)%nat /\ (k' < nprio)%nat.
Proof.
  intros Hp Hk. unfold age_proc. cbn. destruct (_ && _) eqn:E; cbn.
  - exists (k - 1)%nat. zbool. lia.
  - exists k. lia.
Qed.

Lemma age_links e p : p_rqnext (age_proc e p) = p_rqnext p /\ p_rqcpu (age_proc e p) = p_rqcpu p.
Proof. unfold age_proc. cbn. by destruct (_ && _). Qed.

(** Changing a process outside the queues keeps them. *)
Lemma rq_inv_setp Q s p f :
  rq_inv Q s -> (forall c k, p ∉ Q c k) -> rq_inv Q (put_procs (alter f p (procs s)) s).
Proof.
  intros [H1 H2 H3 H4 H5 H6 H7] Hp.
  assert (forall c k x, x ∈ Q c k -> alter f p (procs s) !!! x = procs s !!! x) as Hx.
  { intros c k x Hx. apply list_lookup_total_alter_ne. intros <-. by apply (Hp c k). }
  split; cbn; rewrite ?length_alter; try done.
  - intros c k Hc Hk. destruct (H3 c k Hc Hk) as [Hch Ht]. split; [|done].
    eapply chain_frame; [|exact Hch]. intros x Hxq. by rewrite (Hx c k).
  - intros c k x Hxq. rewrite (Hx c k x Hxq). by apply H7.
Qed.

Lemma rq_frame_age e L s s' : rq_frame s s' -> rq_frame (age_state e L s) (age_state e L s').
Proof.
  intros [A1 A2 A3 A4 A5 A6 A7 A8 A9 A10 A11]. split; try done; [cbn; by rewrite !length_imap|].
  intros i. destruct (decide (i < length (procs s))%nat) as [Hi|Hi].
  - rewrite !age_state_lookup by congruence. case_decide; [by apply age_erase|done].
  - rewrite !age_state_ge by lia. done.
Qed.

Lemma age_state_cons e p L s :
  p ∉ L -> rq_frame (age_state e (p :: L) s) (age_state e L (put_procs (alter (age_proc e) p (procs s)) s)).
Proof.
  intros Hp. split; try done; [cbn; by rewrite !length_imap, length_alter|].
  intros i. destruct (decide (i < length (procs s))%nat) as [Hi|Hi].
  - rewrite !age_state_lookup by (cbn; rewrite ?length_alter; done). cbn.
    rewrite list_lookup_total_alter. repeat case_decide; set_solver.
  - rewrite !age_state_ge by (cbn; rewrite ?length_alter; lia). cbn.
    rewrite list_lookup_total_alter, decide_False by lia. done.
Qed.

Lemma age_push_wp c e ps Q s (R : unit -> pstate -> Prop) :
  rq_inv Q s -> (c < length (runq s))%nat -> NoDup ps -> (forall p, p ∈ ps -> forall c k, p ∉ Q c k) ->
  (forall p, p ∈ ps -> (p < length (procs s))%nat /\ 0 <= p_prio (procs s !!! p) < NPRIO) ->
  (forall s', rq_frame (age_state e ps s) s' -> rq_inv (aged_q e s c ps Q) s' ->
     (forall i, i ∉ ps -> p_rqcpu (procs s' !!! i) = p_rqcpu (procs s !!! i)) -> R tt s') ->
  wp (age_push c e ps) R s.
Proof.
  revert Q s R. induction ps as [|p ps IH]; intros Q s R Hi Hc Hnd Hnew Hok HR; cbn [age_push].
  { apply wp_ret, HR; [| |done].
    - split; try done; [cbn; by rewrite length_imap|]. intros i.
      destruct (decide (i < length (procs s))%nat); [rewrite age_state_lookup by done|rewrite age_state_ge by lia; done].
      by rewrite decide_False by set_solver.
    - eapply rq_inv_ext; [|exact Hi]. intros c' k. unfold aged_q. case_decide; [apply app_nil_r|done]. }
  apply NoDup_cons in Hnd as [Hp Hnd]. apply wp_bind, wp_modify.
  set (s1 := put_procs (alter (age_proc e) p (procs s)) s).
  destruct (Hok p ltac:(set_solver)) as [Hpl Hpr].
  assert (rq_inv Q s1) as Hi1 by (apply rq_inv_setp; [done|apply Hnew; set_solver]).
  assert (procs s1 !!! p = age_proc e (procs s !!! p)) as Ep by (by apply list_lookup_total_alter_eq).
  assert (forall i, i <> p -> procs s1 !!! i = procs s !!! i) as Eo by (intros i Hne; by apply list_lookup_total_alter_ne).
  destruct (age_prio e (procs s !!! p) (Z.to_nat (p_prio (procs s !!! p)))) as (k & Ek & _ & Hk).
  { rewrite Z2Nat.id; lia. } { change nprio with (Z.to_nat NPRIO). lia. }
  assert (aged_level e s p = k) as Elev by (unfold aged_level; rewrite Ek; apply Nat2Z.id).
  apply wp_bind. eapply (rq_push_wp Q s1 c k p); [done|done|by cbn; rewrite length_alter| |by rewrite Ep|done|].
  { intros c' k'. apply Hnew. set_solver. }
  intros s2 Hf2 Hi2 Hcpu2.
  assert (forall i, i ∈ ps -> erase_q (procs s2 !!! i) = erase_q (procs s !!! i)) as Ers.
  { intros i Hip. rewrite (rf_proc _ _ Hf2), Eo; [done|]. by intros ->. }
  assert (forall i, i ∈ ps -> p_prio (procs s2 !!! i) = p_prio (procs s !!! i)) as Epr2.
  { intros i Hip. specialize (Ers i Hip). apply erase_inj in Ers. rewrite Ers. done. }
  eapply (IH _ s2); [exact Hi2| |done| | |].
  - by rewrite (rf_nq _ _ Hf2).
  - intros q Hq c' k' Hin. unfold upd_q in Hin. case_decide as Ed; [|by apply (Hnew q ltac:(set_solver) c' k')].
    apply elem_of_app in Hin as [Hin| ->%list_elem_of_singleton]; [|done].
    destruct Ed as [-> ->]. by apply (Hnew q ltac:(set_solver) c k).
  - intros q Hq. rewrite (rf_np _ _ Hf2). cbn. rewrite length_alter, Epr2 by done. apply Hok. set_solver.
  - intros s3 Hf3 Hi3 Hcpu3. apply HR.
    + trans (age_state e ps s1); [by apply age_state_cons|]. trans (age_state e ps s2); [by apply rq_frame_age|done].
    + eapply rq_inv_ext; [|exact Hi3]. intros c' k'. unfold aged_q. case_decide as Ec; [subst c'|].
      * rewrite filter_cons. unfold upd_q. rewrite Elev.
        assert (filter (fun q => aged_level e s2 q = k') ps = filter (fun q => aged_level e s q = k') ps) as ->.
        { apply filter_ext_in. intros q Hq. unfold aged_level.
          pose proof (age_erase e _ _ (Ers q Hq)) as E. apply erase_inj in E. by rewrite E. }
        destruct (decide (k = k')) as [->|Hne].
        -- rewrite decide_True by done. by rewrite <- app_assoc.
        -- by rewrite decide_False by naive_solver.
      * rewrite upd_q_ne by naive_solver. done.
    + intros i Hip. apply not_elem_of_cons in Hip as [Hip1 Hip2]. rewrite Hcpu3, Hcpu2, Eo by done. done.
Qed.

Lemma age_state_app e L1 L2 s :
  (forall p, p ∈ L1 -> p ∉ L2) -> rq_frame (age_state e (L1 ++ L2) s) (age_state e L2 (age_state e L1 s)).
Proof.
  intros Hd. split; try done; [cbn; by rewrite !length_imap|].
  intros i. destruct (decide (i < length (procs s))%nat) as [Hi|Hi].
  - rewrite !age_state_lookup by (cbn; rewrite ?length_imap; done). repeat case_decide; set_solver.
  - rewrite !age_state_ge by (cbn; rewrite ?length_imap; lia). done.
Qed.

(** The queues after an aging pass over CPUs [c0..c0+n). *)
Definition aged_queues (e : Z) (s : pstate) (Q : queues) (c0 n : nat) : queues := fun c k =>
  if decide (c0 <= c < c0 + n)%nat then filter (fun p => aged_level e s p = k) (qall Q c) else Q c k.

Definition queued_on (Q : queues) (c0 n : nat) : list nat := concat (map (qall Q) (seq c0 n)).

Lemma queued_on_elem Q c0 n p : p ∈ queued_on Q c0 n <-> exists c, (c0 <= c < c0 + n)%nat /\ p ∈ qall Q c.
Proof.
  unfold queued_on. revert c0. induction n as [|n IH]; intros c0; cbn.
  - split; [set_solver|]. intros (c & ? & _). lia.
  - rewrite elem_of_app, IH. split.
    + intros [Hp|(c & ? & Hp)]; [exists c0; split; [lia|done]|exists c; split; [lia|done]].
    + intros (c & Hc & Hp). destruct (decide (c = c0)) as [->|]; [by left|right; exists c; split; [lia|done]].
Qed.

Lemma aged_level_erase e s s' p :
  erase_q (procs s' !!! p) = erase_q (procs s !!! p) -> aged_level e s' p = aged_level e s p.
Proof. intros E. unfold aged_level. apply (age_erase e), erase_inj in E. by rewrite E. Qed.

Lemma rq_age_loop_wp e n c0 Q s (R : unit -> pstate -> Prop) :
  rq_inv Q s -> (c0 + n <= length (runq s))%nat -> (length (procs s) <= nproc)%nat ->
  (forall s', rq_frame (age_state e (queued_on Q c0 n) s) s' -> rq_inv (aged_queues e s Q c0 n) s' -> R tt s') ->
  wp (rq_age_loop n c0 e) R s.
Proof.
  revert c0 Q s R. induction n as [|n IH]; intros c0 Q s R Hi Hc Hnp HR; cbn [rq_age_loop].
  { apply wp_ret, HR.
    - split; try done; [cbn; by rewrite length_imap|]. intros i.
      destruct (decide (i < length (procs s))%nat); [rewrite age_state_lookup by done|rewrite age_state_ge by lia; done].
      by rewrite decide_False by set_solver.
    - eapply rq_inv_ext; [|exact Hi]. intros c k. unfold aged_queues. by rewrite decide_False by lia. }
  apply wp_bind. eapply (pop_all_wp nproc c0 Q s); [done|lia|pose proof (qall_bound Q s c0 Hi); lia|].
  intros s1 Hf1 Hi1 _. set (L := qall Q c0).
  assert (forall p, p ∈ L -> (p < length (procs s))%nat /\ 0 <= p_prio (procs s !!! p) < NPRIO) as HL.
  { intros p (k & Hk & Hp)%qall_elem. destruct (rq_elem _ _ Hi _ _ _ Hp) as (_ & _ & ? & -> & _).
    split; [done|]. change nprio with 4%nat in Hk. unfold NPRIO. lia. }
  assert (forall i, p_prio (procs s1 !!! i) = p_prio (procs s !!! i)) as Epr1
    by (intros i; apply rf_field; [erase_field|done]).
  apply wp_bind. eapply (age_push_wp c0 e L (clear_q Q c0) s1); [done|rewrite (rf_nq _ _ Hf1); lia|by eapply qall_nodup| | |].
  { intros p (k & Hk & Hp)%qall_elem c' k' Hp'. unfold clear_q in Hp'. case_decide as Ec; [set_solver|].
    apply Ec. by destruct (rq_once _ _ Hi _ _ _ _ _ Hp Hp') as [-> _]. }
  { intros p Hp. rewrite (rf_np _ _ Hf1), Epr1. by apply HL. }
  intros s2 Hf2 Hi2 _. set (Q2 := aged_q e s1 c0 L (clear_q Q c0)) in *.
  assert (forall c k, c <> c0 -> Q2 c k = Q c k) as EQ2.
  { intros c k Hne. unfold Q2, aged_q, clear_q. by rewrite !decide_False by done. }
  assert (forall c, c <> c0 -> qall Q2 c = qall Q c) as Eall.
  { intros c Hne. unfold qall. f_equal. apply map_ext. intros k. by apply EQ2. }
  assert (rq_frame (age_state e L s) s2) as Hf02 by (trans (age_state e L s1); [by apply rq_frame_age|done]).
  assert (queued_on Q2 (S c0) n = queued_on Q (S c0) n) as Eqo.
  { unfold queued_on. f_equal. apply map_ext_in. intros c Hin. apply in_seq in Hin. apply Eall. lia. }
  assert (forall p, p ∈ L -> p ∉ queued_on Q (S c0) n) as Hdis.
  { intros p (k & _ & Hp)%qall_elem (c & Hc' & (k' & _ & Hp')%qall_elem)%queued_on_elem.
    destruct (rq_once _ _ Hi _ _ _ _ _ Hp Hp') as [-> _]. lia. }
  eapply (IH (S c0) Q2 s2); [exact Hi2| | |].
  - rewrite (rf_nq _ _ Hf02). cbn. lia.
  - rewrite (rf_np _ _ Hf02). cbn. by rewrite length_imap.
  - intros s3 Hf3 Hi3. rewrite Eqo in Hf3. apply HR.
    + trans (age_state e (queued_on Q (S c0) n) (age_state e L s)); [by apply age_state_app|].
      trans (age_state e (queued_on Q (S c0) n) s2); [by apply rq_frame_age|done].
    + eapply rq_inv_ext; [|exact Hi3]. intros c k. unfold aged_queues.
      destruct (decide (c = c0)) as [->|Hne].
      * rewrite decide_True, decide_False by lia. unfold Q2, aged_q, clear_q. rewrite !decide_True by done.
        cbn. apply filter_ext_in. intros p Hp. by rewrite (aged_level_erase e s s1) by apply (rf_proc _ _ Hf1).
      * destruct (decide (c0 <= c < c0 + S n)%nat); [rewrite decide_True by lia|rewrite decide_False by lia; by rewrite EQ2].
        rewrite Eall by done. apply filter_ext_in. intros p Hp. rewrite (aged_level_erase e s s2); [done|].
        rewrite (rf_proc _ _ Hf02). f_equal. apply qall_elem in Hp as (k' & _ & Hp).
        destruct (rq_elem _ _ Hi _ _ _ Hp) as (_ & _ & Hpl & _). rewrite age_state_lookup by done.
        rewrite decide_False; [done|]. intros (k2 & _ & Hp2)%qall_elem.
        by destruct (rq_once _ _ Hi _ _ _ _ _ Hp Hp2).
Qed.

Lemma rq_age_wp e Q s (R : unit -> pstate -> Prop) :
  rq_inv Q s -> (length (procs s) <= nproc)%nat ->
  (forall s', rq_frame (age_state e (queued_on Q 0 (ncpu s)) s) s' ->
     rq_inv (aged_queues e s Q 0 (ncpu s)) s' -> R tt s') ->
  wp (rq_age e) R s.
Proof.
  intros Hi Hnp HR. apply wp_bind, wp_gets. eapply rq_age_loop_wp; [done|apply Hi|done|done].
Qed.

(** ** The abstract scheduler queue *)

(** What can happen to the queues: a process that is not queued is appended at
    its level; the first process of the first non-empty level of a CPU is taken;
    an aging pass moves processes to higher levels (smaller numbers) of their
    CPU, keeping their order.  The label is the process taken and its CPU. *)
Inductive qstep : queues -> option (nat * nat) -> queues -> Prop :=
  | qs_push Q c k p :
      (k < nprio)%nat -> (forall c' k', p ∉ Q c' k') -> qstep Q None (upd_q Q c k (Q c k ++ [p]))
  | qs_pop Q c k p rest :
      (k < nprio)%nat -> Q c k = p :: rest -> (forall j, (j < k)%nat -> Q c j = []) ->
      qstep Q (Some (c, p)) (upd_q Q c k rest)
  | qs_age Q n lev :
      (forall c k p, p ∈ Q c k -> (lev p <= k)%nat) ->
      qstep Q None (fun c k => if decide (c < n)%nat then filter (fun p => lev p = k) (qall Q c) else Q c k).

(** Sequences of steps, with the processes taken. *)
Inductive qtrace : queues -> list (nat * nat) -> queues -> Prop :=
  | qt_nil Q : qtrace Q [] Q
  | qt_step Q Q1 Q2 o l : qstep Q o Q1 -> qtrace Q1 l Q2 -> qtrace Q (option_list o ++ l) Q2.

(** Number of processes taken from CPU [c]. *)
Definition taken (c : nat) (l : list (nat * nat)) : nat := length (filter (fun x => x.1 = c) l).

Lemma taken_some c c' q : taken c (option_list (Some (c', q))) = if decide (c' = c) then 1%nat else 0%nat.
Proof.
  unfold taken. change (option_list (Some (c', q))) with [(c', q)]. rewrite filter_cons. cbn [fst]. destruct (decide (c' = c)); done.
Qed.

Lemma qstep_level0 c Q o Q' l1 p l2 :
  qstep Q o Q' -> Q c 0%nat = l1 ++ p :: l2 ->
  (o = Some (c, p)) \/
  (exists l1' l2', Q' c 0%nat = l1' ++ p :: l2' /\ (length l1' + taken c (option_list o) <= length l1)%nat).
Proof.
  intros Hs E. destruct Hs as [Q c' k q Hk Hq|Q c' k q rest Hk EQ Hlow|Q n lev Hlev].
  - right. destruct (decide (c = c' /\ 0%nat = k)) as [[-> <-]|Hne].
    + rewrite upd_q_eq, E. exists l1, (l2 ++ [q]). rewrite <- app_assoc. cbn. split; [done|lia].
    + rewrite upd_q_ne by done. exists l1, l2. cbn. split; [done|lia].
  - destruct (decide (c' = c)) as [->|Hc].
    2:{ right. exists l1, l2. rewrite upd_q_ne by naive_solver. split; [done|].
        rewrite taken_some, decide_False by done. lia. }
    destruct k as [|k]; [|rewrite Hlow in E by lia; by destruct l1].
    rewrite E in EQ. destruct l1 as [|x l1]; [left; by injection EQ as -> _|right].
    injection EQ as -> <-. exists l1, l2. rewrite upd_q_eq. split; [done|].
    rewrite taken_some, decide_True by done. cbn. lia.
  - right. case_decide; [|exists l1, l2; cbn; split; [done|lia]].
    unfold qall. change (seq 0 nprio) with [0; 1; 2; 3]%nat. cbn [map concat]. rewrite filter_app, E.
    assert (filter (fun q => lev q = 0%nat) (l1 ++ p :: l2) = l1 ++ p :: l2) as ->.
    { rewrite <- E. apply filter_all. intros q Hq. apply Hlev in Hq. lia. }
    rewrite <- app_assoc. cbn [app]. eexists l1, _. split; [done|cbn; lia].
Qed.

(** Bounded waiting at the top level. *)
Lemma qtrace_level0 c p Q l Q' l1 l2 :
  qtrace Q l Q' -> Q c 0%nat = l1 ++ p :: l2 ->
  (c, p) ∈ l \/
  (exists l1' l2', Q' c 0%nat = l1' ++ p :: l2' /\ (length l1' + taken c l <= length l1)%nat).
Proof.
  intros Ht. revert l1 l2. induction Ht as [Q|Q Q1 Q2 o l Hs Ht IH]; intros l1 l2 E.
  - right. exists l1, l2. cbn. split; [done|lia].
  - destruct (qstep_level0 c Q o Q1 l1 p l2 Hs E) as [->|(l1' & l2' & E' & Hle)]; [left; cbn; set_solver|].
    destruct (IH l1' l2' E') as [Hin|(l1'' & l2'' & E'' & Hle')]; [left; set_solver|right].
    exists l1'', l2''. split; [done|]. unfold taken in *. rewrite filter_app, length_app. lia.
Qed.

(** ** The theorems *)

(** [rq_push] implements appending to a FIFO: a process that is on no queue and
    has a valid priority is added at the end of its level of the given CPU, and
    nothing else of the system changes. *)
Theorem rq_push_refines Q s c k p :
  rq_inv Q s -> (c < length (runq s))%nat -> (p < length (procs s))%nat ->
  (forall c' k', p ∉ Q c' k') -> p_prio (procs s !!! p) = Z.of_nat k -> (k < nprio)%nat ->
  wp (rq_push c p) (fun _ s' => let Q' := upd_q Q c k (Q c k ++ [p]) in
    qstep Q None Q' /\ rq_inv Q' s' /\ rq_frame s s') s.
Proof.
  intros Hi Hc Hp Hnew Hprio Hk. eapply rq_push_wp; [done..|]. intros s' Hf Hi' _.
  split_and!; [by apply qs_push|done|done].
Qed.

(** [rq_pop] implements taking the process to run next: it returns the first
    process of the CPU's queues in priority order (none if they are all empty),
    which then hold the rest in the same order. *)
Theorem rq_pop_refines Q s c :
  rq_inv Q s -> (c < length (runq s))%nat ->
  wp (rq_pop c) (fun r s' => r = head (qall Q c) /\
    match r with
    | None => s' = s
    | Some p => exists Q', qstep Q (Some (c, p)) Q' /\ rq_inv Q' s' /\ rq_frame s s' /\
                  qall Q' c = tail (qall Q c) /\ forall c', c' <> c -> qall Q' c' = qall Q c'
    end) s.
Proof.
  intros Hi Hc. eapply rq_pop_wp; [done|done|intros ->; done|].
  intros p k rest s' EQ Hk Hlow Hf Hi' _. pose proof (qall_pop Q c k p rest Hk EQ Hlow) as E.
  rewrite E. split; [done|]. exists (upd_q Q c k rest).
  split_and!; [by apply qs_pop|done|done|done|intros; by apply qall_ne].
Qed.

Lemma aged_level_le e Q s c k p : rq_inv Q s -> p ∈ Q c k -> (aged_level e s p <= k)%nat.
Proof.
  intros Hi Hp. destruct (rq_elem _ _ Hi _ _ _ Hp) as (_ & Hk & _ & Hpr & _).
  destruct (age_prio e _ k Hpr Hk) as (k' & E & Hle & _). unfold aged_level. rewrite E. lia.
Qed.

(** Whether an aging pass after [e] ticks is to raise the process. *)
Definition due (e : Z) (x : proc) : Prop := AGING_TICKS <= s32 (p_waited x + e) /\ 0 < p_prio x.

(** What the pass does to a process that waits: one that is due goes up one level and
    starts waiting anew, any other has waited longer; only the links change besides. *)
Record aged (e : Z) (x x' : proc) : Prop := {
  ag_due : due e x -> p_prio x' = p_prio x - 1 /\ p_waited x' = 0;
  ag_wait : ~ due e x -> p_prio x' = p_prio x /\ p_waited x' = s32 (p_waited x + e);
  ag_rest : erase_q x' = erase_q (set_waited (p_waited x') (set_prio (p_prio x') x))
}.

Lemma age_proc_aged e x x' : erase_q x' = erase_q (age_proc e x) -> aged e x x'.
Proof.
  intros E. pose proof (erase_inj _ _ E) as Ex. unfold age_proc in Ex. cbn [p_waited set_waited] in Ex.
  destruct ((AGING_TICKS <=? s32 (p_waited x + e)) && (0 <? p_prio (set_waited (s32 (p_waited x + e)) x))) eqn:Ed; cbn in Ed.
  - zbool. split; [by intros _; rewrite Ex|by intros []|rewrite Ex; by destruct x].
  - split; [|by intros _; rewrite Ex|rewrite Ex; by destruct x]. intros [H1 H2]. apply andb_false_iff in Ed as [?|?]; zbool; lia.
Qed.

Lemma aged_level_prio e s s' p :
  erase_q (procs s' !!! p) = erase_q (age_proc e (procs s !!! p)) -> 0 <= p_prio (procs s' !!! p) ->
  forall k, aged_level e s p = k <-> p_prio (procs s' !!! p) = Z.of_nat k.
Proof.
  intros E H0 k. assert (p_prio (procs s' !!! p) = p_prio (age_proc e (procs s !!! p))) as Ep.
  { apply erase_inj in E. by rewrite E. }
  unfold aged_level. rewrite <- Ep. lia.
Qed.

(** C32. An aging pass loses and duplicates no process.  Each process that waits on a
    queue has its waiting time increased by the ticks since the last pass; if that
    makes [AGING_TICKS] or more and the process is not at the top, it goes up exactly
    one level and its waiting time restarts at 0.  Every queue then holds the
    processes of its CPU that have its priority, in the order in which they would
    have run before the pass.  Nothing else changes. *)
Theorem rq_age_refines e Q s :
  rq_inv Q s -> (length (procs s) <= nproc)%nat ->
  wp (rq_age e) (fun _ s' => exists Q', rq_inv Q' s' /\
    (forall p, p ∈ queued_on Q 0 (ncpu s) -> aged e (procs s !!! p) (procs s' !!! p)) /\
    (forall p, p ∉ queued_on Q 0 (ncpu s) -> erase_q (procs s' !!! p) = erase_q (procs s !!! p)) /\
    (forall c k, (c < ncpu s)%nat -> Q' c k = filter (fun p => p_prio (procs s' !!! p) = Z.of_nat k) (qall Q c)) /\
    (forall c k, (ncpu s <= c)%nat -> Q' c k = Q c k) /\
    (forall p, p ∈ queued_on Q' 0 (ncpu s) <-> p ∈ queued_on Q 0 (ncpu s)) /\
    rq_frame (put_procs (procs s') s) s') s.
Proof.
  intros Hi Hnp. eapply rq_age_wp; [done|done|]. intros s' Hf Hi'. set (L := queued_on Q 0 (ncpu s)) in *.
  assert (forall p, p ∈ L -> erase_q (procs s' !!! p) = erase_q (age_proc e (procs s !!! p))) as HL.
  { intros p Hp. rewrite (rf_proc _ _ Hf p). pose proof Hp as (c & _ & (k & _ & Hk)%qall_elem)%queued_on_elem.
    destruct (rq_elem _ _ Hi _ _ _ Hk) as (_ & _ & Hpl & _). by rewrite age_state_lookup, decide_True. }
  set (Q' := aged_queues e s Q 0 (ncpu s)) in *.
  assert (forall p, p ∈ queued_on Q' 0 (ncpu s) <-> p ∈ L) as Hsame.
  { intros p. unfold L. rewrite !queued_on_elem. split; intros (c & Hc & Hp); exists c; (split; [done|]).
    - apply qall_elem in Hp as (k & _ & Hp). unfold Q', aged_queues in Hp. rewrite decide_True in Hp by lia.
      by apply list_elem_of_filter in Hp as [_ Hp].
    - pose proof Hp as (k & _ & Hk)%qall_elem. pose proof (aged_level_le e Q s c k p Hi Hk).
      apply qall_elem. exists (aged_level e s p). destruct (rq_elem _ _ Hi _ _ _ Hk) as (_ & ? & _).
      split; [lia|]. unfold Q', aged_queues. rewrite decide_True by lia. by apply list_elem_of_filter. }
  assert (forall p, p ∈ L -> 0 <= p_prio (procs s' !!! p)) as H0.
  { intros p (c & _ & (k & _ & Hk)%qall_elem)%Hsame%queued_on_elem. destruct (rq_elem _ _ Hi' _ _ _ Hk) as (_ & _ & _ & -> & _). lia. }
  exists Q'. split_and!; [done| | | | |done|].
  - intros p Hp. by apply age_proc_aged, HL.
  - intros p Hp. rewrite (rf_proc _ _ Hf p). destruct (decide (p < length (procs s))%nat); [|by rewrite age_state_ge by lia].
    by rewrite age_state_lookup, decide_False.
  - intros c k Hc. unfold Q', aged_queues. rewrite decide_True by lia. apply filter_ext_in. intros p Hp.
    assert (p ∈ L) as HpL by (apply queued_on_elem; exists c; split; [lia|done]). by apply aged_level_prio; [apply HL|apply H0].
  - intros c k Hc. unfold Q', aged_queues. by rewrite decide_False by lia.
  - destruct Hf as [A1 A2 A3 A4 A5 A6 A7 A8 A9 A10 A11]. by split.
Qed.

(** *** Bounded waiting *)

(** What happens to the queues while the kernel runs: processes are queued, taken and
    aged by the code above, one at a time under ptable.lock; the rest of the kernel
    changes processes, but of those that are queued neither priority nor links.  The
    label is the process taken, with the CPU whose queue it was taken from. *)
Definition on_queue (p : nat) (s : pstate) : Prop := exists Q c k, rq_inv Q s /\ p ∈ Q c k.

Definition took (c : nat) (r : option nat) : list (nat * nat) := match r with Some q => [(c, q)] | None => [] end.

Inductive rq_step : pstate -> list (nat * nat) -> pstate -> Prop :=
  | rs_push c p s s' :
      (c < length (runq s))%nat -> (p < length (procs s))%nat -> 0 <= p_prio (procs s !!! p) < NPRIO -> ~ on_queue p s ->
      rq_push c p s = Ok tt s' -> rq_step s [] s'
  | rs_pop c r s s' : (c < length (runq s))%nat -> rq_pop c s = Ok r s' -> rq_step s (took c r) s'
  | rs_steal self r s s' :
      rq_steal self s = Ok r s' -> rq_step s (match r with Some q => took (p_rqcpu (procs s !!! q)) r | None => [] end) s'
  | rs_age e s s' : (length (procs s) <= nproc)%nat -> rq_age e s = Ok tt s' -> rq_step s [] s'
  | rs_other s s' :
      runq s' = runq s -> ncpu s' = ncpu s -> length (procs s') = length (procs s) ->
      (forall p, on_queue p s -> p_prio (procs s' !!! p) = p_prio (procs s !!! p) /\
         p_rqnext (procs s' !!! p) = p_rqnext (procs s !!! p) /\ p_rqcpu (procs s' !!! p) = p_rqcpu (procs s !!! p)) ->
      rq_step s [] s'.

Inductive rq_run : pstate -> list (nat * nat) -> pstate -> Prop :=
  | rr_nil s : rq_run s [] s
  | rr_step s l1 s1 l2 s2 : rq_step s l1 s1 -> rq_run s1 l2 s2 -> rq_run s (l1 ++ l2) s2.

Lemma wp_run {A} (m : M pstate A) (R : A -> pstate -> Prop) s a s' : wp m R s -> m s = Ok a s' -> R a s'.
Proof. unfold wp. by intros H E; rewrite E in H. Qed.

Lemma rq_inv_other Q s s' :
  rq_inv Q s -> runq s' = runq s -> ncpu s' = ncpu s -> length (procs s') = length (procs s) ->
  (forall c k p, p ∈ Q c k -> p_prio (procs s' !!! p) = p_prio (procs s !!! p) /\
     p_rqnext (procs s' !!! p) = p_rqnext (procs s !!! p) /\ p_rqcpu (procs s' !!! p) = p_rqcpu (procs s !!! p)) ->
  rq_inv Q s'.
Proof.
  intros [H1 H2 H3 H4 H5 H6 H7] Eq Ec El Hp. split; rewrite ?Eq, ?Ec, ?El; try done.
  - intros c k Hc Hk. destruct (H3 c k Hc Hk) as [Hch Ht]. split; [|done]. eapply chain_frame; [|exact Hch]. intros x Hx. by apply (Hp c k).
  - intros c k p Hin. destruct (Hp c k p Hin) as (-> & _ & ->). by apply H7.
Qed.

Lemma qtrace_one Q o Q' : qstep Q o Q' -> qtrace Q (option_list o) Q'.
Proof. intros H. rewrite <- (app_nil_r (option_list o)). econstructor; [done|constructor]. Qed.

Lemma rq_pop_sim Q s c r s' :
  rq_inv Q s -> (c < length (runq s))%nat -> rq_pop c s = Ok r s' ->
  exists Q', rq_inv Q' s' /\ qtrace Q (took c r) Q' /\ forall q, r = Some q -> p_rqcpu (procs s !!! q) = c.
Proof.
  intros Hi Hc. apply (wp_run (rq_pop c) (fun r s' => exists Q', rq_inv Q' s' /\ qtrace Q (took c r) Q' /\ forall q, r = Some q -> p_rqcpu (procs s !!! q) = c)).
  eapply rq_pop_wp; [done|done| |].
  - intros _. exists Q. split; [done|]. split; [constructor|done].
  - intros p k rest s1 EQ Hk Hlow _ Hi1 _. exists (upd_q Q c k rest). split; [done|]. split.
    + apply (qtrace_one _ (Some (c, p))). by apply qs_pop.
    + intros q [= <-]. by apply (rq_elem _ _ Hi c k p); rewrite EQ; left.
Qed.

Lemma rq_steal_loop_wp n i self best bestn s (R : option nat -> pstate -> Prop) :
  (forall b, best = Some b -> (b < i)%nat) -> (forall b, (forall x, b = Some x -> (x < i + n)%nat) -> R b s) ->
  wp (rq_steal_loop n i self best bestn) R s.
Proof.
  revert i best bestn. induction n as [|n IH]; intros i best bestn Hb HR; cbn [rq_steal_loop].
  - apply wp_ret, HR. intros x Hx. rewrite Nat.add_0_r. by apply Hb.
  - assert (forall b, (forall x, b = Some x -> (x < S i + n)%nat) -> R b s) as HR'
      by (intros b Hx; apply HR; intros x E; specialize (Hx x E); lia).
    assert (forall b, best = Some b -> (b < S i)%nat) as Hb' by (intros b E; specialize (Hb b E); lia).
    destruct (bool_decide (i = self)); [by apply IH|]. apply wp_bind, wp_gets.
    destruct (bestn <? nready (runq s !!! i)); apply IH; try done. intros b [= <-]. lia.
Qed.

Lemma rq_steal_pop self s r s' :
  rq_steal self s = Ok r s' -> (r = None /\ s' = s) \/ exists b, (b < ncpu s)%nat /\ rq_pop b s = Ok r s'.
Proof.
  unfold rq_steal, bind at 1, gets. cbn [obind]. unfold bind.
  assert (exists b, rq_steal_loop (ncpu s) 0 self None 1 s = Ok b s /\ forall x, b = Some x -> (x < ncpu s)%nat) as (b & -> & Hb).
  { assert (wp (rq_steal_loop (ncpu s) 0 self None 1) (fun b s1 => s1 = s /\ forall x, b = Some x -> (x < ncpu s)%nat) s) as (b & s1 & E & -> & Hb)%wp_ok; [|by exists b].
    apply rq_steal_loop_wp; [done|]. auto. }
  cbn [obind]. destruct b as [b|]; [right; exists b; auto|]. intros [= <- <-]. by left.
Qed.

Lemma rq_age_sim e Q s s' :
  rq_inv Q s -> (length (procs s) <= nproc)%nat -> rq_age e s = Ok tt s' -> exists Q', rq_inv Q' s' /\ qtrace Q [] Q'.
Proof.
  intros Hi Hnp. apply (wp_run (rq_age e) (fun _ s' => exists Q', rq_inv Q' s' /\ qtrace Q [] Q')). eapply rq_age_wp; [done|done|].
  intros s1 _ Hi1. eexists. split; [eapply rq_inv_ext; [|exact Hi1]|apply (qtrace_one _ None), (qs_age Q (ncpu s) (aged_level e s))].
  - intros c k. unfold aged_queues. destruct (decide (c < ncpu s)%nat); [rewrite decide_True by lia|rewrite decide_False by lia]; done.
  - intros c k p Hp. by eapply aged_level_le.
Qed.

(** The code does nothing to the queues but what the abstract steps do. *)
Lemma rq_step_sim Q s l s' : rq_inv Q s -> rq_step s l s' -> exists Q', rq_inv Q' s' /\ qtrace Q l Q'.
Proof.
  intros Hi Hs. destruct Hs as [c p s s' Hc Hp Hpr Hoff E|c r s s' Hc E|self r s s' E|e s s' Hnp E|s s' E1 E2 E3 Hq].
  - assert (forall c' k', p ∉ Q c' k') as Hno by (intros c' k' Hin; apply Hoff; by exists Q, c', k').
    revert E. apply (wp_run (rq_push c p) (fun _ s' => exists Q', rq_inv Q' s' /\ qtrace Q [] Q')).
    assert (Z.to_nat (p_prio (procs s !!! p)) < nprio)%nat as Hk by (change nprio with (Z.to_nat NPRIO); lia).
    eapply (rq_push_wp Q s c (Z.to_nat (p_prio (procs s !!! p))) p); [done|done|done|done|lia|done|]. intros s1 _ Hi1 _.
    eexists. split; [exact Hi1|]. apply (qtrace_one _ None). by apply qs_push.
  - destruct (rq_pop_sim Q s c r s' Hi Hc E) as (Q' & H1 & H2 & _). eauto.
  - destruct (rq_steal_pop self s r s' E) as [[-> ->]|(b & Hb & E')]; [exists Q; split; [done|constructor]|].
    pose proof (rq_ncpu _ _ Hi) as Hnc. destruct (rq_pop_sim Q s b r s' Hi ltac:(lia) E') as (Q' & H1 & H2 & H3).
    exists Q'. split; [done|]. destruct r as [q|]; [|done]. by rewrite (H3 q eq_refl).
  - by eapply rq_age_sim.
  - exists Q. split; [|constructor]. eapply rq_inv_other; [done..|]. intros c k p Hp. apply Hq. by exists Q, c, k.
Qed.

Lemma qtrace_app Q l1 Q1 l2 Q2 : qtrace Q l1 Q1 -> qtrace Q1 l2 Q2 -> qtrace Q (l1 ++ l2) Q2.
Proof. intros H1 H2. induction H1 as [|Q Q1' Q2' o l Hs Ht IH]; [done|]. rewrite <- app_assoc. econstructor; [done|]. by apply IH. Qed.

Lemma rq_run_sim Q s l s' : rq_inv Q s -> rq_run s l s' -> exists Q', rq_inv Q' s' /\ qtrace Q l Q'.
Proof.
  intros Hi Hr. revert Q Hi. induction Hr as [s|s l1 s1 l2 s2 Hs Hr IH]; intros Q Hi; [exists Q; split; [done|constructor]|].
  destruct (rq_step_sim Q s l1 s1 Hi Hs) as (Q1 & Hi1 & Ht1). destruct (IH Q1 Hi1) as (Q2 & Hi2 & Ht2).
  exists Q2. split; [done|]. by eapply qtrace_app.
Qed.

(** C33. No overtaking at the top: let [p] be queued at the top level of CPU [c] behind
    the processes [l1].  After any sequence of calls of rq_push, rq_pop, rq_steal and
    rq_age, for this CPU or others, in between changes of the process table by the
    rest of the kernel, either [p] has been taken from [c], or at most [length l1]
    processes have been, and the next rq_pop of [c] returns a process.  So [p] is
    among the first [length l1 + 1] processes taken from [c]. *)
Theorem top_level_bounded_wait Q s l s' c p l1 l2 :
  rq_inv Q s -> Q c 0%nat = l1 ++ p :: l2 -> rq_run s l s' ->
  (c, p) ∈ l \/ (taken c l <= length l1)%nat /\ wp (rq_pop c) (fun r _ => is_Some r) s'.
Proof.
  intros Hi E Hr. destruct (rq_run_sim Q s l s' Hi Hr) as (Q' & Hi' & Ht).
  destruct (qtrace_level0 c p Q l Q' l1 l2 Ht E) as [|(l1' & l2' & E' & Hle)]; [by left|right]. split; [lia|].
  assert (p ∈ Q' c 0%nat) as Hp by (rewrite E'; set_solver). destruct (rq_elem _ _ Hi' _ _ _ Hp) as (Hc & Hk & _).
  eapply rq_pop_wp; [exact Hi'|done| |by eauto]. intros Hnil. exfalso.
  assert (p ∈ qall Q' c) as Ha by (apply qall_elem; eauto). rewrite Hnil in Ha. by apply not_elem_of_nil in Ha.
Qed.

(** *** Aging reaches the top *)

Fixpoint age_passes (es : list Z) : M pstate unit :=
  match es with
  | [] => ret tt
  | e :: es => rq_age e ;;; age_passes es
  end.

(** Aging passes needed by a process at level [k] that has waited [w]. *)
Definition passes_left (k : nat) (w : Z) : nat := (2 * k - (if (AGING_INTERVAL <=? w)%Z then 1 else 0))%nat.

Lemma age_proc_progress e p k :
  p_prio p = Z.of_nat (S k) -> 0 <= p_waited p < AGING_TICKS -> AGING_INTERVAL <= e < 2 ^ 30 ->
  (p_prio (age_proc e p) = Z.of_nat k /\ p_waited (age_proc e p) = 0) \/
  (p_prio (age_proc e p) = Z.of_nat (S k) /\ p_waited p < AGING_INTERVAL /\
   AGING_INTERVAL <= p_waited (age_proc e p) < AGING_TICKS).
Proof.
  unfold AGING_TICKS, AGING_INTERVAL. intros Hp Hw He. unfold age_proc. cbn. rewrite s32_small by lia.
  unfold AGING_TICKS. rewrite (proj2 (Z.ltb_lt 0 (p_prio p))) by lia. rewrite andb_true_r.
  destruct (10 <=? p_waited p + e) eqn:E; cbn; zbool; [left|right]; lia.
Qed.

Lemma aged_queue_pos e Q s c k p :
  rq_inv Q s -> (c < ncpu s)%nat -> p ∈ Q c k ->
  p ∈ aged_queues e s Q 0 (ncpu s) c (aged_level e s p) /\ p ∈ queued_on Q 0 (ncpu s).
Proof.
  intros Hi Hc Hp. destruct (rq_elem _ _ Hi _ _ _ Hp) as (_ & Hk & _).
  assert (p ∈ qall Q c) as Ha by (apply qall_elem; eauto). split.
  - unfold aged_queues. rewrite decide_True by lia. by apply list_elem_of_filter.
  - apply queued_on_elem. exists c. split; [lia|done].
Qed.

Lemma age_passes_wp es Q s c k p (R : unit -> pstate -> Prop) :
  rq_inv Q s -> (length (procs s) <= nproc)%nat -> (c < ncpu s)%nat -> p ∈ Q c k ->
  0 <= p_waited (procs s !!! p) < AGING_TICKS \/ k = 0%nat ->
  (forall e, e ∈ es -> AGING_INTERVAL <= e < 2 ^ 30) ->
  (passes_left k (p_waited (procs s !!! p)) <= length es)%nat ->
  (forall Q' s', rq_inv Q' s' -> p ∈ Q' c 0%nat -> R tt s') ->
  wp (age_passes es) R s.
Proof.
  revert Q s k. induction es as [|e es IH]; intros Q s k Hi Hnp Hc Hp Hw He Hlen HR; cbn [age_passes].
  - apply wp_ret, (HR Q); [done|]. assert (k = 0%nat) as <-; [|done].
    unfold passes_left in Hlen. cbn in Hlen. destruct (_ <=? _); lia.
  - destruct (rq_elem _ _ Hi _ _ _ Hp) as (_ & Hk & Hpl & Hpr & _).
    destruct (aged_queue_pos e Q s c k p Hi Hc Hp) as [Hp' Hqd].
    apply wp_bind. eapply rq_age_wp; [done|done|]. intros s1 Hf Hi1.
    pose proof (rf_proc _ _ Hf p) as Ep. rewrite age_state_lookup, decide_True in Ep by done.
    apply erase_inj in Ep.
    assert (p_waited (procs s1 !!! p) = p_waited (age_proc e (procs s !!! p))) as Ew by (by rewrite Ep).
    eapply (IH _ s1 (aged_level e s p)); [exact Hi1| | |exact Hp'| |intros; apply He; set_solver| |done].
    + rewrite (rf_np _ _ Hf). cbn. by rewrite length_imap.
    + by rewrite (rf_ncpu _ _ Hf).
    + rewrite Ew. unfold aged_level. destruct k as [|k].
      * right. pose proof (aged_level_le e Q s c 0%nat p Hi Hp). unfold aged_level in *. lia.
      * destruct Hw as [Hw|]; [|done].
        destruct (age_proc_progress e _ k Hpr Hw (He e ltac:(set_solver))) as [(_ & ->)|(_ & _ & ?)];
          [left; done|left; unfold AGING_INTERVAL in *; lia].
    + rewrite Ew. cbn in Hlen. unfold passes_left, aged_level in *. destruct k as [|k].
      * pose proof (aged_level_le e Q s c 0%nat p Hi Hp) as Hz. unfold aged_level in Hz. destruct (_ <=? _); lia.
      * destruct Hw as [Hw|]; [|done].
        destruct (age_proc_progress e _ k Hpr Hw (He e ltac:(set_solver))) as [(-> & ->)|(-> & H1 & H2)];
          rewrite Nat2Z.id.
        -- destruct (AGING_INTERVAL <=? p_waited (procs s !!! p)); cbn in *; lia.
        -- rewrite (proj2 (Z.leb_gt _ _)) in Hlen by lia. rewrite (proj2 (Z.leb_le _ _)) by lia. lia.
Qed.

(** C34. Aging prevents starvation: whatever its priority, a waiting process is at
    the top level of its CPU's queues after six aging passes (two per level, each
    after at least [AGING_INTERVAL] ticks), if it has not been run before. *)
Theorem aging_reaches_top Q s c k p es :
  rq_inv Q s -> (length (procs s) <= nproc)%nat -> (c < ncpu s)%nat -> p ∈ Q c k ->
  0 <= p_waited (procs s !!! p) < AGING_TICKS -> length es = 6%nat ->
  (forall e, e ∈ es -> AGING_INTERVAL <= e < 2 ^ 30) ->
  wp (age_passes es) (fun _ s' => exists Q', rq_inv Q' s' /\ p ∈ Q' c 0%nat) s.
Proof.
  intros Hi Hnp Hc Hp Hw Hlen He. eapply (age_passes_wp es Q s c k p); [done..|by left|done| |by eauto].
  rewrite Hlen. destruct (rq_elem _ _ Hi _ _ _ Hp) as (_ & Hk & _). change nprio with 4%nat in Hk.
  unfold passes_left. destruct (_ <=? _); lia.
Qed.

(** *** Load balancing *)

Lemma least_loaded_loop_wp n i best bestn s (R : nat -> pstate -> Prop) :
  nready (runq s !!! best) = bestn -> (best < i)%nat ->
  (forall j, (j < i)%nat -> bestn <= nready (runq s !!! j)) ->
  (forall b, (b < i + n)%nat -> (forall j, (j < i + n)%nat -> nready (runq s !!! b) <= nready (runq s !!! j)) -> R b s) ->
  wp (least_loaded_loop n i best bestn) R s.
Proof.
  revert i best bestn. induction n as [|n IH]; intros i best bestn Hb Hbi Hmin HR; cbn [least_loaded_loop].
  - apply wp_ret, HR; [lia|]. intros j Hj. rewrite Hb. apply Hmin. lia.
  - apply wp_bind, wp_gets. destruct (nready (runq s !!! i) <? bestn) eqn:E; zbool;
      (apply IH; [done|lia| |intros b Hlt Hj; apply HR; [lia|intros j ?; apply Hj; lia]]); intros j Hj;
      (destruct (decide (j = i)) as [->|]; [lia|]); pose proof (Hmin j ltac:(lia)); lia.
Qed.

(** A new process goes to a least loaded CPU: [least_loaded_cpu] returns a CPU of
    the machine whose queues are no longer than those of any other. *)
Theorem least_loaded_cpu_min Q s :
  rq_inv Q s -> (0 < ncpu s)%nat ->
  wp least_loaded_cpu (fun b s' => s' = s /\ (b < ncpu s)%nat /\
    forall c, (c < ncpu s)%nat -> (length (qall Q b) <= length (qall Q c))%nat) s.
Proof.
  intros Hi Hn. apply wp_bind, wp_gets, wp_bind, wp_gets.
  pose proof (rq_ncpu _ _ Hi) as Hnc.
  apply least_loaded_loop_wp; [done|lia|intros j Hj; by replace j with 0%nat by lia|].
  replace (1 + (ncpu s - 1))%nat with (ncpu s) by lia. intros b Hb Hmin. split_and!; [done|done|].
  intros c Hc. specialize (Hmin c Hc). rewrite !(rq_nready _ _ Hi) in Hmin by lia. lia.
Qed.
