(* ===== verification/Proc.v ===== *)
(** * Processes (proc.c)

    The process table: creation of processes, sleep and wakeup, the scheduler
    and preemption, waiting for children and threads, futexes, priorities.  What
    also needs files ([fork], [clone], [exit], [userinit]) is in Fork.v. *)

From S2P Require Import Prelude Monad Machine Kalloc Vm VmUser ProcDefs RunQueue.

Section proc.
Context `{KernelImage}.

(** ** Helpers for the C idioms *)

(** [myproc()], dereferenced. *)
Definition curproc : M pstate nat :=
  let* p := myproc in
  match p with Some i => ret i | None => panic "null dereference" end.

(** First slot at or after [i] (of [n] slots) satisfying [f]. *)
Fixpoint find_proc (n i : nat) (f : proc -> bool) : M pstate (option nat) :=
  match n with
  | O => ret None
  | S n => let* b := getp i f in if b then ret (Some i) else find_proc n (S i) f
  end.

(** [p->state = RUNNABLE; rq_push(cpu, p)]. *)
Definition make_runnable (cpu p : nat) : M pstate unit :=
  setp p (set_state RUNNABLE) ;;; rq_push cpu p.

(** ** Allocation *)

Definition init_proc (pid : Z) (p : proc) : proc :=
  let p := set_ustack 0 (set_isthread 0 (set_pgdir 0 (set_pid pid (set_state EMBRYO p)))) in
  let p := set_base_prio (NPRIO / 2) p in
  let p := set_prio (p_base_prio p) p in
  let p := set_slice (quantum_for (p_prio p)) p in
  set_rqnext None (set_rqcpu 0 (set_waited 0 p)).

Definition allocproc : M pstate (option nat) :=
  pacquire LPtable ;;;
  let* r := find_proc nproc 0 (fun p => bool_decide (p_state p = UNUSED)) in
  match r with
  | None => prelease LPtable ;;; ret None
  | Some i =>
      let* pid := gets nextpid in
      modify (put_nextpid (s32 (pid + 1))) ;;;
      setp i (init_proc pid) ;;;
      prelease LPtable ;;;
      let* ks := mem_op kalloc in
      setp i (set_kstack ks) ;;;
      if ks =? 0 then setp i (set_state UNUSED) ;;; ret None else
      setp i (set_context (MkCtx 0 0 0 0 kernel_forkret)) ;;;
      ret (Some i)
  end.

(** ** Address spaces *)

Definition switchuvm (p : nat) : M pstate unit :=
  let* ks := getp p p_kstack in
  if ks =? 0 then panic "switchuvm: no kstack" else
  let* pg := getp p p_pgdir in
  if pg =? 0 then panic "switchuvm: no pgdir" else
  mem_op (lcr3 (V2P pg)).

Definition pgdir_users (pgdir : Z) : M pstate Z :=
  if pgdir =? 0 then ret 0 else
  gets (fun s => Z.of_nat (length (filter
    (fun p => p_state p <> UNUSED /\ p_pgdir p = pgdir) (procs s)))).

Definition addrspace_shared : M pstate bool :=
  pacquire LPtable ;;;
  let* i := curproc in
  let* pg := getp i p_pgdir in
  let* n := pgdir_users pg in
  prelease LPtable ;;;
  ret (1 <? n).

Fixpoint syncsize_loop (n i cur : nat) (pg sz : Z) : M pstate unit :=
  match n with
  | O => ret tt
  | S n =>
      let* b := getp i (fun q => bool_decide (p_state q <> UNUSED /\ p_pgdir q = pg)) in
      when (negb (bool_decide (i = cur)) && b) (setp i (set_sz sz)) ;;;
      syncsize_loop n (S i) cur pg sz
  end.

Definition syncsize : M pstate unit :=
  let* cur := curproc in
  pacquire LPtable ;;;
  let* pg := getp cur p_pgdir in
  let* sz := getp cur p_sz in
  syncsize_loop nproc 0 cur pg sz ;;;
  prelease LPtable.

Definition growproc (n : Z) : M pstate Z :=
  let* cur := curproc in
  let* sz := getp cur p_sz in
  let* pg := getp cur p_pgdir in
  let* r :=
    if 0 <? n then mem_op (allocuvm pg sz (u32 (sz + n)))
    else if n <? 0 then mem_op (deallocuvm pg sz (u32 (sz + n)))
    else ret sz in
  if negb (n =? 0) && (r =? 0) then ret (-1) else
  setp cur (set_sz r) ;;;
  syncsize ;;;
  switchuvm cur ;;;
  ret 0.

(** ** Giving up the CPU *)

(** Every held spinlock counts once in [ncli], and interrupts are off while one
    is held. *)
Definition sched : M pstate unit :=
  let* p := curproc in
  let* h := gets (fun s => held (pm s)) in
  if negb (bool_decide (LPtable ∈ h)) then panic "sched ptable.lock" else
  if negb (length h =? 1)%nat then panic "sched locks" else
  let* st := getp p p_state in
  if bool_decide (st = RUNNING) then panic "sched running" else
  switch.

Definition yield : M pstate unit :=
  pacquire LPtable ;;;
  let* p := curproc in
  let* c := cpuid in
  make_runnable c p ;;;
  sched ;;;
  prelease LPtable.

Definition sleep (ch : chan) (lk : lock) : M pstate unit :=
  let* r := myproc in
  match r with
  | None => panic "sleep"
  | Some p =>
      when (negb (bool_decide (lk = LPtable))) (pacquire LPtable ;;; prelease lk) ;;;
      setp p (set_chan ch) ;;;
      setp p (set_state SLEEPING) ;;;
      sched ;;;
      setp p (set_chan ChNone) ;;;
      when (negb (bool_decide (lk = LPtable))) (prelease LPtable ;;; pacquire lk)
  end.

Definition is_sleeping_on (ch : chan) (p : proc) : bool :=
  bool_decide (p_state p = SLEEPING /\ p_chan p = ch).

Fixpoint wakeup1_loop (n i : nat) (ch : chan) : M pstate unit :=
  match n with
  | O => ret tt
  | S n =>
      let* b := getp i (is_sleeping_on ch) in
      when b (let* c := getp i p_rqcpu in make_runnable c i) ;;;
      wakeup1_loop n (S i) ch
  end.

Definition wakeup1 (ch : chan) : M pstate unit := wakeup1_loop nproc 0 ch.

Definition wakeup (ch : chan) : M pstate unit :=
  pacquire LPtable ;;; wakeup1 ch ;;; prelease LPtable.

Definition kill (pid : Z) : M pstate Z :=
  pacquire LPtable ;;;
  let* r := find_proc nproc 0 (fun p => p_pid p =? pid) in
  match r with
  | Some i =>
      setp i (set_killed 1) ;;;
      let* st := getp i p_state in
      when (bool_decide (st = SLEEPING)) (let* c := getp i p_rqcpu in make_runnable c i) ;;;
      prelease LPtable ;;;
      ret 0
  | None => prelease LPtable ;;; ret (-1)
  end.

(** One iteration of the loop of [scheduler]. *)
Definition scheduler_iter : M pstate unit :=
  pacquire LPtable ;;;
  let* id := cpuid in
  let* p := rq_pop id in
  let* p := match p with Some p => ret (Some p) | None => rq_steal id end in
  match p with
  | Some p =>
      let* st := getp p p_state in
      if negb (bool_decide (st = RUNNABLE)) then panic "scheduler: queued process is not runnable" else
      setp p (set_rqcpu id) ;;;
      let* bp := getp p p_base_prio in
      setp p (set_prio bp) ;;;
      setp p (set_waited 0) ;;;
      let* prio := getp p p_prio in
      setp p (set_slice (quantum_for prio)) ;;;
      set_myproc (Some p) ;;;
      switchuvm p ;;;
      setp p (set_state RUNNING) ;;;
      switch ;;;
      mem_op switchkvm ;;;
      set_myproc None
  | None => ret tt
  end ;;;
  prelease LPtable.

Definition setpriority (prio : Z) : M pstate Z :=
  let* p := curproc in
  if (prio <? 0) || (NPRIO <=? prio) then ret (-1) else
  pacquire LPtable ;;;
  setp p (set_base_prio prio) ;;;
  setp p (set_prio prio) ;;;
  setp p (set_slice (quantum_for prio)) ;;;
  prelease LPtable ;;;
  ret 0.

Definition getpriority : M pstate Z := let* p := curproc in getp p p_base_prio.

(** ** Waiting for children and threads *)

(** A reaped slot. *)
Definition clear_proc (p : proc) : proc :=
  set_state UNUSED (set_killed 0 (set_name [] (set_parent None (set_pid 0
    (set_ustack 0 (set_isthread 0 (set_pgdir 0 p))))))).

(** Scan of [wait]: the pid of a reaped child, or whether there are children. *)
Fixpoint wait_scan (n i cur : nat) (havekids : bool) : M pstate (Z + bool) :=
  match n with
  | O => ret (inr havekids)
  | S n =>
      let* child := getp i (fun p => bool_decide (p_parent p = Some cur)) in
      if negb child then wait_scan n (S i) cur havekids else
      let* st := getp i p_state in
      if bool_decide (st = ZOMBIE) then
        let* pid := getp i p_pid in
        let* ks := getp i p_kstack in
        mem_op (kfree ks) ;;;
        setp i (set_kstack 0) ;;;
        let* pg := getp i p_pgdir in
        let* users := pgdir_users pg in
        when (negb (pg =? 0) && (users =? 1)) (mem_op (freevm pg)) ;;;
        setp i clear_proc ;;;
        ret (inl pid)
      else wait_scan n (S i) cur true
  end.

Fixpoint wait_loop (fuel : nat) (cur : nat) : M pstate Z :=
  match fuel with
  | O => nofuel
  | S fuel =>
      let* r := wait_scan nproc 0 cur false in
      match r with
      | inl pid => prelease LPtable ;;; ret pid
      | inr havekids =>
          let* killed := getp cur p_killed in
          if negb havekids || negb (killed =? 0) then prelease LPtable ;;; ret (-1) else
          sleep (ChProc cur) LPtable ;;;
          wait_loop fuel cur
      end
  end.

Definition wait (fuel : nat) : M pstate Z :=
  let* cur := curproc in
  pacquire LPtable ;;;
  wait_loop fuel cur.

(** Scan of [join]: pid and user stack of a reaped thread. *)
Fixpoint join_scan (n i cur : nat) (have : bool) : M pstate ((Z * Z) + bool) :=
  match n with
  | O => ret (inr have)
  | S n =>
      let* mine := getp i (fun p => bool_decide (p_parent p = Some cur) && negb (p_isthread p =? 0)) in
      if negb mine then join_scan n (S i) cur have else
      let* st := getp i p_state in
      if bool_decide (st = ZOMBIE) then
        let* pid := getp i p_pid in
        let* found := getp i p_ustack in
        let* ks := getp i p_kstack in
        mem_op (kfree ks) ;;;
        setp i (set_kstack 0) ;;;
        setp i clear_proc ;;;
        ret (inl (pid, found))
      else join_scan n (S i) cur true
  end.

Fixpoint join_loop (fuel : nat) (cur : nat) : M pstate (Z * option Z) :=
  match fuel with
  | O => nofuel
  | S fuel =>
      let* r := join_scan nproc 0 cur false in
      match r with
      | inl (pid, found) => prelease LPtable ;;; ret (pid, Some found)
      | inr have =>
          let* killed := getp cur p_killed in
          if negb have || negb (killed =? 0) then prelease LPtable ;;; ret (-1, None) else
          sleep (ChProc cur) LPtable ;;;
          join_loop fuel cur
      end
  end.

(** The pid, and the value stored through [stack]. *)
Definition join (fuel : nat) : M pstate (Z * option Z) :=
  let* cur := curproc in
  pacquire LPtable ;;;
  join_loop fuel cur.

(** ** Futexes *)

(** A word of the current process's memory. *)
Definition load_user (addr : Z) : M pstate Z :=
  let* cur := curproc in
  let* pg := getp cur p_pgdir in
  let* sz := getp cur p_sz in
  mem_op (kern_load (pg, sz) addr).

Definition futex_wait (addr expected : Z) : M pstate Z :=
  let* cur := curproc in
  let* sz := getp cur p_sz in
  if negb (addr mod 4 =? 0) || (sz <? u32 (addr + 4)) then ret (-1) else
  let* v := load_user addr in
  if negb (s32 v =? expected) then ret 0 else
  let* pg := getp cur p_pgdir in
  let* pa := mem_op (uva2pa pg addr) in
  if pa =? 0 then ret (-1) else
  pacquire LPtable ;;;
  let* v := load_user addr in
  if negb (s32 v =? expected) then prelease LPtable ;;; ret 0 else
  setp cur (set_chan (ChPhys pa)) ;;;
  setp cur (set_state SLEEPING) ;;;
  sched ;;;
  setp cur (set_chan ChNone) ;;;
  prelease LPtable ;;;
  ret 0.

Fixpoint futex_wake_loop (n i : nat) (pa max woken : Z) : M pstate Z :=
  match n with
  | O => ret woken
  | S n =>
      let* b := getp i (is_sleeping_on (ChPhys pa)) in
      if b then
        let* c := getp i p_rqcpu in
        make_runnable c i ;;;
        if (0 <? max) && (max <=? woken + 1) then ret (woken + 1)
        else futex_wake_loop n (S i) pa max (woken + 1)
      else futex_wake_loop n (S i) pa max woken
  end.

Definition futex_wake (addr n : Z) : M pstate Z :=
  let* cur := curproc in
  let* sz := getp cur p_sz in
  if negb (addr mod 4 =? 0) || (sz <? u32 (addr + 4)) then ret (-1) else
  let* pg := getp cur p_pgdir in
  let* pa := mem_op (uva2pa pg addr) in
  if pa =? 0 then ret 0 else
  pacquire LPtable ;;;
  let* woken := futex_wake_loop nproc 0 pa n 0 in
  prelease LPtable ;;;
  ret woken.

End proc.
