(* ===== verification/ProcInv.v ===== *)
(** * The process-table invariant

    A process is on a run queue exactly when its state is RUNNABLE, its
    priorities are valid, and a process that can run has a kernel stack and an
    address space.  The operations of proc.c keep this; in particular the
    scheduler never meets a process it cannot run. *)

From S2P Require Import Prelude Monad Machine Kalloc Vm VmInv VmOps VmFree VmKern VmFault VmUser ProcDefs RunQueue Proc.

Definition active (st : procstate) : bool :=
  bool_decide (st = SLEEPING \/ st = RUNNABLE \/ st = RUNNING).

(** What must hold of every slot. *)
Record wf_proc (nq : nat) (p : proc) : Prop := {
  wp_prio : 0 <= p_prio p < NPRIO;
  wp_base : 0 <= p_base_prio p < NPRIO;
  wp_cpu : (p_rqcpu p < nq)%nat;
  wp_mem : active (p_state p) = true -> p_kstack p <> 0 /\ p_pgdir p <> 0
}.

Definition queued (Q : queues) (p : nat) : Prop := exists c k, p ∈ Q c k.

Record sched_inv (Q : queues) (s : pstate) : Prop := {
  si_rq : rq_inv Q s;
  si_np : length (procs s) = nproc;
  si_run : forall p, (p < nproc)%nat -> p_state (procs s !!! p) = RUNNABLE <-> queued Q p;
  si_wf : forall p, (p < nproc)%nat -> wf_proc (length (runq s)) (procs s !!! p);
  si_me : (me s < ncpu s)%nat /\ length (cpus s) = length (runq s)
}.

(** ** Updates that keep the invariant *)

Lemma rq_inv_pm Q s m : rq_inv Q s -> rq_inv Q (put_pm m s).
Proof. intros [? ? ? ? ? ? ?]. by split. Qed.

Lemma sched_inv_pm Q s m : sched_inv Q s -> sched_inv Q (put_pm m s).
Proof. intros [? ? ? ? ?]. split; try done. by apply rq_inv_pm. Qed.

Lemma sched_inv_pid Q s n : sched_inv Q s -> sched_inv Q (put_nextpid n s).
Proof. intros [[? ? ? ? ? ? ?] ? ? ? ?]. split; try done; by split. Qed.

Lemma not_queued Q s p : sched_inv Q s -> (p < nproc)%nat -> p_state (procs s !!! p) <> RUNNABLE ->
  forall c k, p ∉ Q c k.
Proof. intros Hi Hp Hr c k Hin. apply Hr, (si_run _ _ Hi); [done|]. by exists c, k. Qed.

(** A process that is not runnable may change in any way that leaves it so. *)
Lemma sched_inv_setp Q s p f :
  sched_inv Q s -> (p < nproc)%nat -> p_state (procs s !!! p) <> RUNNABLE ->
  p_state (f (procs s !!! p)) <> RUNNABLE -> wf_proc (length (runq s)) (f (procs s !!! p)) ->
  sched_inv Q (put_procs (alter f p (procs s)) s).
Proof.
  intros Hi Hp Hr Hr' Hwf. pose proof (not_queued Q s p Hi Hp Hr) as Hnq. pose proof (si_np _ _ Hi) as Hnp.
  split; cbn.
  - apply rq_inv_setp; [apply Hi|done].
  - by rewrite length_alter.
  - intros q Hq. rewrite list_lookup_total_alter. case_decide as Ed; [|by apply Hi].
    destruct Ed as [-> _]. split; [done|]. intros (c & k & Hin). by apply Hnq in Hin.
  - intros q Hq. rewrite list_lookup_total_alter. case_decide as Ed; [by destruct Ed as [-> _]|by apply Hi].
  - apply Hi.
Qed.

(** The fields the invariant reads. *)
Definition sched_view (p : proc) : procstate * Z * Z * nat * option nat * Z * Z :=
  (p_state p, p_prio p, p_base_prio p, p_rqcpu p, p_rqnext p, p_kstack p, p_pgdir p).

Lemma sched_inv_field Q s p f :
  sched_inv Q s -> (forall x, sched_view (f x) = sched_view x) ->
  sched_inv Q (put_procs (alter f p (procs s)) s).
Proof.
  intros Hi Hf.
  assert (forall q, sched_view (alter f p (procs s) !!! q) = sched_view (procs s !!! q)) as Hv.
  { intros q. rewrite list_lookup_total_alter. case_decide as Ed; [destruct Ed as [-> _]; apply Hf|done]. }
  destruct Hi as [[R1 R2 R3 R4 R5 R6 R7] H2 H3 H4 H5]. split; cbn; rewrite ?length_alter; try done.
  - split; cbn; rewrite ?length_alter; try done.
    + intros c k Hc Hk. destruct (R3 c k Hc Hk) as [Hch Ht]. split; [|done].
      eapply chain_frame; [|exact Hch]. intros x _. specialize (Hv x). unfold sched_view in Hv. congruence.
    + intros c k x Hx. specialize (Hv x). unfold sched_view in Hv. injection Hv as E1 E2 E3 E4 E5 E6 E7.
      rewrite E2, E4. by apply R7.
  - intros q Hq. specialize (Hv q). unfold sched_view in Hv. injection Hv as -> _ _ _ _ _ _. by apply H3.
  - intros q Hq. specialize (Hv q). unfold sched_view in Hv. injection Hv as E1 E2 E3 E4 E5 E6 E7.
    destruct (H4 q Hq) as [W1 W2 W3 W4]. split; rewrite ?E1, ?E2, ?E3, ?E4, ?E6, ?E7; done.
Qed.

Lemma rq_frame_sched Q s Q' s' :
  rq_frame s s' -> rq_inv Q' s' -> sched_inv Q s ->
  (forall p, (p < nproc)%nat -> p_state (procs s !!! p) = RUNNABLE <-> queued Q' p) ->
  (forall p, (p < nproc)%nat -> (p_rqcpu (procs s' !!! p) < length (runq s))%nat) -> sched_inv Q' s'.
Proof.
  intros Hf Hi' Hi Hrun Hcpu. split; [done| | | |].
  - rewrite (rf_np _ _ Hf). apply Hi.
  - intros p Hp. rewrite <- Hrun by done. assert (p_state (procs s' !!! p) = p_state (procs s !!! p)) as ->; [|done].
    apply rf_field; [erase_field|done].
  - intros p Hp. pose proof (rf_proc _ _ Hf p) as E. apply erase_inj in E.
    destruct (si_wf _ _ Hi p Hp) as [W1 W2 W3 W4]. rewrite (rf_nq _ _ Hf).
    split; [by rewrite E..|by apply Hcpu|by rewrite E].
  - rewrite (rf_me _ _ Hf), (rf_ncpu _ _ Hf), (rf_cpus _ _ Hf), (rf_nq _ _ Hf). apply Hi.
Qed.

(** ** Pointwise changes of the process table *)

Definition map_procs (f : nat -> proc -> proc) (s : pstate) : pstate := put_procs (imap f (procs s)) s.

Lemma map_procs_lookup f s i :
  (i < length (procs s))%nat -> procs (map_procs f s) !!! i = f i (procs s !!! i).
Proof.
  intros Hi. apply list_lookup_total_correct. cbn. rewrite list_lookup_imap.
  by rewrite (list_lookup_lookup_total_lt _ _ Hi).
Qed.

Lemma map_procs_ge f s i : (length (procs s) <= i)%nat -> procs (map_procs f s) !!! i = procs s !!! i.
Proof.
  intros Hi. rewrite !list_lookup_total_alt. cbn. rewrite list_lookup_imap. by rewrite lookup_ge_None_2.
Qed.

(** [s'] is [s] with [f] applied to the processes, up to the queue links. *)
Lemma map_frame_intro f s s' :
  rq_frame s s' -> (forall i, (i < length (procs s))%nat -> f i (procs s !!! i) = procs s !!! i) ->
  rq_frame (map_procs f s) s'.
Proof.
  intros [A1 A2 A3 A4 A5 A6 A7 A8 A9 A10 A11] Hf. split; try done; [cbn; by rewrite length_imap|].
  intros i. destruct (decide (i < length (procs s))%nat) as [Hi|Hi].
  - rewrite map_procs_lookup, Hf by done. apply A11.
  - rewrite map_procs_ge by lia. apply A11.
Qed.

Lemma map_frame_trans f g h s s1 s2 :
  rq_frame (map_procs f s) s1 -> rq_frame (map_procs g s1) s2 ->
  (forall i p q, erase_q p = erase_q q -> erase_q (g i p) = erase_q (g i q)) ->
  (forall i, (i < length (procs s))%nat -> erase_q (g i (f i (procs s !!! i))) = erase_q (h i (procs s !!! i))) ->
  rq_frame (map_procs h s) s2.
Proof.
  intros [A1 A2 A3 A4 A5 A6 A7 A8 A9 A10 A11] [B1 B2 B3 B4 B5 B6 B7 B8 B9 B10 B11] Hg Hh.
  assert (length (procs s1) = length (procs s)) as E1 by (rewrite A10; apply length_imap).
  assert (length (procs s2) = length (procs s1)) as E2 by (rewrite B10; apply length_imap).
  split; [cbn in *; congruence..| |]; [cbn; rewrite length_imap; congruence|].
  intros i. destruct (decide (i < length (procs s))%nat) as [Hi|Hi].
  - rewrite (B11 i), !map_procs_lookup by congruence. rewrite <- Hh by done. apply Hg.
    rewrite (A11 i). by rewrite map_procs_lookup.
  - rewrite (B11 i), !map_procs_ge by lia. rewrite (A11 i). by rewrite map_procs_ge by lia.
Qed.

Lemma map_frame_ext f g s :
  (forall i, (i < length (procs s))%nat -> f i (procs s !!! i) = g i (procs s !!! i)) ->
  rq_frame (map_procs f s) (map_procs g s).
Proof.
  intros Hfg. split; try done; [cbn; by rewrite !length_imap|]. intros i.
  destruct (decide (i < length (procs s))%nat) as [Hi|Hi].
  - rewrite !map_procs_lookup by done. by rewrite Hfg.
  - by rewrite !map_procs_ge by lia.
Qed.

Definition at_proc (p : nat) (f : proc -> proc) (i : nat) (x : proc) : proc :=
  if decide (i = p) then f x else x.

Lemma alter_frame p f s : rq_frame (map_procs (at_proc p f) s) (put_procs (alter f p (procs s)) s).
Proof.
  split; try done; [cbn; by rewrite length_imap, length_alter|]. intros i.
  destruct (decide (i < length (procs s))%nat) as [Hi|Hi].
  - rewrite map_procs_lookup by done. cbn. rewrite list_lookup_total_alter. unfold at_proc.
    repeat case_decide; naive_solver.
  - rewrite map_procs_ge by lia. cbn. rewrite list_lookup_total_alter, decide_False by lia. done.
Qed.

(** ** Making a process runnable *)

Lemma make_runnable_wp Q s c p (R : unit -> pstate -> Prop) :
  sched_inv Q s -> (c < length (runq s))%nat -> (p < nproc)%nat ->
  p_state (procs s !!! p) <> RUNNABLE -> p_kstack (procs s !!! p) <> 0 -> p_pgdir (procs s !!! p) <> 0 ->
  (forall Q' s', sched_inv Q' s' -> rq_frame (map_procs (at_proc p (set_state RUNNABLE)) s) s' ->
     (forall i, i <> p -> p_rqcpu (procs s' !!! i) = p_rqcpu (procs s !!! i)) ->
     p_rqcpu (procs s' !!! p) = c -> (forall q, queued Q' q <-> queued Q q \/ q = p) -> R tt s') ->
  wp (make_runnable c p) R s.
Proof.
  intros Hi Hc Hp Hst Hks Hpg HR. apply wp_bind, wp_modify. pose proof (si_np _ _ Hi) as Hnp.
  set (s1 := put_procs (alter (set_state RUNNABLE) p (procs s)) s).
  assert (procs s1 !!! p = set_state RUNNABLE (procs s !!! p)) as Ep by (apply list_lookup_total_alter_eq; lia).
  assert (forall i, i <> p -> procs s1 !!! i = procs s !!! i) as Eo
    by (intros i Hne; by apply list_lookup_total_alter_ne).
  destruct (si_wf _ _ Hi p Hp) as [[Wp1 Wp2] Wb _ _]. pose proof (not_queued Q s p Hi Hp Hst) as Hnq.
  set (k := Z.to_nat (p_prio (procs s !!! p))).
  assert (k < nprio)%nat as Hk by (unfold k, nprio, NPRIO in *; lia).
  eapply (rq_push_wp Q s1 c k p); [by apply rq_inv_setp; [apply Hi|]|done|cbn; rewrite length_alter; lia|done| |done|].
  { rewrite Ep. cbn. unfold k. lia. }
  intros s' Hf Hi' Hcpu. set (Q' := upd_q Q c k (Q c k ++ [p])) in *.
  assert (forall q, queued Q' q <-> queued Q q \/ q = p) as Hq.
  { intros q. unfold queued, Q', upd_q. split.
    - intros (c' & k' & Hin). case_decide as E; [|left; eauto].
      apply elem_of_app in Hin as [Hin|Hin%list_elem_of_singleton]; [left; eauto|by right].
    - intros [(c' & k' & Hin)| ->].
      + exists c', k'. case_decide as E; [destruct E as [-> ->]; set_solver|done].
      + exists c, k. rewrite decide_True by done. set_solver. }
  assert (p_rqcpu (procs s' !!! p) = c) as Ecp.
  { assert (p ∈ Q' c k) as Hin by (unfold Q'; rewrite upd_q_eq; set_solver).
    apply (rq_elem _ _ Hi') in Hin. tauto. }
  apply (HR Q'); [| | |done|done].
  - split; [done|..].
    + rewrite (rf_np _ _ Hf). cbn. rewrite length_alter. done.
    + intros q Hqn. assert (p_state (procs s' !!! q) = p_state (procs s1 !!! q)) as ->
        by (apply rf_field; [erase_field|done]).
      rewrite Hq. destruct (decide (q = p)) as [->|Hne]; [rewrite Ep; cbn; naive_solver|].
      rewrite Eo, (si_run _ _ Hi) by done. naive_solver.
    + intros q Hqn. rewrite (rf_nq _ _ Hf). pose proof (rf_proc _ _ Hf q) as E. apply erase_inj in E.
      destruct (si_wf _ _ Hi q Hqn) as [W1 W2 W3 W4]. destruct (decide (q = p)) as [->|Hne].
      * rewrite Ep in E. split; [by rewrite E..|by rewrite Ecp|]. rewrite E. done.
      * rewrite Eo in E by done. split; [by rewrite E..|rewrite Hcpu, Eo by done; done|by rewrite E].
    + rewrite (rf_me _ _ Hf), (rf_ncpu _ _ Hf), (rf_cpus _ _ Hf), (rf_nq _ _ Hf). apply Hi.
  - trans s1; [apply alter_frame|done].
  - intros i Hne. rewrite Hcpu, Eo by done. done.
Qed.

(** ** [wakeup] *)

Definition wake (ch : chan) (p : proc) : proc := if is_sleeping_on ch p then set_state RUNNABLE p else p.
Definition in_slots (lo n : nat) (f : proc -> proc) (i : nat) (p : proc) : proc :=
  if decide (lo <= i < lo + n)%nat then f p else p.

Lemma is_sleeping_erase ch p q : erase_q p = erase_q q -> is_sleeping_on ch p = is_sleeping_on ch q.
Proof. intros E. apply erase_inj in E. rewrite E. done. Qed.

Lemma wake_erase ch p q : erase_q p = erase_q q -> erase_q (wake ch p) = erase_q (wake ch q).
Proof.
  intros E. unfold wake. rewrite (is_sleeping_erase ch p q E). destruct (is_sleeping_on ch q); [|done].
  apply erase_inj in E. by rewrite E.
Qed.

Lemma in_slots_erase lo n f i p q :
  (forall p q, erase_q p = erase_q q -> erase_q (f p) = erase_q (f q)) ->
  erase_q p = erase_q q -> erase_q (in_slots lo n f i p) = erase_q (in_slots lo n f i q).
Proof. intros Hf E. unfold in_slots. case_decide; auto. Qed.

Lemma wake_not_queued ch p : is_sleeping_on ch p = true -> p_state p = SLEEPING.
Proof. unfold is_sleeping_on. intros [? _]%bool_decide_eq_true. done. Qed.

Lemma wakeup1_loop_wp ch n i Q s (R : unit -> pstate -> Prop) :
  sched_inv Q s -> (i + n <= nproc)%nat ->
  (forall Q' s', sched_inv Q' s' -> rq_frame (map_procs (in_slots i n (wake ch)) s) s' ->
     (forall j, p_rqcpu (procs s' !!! j) = p_rqcpu (procs s !!! j)) -> R tt s') ->
  wp (wakeup1_loop n i ch) R s.
Proof.
  revert i Q s. induction n as [|n IH]; intros i Q s Hi Hn HR; cbn [wakeup1_loop].
  { apply wp_ret, (HR Q); [done| |done]. apply map_frame_intro; [done|]. intros j _.
    unfold in_slots. by rewrite decide_False by lia. }
  assert (i < nproc)%nat as Hin by lia. pose proof (si_np _ _ Hi) as Hnp. pose proof (si_wf _ _ Hi i Hin) as Hwf.
  apply wp_bind, wp_gets, wp_bind.
  assert (forall s1, rq_frame (map_procs (at_proc i (wake ch)) s) s1 -> forall s2,
            rq_frame (map_procs (in_slots (S i) n (wake ch)) s1) s2 ->
            rq_frame (map_procs (in_slots i (S n) (wake ch)) s) s2) as Hcomp.
  { intros s1 H1 s2 H2. eapply (map_frame_trans _ _ _ _ _ _ H1 H2).
    - intros j p q. apply in_slots_erase, wake_erase.
    - intros j Hj. unfold at_proc, in_slots. repeat case_decide; try done; lia. }
  destruct (is_sleeping_on ch (procs s !!! i)) eqn:Esl; cbn [when].
  - pose proof (wake_not_queued _ _ Esl) as Hst.
    destruct (wp_mem _ _ Hwf) as [Hks Hpg]; [by rewrite Hst|].
    apply wp_bind, wp_gets. eapply (make_runnable_wp Q s); [done|apply Hwf|done|by rewrite Hst|done|done|].
    intros Q1 s1 Hi1 Hf1 Hcpu1 Hcpui _.
    assert (forall j, p_rqcpu (procs s1 !!! j) = p_rqcpu (procs s !!! j)) as Hcpu
      by (intros j; destruct (decide (j = i)) as [->|]; [done|by apply Hcpu1]).
    eapply (IH (S i) Q1); [done|lia|]. intros Q2 s2 Hi2 Hf2 Hcpu2. apply (HR Q2); [done| |].
    + eapply Hcomp; [|exact Hf2]. trans (map_procs (at_proc i (set_state RUNNABLE)) s); [|done].
      apply map_frame_ext. intros j _. unfold at_proc. case_decide; [|done]. subst j. unfold wake. by rewrite Esl.
    + intros j. by rewrite Hcpu2.
  - apply wp_ret. eapply (IH (S i) Q); [done|lia|]. intros Q2 s2 Hi2 Hf2 Hcpu2. apply (HR Q2); [done| |done].
    eapply Hcomp; [|exact Hf2]. apply map_frame_intro; [done|]. intros j _.
    unfold at_proc. case_decide; [|done]. subst j. unfold wake. by rewrite Esl.
Qed.

(** ** Critical sections *)

(** [s] with lock [l] held. *)
Definition locked (l : lock) (s : pstate) : pstate := put_pm (set_held (l :: held (pm s)) (pm s)) s.

Lemma pacquire_wp l (R : unit -> pstate -> Prop) s :
  l ∉ held (pm s) -> R tt (locked l s) -> wp (pacquire l) R s.
Proof. intros Hl HR. apply wp_zoom, acquire_wp; done. Qed.

Lemma prelease_wp l s0 (R : unit -> pstate -> Prop) s :
  pm s = pm (locked l s0) -> l ∉ held (pm s0) -> R tt (put_pm (pm s0) s) -> wp (prelease l) R s.
Proof.
  intros E Hl HR. apply wp_zoom. rewrite E. eapply release_wp; [done|done|].
  assert (set_held (held (pm s0)) (pm (locked l s0)) = pm s0) as -> by (by destruct s0 as [[] ? ? ? ? ? ? ? ? ?]).
  done.
Qed.

Lemma map_frame_locked f l s s' :
  rq_frame (map_procs f (locked l s)) s' -> rq_frame (map_procs f s) (put_pm (pm s) s').
Proof. intros [A1 A2 A3 A4 A5 A6 A7 A8 A9 A10 A11]. by split. Qed.

Lemma sched_inv_locked Q l s : sched_inv Q s -> sched_inv Q (locked l s).
Proof. apply sched_inv_pm. Qed.

Lemma wakeup_wp Q s ch (R : unit -> pstate -> Prop) :
  sched_inv Q s -> LPtable ∉ held (pm s) ->
  (forall Q' s', sched_inv Q' s' -> rq_frame (map_procs (in_slots 0 nproc (wake ch)) s) s' ->
     (forall j, p_rqcpu (procs s' !!! j) = p_rqcpu (procs s !!! j)) -> R tt s') ->
  wp (wakeup ch) R s.
Proof.
  intros Hi Hl HR. apply wp_bind, pacquire_wp; [done|]. apply wp_bind.
  eapply (wakeup1_loop_wp ch nproc 0 Q); [by apply sched_inv_locked|lia|].
  intros Q' s1 Hi1 Hf Hcpu. eapply (prelease_wp LPtable s); [apply (rf_pm _ _ Hf)|done|].
  apply map_frame_locked in Hf. by apply (HR Q'); [apply sched_inv_pm| |].
Qed.

(** [wakeup] makes runnable exactly the processes sleeping on the channel: each
    of them is put on the queue of the CPU it last ran on, and no other field of
    any process, nor anything else, changes. *)
Theorem wakeup_exact Q s ch :
  sched_inv Q s -> LPtable ∉ held (pm s) ->
  wp (wakeup ch) (fun _ s' => exists Q', sched_inv Q' s' /\ pm s' = pm s /\
    forall i, (i < nproc)%nat ->
      erase_q (procs s' !!! i) = erase_q (wake ch (procs s !!! i)) /\
      p_rqcpu (procs s' !!! i) = p_rqcpu (procs s !!! i) /\
      (queued Q' i <-> queued Q i \/ is_sleeping_on ch (procs s !!! i) = true)) s.
Proof.
  intros Hi Hl. eapply (wakeup_wp Q); [done|done|]. intros Q' s1 Hi1 Hf Hcpu. pose proof (si_np _ _ Hi) as Hnp.
  exists Q'. split; [done|]. split; [apply (rf_pm _ _ Hf)|]. intros i Hin.
  pose proof (rf_proc _ _ Hf i) as E. rewrite map_procs_lookup in E by lia. unfold in_slots in E.
  rewrite decide_True in E by lia. split; [exact E|]. split; [apply Hcpu|].
  rewrite <- (si_run _ _ Hi1 i Hin), <- (si_run _ _ Hi i Hin).
  assert (p_state (procs s1 !!! i) = p_state (wake ch (procs s !!! i))) as ->.
  { apply erase_inj in E. cbn in E. rewrite E. done. }
  unfold wake. destruct (is_sleeping_on ch (procs s !!! i)) eqn:Es; cbn; [|naive_solver].
  split; [by right|done].
Qed.

(** ** Searching the table *)

Lemma find_proc_wp n i f s (R : option nat -> pstate -> Prop) :
  (forall j, (i <= j < i + n)%nat -> f (procs s !!! j) = true ->
     (forall k, (i <= k < j)%nat -> f (procs s !!! k) = false) -> R (Some j) s) ->
  ((forall k, (i <= k < i + n)%nat -> f (procs s !!! k) = false) -> R None s) ->
  wp (find_proc n i f) R s.
Proof.
  revert i. induction n as [|n IH]; intros i H1 H0; cbn [find_proc].
  - apply wp_ret, H0. lia.
  - apply wp_bind, wp_gets. destruct (f (procs s !!! i)) eqn:E.
    + apply wp_ret, H1; [lia|done|]. lia.
    + apply IH.
      * intros j Hj Hf Hmin. apply H1; [lia|done|]. intros k Hk.
        destruct (decide (k = i)) as [->|]; [done|]. apply Hmin. lia.
      * intros Hnone. apply H0. intros k Hk. destruct (decide (k = i)) as [->|]; [done|]. apply Hnone. lia.
Qed.

(** ** [kill] *)

Definition woken (p : proc) : proc := if bool_decide (p_state p = SLEEPING) then set_state RUNNABLE p else p.

Lemma kill_wp Q s pid (R : Z -> pstate -> Prop) :
  sched_inv Q s -> LPtable ∉ held (pm s) ->
  ((forall j, (j < nproc)%nat -> p_pid (procs s !!! j) <> pid) -> R (-1) s) ->
  (forall i Q' s', (i < nproc)%nat -> p_pid (procs s !!! i) = pid ->
     (forall j, (j < i)%nat -> p_pid (procs s !!! j) <> pid) ->
     sched_inv Q' s' -> rq_frame (map_procs (at_proc i (fun p => woken (set_killed 1 p))) s) s' ->
     (forall j, p_rqcpu (procs s' !!! j) = p_rqcpu (procs s !!! j)) -> R 0 s') ->
  wp (kill pid) R s.
Proof.
  intros Hi Hl H0 H1. pose proof (si_np _ _ Hi) as Hnp. apply wp_bind, pacquire_wp; [done|]. apply wp_bind, find_proc_wp.
  - intros i Hin Hpid Hmin. cbn in Hpid. zbool. assert (i < nproc)%nat as Hi' by lia.
    assert (forall j, (j < i)%nat -> p_pid (procs s !!! j) <> pid) as Hmin'
      by (intros j Hj; specialize (Hmin j ltac:(lia)); cbn in Hmin; by zbool).
    apply wp_bind, wp_modify. set (s1 := put_procs (alter (set_killed 1) i (procs (locked LPtable s))) (locked LPtable s)).
    assert (sched_inv Q s1) as Hi1 by (apply sched_inv_field; [by apply sched_inv_locked|done]).
    assert (procs s1 !!! i = set_killed 1 (procs s !!! i)) as Ei by (apply list_lookup_total_alter_eq; cbn; lia).
    assert (forall j, p_rqcpu (procs s1 !!! j) = p_rqcpu (procs s !!! j)) as Ec1
      by (intros j; cbn; rewrite list_lookup_total_alter; by case_decide as Ed; [destruct Ed as [-> _]|]).
    apply wp_bind, wp_gets, wp_bind. rewrite Ei. cbn [p_state set_killed].
    assert (forall Q' s2, sched_inv Q' s2 -> rq_frame (map_procs (at_proc i woken) s1) s2 ->
              (forall j, p_rqcpu (procs s2 !!! j) = p_rqcpu (procs s !!! j)) ->
              wp (prelease LPtable ;;; ret 0) R s2) as Hend.
    { intros Q' s2 Hi2 Hf2 Hc2. apply wp_bind. eapply (prelease_wp LPtable s); [apply (rf_pm _ _ Hf2)|done|].
      apply wp_ret. eapply (H1 i Q'); [done|done|done|by apply sched_inv_pm| |done].
      apply (map_frame_locked _ LPtable). eapply (map_frame_trans _ _ _ _ s1 s2 (alter_frame i (set_killed 1) _) Hf2).
      - intros j p q E. unfold at_proc. case_decide; [|done]. unfold woken. apply erase_inj in E. rewrite E. cbn.
        by destruct (bool_decide _).
      - intros j Hj. unfold at_proc. by case_decide. }
    unfold woken in Hend. destruct (bool_decide (p_state (procs s !!! i) = SLEEPING)) eqn:Eb; cbn [when].
    + apply bool_decide_eq_true in Eb. destruct (si_wf _ _ Hi1 i Hi') as [_ _ Wc Wm].
      rewrite Ei in Wm. cbn in Wm. destruct (Wm ltac:(by rewrite Eb)) as [Hks Hpg].
      apply wp_bind, wp_gets. eapply (make_runnable_wp Q s1); [done|exact Wc|done|rewrite Ei; cbn; congruence|by rewrite Ei..|].
      intros Q2 s2 Hi2 Hf2 Hc2 Hc2i _. apply (Hend Q2 s2); [done| |].
      * trans (map_procs (at_proc i (set_state RUNNABLE)) s1); [|done]. apply map_frame_ext. intros j _.
        unfold at_proc. case_decide; [|done]. subst j. rewrite Ei. cbn. by rewrite bool_decide_eq_true_2.
      * intros j. destruct (decide (j = i)) as [->|]; [rewrite Hc2i; apply Ec1|by rewrite Hc2, Ec1 by done].
    + apply wp_ret, (Hend Q s1); [done| |done]. apply map_frame_intro; [done|]. intros j _. unfold at_proc.
      destruct (decide (j = i)) as [->|]; [|done]. rewrite Ei. cbn. by rewrite Eb.
  - intros Hnone. apply wp_bind. eapply (prelease_wp LPtable s); [done|done|]. apply wp_ret.
    assert (put_pm (pm s) (locked LPtable s) = s) as -> by by destruct s. apply H0.
    intros j Hj. specialize (Hnone j ltac:(lia)). cbn in Hnone. by zbool.
Qed.

(** [kill] marks the first process with the given pid and lets it run if it was
    sleeping, so that it can notice; it fails, changing nothing, when there is
    none.  The invariant is kept in either case. *)
Theorem kill_marks Q s pid :
  sched_inv Q s -> LPtable ∉ held (pm s) ->
  wp (kill pid) (fun r s' => exists Q', sched_inv Q' s' /\ pm s' = pm s /\
    ((r = -1 /\ s' = s /\ forall j, (j < nproc)%nat -> p_pid (procs s !!! j) <> pid) \/
     (r = 0 /\ exists i, (i < nproc)%nat /\ p_pid (procs s !!! i) = pid /\
        (forall j, (j < i)%nat -> p_pid (procs s !!! j) <> pid) /\
        forall j, (j < nproc)%nat -> erase_q (procs s' !!! j) =
          erase_q (if decide (j = i) then woken (set_killed 1 (procs s !!! j)) else procs s !!! j)))) s.
Proof.
  intros Hi Hl. pose proof (si_np _ _ Hi) as Hnp. eapply kill_wp; [done|done| |].
  - intros Hn. exists Q. split_and!; [done|done|left; done].
  - intros i Q' s' Hin Hpid Hmin Hi' Hf _. exists Q'. split; [done|]. split; [apply (rf_pm _ _ Hf)|]. right.
    split; [done|]. exists i. split_and!; try done. intros j Hj. rewrite (rf_proc _ _ Hf j).
    rewrite map_procs_lookup by lia. done.
Qed.

(** ** [allocproc] *)

Section alloc.
Context `{KernelImage}.

(** A slot handed out with kernel stack [kva f], and one given back for lack of
    memory. *)
Definition started (f pid : Z) (p : proc) : proc :=
  set_context (MkCtx 0 0 0 0 kernel_forkret) (set_kstack (kva f) (init_proc pid p)).
Definition given_back (pid : Z) (p : proc) : proc :=
  set_state UNUSED (set_kstack 0 (init_proc pid p)).

Definition bump_pid (s : pstate) : pstate := put_nextpid (s32 (nextpid s + 1)) s.

Lemma wf_init_proc nq pid p : (0 < nq)%nat -> wf_proc nq (init_proc pid p).
Proof. intros Hn. split; cbn; try done. Qed.

Lemma alter_alter_compose {A} (f g : A -> A) i (l : list A) : alter f i (alter g i l) = alter (fun x => f (g x)) i l.
Proof. apply list_eq. intros j. destruct (decide (i = j)) as [->|]; [by rewrite !list_lookup_alter_eq, <- option_fmap_compose|by rewrite !list_lookup_alter_ne]. Qed.

Lemma allocproc_wp lo hi G free Q s (R : option nat -> pstate -> Prop) :
  sched_inv Q s -> vm_inv lo hi G free (pm s) -> LPtable ∉ held (pm s) ->
  ((forall j, (j < nproc)%nat -> p_state (procs s !!! j) <> UNUSED) -> R None s) ->
  (forall i s', free = [] -> (i < nproc)%nat -> p_state (procs s !!! i) = UNUSED -> sched_inv Q s' ->
     s' = put_procs (alter (given_back (nextpid s)) i (procs s)) (bump_pid s) -> R None s') ->
  (forall i f rest m' s', free = f :: rest -> lo <= f < hi -> cnt G f = 0 -> (i < nproc)%nat ->
     p_state (procs s !!! i) = UNUSED -> (forall j, (j < i)%nat -> p_state (procs s !!! j) <> UNUSED) ->
     sched_inv Q s' -> vm_inv lo hi (add_ext f 1 G) rest m' -> same_cpu (pm s) m' -> mem m' = mem (pm s) ->
     s' = put_pm m' (put_procs (alter (started f (nextpid s)) i (procs s)) (bump_pid s)) -> R (Some i) s') ->
  wp allocproc R s.
Proof.
  intros Hi Hvm Hl Hfull Hmem Hok. pose proof (si_np _ _ Hi) as Hnp. apply wp_bind, pacquire_wp; [done|].
  apply wp_bind, find_proc_wp.
  2:{ intros Hnone. apply wp_bind. eapply (prelease_wp LPtable s); [done|done|]. apply wp_ret.
      assert (put_pm (pm s) (locked LPtable s) = s) as -> by by destruct s. apply Hfull.
      intros j Hj. specialize (Hnone j ltac:(lia)). by apply bool_decide_eq_false in Hnone. }
  intros i Hin Hun Hmin. apply bool_decide_eq_true in Hun. cbn in Hun. assert (i < nproc)%nat as Hi' by lia.
  assert (forall j, (j < i)%nat -> p_state (procs s !!! j) <> UNUSED) as Hmin'
    by (intros j Hj; specialize (Hmin j ltac:(lia)); by apply bool_decide_eq_false in Hmin).
  assert (0 < length (runq s))%nat as Hnq by (destruct (si_me _ _ Hi); pose proof (rq_ncpu _ _ (si_rq _ _ Hi)); lia).
  assert (forall f, p_state (f (procs s !!! i)) <> RUNNABLE -> wf_proc (length (runq s)) (f (procs s !!! i)) ->
            sched_inv Q (put_procs (alter f i (procs s)) (bump_pid s))) as Hset.
  { intros f H1 H2. apply (sched_inv_pid Q _ (s32 (nextpid s + 1))) in Hi as Hb.
    apply (sched_inv_setp Q _ i f Hb); [done|cbn; congruence|done|done]. }
  apply wp_bind, wp_gets, wp_bind, wp_modify, wp_bind, wp_modify. cbn [nextpid locked put_pm put_nextpid procs].
  apply wp_bind. eapply (prelease_wp LPtable s); [done|done|]. apply wp_bind, wp_zoom.
  eapply vm_kalloc_wp; [exact Hvm| |].
  - intros E. apply wp_bind, wp_modify. rewrite Z.eqb_refl. apply wp_bind, wp_modify, wp_ret.
    match goal with |- R None ?x =>
      assert (x = put_procs (alter (given_back (nextpid s)) i (procs s)) (bump_pid s)) as ->
        by (cbn; rewrite !alter_alter_compose; by destruct s) end.
    eapply (Hmem i); [done|done|done| |done]. by apply Hset; [done|split].
  - intros f rest m' E Hf Hc0 Hsc Hm Hvm'. apply wp_bind, wp_modify. cbn [p_kstack].
    pose proof (managed_frame _ _ _ _ _ f Hvm Hf).
    rewrite (proj2 (Z.eqb_neq _ _)) by (apply kva_nonzero; lia). apply wp_bind, wp_modify, wp_ret.
    match goal with |- R _ ?x =>
      assert (x = put_pm m' (put_procs (alter (started f (nextpid s)) i (procs s)) (bump_pid s))) as ->
        by (cbn; rewrite !alter_alter_compose; by destruct s) end.
    eapply (Hok i f rest m'); [done|done|done|done|done|done| |done|done|done|done].
    apply sched_inv_pm. by apply Hset; [done|split].
Qed.

End alloc.

(** ** The scheduler *)

(** A process taken from the queues: runnable, no longer queued. *)
Record taken_proc (Q Q' : queues) (s s' : pstate) (p : nat) : Prop := {
  tk_frame : rq_frame s s';
  tk_rq : rq_inv Q' s';
  tk_cpu : forall i, p_rqcpu (procs s' !!! i) = p_rqcpu (procs s !!! i);
  tk_old : queued Q p;
  tk_queued : forall q, queued Q' q <-> queued Q q /\ q <> p
}.

Lemma rq_pop_taken Q s c (R : option nat -> pstate -> Prop) :
  rq_inv Q s -> (c < length (runq s))%nat -> (qall Q c = [] -> R None s) ->
  (forall Q' p s', head (qall Q c) = Some p -> taken_proc Q Q' s s' p -> R (Some p) s') -> wp (rq_pop c) R s.
Proof.
  intros Hi Hc H0 H1. eapply rq_pop_wp; [done|done|done|].
  intros p k rest s' EQ Hk Hlow Hf Hi' Hcpu. eapply (H1 (upd_q Q c k rest)).
  { by rewrite (qall_pop Q c k p rest Hk EQ Hlow). }
  assert (NoDup (p :: rest)) as Hnd by (rewrite <- EQ; apply Hi). apply NoDup_cons in Hnd as [Hnp _].
  split; [done|done|done|exists c, k; rewrite EQ; set_solver|]. intros q. unfold queued, upd_q. split.
  - intros (c' & k' & Hq). case_decide as E.
    + destruct E as [-> ->]. split; [exists c, k; rewrite EQ; set_solver|]. by intros ->.
    + split; [eauto|]. intros ->. apply E. eapply (rq_once _ _ Hi _ _ _ _ p); [done|rewrite EQ; set_solver].
  - intros [(c' & k' & Hq) Hne]. exists c', k'. case_decide as E; [|done].
    destruct E as [-> ->]. rewrite EQ in Hq. set_solver.
Qed.

Lemma rq_steal_taken Q s self (R : option nat -> pstate -> Prop) :
  rq_inv Q s -> R None s -> (forall Q' p s', taken_proc Q Q' s s' p -> R (Some p) s') -> wp (rq_steal self) R s.
Proof.
  intros Hi H0 H1. apply wp_bind, wp_gets, wp_bind, rq_steal_loop_wp; [done|].
  intros [b|] Hb; [|by apply wp_ret]. pose proof (rq_ncpu _ _ Hi). specialize (Hb b eq_refl).
  eapply rq_pop_taken; [done|lia|done|]. intros Q' p s' _. apply H1.
Qed.

Lemma sched_inv_taken Q Q' s0 s1 p f m cs :
  sched_inv Q s0 -> taken_proc Q Q' s0 s1 p -> (p < nproc)%nat -> length cs = length (cpus s0) ->
  p_state (f (procs s1 !!! p)) <> RUNNABLE -> wf_proc (length (runq s0)) (f (procs s1 !!! p)) ->
  sched_inv Q' (put_pm m (put_procs (alter f p (procs s1)) (put_cpus cs s1))).
Proof.
  intros Hi [Hf Hrq Hcpu Hold Hq] Hp Hcs Hst Hwf.
  assert (forall c k, p ∉ Q' c k) as Hnq by (intros c k Hin; destruct (proj1 (Hq p)); [by exists c, k|done]).
  assert (length (procs s1) = nproc) as Hnp by (rewrite (rf_np _ _ Hf); apply Hi).
  split; cbn.
  - pose proof (rq_inv_setp Q' s1 p f Hrq Hnq) as [? ? ? ? ? ? ?]. by split.
  - by rewrite length_alter.
  - intros q Hqn. rewrite list_lookup_total_alter. case_decide as Ed.
    + destruct Ed as [-> _]. split; [done|]. intros (c & k & Hin). by apply Hnq in Hin.
    + assert (p_state (procs s1 !!! q) = p_state (procs s0 !!! q)) as -> by (apply rf_field; [erase_field|done]).
      rewrite (si_run _ _ Hi), Hq by done. destruct (decide (q = p)) as [->|]; [|naive_solver]. lia.
  - intros q Hqn. rewrite list_lookup_total_alter, (rf_nq _ _ Hf). case_decide as Ed; [by destruct Ed as [-> _]|].
    pose proof (rf_proc _ _ Hf q) as E. apply erase_inj in E. destruct (si_wf _ _ Hi q Hqn) as [W1 W2 W3 W4].
    split; [by rewrite E..|by rewrite Hcpu|by rewrite E].
  - rewrite (rf_me _ _ Hf), (rf_ncpu _ _ Hf), Hcs, (rf_nq _ _ Hf). apply Hi.
Qed.

Lemma release_ptable_wp s :
  (exists Q, sched_inv Q s /\ held (pm s) = [LPtable]) ->
  wp (prelease LPtable) (fun _ s' => exists Q', sched_inv Q' s' /\ held (pm s') = []) s.
Proof.
  intros (Q & Hi & Hh). apply wp_zoom. eapply release_wp; [exact Hh|set_solver|]. exists Q. split; [by apply sched_inv_pm|done].
Qed.

(** The process to run next, from the CPU's own queue or another one. *)
Lemma pick_wp Q s c (R : option nat -> pstate -> Prop) :
  rq_inv Q s -> (c < length (runq s))%nat -> R None s -> (forall Q' p s', taken_proc Q Q' s s' p -> R (Some p) s') ->
  wp (rq_pop c) (fun r s1 => wp match r with Some p => ret (Some p) | None => rq_steal c end R s1) s.
Proof.
  intros Hi Hc Hn Hs. eapply rq_pop_taken; [exact Hi|done| |].
  - intros _. by eapply rq_steal_taken.
  - intros Q' p s' _ Ht. apply wp_ret. by eapply Hs.
Qed.

(** The process gave the CPU back. *)
Lemma back_wp `{KernelImage} s :
  (exists Q, sched_inv Q s /\ held (pm s) = [LPtable]) ->
  wp (mem_op switchkvm ;;; set_myproc None) (fun _ s' => exists Q', sched_inv Q' s' /\ held (pm s') = [LPtable]) s.
Proof.
  intros (Q & Hi & Hh). apply wp_bind, wp_zoom, wp_bind, wp_gets, wp_modify, wp_modify.
  exists Q. split; [|done]. destruct Hi as [[? ? ? ? ? ? ?] ? ? ? [? ?]].
  split; [by split|done..|]. split; [done|]. etrans; [apply length_insert|done].
Qed.

(** C4. The scheduler never fails: in any state satisfying the invariant, one pass of
    its loop takes no panic path.  When it switches to a process, it does so
    holding only ptable.lock, on that process's page directory, with the process
    RUNNING at its own priority with a full quantum, and the invariant holds; when the
    process gives the CPU back (in any state satisfying the invariant), the pass
    ends with the lock released and the invariant still holding. *)
Theorem scheduler_safe `{KernelImage} Q s :
  sched_inv Q s -> held (pm s) = [] ->
  wps (fun s1 => exists Q1 p, sched_inv Q1 s1 /\ held (pm s1) = [LPtable] /\ cpus s1 !!! me s1 = Some p /\
         (p < nproc)%nat /\ p_state (procs s1 !!! p) = RUNNING /\ cr3 (pm s1) = V2P (p_pgdir (procs s1 !!! p)) /\
         p_prio (procs s1 !!! p) = p_base_prio (procs s1 !!! p) /\
         p_slice (procs s1 !!! p) = quantum_for (p_prio (procs s1 !!! p)))
      (fun _ s2 => exists Q2, sched_inv Q2 s2 /\ held (pm s2) = [LPtable])
      scheduler_iter
      (fun _ s3 => exists Q3, sched_inv Q3 s3 /\ held (pm s3) = []) s.
Proof.
  intros Hi Hh. apply wps_bind, wp_wps, pacquire_wp; [rewrite Hh; set_solver|].
  apply wps_bind, wp_wps, wp_gets.
  set (s0 := locked LPtable s). assert (sched_inv Q s0) as Hi0 by by apply sched_inv_locked.
  assert (held (pm s0) = [LPtable]) as Hh0 by (cbn; by rewrite Hh).
  destruct (si_me _ _ Hi0) as [Hme Hlen]. pose proof (rq_ncpu _ _ (si_rq _ _ Hi0)) as Hnc.
  change (me (locked LPtable s)) with (me s0).
  apply wps_bind, wp_wps. eapply wp_mono; [|intros r s1 Hr; apply wps_bind, wp_wps; exact Hr].
  eapply pick_wp; [apply Hi0|lia| |].
  { apply wps_bind, wp_wps, wp_ret, wp_wps, release_ptable_wp. eauto. }
  intros Q' p s1 [Hf Hrq Hcpu (c & k & Hold) Hq].
  destruct (rq_elem _ _ (si_rq _ _ Hi0) _ _ _ Hold) as (_ & _ & Hpl & _). rewrite (si_np _ _ Hi0) in Hpl.
  assert (p_state (procs s0 !!! p) = RUNNABLE) as Hst by (apply (si_run _ _ Hi0); [done|by exists c, k]).
  destruct (si_wf _ _ Hi0 p Hpl) as [_ Wb _ Wm]. rewrite Hst in Wm. destruct (Wm eq_refl) as [Hks Hpg].
  assert (procs s1 !!! p = set_rqnext (p_rqnext (procs s1 !!! p)) (set_rqcpu (p_rqcpu (procs s1 !!! p)) (procs s0 !!! p)))
    as Ep by apply erase_inj, (rf_proc _ _ Hf p).
  assert (p_state (procs s1 !!! p) = RUNNABLE) as Hst1 by (by rewrite Ep).
  assert (p < length (procs s1))%nat as Hp1 by (rewrite (rf_np _ _ Hf), (si_np _ _ Hi0); done).
  apply wps_bind, wps_bind, wp_wps, wp_gets. rewrite Hst1, bool_decide_eq_true_2 by done. cbn [negb].
  apply wps_bind, wp_wps, wp_modify, wps_bind, wp_wps, wp_gets, wps_bind, wp_wps, wp_modify, wps_bind, wp_wps, wp_modify.
  apply wps_bind, wp_wps, wp_gets, wps_bind, wp_wps, wp_modify, wps_bind, wp_wps, wp_modify. cbn [procs put_procs].
  rewrite !alter_alter_compose. rewrite !list_lookup_total_alter_eq by done. cbn [p_base_prio p_prio set_rqcpu set_waited set_prio].
  set (g := fun x => set_slice _ _). set (s2 := put_cpus _ _).
  assert (procs s2 !!! p = g (procs s1 !!! p)) as E2 by (by apply list_lookup_total_alter_eq).
  assert (p_base_prio (procs s1 !!! p) = p_base_prio (procs s0 !!! p)) as Eb by (by rewrite Ep).
  assert (p_kstack (procs s1 !!! p) = p_kstack (procs s0 !!! p)) as Eks by (by rewrite Ep).
  assert (p_pgdir (procs s1 !!! p) = p_pgdir (procs s0 !!! p)) as Epg by (by rewrite Ep).
  apply wps_bind, wp_wps, wp_bind, wp_gets. rewrite E2. cbn [g p_kstack set_slice set_waited set_prio set_rqcpu].
  rewrite Eks, (proj2 (Z.eqb_neq _ _)) by done. apply wp_bind, wp_gets. rewrite E2.
  cbn [g p_pgdir set_slice set_waited set_prio set_rqcpu]. rewrite Epg, (proj2 (Z.eqb_neq _ _)) by done.
  apply wp_zoom, wp_modify, wps_bind, wp_wps, wp_modify.
  assert (held (pm s1) = [LPtable]) as Hh1 by (rewrite (rf_pm _ _ Hf); done).
  apply wps_bind, wps_switch.
  - exists Q', p. cbn. rewrite alter_alter_compose, (rf_me _ _ Hf), list_lookup_total_insert_eq
      by (rewrite (rf_cpus _ _ Hf); lia).
    rewrite list_lookup_total_alter_eq by done. subst g. cbn. rewrite Eb, Epg. split_and!; try done.
    match goal with |- sched_inv _ (put_procs (alter ?f p _) (put_pm ?m _)) =>
      apply (sched_inv_taken Q Q' s0 s1 p f m (<[me s1 := Some p]> (cpus s1))) end;
      try done; [by split; [..|exists c, k|]| |].
    + etrans; [apply length_insert|]. by rewrite (rf_cpus _ _ Hf).
    + cbn in Hme, Hnc. split; cbn; rewrite ?Eb, ?Eks, ?Epg; [done|done|lia|done].
  - intros s3 Hs3. apply wp_wps. eapply wp_mono; [apply back_wp, Hs3|]. intros [] s4 H4. by apply wp_wps, release_ptable_wp.
Qed.

(** ** Sleeping and yielding *)

Lemma alter_same `{Inhabited A} (f : A -> A) p (l : list A) :
  (p < length l)%nat -> alter f p l !!! p = f (l !!! p).
Proof. intros. rewrite list_lookup_total_alter. by rewrite decide_True. Qed.

Lemma prelease_under_wp l l' (R : unit -> pstate -> Prop) s :
  held (pm s) = [l'; l] -> l <> l' -> R tt (put_pm (set_held [l'] (pm s)) s) -> wp (prelease l) R s.
Proof.
  intros Hh Hne HR. apply wp_zoom, wp_bind, wp_gets. rewrite Hh.
  rewrite bool_decide_eq_true_2 by set_solver. apply wp_modify.
  rewrite filter_cons_True, filter_cons_False by naive_solver. done.
Qed.

(** Process [p] runs on this CPU. *)
Definition running (p : nat) (s : pstate) : Prop :=
  cpus s !!! me s = Some p /\ (p < nproc)%nat /\ p_state (procs s !!! p) = RUNNING.

(** The CPU is given up holding ptable.lock and nothing else, with the table
    consistent. *)
Definition given_up (s : pstate) : Prop := exists Q, sched_inv Q s /\ held (pm s) = [LPtable].

(** [p] gets the CPU back. *)
Definition resumed (p : nat) (s s' : pstate) : Prop :=
  exists Q, sched_inv Q s' /\ held (pm s') = [LPtable] /\ running p s'.

Lemma sched_wps p st Q s (I : pstate -> Prop) (R : pstate -> pstate -> Prop) (P : unit -> pstate -> Prop) :
  cpus s !!! me s = Some p -> p_state (procs s !!! p) = st -> st <> RUNNING -> held (pm s) = [LPtable] ->
  sched_inv Q s -> I s -> (forall s', R s s' -> P tt s') -> wps I R sched P s.
Proof.
  intros Hc Hst Hne Hh Hi HI HP. unfold sched. apply wps_bind, wp_wps, wp_bind, wp_gets.
  rewrite Hc. apply wp_ret, wps_bind, wp_wps, wp_gets. rewrite Hh.
  rewrite bool_decide_eq_true_2 by set_solver. cbn [negb length Nat.eqb].
  apply wps_bind, wp_wps, wp_gets. rewrite Hst, bool_decide_eq_false_2 by done.
  by apply wps_switch.
Qed.

Lemma running_wf Q s p : sched_inv Q s -> running p s -> wf_proc (length (runq s)) (procs s !!! p) /\
  p_kstack (procs s !!! p) <> 0 /\ p_pgdir (procs s !!! p) <> 0.
Proof.
  intros Hi (_ & Hp & Hst). pose proof (si_wf _ _ Hi p Hp) as Hwf. split; [done|].
  apply (wp_mem _ _ Hwf). by rewrite Hst.
Qed.

(** [sleep] gives up the CPU once, asleep on the channel with ptable.lock held. *)
Lemma sleep_wps Q s p ch lk (I : pstate -> Prop) (R : pstate -> pstate -> Prop) (P : unit -> pstate -> Prop) :
  sched_inv Q s -> running p s -> held (pm s) = [lk] ->
  (forall s1, given_up s1 -> p_state (procs s1 !!! p) = SLEEPING -> p_chan (procs s1 !!! p) = ch -> I s1) ->
  (forall s1 s2, R s1 s2 -> resumed p s1 s2) ->
  (forall Q2 s2, sched_inv Q2 s2 -> held (pm s2) = [lk] -> running p s2 -> p_chan (procs s2 !!! p) = ChNone -> P tt s2) ->
  wps I R (sleep ch lk) P s.
Proof.
  intros Hi Hrun Hh HI HR HP. pose proof Hrun as (Hc & Hp & Hst). pose proof (running_wf Q s p Hi Hrun) as ([W1 W2 W3 W4] & Hks & Hpg).
  unfold sleep. apply wps_bind, wp_wps, wp_gets. rewrite Hc. apply wps_bind, wp_wps.
  eapply (wp_mono _ (fun _ s1 => s1 = put_pm (set_held [LPtable] (pm s)) s)).
  { destruct (decide (lk = LPtable)) as [->|Hne].
    - rewrite bool_decide_eq_true_2 by done. apply wp_ret. rewrite <- Hh. by destruct s as [[] ? ? ? ? ? ? ? ? ?].
    - rewrite bool_decide_eq_false_2 by done. cbn [negb when]. apply wp_bind, pacquire_wp; [rewrite Hh; set_solver|].
      eapply (prelease_under_wp lk LPtable); [cbn; by rewrite Hh|done|]. by destruct s as [[] ? ? ? ? ? ? ? ? ?]. }
  intros _ s1 ->. set (s1 := put_pm _ s).
  assert (sched_inv Q s1) as Hi1 by by apply sched_inv_pm. pose proof (si_np _ _ Hi) as Hnp.
  apply wps_bind, wp_wps, wp_modify, wps_bind, wp_wps, wp_modify. cbn [procs put_procs]. rewrite alter_alter_compose.
  set (s2 := put_procs _ _).
  assert (procs s2 !!! p = set_state SLEEPING (set_chan ch (procs s !!! p))) as E2
    by (unfold s2; cbn [procs put_procs]; apply (alter_same (fun x => set_state SLEEPING (set_chan ch x))); cbn; lia).
  assert (sched_inv Q s2) as Hi2.
  { apply (sched_inv_setp Q s1 p (fun x => set_state SLEEPING (set_chan ch x))); cbn; first [done|congruence|by split]. }
  apply wps_bind. eapply (sched_wps p SLEEPING Q); [done|by rewrite E2|done|done|done| |].
  { apply HI; [by exists Q|by rewrite E2..]. }
  intros s3 Hs3. destruct (HR _ _ Hs3) as (Q3 & Hi3 & Hh3 & Hrun3). pose proof Hrun3 as (Hc3 & Hp3 & Hst3).
  apply wps_bind, wp_wps, wp_modify. set (s4 := put_procs _ s3).
  assert (sched_inv Q3 s4) as Hi4 by by apply sched_inv_field.
  assert (procs s4 !!! p = set_chan ChNone (procs s3 !!! p)) as E4
    by (unfold s4; cbn [procs put_procs]; apply (alter_same (set_chan ChNone)); rewrite (si_np _ _ Hi3); lia).
  assert (forall m, held m = [lk] -> P tt (put_pm m s4)) as Hend.
  { intros m Hm. apply (HP Q3); [by apply sched_inv_pm|done| |]; unfold running; cbn; unfold s4 in E4; cbn in E4; by rewrite E4. }
  apply wp_wps. destruct (decide (lk = LPtable)) as [->|Hne].
  - rewrite bool_decide_eq_true_2 by done. apply wp_ret. by apply (Hend (pm s3)).
  - rewrite bool_decide_eq_false_2 by done. cbn [negb when]. apply wp_bind, wp_zoom.
    eapply release_wp; [exact Hh3|set_solver|]. apply pacquire_wp; [cbn; set_solver|].
    by apply (Hend (set_held [lk] (set_held [] (pm s3)))).
Qed.

(** C24. [sleep] is atomic for wakers: it never panics, and when it gives up the CPU
    the process is SLEEPING on the channel, the caller's lock has been released
    and ptable.lock, which wakers need, is held, so a wakeup after the caller's
    last check of its condition finds the process asleep.  When it returns, the
    caller's lock, and only it, is held again, and the invariant holds. *)
Theorem sleep_atomic Q s p ch lk :
  sched_inv Q s -> running p s -> held (pm s) = [lk] ->
  wps (fun s1 => given_up s1 /\ p_state (procs s1 !!! p) = SLEEPING /\ p_chan (procs s1 !!! p) = ch)
      (resumed p) (sleep ch lk)
      (fun _ s2 => exists Q2, sched_inv Q2 s2 /\ held (pm s2) = [lk] /\ running p s2 /\
         p_chan (procs s2 !!! p) = ChNone) s.
Proof.
  intros Hi Hrun Hh. apply (sleep_wps Q s p ch lk); [done|done|done|done|done|].
  intros Q2 s2 H1 H2 H3 H4. by exists Q2.
Qed.

(** [yield] lets another process run and comes back: it never panics, it gives
    up the CPU with the caller RUNNABLE at the end of a queue of this CPU and only
    ptable.lock held, and it returns with no lock held. *)
Theorem yield_requeues Q s p :
  sched_inv Q s -> running p s -> held (pm s) = [] ->
  wps (fun s1 => exists Q1, sched_inv Q1 s1 /\ held (pm s1) = [LPtable] /\
         p_state (procs s1 !!! p) = RUNNABLE /\ queued Q1 p /\ p_rqcpu (procs s1 !!! p) = me s1)
      (resumed p) yield
      (fun _ s2 => exists Q2, sched_inv Q2 s2 /\ held (pm s2) = [] /\ running p s2) s.
Proof.
  intros Hi Hrun Hh. pose proof Hrun as (Hc & Hp & Hst). pose proof (running_wf Q s p Hi Hrun) as (Hwf & Hks & Hpg).
  destruct (si_me _ _ Hi) as [Hme Hlen]. pose proof (rq_ncpu _ _ (si_rq _ _ Hi)) as Hnc.
  apply wps_bind, wp_wps, pacquire_wp; [rewrite Hh; set_solver|]. apply wps_bind, wp_wps, wp_bind, wp_gets.
  cbn [cpus locked put_pm me]. rewrite Hc. apply wp_ret, wps_bind, wp_wps, wp_gets, wps_bind, wp_wps.
  eapply (make_runnable_wp Q); [by apply sched_inv_locked|cbn; lia|done|cbn; congruence|done|done|].
  intros Q1 s1 Hi1 Hf1 _ Hcpu Hq. pose proof (si_np _ _ Hi) as Hnp.
  assert (p_state (procs s1 !!! p) = RUNNABLE) as Hst1.
  { apply (si_run _ _ Hi1); [done|]. apply Hq. by right. }
  assert (held (pm s1) = [LPtable]) as Hh1 by (rewrite (rf_pm _ _ Hf1); cbn; by rewrite Hh).
  apply wps_bind. eapply (sched_wps p RUNNABLE Q1); [|done|done|done|done| |].
  - by rewrite (rf_cpus _ _ Hf1), (rf_me _ _ Hf1).
  - exists Q1. split_and!; try done; [apply Hq; by right|]. rewrite Hcpu. by rewrite (rf_me _ _ Hf1).
  - intros s2 (Q2 & Hi2 & Hh2 & Hrun2). apply wp_wps, wp_zoom. eapply release_wp; [exact Hh2|set_solver|].
    exists Q2. split; [by apply sched_inv_pm|]. done.
Qed.

(** ** A kill that outlives its process *)

(** A pid of 0 names the unused slots: kill(0) succeeds, marks the first of them
    killed, and [allocproc], which does not clear the mark, hands it to the next
    process, which dies on its first return to user mode. *)
Theorem kill_zero_poisons `{KernelImage} lo hi G f rest Q s i :
  sched_inv Q s -> vm_inv lo hi G (f :: rest) (pm s) -> LPtable ∉ held (pm s) -> (i < nproc)%nat ->
  p_state (procs s !!! i) = UNUSED -> p_pid (procs s !!! i) = 0 ->
  (forall j, (j < i)%nat -> p_state (procs s !!! j) <> UNUSED /\ p_pid (procs s !!! j) <> 0) ->
  wp (let* r := kill 0 in let* o := allocproc in ret (r, o))
     (fun ro s' => ro = (0, Some i) /\ p_state (procs s' !!! i) = EMBRYO /\ p_pid (procs s' !!! i) = nextpid s /\
        p_killed (procs s' !!! i) = 1) s.
Proof.
  intros Hi Hvm Hl Hn Hst Hpid Hmin. apply wp_bind, (kill_wp Q); [done|done| |].
  { intros Hno. by destruct (Hno i). }
  intros i1 Q' s1 Hi1 Hp1 Hmin1 Hinv Hf _. pose proof (si_np _ _ Hi) as Hnp.
  assert (i1 = i) as ->.
  { destruct (lt_eq_lt_dec i1 i) as [[Hlt|]|Hlt]; [by destruct (Hmin i1 Hlt)|done|by destruct (Hmin1 i Hlt)]. }
  assert (forall j, (j < nproc)%nat -> p_state (procs s1 !!! j) = UNUSED <-> p_state (procs s !!! j) = UNUSED) as Hs.
  { intros j Hj. pose proof (rf_proc _ _ Hf j) as E. rewrite map_procs_lookup in E by lia.
    apply erase_inj in E. rewrite E. cbn. unfold at_proc. case_decide; [|done]. subst.
    unfold woken. cbn. rewrite Hst. done. }
  assert (p_killed (procs s1 !!! i) = 1) as Hk.
  { pose proof (rf_proc _ _ Hf i) as E. rewrite map_procs_lookup in E by lia.
    apply erase_inj in E. rewrite E. cbn. unfold at_proc. rewrite decide_True by done.
    unfold woken. cbn. by rewrite Hst. }
  apply wp_bind. eapply (allocproc_wp lo hi G (f :: rest) Q'); [done| | | | |].
  - by rewrite (rf_pm _ _ Hf).
  - by rewrite (rf_pm _ _ Hf).
  - intros Hno. destruct (Hno i Hn). by apply Hs.
  - done.
  - intros i2 f2 rest2 m' s' _ _ _ Hi2 Hu2 Hm2 _ _ _ _ ->. apply Hs in Hu2; [|done].
    assert (i2 = i) as ->.
    { destruct (lt_eq_lt_dec i2 i) as [[Hlt|]|Hlt]; [by destruct (Hmin i2 Hlt)|done|].
      destruct (Hm2 i Hlt). by apply Hs. }
    apply wp_ret. split; [done|]. cbn.
    rewrite (alter_same (started f2 (nextpid s1))) by (rewrite (si_np _ _ Hinv); lia).
    cbn -[nproc]. rewrite (rf_pid _ _ Hf). done.
Qed.
