(* ===== verification/DemoProc.v ===== *)
(** * A concrete process table

    Two CPUs; process 1 runs on CPU 0, process 2 sleeps on the clock, process 3 is
    queued at level 2 of CPU 0, every other slot is unused.  The hypotheses of the
    scheduler's theorems hold of it. *)

From S2P Require Import Prelude Monad Machine Kalloc Vm VmInv VmOps VmFree VmKern VmFault VmUser Demo.
From S2P Require Import ProcDefs RunQueue Proc ProcInv.

#[local] Existing Instance demo_image.

Definition demo_proc (st : procstate) (pid : Z) (ch : chan) : proc :=
  set_chan ch (set_prio 2 (set_base_prio 2 (set_pid pid (set_state st
    (set_kstack (kva 1040) (set_pgdir (kva 1024) proc0)))))).

Definition demo_procs : list proc :=
  proc0 :: demo_proc RUNNING 1 ChNone :: set_pgdir (kva 1041) (demo_proc SLEEPING 2 ChTicks) ::
  set_pgdir (kva 1042) (demo_proc RUNNABLE 3 ChNone) ::
  replicate 60 proc0.

Definition demo_runq : list runqueue :=
  MkRq [None; None; Some 3%nat; None] [None; None; Some 3%nat; None] 1 :: replicate 7 rq0.

Definition demo_p : pstate :=
  MkP demo_s demo_procs demo_runq 0 (Some 1%nat) 4 2 0 (Some 1%nat :: replicate 7 None) 0.

(** The same machine with process [p]'s CPU holding the locks [h]. *)
Definition demo_held (h : list lock) : pstate := put_pm (set_held h demo_s) demo_p.

Definition demo_q : queues := fun c k => if decide (c = 0%nat /\ k = 2%nat) then [3%nat] else [].

Lemma demo_q_elem c k p : p ∈ demo_q c k <-> c = 0%nat /\ k = 2%nat /\ p = 3%nat.
Proof. unfold demo_q. case_decide as E; [destruct E as [-> ->]|]; set_solver. Qed.


Lemma demo_rq : rq_inv demo_q demo_p.
Proof.
  split.
  - cbn. lia.
  - intros c Hc. change (c < 8)%nat in Hc. do 8 (destruct c as [|c]; [done|]). lia.
  - intros c k Hc Hk. change (c < 8)%nat in Hc. change (k < 4)%nat in Hk.
    destruct c as [|c]; [do 4 (destruct k as [|k]; [done|]); lia|].
    do 7 (destruct c as [|c]; [do 4 (destruct k as [|k]; [done|]); lia|]). lia.
  - intros c Hc. change (c < 8)%nat in Hc. do 8 (destruct c as [|c]; [done|]). lia.
  - intros c k. unfold demo_q. case_decide; [apply NoDup_singleton|apply NoDup_nil_2].
  - intros c k c' k' p [-> [-> _]]%demo_q_elem [-> [-> _]]%demo_q_elem. done.
  - intros c k p (-> & -> & ->)%demo_q_elem. split_and!; first [done|vm_compute; lia].
Qed.

Lemma demo_slot p : (p < nproc)%nat -> p = 1%nat \/ p = 2%nat \/ p = 3%nat \/ (procs demo_p !!! p = proc0 /\ p <> 3%nat).
Proof.
  intros Hp. destruct p as [|[|[|[|p]]]]; [by do 3 right|auto|auto|auto|]. do 3 right. split; [|lia].
  cbn -[replicate]. unfold demo_procs. change (replicate 60 proc0 !!! p = proc0).
  change (4 + p < 64)%nat in Hp. apply lookup_total_replicate_2. lia.
Qed.

Lemma demo_sched : sched_inv demo_q demo_p.
Proof.
  split.
  - apply demo_rq.
  - done.
  - intros p Hp. unfold queued. setoid_rewrite demo_q_elem.
    destruct (demo_slot p Hp) as [->|[->|[->|[E Hne]]]]; [..|rewrite E]; cbn.
    + split; [done|]. by intros (? & ? & _ & _ & ?).
    + split; [done|]. by intros (? & ? & _ & _ & ?).
    + split; [|done]. intros _. by exists 0%nat, 2%nat.
    + split; [done|]. by intros (? & ? & _ & _ & ?).
  - intros p Hp. assert (kva 1040 <> 0 /\ kva 1024 <> 0 /\ kva 1041 <> 0 /\ kva 1042 <> 0) as (H1 & H2 & H3 & H4) by done.
    destruct (demo_slot p Hp) as [->|[->|[->|[E _]]]]; [..|rewrite E]; split; cbn; try done; lia.
  - split; [cbn; lia|done].
Qed.

Lemma demo_held_sched h : sched_inv demo_q (demo_held h).
Proof. apply sched_inv_pm, demo_sched. Qed.

(** ** Witnesses of the run-queue theorems *)

Lemma rq_push_refines_witness :
  wp (rq_push 1 2) (fun _ s' => let Q' := upd_q demo_q 1 2 (demo_q 1%nat 2%nat ++ [2%nat]) in
    qstep demo_q None Q' /\ rq_inv Q' s' /\ rq_frame demo_p s') demo_p.
Proof.
  apply (rq_push_refines demo_q demo_p 1 2 2); try done; [apply demo_rq|cbn; lia..| |vm_compute; lia].
  intros c k (_ & _ & H)%demo_q_elem. done.
Defined.

Lemma rq_pop_refines_witness :
  wp (rq_pop 0) (fun r s' => r = head (qall demo_q 0) /\
    match r with
    | None => s' = demo_p
    | Some p => exists Q', qstep demo_q (Some (0%nat, p)) Q' /\ rq_inv Q' s' /\ rq_frame demo_p s' /\
                  qall Q' 0 = tail (qall demo_q 0) /\ forall c', c' <> 0%nat -> qall Q' c' = qall demo_q c'
    end) demo_p.
Proof. apply (rq_pop_refines demo_q demo_p 0); [apply demo_rq|cbn; lia]. Defined.

(** Process 3 is queued and waits. *)
Lemma rq_age_refines_witness :
  wp (rq_age 12) (fun _ s' => aged 12 (procs demo_p !!! 3%nat) (procs s' !!! 3%nat) /\ p_prio (procs s' !!! 3%nat) = 1) demo_p.
Proof.
  eapply wp_mono; [apply (rq_age_refines 12 demo_q demo_p); [apply demo_rq|vm_compute; lia]|].
  intros _ s' (Q' & _ & Ha & _). specialize (Ha 3%nat ltac:(by vm_compute; left)). split; [done|].
  apply (ag_due _ _ _ Ha). split; vm_compute; congruence.
Defined.

(** Processes 3 and 4 at the top level of CPU 0, in this order. *)
Definition demo_top : pstate :=
  put_runq (MkRq [Some 3%nat; None; None; None] [Some 4%nat; None; None; None] 2 :: replicate 7 rq0)
    (put_procs (alter (fun x => set_rqnext (Some 4%nat) (set_prio 0 x)) 3%nat (alter (set_prio 0) 4%nat demo_procs)) demo_p).
Definition demo_q0 : queues := fun c k => if decide (c = 0%nat /\ k = 0%nat) then [3%nat; 4%nat] else [].

Lemma demo_top_rq : rq_inv demo_q0 demo_top.
Proof.
  assert (forall c k p, p ∈ demo_q0 c k -> c = 0%nat /\ k = 0%nat /\ (p = 3%nat \/ p = 4%nat)) as He.
  { intros c k p. unfold demo_q0. case_decide as E; [destruct E as [-> ->]|]; set_solver. }
  split.
  - cbn. lia.
  - intros c Hc. change (c < 8)%nat in Hc. do 8 (destruct c as [|c]; [done|]). lia.
  - intros c k Hc Hk. change (c < 8)%nat in Hc. change (k < 4)%nat in Hk.
    destruct c as [|c]; [do 4 (destruct k as [|k]; [done|]); lia|].
    do 7 (destruct c as [|c]; [do 4 (destruct k as [|k]; [done|]); lia|]). lia.
  - intros c Hc. change (c < 8)%nat in Hc. do 8 (destruct c as [|c]; [done|]). lia.
  - intros c k. unfold demo_q0. case_decide; [|apply NoDup_nil_2]. apply NoDup_cons. split; [|apply NoDup_singleton].
    rewrite list_elem_of_singleton. lia.
  - intros c k c' k' p (-> & -> & _)%He (-> & -> & _)%He. done.
  - intros c k p (-> & -> & [-> | ->])%He; split_and!; first [done|vm_compute; lia].
Qed.

(** The state after [m]. *)
Definition after {A} (m : M pstate A) (s : pstate) : pstate := match m s with Ok _ s' => s' | _ => s end.

(** An aging pass, then two processes are taken from CPU 0: the second is process 4. *)
Lemma top_level_bounded_wait_witness :
  let s := after (rq_pop 0) (after (rq_pop 0) (after (rq_age 5) demo_top)) in
  (0%nat, 4%nat) ∈ [(0%nat, 3%nat); (0%nat, 4%nat)] \/
  (taken 0 [(0%nat, 3%nat); (0%nat, 4%nat)] <= length [3%nat])%nat /\ wp (rq_pop 0) (fun r _ => is_Some r) s.
Proof.
  intros s. apply (top_level_bounded_wait demo_q0 demo_top _ s 0 4 [3%nat] []); [apply demo_top_rq|done|].
  apply (rr_step _ [] (after (rq_age 5) demo_top)); [apply (rs_age 5); [vm_compute; lia|by vm_compute]|].
  apply (rr_step _ (took 0 (Some 3%nat)) (after (rq_pop 0) (after (rq_age 5) demo_top)));
    [apply rs_pop; [by apply Nat.ltb_lt; vm_compute|by vm_compute]|].
  apply (rr_step _ (took 0 (Some 4%nat)) s); [apply rs_pop; [by apply Nat.ltb_lt; vm_compute|by vm_compute]|constructor].
Defined.

Lemma aging_reaches_top_witness :
  wp (age_passes (replicate 6 5)) (fun _ s' => exists Q', rq_inv Q' s' /\ 3%nat ∈ Q' 0%nat 0%nat) demo_p.
Proof.
  apply (aging_reaches_top demo_q demo_p 0 2 3 (replicate 6 5));
    [apply demo_rq|vm_compute; lia|vm_compute; lia|by apply demo_q_elem|done|done|].
  intros e [-> _]%elem_of_replicate. done.
Defined.

Lemma least_loaded_cpu_min_witness :
  wp least_loaded_cpu (fun b s' => s' = demo_p /\ (b < 2)%nat /\
    forall c, (c < 2)%nat -> (length (qall demo_q b) <= length (qall demo_q c))%nat) demo_p.
Proof. apply (least_loaded_cpu_min demo_q demo_p); [apply demo_rq|cbn; lia]. Defined.

(** ** Witnesses of the process-table theorems *)

Lemma wakeup_exact_witness :
  wp (wakeup ChTicks) (fun _ s' => exists Q', sched_inv Q' s' /\ pm s' = pm demo_p /\
    forall i, (i < nproc)%nat ->
      erase_q (procs s' !!! i) = erase_q (wake ChTicks (procs demo_p !!! i)) /\
      p_rqcpu (procs s' !!! i) = p_rqcpu (procs demo_p !!! i) /\
      (queued Q' i <-> queued demo_q i \/ is_sleeping_on ChTicks (procs demo_p !!! i) = true)) demo_p.
Proof. apply (wakeup_exact demo_q demo_p ChTicks); [apply demo_sched|cbn; set_solver]. Defined.

Lemma kill_marks_witness :
  wp (kill 2) (fun r s' => exists Q', sched_inv Q' s' /\ pm s' = pm demo_p /\
    ((r = -1 /\ s' = demo_p /\ forall j, (j < nproc)%nat -> p_pid (procs demo_p !!! j) <> 2) \/
     (r = 0 /\ exists i, (i < nproc)%nat /\ p_pid (procs demo_p !!! i) = 2 /\
        (forall j, (j < i)%nat -> p_pid (procs demo_p !!! j) <> 2) /\
        forall j, (j < nproc)%nat -> erase_q (procs s' !!! j) =
          erase_q (if decide (j = i) then woken (set_killed 1 (procs demo_p !!! j)) else procs demo_p !!! j)))) demo_p.
Proof. apply (kill_marks demo_q demo_p 2); [apply demo_sched|cbn; set_solver]. Defined.

Lemma scheduler_safe_witness :
  wps (fun s1 => exists Q1 p, sched_inv Q1 s1 /\ held (pm s1) = [LPtable] /\ cpus s1 !!! me s1 = Some p /\
         (p < nproc)%nat /\ p_state (procs s1 !!! p) = RUNNING /\ cr3 (pm s1) = V2P (p_pgdir (procs s1 !!! p)) /\
         p_prio (procs s1 !!! p) = p_base_prio (procs s1 !!! p) /\
         p_slice (procs s1 !!! p) = quantum_for (p_prio (procs s1 !!! p)))
      (fun _ s2 => exists Q2, sched_inv Q2 s2 /\ held (pm s2) = [LPtable])
      scheduler_iter
      (fun _ s3 => exists Q3, sched_inv Q3 s3 /\ held (pm s3) = []) demo_p.
Proof. apply (scheduler_safe demo_q demo_p); [apply demo_sched|done]. Defined.

Lemma demo_running h : running 1 (demo_held h).
Proof. split; [done|]. split; [vm_compute; lia|done]. Qed.

Lemma sleep_atomic_witness :
  wps (fun s1 => given_up s1 /\ p_state (procs s1 !!! 1%nat) = SLEEPING /\ p_chan (procs s1 !!! 1%nat) = ChTicks)
      (resumed 1) (sleep ChTicks LTicks)
      (fun _ s2 => exists Q2, sched_inv Q2 s2 /\ held (pm s2) = [LTicks] /\ running 1 s2 /\
         p_chan (procs s2 !!! 1%nat) = ChNone) (demo_held [LTicks]).
Proof. apply (sleep_atomic demo_q (demo_held [LTicks]) 1); [apply demo_held_sched|apply demo_running|done]. Defined.

Lemma yield_requeues_witness :
  wps (fun s1 => exists Q1, sched_inv Q1 s1 /\ held (pm s1) = [LPtable] /\
         p_state (procs s1 !!! 1%nat) = RUNNABLE /\ queued Q1 1 /\ p_rqcpu (procs s1 !!! 1%nat) = me s1)
      (resumed 1) yield
      (fun _ s2 => exists Q2, sched_inv Q2 s2 /\ held (pm s2) = [] /\ running 1 s2) (demo_held []).
Proof. apply (yield_requeues demo_q (demo_held []) 1); [apply demo_held_sched|apply demo_running|done]. Defined.

Lemma kill_zero_poisons_witness :
  wp (let* r := kill 0 in let* o := allocproc in ret (r, o))
     (fun ro s' => ro = (0, Some 0%nat) /\ p_state (procs s' !!! 0%nat) = EMBRYO /\
        p_pid (procs s' !!! 0%nat) = nextpid demo_p /\ p_killed (procs s' !!! 0%nat) = 1) demo_p.
Proof.
  apply (kill_zero_poisons 1024 1030 demo_G 1027 [1028; 1029] demo_q demo_p 0);
    [apply demo_sched|apply demo_vm|cbn; set_solver|vm_compute; lia|done|done|lia].
Defined.
