(* ===== verification/FutexInv.v ===== *)
(** * Futexes

    Which sleepers [futex_wake] wakes: the first of the process table, as many as
    asked for. *)

From S2P Require Import Prelude Monad Machine Kalloc Vm Demo ProcDefs RunQueue Proc ProcInv DemoProc.

(** ** Choosing the first *)

(** How many of the [n] slots from [i] on satisfy [f]. *)
Fixpoint count (f : nat -> bool) (n i : nat) : nat :=
  match n with
  | O => 0
  | S n => (if f i then 1 else 0) + count f n (S i)
  end.

(** Slot [j] is among the first [max] from [i] on that satisfy [f], [w] of which were
    met before; any slot that does if [max] is not positive. *)
Definition chosen (f : nat -> bool) (max w : Z) (i j : nat) : bool :=
  f j && ((max <=? 0) || (w + Z.of_nat (count f (j - i) i) <? max)).

Lemma count_ext f g n i : (forall j, (i <= j < i + n)%nat -> f j = g j) -> count f n i = count g n i.
Proof.
  revert i. induction n as [|n IH]; intros i H; [done|]. cbn. rewrite (H i) by lia. rewrite IH; [done|]. intros j Hj. apply H. lia.
Qed.

Lemma count_none f n i : (forall j, (i <= j < i + n)%nat -> f j = false) -> count f n i = 0%nat.
Proof.
  revert i. induction n as [|n IH]; intros i H; [done|]. cbn. rewrite (H i) by lia. apply IH. intros j Hj. apply H. lia.
Qed.

(** One slot further. *)
Lemma chosen_next f g max w i j :
  (forall k, (S i <= k <= j)%nat -> g k = f k) -> (S i <= j)%nat ->
  chosen g max (if f i then w + 1 else w) (S i) j = chosen f max w i j.
Proof.
  intros Hg Hj. unfold chosen. rewrite Hg by lia. f_equal. f_equal.
  replace (j - i)%nat with (S (j - S i)) by lia. cbn [count]. rewrite (count_ext g f) by (intros; apply Hg; lia).
  destruct (f i); f_equal; lia.
Qed.

(** Enough were met. *)
Lemma chosen_done f max w i j : f i = true -> 0 < max <= w + 1 -> (S i <= j)%nat -> chosen f max w i j = false.
Proof.
  intros Hf Hm Hj. unfold chosen. apply andb_false_iff. right. replace (j - i)%nat with (S (j - S i)) by lia. cbn [count]. rewrite Hf.
  apply orb_false_iff. split; [apply Z.leb_gt; lia|apply Z.ltb_ge; lia].
Qed.

Lemma chosen_first f max w i : f i = true -> max <= 0 \/ w < max -> chosen f max w i i = true.
Proof.
  intros Hf Hm. unfold chosen. rewrite Hf, Nat.sub_diag. cbn. apply orb_true_iff.
  destruct Hm; [left; by apply Z.leb_le|right; apply Z.ltb_lt; lia].
Qed.

(** ** The loop *)

Section wake.
Context (ch : chan) (max : Z).

Definition asleep (s : pstate) (j : nat) : bool := is_sleeping_on ch (procs s !!! j).

(** Makes runnable the slots of [i], ..., [i + n - 1] that are chosen in [s]. *)
Definition wake_chosen (s : pstate) (w : Z) (i n : nat) : nat -> proc -> proc := fun j p =>
  if decide (i <= j < i + n)%nat then if chosen (asleep s) max w i j then set_state RUNNABLE p else p else p.

Lemma wake_chosen_erase s w i n j p q :
  erase_q p = erase_q q -> erase_q (wake_chosen s w i n j p) = erase_q (wake_chosen s w i n j q).
Proof.
  intros E. unfold wake_chosen. case_decide; [|done]. destruct (chosen _ _ _ _ _); [|done]. apply erase_inj in E. by rewrite E.
Qed.

(** The number of them. *)
Definition woken_count (s : pstate) (w : Z) (i n : nat) : Z := w + Z.of_nat (count (chosen (asleep s) max w i) n i).

(** A slot is dealt with, and the loop goes on. *)
Lemma wake_step s s1 w i n s2 :
  rq_frame (map_procs (at_proc i (wake ch)) s) s1 -> length (procs s) = nproc -> (i + S n <= nproc)%nat ->
  max <= 0 \/ w < max ->
  let w1 := if asleep s i then w + 1 else w in
  rq_frame (map_procs (wake_chosen s1 w1 (S i) n) s1) s2 ->
  rq_frame (map_procs (wake_chosen s w i (S n)) s) s2 /\ woken_count s1 w1 (S i) n = woken_count s w i (S n).
Proof.
  intros H1 Hnp Hn Hm w1 H2.
  assert (forall k, (S i <= k < nproc)%nat -> asleep s1 k = asleep s k) as Hsame.
  { intros k Hk. unfold asleep. apply is_sleeping_erase. rewrite (rf_proc _ _ H1 k), map_procs_lookup by lia.
    unfold at_proc. by rewrite decide_False by lia. }
  assert (forall j, (S i <= j < nproc)%nat -> chosen (asleep s1) max w1 (S i) j = chosen (asleep s) max w i j) as Hch.
  { intros j Hj. apply chosen_next; [intros k Hk; apply Hsame; lia|lia]. }
  split.
  - eapply (map_frame_trans _ _ _ _ _ _ H1 H2); [intros; by apply wake_chosen_erase|].
    intros j Hj. unfold wake_chosen, at_proc. destruct (decide (j = i)) as [->|Hne].
    + rewrite (decide_False (P := (S i <= i < S i + n)%nat)), (decide_True (P := (i <= i < i + S n)%nat)) by lia.
      unfold wake, asleep in *. destruct (is_sleeping_on ch (procs s !!! i)) eqn:E; [by rewrite chosen_first|]. unfold chosen. by rewrite E.
    + destruct (decide (S i <= j < S i + n)%nat) as [Hin|Hout].
      * rewrite decide_True by lia. by rewrite Hch by lia.
      * by rewrite decide_False by lia.
  - unfold woken_count. cbn [count]. rewrite (count_ext (chosen (asleep s1) max w1 (S i)) (chosen (asleep s) max w i)) by (intros; apply Hch; lia).
    unfold w1. destruct (asleep s i) eqn:E; [rewrite chosen_first by done; lia|]. unfold chosen at 2. rewrite E. cbn. lia.
Qed.

End wake.

Lemma futex_wake_loop_wp pa max n i w Q s (R : Z -> pstate -> Prop) :
  sched_inv Q s -> (i + n <= nproc)%nat -> max <= 0 \/ w < max ->
  (forall Q' s', sched_inv Q' s' -> rq_frame (map_procs (wake_chosen (ChPhys pa) max s w i n) s) s' ->
     (forall j, p_rqcpu (procs s' !!! j) = p_rqcpu (procs s !!! j)) -> R (woken_count (ChPhys pa) max s w i n) s') ->
  wp (futex_wake_loop n i pa max w) R s.
Proof.
  revert i w Q s. induction n as [|n IH]; intros i w Q s Hi Hn Hm HR; cbn [futex_wake_loop].
  { apply wp_ret. unfold woken_count in HR. cbn in HR. rewrite Z.add_0_r in HR. apply (HR Q); [done| |done].
    apply map_frame_intro; [done|]. intros j _. unfold wake_chosen. by rewrite decide_False by lia. }
  assert (i < nproc)%nat as Hin by lia. pose proof (si_np _ _ Hi) as Hnp. pose proof (si_wf _ _ Hi i Hin) as Hwf.
  apply wp_bind, wp_gets. destruct (is_sleeping_on (ChPhys pa) (procs s !!! i)) eqn:Esl.
  - pose proof (wake_not_queued _ _ Esl) as Hst. destruct (wp_mem _ _ Hwf) as [Hks Hpg]; [by rewrite Hst|].
    apply wp_bind, wp_gets, wp_bind. eapply (make_runnable_wp Q s); [done|apply Hwf|done|by rewrite Hst|done|done|].
    intros Q1 s1 Hi1 Hf1 Hcpu1 Hcpui _.
    assert (forall j, p_rqcpu (procs s1 !!! j) = p_rqcpu (procs s !!! j)) as Hcpu
      by (intros j; destruct (decide (j = i)) as [->|]; [done|by apply Hcpu1]).
    assert (rq_frame (map_procs (at_proc i (wake (ChPhys pa))) s) s1) as Hf1'.
    { trans (map_procs (at_proc i (set_state RUNNABLE)) s); [|done]. apply map_frame_ext. intros j _. unfold at_proc.
      case_decide; [|done]. subst j. unfold wake. by rewrite Esl. }
    assert (asleep (ChPhys pa) s i = true) as Easl by done.
    destruct ((0 <? max) && (max <=? w + 1)) eqn:Ebr.
    + zbool. apply wp_ret. replace (w + 1) with (woken_count (ChPhys pa) max s w i (S n)); [apply (HR Q1); [done| |done]|].
      * eapply (map_frame_trans _ (fun _ p => p) _ _ _ _ Hf1'); [by apply map_frame_intro|done|]. intros j Hj.
        unfold wake_chosen, at_proc. destruct (decide (j = i)) as [->|Hne].
        -- rewrite decide_True, chosen_first by (lia || done). unfold wake. by rewrite Esl.
        -- case_decide; [|done]. by rewrite chosen_done by (lia || done).
      * unfold woken_count. cbn [count]. rewrite chosen_first by done.
        rewrite count_none; [lia|]. intros j Hj. apply chosen_done; [done|lia|lia].
    + eapply (IH (S i) (w + 1) Q1); [done|lia|apply andb_false_iff in Ebr as [?|?]; zbool; lia|].
      intros Q2 s2 Hi2 Hf2 Hcpu2.
      destruct (wake_step (ChPhys pa) max s s1 w i n s2 Hf1' Hnp Hn Hm) as [Hfr Hcnt]; [by rewrite Easl|].
      rewrite Easl in Hcnt. rewrite Hcnt. apply (HR Q2); [done|done|]. intros j. by rewrite Hcpu2.
  - assert (asleep (ChPhys pa) s i = false) as Easl by done.
    eapply (IH (S i) w Q); [done|lia|done|]. intros Q2 s2 Hi2 Hf2 Hcpu2.
    destruct (wake_step (ChPhys pa) max s s w i n s2) as [Hfr Hcnt]; [|done|done|done|by rewrite Easl|].
    { apply map_frame_intro; [done|]. intros j _. unfold at_proc. case_decide; [|done]. subst j. unfold wake. by rewrite Esl. }
    rewrite Easl in Hcnt. rewrite Hcnt. by apply (HR Q2).
Qed.

(** C39. [futex_wake(addr, n)] wakes the right sleepers: of the processes sleeping on
    the physical address of the word exactly the first [n] in the table, or all of
    them if [n] is not positive, become runnable on the CPU they last ran on; their
    number is returned, and nothing else changes. *)
Theorem futex_wake_exact Q s p addr n pa :
  let ch := ChPhys pa in
  let woken := chosen (asleep ch s) n 0 0 in
  sched_inv Q s -> LPtable ∉ held (pm s) -> running p s ->
  addr mod 4 = 0 -> u32 (addr + 4) <= p_sz (procs s !!! p) ->
  uva2pa (p_pgdir (procs s !!! p)) addr (pm s) = Ok pa (pm s) -> pa <> 0 ->
  wp (futex_wake addr n) (fun r s' => exists Q', sched_inv Q' s' /\ pm s' = pm s /\ r = Z.of_nat (count woken nproc 0) /\
    forall i, (i < nproc)%nat ->
      erase_q (procs s' !!! i) = erase_q (if woken i then set_state RUNNABLE (procs s !!! i) else procs s !!! i) /\
      p_rqcpu (procs s' !!! i) = p_rqcpu (procs s !!! i)) s.
Proof.
  intros ch woken Hi Hl (Hc & Hp & _) Ha Hsz Hpa Hne. pose proof (si_np _ _ Hi) as Hnp. unfold futex_wake.
  apply wp_bind, wp_bind, wp_gets. rewrite Hc. apply wp_ret, wp_bind, wp_gets. rewrite Ha, (proj2 (Z.ltb_ge _ _)) by lia. cbn [Z.eqb negb orb].
  apply wp_bind, wp_gets, wp_bind, wp_zoom. apply wp_ok. exists pa, (pm s). split; [done|].
  assert (put_pm (pm s) s = s) as -> by by destruct s. rewrite (proj2 (Z.eqb_neq _ _) Hne).
  apply wp_bind, pacquire_wp; [done|]. apply wp_bind.
  eapply (futex_wake_loop_wp pa n nproc 0 0 Q); [by apply sched_inv_locked|lia|lia|]. intros Q' s1 Hi1 Hf Hcpu.
  apply wp_bind, (prelease_wp LPtable s); [apply (rf_pm _ _ Hf)|done|]. apply wp_ret. apply map_frame_locked in Hf.
  exists Q'. split; [by apply sched_inv_pm|]. split; [done|]. split; [done|]. intros i Hin. split; [|apply Hcpu].
  pose proof (rf_proc _ _ Hf i) as E. rewrite map_procs_lookup in E by lia. unfold wake_chosen in E. by rewrite decide_True in E by lia.
Qed.

(** Process 2 waits for the word at address 0, which process 1 can reach. *)
Definition demo_wait : pstate := put_procs (alter (set_chan (ChPhys 0x402000)) 2%nat (procs demo_p)) demo_p.
Definition demo_futex : pstate := put_procs (alter (set_sz 4096) 1%nat (procs demo_wait)) demo_wait.

Lemma demo_futex_sched : sched_inv demo_q demo_futex.
Proof. apply sched_inv_field; [|done]. apply sched_inv_field; [apply demo_sched|done]. Qed.

Lemma futex_wake_exact_witness :
  let ch := ChPhys 0x402000 in
  let woken := chosen (asleep ch demo_futex) 1 0 0 in
  wp (futex_wake 0 1) (fun r s' => exists Q', sched_inv Q' s' /\ pm s' = pm demo_futex /\ r = Z.of_nat (count woken nproc 0) /\
    forall i, (i < nproc)%nat ->
      erase_q (procs s' !!! i) = erase_q (if woken i then set_state RUNNABLE (procs demo_futex !!! i) else procs demo_futex !!! i) /\
      p_rqcpu (procs s' !!! i) = p_rqcpu (procs demo_futex !!! i)) demo_futex.
Proof.
  intros ch woken.
  apply (futex_wake_exact demo_q demo_futex 1 0 1 0x402000); [apply demo_futex_sched|vm_compute; set_solver| |done|vm_compute; congruence| |done].
  - split; [done|]. split; [vm_compute; lia|done].
  - vm_compute. reflexivity.
Defined.
