(* ===== verification/Uthread.v ===== *)
(** * User threads (uthread.c)

    Mutexes and condition variables built from an atomic exchange and futexes, run by
    any number of threads that interleave at every access to shared memory and at
    every system call.  [futex_wake] wakes the threads that [FutexInv] shows the
    kernel wakes; [futex_wait] looks at the word once before it takes the kernel's lock
    and once under it, when it goes to sleep. *)

From S2P Require Import Prelude FutexInv.

(** ** Threads *)

(** What a thread does after the unlock it is in: return, or wait for the condition
    whose count it read. *)
Inductive after : Type := Return | WaitFor (seq : Z).

Inductive pc : Type :=
  | Out                          (* in user code, without the mutex *)
  | In                           (* in user code, with the mutex *)
  | LockXchg                     (* mutex_lock: uxchg(&m->locked, 1) is next *)
  | LockLook                     (* futex_wait(&m->locked, 1): the first look *)
  | LockSleep                    (* the look under ptable.lock *)
  | LockAsleep
  | UnlockXchg (k : after)       (* mutex_unlock: uxchg(&m->locked, 0) is next *)
  | UnlockWake (k : after)       (* futex_wake(&m->locked, 1) *)
  | CondLook (seq : Z)           (* futex_wait(&c->seq, seq) *)
  | CondSleep (seq : Z)
  | CondAsleep
  | SigRead (all mine : bool)    (* cond_signal, cond_broadcast: c->seq is read next *)
  | SigXchg (all mine : bool) (seq : Z)
  | SigWake (all mine : bool).

#[export] Instance pc_inhabited : Inhabited pc := populate Out.

(** The mutex word, the condition's count and the threads. *)
Record ut : Type := MkUt { locked : Z; seq : Z; ths : list pc }.

Definition goto (i : nat) (x : pc) (s : ut) : ut := MkUt (locked s) (seq s) (<[i := x]> (ths s)).
Definition set_locked (v : Z) (s : ut) : ut := MkUt v (seq s) (ths s).
Definition set_seq (v : Z) (s : ut) : ut := MkUt (locked s) v (ths s).

Definition on_mutex (x : pc) : bool := match x with LockAsleep => true | _ => false end.
Definition on_cond (x : pc) : bool := match x with CondAsleep => true | _ => false end.

(** [futex_wake]: a thread woken up goes on to take the mutex, in [mutex_lock]'s loop
    or at the end of [cond_wait]. *)
Definition futex_wake_threads (f : pc -> bool) (n : Z) (s : ut) : ut :=
  MkUt (locked s) (seq s)
    (imap (fun j x => if chosen (fun k => f (ths s !!! k)) n 0 0 j then LockXchg else x) (ths s)).

(** ** The library, one access at a time *)

Definition mutex_init (s : ut) : ut := set_locked 0 s.
Definition cond_init (s : ut) : ut := set_seq 0 s.

Definition mutex_lock_step (i : nat) (x : pc) (s : ut) : ut :=
  match x with
  | Out => goto i LockXchg s
  | LockXchg => goto i (if locked s =? 0 then In else LockLook) (set_locked 1 s)
  | LockLook => goto i (if locked s =? 1 then LockSleep else LockXchg) s
  | LockSleep => goto i (if locked s =? 1 then LockAsleep else LockXchg) s
  | _ => s
  end.

Definition mutex_trylock_step (i : nat) (s : ut) : ut :=
  goto i (if locked s =? 0 then In else Out) (set_locked 1 s).

Definition mutex_unlock_step (i : nat) (x : pc) (s : ut) : ut :=
  match x with
  | In => goto i (UnlockXchg Return) s
  | UnlockXchg k => goto i (UnlockWake k) (set_locked 0 s)
  | UnlockWake k =>
      goto i (match k with Return => Out | WaitFor v => CondLook v end) (futex_wake_threads on_mutex 1 s)
  | _ => s
  end.

Definition cond_wait_step (i : nat) (x : pc) (s : ut) : ut :=
  match x with
  | In => goto i (UnlockXchg (WaitFor (seq s))) s
  | CondLook v => goto i (if seq s =? v then CondSleep v else LockXchg) s
  | CondSleep v => goto i (if seq s =? v then CondAsleep else LockXchg) s
  | _ => s
  end.

(** [cond_signal], or [cond_broadcast] if [all]; [mine] if the caller has the mutex. *)
Definition cond_signal_step (i : nat) (x : pc) (s : ut) : ut :=
  match x with
  | SigRead all mine => goto i (SigXchg all mine (seq s)) s
  | SigXchg all mine v => goto i (SigWake all mine) (set_seq (u32 (v + 1)) s)
  | SigWake all mine => goto i (if mine then In else Out) (futex_wake_threads on_cond (if all then 0 else 1) s)
  | _ => s
  end.

(** What a thread in user code calls next; only the owner unlocks and waits. *)
Inductive call : Type := CLock | CTrylock | CUnlock | CWait | CSignal (all : bool).

Definition step (i : nat) (c : call) (s : ut) : ut :=
  match ths s !!! i with
  | Out =>
      match c with
      | CLock => mutex_lock_step i Out s
      | CTrylock => mutex_trylock_step i s
      | CSignal all => goto i (SigRead all false) s
      | _ => s
      end
  | In =>
      match c with
      | CUnlock => mutex_unlock_step i In s
      | CWait => cond_wait_step i In s
      | CSignal all => goto i (SigRead all true) s
      | _ => s
      end
  | (LockXchg | LockLook | LockSleep) as x => mutex_lock_step i x s
  | (UnlockXchg _ | UnlockWake _) as x => mutex_unlock_step i x s
  | (CondLook _ | CondSleep _) as x => cond_wait_step i x s
  | (SigRead _ _ | SigXchg _ _ _ | SigWake _ _) as x => cond_signal_step i x s
  | LockAsleep | CondAsleep => s
  end.

(** Threads take steps in any order. *)
Inductive reachable (n : nat) : ut -> Prop :=
  | r_init s : reachable n (cond_init (mutex_init (MkUt (locked s) (seq s) (replicate n Out))))
  | r_step i c s : (i < n)%nat -> reachable n s -> reachable n (step i c s).

(** ** Owners *)

Definition owns (x : pc) : bool :=
  match x with
  | In | UnlockXchg _ | SigRead _ true | SigXchg _ true _ | SigWake _ true => true
  | _ => false
  end.
(** On the way to take the mutex or to wake up a thread that is. *)
Definition coming (x : pc) : bool :=
  match x with LockXchg | LockLook | LockSleep | UnlockWake _ => true | _ => false end.

Fixpoint owners (l : list pc) : nat :=
  match l with
  | [] => 0
  | x :: l => (if owns x then 1 else 0) + owners l
  end.

Lemma owners_insert i x l : (i < length l)%nat ->
  (owners (<[i := x]> l) + (if owns (l !!! i) then 1 else 0) = owners l + (if owns x then 1 else 0))%nat.
Proof.
  revert i. induction l as [|y l IH]; intros i Hi; [cbn in Hi; lia|]. destruct i as [|i].
  - change ((y :: l) !!! 0%nat) with y. cbn. lia.
  - change ((y :: l) !!! S i) with (l !!! i). change (<[S i := x]> (y :: l)) with (y :: <[i := x]> l). cbn [owners].
    specialize (IH i ltac:(cbn in Hi; lia)). lia.
Qed.

Lemma owners_ext l l' : length l' = length l -> (forall i, (i < length l)%nat -> owns (l' !!! i) = owns (l !!! i)) -> owners l' = owners l.
Proof.
  revert l'. induction l as [|x l IH]; intros [|y l'] Hl H; try done. cbn. f_equal.
  - specialize (H 0%nat ltac:(cbn; lia)). cbn in H. by rewrite H.
  - apply IH; [by injection Hl|]. intros i Hi. apply (H (S i)). cbn. lia.
Qed.

Lemma owners_two i j l : (i < length l)%nat -> (j < length l)%nat -> owns (l !!! i) = true -> owns (l !!! j) = true -> i <> j -> (2 <= owners l)%nat.
Proof.
  intros Hi Hj Oi Oj Hne. pose proof (owners_insert i Out l Hi) as H1. rewrite Oi in H1.
  pose proof (owners_insert j Out (<[i := Out]> l)) as H2. rewrite length_insert, list_lookup_total_insert_ne, Oj in H2 by done.
  specialize (H2 Hj). cbn in *. lia.
Qed.

(** ** The invariant *)

Definition some (f : pc -> bool) (l : list pc) : Prop := exists j, (j < length l)%nat /\ f (l !!! j) = true.

Record ut_inv (n : nat) (s : ut) : Prop := {
  ui_len : length (ths s) = n;
  ui_word : (locked s = 0 /\ owners (ths s) = 0%nat) \/ (locked s = 1 /\ owners (ths s) = 1%nat);
  ui_wake : some on_mutex (ths s) -> locked s = 1 \/ some coming (ths s)
}.

Lemma some_insert_other f i x l : f (l !!! i) = false -> some f l -> some f (<[i := x]> l).
Proof.
  intros Hi (j & Hj & Hf). exists j. rewrite length_insert. split; [done|]. destruct (decide (j = i)) as [->|]; [congruence|].
  by rewrite list_lookup_total_insert_ne.
Qed.

Lemma some_insert_self f i x l : (i < length l)%nat -> f x = true -> some f (<[i := x]> l).
Proof. intros Hi Hf. exists i. rewrite length_insert. split; [done|]. by rewrite list_lookup_total_insert_eq. Qed.

Lemma some_insert_inv f i x l : (i < length l)%nat -> f x = false -> some f (<[i := x]> l) -> some f l.
Proof.
  intros Hi Hf (j & Hj & Hfj). rewrite length_insert in Hj. exists j. split; [done|]. destruct (decide (j = i)) as [->|].
  - rewrite list_lookup_total_insert_eq in Hfj by done. congruence.
  - by rewrite list_lookup_total_insert_ne in Hfj.
Qed.

(** A thread moves on, and the words may change. *)
Lemma ut_inv_goto n s i x lk sq :
  ut_inv n s -> (i < n)%nat ->
  (lk = 0 /\ (owners (ths s) + (if owns x then 1 else 0) = if owns (ths s !!! i) then 1 else 0)%nat) \/
  (lk = 1 /\ (owners (ths s) + (if owns x then 1 else 0) = S (if owns (ths s !!! i) then 1 else 0))%nat) ->
  (on_mutex x = true -> lk = 1) ->
  lk = 1 \/ coming x = true \/ (locked s = lk /\ coming (ths s !!! i) = false) ->
  ut_inv n (MkUt lk sq (<[i := x]> (ths s))).
Proof.
  intros [Hl Hw Hwk] Hi Ho Hm Hc. pose proof (owners_insert i x (ths s) ltac:(lia)) as E. split; cbn [ths locked].
  - by rewrite length_insert.
  - destruct Ho as [[-> Ho]|[-> Ho]]; [left|right]; split; try done; lia.
  - intros Hs. destruct Hc as [->|[Hc|[Hlk Hc]]]; [by left|right; apply some_insert_self; [lia|done]|].
    destruct (on_mutex x) eqn:Ex; [left; by apply Hm|]. apply some_insert_inv in Hs; [|lia|done].
    destruct (Hwk Hs) as [H|H]; [left; congruence|right; by apply some_insert_other].
Qed.

(** ** Wakeups *)

Lemma first_true f n : (exists j, (j < n)%nat /\ f j = true) -> exists j, (j < n)%nat /\ f j = true /\ forall k, (k < j)%nat -> f k = false.
Proof.
  intros (j & Hj & Hf). revert Hj Hf. induction j as [j IH] using lt_wf_ind. intros Hj Hf.
  destruct (decide (Exists (fun k => f k = true) (List.seq 0 j))) as [He|Hne].
  - apply Exists_exists in He as (k & Hk%elem_of_seq & Hfk). apply (IH k); [lia|lia|done].
  - exists j. split; [done|]. split; [done|]. intros k Hk. apply not_true_iff_false. intros Hc. apply Hne, Exists_exists.
    exists k. split; [apply elem_of_seq; lia|done].
Qed.

Lemma chosen_is f m w i j : chosen f m w i j = true -> f j = true.
Proof. unfold chosen. intros H. by zbool. Qed.

Lemma woken_length f m s : length (ths (futex_wake_threads f m s)) = length (ths s).
Proof. apply length_imap. Qed.

Lemma woken_lookup f m s j : (j < length (ths s))%nat ->
  ths (futex_wake_threads f m s) !!! j = if chosen (fun k => f (ths s !!! k)) m 0 0 j then LockXchg else ths s !!! j.
Proof.
  intros Hj. apply list_lookup_total_correct. cbn. rewrite list_lookup_imap, (list_lookup_lookup_total_lt _ _ Hj). done.
Qed.

(** Only sleepers move. *)
Lemma woken_same f g m s : (forall x, f x = true -> g x = false) -> g LockXchg = false ->
  (some g (ths (futex_wake_threads f m s)) <-> some g (ths s)).
Proof.
  intros Hfg Hg. split; intros (j & Hj & Hgj); rewrite ?woken_length in *; exists j; rewrite ?woken_length; (split; [done|]).
  - rewrite woken_lookup in Hgj by done. destruct (chosen _ _ _ _ _) eqn:E; [congruence|done].
  - rewrite woken_lookup by done. destruct (chosen _ _ _ _ _) eqn:E; [|done]. apply chosen_is in E. apply Hfg in E. congruence.
Qed.

Lemma woken_owners f m s : (forall x, f x = true -> owns x = false) -> owners (ths (futex_wake_threads f m s)) = owners (ths s).
Proof.
  intros Hf. apply owners_ext; [apply woken_length|]. intros i Hi. rewrite woken_lookup by done.
  destruct (chosen _ _ _ _ _) eqn:E; [|done]. apply chosen_is in E. symmetry. by apply Hf.
Qed.

(** If a thread sleeps, one is woken up. *)
Lemma woken_first f s : some f (ths s) ->
  exists k, (k < length (ths s))%nat /\ f (ths s !!! k) = true /\ ths (futex_wake_threads f 1 s) !!! k = LockXchg.
Proof.
  intros Hs. destruct (first_true (fun k => f (ths s !!! k)) _ Hs) as (j & Hj & Hf & Hbefore).
  exists j. rewrite woken_lookup by done. split; [done|]. split; [done|].
  assert (chosen (fun k => f (ths s !!! k)) 1 0 0 j = true) as ->; [|done].
  unfold chosen. rewrite Hf, Nat.sub_0_r, count_none; [done|]. intros k Hk. apply Hbefore. lia.
Qed.

(** ** Every step *)

Lemma unlock_wake_inv n s i x :
  ut_inv n s -> (i < n)%nat -> coming (ths s !!! i) = true -> owns (ths s !!! i) = false -> on_mutex (ths s !!! i) = false ->
  owns x = false -> on_mutex x = false ->
  ut_inv n (goto i x (futex_wake_threads on_mutex 1 s)).
Proof.
  intros [Hl Hw Hwk] Hi Hc Ho Hm Hox Hmx. set (s1 := futex_wake_threads on_mutex 1 s).
  assert (length (ths s1) = n) as Hl1 by (unfold s1; by rewrite woken_length).
  assert (ths s1 !!! i = ths s !!! i) as Ei.
  { unfold s1. rewrite woken_lookup by lia. destruct (chosen _ _ _ _ _) eqn:E; [|done]. apply chosen_is in E. congruence. }
  assert (owners (ths s1) = owners (ths s)) as Eo by (apply woken_owners; by intros []).
  pose proof (owners_insert i x (ths s1) ltac:(lia)) as E. rewrite Ei, Ho, Hox in E.
  split; cbn [ths locked goto]; [by rewrite length_insert|cbn [s1 futex_wake_threads locked]; destruct Hw as [[? ?]|[? ?]]; [left|right]; split; try done; lia|].
  intros Hs. right.
  assert (some on_mutex (ths s)) as Hsl.
  { apply some_insert_inv in Hs; [|lia|done]. destruct Hs as (j & Hj & Hfj). unfold s1 in *. rewrite woken_length in Hj.
    exists j. split; [done|]. rewrite woken_lookup in Hfj by done. by destruct (chosen _ _ _ _ _). }
  destruct (woken_first _ _ Hsl) as (k & Hk & Hf & Hx). exists k. rewrite length_insert. split; [lia|].
  rewrite list_lookup_total_insert_ne by (intros ->; congruence). unfold s1. by rewrite Hx.
Qed.

Lemma signal_wake_inv n s i m x :
  ut_inv n s -> (i < n)%nat -> coming (ths s !!! i) = false -> on_cond (ths s !!! i) = false ->
  owns x = owns (ths s !!! i) -> on_mutex x = false ->
  ut_inv n (goto i x (futex_wake_threads on_cond m s)).
Proof.
  intros [Hl Hw Hwk] Hi Hc Ho Hox Hmx. set (s1 := futex_wake_threads on_cond m s).
  assert (length (ths s1) = n) as Hl1 by (unfold s1; by rewrite woken_length).
  assert (ths s1 !!! i = ths s !!! i) as Ei.
  { unfold s1. rewrite woken_lookup by lia. destruct (chosen _ _ _ _ _) eqn:E; [|done]. apply chosen_is in E. congruence. }
  apply (ut_inv_goto n s1 i x (locked s) (seq s)); [|lia| |by rewrite Hmx|right; right; split; [done|by rewrite Ei]].
  - split; [done| |].
    + unfold s1. rewrite woken_owners by (by intros []). exact Hw.
    + unfold s1. rewrite (woken_same on_cond on_mutex) by (done || by intros []). intros Hs. destruct (Hwk Hs) as [H|(j & Hj & Hcj)]; [by left|].
      right. exists j. rewrite woken_length, woken_lookup by done. split; [done|]. by destruct (chosen _ _ _ _ _).
  - unfold s1. rewrite woken_owners by (by intros []). fold s1. rewrite Ei, Hox.
    destruct Hw as [[-> ->]|[-> ->]]; [left|right]; split; try done; destruct (owns _); lia.
Qed.

(** The obligations of [ut_inv_goto] when the thread's state is known. *)
Ltac moved n s i E Hw :=
  apply (ut_inv_goto n s i); [done|done| | |]; rewrite ?E; cbn [owns on_mutex coming];
    [destruct Hw as [[? Ho]|[? Ho]]; first [left; split; [done|lia] | right; split; [done|lia] | exfalso; lia]|try done|auto].

Lemma step_inv n i c s : (i < n)%nat -> ut_inv n s -> ut_inv n (step i c s).
Proof.
  intros Hi Hinv. pose proof (ui_word _ _ Hinv) as Hw. pose proof (ui_len _ _ Hinv) as Hl.
  assert (owns (ths s !!! i) = true -> locked s = 1 /\ owners (ths s) = 1%nat) as Hown.
  { intros H. destruct Hw as [[_ H0]|?]; [|done]. pose proof (owners_insert i Out (ths s) ltac:(lia)) as E. rewrite H, H0 in E. cbn in E. lia. }
  unfold step. destruct (ths s !!! i) eqn:E; cbn [owns] in Hown.
  - destruct c; try done.
    + moved n s i E Hw.
    + unfold mutex_trylock_step. destruct (Z.eqb_spec (locked s) 0) as [E0|E0]; moved n s i E Hw.
    + moved n s i E Hw.
  - destruct (Hown eq_refl) as [H1 H2]. destruct c; try done; moved n s i E Hw.
  - unfold mutex_lock_step. destruct (Z.eqb_spec (locked s) 0) as [E0|E0]; moved n s i E Hw.
  - unfold mutex_lock_step. destruct (Z.eqb_spec (locked s) 1) as [E0|E0]; moved n s i E Hw.
  - unfold mutex_lock_step. destruct (Z.eqb_spec (locked s) 1) as [E0|E0]; moved n s i E Hw.
  - done.
  - destruct (Hown eq_refl) as [H1 H2]. moved n s i E Hw.
  - apply unlock_wake_inv; rewrite ?E; try done; by destruct k.
  - unfold cond_wait_step. destruct (seq s =? _); moved n s i E Hw.
  - unfold cond_wait_step. destruct (seq s =? _); moved n s i E Hw.
  - done.
  - destruct mine; moved n s i E Hw.
  - destruct mine; moved n s i E Hw.
  - apply signal_wake_inv; rewrite ?E; try done; by destruct mine.
Qed.

Lemma ut_reachable_inv n s : reachable n s -> ut_inv n s.
Proof.
  induction 1 as [s|i c s Hi _ IH]; [|by apply step_inv]. split; cbn.
  - apply length_replicate.
  - left. split; [done|]. induction n as [|n IH]; [done|exact IH].
  - intros (j & Hj & Hm). rewrite lookup_total_replicate_2 in Hm by (by rewrite length_replicate in Hj). done.
Qed.

(** C8. The mutex of the thread library, under every interleaving of any number of
    threads that lock, try, unlock, wait, signal and broadcast: at most one thread has
    it, and none sleeps forever.  Whenever a thread sleeps for the mutex, some thread
    has it, or is awake on its way to take it or to wake up a sleeper; so a free mutex
    that no thread is busy with has no sleepers. *)
Theorem mutex_correct n s :
  reachable n s ->
  (forall i j, (i < n)%nat -> (j < n)%nat -> owns (ths s !!! i) = true -> owns (ths s !!! j) = true -> i = j) /\
  (some on_mutex (ths s) -> some owns (ths s) \/ some coming (ths s)) /\
  (some owns (ths s) <-> locked s = 1) /\ (locked s = 0 \/ locked s = 1).
Proof.
  intros Hr%ut_reachable_inv. destruct Hr as [Hl Hw Hwk].
  assert (some owns (ths s) <-> locked s = 1) as Hs.
  { split.
    - intros (i & Hi & Ho). destruct Hw as [[_ H0]|[? _]]; [|done]. pose proof (owners_insert i Out (ths s) Hi) as E.
      rewrite Ho, H0 in E. cbn in E. lia.
    - intros H1. destruct Hw as [[? _]|[_ Ho]]; [congruence|]. clear -Ho. induction (ths s) as [|x l IH]; [done|].
      cbn in Ho. destruct (owns x) eqn:Ex; [exists 0%nat; cbn; split; [lia|done]|]. destruct (IH Ho) as (j & Hj & Hoj).
      exists (S j). cbn. split; [lia|done]. }
  split_and!; [|intros Hm; rewrite Hs; by apply Hwk|done|destruct Hw as [[? _]|[? _]]; auto].
  intros i j Hi Hj Oi Oj. destruct (decide (i = j)) as [|Hne]; [done|exfalso].
  pose proof (owners_two i j (ths s) ltac:(lia) ltac:(lia) Oi Oj Hne). destruct Hw as [[_ ?]|[_ ?]]; lia.
Qed.

(** Thread 0 has the mutex, thread 1 sleeps for it. *)
Definition demo_threads : ut :=
  step 1 CLock (step 1 CLock (step 1 CLock (step 1 CLock (step 0 CLock (step 0 CLock
    (cond_init (mutex_init (MkUt 0 0 (replicate 2 Out))))))))).

Lemma demo_threads_reachable : reachable 2 demo_threads.
Proof. do 6 (apply r_step; [lia|]). apply (r_init 2 (MkUt 0 0 [])). Qed.

Lemma mutex_correct_witness :
  ths demo_threads = [In; LockAsleep] /\
  (forall i j, (i < 2)%nat -> (j < 2)%nat -> owns (ths demo_threads !!! i) = true -> owns (ths demo_threads !!! j) = true -> i = j) /\
  (some on_mutex (ths demo_threads) -> some owns (ths demo_threads) \/ some coming (ths demo_threads)) /\
  (some owns (ths demo_threads) <-> locked demo_threads = 1) /\ (locked demo_threads = 0 \/ locked demo_threads = 1).
Proof. split; [done|]. apply (mutex_correct 2 demo_threads), demo_threads_reachable. Defined.

(** ** Creating and joining threads

    The table of stacks; what [malloc], [clone] and [join] return is an argument.  The
    table is only touched with its mutex held. *)

Definition MAXTHREADS : nat := 32.
Definition UTHREAD_STACK : Z := 4096.

Record slot : Type := MkSlot { sl_stack : Z; sl_used : Z }.
Definition slot0 : slot := MkSlot 0 0.
#[export] Instance slot_inhabited : Inhabited slot := populate slot0.
Record threads : Type := MkThreads { slots : list slot; initialized : Z }.

Definition thread_init : threads := MkThreads (replicate MAXTHREADS slot0) 1.

Definition aligned_stack (raw : Z) : Z :=
  if raw =? 0 then 0 else Z.land (u32 (raw + UTHREAD_STACK - 1)) (Z.lnot (UTHREAD_STACK - 1)).

(** The first free slot from [i] on. *)
Fixpoint free_slot (l : list slot) (i : nat) : nat :=
  match l with
  | [] => i
  | x :: l => if sl_used x =? 0 then i else free_slot l (S i)
  end.

(** [raw] is malloc's result, [tid] clone's. *)
Definition thread_create (raw tid : Z) (t : threads) : Z * threads :=
  let t := if initialized t =? 0 then thread_init else t in
  let stack := aligned_stack raw in
  if stack =? 0 then (-1, t) else
  let i := free_slot (slots t) 0 in
  if (i =? MAXTHREADS)%nat then (-1, t) else
  let t := MkThreads (<[i := MkSlot stack 1]> (slots t)) (initialized t) in
  if tid <? 0 then (-1, MkThreads (alter (fun x => MkSlot (sl_stack x) 0) i (slots t)) (initialized t)) else
  (tid, t).

(** [tid] and [stack] are join's results. *)
Definition thread_join (tid stack : Z) (t : threads) : Z * threads :=
  if tid <? 0 then (-1, t) else
  (tid, MkThreads (map (fun x => if negb (sl_used x =? 0) && (sl_stack x =? stack) then MkSlot (sl_stack x) 0 else x) (slots t)) (initialized t)).

(** The page given to the thread is aligned and within the block from [malloc]. *)
Lemma aligned_stack_fits raw :
  0 < raw -> raw + 2 * UTHREAD_STACK <= 2 ^ 32 ->
  let a := aligned_stack raw in a mod UTHREAD_STACK = 0 /\ raw <= a /\ a + UTHREAD_STACK <= raw + 2 * UTHREAD_STACK.
Proof.
  unfold UTHREAD_STACK. intros H0 H1. unfold aligned_stack, UTHREAD_STACK. rewrite (proj2 (Z.eqb_neq _ _)), u32_small by lia.
  change (4096 - 1) with (Z.ones 12). rewrite <- Z.ldiff_land, Z.ldiff_ones_r by lia.
  rewrite Z.shiftl_mul_pow2, Z.shiftr_div_pow2 by lia. change (2 ^ 12) with 4096. cbv zeta.
  rewrite Z.mod_mul by lia. split; [done|]. zdiv.
Qed.

(** A thread that was created gives its slot back when it is joined. *)
Lemma free_slot_is l i : (i + length l = MAXTHREADS)%nat -> free_slot l i <> MAXTHREADS ->
  (i <= free_slot l i < MAXTHREADS)%nat /\ sl_used (l !!! (free_slot l i - i)%nat) = 0.
Proof.
  revert i. induction l as [|x l IH]; intros i Hl Hf; cbn in *; [lia|]. destruct (Z.eqb_spec (sl_used x) 0) as [E|E].
  - rewrite Nat.sub_diag. split; [lia|done].
  - destruct (IH (S i)) as [H1 H2]; [lia|done|]. split; [lia|].
    by replace (free_slot l (S i) - i)%nat with (S (free_slot l (S i) - S i)) by lia.
Qed.

Lemma create_join raw tid t :
  initialized t <> 0 -> length (slots t) = MAXTHREADS -> 0 <= tid -> aligned_stack raw <> 0 -> free_slot (slots t) 0 <> MAXTHREADS ->
  (forall x, x ∈ slots t -> sl_used x <> 0 -> sl_stack x <> aligned_stack raw) ->
  map sl_used (slots (snd (thread_join tid (aligned_stack raw) (snd (thread_create raw tid t))))) = map sl_used (slots t).
Proof.
  intros Hi Hl Ht Hs Hf Hfresh. destruct (free_slot_is (slots t) 0 Hl Hf) as [H1 H2]. rewrite Nat.sub_0_r in H2.
  unfold thread_create. rewrite (proj2 (Z.eqb_neq _ _) Hi), (proj2 (Z.eqb_neq _ _) Hs), (proj2 (Nat.eqb_neq _ _) Hf), (proj2 (Z.ltb_ge _ _)) by lia.
  unfold thread_join. rewrite (proj2 (Z.ltb_ge _ _)) by lia. cbn [snd slots]. set (f := free_slot (slots t) 0) in *.
  apply list_eq. intros j. rewrite !list_lookup_fmap. destruct (decide (j = f)) as [->|Hne].
  - rewrite list_lookup_insert_eq by lia. cbn. rewrite Z.eqb_refl. cbn.
    rewrite (list_lookup_lookup_total_lt (slots t) f) by lia. cbn. by rewrite H2.
  - rewrite list_lookup_insert_ne by done. destruct (slots t !! j) as [x|] eqn:Ej; [|done]. cbn. f_equal.
    destruct (Z.eqb_spec (sl_used x) 0); [done|]. cbn. rewrite (proj2 (Z.eqb_neq _ _)); [done|].
    apply Hfresh; [by eapply list_elem_of_lookup_2|done].
Qed.
