(* ===== verification/Sleeplock.v ===== *)
(** * Sleep locks (sleeplock.c)

    A sleep lock is held by a process across sleeps.  Besides the code, this file
    has the frame condition of kernel code that at most wakes processes up. *)

From S2P Require Import Prelude Monad Machine ProcDefs RunQueue Proc ProcInv KernDefs.

(** Bound on the times a process goes back to sleep in a loop; what is proved of
    loops that do not sleep holds for any bound. *)
Class Fuel : Type := fuel : nat.

(** The locks of the buffers and of the cached inodes. *)
Inductive slock : Type := SlBuf (i : nat) | SlInode (i : nat).

Definition sl_spin (l : slock) : lock := match l with SlBuf i => LSlBuf i | SlInode i => LSlInode i end.
Definition sl_chan (l : slock) : chan := match l with SlBuf i => ChSlBuf i | SlInode i => ChSlInode i end.
Definition sl_of (l : slock) (s : kstate) : sleeplock :=
  match l with SlBuf i => b_lock (bufs s !!! i) | SlInode i => i_lock (icache s !!! i) end.
Definition sl_put (l : slock) (x : sleeplock) (s : kstate) : kstate :=
  match l with
  | SlBuf i => put_bufs (alter (set_b_lock x) i (bufs s)) s
  | SlInode i => put_icache (alter (set_i_lock x) i (icache s)) s
  end.

(** [myproc()], dereferenced. *)
Definition kcurproc : M kstate nat := proc_op curproc.
Definition mypid : M kstate Z := let* p := kcurproc in proc_op (getp p p_pid).

Section code.
Context `{!Fuel}.

Definition initsleeplock (l : slock) : M kstate unit := modify (sl_put l (MkSl 0 0)).

Fixpoint acquiresleep_loop (n : nat) (l : slock) : M kstate unit :=
  match n with
  | O => nofuel
  | S n =>
      let* k := gets (fun s => sl_locked (sl_of l s)) in
      if negb (k =? 0) then proc_op (sleep (sl_chan l) (sl_spin l)) ;;; acquiresleep_loop n l
      else ret tt
  end.

Definition acquiresleep (l : slock) : M kstate unit :=
  kacquire (sl_spin l) ;;;
  acquiresleep_loop (S fuel) l ;;;
  modify (fun s => sl_put l (MkSl 1 (sl_pid (sl_of l s))) s) ;;;
  let* pid := mypid in
  modify (fun s => sl_put l (MkSl (sl_locked (sl_of l s)) pid) s) ;;;
  krelease (sl_spin l).

Definition releasesleep (l : slock) : M kstate unit :=
  kacquire (sl_spin l) ;;;
  modify (sl_put l (MkSl 0 0)) ;;;
  proc_op (wakeup (sl_chan l)) ;;;
  krelease (sl_spin l).

Definition holdingsleep (l : slock) : M kstate bool :=
  kacquire (sl_spin l) ;;;
  let* k := gets (sl_of l) in
  let* pid := (if sl_locked k =? 0 then ret 0 else mypid) in
  let r := negb (sl_locked k =? 0) && (sl_pid k =? pid) in
  krelease (sl_spin l) ;;;
  ret r.

End code.

(** ** Code that only wakes processes *)

(** What a wakeup leaves alone in a process. *)
Definition calm (p : proc) : proc := set_state UNUSED (set_rqnext None (set_rqcpu 0 p)).

(** The machine, the CPUs and, but for processes woken up, the process table are
    the same, and the table is consistent. *)
Record quiet (p p' : pstate) : Prop := {
  qu_pm : pm p' = pm p;
  qu_me : me p' = me p;
  qu_cpus : cpus p' = cpus p;
  qu_ticks : ticks p' = ticks p;
  qu_proc : forall i, calm (procs p' !!! i) = calm (procs p !!! i);
  qu_run : forall i, p_state (procs p !!! i) = RUNNING -> p_state (procs p' !!! i) = RUNNING;
  qu_inv : (exists Q, sched_inv Q p) -> exists Q', sched_inv Q' p'
}.

#[export] Instance quiet_preorder : PreOrder quiet.
Proof.
  split; [by split|]. intros p q r [A1 A2 A3 A4 A5 A6 A7] [B1 B2 B3 B4 B5 B6 B7].
  split; try congruence; auto.
Qed.

(** What a process cannot see changing: its own fields. *)
Lemma quiet_field {A} (f : proc -> A) p p' i :
  (forall x, f (calm x) = f x) -> quiet p p' -> f (procs p' !!! i) = f (procs p !!! i).
Proof. intros Hf Hq. by rewrite <- Hf, (qu_proc _ _ Hq), Hf. Qed.

Lemma quiet_running p p' i : quiet p p' -> running i p -> running i p'.
Proof.
  intros Hq (Hc & Hi & Hs). split; [by rewrite (qu_cpus _ _ Hq), (qu_me _ _ Hq)|]. split; [done|].
  by apply (qu_run _ _ Hq).
Qed.

Lemma calm_erase p q : erase_q p = erase_q q -> calm p = calm q.
Proof. intros E. unfold calm. change (set_state UNUSED (erase_q p) = set_state UNUSED (erase_q q)). by rewrite E. Qed.

Lemma quiet_wakeup Q ch p p' :
  sched_inv Q p -> (exists Q', sched_inv Q' p') -> rq_frame (map_procs (in_slots 0 nproc (wake ch)) p) p' -> quiet p p'.
Proof.
  intros Hi Hi' Hf. pose proof (si_np _ _ Hi) as Hnp.
  split; try apply Hf; try done.
  - intros i. rewrite (calm_erase _ _ (rf_proc _ _ Hf i)). destruct (decide (i < nproc)%nat) as [Hlt|Hge].
    + rewrite map_procs_lookup by lia. unfold in_slots. rewrite decide_True by lia. unfold wake.
      by destruct (is_sleeping_on ch _).
    + by rewrite map_procs_ge by lia.
  - intros i Hr.
    assert (p_state (procs p' !!! i) = p_state (procs (map_procs (in_slots 0 nproc (wake ch)) p) !!! i)) as ->
      by (rewrite (erase_inj _ _ (rf_proc _ _ Hf i)); done).
    destruct (decide (i < nproc)%nat) as [Hlt|Hge]; [|by rewrite map_procs_ge by lia].
    rewrite map_procs_lookup by lia. unfold in_slots. rewrite decide_True by lia. unfold wake.
    destruct (is_sleeping_on ch _) eqn:E1; [|done]. unfold is_sleeping_on in E1. apply bool_decide_eq_true in E1. destruct E1. congruence.
Qed.

(** What kernel code running in process [p], holding the locks [h], relies on. *)
Record kctx (p : nat) (h : list lock) (s : kstate) : Prop := {
  kc_inv : exists Q, sched_inv Q (kp s);
  kc_run : running p (kp s);
  kc_held : held (pm (kp s)) = h
}.

Lemma kctx_quiet p h s s' : kctx p h s -> quiet (kp s) (kp s') -> kctx p h s'.
Proof.
  intros [H1 H2 H3] Hq. split; [by apply (qu_inv _ _ Hq)|by eapply quiet_running|by rewrite (qu_pm _ _ Hq)].
Qed.

Lemma kctx_same p h s s' : kctx p h s -> kp s' = kp s -> kctx p h s'.
Proof. intros [H1 H2 H3] E. split; by rewrite E. Qed.

(** The kernel state with lock [l] taken. *)
Definition klocked (l : lock) (s : kstate) : kstate := put_kp (locked l (kp s)) s.

Lemma kacquire_wp l p h s (R : unit -> kstate -> Prop) :
  kctx p h s -> l ∉ h -> (kctx p (l :: h) (klocked l s) -> R tt (klocked l s)) -> wp (kacquire l) R s.
Proof.
  intros [[Q Hi] Hr Hh] Hl HR. apply wp_zoom, pacquire_wp; [by rewrite Hh|]. apply HR. split; cbn.
  - exists Q. by apply sched_inv_pm.
  - done.
  - by rewrite Hh.
Qed.

Lemma krelease_wp l p h s (R : unit -> kstate -> Prop) :
  kctx p (l :: h) s -> l ∉ h ->
  (let s' := put_kp (put_pm (set_held h (pm (kp s))) (kp s)) s in kctx p h s' -> R tt s') ->
  wp (krelease l) R s.
Proof.
  intros [[Q Hi] Hr Hh] Hl HR. apply wp_zoom, wp_zoom. eapply release_wp; [done|done|]. apply HR. split; cbn.
  - exists Q. by apply sched_inv_pm.
  - done.
  - done.
Qed.

(** Short critical sections, in any context. *)
Lemma kacquire_plain l (R : unit -> kstate -> Prop) s :
  l ∉ held (pm (kp s)) -> R tt (klocked l s) -> wp (kacquire l) R s.
Proof. intros Hl HR. by apply wp_zoom, pacquire_wp. Qed.

Lemma krelease_plain l p0 (R : unit -> kstate -> Prop) s :
  pm (kp s) = pm (locked l p0) -> l ∉ held (pm p0) -> R tt (put_kp (put_pm (pm p0) (kp s)) s) -> wp (krelease l) R s.
Proof. intros E Hl HR. by eapply wp_zoom, prelease_wp. Qed.

Lemma kcurproc_wp p h s (R : nat -> kstate -> Prop) : kctx p h s -> R p s -> wp kcurproc R s.
Proof.
  intros [_ (Hc & _) _] HR. apply wp_zoom, wp_bind, wp_gets. rewrite Hc. apply wp_ret. by destruct s.
Qed.

Definition pid_of (p : nat) (s : kstate) : Z := p_pid (procs (kp s) !!! p).

Lemma mypid_wp p h s (R : Z -> kstate -> Prop) : kctx p h s -> R (pid_of p s) s -> wp mypid R s.
Proof.
  intros Hk HR. apply wp_bind. eapply kcurproc_wp; [done|]. apply wp_zoom, wp_gets. by destruct s.
Qed.

Definition no_sleeper (ch : chan) (p : pstate) : Prop :=
  forall i, (i < nproc)%nat -> is_sleeping_on ch (procs p !!! i) = false.

Lemma no_sleeper_wake Q ch p p' :
  sched_inv Q p -> rq_frame (map_procs (in_slots 0 nproc (wake ch)) p) p' -> no_sleeper ch p'.
Proof.
  intros Hi Hf i Hlt. pose proof (si_np _ _ Hi) as Hnp. unfold is_sleeping_on.
  rewrite (erase_inj _ _ (rf_proc _ _ Hf i)), map_procs_lookup by lia.
  unfold in_slots. rewrite decide_True by lia. unfold wake.
  destruct (is_sleeping_on ch _) eqn:E; [|exact E]. apply bool_decide_eq_false. cbn. by intros [? _].
Qed.

Lemma kwakeup_wakes_wp ch p h s (R : unit -> kstate -> Prop) :
  kctx p h s -> LPtable ∉ h ->
  (forall p', quiet (kp s) p' -> no_sleeper ch p' -> R tt (put_kp p' s)) -> wp (proc_op (wakeup ch)) R s.
Proof.
  intros [[Q Hi] Hr Hh] Hl HR. apply wp_zoom. eapply (wakeup_wp Q); [done|by rewrite Hh|].
  intros Q' p' Hi' Hf _. apply HR; [eapply quiet_wakeup; [done|by exists Q'|done]|by eapply (no_sleeper_wake Q ch (kp s))].
Qed.

Lemma kwakeup_wp ch p h s (R : unit -> kstate -> Prop) :
  kctx p h s -> LPtable ∉ h ->
  (forall p', quiet (kp s) p' -> R tt (put_kp p' s)) -> wp (proc_op (wakeup ch)) R s.
Proof. intros Hk Hl HR. eapply kwakeup_wakes_wp; [done|done|]. intros p' Hq _. by apply HR. Qed.

(** ** Specifications *)

Definition sl_in (l : slock) (s : kstate) : Prop :=
  match l with SlBuf i => (i < length (bufs s))%nat | SlInode i => (i < length (icache s))%nat end.

Lemma sl_of_put l x s : sl_in l s -> sl_of l (sl_put l x s) = x.
Proof.
  destruct l; cbn; intros Hi.
  - by rewrite (alter_same (set_b_lock x)) by done.
  - by rewrite (alter_same (set_i_lock x)) by done.
Qed.

Lemma sl_put_put l x y s : sl_put l x (sl_put l y s) = sl_put l x s.
Proof. destruct l, s; cbn; by rewrite alter_alter_compose. Qed.

Lemma sl_put_kp l x s : kp (sl_put l x s) = kp s.
Proof. by destruct l. Qed.

Lemma sl_put_put_kp l x p s : sl_put l x (put_kp p s) = put_kp p (sl_put l x s).
Proof. by destruct l. Qed.

Lemma sl_of_put_kp l p s : sl_of l (put_kp p s) = sl_of l s.
Proof. by destruct l. Qed.

Lemma sl_in_put_kp l p s : sl_in l (put_kp p s) <-> sl_in l s.
Proof. by destruct l. Qed.

Lemma put_kp_put_kp p p' s : put_kp p (put_kp p' s) = put_kp p s.
Proof. done. Qed.

Lemma put_kp_same s : put_kp (kp s) s = s.
Proof. by destruct s. Qed.

Lemma unlocked l h p : held (pm p) = h -> put_pm (set_held h (pm (locked l p))) (locked l p) = p.
Proof. intros <-. by destruct p as [[] ? ? ? ? ? ? ? ? ?]. Qed.

Section specs.
Context `{!Fuel}.

Lemma acquiresleep_wp l p h s (R : unit -> kstate -> Prop) :
  kctx p h s -> sl_spin l ∉ h -> sl_in l s -> sl_locked (sl_of l s) = 0 ->
  R tt (sl_put l (MkSl 1 (pid_of p s)) s) -> wp (acquiresleep l) R s.
Proof.
  intros Hk Hl Hin H0 HR. unfold acquiresleep. apply wp_bind. eapply kacquire_wp; [done|done|]. intros Hk1.
  apply wp_bind. cbn [acquiresleep_loop]. apply wp_bind, wp_gets. unfold klocked. rewrite sl_of_put_kp, H0. cbn [Z.eqb negb].
  apply wp_ret, wp_bind, wp_modify, wp_bind. eapply mypid_wp; [eapply kctx_same; [exact Hk1|by rewrite sl_put_kp]|].
  apply wp_bind, wp_modify. rewrite sl_of_put by by apply sl_in_put_kp. cbn [sl_locked]. rewrite sl_put_put.
  assert (pid_of p (sl_put l {| sl_locked := 1; sl_pid := sl_pid (sl_of l (put_kp (locked (sl_spin l) (kp s)) s)) |} (put_kp (locked (sl_spin l) (kp s)) s)) = pid_of p s) as ->
    by (unfold pid_of; by rewrite sl_put_kp).
  eapply krelease_wp; [eapply kctx_same; [exact Hk1|by rewrite sl_put_kp]|done|]. cbv zeta. intros _.
  rewrite !sl_put_kp. cbn [kp put_kp]. rewrite (unlocked _ _ _ (kc_held _ _ _ Hk)).
  destruct l, s; exact HR.
Qed.

Lemma releasesleep_wp l p h s (R : unit -> kstate -> Prop) :
  kctx p h s -> sl_spin l ∉ h -> LPtable ∉ h -> sl_in l s ->
  (forall p', quiet (kp s) p' -> R tt (put_kp p' (sl_put l (MkSl 0 0) s))) -> wp (releasesleep l) R s.
Proof.
  intros Hk Hl Hpt Hin HR. unfold releasesleep. apply wp_bind. eapply kacquire_wp; [done|done|]. intros Hk1.
  apply wp_bind, wp_modify, wp_bind. unfold klocked. rewrite sl_put_put_kp.
  eapply kwakeup_wp; [eapply kctx_same; [exact Hk1|done]|apply not_elem_of_cons; split; [by destruct l|done]|].
  cbn [kp put_kp]. intros p' Hq.
  eapply krelease_wp; [eapply kctx_quiet; [exact Hk1|done]|done|]. cbv zeta. cbn [kp put_kp]. intros _.
  rewrite !put_kp_put_kp. apply HR. destruct Hq as [Q1 Q2 Q3 Q4 Q5 Q6 Q7]. split; try done.
  - cbn. rewrite Q1. cbn. rewrite <- (kc_held _ _ _ Hk). by destruct (pm (kp s)).
  - intros [Q Hi]. destruct Q7 as [Q' Hi']; [exists Q; by apply sched_inv_pm|]. exists Q'. by apply sched_inv_pm.
Qed.

Lemma holdingsleep_wp l p h s (R : bool -> kstate -> Prop) :
  kctx p h s -> sl_spin l ∉ h -> sl_of l s = MkSl 1 (pid_of p s) -> R true s -> wp (holdingsleep l) R s.
Proof.
  intros Hk Hl Hsl HR. unfold holdingsleep. apply wp_bind. eapply kacquire_wp; [done|done|]. intros Hk1.
  apply wp_bind, wp_gets. unfold klocked. rewrite sl_of_put_kp, Hsl. cbn [sl_locked sl_pid Z.eqb].
  apply wp_bind. eapply mypid_wp; [exact Hk1|]. cbv zeta. change (pid_of p (klocked (sl_spin l) s)) with (pid_of p s).
  rewrite Z.eqb_refl. cbn [negb andb]. apply wp_bind.
  eapply krelease_wp; [exact Hk1|done|]. cbv zeta. intros _. apply wp_ret. unfold klocked. cbn [kp put_kp].
  by rewrite (unlocked _ _ _ (kc_held _ _ _ Hk)), put_kp_put_kp, put_kp_same.
Qed.

End specs.

(** ** Sleeping in the kernel *)

(** Everything but the processes stays within [K]: what the other processes keep. *)
Definition kept (K : kstate -> Prop) : Prop := forall s x, K s -> K (put_kp x s).
Definition kgiven_up (K : kstate -> Prop) (s : kstate) : Prop := given_up (kp s) /\ K s.
Definition kresumed (K : kstate -> Prop) (p : nat) (s s' : kstate) : Prop := resumed p (kp s) (kp s') /\ K s'.

Lemma ksleep_wps K p ch lk s (P : unit -> kstate -> Prop) :
  kept K -> kctx p [lk] s -> K s -> (forall s', kctx p [lk] s' -> K s' -> P tt s') ->
  wps (kgiven_up K) (kresumed K p) (proc_op (sleep ch lk)) P s.
Proof.
  intros HK [[Q Hi] Hr Hh] Hs HP. unfold proc_op.
  eapply (wps_zoom kp put_kp _ K given_up (resumed p)
            (fun _ t => exists Q, sched_inv Q t /\ held (pm t) = [lk] /\ running p t)).
  - eapply sleep_wps; [done|done|done|done|done|]. intros Q2 t H1 H2 H3 _. by exists Q2.
  - done.
  - intros t s0 H0 H1. split; [done|by apply HK].
  - intros t s0 s' H0 H1 [H2 H3]. split; [done|]. exact H2.
  - intros [] t s0 H0 (Q2 & H1 & H2 & H3). apply HP; [|by apply HK]. split; [by exists Q2|done|done].
Qed.

(** The same where, between giving up the CPU and getting it back, the other processes
    keep to the relation [T], which has nothing to do with the process table. *)
Record steady (K : kstate -> Prop) (T : kstate -> kstate -> Prop) : Prop := {
  st_trans : forall s1 s2 s3, T s1 s2 -> T s2 s3 -> T s1 s3;
  st_kp : forall s x, T s (put_kp x s) /\ T (put_kp x s) s;
  st_keep : forall s s', K s -> T s s' -> K s'
}.
Definition kback (T : kstate -> kstate -> Prop) (p : nat) (s s' : kstate) : Prop := resumed p (kp s) (kp s') /\ T s s'.

Lemma ksleep_rel_wps K T p ch lk s (P : unit -> kstate -> Prop) :
  steady K T -> kctx p [lk] s -> K s -> (forall s', kctx p [lk] s' -> T s s' -> P tt s') ->
  wps (kgiven_up K) (kback T p) (proc_op (sleep ch lk)) P s.
Proof.
  intros [HT Hkp HK] [[Q Hi] Hr Hh] Hs HP. unfold proc_op.
  eapply (wps_zoom kp put_kp _ (fun s1 => T s s1) given_up (resumed p)
            (fun _ t => exists Q, sched_inv Q t /\ held (pm t) = [lk] /\ running p t)).
  - eapply sleep_wps; [done|done|done|done|done|]. intros Q2 t H1 H2 H3 _. by exists Q2.
  - rewrite <- (put_kp_same s) at 2. apply Hkp.
  - intros t s0 H0 H1. split; [done|]. apply (HK s); [done|]. eapply HT; [exact H0|apply Hkp].
  - intros t s0 s' H0 H1 [H2 H3]. split; [|exact H2]. eapply HT; [exact H0|]. eapply HT; [apply Hkp|exact H3].
  - intros [] t s0 H0 (Q2 & H1 & H2 & H3). apply HP; [|eapply HT; [exact H0|apply Hkp]]. split; [by exists Q2|done|done].
Qed.

Section sleeping.
Context {FU : Fuel}.

Lemma acquiresleep_loop_wps K p l n s (P : unit -> kstate -> Prop) :
  kept K -> kctx p [sl_spin l] s -> K s ->
  (forall s', kctx p [sl_spin l] s' -> K s' -> sl_locked (sl_of l s') = 0 -> P tt s') ->
  wps (kgiven_up K) (kresumed K p) (acquiresleep_loop n l) P s.
Proof.
  intros HK. revert s. induction n as [|n IH]; intros s Hk Hs HP; [done|]. cbn [acquiresleep_loop].
  apply wps_bind, wp_wps, wp_gets. destruct (Z.eqb_spec (sl_locked (sl_of l s)) 0) as [E|E]; cbn [negb].
  - apply wp_wps, wp_ret. by apply HP.
  - apply wps_bind, ksleep_wps; [done|done|done|]. intros s' Hk' Hs'. by apply IH.
Qed.

(** A sleep lock excludes: whatever other processes do while the caller sleeps,
    [acquiresleep] never panics, gives up the CPU holding no lock of its own, and
    takes the lock only in a state where no process has it; it returns with the
    lock marked held by the caller and everything else as in that state. *)
Theorem acquiresleep_excludes K p l s :
  kept K -> (forall s, K s -> sl_in l s) -> kctx p [] s -> K s ->
  wps (kgiven_up K) (kresumed K p) (acquiresleep l)
    (fun _ s' => exists s0, K s0 /\ sl_locked (sl_of l s0) = 0 /\
       kctx p [] s' /\ s' = sl_put l (MkSl 1 (pid_of p s')) (put_kp (kp s') s0)) s.
Proof.
  intros HK Hin Hk Hs. unfold acquiresleep. apply wps_bind, wp_wps. eapply kacquire_wp; [done|set_solver|]. intros Hk1.
  apply wps_bind. eapply acquiresleep_loop_wps; [done|done|by apply HK|]. intros s0 Hk0 Hs0 H0.
  assert (forall x, kctx p [sl_spin l] (sl_put l x s0)) as Hkx by (intros x; eapply kctx_same; [exact Hk0|by rewrite sl_put_kp]).
  apply wps_bind, wp_wps, wp_modify, wps_bind, wp_wps. eapply mypid_wp; [apply Hkx|].
  apply wps_bind, wp_wps, wp_modify, wp_wps. rewrite sl_put_put, sl_of_put by by apply Hin. cbn [sl_locked].
  eapply krelease_wp; [apply Hkx|set_solver|]. cbv zeta. intros Hk2. exists s0. split_and!; [done|done|done|].
  unfold pid_of. cbn [kp put_kp]. rewrite !sl_put_kp, sl_put_put_kp. done.
Qed.

End sleeping.
