(* ===== verification/Bio.v ===== *)
(** * The buffer cache (bio.c) and the memory disk (memide.c)

    The cache presents the disk as an array of blocks: [bread] returns a locked
    buffer with the current content of a block, whether it comes from the disk, from
    a clean buffer or from a buffer modified and not written yet.  Buffers are
    recycled in least-recently-used order along a doubly linked list. *)

From S2P Require Import Prelude Monad Machine ProcDefs Proc KernDefs Sleeplock.

(** The disk driver the cache runs on: a synchronous [iderw]. *)
Class BlockDevice : Type := iderw : nat -> M kstate unit.

(** ** memide.c *)

Section memide.
Context `{!Fuel}.

Definition memide_rw (b : nat) : M kstate unit :=
  let* h := holdingsleep (SlBuf b) in
  if negb h then panic "iderw: buf not locked" else
  let* f := getb b b_flags in
  if Z.land f (Z.lor B_VALID B_DIRTY) =? B_VALID then panic "iderw: nothing to do" else
  let* dev := getb b b_dev in
  if negb (dev =? 1) then panic "iderw: request not for disk 1" else
  let* no := getb b b_blockno in
  let* n := gets (fun s => Z.of_nat (length (d_blocks (disk s)))) in
  if n <=? no then panic "iderw: block out of range" else
  (if has f B_DIRTY then
     setb b (fun x => set_b_flags (Z.land (b_flags x) (Z.lnot B_DIRTY)) x) ;;;
     let* d := getb b b_data in
     modify (fun s => put_disk (MkDisk (<[Z.to_nat no := d]> (d_blocks (disk s))) ((no, d) :: d_writes (disk s))) s)
   else
     let* d := gets (fun s => d_blocks (disk s) !!! Z.to_nat no) in
     setb b (set_b_data d)) ;;;
  setb b (fun x => set_b_flags (Z.lor (b_flags x) B_VALID) x).

End memide.

(** ** bio.c *)

Definition head : nat := nbuf.
Definition b_next (i : nat) : M kstate nat := gets (fun s => bnext s !!! i).
Definition b_prev (i : nat) : M kstate nat := gets (fun s => bprev s !!! i).
Definition set_next (i j : nat) : M kstate unit := modify (fun s => put_bnext (<[i := j]> (bnext s)) s).
Definition set_prev (i j : nat) : M kstate unit := modify (fun s => put_bprev (<[i := j]> (bprev s)) s).

(** Takes [b] out of the list, and puts it at the most recently used end. *)
Definition unlink (b : nat) : M kstate unit :=
  let* n := b_next b in
  let* p := b_prev b in
  set_prev n p ;;;
  let* p := b_prev b in
  let* n := b_next b in
  set_next p n.

Definition link_front (b : nat) : M kstate unit :=
  let* n := b_next head in
  set_next b n ;;;
  set_prev b head ;;;
  let* n := b_next head in
  set_prev n b ;;;
  set_next head b.

Fixpoint binit_loop (n b : nat) : M kstate unit :=
  match n with
  | O => ret tt
  | S n =>
      let* f := b_next head in
      set_next b f ;;;
      set_prev b head ;;;
      initsleeplock (SlBuf b) ;;;
      let* f := b_next head in
      set_prev f b ;;;
      set_next head b ;;;
      binit_loop n (S b)
  end.

Definition binit : M kstate unit :=
  set_prev head head ;;;
  set_next head head ;;;
  binit_loop nbuf 0.

Section bio.
Context `{!Fuel, !BlockDevice}.

(** The two scans of [bget]; a well-formed list ends at its head within
    [nbuf + 1] steps. *)
Fixpoint bget_cached (n b : nat) (dev blockno : Z) : M kstate (option nat) :=
  match n with
  | O => nofuel
  | S n =>
      if (b =? head)%nat then ret None else
      let* d := getb b b_dev in
      let* no := getb b b_blockno in
      if (d =? dev) && (no =? blockno) then ret (Some b) else
      let* b := b_next b in
      bget_cached n b dev blockno
  end.

Fixpoint bget_unused (n b : nat) : M kstate (option nat) :=
  match n with
  | O => nofuel
  | S n =>
      if (b =? head)%nat then ret None else
      let* r := getb b b_refcnt in
      let* f := getb b b_flags in
      if (r =? 0) && negb (has f B_DIRTY) then ret (Some b) else
      let* b := b_prev b in
      bget_unused n b
  end.

Definition bget (dev blockno : Z) : M kstate nat :=
  kacquire LBcache ;;;
  let* b := b_next head in
  let* r := bget_cached (S nbuf) b dev blockno in
  match r with
  | Some b =>
      setb b (fun x => set_b_refcnt (u32 (b_refcnt x + 1)) x) ;;;
      krelease LBcache ;;;
      acquiresleep (SlBuf b) ;;;
      ret b
  | None =>
      let* b := b_prev head in
      let* r := bget_unused (S nbuf) b in
      match r with
      | Some b =>
          setb b (set_b_dev dev) ;;;
          setb b (set_b_blockno blockno) ;;;
          setb b (set_b_flags 0) ;;;
          setb b (set_b_refcnt 1) ;;;
          krelease LBcache ;;;
          acquiresleep (SlBuf b) ;;;
          ret b
      | None => panic "bget: no buffers"
      end
  end.

Definition bread (dev blockno : Z) : M kstate nat :=
  let* b := bget dev blockno in
  let* f := getb b b_flags in
  when (negb (has f B_VALID)) (iderw b) ;;;
  ret b.

Definition bwrite (b : nat) : M kstate unit :=
  let* h := holdingsleep (SlBuf b) in
  if negb h then panic "bwrite" else
  setb b (fun x => set_b_flags (Z.lor (b_flags x) B_DIRTY) x) ;;;
  iderw b.

Definition brelse (b : nat) : M kstate unit :=
  let* h := holdingsleep (SlBuf b) in
  if negb h then panic "brelse" else
  releasesleep (SlBuf b) ;;;
  kacquire LBcache ;;;
  setb b (fun x => set_b_refcnt (u32 (b_refcnt x - 1)) x) ;;;
  let* r := getb b b_refcnt in
  when (r =? 0) (unlink b ;;; link_front b) ;;;
  krelease LBcache.

End bio.

(** ** The LRU list *)

(** [l] are the buffers from [a] (excluded) to [z] (excluded). *)
Fixpoint linked (nx pv : list nat) (a : nat) (l : list nat) (z : nat) : Prop :=
  match l with
  | [] => nx !!! a = z /\ pv !!! z = a
  | b :: l => nx !!! a = b /\ pv !!! b = a /\ linked nx pv b l z
  end.

(** The circular list holds every buffer once, most recently used first. *)
Record lru (nx pv l : list nat) : Prop := {
  lru_nx : length nx = S nbuf;
  lru_pv : length pv = S nbuf;
  lru_link : linked nx pv head l head;
  lru_perm : l ≡ₚ seq 0 nbuf
}.

Lemma linked_ext nx pv nx' pv' a l z :
  (forall i, i ∈ a :: l -> nx' !!! i = nx !!! i) -> (forall i, i ∈ l ++ [z] -> pv' !!! i = pv !!! i) ->
  linked nx pv a l z -> linked nx' pv' a l z.
Proof.
  revert a. induction l as [|b l IH]; intros a Hn Hp; cbn.
  - intros [H1 H2]. rewrite Hn, Hp by set_solver. done.
  - intros (H1 & H2 & H3). rewrite Hn, Hp by set_solver. split_and!; [done|done|].
    apply IH; [set_solver|set_solver|done].
Qed.

Lemma linked_app nx pv a l1 b l2 z :
  linked nx pv a (l1 ++ b :: l2) z <-> linked nx pv a l1 b /\ linked nx pv b l2 z.
Proof.
  revert a. induction l1 as [|c l1 IH]; intros a; cbn; [tauto|]. rewrite IH. tauto.
Qed.

Lemma last_default (b a : nat) l : List.last l b = List.last (b :: l) a.
Proof.
  assert (forall l x, l <> [] -> List.last l x = List.last l a) as H.
  { clear. intros l. induction l as [|c l IH]; intros x Hne; [done|]. destruct l; [done|]. by apply IH. }
  destruct l as [|c l]; [done|]. transitivity (List.last (c :: l) a); [by apply H|done].
Qed.

Lemma linked_last nx pv a l z : linked nx pv a l z -> pv !!! z = List.last l a.
Proof.
  revert a. induction l as [|b l IH]; intros a; cbn; [tauto|]. intros (_ & _ & Hl). rewrite (IH b Hl).
  apply last_default.
Qed.

Lemma linked_first nx pv a l z : linked nx pv a l z -> nx !!! a = List.hd z l.
Proof. destruct l; cbn; tauto. Qed.

(** Taking [b] out of the list. *)
Lemma linked_unlink nx pv a l1 b l2 z :
  linked nx pv a l1 b -> linked nx pv b l2 z -> NoDup (a :: l1 ++ l2) -> NoDup (l1 ++ l2 ++ [z]) ->
  (forall i, i ∈ a :: l1 -> (i < length nx)%nat) -> (forall i, i ∈ l2 ++ [z] -> (i < length pv)%nat) ->
  linked (<[List.last l1 a := List.hd z l2]> nx) (<[List.hd z l2 := List.last l1 a]> pv) a (l1 ++ l2) z.
Proof.
  revert a. induction l1 as [|c l1 IH]; intros a H1 H2 Hn1 Hn2 Hln Hlp.
  - cbn [List.last app] in *. apply NoDup_cons in Hn1 as [Ha Hn1]. destruct l2 as [|d l2]; cbn [List.hd linked] in *.
    + rewrite !list_lookup_total_insert_eq by (first [apply Hln|apply Hlp]; set_solver). done.
    + destruct H2 as (_ & _ & H2). rewrite !list_lookup_total_insert_eq by (first [apply Hln|apply Hlp]; set_solver).
      split_and!; [done|done|]. cbn in Hn2. apply NoDup_cons in Hn2 as [Hd Hn2].
      eapply linked_ext; [..|exact H2].
      * intros i Hi. apply list_lookup_total_insert_ne. intros <-. set_solver.
      * intros i Hi. apply list_lookup_total_insert_ne. intros <-. set_solver.
  - cbn [app linked] in *. destruct H1 as (Hac & Hca & H1). rewrite <- (last_default c a l1).
    cbn in Hn1. apply NoDup_cons in Hn1 as [Ha Hn1]. apply NoDup_cons in Hn2 as [Hc Hn2].
    assert (List.last l1 c ∈ c :: l1) as Hlast.
    { clear. revert c. induction l1 as [|x l1 IH]; intros c; [set_solver|]. rewrite <- last_default. specialize (IH x). set_solver. }
    assert (List.hd z l2 ∈ l2 ++ [z]) as Hhd by (destruct l2; cbn; set_solver).
    split_and!.
    + rewrite list_lookup_total_insert_ne; [done|]. intros E. rewrite E in Hlast. set_solver.
    + rewrite list_lookup_total_insert_ne; [done|]. intros E. rewrite E in Hhd. set_solver.
    + apply IH; [done|done|done|done|set_solver|done].
Qed.

(** Putting [b] at its front. *)
Lemma linked_front nx pv a l b z :
  linked nx pv a l z -> b ∉ a :: l -> b ∉ l ++ [z] -> NoDup (a :: l) -> NoDup (l ++ [z]) ->
  (a < length nx)%nat -> (b < length nx)%nat -> (b < length pv)%nat -> (List.hd z l < length pv)%nat ->
  linked (<[a := b]> (<[b := List.hd z l]> nx)) (<[List.hd z l := b]> (<[b := a]> pv)) a (b :: l) z.
Proof.
  intros H1 Hb1 Hb2 Hn1 Hn2 Ha Hb Hb' Hh. apply NoDup_cons in Hn1 as [Ha' _].
  assert (List.hd z l ∈ l ++ [z]) as Hhd by (destruct l; cbn; set_solver).
  cbn [linked]. rewrite list_lookup_total_insert_eq by (rewrite length_insert; done).
  rewrite list_lookup_total_insert_ne by set_solver. rewrite list_lookup_total_insert_eq by done. split_and!; [done|done|].
  destruct l as [|c l]; cbn [linked List.hd] in *.
  - rewrite list_lookup_total_insert_ne by set_solver. rewrite !list_lookup_total_insert_eq by (rewrite ?length_insert; done).
    done.
  - destruct H1 as (_ & _ & H1).
    rewrite list_lookup_total_insert_ne by set_solver. rewrite !list_lookup_total_insert_eq by (rewrite ?length_insert; done).
    split_and!; [done|done|]. cbn in Hn2. apply NoDup_cons in Hn2 as [Hc _]. eapply linked_ext; [..|exact H1].
    + intros i Hi. rewrite !list_lookup_total_insert_ne; [done|set_solver..].
    + intros i Hi. rewrite !list_lookup_total_insert_ne; [done|set_solver..].
Qed.

Lemma lru_elem nx pv l b : lru nx pv l -> b ∈ l <-> (b < nbuf)%nat.
Proof. intros Hl. rewrite (lru_perm _ _ _ Hl), elem_of_seq. lia. Qed.

Lemma lru_nodup nx pv l : lru nx pv l -> NoDup (head :: l) /\ NoDup (l ++ [head]).
Proof.
  intros Hl. assert (NoDup l) as Hn by (rewrite (lru_perm _ _ _ Hl); apply NoDup_seq).
  assert (head ∉ l) as Hh by (rewrite (lru_elem _ _ _ head Hl); unfold head; lia).
  split; [by apply NoDup_cons|]. apply NoDup_app. split_and!; [done|set_solver|apply NoDup_singleton].
Qed.

(** The list after [b], somewhere in it, has become the most recently used. *)
Definition to_front (b : nat) (l : list nat) : list nat := b :: filter (fun i => i <> b) l.

Lemma to_front_split b l1 l2 : NoDup (l1 ++ b :: l2) -> to_front b (l1 ++ b :: l2) = b :: l1 ++ l2.
Proof.
  intros Hn. unfold to_front. f_equal. apply NoDup_app in Hn as (Hn1 & Hd & Hn2). apply NoDup_cons in Hn2 as [Hb Hn2].
  rewrite filter_app, filter_cons_False by naive_solver. f_equal; apply filter_all; intros x Hx ->; set_solver.
Qed.

Lemma relink_wp b l s (R : unit -> kstate -> Prop) :
  lru (bnext s) (bprev s) l -> (b < nbuf)%nat ->
  (forall nx pv, lru nx pv (to_front b l) -> R tt (put_bprev pv (put_bnext nx s))) ->
  wp (unlink b ;;; link_front b) R s.
Proof.
  intros Hl Hb HR. pose proof (lru_nodup _ _ _ Hl) as [Hn1 Hn2]. pose proof (lru_elem _ _ _ b Hl) as Hbl.
  assert (b ∈ l) as (l1 & l2 & ->)%list_elem_of_split by by apply Hbl.
  pose proof (lru_link _ _ _ Hl) as Hk. apply linked_app in Hk as [Hk1 Hk2].
  assert (forall i, i ∈ head :: l1 ++ b :: l2 -> (i < S nbuf)%nat) as Hlt.
  { intros i [->|Hi]%elem_of_cons; [unfold head; lia|]. apply (lru_elem _ _ _ i Hl) in Hi. lia. }
  pose proof (lru_nx _ _ _ Hl) as Lnx. pose proof (lru_pv _ _ _ Hl) as Lpv.
  apply NoDup_cons in Hn1 as [Hh Hnd]. rewrite to_front_split in HR by done.
  apply NoDup_app in Hnd as (N1 & N12 & N2). apply NoDup_cons in N2 as [Nb N2].
  assert (bnext s !!! b = List.hd head l2) as En by by apply linked_first in Hk2.
  assert (bprev s !!! b = List.last l1 head) as Ep by by apply linked_last in Hk1.
  assert (List.hd head l2 <> b) as Hnb by (destruct l2; cbn; set_solver).
  assert (NoDup (l1 ++ l2)) as N by (apply NoDup_app; set_solver).
  assert (NoDup (head :: l1 ++ l2)) as N3 by (apply NoDup_cons; set_solver).
  assert (NoDup (l1 ++ l2 ++ [head])) as N4.
  { rewrite app_assoc. apply NoDup_app. split_and!; [done|set_solver|apply NoDup_singleton]. }
  pose proof (linked_unlink _ _ _ _ _ _ _ Hk1 Hk2 N3 N4 ltac:(rewrite Lnx; intros; apply Hlt; set_solver)
    ltac:(rewrite Lpv; intros; apply Hlt; set_solver)) as Hu.
  unfold unlink, link_front, b_next, b_prev, set_next, set_prev. wp_go. cbn [bnext bprev put_bnext put_bprev].
  rewrite En, Ep. rewrite (list_lookup_total_insert_ne (bprev s)) by done. rewrite Ep.
  pose proof (linked_first _ _ _ _ _ Hu) as Ef. rewrite Ef.
  rewrite list_lookup_total_insert_ne by (intros ->; set_solver). rewrite Ef.
  match goal with |- R tt ?x =>
    assert (x = put_bprev (<[List.hd head (l1 ++ l2) := b]> (<[b := head]> (<[List.hd head l2 := List.last l1 head]> (bprev s))))
      (put_bnext (<[head := b]> (<[b := List.hd head (l1 ++ l2)]> (<[List.last l1 head := List.hd head l2]> (bnext s)))) s)) as ->
      by (by destruct s) end.
  apply HR. split; rewrite ?length_insert; try done.
  - eapply linked_front; [exact Hu|set_solver|set_solver|done|by rewrite <- app_assoc|rewrite ?length_insert..].
    + rewrite Lnx. unfold head. lia.
    + rewrite Lnx. lia.
    + rewrite Lpv. lia.
    + rewrite Lpv. apply Hlt. destruct l1, l2; cbn; set_solver.
  - rewrite <- (lru_perm _ _ _ Hl). by rewrite Permutation_middle.
Qed.
