(* ===== verification/BioInv.v ===== *)
(** * What the buffer cache promises

    The cache refines an array of blocks: [blk s b] is the content of block [b],
    in a valid buffer or on the disk.  [bread] returns a buffer with that content,
    [bwrite] brings the disk up to date, and neither they nor [brelse] change the
    array. *)

From S2P Require Import Prelude Monad Machine ProcDefs ProcInv Proc KernDefs Sleeplock Bio.

(** ** One buffer at a time *)

Definition with_buf (i : nat) (x : buf) (s : kstate) : kstate := put_bufs (<[i := x]> (bufs s)) s.

Lemma alter_insert `{Inhabited A} (f : A -> A) i (l : list A) : alter f i l = <[i := f (l !!! i)]> l.
Proof.
  apply list_eq. intros j. destruct (decide (j = i)) as [->|Hne].
  - destruct (decide (i < length l)%nat) as [Hi|Hi].
    + rewrite list_lookup_alter_eq, list_lookup_insert_eq by done. by rewrite (list_lookup_lookup_total_lt l i).
    + rewrite !lookup_ge_None_2; [done|rewrite length_insert; lia|rewrite length_alter; lia].
  - by rewrite list_lookup_alter_ne, list_lookup_insert_ne.
Qed.

Lemma setb_wp i f s (R : unit -> kstate -> Prop) : R tt (with_buf i (f (bufs s !!! i)) s) -> wp (setb i f) R s.
Proof. intros HR. apply wp_modify. by rewrite alter_insert. Qed.

Lemma getb_wp {A} i (f : buf -> A) s (R : A -> kstate -> Prop) : R (f (bufs s !!! i)) s -> wp (getb i f) R s.
Proof. done. Qed.

Lemma with_buf_with_buf i x y s : with_buf i x (with_buf i y s) = with_buf i x s.
Proof. unfold with_buf. cbn. by rewrite list_insert_insert_eq. Qed.

Lemma with_buf_eq i x s : (i < length (bufs s))%nat -> bufs (with_buf i x s) !!! i = x.
Proof. intros. by apply list_lookup_total_insert_eq. Qed.

Lemma with_buf_ne i x s j : j <> i -> bufs (with_buf i x s) !!! j = bufs s !!! j.
Proof. intros. by apply list_lookup_total_insert_ne. Qed.

Lemma with_buf_kp i x s : kp (with_buf i x s) = kp s.
Proof. done. Qed.

Lemma length_with_buf i x s : length (bufs (with_buf i x s)) = length (bufs s).
Proof. apply length_insert. Qed.

Lemma sl_put_buf i x s : sl_put (SlBuf i) x s = with_buf i (set_b_lock x (bufs s !!! i)) s.
Proof. unfold sl_put, with_buf. by rewrite alter_insert. Qed.

(** ** The driver's contract *)

Definition nblocks (s : kstate) : Z := Z.of_nat (length (d_blocks (disk s))).
Definition dblk (s : kstate) (b : Z) : block := d_blocks (disk s) !!! Z.to_nat b.

(** Process [p] holds the lock of buffer [i]. *)
Definition holds_buf (p i : nat) (s : kstate) : Prop := b_lock (bufs s !!! i) = MkSl 1 (pid_of p s).

(** Writes block [b] of the disk. *)
Definition disk_write (b : Z) (d : block) (s : kstate) : kstate :=
  put_disk (MkDisk (<[Z.to_nat b := d]> (d_blocks (disk s))) ((b, d) :: d_writes (disk s))) s.

(** [iderw] of a driver that completes at once: an invalid buffer is filled from
    its block, a dirty one is written to it. *)
Class SyncDevice `{!BlockDevice} : Prop := {
  iderw_read : forall p s i (R : unit -> kstate -> Prop),
    kctx p [] s -> (i < length (bufs s))%nat -> holds_buf p i s -> b_flags (bufs s !!! i) = 0 ->
    b_dev (bufs s !!! i) = ROOTDEV -> 0 <= b_blockno (bufs s !!! i) < nblocks s ->
    R tt (with_buf i (set_b_flags 2 (set_b_data (dblk s (b_blockno (bufs s !!! i))) (bufs s !!! i))) s) ->
    wp (iderw i) R s;
  iderw_write : forall p s i (R : unit -> kstate -> Prop),
    kctx p [] s -> (i < length (bufs s))%nat -> holds_buf p i s -> b_flags (bufs s !!! i) = 6 ->
    b_dev (bufs s !!! i) = ROOTDEV -> 0 <= b_blockno (bufs s !!! i) < nblocks s ->
    R tt (disk_write (b_blockno (bufs s !!! i)) (b_data (bufs s !!! i)) (with_buf i (set_b_flags 2 (bufs s !!! i)) s)) ->
    wp (iderw i) R s
}.

(** The memory disk is such a driver. *)
Section memide.
Context `{!Fuel}.

#[export] Instance memide : BlockDevice := memide_rw.

#[export] Instance memide_sync : SyncDevice.
Proof.
  split; intros p s i R Hk Hi Hl Hf Hd Hb HR; unfold iderw, memide, memide_rw; apply wp_bind;
    (eapply holdingsleep_wp; [exact Hk|set_solver|done|]); cbn [negb]; wp_step; apply getb_wp; rewrite Hf;
    (match goal with |- context [Z.land ?f (Z.lor B_VALID B_DIRTY) =? B_VALID] =>
       change (Z.land f (Z.lor B_VALID B_DIRTY) =? B_VALID) with false end); cbn iota;
    wp_step; apply getb_wp; rewrite Hd; change (ROOTDEV =? 1) with true; cbn [negb]; wp_step; apply getb_wp; wp_go;
    change (Z.of_nat (length (d_blocks (disk s)))) with (nblocks s); rewrite (proj2 (Z.leb_gt _ _)) by lia.
  - change (has 0 B_DIRTY) with false. cbn iota. wp_go. apply setb_wp. apply setb_wp.
    rewrite with_buf_eq, with_buf_with_buf by done. cbn. by rewrite Hf.
  - change (has 6 B_DIRTY) with true. cbn iota. wp_step. wp_step. apply setb_wp. wp_step. apply getb_wp. wp_step.
    rewrite with_buf_eq by done. apply setb_wp. cbn -[with_buf].
    match goal with |- R tt ?x => assert (x = disk_write (b_blockno (bufs s !!! i)) (b_data (bufs s !!! i)) (with_buf i (set_b_flags 2 (bufs s !!! i)) s)) as ->; [|done] end.
    unfold disk_write, with_buf. cbn. rewrite list_lookup_total_insert_eq by done. cbn. rewrite Hf.
    by rewrite list_insert_insert_eq.
Qed.

End memide.

(** ** The invariant *)

(** The buffer belongs to block [b] of the disk. *)
Definition keyed (b : Z) (x : buf) : bool := (b_dev x =? ROOTDEV) && (b_blockno x =? b).
Definition cached (b : Z) (x : buf) : bool := keyed b x && negb (b_flags x =? 0).
(** The buffer may not be recycled. *)
Definition busy (x : buf) : bool := negb (b_refcnt x =? 0) || (b_flags x =? 6).

Definition buf_ok (s : kstate) (x : buf) : Prop :=
  (b_flags x = 0 \/ b_flags x = 2 \/ b_flags x = 6) /\ length (b_data x) = bsize /\ 0 <= b_refcnt x < 2 ^ 30 /\
  (b_refcnt x = 0 -> sl_locked (b_lock x) = 0) /\
  (b_dev x = ROOTDEV -> 0 <= b_blockno x < nblocks s) /\
  (b_dev x = ROOTDEV -> b_refcnt x = 0 -> b_flags x = 2 -> b_data x = dblk s (b_blockno x)).

Record bio_inv (l : list nat) (s : kstate) : Prop := {
  bi_len : length (bufs s) = nbuf;
  bi_lru : lru (bnext s) (bprev s) l;
  bi_buf : forall i, (i < nbuf)%nat -> buf_ok s (bufs s !!! i);
  bi_uniq : forall i j b, (i < nbuf)%nat -> (j < nbuf)%nat ->
    keyed b (bufs s !!! i) = true -> keyed b (bufs s !!! j) = true -> i = j;
  bi_disk : forall b, 0 <= b < nblocks s -> length (dblk s b) = bsize
}.

(** The content of block [b]. *)
Definition blk (s : kstate) (b : Z) : block :=
  match list_find (fun x => cached b x = true) (bufs s) with
  | Some (_, x) => b_data x
  | None => dblk s b
  end.

Lemma blk_cached l s i b :
  bio_inv l s -> (i < nbuf)%nat -> cached b (bufs s !!! i) = true -> blk s b = b_data (bufs s !!! i).
Proof.
  intros Hi Hlt Hc. unfold blk. destruct (list_find _ (bufs s)) as [[j x]|] eqn:E.
  - apply list_find_Some in E as (Hj & Hx & _). pose proof (lookup_lt_Some _ _ _ Hj) as Hjl. rewrite (bi_len _ _ Hi) in Hjl.
    apply list_lookup_total_correct in Hj. rewrite <- Hj in *. f_equal. f_equal.
    unfold cached in *. zbool. by apply (bi_uniq _ _ Hi j i b).
  - exfalso. assert (bufs s !! i = Some (bufs s !!! i)) as Hl
      by (apply list_lookup_lookup_total_lt; by rewrite (bi_len _ _ Hi)).
    eapply list_find_None in E. rewrite Forall_lookup in E. by apply (E i _ Hl).
Qed.

Lemma blk_uncached s b : (forall i, (i < length (bufs s))%nat -> cached b (bufs s !!! i) = false) -> blk s b = dblk s b.
Proof.
  intros Hn. unfold blk. destruct (list_find _ (bufs s)) as [[j x]|] eqn:E; [|done].
  apply list_find_Some in E as (Hj & Hx & _). pose proof (lookup_lt_Some _ _ _ Hj) as Hjl.
  apply list_lookup_total_correct in Hj. specialize (Hn j Hjl). rewrite Hj in Hn. congruence.
Qed.

Lemma cached_dec s b :
  {i | (i < length (bufs s))%nat /\ cached b (bufs s !!! i) = true} +
  {forall i, (i < length (bufs s))%nat -> cached b (bufs s !!! i) = false}.
Proof.
  destruct (list_find (fun x => cached b x = true) (bufs s)) as [[j x]|] eqn:E.
  - left. exists j. apply list_find_Some in E as (Hj & Hx & _). split; [by eapply lookup_lt_Some|].
    apply list_lookup_total_correct in Hj. by rewrite Hj.
  - right. intros i Hi. apply list_find_None in E. rewrite Forall_lookup in E.
    apply not_true_iff_false, (E i). by apply list_lookup_lookup_total_lt.
Qed.

(** Two states whose valid buffers for [b] have the same content agree on [b]. *)
Lemma blk_ext l l' s s' b :
  bio_inv l s -> bio_inv l' s' -> dblk s' b = dblk s b ->
  (forall i, (i < nbuf)%nat -> cached b (bufs s' !!! i) = cached b (bufs s !!! i) /\
     (cached b (bufs s !!! i) = true -> b_data (bufs s' !!! i) = b_data (bufs s !!! i))) ->
  blk s' b = blk s b.
Proof.
  intros Hi Hi' Hd Hc. destruct (cached_dec s b) as [(i & Hlt & Ht)|Hf].
  - rewrite (bi_len _ _ Hi) in Hlt. destruct (Hc i Hlt) as [E1 E2].
    rewrite (blk_cached _ _ i b Hi), (blk_cached _ _ i b Hi') by (done || congruence). by apply E2.
  - rewrite (blk_uncached s b), (blk_uncached s' b), Hd; [done| |done].
    intros i Hlt. rewrite (bi_len _ _ Hi') in Hlt. destruct (Hc i Hlt) as [-> _]. apply Hf. by rewrite (bi_len _ _ Hi).
Qed.

(** ** The scans of [bget] *)


Lemma bget_cached_wp n dev no a l s (R : option nat -> kstate -> Prop) :
  linked (bnext s) (bprev s) a l head -> head ∉ l -> (length l < n)%nat ->
  let hit i := (b_dev (bufs s !!! i) =? dev) && (b_blockno (bufs s !!! i) =? no) in
  ((forall i, i ∈ l -> hit i = false) -> R None s) ->
  (forall i, i ∈ l -> hit i = true -> R (Some i) s) ->
  wp (bget_cached n (bnext s !!! a) dev no) R s.
Proof.
  revert n a. induction l as [|b l IH]; intros n a Hl Hh Hn hit HN HS; (destruct n as [|n]; [lia|]); cbn [bget_cached].
  - destruct Hl as [-> _]. rewrite Nat.eqb_refl. apply wp_ret, HN. set_solver.
  - destruct Hl as (-> & _ & Hl). rewrite (proj2 (Nat.eqb_neq _ _)) by set_solver.
    wp_step. apply getb_wp. wp_step. apply getb_wp. destruct (hit b) eqn:E; unfold hit in E; rewrite E.
    + apply wp_ret, (HS b); [set_solver|done].
    + wp_step. apply wp_gets. apply IH; [done|set_solver|cbn in Hn; lia| |].
      * intros Hf. apply HN. intros i [->|Hi]%elem_of_cons; [done|by apply Hf].
      * intros i Hi Ht. apply HS; [set_solver|done].
Qed.

Definition unused (x : buf) : bool := (b_refcnt x =? 0) && negb (has (b_flags x) B_DIRTY).

Lemma bget_unused_wp n z l s (R : option nat -> kstate -> Prop) :
  linked (bnext s) (bprev s) head l z -> head ∉ l -> (length l < n)%nat ->
  ((forall i, i ∈ l -> unused (bufs s !!! i) = false) -> R None s) ->
  (forall l1 i l2, l = l1 ++ i :: l2 -> unused (bufs s !!! i) = true ->
     (forall j, j ∈ l2 -> unused (bufs s !!! j) = false) -> R (Some i) s) ->
  wp (bget_unused n (bprev s !!! z)) R s.
Proof.
  revert n z. induction l as [|b l IH] using rev_ind; intros n z Hl Hh Hn HN HS;
    (destruct n as [|n]; [rewrite ?length_app in Hn; lia|]); cbn [bget_unused].
  - destruct Hl as [_ ->]. rewrite Nat.eqb_refl. apply wp_ret, HN. set_solver.
  - apply linked_app in Hl as [Hl [_ ->]]. rewrite (proj2 (Nat.eqb_neq _ _)) by set_solver.
    wp_step. apply getb_wp. wp_step. apply getb_wp. change (_ && _) with (unused (bufs s !!! b)).
    destruct (unused (bufs s !!! b)) eqn:E.
    + apply wp_ret, (HS l b []); [done|done|set_solver].
    + wp_step. apply wp_gets. apply IH; [done|set_solver|rewrite length_app in Hn; cbn in Hn; lia| |].
      * intros Hf. apply HN. intros i [Hi|Hi]%elem_of_app; [by apply Hf|]. apply list_elem_of_singleton in Hi. by subst.
      * intros l1 i l2 -> Ht Hf. apply (HS l1 i (l2 ++ [b])); [by rewrite <- app_assoc|done|].
        intros j [Hj|Hj]%elem_of_app; [by apply Hf|]. apply list_elem_of_singleton in Hj. by subst.
Qed.


(** ** Changing one buffer *)

Lemma keyed_fun b b' x : keyed b x = true -> keyed b' x = true -> b = b'.
Proof. unfold keyed. intros. zbool. congruence. Qed.

Lemma bio_inv_with l s i x :
  bio_inv l s -> (i < nbuf)%nat -> buf_ok s x ->
  (forall b j, (j < nbuf)%nat -> j <> i -> keyed b x = true -> keyed b (bufs s !!! j) = false) ->
  bio_inv l (with_buf i x s).
Proof.
  intros [H1 H2 H3 H4 H5] Hi Hx Hu. split; cbn; try done.
  - by rewrite length_insert.
  - intros j Hj. destruct (decide (j = i)) as [->|Hne].
    + rewrite list_lookup_total_insert_eq by lia. exact Hx.
    + rewrite list_lookup_total_insert_ne by done. by apply H3.
  - intros j k b Hj Hk. destruct (decide (j = i)) as [->|Hj'], (decide (k = i)) as [->|Hk']; try done;
      rewrite ?list_lookup_total_insert_eq, ?(list_lookup_total_insert_ne _ i) by (done || lia).
    + intros A B. pose proof (Hu b k Hk Hk' A). congruence.
    + intros A B. pose proof (Hu b j Hj Hj' B). congruence.
    + by apply H4.
Qed.

(** The array after a buffer is replaced: nothing changes if the new buffer has the
    content of its block and the old one, if it is for another block, is clean. *)
Lemma blk_with_buf l s i x :
  bio_inv l s -> bio_inv l (with_buf i x s) -> (i < nbuf)%nat ->
  (forall b, cached b x = true -> b_data x = blk s b) ->
  (forall b, cached b (bufs s !!! i) = true -> cached b x = true \/ b_data (bufs s !!! i) = dblk s b) ->
  forall b, blk (with_buf i x s) b = blk s b.
Proof.
  intros Hi Hi' Hlt Hnew Hold b. pose proof (bi_len _ _ Hi) as Hlen.
  destruct (cached b x) eqn:Ex.
  { rewrite (blk_cached _ _ i b Hi') by (rewrite ?with_buf_eq by lia; done). rewrite with_buf_eq by lia. by apply Hnew. }
  destruct (cached b (bufs s !!! i)) eqn:Eo.
  - destruct (Hold b Eo) as [?|Hd]; [congruence|]. rewrite (blk_cached _ _ i b Hi), Hd by done. change (dblk s b) with (dblk (with_buf i x s) b). apply blk_uncached.
    intros j Hj. rewrite length_with_buf in Hj. destruct (decide (j = i)) as [->|Hne]; [by rewrite with_buf_eq by lia|].
    rewrite with_buf_ne by done. apply not_true_iff_false. intros Hc. apply Hne.
    unfold cached in *. zbool. apply (bi_uniq _ _ Hi j i b); done || lia.
  - apply (blk_ext l l); [done..|]. intros j Hj. destruct (decide (j = i)) as [->|Hne].
    + rewrite with_buf_eq by lia. split; congruence.
    + by rewrite with_buf_ne.
Qed.

(** The buffer [bread] returns for block [b]: locked, valid, with the block's
    content, one reference more than before. *)
Record bread_post (p i : nat) (b : Z) (s : kstate) (x : buf) : Prop := {
  bp_key : keyed b x = true;
  bp_flags : b_flags x = 2 \/ b_flags x = 6;
  bp_lock : b_lock x = MkSl 1 (pid_of p s);
  bp_data : b_data x = blk s b;
  bp_old : let y := bufs s !!! i in
    keyed b y = true /\ b_refcnt x = b_refcnt y + 1 /\ (b_flags y = 0 /\ b_flags x = 2 \/ b_flags y = b_flags x) \/
    busy y = false /\ b_refcnt x = 1 /\ b_flags x = 2 /\ forall j, (j < nbuf)%nat -> keyed b (bufs s !!! j) = false
}.

Section bread.
Context `{!Fuel, !BlockDevice, !SyncDevice}.

(** No one holds the buffer of block [b], and there is a buffer to recycle. *)
Definition bget_ready (b : Z) (s : kstate) : Prop :=
  (forall i, (i < nbuf)%nat -> keyed b (bufs s !!! i) = true ->
     sl_locked (b_lock (bufs s !!! i)) = 0 /\ b_refcnt (bufs s !!! i) + 1 < 2 ^ 30) /\
  exists i, (i < nbuf)%nat /\ busy (bufs s !!! i) = false.

Lemma unused_busy s x : buf_ok s x -> unused x = negb (busy x).
Proof. intros ([E|[E|E]] & _); unfold unused, busy; rewrite E; cbn; by destruct (b_refcnt x =? 0). Qed.

Lemma bget_wp p l s b (R : nat -> kstate -> Prop) :
  kctx p [] s -> bio_inv l s -> bget_ready b s ->
  (forall i, (i < nbuf)%nat -> keyed b (bufs s !!! i) = true ->
     R i (with_buf i (set_b_lock (MkSl 1 (pid_of p s)) (set_b_refcnt (b_refcnt (bufs s !!! i) + 1) (bufs s !!! i))) s)) ->
  (forall i, (i < nbuf)%nat -> busy (bufs s !!! i) = false -> (forall j, (j < nbuf)%nat -> keyed b (bufs s !!! j) = false) ->
     R i (with_buf i (MkBuf 0 ROOTDEV b (MkSl 1 (pid_of p s)) 1 (b_data (bufs s !!! i))) s)) ->
  wp (bget ROOTDEV b) R s.
Proof.
  intros Hk Hi [Hun Hex] Hhit Hmiss. pose proof (bi_lru _ _ Hi) as Hlru. pose proof (bi_len _ _ Hi) as Hlen.
  pose proof (lru_elem _ _ _ head Hlru) as Hhl. pose proof (Permutation_length (lru_perm _ _ _ Hlru)) as Hll. rewrite length_seq in Hll.
  assert (head ∉ l) as Hh by (rewrite Hhl; unfold head; lia).
  unfold bget. wp_step. eapply kacquire_wp; [exact Hk|set_solver|]. intros Hk1. wp_step. apply wp_gets. wp_step.
  assert (forall i x, (i < nbuf)%nat -> sl_locked (b_lock x) = 0 ->
    R i (with_buf i (set_b_lock (MkSl 1 (pid_of p s)) x) s) ->
    wp (krelease LBcache ;;; acquiresleep (SlBuf i) ;;; ret i) R (with_buf i x (klocked LBcache s))) as Hend.
  { intros i x Hlt Hu HR. wp_step. eapply krelease_wp; [by eapply kctx_same|set_solver|]. cbv zeta. intros Hk2.
    assert (put_kp (put_pm (set_held [] (pm (kp (with_buf i x (klocked LBcache s))))) (kp (with_buf i x (klocked LBcache s))))
              (with_buf i x (klocked LBcache s)) = with_buf i x s) as E.
    { cbn [kp with_buf klocked put_kp put_bufs]. rewrite (unlocked _ _ _ (kc_held _ _ _ Hk)). by destruct s. }
    rewrite E in *. wp_step. eapply (acquiresleep_wp (SlBuf i)); [exact Hk2|set_solver|cbn; rewrite length_insert; lia| |].
    - cbn. by rewrite list_lookup_total_insert_eq by lia.
    - wp_step. rewrite sl_put_buf, with_buf_eq, with_buf_with_buf by lia. exact HR. }
  eapply (bget_cached_wp (S nbuf) ROOTDEV b head l (klocked LBcache s)); [apply Hlru|done|lia| |].
  - intros Hnone. wp_step. apply wp_gets. wp_step.
    eapply (bget_unused_wp (S nbuf) head l (klocked LBcache s)); [apply Hlru|done|lia| |].
    + intros Hall. exfalso. destruct Hex as (i & Hlt & Hb). apply (lru_elem _ _ _ i Hlru) in Hlt as Hil.
      specialize (Hall i Hil). cbn in Hall. rewrite (unused_busy s) in Hall by by apply Hi. rewrite Hb in Hall. done.
    + intros l1 i l2 -> Hu _. cbn in Hu. assert (i < nbuf)%nat as Hlt by (apply (lru_elem _ _ _ i Hlru); set_solver).
      rewrite (unused_busy s) in Hu by by apply Hi. apply negb_true_iff in Hu.
      do 4 (wp_step; apply setb_wp). rewrite !with_buf_with_buf. repeat rewrite with_buf_eq by (cbn; lia). cbn [set_b_dev set_b_blockno set_b_flags set_b_refcnt b_dev b_blockno b_flags b_refcnt b_lock b_data].
      apply Hend; [done| |].
      * cbn. apply (bi_buf _ _ Hi i Hlt). unfold busy in Hu. zbool. lia.
      * apply (Hmiss i Hlt Hu). intros j Hj. apply (lru_elem _ _ _ j Hlru) in Hj. by apply (Hnone j Hj).
  - intros i Hil Ht. cbn in Ht. assert (i < nbuf)%nat as Hlt by by apply (lru_elem _ _ _ i Hlru).
    destruct (Hun i Hlt Ht) as [Hu Hr]. destruct (bi_buf _ _ Hi i Hlt) as (_ & _ & Hrf & _).
    wp_step. apply setb_wp. cbn [bufs klocked put_kp]. rewrite u32_small by lia.
    apply Hend; [done|done|]. by apply Hhit.
Qed.

(** Everything but the buffers, their list, the disk and processes woken up. *)
Record bframe (s s' : kstate) : Prop := {
  bf_kp : quiet (kp s) (kp s');
  bf_log : klog s' = klog s;
  bf_sb : ksb s' = ksb s;
  bf_ic : icache s' = icache s;
  bf_ft : ftable s' = ftable s;
  bf_pipes : pipes s' = pipes s;
  bf_cons : cons s' = cons s;
  bf_ide : ide s' = ide s
}.

#[export] Instance bframe_preorder : PreOrder bframe.
Proof.
  split; [by split|]. intros s1 s2 s3 [A1 A2 A3 A4 A5 A6] [B1 B2 B3 B4 B5 B6].
  split; try congruence. by transitivity (kp s2).
Qed.

Lemma bframe_with_buf i x s : bframe s (with_buf i x s).
Proof. by split. Qed.

Lemma bframe_pid p s s' : bframe s s' -> pid_of p s' = pid_of p s.
Proof. intros Hf. apply (quiet_field p_pid); [done|apply Hf]. Qed.

Lemma bframe_kctx p h s s' : kctx p h s -> bframe s s' -> kctx p h s'.
Proof. intros Hk Hf. eapply kctx_quiet; [done|apply Hf]. Qed.

(** Same disk, same array of blocks. *)
Definition same_blks (s s' : kstate) : Prop := disk s' = disk s /\ forall b, blk s' b = blk s b.

(** The buffer returned may replace the old one. *)
Lemma bread_post_ok p l s b i x :
  bio_inv l s -> 0 <= b < nblocks s -> (i < nbuf)%nat -> bread_post p i b s x -> 0 <= b_refcnt x < 2 ^ 30 ->
  length (b_data x) = bsize -> bio_inv l (with_buf i x s) /\ same_blks s (with_buf i x s).
Proof.
  intros Hi Hb Hlt Hp Hr Hl. pose proof (bp_key _ _ _ _ _ Hp) as Hkey. pose proof (bi_buf _ _ Hi i Hlt) as (Hf & _ & Hr0 & _ & _ & Hcl).
  assert (0 < b_refcnt x) as Hpos by (destruct (bp_old _ _ _ _ _ Hp) as [(_ & E & _)|(_ & E & _)]; lia).
  assert (bio_inv l (with_buf i x s)) as Hi'.
  { apply bio_inv_with; [done|done| |].
    - split; [destruct (bp_flags _ _ _ _ _ Hp); auto|]. split; [done|]. split; [done|].
      unfold keyed in Hkey. zbool. split_and!; lia.
    - intros b' j Hj Hne Hb'. pose proof (keyed_fun _ _ _ Hb' Hkey) as ->.
      destruct (bp_old _ _ _ _ _ Hp) as [(Ho & _)|(_ & _ & _ & Ho)]; [|by apply Ho].
      apply not_true_iff_false. intros Hc. apply Hne. by apply (bi_uniq _ _ Hi j i b). }
  split; [done|]. split; [done|]. apply (blk_with_buf l); [done|done|done| |].
  - intros b' Hc. unfold cached in Hc. apply andb_true_iff in Hc as [Hc _]. rewrite (keyed_fun b' b x) by done. apply Hp.
  - intros b' Hc. unfold cached in *. apply andb_true_iff in Hc as [Hc Hz]. zbool.
    destruct (bp_old _ _ _ _ _ Hp) as [(Ho & _)|(Hbz & _)].
    + left. rewrite (keyed_fun b' b _ Hc Ho), Hkey. destruct (bp_flags _ _ _ _ _ Hp) as [-> | ->]; done.
    + right. unfold busy in Hbz. unfold keyed in Hc. zbool. subst b'. apply Hcl; [done|done|].
      destruct Hf as [?|[?|?]]; done.
Qed.

(** The read of an invalid buffer. *)
Lemma bread_fill p s b i x (R : nat -> kstate -> Prop) :
  kctx p [] s -> (i < length (bufs s))%nat -> 0 <= b < nblocks s ->
  b_flags x = 0 -> keyed b x = true -> b_lock x = MkSl 1 (pid_of p s) ->
  R i (with_buf i (set_b_flags 2 (set_b_data (dblk s b) x)) s) ->
  wp (let* f := getb i b_flags in when (negb (has f B_VALID)) (iderw i) ;;; ret i) R (with_buf i x s).
Proof.
  intros Hk Hlt Hb Hf Hkey Hlk HR. wp_step. apply getb_wp. rewrite with_buf_eq, Hf by lia. change (has 0 B_VALID) with false.
  cbn [negb when]. wp_step. unfold keyed in Hkey. zbool.
  eapply iderw_read; [by eapply kctx_same|rewrite length_with_buf; lia|..]; unfold holds_buf; rewrite ?with_buf_eq by lia; try done.
  - subst b. done.
  - wp_step. rewrite with_buf_with_buf. subst b. done.
Qed.

Lemma bread_wp p l s b (R : nat -> kstate -> Prop) :
  kctx p [] s -> bio_inv l s -> 0 <= b < nblocks s -> bget_ready b s ->
  (forall i x, (i < nbuf)%nat -> bread_post p i b s x -> bio_inv l (with_buf i x s) ->
     same_blks s (with_buf i x s) -> R i (with_buf i x s)) ->
  wp (bread ROOTDEV b) R s.
Proof.
  intros Hk Hi Hb Hrd HR. pose proof (bi_len _ _ Hi) as Hlen. unfold bread. wp_step.
  assert (forall i x, (i < nbuf)%nat -> bread_post p i b s x -> 0 <= b_refcnt x < 2 ^ 30 -> length (b_data x) = bsize ->
    R i (with_buf i x s)) as Hfin.
  { intros i x Hlt Hp Hr Hl. destruct (bread_post_ok p l s b i x) as [Ha Hc]; try done. by apply HR. }
  eapply bget_wp; [done|done|done| |].
  - intros i Hlt Hkey. destruct (bi_buf _ _ Hi i Hlt) as (Hf & Hd & Hr & _). pose proof (proj2 (proj1 Hrd i Hlt Hkey)).
    set (x := set_b_lock _ _). destruct (decide (b_flags (bufs s !!! i) = 0)) as [E0|Hne].
    + apply (bread_fill p s b); [done|lia|done|done|done|done|]. apply Hfin; [done| |cbn; lia|exact (bi_disk _ _ Hi b Hb)].
      split; cbn; [done|by left|done| |left; split; [done|split; [done|by left]]].
      symmetry. apply blk_uncached. intros j Hj. rewrite Hlen in Hj. unfold cached.
      destruct (keyed b (bufs s !!! j)) eqn:Ek; [|done]. rewrite (bi_uniq _ _ Hi j i b Hj Hlt Ek Hkey), E0. done.
    + assert (has (b_flags (bufs s !!! i)) B_VALID = true) as Hv by (destruct Hf as [?|[-> | ->]]; done).
      wp_step. apply getb_wp. rewrite with_buf_eq by lia. cbn [b_flags x set_b_lock set_b_refcnt]. rewrite Hv. cbn [negb when].
      wp_step. wp_step. wp_step. apply Hfin; [done| |cbn; lia|done].
      split; cbn; [done|tauto|done| |left; split; [done|split; [done|by right]]].
      symmetry. apply (blk_cached l); [done|done|]. unfold cached. rewrite Hkey. cbn. by apply negb_true_iff, Z.eqb_neq.
  - intros i Hlt Hbz Hnone. apply (bread_fill p s b); [done|lia|done|done|unfold keyed; cbn; by rewrite Z.eqb_refl|done|].
    apply Hfin; [done| |cbn; lia|exact (bi_disk _ _ Hi b Hb)]. split; cbn; [unfold keyed; cbn; by rewrite Z.eqb_refl|by left|done| |by right].
    symmetry. apply blk_uncached. intros j Hj. unfold cached. rewrite Hnone by lia. done.
Qed.

(** Writing the block of a held, valid buffer. *)
Lemma disk_write_nblocks b d s : nblocks (disk_write b d s) = nblocks s.
Proof. unfold nblocks. cbn. by rewrite length_insert. Qed.

Lemma disk_write_dblk b d s b' :
  0 <= b < nblocks s -> 0 <= b' -> dblk (disk_write b d s) b' = if decide (b' = b) then d else dblk s b'.
Proof.
  unfold nblocks, dblk. intros Hb Hb'. cbn. case_decide as E.
  - subst. by rewrite list_lookup_total_insert_eq by lia.
  - by rewrite list_lookup_total_insert_ne by lia.
Qed.

Lemma bwrite_inv l s i x b :
  bio_inv l s -> (i < nbuf)%nat -> keyed b (bufs s !!! i) = true -> b_flags (bufs s !!! i) <> 0 ->
  let s' := disk_write b (b_data (bufs s !!! i)) (with_buf i (set_b_flags 2 (bufs s !!! i)) s) in
  x = set_b_flags 2 (bufs s !!! i) ->
  bio_inv l s' /\ forall b', 0 <= b' -> blk s' b' = blk s b'.
Proof.
  intros Hi Hlt Hkey Hf s' ->. pose proof (bi_len _ _ Hi) as Hlen. pose proof (bi_buf _ _ Hi i Hlt) as (Hfl & Hd & Hr & Hu & Hno & _).
  assert (0 <= b < nblocks s) as Hb by (unfold keyed in Hkey; zbool; subst b; by apply Hno).
  set (x := set_b_flags 2 (bufs s !!! i)) in *.
  assert (forall b', 0 <= b' -> dblk s' b' = if decide (b' = b) then b_data (bufs s !!! i) else dblk s b') as Hdb
    by (intros b' Hb'; exact (disk_write_dblk b _ (with_buf i x s) b' Hb Hb')).
  assert (nblocks s' = nblocks s) as Hnb by exact (disk_write_nblocks b _ (with_buf i x s)).
  assert (forall j, j <> i -> (j < nbuf)%nat -> keyed b (bufs s !!! j) = false) as Hoth.
  { intros j Hne Hj. apply not_true_iff_false. intros Hc. apply Hne. by apply (bi_uniq _ _ Hi j i b). }
  assert (bio_inv l s') as Hi'.
  { split; [etrans; [apply length_insert|done]|apply Hi| | |].
    - intros j Hj. change (buf_ok s' (bufs (with_buf i x s) !!! j)). destruct (decide (j = i)) as [->|Hne].
      + rewrite with_buf_eq by lia. split; [auto|]. split; [done|]. split; [done|]. split; [done|]. rewrite Hnb. split; [done|].
        unfold keyed in Hkey. zbool. intros _ _ _. cbn. rewrite Hdb by lia. by rewrite decide_True by done.
      + rewrite with_buf_ne by done. destruct (bi_buf _ _ Hi j Hj) as (A1 & A2 & A3 & A4 & A5 & A6).
        split; [done|]. split; [done|]. split; [done|]. split; [done|]. rewrite Hnb. split; [done|].
        intros B1 B2 B3. rewrite Hdb by (apply A5 in B1; lia). rewrite decide_False; [by apply A6|].
        intros E. specialize (Hoth j Hne Hj). unfold keyed in Hoth. rewrite B1, E, !Z.eqb_refl in Hoth. done.
    - intros j k b' Hj Hk. change (bufs s') with (bufs (with_buf i x s)).
      assert (forall j, keyed b' (bufs (with_buf i x s) !!! j) = keyed b' (bufs s !!! j)) as Ek.
      { intros q. destruct (decide (q = i)) as [->|Hne]; [by rewrite with_buf_eq by lia|by rewrite with_buf_ne]. }
      rewrite !Ek. by apply (bi_uniq _ _ Hi).
    - intros b' Hb'. rewrite Hdb by lia. rewrite Hnb in Hb'. case_decide; [done|]. by apply (bi_disk _ _ Hi). }
  split; [done|]. intros b' Hb'. destruct (decide (b' = b)) as [->|Hne].
  - assert (cached b (bufs s !!! i) = true) as Hc by (unfold cached; rewrite Hkey; by apply negb_true_iff, Z.eqb_neq).
    rewrite (blk_cached l s i b) by done. rewrite (blk_cached l s' i b Hi' Hlt).
    + change (bufs s') with (bufs (with_buf i x s)). by rewrite with_buf_eq by lia.
    + change (bufs s') with (bufs (with_buf i x s)). rewrite with_buf_eq by lia. unfold cached.
      change (keyed b x) with (keyed b (bufs s !!! i)). by rewrite Hkey.
  - apply (blk_ext l l); [done|done|rewrite Hdb by done; by rewrite decide_False|]. intros j Hj.
    change (bufs s') with (bufs (with_buf i x s)). destruct (decide (j = i)) as [->|Hji]; [|by rewrite with_buf_ne].
    rewrite with_buf_eq by lia. split; [|done]. unfold cached.
    assert (keyed b' (bufs s !!! i) = false) as Hk' by (apply not_true_iff_false; intros Hc; apply Hne; by eapply keyed_fun).
    change (keyed b' x) with (keyed b' (bufs s !!! i)). by rewrite Hk'.
Qed.

Lemma bwrite_wp p l s i b (R : unit -> kstate -> Prop) :
  kctx p [] s -> bio_inv l s -> (i < nbuf)%nat -> holds_buf p i s -> keyed b (bufs s !!! i) = true ->
  b_flags (bufs s !!! i) <> 0 ->
  (let s' := disk_write b (b_data (bufs s !!! i)) (with_buf i (set_b_flags 2 (bufs s !!! i)) s) in
   bio_inv l s' -> (forall b', 0 <= b' -> blk s' b' = blk s b') -> R tt s') ->
  wp (bwrite i) R s.
Proof.
  intros Hk Hi Hlt Hl Hkey Hf HR. pose proof (bi_len _ _ Hi) as Hlen. pose proof (bi_buf _ _ Hi i Hlt) as (Hfl & _ & _ & _ & Hno & _).
  unfold bwrite. wp_step. eapply holdingsleep_wp; [exact Hk|set_solver|done|]. cbn [negb]. wp_step. apply setb_wp.
  assert (Z.lor (b_flags (bufs s !!! i)) B_DIRTY = 6) as -> by (destruct Hfl as [?|[-> | ->]]; done).
  assert (b_dev (bufs s !!! i) = ROOTDEV /\ b_blockno (bufs s !!! i) = b) as [Ed Eb] by (unfold keyed in Hkey; zbool; done).
  eapply iderw_write; [by eapply kctx_same|rewrite length_with_buf; lia|..]; unfold holds_buf; rewrite ?with_buf_eq by lia; try done.
  { cbn. by apply Hno. }
  rewrite with_buf_with_buf. cbn [set_b_flags b_blockno b_data]. rewrite Eb.
  destruct (bwrite_inv l s i (set_b_flags 2 (bufs s !!! i)) b) as [Ha Hb]; try done. by apply HR.
Qed.

(** The buffer [brelse] leaves: unlocked, with one reference less. *)
Definition released (x : buf) : buf := set_b_refcnt (b_refcnt x - 1) (set_b_lock (MkSl 0 0) x).

Lemma bio_inv_move l l' s s' :
  bio_inv l s -> bufs s' = bufs s -> disk s' = disk s -> lru (bnext s') (bprev s') l' -> bio_inv l' s'.
Proof.
  intros [H1' H2' H3' H4' H5'] Eb Ed Hl. split; rewrite ?Eb; try done.
  - intros j Hj. unfold buf_ok, nblocks, dblk. rewrite Ed. by apply H3'.
  - intros b. unfold nblocks, dblk. rewrite Ed. apply H5'.
Qed.

Lemma blk_move s s' b : bufs s' = bufs s -> disk s' = disk s -> blk s' b = blk s b.
Proof. intros Eb Ed. unfold blk, dblk. by rewrite Eb, Ed. Qed.

Lemma released_ok l s i :
  bio_inv l s -> (i < nbuf)%nat -> 1 <= b_refcnt (bufs s !!! i) ->
  (b_refcnt (bufs s !!! i) = 1 -> b_dev (bufs s !!! i) = ROOTDEV -> b_flags (bufs s !!! i) = 2 ->
     b_data (bufs s !!! i) = dblk s (b_blockno (bufs s !!! i))) ->
  bio_inv l (with_buf i (released (bufs s !!! i)) s) /\ same_blks s (with_buf i (released (bufs s !!! i)) s).
Proof.
  intros Hi Hlt Hr Hcl. pose proof (bi_buf _ _ Hi i Hlt) as (Hf & Hd & Hrf & Hu & Hno & _).
  set (x := released (bufs s !!! i)).
  assert (forall b, keyed b x = keyed b (bufs s !!! i)) as Hkx by done.
  assert (forall b, cached b x = cached b (bufs s !!! i)) as Hcx by done.
  assert (bio_inv l (with_buf i x s)) as Hi'.
  { apply bio_inv_with; [done|done| |].
    - split; [done|]. split; [done|]. cbn. split; [lia|]. split; [done|]. split; [done|]. intros. apply Hcl; done || lia.
    - intros b j Hj Hne Hb. rewrite Hkx in Hb. apply not_true_iff_false. intros Hc. apply Hne. by apply (bi_uniq _ _ Hi j i b). }
  split; [done|]. split; [done|]. apply (blk_with_buf l); [done|done|done| |].
  - intros b Hb. rewrite Hcx in Hb. symmetry. by apply (blk_cached l).
  - intros b Hb. left. by rewrite Hcx.
Qed.

Lemma brelse_wp p l s i (R : unit -> kstate -> Prop) :
  kctx p [] s -> bio_inv l s -> (i < nbuf)%nat -> holds_buf p i s -> 1 <= b_refcnt (bufs s !!! i) ->
  (b_refcnt (bufs s !!! i) = 1 -> b_dev (bufs s !!! i) = ROOTDEV -> b_flags (bufs s !!! i) = 2 ->
     b_data (bufs s !!! i) = dblk s (b_blockno (bufs s !!! i))) ->
  (forall l' s', bio_inv l' s' -> bframe s s' -> same_blks s s' -> bufs s' = <[i := released (bufs s !!! i)]> (bufs s) ->
     l' = (if b_refcnt (bufs s !!! i) =? 1 then to_front i l else l) -> R tt s') ->
  wp (brelse i) R s.
Proof.
  intros Hk Hi Hlt Hl Hr Hcl HR. pose proof (bi_len _ _ Hi) as Hlen. pose proof (bi_buf _ _ Hi i Hlt) as (_ & _ & Hrf & _).
  destruct (released_ok l s i Hi Hlt Hr Hcl) as [Hi1 Hs1].
  unfold brelse. wp_step. eapply holdingsleep_wp; [exact Hk|set_solver|done|]. cbn [negb]. wp_step.
  eapply releasesleep_wp; [exact Hk|set_solver|set_solver|cbn; lia|]. intros p' Hq. rewrite sl_put_buf. wp_step.
  assert (kctx p [] (put_kp p' (with_buf i (set_b_lock (MkSl 0 0) (bufs s !!! i)) s))) as Hk1 by by eapply kctx_quiet.
  eapply kacquire_wp; [exact Hk1|set_solver|]. intros Hk2. wp_step. apply setb_wp. wp_step. apply getb_wp.
  set (s1 := klocked LBcache _).
  assert (bufs s1 = <[i := set_b_lock (MkSl 0 0) (bufs s !!! i)]> (bufs s)) as Eb by done.
  rewrite with_buf_eq by (rewrite Eb, length_insert; lia). rewrite Eb, list_lookup_total_insert_eq by lia. cbn [b_refcnt set_b_refcnt set_b_lock].
  rewrite u32_small by lia. set (x := set_b_refcnt _ _). change x with (released (bufs s !!! i)). clear x.
  set (s2 := with_buf i (released (bufs s !!! i)) s1).
  assert (bufs s2 = <[i := released (bufs s !!! i)]> (bufs s)) as Eb2 by (unfold s2, with_buf; cbn [bufs put_bufs]; by rewrite Eb, list_insert_insert_eq).
  assert (forall nx pv l', lru nx pv l' -> l' = (if b_refcnt (bufs s !!! i) =? 1 then to_front i l else l) ->
    wp (krelease LBcache) R (put_bprev pv (put_bnext nx s2))) as Hend.
  { intros nx pv l' Hlru El. eapply krelease_wp; [by eapply kctx_same|set_solver|]. cbv zeta.
    cbn [kp put_bprev put_bnext put_kp s2 s1 with_buf klocked put_bufs]. rewrite (unlocked _ _ _ (kc_held _ _ _ Hk1)). intros _.
    apply (HR l'); [| | |exact Eb2|exact El].
    - eapply (bio_inv_move l l' (with_buf i (released (bufs s !!! i)) s)); [exact Hi1|exact Eb2|done|done].
    - by split.
    - split; [done|]. intros b. rewrite <- (proj2 Hs1 b). by apply blk_move. }
  destruct (b_refcnt (bufs s !!! i) =? 1) eqn:E1; zbool.
  - rewrite (proj2 (Z.eqb_eq _ 0)) by lia. cbn [when]. wp_step. eapply (relink_wp i l); [apply Hi|done|].
    intros nx pv Hlru. by eapply Hend.
  - rewrite (proj2 (Z.eqb_neq _ 0)) by lia. cbn [when]. wp_step. wp_step.
    assert (s2 = put_bprev (bprev s2) (put_bnext (bnext s2) s2)) as -> by by destruct s2.
    eapply Hend; [apply Hi|done].
Qed.

End bread.

(** ** Theorems *)

Lemma binit_loop_wp n b l s (R : unit -> kstate -> Prop) :
  (b + n = nbuf)%nat -> length (bnext s) = S nbuf -> length (bprev s) = S nbuf -> length (bufs s) = nbuf ->
  linked (bnext s) (bprev s) head l head -> l = reverse (seq 0 b) ->
  (forall i, (i < b)%nat -> b_lock (bufs s !!! i) = sl0) ->
  (forall s', lru (bnext s') (bprev s') (reverse (seq 0 nbuf)) -> length (bufs s') = nbuf ->
     (forall i, (i < nbuf)%nat -> b_lock (bufs s' !!! i) = sl0) -> R tt s') ->
  wp (binit_loop n b) R s.
Proof.
  revert b l s. induction n as [|n IH]; intros b l s Hb Hn Hp Hl Hk El Hlk HR; cbn [binit_loop].
  - apply wp_ret. replace b with nbuf in * by lia. subst l. apply HR; [|done|done]. split; try done. by rewrite reverse_Permutation.
  - assert (forall i, i ∈ l -> (i < b)%nat) as Hlt by (subst l; intros i Hi; rewrite elem_of_reverse in Hi; apply elem_of_seq in Hi; lia).
    assert (head = nbuf) as Eh by done. pose proof (linked_first _ _ _ _ _ Hk) as Ef.
    assert (NoDup l) as Hnd by (subst l; rewrite reverse_Permutation; apply NoDup_seq).
    unfold b_next, set_next, set_prev, initsleeplock. do 12 wp_step. cbn [bnext bprev sl_put put_bnext put_bprev put_bufs].
    rewrite list_lookup_total_insert_ne by lia. rewrite Ef.
    eapply (IH (S b) (b :: l)); cbn [bnext bprev bufs sl_put put_bnext put_bprev put_bufs]; rewrite ?length_insert, ?length_alter; try lia; try done.
    + assert ((b ∉ l) /\ (head ∉ l) /\ b <> head) as (Hbl & Hhl & Hbh) by (split_and!; [intros Hin%Hlt; lia|intros Hin%Hlt; lia|lia]).
      apply linked_front; rewrite ?length_insert; [done|set_solver|set_solver|by apply NoDup_cons| |lia|lia|lia|].
      * apply NoDup_app. split_and!; [done|set_solver|apply NoDup_singleton].
      * rewrite Hp. destruct l as [|c l0]; cbn; [lia|]. specialize (Hlt c ltac:(set_solver)). lia.
    + subst l. rewrite seq_S. cbn. by rewrite reverse_app.
    + intros i Hi. destruct (decide (i = b)) as [->|Hne].
      * by rewrite (alter_same (set_b_lock (MkSl 0 0))) by lia.
      * rewrite list_lookup_total_alter. rewrite decide_False by naive_solver. apply Hlk. lia.
Qed.

(** [binit] builds the cache: from memory of any content it returns with every
    buffer in the circular list exactly once, its forward and backward links
    agreeing, and every buffer's lock free. *)
Theorem binit_lru s :
  length (bnext s) = S nbuf -> length (bprev s) = S nbuf -> length (bufs s) = nbuf ->
  wp binit (fun _ s' => lru (bnext s') (bprev s') (reverse (seq 0 nbuf)) /\ length (bufs s') = nbuf /\
    forall i, (i < nbuf)%nat -> b_lock (bufs s' !!! i) = sl0) s.
Proof.
  intros Hn Hp Hb. assert (head = nbuf) as Eh by done. unfold binit, set_prev, set_next. do 4 wp_step.
  apply (binit_loop_wp nbuf 0 []); cbn [bnext bprev bufs put_bnext put_bprev]; rewrite ?length_insert; try done; [|lia].
  cbn [linked]. by rewrite !list_lookup_total_insert_eq by lia.
Qed.

Section theorems.
Context {FU : Fuel} {BD : BlockDevice} {SD : SyncDevice}.

(** C10. The cache is the array of the disk's blocks: [bread] of a block returns a
    buffer locked by the caller whose data is the block's current content, modified
    copies included, and changes the content of no block, whether the block was
    cached or a buffer had to be recycled; a recycled buffer was unused and clean. *)
Theorem bread_array p l s b :
  kctx p [] s -> bio_inv l s -> 0 <= b < nblocks s -> bget_ready b s ->
  wp (bread ROOTDEV b) (fun i s' => (i < nbuf)%nat /\ bio_inv l s' /\ kctx p [] s' /\ holds_buf p i s' /\
    b_dev (bufs s' !!! i) = ROOTDEV /\ b_blockno (bufs s' !!! i) = b /\ b_data (bufs s' !!! i) = blk s b /\
    disk s' = disk s /\ (forall c, blk s' c = blk s c) /\
    (keyed b (bufs s !!! i) = false -> busy (bufs s !!! i) = false) /\
    forall j, j <> i -> bufs s' !!! j = bufs s !!! j) s.
Proof.
  intros Hk Hi Hb Hr. pose proof (bi_len _ _ Hi) as Hlen. eapply bread_wp; [done|done|done|done|]. intros i x Hlt Hp Hi' [Hd Hs].
  destruct Hp as [Hky Hf Hl Hdt Hold]. unfold holds_buf. rewrite with_buf_eq by lia. unfold keyed in Hky. zbool.
  split_and!; try done; [by eapply kctx_same| |by intros; apply with_buf_ne].
  intros Hkf. destruct Hold as [(Ht & _)|(Ht & _)]; congruence.
Qed.

(** [brelse] by the holder gives the buffer back: the last user's release puts
    it at the most recently used end of the list, the lock is free, and no block
    changes content. *)
Theorem brelse_recency p l s i :
  kctx p [] s -> bio_inv l s -> (i < nbuf)%nat -> holds_buf p i s -> 1 <= b_refcnt (bufs s !!! i) ->
  (b_refcnt (bufs s !!! i) = 1 -> b_dev (bufs s !!! i) = ROOTDEV -> b_flags (bufs s !!! i) = 2 ->
     b_data (bufs s !!! i) = dblk s (b_blockno (bufs s !!! i))) ->
  wp (brelse i) (fun _ s' => bio_inv (if b_refcnt (bufs s !!! i) =? 1 then to_front i l else l) s' /\
    kctx p [] s' /\ b_lock (bufs s' !!! i) = sl0 /\ b_refcnt (bufs s' !!! i) = b_refcnt (bufs s !!! i) - 1 /\
    disk s' = disk s /\ (forall c, blk s' c = blk s c) /\ forall j, j <> i -> bufs s' !!! j = bufs s !!! j) s.
Proof.
  intros Hk Hi Hlt Hh Hr Hcl. pose proof (bi_len _ _ Hi) as Hlen. eapply brelse_wp; [done..|].
  intros l' s' Hi' Hf [Hd Hs] Eb El. rewrite <- El. rewrite Eb, list_lookup_total_insert_eq by lia.
  split_and!; try done; [by eapply bframe_kctx|]. intros j Hj. by apply list_lookup_total_insert_ne.
Qed.

End theorems.
