(* ===== verification/Log.v ===== *)
(** * The log (log.c)

    File-system updates are collected in the buffer cache and written to the disk
    as one transaction: blocks to the log, then the header, then the blocks in
    place, then an empty header. *)

From S2P Require Import Prelude Bytes Monad Machine ProcDefs Proc KernDefs Sleeplock Bio.

Section log.
Context `{!Fuel, !BlockDevice}.

(** ** On-disk formats *)

(** fs.h: the superblock is read as seven words. *)
Definition sb_decode (d : block) : superblock :=
  MkSb (get32 d 0) (get32 d 4) (get32 d 8) (get32 d 12) (get32 d 16) (get32 d 20) (get32 d 24).

(** fs.c *)
Definition readsb (dev : Z) : M kstate superblock :=
  let* bp := bread dev 1 in
  let* d := getb bp b_data in
  brelse bp ;;;
  ret (sb_decode d).

(** [struct logheader] in a block. *)
Definition hdr_n (d : block) : Z := s32 (get32 d 0).
Definition hdr_block (d : block) (i : Z) : Z := s32 (get32 d (Z.to_nat (4 + 4 * i))).

(** [log.lh.block[i] = b]; the array has [LOGSIZE] entries. *)
Definition set_lh_entry (i b : Z) : M kstate unit :=
  if (0 <=? i) && (i <? LOGSIZE) then setl (fun l => set_lh_block (<[Z.to_nat i := b]> (lh_block l)) l)
  else panic "out of bounds".
Definition lh_entry (i : Z) : M kstate Z :=
  if (0 <=? i) && (i <? LOGSIZE) then getl (fun l => lh_block l !!! Z.to_nat i)
  else panic "out of bounds".

(** ** Copying blocks *)

(** The loops over the logged blocks run at most [LOGSIZE] times. *)
Definition log_fuel : nat := S (Z.to_nat LOGSIZE).

Fixpoint install_trans_loop (n : nat) (tail : Z) : M kstate unit :=
  match n with
  | O => nofuel
  | S n =>
      let* lhn := getl lh_n in
      if negb (tail <? lhn) then ret tt else
      let* dev := getl l_dev in
      let* start := getl l_start in
      let* lbuf := bread (u32 dev) (u32 (start + tail + 1)) in
      let* no := lh_entry tail in
      let* dbuf := bread (u32 dev) (u32 no) in
      let* d := getb lbuf b_data in
      setb dbuf (set_b_data d) ;;;
      bwrite dbuf ;;;
      brelse lbuf ;;;
      brelse dbuf ;;;
      install_trans_loop n (tail + 1)
  end.
Definition install_trans : M kstate unit := install_trans_loop log_fuel 0.

Fixpoint read_head_loop (n : nat) (i : Z) (d : block) : M kstate unit :=
  match n with
  | O => nofuel
  | S n =>
      let* lhn := getl lh_n in
      if negb (i <? lhn) then ret tt else
      set_lh_entry i (hdr_block d i) ;;;
      read_head_loop n (i + 1) d
  end.
Definition read_head : M kstate unit :=
  let* dev := getl l_dev in
  let* start := getl l_start in
  let* buf := bread (u32 dev) (u32 start) in
  let* d := getb buf b_data in
  setl (set_lh_n (hdr_n d)) ;;;
  read_head_loop log_fuel 0 d ;;;
  brelse buf.

Fixpoint write_head_loop (n : nat) (i : Z) (buf : nat) : M kstate unit :=
  match n with
  | O => nofuel
  | S n =>
      let* lhn := getl lh_n in
      if negb (i <? lhn) then ret tt else
      let* b := lh_entry i in
      setb buf (fun x => set_b_data (put32 (Z.to_nat (4 + 4 * i)) b (b_data x)) x) ;;;
      write_head_loop n (i + 1) buf
  end.
Definition write_head : M kstate unit :=
  let* dev := getl l_dev in
  let* start := getl l_start in
  let* buf := bread (u32 dev) (u32 start) in
  let* n := getl lh_n in
  setb buf (fun x => set_b_data (put32 0 n (b_data x)) x) ;;;
  write_head_loop log_fuel 0 buf ;;;
  bwrite buf ;;;
  brelse buf.

Definition recover_from_log : M kstate unit :=
  read_head ;;;
  install_trans ;;;
  setl (set_lh_n 0) ;;;
  write_head.

(** The test of [sizeof(struct logheader)] against [BSIZE] is a constant. *)
Definition initlog (dev : Z) : M kstate unit :=
  if BSIZE <=? 4 + 4 * LOGSIZE then panic "initlog: too big logheader" else
  let* sb := readsb (u32 dev) in
  setl (set_l_start (s32 (sb_logstart sb))) ;;;
  setl (set_l_size (s32 (sb_nlog sb))) ;;;
  setl (set_l_dev dev) ;;;
  recover_from_log.

(** ** Transactions *)

Fixpoint begin_op_loop (n : nat) : M kstate unit :=
  match n with
  | O => nofuel
  | S n =>
      let* c := getl l_committing in
      if negb (c =? 0) then proc_op (sleep ChLog LLog) ;;; begin_op_loop n else
      let* lhn := getl lh_n in
      let* o := getl l_outstanding in
      if LOGSIZE <? lhn + (o + 1) * MAXOPBLOCKS then proc_op (sleep ChLog LLog) ;;; begin_op_loop n else
      setl (fun l => set_l_outstanding (l_outstanding l + 1) l) ;;;
      krelease LLog
  end.
Definition begin_op : M kstate unit :=
  kacquire LLog ;;;
  begin_op_loop (S fuel).

Fixpoint write_log_loop (n : nat) (tail : Z) : M kstate unit :=
  match n with
  | O => nofuel
  | S n =>
      let* lhn := getl lh_n in
      if negb (tail <? lhn) then ret tt else
      let* dev := getl l_dev in
      let* start := getl l_start in
      let* to := bread (u32 dev) (u32 (start + tail + 1)) in
      let* no := lh_entry tail in
      let* from := bread (u32 dev) (u32 no) in
      let* d := getb from b_data in
      setb to (set_b_data d) ;;;
      bwrite to ;;;
      brelse from ;;;
      brelse to ;;;
      write_log_loop n (tail + 1)
  end.
Definition write_log : M kstate unit := write_log_loop log_fuel 0.

Definition commit : M kstate unit :=
  let* n := getl lh_n in
  when (0 <? n) (
    write_log ;;;
    write_head ;;;
    install_trans ;;;
    setl (set_lh_n 0) ;;;
    write_head).

Definition end_op : M kstate unit :=
  kacquire LLog ;;;
  setl (fun l => set_l_outstanding (l_outstanding l - 1) l) ;;;
  let* c := getl l_committing in
  if negb (c =? 0) then panic "log.committing" else
  let* o := getl l_outstanding in
  let do_commit := o =? 0 in
  (if do_commit then setl (set_l_committing 1) else proc_op (wakeup ChLog)) ;;;
  krelease LLog ;;;
  when do_commit (
    commit ;;;
    kacquire LLog ;;;
    setl (set_l_committing 0) ;;;
    proc_op (wakeup ChLog) ;;;
    krelease LLog).

(** Index of the entry for block [b], or the first free one. *)
Fixpoint log_write_loop (n : nat) (i b : Z) : M kstate Z :=
  match n with
  | O => nofuel
  | S n =>
      let* lhn := getl lh_n in
      if negb (i <? lhn) then ret i else
      let* e := lh_entry i in
      if u32 e =? b then ret i else
      log_write_loop n (i + 1) b
  end.

Definition log_write (b : nat) : M kstate unit :=
  let* n := getl lh_n in
  let* size := getl l_size in
  if (LOGSIZE <=? n) || (size - 1 <=? n) then panic "too big a transaction" else
  let* o := getl l_outstanding in
  if o <? 1 then panic "log_write outside of trans" else
  kacquire LLog ;;;
  let* no := getb b b_blockno in
  let* i := log_write_loop log_fuel 0 no in
  set_lh_entry i (s32 no) ;;;
  let* n := getl lh_n in
  when (i =? n) (setl (set_lh_n (n + 1))) ;;;
  setb b (fun x => set_b_flags (Z.lor (b_flags x) B_DIRTY) x) ;;;
  krelease LLog.

End log.
