(* ===== verification/LogInv.v ===== *)
(** * Crash safety of the log

    The disk is described by the writes it has performed.  A commit performs a
    known sequence of writes, and after any prefix of it recovery brings the disk to
    the state before or after the transaction. *)

From S2P Require Import Prelude Bytes Monad Machine ProcDefs ProcInv Proc KernDefs Sleeplock Bio BioInv Log.

(** ** Caches at rest *)

(** No buffer is in use. *)
Record rest (l : list nat) (s : kstate) : Prop := {
  rs_inv : bio_inv l s;
  rs_ref : forall i, (i < nbuf)%nat -> b_refcnt (bufs s !!! i) = 0
}.

(** At least [k] buffers can be recycled. *)
Definition room (k : nat) (s : kstate) : Prop :=
  exists L, NoDup L /\ length L = k /\ forall i, i ∈ L -> (i < nbuf)%nat /\ busy (bufs s !!! i) = false.

(** Every modified buffer belongs to a block of [bs]. *)
Definition pinned (bs : list Z) (s : kstate) : Prop :=
  forall i, (i < nbuf)%nat -> b_flags (bufs s !!! i) = 6 -> exists b, b ∈ bs /\ keyed b (bufs s !!! i) = true.

Lemma room_busy k s : room (S k) s -> exists i, (i < nbuf)%nat /\ busy (bufs s !!! i) = false.
Proof. intros ([|i L] & _ & Hl & HL); [done|]. exists i. apply HL. set_solver. Qed.

Lemma room_less k s i x : room (S k) s -> room k (with_buf i x s).
Proof.
  intros (L & Hn & Hl & HL). destruct (decide (i ∈ L)) as [Hi|Hi].
  - apply list_elem_of_split in Hi as (l1 & l2 & ->). apply NoDup_app in Hn as (N1 & N12 & N2). apply NoDup_cons in N2 as [Ni N2].
    exists (l1 ++ l2). split_and!.
    + apply NoDup_app. set_solver.
    + rewrite length_app in *. cbn in Hl. lia.
    + intros j Hj. rewrite with_buf_ne by set_solver. apply HL. set_solver.
  - destruct L as [|j L]; [done|]. apply NoDup_cons in Hn as [_ Hn]. exists L. split_and!; [done|cbn in Hl; lia|].
    intros q Hq. rewrite with_buf_ne by set_solver. apply HL. set_solver.
Qed.

Lemma filter_split {A} (P : A -> bool) (l : list A) :
  (length (filter (fun x => P x = true) l) + length (filter (fun x => P x = false) l) = length l)%nat.
Proof.
  induction l as [|x l IH]; [done|]. rewrite !filter_cons. destruct (P x); cbn; case_decide; try done; case_decide; try done; cbn; lia.
Qed.

Lemma room_rest l s bs k : rest l s -> pinned bs s -> (length bs + k <= nbuf)%nat -> room k s.
Proof.
  intros [Hi Hr] Hp Hk.
  set (D := filter (fun i => (b_flags (bufs s !!! i) =? 6) = true) (seq 0 nbuf)).
  set (F := filter (fun i => (b_flags (bufs s !!! i) =? 6) = false) (seq 0 nbuf)).
  assert (length D + length F = nbuf)%nat as Hsp.
  { unfold D, F. rewrite (filter_split (fun i => b_flags (bufs s !!! i) =? 6)). apply length_seq. }
  assert (forall i, i ∈ D -> (i < nbuf)%nat /\ b_flags (bufs s !!! i) = 6) as HD.
  { intros i. unfold D. rewrite list_elem_of_filter, elem_of_seq. intros [? ?]. zbool. split; [lia|done]. }
  assert (length D <= length bs)%nat as HDl.
  { rewrite <- (length_fmap (fun i => b_blockno (bufs s !!! i)) D). apply submseteq_length, NoDup_submseteq.
    - apply NoDup_fmap_2_strong; [|apply NoDup_filter, NoDup_seq].
      intros i j Hi' Hj' E. destruct (HD i Hi') as [Hi1 Hi2], (HD j Hj') as [Hj1 Hj2].
      destruct (Hp i Hi1 Hi2) as (b & _ & Hb), (Hp j Hj1 Hj2) as (b' & _ & Hb').
      apply (bi_uniq _ _ Hi i j b); [done|done|done|]. unfold keyed in *. zbool. rewrite (proj2 (Z.eqb_eq _ _)) by done.
      apply Z.eqb_eq. congruence.
    - intros b Hb. apply list_elem_of_fmap in Hb as (i & -> & Hb). destruct (HD i Hb) as [Hi1 Hi2].
      destruct (Hp i Hi1 Hi2) as (b & Hin & Hkey). unfold keyed in Hkey. zbool. by subst. }
  exists (take k F). split_and!.
  - eapply sublist_NoDup; [|apply sublist_take]. apply NoDup_filter, NoDup_seq.
  - rewrite length_take. lia.
  - intros i Hin%elem_of_take. destruct Hin as (j & Hj & _). apply list_elem_of_lookup_2 in Hj.
    unfold F in Hj. apply list_elem_of_filter in Hj as [Hf Hs]. apply elem_of_seq in Hs. split; [lia|].
    unfold busy. rewrite Hr by lia. by rewrite Hf.
Qed.

(** ** Copying one block to another *)

(** The disk after block [b] is written. *)
Definition wrote (b : Z) (d : block) (s s' : kstate) : Prop :=
  disk s' = MkDisk (<[Z.to_nat b := d]> (d_blocks (disk s))) ((b, d) :: d_writes (disk s)).

(** The cache after block [dst] is replaced by [d], in the cache and on the disk:
    no buffer becomes modified. *)
Record replaced (dst : Z) (d : block) (s s' : kstate) : Prop := {
  rp_frame : bframe s s';
  rp_disk : wrote dst d s s';
  rp_blk : forall b, 0 <= b -> blk s' b = if decide (b = dst) then d else blk s b;
  rp_dirty : forall i, (i < nbuf)%nat -> b_flags (bufs s' !!! i) = 6 ->
    b_flags (bufs s !!! i) = 6 /\ keyed dst (bufs s !!! i) = false /\
    forall b, keyed b (bufs s' !!! i) = keyed b (bufs s !!! i)
}.

Lemma replaced_nblocks b d s s' : replaced b d s s' -> nblocks s' = nblocks s.
Proof. intros Hr. unfold nblocks. rewrite (rp_disk _ _ _ _ Hr). cbn. by rewrite length_insert. Qed.

Lemma replaced_pinned bs b d s s' : pinned bs s -> replaced b d s s' -> pinned bs s'.
Proof.
  intros Hp Hr i Hi Hf. destruct (rp_dirty _ _ _ _ Hr i Hi Hf) as (H1 & _ & H2).
  destruct (Hp i Hi H1) as (c & Hc & Hk). exists c. by rewrite H2.
Qed.

(** What is known of a buffer read for block [b] while no one else uses it. *)
Record got (p : nat) (b : Z) (s : kstate) (i : nat) (x : buf) : Prop := {
  gt_key : keyed b x = true;
  gt_flags : b_flags x = 2 \/ b_flags x = 6;
  gt_lock : b_lock x = MkSl 1 (pid_of p s);
  gt_data : b_data x = blk s b;
  gt_ref : b_refcnt x = 1;
  gt_clean : b_flags x = 2 -> b_data x = dblk s b;
  gt_dirty : b_flags x = 6 -> b_flags (bufs s !!! i) = 6 /\ forall b', keyed b' (bufs s !!! i) = keyed b' x
}.

Section copy.
Context `{!Fuel, !BlockDevice, !SyncDevice}.

Lemma bread_got p l s i b x :
  bio_inv l s -> (i < nbuf)%nat -> (forall j, (j < nbuf)%nat -> keyed b (bufs s !!! j) = true -> b_refcnt (bufs s !!! j) = 0) ->
  bread_post p i b s x -> got p b s i x.
Proof.
  intros Hi Hlt Hr Hp. pose proof (bi_buf _ _ Hi i Hlt) as (_ & _ & _ & _ & _ & Hcl). pose proof (bi_len _ _ Hi) as Hlen.
  assert (forall P : Prop, (keyed b (bufs s !!! i) = true -> b_flags (bufs s !!! i) <> 0 -> P) ->
            (blk s b = dblk s b -> P) -> P) as Hcase.
  { intros P H1' H2'. destruct (bp_old _ _ _ _ _ Hp) as [(Ho & _ & Hf)|(_ & _ & _ & Hno)].
    - destruct (decide (b_flags (bufs s !!! i) = 0)) as [E0|Hne]; [|by apply H1'].
      apply H2', blk_uncached. intros j Hj. rewrite Hlen in Hj. unfold cached.
      destruct (keyed b (bufs s !!! j)) eqn:Ek; [|done]. rewrite (bi_uniq _ _ Hi j i b Hj Hlt Ek Ho), E0. done.
    - apply H2', blk_uncached. intros j Hj. unfold cached. rewrite Hno by lia. done. }
  split; try apply Hp.
  - destruct (bp_old _ _ _ _ _ Hp) as [(Ho & -> & _)|(_ & -> & _)]; [rewrite (Hr i Hlt Ho)|]; done.
  - intros E. rewrite (bp_data _ _ _ _ _ Hp). apply Hcase; [|done]. intros Hk Hf.
    destruct (bp_old _ _ _ _ _ Hp) as [(Ho & _ & [[? _]|Ef])|(_ & _ & _ & Hno)]; [done| |by rewrite (Hno i Hlt) in Hk].
    assert (blk s b = b_data (bufs s !!! i)) as ->.
    { apply (blk_cached l); [done|done|]. unfold cached. rewrite Hk. by apply negb_true_iff, Z.eqb_neq. }
    unfold keyed in Hk. zbool. subst b. apply Hcl; [done|apply Hr; [done|by unfold keyed; rewrite H2, !Z.eqb_refl]|congruence].
  - intros E. destruct (bp_old _ _ _ _ _ Hp) as [(Ho & _ & [[_ ?]|Ef])|(_ & _ & ? & _)]; try congruence.
    split; [congruence|]. intros b'. pose proof (bp_key _ _ _ _ _ Hp) as Hkx.
    destruct (keyed b' x) eqn:E1; [by rewrite (keyed_fun _ _ _ E1 Hkx)|].
    apply not_true_iff_false. intros Hc. rewrite (keyed_fun _ _ _ Hc Ho), Hkx in E1. done.
Qed.

Lemma bread1_wp p l s b (R : nat -> kstate -> Prop) :
  kctx p [] s -> bio_inv l s -> 0 <= b < nblocks s -> room 1 s ->
  (forall j, (j < nbuf)%nat -> keyed b (bufs s !!! j) = true -> b_refcnt (bufs s !!! j) = 0) ->
  (forall i x, (i < nbuf)%nat -> got p b s i x -> busy (bufs s !!! i) = false \/ keyed b (bufs s !!! i) = true ->
     bio_inv l (with_buf i x s) -> same_blks s (with_buf i x s) -> R i (with_buf i x s)) ->
  wp (bread ROOTDEV b) R s.
Proof.
  intros Hk Hi Hb Hroom Hr HR. eapply bread_wp; [done|done|done| |].
  - split; [|by eapply room_busy]. intros i Hlt Hkey. pose proof (Hr i Hlt Hkey) as E.
    split; [|lia]. by apply (bi_buf _ _ Hi i Hlt).
  - intros i x Hlt Hp Hi' Hs. apply HR; [done|by eapply bread_got| |done|done].
    destruct (bp_old _ _ _ _ _ Hp) as [(Ho & _)|(Ho & _)]; auto.
Qed.

(** Filling a held buffer with new content. *)
Lemma set_data_ok l s i b d :
  bio_inv l s -> (i < nbuf)%nat -> keyed b (bufs s !!! i) = true -> b_flags (bufs s !!! i) <> 0 ->
  1 <= b_refcnt (bufs s !!! i) -> length d = bsize ->
  let s' := with_buf i (set_b_data d (bufs s !!! i)) s in
  bio_inv l s' /\ forall b', blk s' b' = if decide (b' = b) then d else blk s b'.
Proof.
  intros Hi Hlt Hkey Hf Hr Hd s'. pose proof (bi_buf _ _ Hi i Hlt) as (Hfl & _ & Hrf & Hu & Hno & _). pose proof (bi_len _ _ Hi) as Hlen.
  assert (bio_inv l s') as Hi'.
  { apply bio_inv_with; [done|done| |].
    - split; [done|]. split; [done|]. split; [done|]. split; [done|]. split; [done|]. cbn. lia.
    - intros b' j Hj Hne Hb. apply not_true_iff_false. intros Hc. apply Hne. by apply (bi_uniq _ _ Hi j i b'). }
  split; [done|]. intros b'. case_decide as E.
  - subst b'. rewrite (blk_cached l s' i b Hi' Hlt); unfold s'; rewrite with_buf_eq by lia; [done|].
    unfold cached. change (keyed b (set_b_data d (bufs s !!! i))) with (keyed b (bufs s !!! i)). rewrite Hkey.
    by apply negb_true_iff, Z.eqb_neq.
  - apply (blk_ext l l); [done|done|done|]. intros j Hj. unfold s'. destruct (decide (j = i)) as [->|Hji]; [|by rewrite with_buf_ne].
    rewrite with_buf_eq by lia. split; [done|]. intros Hc. exfalso. unfold cached in Hc. apply andb_true_iff in Hc as [Hc _].
    apply E. by eapply keyed_fun.
Qed.

(** Two blocks held, [a] in buffer [i] and [b] in buffer [j], since state [s]. *)
Record hold2 (p : nat) (l : list nat) (a b : Z) (i j : nat) (s s2 : kstate) : Prop := {
  h2_lt : (i < nbuf)%nat /\ (j < nbuf)%nat /\ i <> j;
  h2_inv : bio_inv l s2;
  h2_frame : bframe s s2;
  h2_blks : same_blks s s2;
  h2_i : got p a s i (bufs s2 !!! i);
  h2_j : got p b s j (bufs s2 !!! j);
  h2_oth : forall q, q <> i -> q <> j -> bufs s2 !!! q = bufs s !!! q
}.

Lemma hold2_sym p l a b i j s s2 : hold2 p l a b i j s s2 -> hold2 p l b a j i s s2.
Proof. intros [(H2&H3&H4) ? ? ? ? ? ?]. split; auto. Qed.

(** The second read, after the first. *)
Lemma bread2_wp p l s a b i x (R : nat -> kstate -> Prop) :
  kctx p [] s -> rest l s -> (i < nbuf)%nat -> got p a s i x -> bio_inv l (with_buf i x s) -> same_blks s (with_buf i x s) ->
  0 <= b < nblocks s -> room 2 s -> a <> b ->
  (forall j s2, hold2 p l a b i j s s2 -> R j s2) ->
  wp (bread ROOTDEV b) R (with_buf i x s).
Proof.
  intros Hk [Hi Hr] Hlt Hg Hi1 Hs1 Hb Hroom Hab HR. pose proof (bi_len _ _ Hi) as Hlen.
  eapply (bread1_wp p l); [by eapply kctx_same|done|done|by apply room_less| |].
  - intros j Hj Hkey. destruct (decide (j = i)) as [->|Hne].
    + rewrite with_buf_eq in Hkey by lia. destruct Hab. apply (keyed_fun a b x); [apply Hg|done].
    + rewrite with_buf_ne by done. by apply Hr.
  - intros j y Hj Hgy Hnew Hi2 Hs2. assert (i <> j) as Hij.
    { intros <-. rewrite with_buf_eq in Hnew by lia. destruct Hnew as [Hbz|Hky].
      - unfold busy in Hbz. rewrite (gt_ref _ _ _ _ _ Hg) in Hbz. done.
      - destruct Hab. apply (keyed_fun a b x); [apply Hg|done]. }
    apply HR. split; [done|done|by split| | | |].
    + split; [done|]. intros b'. rewrite (proj2 Hs2). apply Hs1.
    + rewrite with_buf_ne, with_buf_eq by (done || lia). done.
    + rewrite with_buf_eq by (rewrite length_with_buf; lia). destruct Hgy as [G1 G2 G3 G4 G5 G6 G7].
      split; try done; [by rewrite G4, (proj2 Hs1)|]. intros E. rewrite with_buf_ne in G7 by done. by apply G7.
    + intros q Hqi Hqj. by rewrite !with_buf_ne.
Qed.

(** Copies block [a] over block [b] and lets both go. *)
Lemma copy_wp {A} p l s s2 a b i j (k : M kstate A) (R : A -> kstate -> Prop) :
  kctx p [] s -> rest l s -> hold2 p l a b i j s s2 -> 0 <= a < nblocks s -> 0 <= b < nblocks s -> a <> b ->
  (forall l' s', kctx p [] s' -> rest l' s' -> replaced b (blk s a) s s' -> wp k R s') ->
  wp (let* d := getb i b_data in setb j (set_b_data d) ;;; bwrite j ;;; brelse i ;;; brelse j ;;; k) R s2.
Proof.
  intros Hk Hrest [(Hi & Hj & Hij) Hinv Hfr Hsb Gi Gj Hoth] Ha Hb Hab HR. pose proof (bi_len _ _ Hinv) as Hlen.
  pose proof (bi_buf _ _ Hinv i Hi) as (_ & Hdi & _). assert (kctx p [] s2) as Hk2 by by eapply bframe_kctx.
  wp_step. apply getb_wp. wp_step. apply setb_wp. rewrite (gt_data _ _ _ _ _ Gi) in *. set (d := blk s a) in *.
  assert (b_flags (bufs s2 !!! j) <> 0) as Hfj by (destruct (gt_flags _ _ _ _ _ Gj) as [-> | ->]; done).
  destruct (set_data_ok l s2 j b d Hinv Hj (gt_key _ _ _ _ _ Gj) Hfj) as [Hinv3 Hblk3]; [rewrite (gt_ref _ _ _ _ _ Gj); lia|done|].
  set (s3 := with_buf j (set_b_data d (bufs s2 !!! j)) s2) in *.
  assert (bufs s3 !!! j = set_b_data d (bufs s2 !!! j)) as Ej3 by (apply with_buf_eq; lia).
  assert (kctx p [] s3) as Hk3 by by eapply kctx_same.
  assert (pid_of p s2 = pid_of p s) as Epid by by apply bframe_pid.
  wp_step. eapply (bwrite_wp p l s3 j b); [exact Hk3|done|done|unfold holds_buf; rewrite Ej3; cbn; rewrite (gt_lock _ _ _ _ _ Gj); by rewrite <- Epid|by rewrite Ej3; apply Gj|by rewrite Ej3|].
  rewrite Ej3. cbn [b_data set_b_data]. cbv zeta. intros Hinv4 Hblk4.
  set (s4 := disk_write b d (with_buf j (set_b_flags 2 (set_b_data d (bufs s2 !!! j))) s3)) in *.
  assert (bufs s4 !!! i = bufs s2 !!! i) as Ei4 by (unfold s4, s3; cbn [bufs disk_write put_disk]; by rewrite !with_buf_ne by done).
  assert (bufs s4 !!! j = set_b_flags 2 (set_b_data d (bufs s2 !!! j))) as Ej4
    by (unfold s4, s3; cbn [bufs disk_write put_disk]; by rewrite with_buf_eq by (rewrite length_with_buf; lia)).
  assert (forall b', 0 <= b' -> dblk s4 b' = if decide (b' = b) then d else dblk s b') as Hdb4.
  { intros b' Hb'. unfold s4. rewrite disk_write_dblk; [|unfold nblocks; cbn; rewrite (proj1 Hsb); exact Hb|done].
    case_decide; [done|]. unfold dblk. cbn. by rewrite (proj1 Hsb). }
  assert (bframe s s4) as Hf4 by (transitivity s2; [done|by split]).
  assert (kctx p [] s4) as Hk4 by by eapply bframe_kctx.
  wp_step. eapply (brelse_wp p l s4 i); [done|done|done|unfold holds_buf; rewrite Ei4, (bframe_pid p _ _ Hf4); apply Gi|rewrite Ei4, (gt_ref _ _ _ _ _ Gi); lia| |].
  { intros _ _. rewrite Ei4. intros E2. pose proof (gt_key _ _ _ _ _ Gi) as Hki. unfold keyed in Hki. zbool.
    rewrite (gt_clean _ _ _ _ _ Gi E2). rewrite <- H3 at 1. rewrite Hdb4 by lia. rewrite decide_False by lia. done. }
  intros l5 s5 Hinv5 Hf5 Hs5 Eb5 _.
  assert (bufs s5 !!! j = bufs s4 !!! j) as Ej5 by (rewrite Eb5; by apply list_lookup_total_insert_ne).
  wp_step. eapply (brelse_wp p l5 s5 j); [by eapply bframe_kctx|done|done|unfold holds_buf; rewrite Ej5, Ej4, (bframe_pid p _ _ Hf5), (bframe_pid p _ _ Hf4); apply Gj|rewrite Ej5, Ej4; cbn; rewrite (gt_ref _ _ _ _ _ Gj); lia| |].
  { intros _ _ _. rewrite Ej5, Ej4. cbn. pose proof (gt_key _ _ _ _ _ Gj) as Hkj. unfold keyed in Hkj. zbool. rewrite H3.
    unfold dblk. rewrite (proj1 Hs5). change (d = dblk s4 b). rewrite Hdb4 by lia. by rewrite decide_True. }
  intros l6 s6 Hinv6 Hf6 Hs6 Eb6 _.
  assert (bframe s s6) as Hfs by (transitivity s5; [transitivity s4|]; done).
  assert (length (bufs s4) = nbuf /\ length (bufs s5) = nbuf) as [L4 L5] by (split; [apply Hinv4|apply Hinv5]).
  assert (forall q, (q < nbuf)%nat -> bufs s6 !!! q = if decide (q = i) then released (bufs s2 !!! i) else
            if decide (q = j) then released (set_b_flags 2 (set_b_data d (bufs s2 !!! j))) else bufs s !!! q) as Hq.
  { intros q Hq. rewrite Eb6. destruct (decide (q = j)) as [->|Hqj].
    - rewrite list_lookup_total_insert_eq by lia. rewrite decide_False by done. by rewrite Ej5, Ej4.
    - rewrite list_lookup_total_insert_ne, Eb5 by done. destruct (decide (q = i)) as [->|Hqi].
      + rewrite list_lookup_total_insert_eq by lia. by rewrite Ei4.
      + rewrite list_lookup_total_insert_ne by done. unfold s4, s3. cbn [bufs disk_write put_disk]. rewrite !with_buf_ne by done.
        by apply Hoth. }
  apply (HR l6); [exact (bframe_kctx _ _ _ _ Hk Hfs)| |].
  - split; [done|]. intros q Hlt. rewrite Hq by done. destruct (decide (q = i)) as [->|]; [cbn; rewrite (gt_ref _ _ _ _ _ Gi); lia|].
    destruct (decide (q = j)) as [->|]; [cbn; rewrite (gt_ref _ _ _ _ _ Gj); lia|]. by apply Hrest.
  - split; [done| | |].
    + unfold wrote. rewrite (proj1 Hs6), (proj1 Hs5). cbn. by rewrite (proj1 Hsb).
    + intros b' Hb'. rewrite (proj2 Hs6), (proj2 Hs5), Hblk4, Hblk3, (proj2 Hsb) by done. done.
    + intros q Hlt. rewrite Hq by done. destruct (decide (q = i)) as [->|Hqi].
      { cbn. intros E6. destruct (gt_dirty _ _ _ _ _ Gi E6) as [H3' H4']. split; [done|].
        split; [|intros b'; symmetry; apply H4'].
        rewrite H4'. apply not_true_iff_false. intros Hc. apply Hab. apply (keyed_fun a b (bufs s2 !!! i)); [apply Gi|done]. }
      destruct (decide (q = j)) as [->|Hqj]; [done|]. intros E6. split; [done|]. split; [|done].
      apply not_true_iff_false. intros Hc. destruct (gt_flags _ _ _ _ _ Gj) as [E2|E2].
      * apply Hqj. apply (bi_uniq _ _ Hinv q j b); [done|done|by rewrite Hoth|apply Gj].
      * apply Hqj. apply (bi_uniq _ _ Hinv q j b); [done|done|by rewrite Hoth|apply Gj].
Qed.

End copy.

(** ** Sequences of writes *)

(** The array after the writes [ws], in order. *)
Definition wfun (ws : list (Z * block)) (V : Z -> block) : Z -> block :=
  fold_left (fun V w b => if decide (b = w.1) then w.2 else V b) ws V.

Definition apply_writes (ws : list (Z * block)) (D : list block) : list block :=
  fold_left (fun D w => <[Z.to_nat w.1 := w.2]> D) ws D.

Lemma wfun_app ws ws' V : wfun (ws ++ ws') V = wfun ws' (wfun ws V).
Proof. apply fold_left_app. Qed.

Lemma wfun_ext ws V V' b : V b = V' b -> wfun ws V b = wfun ws V' b.
Proof.
  revert V V'. induction ws as [|w ws IH]; intros V V' E; [done|]. cbn. apply IH. by case_decide.
Qed.

Lemma wfun_other ws V b : b ∉ ws.*1 -> wfun ws V b = V b.
Proof.
  revert V. induction ws as [|w ws IH]; intros V Hb; [done|]. cbn in *. rewrite IH by set_solver.
  rewrite decide_False by set_solver. done.
Qed.

Lemma wfun_written ws V V' b : b ∈ ws.*1 -> wfun ws V b = wfun ws V' b.
Proof.
  revert V V'. induction ws as [|w ws IH]; intros V V' Hb; [set_solver|]. cbn in *.
  destruct (decide (b ∈ ws.*1)) as [Hin|Hn]; [by apply IH|]. apply wfun_ext. rewrite decide_True by set_solver.
  by rewrite decide_True by set_solver.
Qed.

(** Writing again what was already written in part changes nothing. *)
Lemma wfun_again ws k V b : wfun ws (wfun (take k ws) V) b = wfun ws V b.
Proof.
  destruct (decide (b ∈ ws.*1)) as [Hin|Hn]; [by apply wfun_written|].
  rewrite (wfun_other ws), (wfun_other ws), (wfun_other (take k ws)); [done| |done|done]. intros Hin. apply Hn.
  apply list_elem_of_fmap in Hin as (w & -> & Hw). apply list_elem_of_fmap. exists w. split; [done|].
  apply elem_of_take in Hw as (j & Hj & _). by eapply list_elem_of_lookup_2.
Qed.

(** The state after the writes [ws] to the cache and the disk. *)
Record moved (ws : list (Z * block)) (s s' : kstate) : Prop := {
  mv_frame : bframe s s';
  mv_disk : disk s' = MkDisk (apply_writes ws (d_blocks (disk s))) (rev ws ++ d_writes (disk s));
  mv_blk : forall b, 0 <= b -> blk s' b = wfun ws (blk s) b;
  mv_dblk : forall b, 0 <= b < nblocks s -> dblk s' b = wfun ws (dblk s) b;
  mv_dirty : forall i, (i < nbuf)%nat -> b_flags (bufs s' !!! i) = 6 ->
    b_flags (bufs s !!! i) = 6 /\ (forall w, w ∈ ws -> keyed w.1 (bufs s !!! i) = false) /\
    forall b, keyed b (bufs s' !!! i) = keyed b (bufs s !!! i)
}.

Lemma moved_nil s : moved [] s s.
Proof.
  split; [done|by destruct (disk s)|done|done|]. intros i Hi Hf. split; [done|]. split; [|done].
  intros w Hw. by apply elem_of_nil in Hw.
Qed.

Lemma apply_writes_length ws D : length (apply_writes ws D) = length D.
Proof. revert D. induction ws as [|w ws IH]; intros D; [done|]. cbn. rewrite IH. apply length_insert. Qed.

Lemma moved_nblocks ws s s' : moved ws s s' -> nblocks s' = nblocks s.
Proof. intros Hm. unfold nblocks. rewrite (mv_disk _ _ _ Hm). cbn. by rewrite apply_writes_length. Qed.

Lemma moved_cons b d ws s s1 s' :
  0 <= b < nblocks s -> replaced b d s s1 -> moved ws s1 s' -> moved ((b, d) :: ws) s s'.
Proof.
  intros Hb Hr Hm. pose proof (replaced_nblocks _ _ _ _ Hr) as Hn. split.
  - transitivity s1; [apply Hr|apply Hm].
  - rewrite (mv_disk _ _ _ Hm), (rp_disk _ _ _ _ Hr). cbn. f_equal. by rewrite <- app_assoc.
  - intros c Hc. rewrite (mv_blk _ _ _ Hm) by done. cbn. apply wfun_ext. rewrite (rp_blk _ _ _ _ Hr) by done. done.
  - intros c Hc. rewrite (mv_dblk _ _ _ Hm) by lia. cbn. apply wfun_ext. unfold dblk. rewrite (rp_disk _ _ _ _ Hr). cbn.
    unfold nblocks in *. case_decide as E; [subst; by rewrite list_lookup_total_insert_eq by lia|].
    by rewrite list_lookup_total_insert_ne by lia.
  - intros i Hi Hf. destruct (mv_dirty _ _ _ Hm i Hi Hf) as (H1 & H2 & H3).
    destruct (rp_dirty _ _ _ _ Hr i Hi H1) as (H4 & H5 & H6). split; [done|]. split.
    + intros w [->|Hw]%elem_of_cons; [done|]. rewrite <- H6. by apply H2.
    + intros c. by rewrite H3.
Qed.

Lemma moved_app ws ws' s s1 s' : moved ws s s1 -> moved ws' s1 s' -> moved (ws ++ ws') s s'.
Proof.
  intros Hm Hm'. pose proof (moved_nblocks _ _ _ Hm) as Hn. split.
  - transitivity s1; [apply Hm|apply Hm'].
  - rewrite (mv_disk _ _ _ Hm'), (mv_disk _ _ _ Hm). cbn. unfold apply_writes. by rewrite fold_left_app, rev_app_distr, app_assoc.
  - intros c Hc. rewrite (mv_blk _ _ _ Hm') by done. rewrite wfun_app. apply wfun_ext. by apply Hm.
  - intros c Hc. rewrite (mv_dblk _ _ _ Hm') by lia. rewrite wfun_app. apply wfun_ext. by apply Hm.
  - intros i Hi Hf. destruct (mv_dirty _ _ _ Hm' i Hi Hf) as (H1 & H2 & H3).
    destruct (mv_dirty _ _ _ Hm i Hi H1) as (H4 & H5 & H6). split; [done|]. split.
    + intros w [Hw|Hw]%elem_of_app; [by apply H5|]. rewrite <- H6. by apply H2.
    + intros c. by rewrite H3.
Qed.

Lemma moved_pinned bs ws s s' : pinned bs s -> moved ws s s' -> pinned bs s'.
Proof.
  intros Hp Hm i Hi Hf. destruct (mv_dirty _ _ _ Hm i Hi Hf) as (H1 & _ & H2).
  destruct (Hp i Hi H1) as (c & Hc & Hk). exists c. by rewrite H2.
Qed.

(** Changing the log's own state does not matter to the cache. *)
Lemma rest_klog l s x : rest l (put_klog x s) <-> rest l s.
Proof. split; intros [[? ? ? ? ?] ?]; (split; [by split|done]). Qed.

(** ** The loops of commit and recovery *)

(** Blocks outside the log. *)
Definition data_block (start n b : Z) : Prop := 0 <= b < n /\ ~ start <= b <= start + LOGSIZE.

(** The log starts at block [start] and names the blocks [bs]. *)
Record log_of (start : Z) (bs : list Z) (s : kstate) : Prop := {
  lo_dev : l_dev (klog s) = ROOTDEV;
  lo_start : l_start (klog s) = start;
  lo_range : 0 <= start /\ start + LOGSIZE < nblocks s /\ nblocks s < 2 ^ 31;
  lo_n : lh_n (klog s) = Z.of_nat (length bs);
  lo_len : (length bs + 2 <= nbuf)%nat;
  lo_ent : forall k b, bs !! k = Some b -> lh_block (klog s) !!! k = b;
  lo_data : forall b, b ∈ bs -> data_block start (nblocks s) b
}.

Fixpoint log_writes (start : Z) (k : nat) (V : Z -> block) (bs : list Z) : list (Z * block) :=
  match bs with
  | [] => []
  | b :: bs => (start + 1 + Z.of_nat k, V b) :: log_writes start (S k) V bs
  end.
Fixpoint install_writes (start : Z) (k : nat) (V : Z -> block) (bs : list Z) : list (Z * block) :=
  match bs with
  | [] => []
  | b :: bs => (b, V (start + 1 + Z.of_nat k)) :: install_writes start (S k) V bs
  end.

Lemma log_writes_ext start k V V' bs : (forall b, b ∈ bs -> V b = V' b) -> log_writes start k V bs = log_writes start k V' bs.
Proof. revert k. induction bs as [|b bs IH]; intros k H; [done|]. cbn. rewrite H by set_solver. f_equal. apply IH. set_solver. Qed.

Lemma install_writes_ext start k V V' bs :
  (forall j, (k <= j < k + length bs)%nat -> V (start + 1 + Z.of_nat j) = V' (start + 1 + Z.of_nat j)) ->
  install_writes start k V bs = install_writes start k V' bs.
Proof.
  revert k. induction bs as [|b bs IH]; intros k H; [done|]. cbn in *. rewrite H by lia. f_equal. apply IH. intros j Hj. apply H. lia.
Qed.

Lemma log_of_bframe start bs s s' : log_of start bs s -> bframe s s' -> nblocks s' = nblocks s -> log_of start bs s'.
Proof. intros [H1 H2 H3 H4 H5 H6 H7] Hf En. split; rewrite ?(bf_log _ _ Hf), ?En; done. Qed.

Section loops.
Context {FU : Fuel} {BD : BlockDevice} {SD : SyncDevice} (start : Z) (bs : list Z) (p : nat).

(** What the loops keep. *)
Record log_ctx (l : list nat) (s : kstate) : Prop := {
  lc_k : kctx p [] s;
  lc_rest : rest l s;
  lc_pin : pinned bs s;
  lc_log : log_of start bs s
}.

Lemma log_ctx_replaced l l' b d s s' :
  log_ctx l s -> kctx p [] s' -> rest l' s' -> replaced b d s s' -> log_ctx l' s'.
Proof.
  intros [H1 H2 H3 H4] Hk Hr Hp. split; [done|done|by eapply replaced_pinned|].
  eapply log_of_bframe; [done|apply Hp|by eapply replaced_nblocks].
Qed.

Lemma log_ctx_room l s k : log_ctx l s -> (k <= 2)%nat -> room k s.
Proof. intros [_ Hr Hp Hl] Hk. eapply room_rest; [done|done|]. pose proof (lo_len _ _ _ Hl). lia. Qed.

Lemma nbuf_logsize : Z.of_nat nbuf = LOGSIZE.
Proof. done. Qed.

Lemma lh_entry_wp k b s (R : Z -> kstate -> Prop) :
  log_of start bs s -> bs !! k = Some b -> R b s -> wp (lh_entry (Z.of_nat k)) R s.
Proof.
  intros Hl Hk HR. apply lookup_lt_Some in Hk as Hlt. pose proof (lo_len _ _ _ Hl). pose proof nbuf_logsize. unfold lh_entry.
  rewrite (proj2 (Z.leb_le _ _)), (proj2 (Z.ltb_lt _ _)) by lia. cbn [andb]. apply wp_gets.
  by rewrite Nat2Z.id, (lo_ent _ _ _ Hl k b Hk).
Qed.

Lemma write_log_loop_wp n k l s (R : unit -> kstate -> Prop) :
  log_ctx l s -> (k <= length bs)%nat -> (length bs - k < n)%nat ->
  (forall l' s', log_ctx l' s' -> moved (log_writes start k (blk s) (drop k bs)) s s' -> R tt s') ->
  wp (write_log_loop n (Z.of_nat k)) R s.
Proof.
  revert k l s. induction n as [|n IH]; intros k l s Hc Hk Hn HR; [lia|]. cbn [write_log_loop].
  pose proof Hc as [Hkc Hrest Hpin Hlog]. pose proof Hlog as [Hd Hs Hg Hln Hlen Hent Hdat]. pose proof nbuf_logsize as Hnb.
  unfold getl. wp_step. wp_step. rewrite Hln.
  destruct (decide (k = length bs)) as [->|Hne].
  { rewrite (proj2 (Z.ltb_ge _ _)) by lia. cbn [negb]. apply wp_ret. rewrite drop_all in HR. apply (HR l); [done|apply moved_nil]. }
  rewrite (proj2 (Z.ltb_lt _ _)) by lia. cbn [negb]. do 4 wp_step. rewrite Hd, Hs.
  destruct (lookup_lt_is_Some_2 bs k ltac:(lia)) as [b Hb]. pose proof (list_elem_of_lookup_2 _ _ _ Hb) as Hbin.
  destruct (Hdat b Hbin) as [Hbr Hbo]. set (a := start + Z.of_nat k + 1).
  change (u32 ROOTDEV) with ROOTDEV. rewrite !(u32_small a) by lia.
  wp_step. eapply (bread1_wp p l s a); [done|apply Hrest|lia|by eapply log_ctx_room; [|lia]|intros; by apply Hrest|].
  intros i x Hi Hg1 _ Hi1 Hs1. wp_step. eapply lh_entry_wp; [eapply log_of_bframe; [done|apply bframe_with_buf|done]|done|].
  rewrite (u32_small b) by lia. wp_step.
  eapply (bread2_wp p l s a b); [done|done|done|done|done|done|lia|by eapply log_ctx_room; [|lia]|lia|].
  intros j s2 H2. eapply (copy_wp p l s s2 b a); [done|done|by apply hold2_sym|lia|lia|lia|].
  intros l' s' Hk' Hr' Hp'. rewrite (drop_S _ _ _ Hb) in HR. cbn [log_writes] in HR.
  replace (Z.of_nat k + 1) with (Z.of_nat (S k)) by lia.
  eapply IH; [exact (log_ctx_replaced _ _ _ _ _ _ Hc Hk' Hr' Hp')|lia|lia|]. intros l3 s3 Hc3 Hm3. apply (HR l3); [done|].
  replace (start + 1 + Z.of_nat k) with a by lia. eapply moved_cons; [lia|exact Hp'|].
  rewrite (log_writes_ext _ _ (blk s) (blk s')); [done|]. intros c Hcin. rewrite (rp_blk _ _ _ _ Hp').
  - rewrite decide_False; [done|]. intros ->. destruct (Hdat a (subseteq_drop _ _ _ Hcin)). lia.
  - destruct (Hdat c (subseteq_drop _ _ _ Hcin)). lia.
Qed.

Lemma install_trans_loop_wp n k l s (R : unit -> kstate -> Prop) :
  log_ctx l s -> (k <= length bs)%nat -> (length bs - k < n)%nat ->
  (forall l' s', log_ctx l' s' -> moved (install_writes start k (blk s) (drop k bs)) s s' -> R tt s') ->
  wp (install_trans_loop n (Z.of_nat k)) R s.
Proof.
  revert k l s. induction n as [|n IH]; intros k l s Hc Hk Hn HR; [lia|]. cbn [install_trans_loop].
  pose proof Hc as [Hkc Hrest Hpin Hlog]. pose proof Hlog as [Hd Hs Hg Hln Hlen Hent Hdat]. pose proof nbuf_logsize as Hnb.
  unfold getl. wp_step. wp_step. rewrite Hln.
  destruct (decide (k = length bs)) as [->|Hne].
  { rewrite (proj2 (Z.ltb_ge _ _)) by lia. cbn [negb]. apply wp_ret. rewrite drop_all in HR. apply (HR l); [done|apply moved_nil]. }
  rewrite (proj2 (Z.ltb_lt _ _)) by lia. cbn [negb]. do 4 wp_step. rewrite Hd, Hs.
  destruct (lookup_lt_is_Some_2 bs k ltac:(lia)) as [b Hb]. pose proof (list_elem_of_lookup_2 _ _ _ Hb) as Hbin.
  destruct (Hdat b Hbin) as [Hbr Hbo]. set (a := start + Z.of_nat k + 1).
  change (u32 ROOTDEV) with ROOTDEV. rewrite !(u32_small a) by lia.
  wp_step. eapply (bread1_wp p l s a); [done|apply Hrest|lia|by eapply log_ctx_room; [|lia]|intros; by apply Hrest|].
  intros i x Hi Hg1 _ Hi1 Hs1. wp_step. eapply lh_entry_wp; [eapply log_of_bframe; [done|apply bframe_with_buf|done]|done|].
  rewrite (u32_small b) by lia. wp_step.
  eapply (bread2_wp p l s a b); [done|done|done|done|done|done|lia|by eapply log_ctx_room; [|lia]|lia|].
  intros j s2 H2. eapply (copy_wp p l s s2 a b); [done|done|done|lia|lia|lia|].
  intros l' s' Hk' Hr' Hp'. rewrite (drop_S _ _ _ Hb) in HR. cbn [install_writes] in HR.
  replace (Z.of_nat k + 1) with (Z.of_nat (S k)) by lia.
  eapply IH; [exact (log_ctx_replaced _ _ _ _ _ _ Hc Hk' Hr' Hp')|lia|lia|]. intros l3 s3 Hc3 Hm3. apply (HR l3); [done|].
  replace (start + 1 + Z.of_nat k) with a by lia. eapply moved_cons; [lia|exact Hp'|].
  rewrite (install_writes_ext _ _ (blk s) (blk s')); [done|]. intros m Hm. rewrite length_drop in Hm.
  rewrite (rp_blk _ _ _ _ Hp') by lia. rewrite decide_False by lia. done.
Qed.

End loops.

(** ** The header block *)

(** Stores the block numbers from entry [k] on. *)
Fixpoint hdr_fill (k : nat) (bs : list Z) (d : block) : block :=
  match bs with
  | [] => d
  | b :: bs => hdr_fill (S k) bs (put32 (Z.to_nat (4 + 4 * Z.of_nat k)) b d)
  end.
Definition hdr_encode (bs : list Z) (d : block) : block := hdr_fill 0 bs (put32 0 (Z.of_nat (length bs)) d).

(** The block numbers of a header. *)
Definition hdr_blocks (d : block) : list Z := map (fun k => hdr_block d (Z.of_nat k)) (seq 0 (Z.to_nat (hdr_n d))).

Lemma length_hdr_fill k bs d : length (hdr_fill k bs d) = length d.
Proof. revert k d. induction bs as [|b bs IH]; intros k d; [done|]. cbn. by rewrite IH, length_put32. Qed.

Lemma length_hdr_encode bs d : length (hdr_encode bs d) = length d.
Proof. unfold hdr_encode. by rewrite length_hdr_fill, length_put32. Qed.

(** Entries do not overlap: the fields outside those written keep their value. *)
Lemma get32_hdr_fill k bs d o :
  (4 + 4 * (k + length bs) <= length d)%nat -> (o + 4 <= 4 + 4 * k \/ 4 + 4 * (k + length bs) <= o)%nat ->
  get32 (hdr_fill k bs d) o = get32 d o.
Proof.
  revert k d. induction bs as [|b bs IH]; intros k d Hl Ho; [done|]. cbn [hdr_fill length] in *.
  rewrite IH by (rewrite ?length_put32; lia). apply get32_put32_ne; lia.
Qed.

Lemma hdr_fill_entry k bs d j b :
  (4 + 4 * (k + length bs) <= length d)%nat -> bs !! j = Some b ->
  get32 (hdr_fill k bs d) (4 + 4 * (k + j)) = u32 b.
Proof.
  revert k d j. induction bs as [|c bs IH]; intros k d j Hl Hj; [done|]. cbn [hdr_fill length] in *.
  destruct j as [|j]; cbn in Hj.
  - injection Hj as ->. rewrite get32_hdr_fill by (rewrite ?length_put32; lia).
    replace (Z.to_nat (4 + 4 * Z.of_nat k)) with (4 + 4 * (k + 0))%nat by lia. apply get32_put32. lia.
  - replace (4 + 4 * (k + S j))%nat with (4 + 4 * (S k + j))%nat by lia. apply IH; [rewrite length_put32; lia|done].
Qed.

Lemma s32_u32 z : s32 (u32 z) = s32 z.
Proof. unfold s32, u32. by rewrite Z.mod_mod by lia. Qed.

(** A header reads back as it was written. *)
Lemma hdr_roundtrip bs d :
  length d = bsize -> (length bs <= nbuf)%nat -> Forall (fun b => 0 <= b < 2 ^ 31) bs ->
  hdr_n (hdr_encode bs d) = Z.of_nat (length bs) /\ hdr_blocks (hdr_encode bs d) = bs.
Proof.
  intros Hd Hl Hb. assert (bsize = 512%nat /\ nbuf = 30%nat) as [Ebs Enb] by done.
  assert (hdr_n (hdr_encode bs d) = Z.of_nat (length bs)) as Hn.
  { unfold hdr_n, hdr_encode. rewrite get32_hdr_fill by (rewrite ?length_put32; lia).
    rewrite get32_put32, s32_u32, s32_small by lia. done. }
  split; [done|]. unfold hdr_blocks. rewrite Hn, Nat2Z.id. apply list_eq. intros j.
  destruct (decide (j < length bs)%nat) as [Hj|Hj].
  - destruct (lookup_lt_is_Some_2 bs j Hj) as [b Eb]. rewrite list_lookup_fmap, lookup_seq_lt by done. cbn. rewrite Eb. f_equal.
    unfold hdr_block, hdr_encode. replace (Z.to_nat (4 + 4 * Z.of_nat j)) with (4 + 4 * (0 + j))%nat by lia.
    rewrite (hdr_fill_entry 0 bs _ j b) by (rewrite ?length_put32; (done || lia)).
    eapply Forall_lookup_1 in Hb; [|done]. rewrite s32_u32, s32_small by lia. done.
  - rewrite !lookup_ge_None_2; [done|lia|]. rewrite length_map, length_seq. lia.
Qed.

Section head.
Context {FU : Fuel} {BD : BlockDevice} {SD : SyncDevice} (start : Z) (bs : list Z) (p : nat).

(** Writes a held block and lets it go. *)
Lemma put_block_wp {A} l s i x b d (k : M kstate A) (R : A -> kstate -> Prop) :
  kctx p [] s -> rest l s -> (i < nbuf)%nat -> got p b s i x -> bio_inv l (with_buf i x s) -> same_blks s (with_buf i x s) ->
  0 <= b < nblocks s -> length d = bsize ->
  (forall l' s', kctx p [] s' -> rest l' s' -> replaced b d s s' -> wp k R s') ->
  wp (bwrite i ;;; brelse i ;;; k) R (with_buf i (set_b_data d x) s).
Proof.
  intros Hk [Hi Hr] Hlt Hg Hi1 Hs1 Hb Hd HR. pose proof (bi_len _ _ Hi) as Hlen. set (s1 := with_buf i x s) in *.
  assert (bufs s1 !!! i = x) as Ex by (apply with_buf_eq; lia).
  assert (b_flags x <> 0) as Hf by (destruct (gt_flags _ _ _ _ _ Hg) as [-> | ->]; done).
  destruct (set_data_ok l s1 i b d) as [Hi2 Hb2]; rewrite ?Ex; try done; [apply Hg|rewrite (gt_ref _ _ _ _ _ Hg); lia|].
  rewrite Ex in Hi2, Hb2. unfold s1 in Hi2, Hb2. rewrite with_buf_with_buf in Hi2, Hb2.
  set (s2 := with_buf i (set_b_data d x) s) in *. assert (bufs s2 !!! i = set_b_data d x) as E2 by (apply with_buf_eq; lia).
  wp_step. eapply (bwrite_wp p l s2 i b); [by eapply kctx_same|done|done|unfold holds_buf; rewrite E2; apply Hg|rewrite E2; apply Hg|by rewrite E2|].
  rewrite E2. cbv zeta. cbn [b_data set_b_data]. intros Hi3 Hb3. set (s3 := disk_write _ _ _) in *.
  assert (bufs s3 !!! i = set_b_flags 2 (set_b_data d x)) as E3 by (apply with_buf_eq; unfold s2; rewrite length_with_buf; lia).
  assert (bframe s s3) as Hf3 by by split. pose proof (gt_key _ _ _ _ _ Hg) as Hkx.
  wp_step. eapply (brelse_wp p l s3 i); [by eapply bframe_kctx|done|done|unfold holds_buf; rewrite E3; apply Hg|rewrite E3; cbn; rewrite (gt_ref _ _ _ _ _ Hg); lia| |].
  { intros _ _ _. rewrite E3. cbn [b_data b_blockno set_b_flags set_b_data]. unfold keyed in Hkx. zbool. rewrite H0.
    unfold s3. rewrite disk_write_dblk by (done || lia). by rewrite decide_True. }
  intros l4 s4 Hi4 Hf4 Hs4 Eb4 _. rewrite E3 in Eb4.
  assert (forall q, (q < nbuf)%nat -> bufs s4 !!! q = if decide (q = i) then released (set_b_flags 2 (set_b_data d x)) else bufs s !!! q) as Hq.
  { intros q Hq. rewrite Eb4. case_decide as E.
    - rewrite E. apply list_lookup_total_insert_eq. unfold s3. cbn [bufs disk_write put_disk]. unfold s2. rewrite !length_with_buf. lia.
    - rewrite list_lookup_total_insert_ne by done. unfold s3. cbn [bufs disk_write put_disk]. unfold s2. by rewrite !with_buf_ne by done. }
  assert (bframe s s4) as Hfs by by transitivity s3.
  apply (HR l4); [exact (bframe_kctx _ _ _ _ Hk Hfs)| |].
  - split; [done|]. intros q Hql. rewrite Hq by done. case_decide; [cbn; rewrite (gt_ref _ _ _ _ _ Hg); lia|by apply Hr].
  - split; [done| | |].
    + unfold wrote. by rewrite (proj1 Hs4).
    + intros c Hc. rewrite (proj2 Hs4), Hb3, Hb2 by done. case_decide; [done|]. apply Hs1.
    + intros q Hql. rewrite Hq by done. case_decide as E; [done|]. intros E6. split; [done|]. split; [|done].
      apply not_true_iff_false. intros Hc. apply E. apply (bi_uniq _ _ Hi1 q i b); [done|done|unfold s1; by rewrite with_buf_ne|by rewrite Ex].
Qed.

Lemma write_head_loop_wp n k i x s (R : unit -> kstate -> Prop) :
  log_of start bs s -> (i < length (bufs s))%nat -> (k <= length bs)%nat -> (length bs - k < n)%nat ->
  R tt (with_buf i (set_b_data (hdr_fill k (drop k bs) (b_data x)) x) s) ->
  wp (write_head_loop n (Z.of_nat k) i) R (with_buf i x s).
Proof.
  intros Hlog Hi. revert k x. induction n as [|n IH]; intros k x Hk Hn HR; [lia|]. cbn [write_head_loop].
  unfold getl. wp_step. wp_step. change (klog (with_buf i x s)) with (klog s). rewrite (lo_n _ _ _ Hlog).
  destruct (decide (k = length bs)) as [->|Hne].
  { rewrite (proj2 (Z.ltb_ge _ _)) by lia. cbn [negb]. apply wp_ret. rewrite drop_all in HR. cbn [hdr_fill] in HR. by destruct x. }
  rewrite (proj2 (Z.ltb_lt _ _)) by lia. cbn [negb].
  destruct (lookup_lt_is_Some_2 bs k ltac:(lia)) as [b Hb]. wp_step.
  eapply (lh_entry_wp start bs); [eapply log_of_bframe; [done|apply bframe_with_buf|done]|done|]. wp_step. apply setb_wp.
  rewrite with_buf_eq, with_buf_with_buf by done. replace (Z.of_nat k + 1) with (Z.of_nat (S k)) by lia.
  apply IH; [lia|lia|]. rewrite (drop_S _ _ _ Hb) in HR. cbn [hdr_fill] in HR. exact HR.
Qed.

(** The header is written with the block numbers of the log. *)
Lemma write_head_wp l s (R : unit -> kstate -> Prop) :
  log_ctx start bs p l s ->
  (forall l' s', log_ctx start bs p l' s' -> moved [(start, hdr_encode bs (blk s start))] s s' -> R tt s') ->
  wp write_head R s.
Proof.
  intros Hc HR. pose proof Hc as [Hk Hrest Hpin Hlog]. pose proof Hlog as [Hd Hs Hg Hln Hlen Hent Hdat].
  pose proof (bi_len _ _ (rs_inv _ _ Hrest)) as Hbl. pose proof nbuf_logsize as Hnb.
  unfold write_head, getl. do 4 wp_step. rewrite Hd, Hs. change (u32 ROOTDEV) with ROOTDEV. rewrite u32_small by lia.
  wp_step. eapply (bread1_wp p l s start); [done|apply Hrest|lia|by eapply log_ctx_room; [|lia]|intros; by apply Hrest|].
  intros i x Hi Hg1 _ Hi1 Hs1. wp_step. wp_step. change (klog (with_buf i x s)) with (klog s). rewrite Hln. wp_step. apply setb_wp.
  rewrite with_buf_eq, with_buf_with_buf by lia. wp_step.
  assert (log_fuel = S nbuf) as Hfl by done.
  apply (write_head_loop_wp _ 0); [done|lia|lia|lia|]. rewrite drop_0. cbn [b_data set_b_data].
  change (set_b_data ?d (set_b_data _ x)) with (set_b_data d x). fold (hdr_encode bs (b_data x)).
  apply wp_tail. eapply put_block_wp; [done|done|done|done|done|done|lia| |].
  - rewrite length_hdr_encode. destruct (bi_buf _ _ Hi1 i Hi) as (_ & Hl & _). by rewrite with_buf_eq in Hl by lia.
  - intros l' s' Hk' Hr' Hp'. apply wp_ret. rewrite (gt_data _ _ _ _ _ Hg1) in Hp'. apply (HR l').
    + exact (log_ctx_replaced _ _ _ _ _ _ _ _ _ Hc Hk' Hr' Hp').
    + eapply moved_cons; [lia|exact Hp'|apply moved_nil].
Qed.

End head.
