(* ===== verification/LogCrash.v ===== *)
(** * Commit, recovery and crashes (log.c)

    What [commit] and [recover_from_log] write to the disk, in order, and what a
    crash between any two of these writes leaves: recovery brings the data blocks
    to their contents before the transaction or after it, all together, and may
    itself be cut short and run again. *)

From S2P Require Import Prelude Bytes Monad Machine ProcDefs Proc KernDefs Sleeplock Bio BioInv Log LogInv.

(** ** Commit *)

(** The writes of a transaction on the blocks [bs] of the array [V]. *)
Definition commit_writes (start : Z) (V : Z -> block) (bs : list Z) : list (Z * block) :=
  let H := hdr_encode bs (V start) in
  log_writes start 0 V bs ++ (start, H) :: map (fun b => (b, V b)) bs ++ [(start, hdr_encode [] H)].

Lemma log_writes_fst start k V bs b : b ∈ (log_writes start k V bs).*1 -> start + 1 + Z.of_nat k <= b < start + 1 + Z.of_nat (k + length bs).
Proof.
  revert k. induction bs as [|c bs IH]; intros k Hb; [by apply elem_of_nil in Hb|]. cbn in Hb |- *.
  apply elem_of_cons in Hb as [->|Hb]; [lia|]. apply IH in Hb. lia.
Qed.

Lemma log_writes_at start k V bs j c V' :
  bs !! j = Some c -> wfun (log_writes start k V bs) V' (start + 1 + Z.of_nat (k + j)) = V c.
Proof.
  revert k j V'. induction bs as [|b bs IH]; intros k j V' Hj; [done|]. cbn. destruct j as [|j]; cbn in Hj.
  - injection Hj as ->. rewrite wfun_other; [rewrite decide_True by lia; done|].
    intros Hin. apply log_writes_fst in Hin. lia.
  - replace (k + S j)%nat with (S k + j)%nat by lia. by apply IH.
Qed.

(** Installing from a log that holds the contents of the blocks. *)
Lemma install_writes_map start k V V' bs :
  (forall j b, bs !! j = Some b -> V' (start + 1 + Z.of_nat (k + j)) = V b) ->
  install_writes start k V' bs = map (fun b => (b, V b)) bs.
Proof.
  revert k. induction bs as [|b bs IH]; intros k H; [done|]. cbn. f_equal.
  - f_equal. pose proof (H 0%nat b eq_refl) as E. by rewrite Nat.add_0_r in E.
  - apply IH. intros j c Hj. replace (S k + j)%nat with (k + S j)%nat by lia. by apply H.
Qed.

Lemma map_fst_pair {A B} (f : A -> B) l : (map (fun a => (a, f a)) l).*1 = l.
Proof. induction l as [|a l IH]; [done|]. cbn. by rewrite IH. Qed.

Lemma moved_klog ws x s s' : moved ws s s' -> moved ws (put_klog x s) (put_klog x s').
Proof. intros [[? ? ? ? ? ? ? ?] ? ? ? ?]. split; [by split|done|done|done|done]. Qed.

(** Once its blocks are written in place, the transaction pins nothing. *)
Lemma installed_unpinned bs ws s s' : pinned bs s -> moved ws s s' -> (forall b, b ∈ bs -> b ∈ ws.*1) -> pinned [] s'.
Proof.
  intros Hp Hm Hall i Hi Hf. destruct (mv_dirty _ _ _ Hm i Hi Hf) as (H1 & H2 & _). destruct (Hp i Hi H1) as (c & Hc & Hk).
  apply Hall, list_elem_of_fmap in Hc as (w & -> & Hw). by rewrite (H2 w Hw) in Hk.
Qed.

Section commit.
Context {FU : Fuel} {BD : BlockDevice} {SD : SyncDevice} (start : Z) (bs : list Z) (p : nat).

(** Clearing the in-memory header. *)
Lemma log_ctx_clear ws l s s' :
  log_ctx start bs p l s' -> moved ws s s' -> pinned bs s -> (forall b, b ∈ bs -> b ∈ ws.*1) ->
  log_ctx start [] p l (put_klog (set_lh_n 0 (klog s')) s').
Proof.
  intros [Hk Hr _ Hl] Hm Hp Hall. split; [by eapply kctx_same|by apply rest_klog|exact (installed_unpinned _ _ _ _ Hp Hm Hall)|].
  destruct Hl as [H1 H2 H3 H4 H5 H6 H7]. split; try done.
  - change (0 + 2 <= 30)%nat. lia.
  - intros b Hb. by apply elem_of_nil in Hb.
Qed.

Lemma commit_wp l s (R : unit -> kstate -> Prop) :
  log_ctx start bs p l s -> bs <> [] ->
  (forall l' s', log_ctx start [] p l' s' -> moved (commit_writes start (blk s) bs) (put_klog (set_lh_n 0 (klog s)) s) s' -> R tt s') ->
  wp commit R s.
Proof.
  intros Hc Hne HR. pose proof (lc_log _ _ _ _ _ Hc) as [Hd Hs Hg Hln Hlen Hent Hdat].
  assert (log_fuel = S nbuf) as Hfl by done. pose proof nbuf_logsize as Hnb.
  assert (0 < length bs)%nat as Hpos by (destruct bs; [done|cbn; lia]).
  unfold commit, getl. wp_step. wp_step. rewrite Hln. rewrite (proj2 (Z.ltb_lt _ _)) by lia. cbn [when]. wp_step.
  unfold write_log. change 0 with (Z.of_nat 0) at 1. apply (write_log_loop_wp start bs p log_fuel 0 l); [done|lia|lia|]. rewrite drop_0. intros l1 s1 Hc1 Hm1. wp_step.
  eapply write_head_wp; [exact Hc1|]. intros l2 s2 Hc2 Hm2. wp_step.
  unfold install_trans. change 0 with (Z.of_nat 0) at 1. apply (install_trans_loop_wp start bs p log_fuel 0 l2); [done|lia|lia|]. rewrite drop_0. intros l3 s3 Hc3 Hm3. wp_step.
  unfold setl. wp_step. pose proof (moved_app _ _ _ _ _ Hm1 Hm2) as Hm12.
  assert (blk s1 start = blk s start) as E1.
  { rewrite (mv_blk _ _ _ Hm1) by lia. apply wfun_other. intros Hin. apply log_writes_fst in Hin. lia. }
  assert (install_writes start 0 (blk s2) bs = map (fun b => (b, blk s b)) bs) as E2.
  { apply install_writes_map. intros j b Hj. rewrite (mv_blk _ _ _ Hm12) by lia. rewrite wfun_app.
    rewrite wfun_other; [by apply log_writes_at|]. cbn. intros Hin%list_elem_of_singleton. lia. }
  rewrite E2 in Hm3. rewrite E1 in Hm2, Hm12. pose proof (moved_app _ _ _ _ _ Hm12 Hm3) as Hm123.
  assert (blk s3 start = hdr_encode bs (blk s start)) as E3.
  { rewrite (mv_blk _ _ _ Hm3) by lia. rewrite wfun_other.
    - rewrite (mv_blk _ _ _ Hm2) by lia. cbn. by rewrite decide_True.
    - rewrite map_fst_pair. intros Hin. destruct (Hdat _ Hin). lia. }
  assert (klog s3 = klog s) as Ek by apply (mv_frame _ _ _ Hm123).
  eapply write_head_wp; [eapply (log_ctx_clear _ _ s2); [exact Hc3|exact Hm3|apply Hc2|by rewrite map_fst_pair]|].
  intros l4 s4 Hc4 Hm4. apply (HR l4); [done|]. rewrite <- Ek. unfold commit_writes.
  change (blk (put_klog _ s3) start) with (blk s3 start) in Hm4. rewrite E3 in Hm4.
  pose proof (moved_app _ _ _ _ _ (moved_klog _ (set_lh_n 0 (klog s3)) _ _ Hm123) Hm4) as Hm.
  rewrite <- !app_assoc in Hm. exact Hm.
Qed.

End commit.

(** ** Crashes, on arrays of blocks *)

(** The array after recovery from the disk [D]. *)
Definition recovered (start : Z) (D : Z -> block) : Z -> block :=
  wfun (install_writes start 0 D (hdr_blocks (D start))) D.

(** The writes of recovery. *)
Definition recovery_writes (start : Z) (D : Z -> block) : list (Z * block) :=
  install_writes start 0 D (hdr_blocks (D start)) ++ [(start, hdr_encode [] (D start))].

(** A header that recovery can follow on a disk of [n] blocks. *)
Definition hdr_ok (start n : Z) (d : block) : Prop :=
  length d = bsize /\ 0 <= hdr_n d <= Z.of_nat nbuf - 2 /\ forall b, b ∈ hdr_blocks d -> data_block start n b.

Lemma install_writes_fst start k V bs : (install_writes start k V bs).*1 = bs.
Proof. revert k. induction bs as [|b bs IH]; intros k; [done|]. cbn. by rewrite IH. Qed.

Lemma hdr_empty d : length d = bsize -> hdr_n (hdr_encode [] d) = 0 /\ hdr_blocks (hdr_encode [] d) = [].
Proof. intros Hd. apply (hdr_roundtrip [] d Hd); [cbn; lia|done]. Qed.

Lemma hdr_blocks_none d : hdr_n d = 0 -> hdr_blocks d = [].
Proof. unfold hdr_blocks. by intros ->. Qed.

Lemma recovered_empty start D c : hdr_n (D start) = 0 -> recovered start D c = D c.
Proof. intros E. unfold recovered. by rewrite hdr_blocks_none. Qed.

Lemma wfun_map bs (V D : Z -> block) c : wfun (map (fun b => (b, V b)) bs) D c = if decide (c ∈ bs) then V c else D c.
Proof.
  revert D. induction bs as [|b bs IH]; intros D; [done|]. cbn. rewrite IH.
  destruct (decide (c ∈ bs)) as [H1|H1]; [by rewrite decide_True by set_solver|].
  case_decide as E; [subst; by rewrite decide_True by set_solver|]. by rewrite decide_False by set_solver.
Qed.

Lemma fst_take {A B} k (ws : list (A * B)) a : a ∈ (take k ws).*1 -> a ∈ ws.*1.
Proof.
  intros Hin. apply list_elem_of_fmap in Hin as (w & -> & Hw). apply list_elem_of_fmap. exists w. split; [done|].
  apply elem_of_take in Hw as (j & Hj & _). by eapply list_elem_of_lookup_2.
Qed.

(** A prefix of a sequence with a write in the middle. *)
Lemma take_mid {A} k (a b : list A) (x : A) :
  (k <= length a)%nat /\ take k (a ++ x :: b) = take k a \/
  exists j, take k (a ++ x :: b) = a ++ x :: take j b.
Proof.
  destruct (decide (k <= length a)%nat) as [Hk|Hk].
  - left. split; [done|]. rewrite take_app. replace (k - length a)%nat with 0%nat by lia. cbn. by rewrite app_nil_r.
  - right. exists (k - length a - 1)%nat. rewrite take_app. rewrite (take_ge a) by lia.
    destruct (k - length a)%nat as [|m] eqn:E; [lia|]. cbn [take]. by replace (S m - 1)%nat with m by lia.
Qed.

(** Recovery cut short and run again gives what one run gives. *)
Lemma recovered_again start n D k c :
  hdr_ok start n (D start) -> data_block start n c ->
  recovered start (wfun (take k (recovery_writes start D)) D) c = recovered start D c.
Proof.
  intros (Hl & Hn & Hok) Hc. unfold recovery_writes. set (ws := install_writes start 0 D (hdr_blocks (D start))).
  assert (forall b, b ∈ ws.*1 -> data_block start n b) as Hws by (unfold ws; by rewrite install_writes_fst).
  destruct (take_mid k ws [] (start, hdr_encode [] (D start))) as [[Hk ->]|(j & ->)].
  - set (D' := wfun (take k ws) D).
    assert (forall b, start <= b <= start + LOGSIZE -> D' b = D b) as HD'.
    { intros b Hb. apply wfun_other. intros Hin. apply fst_take in Hin. destruct (Hws _ Hin). lia. }
    unfold recovered. rewrite HD' by (change LOGSIZE with 30; lia).
    rewrite (install_writes_ext _ _ D' D).
    + fold ws. apply wfun_again.
    + intros m Hm. apply HD'. unfold hdr_blocks in Hm. rewrite length_map, length_seq in Hm.
      pose proof nbuf_logsize. lia.
  - rewrite take_nil, wfun_app. cbn. rewrite recovered_empty.
    + unfold recovered. fold ws. rewrite decide_False; [done|]. intros ->. destruct Hc as [_ Hc]. apply Hc. change LOGSIZE with 30. lia.
    + rewrite decide_True by done. by apply hdr_empty.
Qed.

(** A crash within [commit] leaves the old contents or the new ones. *)
Lemma commit_crash start n bs V D k :
  length (V start) = bsize -> hdr_n (D start) = 0 -> (length bs + 2 <= nbuf)%nat -> (forall b, b ∈ bs -> data_block start n b) -> n < 2 ^ 31 ->
  let D' := wfun (take k (commit_writes start V bs)) D in
  (forall c, data_block start n c -> recovered start D' c = D c) \/
  (forall c, data_block start n c -> recovered start D' c = if decide (c ∈ bs) then V c else D c).
Proof.
  intros HV HD Hlen Hbs Hn. unfold commit_writes. set (L := log_writes start 0 V bs). set (H := hdr_encode bs (V start)).
  set (I := map (fun b => (b, V b)) bs). pose proof nbuf_logsize as Hnb. change LOGSIZE with 30 in *.
  assert (forall b, b ∈ L.*1 -> start < b <= start + 30) as HL by (intros b Hb; apply log_writes_fst in Hb; lia).
  assert (forall b, b ∈ I.*1 -> data_block start n b) as HI by (unfold I; by rewrite map_fst_pair).
  assert (length H = bsize) as HlH by (unfold H; by rewrite length_hdr_encode).
  assert (hdr_blocks H = bs) as HbH.
  { apply hdr_roundtrip; [done|lia|]. apply Forall_forall. intros b Hb. destruct (Hbs b Hb). lia. }
  assert (forall c, data_block start n c -> c <> start /\ c ∉ L.*1) as Hdat.
  { intros c [_ Hc]. split; [intros ->; apply Hc; change LOGSIZE with 30; lia|]. intros Hin%HL. apply Hc. change LOGSIZE with 30. lia. }
  destruct (take_mid k L (I ++ [(start, hdr_encode [] H)]) (start, H)) as [[Hk ->]|(j & ->)].
  - left. intros c Hc. rewrite recovered_empty.
    + apply wfun_other. intros Hin%fst_take. by apply (Hdat c Hc).
    + rewrite wfun_other; [done|]. intros Hin%fst_take%HL. lia.
  - right. intros c Hc. destruct (Hdat c Hc) as [Hcs HcL]. rewrite wfun_app. cbn [wfun fold_left fst snd].
    set (D1 := fun b => if decide (b = start) then H else wfun L D b). change (fold_left _ ?x ?y) with (wfun x y).
    assert (D1 c = D c) as E1 by (unfold D1; rewrite decide_False by done; by apply wfun_other).
    destruct (take_mid j I [] (start, hdr_encode [] H)) as [[Hj ->]|(m & ->)].
    + set (D2 := wfun (take j I) D1).
      assert (forall b, start <= b <= start + 30 -> D2 b = D1 b) as E2.
      { intros b Hb. apply wfun_other. intros Hin%fst_take%HI. by destruct Hin as [_ Hin]. }
      unfold recovered. rewrite E2 by lia. unfold D1 at 1. rewrite decide_True by done. rewrite HbH.
      rewrite (install_writes_map _ _ V).
      * fold I. unfold D2. rewrite wfun_again. unfold I. by rewrite wfun_map, E1.
      * intros q b Hq. pose proof (lookup_lt_Some _ _ _ Hq). rewrite E2 by lia. unfold D1. rewrite decide_False by lia.
        by apply log_writes_at.
    + rewrite take_nil, wfun_app. cbn [wfun fold_left fst snd]. rewrite recovered_empty.
      * rewrite decide_False by done. fold (wfun I D1). unfold I. by rewrite wfun_map, E1.
      * rewrite decide_True by done. by apply hdr_empty.
Qed.

(** ** Recovery *)

Lemma blk_clean l s b : rest l s -> pinned [] s -> blk s b = dblk s b.
Proof.
  intros [Hi Hr] Hp. destruct (cached_dec s b) as [(i & Hlt & Hc)|Hf]; [|by apply blk_uncached].
  rewrite (bi_len _ _ Hi) in Hlt. rewrite (blk_cached l s i b Hi Hlt Hc).
  destruct (bi_buf _ _ Hi i Hlt) as (Hfl & _ & _ & _ & _ & Hcl). unfold cached, keyed in Hc. zbool. subst b.
  destruct Hfl as [E|[E|E]]; [done|by apply Hcl; [| apply Hr|]|]. destruct (Hp i Hlt E) as (c & Hc & _). by apply elem_of_nil in Hc.
Qed.

Section recovery.
Context {FU : Fuel} {BD : BlockDevice} {SD : SyncDevice} (start : Z) (p : nat).

(** A block that was only looked at is let go. *)
Lemma drop_block_wp l s i x b (R : unit -> kstate -> Prop) :
  kctx p [] s -> rest l s -> (i < nbuf)%nat -> got p b s i x -> bio_inv l (with_buf i x s) -> same_blks s (with_buf i x s) ->
  (forall l' s', kctx p [] s' -> rest l' s' -> moved [] s s' -> R tt s') ->
  wp (brelse i) R (with_buf i x s).
Proof.
  intros Hk [Hi Hr] Hlt Hg Hi1 Hs1 HR. pose proof (bi_len _ _ Hi) as Hlen. set (s1 := with_buf i x s) in *.
  assert (bufs s1 !!! i = x) as Ex by (apply with_buf_eq; lia). pose proof (gt_key _ _ _ _ _ Hg) as Hkx.
  eapply (brelse_wp p l s1 i); [by eapply kctx_same|done|done|unfold holds_buf; rewrite Ex; apply Hg|rewrite Ex, (gt_ref _ _ _ _ _ Hg); lia| |].
  { intros _ _. rewrite Ex. intros E. unfold keyed in Hkx. zbool. rewrite H0. by apply (gt_clean _ _ _ _ _ Hg). }
  rewrite Ex. intros l' s' Hi' Hf' Hs' Eb _.
  assert (forall q, (q < nbuf)%nat -> bufs s' !!! q = if decide (q = i) then released x else bufs s !!! q) as Hq.
  { intros q Hq. rewrite Eb. case_decide as E.
    - rewrite E. apply list_lookup_total_insert_eq. unfold s1. rewrite length_with_buf. lia.
    - rewrite list_lookup_total_insert_ne by done. by apply with_buf_ne. }
  assert (bframe s s') as Hfs by (transitivity s1; [by split|done]).
  apply (HR l'); [exact (bframe_kctx _ _ _ _ Hk Hfs)| |].
  - split; [done|]. intros q Hql. rewrite Hq by done. case_decide; [cbn; rewrite (gt_ref _ _ _ _ _ Hg); lia|by apply Hr].
  - split; [done| | | |].
    + rewrite (proj1 Hs'). change (disk s1) with (disk s). by destruct (disk s).
    + intros c Hc. cbn. rewrite (proj2 Hs'). apply Hs1.
    + intros c Hc. cbn. unfold dblk. by rewrite (proj1 Hs').
    + intros q Hql. rewrite Hq by done. case_decide as E.
      * subst q. cbn. intros E6. destruct (gt_dirty _ _ _ _ _ Hg E6) as [H1 H2]. split; [done|].
        split; [intros w Hw; by apply elem_of_nil in Hw|]. intros b'. by rewrite H2.
      * intros E6. split; [done|]. split; [intros w Hw; by apply elem_of_nil in Hw|done].
Qed.

Lemma read_head_loop_wp n k d s (R : unit -> kstate -> Prop) :
  let N := Z.to_nat (lh_n (klog s)) in
  0 <= lh_n (klog s) <= LOGSIZE -> length (lh_block (klog s)) = Z.to_nat LOGSIZE -> (k <= N)%nat -> (N - k < n)%nat ->
  (forall B, length B = Z.to_nat LOGSIZE -> (forall j, (k <= j < N)%nat -> B !!! j = hdr_block d (Z.of_nat j)) ->
     (forall j, (j < k)%nat -> B !!! j = lh_block (klog s) !!! j) -> R tt (put_klog (set_lh_block B (klog s)) s)) ->
  wp (read_head_loop n (Z.of_nat k) d) R s.
Proof.
  revert k s. induction n as [|n IH]; intros k s N HN Hlb Hk Hn HR; [lia|]. cbn [read_head_loop]. unfold getl. wp_step. wp_step.
  destruct (decide (k = N)) as [->|Hne].
  { rewrite (proj2 (Z.ltb_ge _ _)) by lia. cbn [negb]. apply wp_ret.
    assert (s = put_klog (set_lh_block (lh_block (klog s)) (klog s)) s) as Es by (destruct s as [? ? ? ? ? [] ? ? ? ? ? ?]; done).
    rewrite Es. apply HR; [done|lia|done]. }
  rewrite (proj2 (Z.ltb_lt _ _)) by lia. cbn [negb]. unfold set_lh_entry, setl.
  rewrite (proj2 (Z.leb_le _ _)), (proj2 (Z.ltb_lt _ _)) by lia. cbn [andb]. wp_step. wp_step.
  replace (Z.of_nat k + 1) with (Z.of_nat (S k)) by lia. rewrite Nat2Z.id.
  apply IH; cbn [klog put_klog lh_n lh_block set_lh_block]; fold N; [done|by rewrite length_insert|lia|lia|].
  intros B HB H1 H2. apply HR; [done| |].
  - intros j Hj. destruct (decide (j = k)) as [->|Hjk]; [|apply H1; lia]. rewrite H2 by lia. apply list_lookup_total_insert_eq. lia.
  - intros j Hj. rewrite H2 by lia. apply list_lookup_total_insert_ne. lia.
Qed.

(** The log before recovery: only where it lies on the disk is known. *)
Record boot_ctx (l : list nat) (s : kstate) : Prop := {
  bc_k : kctx p [] s;
  bc_rest : rest l s;
  bc_pin : pinned [] s;
  bc_dev : l_dev (klog s) = ROOTDEV;
  bc_start : l_start (klog s) = start;
  bc_range : 0 <= start /\ start + LOGSIZE < nblocks s /\ nblocks s < 2 ^ 31;
  bc_len : length (lh_block (klog s)) = Z.to_nat LOGSIZE;
  bc_hdr : hdr_ok start (nblocks s) (dblk s start)
}.

Lemma read_head_wp l s (R : unit -> kstate -> Prop) :
  boot_ctx l s ->
  (forall l' x s', log_ctx start (hdr_blocks (dblk s start)) p l' s' -> moved [] (put_klog x s) s' -> pinned [] s' -> R tt s') ->
  wp read_head R s.
Proof.
  intros [Hk Hrest Hpin Hd Hs Hg Hlb (Hhl & Hhn & Hhd)] HR.
  assert (log_fuel = 31%nat /\ nbuf = 30%nat /\ LOGSIZE = 30) as (Hfl & Hnb & Hls) by done.
  pose proof (bi_len _ _ (rs_inv _ _ Hrest)) as Hbl. unfold read_head, getl. do 4 wp_step. rewrite Hd, Hs.
  change (u32 ROOTDEV) with ROOTDEV. rewrite u32_small by lia. wp_step.
  eapply (bread1_wp p l s start); [done|apply Hrest|lia|by eapply (room_rest _ _ [] 1); [| |cbn; lia]|intros; by apply Hrest|].
  intros i x Hi Hg1 _ Hi1 Hs1. wp_step. apply getb_wp. rewrite with_buf_eq by lia.
  rewrite (gt_data _ _ _ _ _ Hg1), (blk_clean l s start Hrest Hpin). set (h := dblk s start) in *. wp_step. unfold setl. wp_step. wp_step.
  change 0 with (Z.of_nat 0) at 1.
  apply read_head_loop_wp; cbn [klog put_klog lh_n lh_block set_lh_n with_buf put_bufs]; [lia|done|lia|lia|].
  intros B HB HB1 _. set (y := set_lh_block B (set_lh_n (hdr_n h) (klog s))).
  change (put_klog _ _) with (with_buf i x (put_klog y s)).
  eapply (drop_block_wp l (put_klog y s) i x start); [by eapply kctx_same|by apply rest_klog|done|by destruct Hg1| | |].
  { destruct Hi1 as [? ? ? ? ?]. by split. } { done. }
  intros l' s' Hk' Hr' Hm. assert (klog s' = y) as Ey by (rewrite (bf_log _ _ (mv_frame _ _ _ Hm)); done).
  assert (nblocks s' = nblocks s) as En by exact (moved_nblocks _ _ _ Hm).
  assert (length (hdr_blocks h) = Z.to_nat (hdr_n h)) as Elen by (unfold hdr_blocks; by rewrite length_map, length_seq).
  assert (pinned [] s') as Hp' by exact (moved_pinned [] [] (put_klog y s) s' Hpin Hm).
  apply (HR l' y s'); [|done|done]. split; [done|done| |].
  - intros q Hq Hf. destruct (Hp' q Hq Hf) as (c & Hc & _). by apply elem_of_nil in Hc.
  - split; rewrite ?Ey, ?En; try done.
    + cbn. lia.
    + rewrite Elen. lia.
    + intros k b Hb. pose proof (lookup_lt_Some _ _ _ Hb) as Hkl. cbn. rewrite HB1 by lia.
      unfold hdr_blocks in Hb. rewrite list_lookup_fmap, lookup_seq_lt in Hb by lia. cbn in Hb. congruence.
Qed.

Lemma recover_from_log_wp l s (R : unit -> kstate -> Prop) :
  boot_ctx l s ->
  (forall l' x s', log_ctx start [] p l' s' -> moved (recovery_writes start (dblk s)) (put_klog x s) s' -> R tt s') ->
  wp recover_from_log R s.
Proof.
  intros Hb HR. unfold recover_from_log. wp_step. eapply read_head_wp; [done|]. intros l1 x1 s1 Hc1 Hm1 Hp1. wp_step.
  pose proof (bc_rest _ _ Hb) as Hrest. pose proof (bc_pin _ _ Hb) as Hpin. pose proof (bc_range _ _ Hb) as Hrg.
  set (bs := hdr_blocks (dblk s start)) in *. pose proof (lc_log _ _ _ _ _ Hc1) as [_ _ _ _ Hlen _ Hdat].
  assert (log_fuel = S nbuf) as Hfl by done. pose proof nbuf_logsize as Hnb.
  unfold install_trans. change 0 with (Z.of_nat 0) at 1.
  apply (install_trans_loop_wp start bs p log_fuel 0 l1); [done|lia|lia|]. rewrite drop_0. intros l2 s2 Hc2 Hm2. wp_step.
  unfold setl. wp_step. set (x := set_lh_n 0 (klog s2)).
  assert (forall b, 0 <= b -> blk s1 b = dblk s b) as E1.
  { intros b Hb0. rewrite (mv_blk _ _ _ Hm1) by done. cbn. exact (blk_clean l s b Hrest Hpin). }
  assert (blk s2 start = dblk s start) as E2.
  { rewrite (mv_blk _ _ _ Hm2), wfun_other by (lia || (rewrite install_writes_fst; intros Hin; destruct (Hdat _ Hin); lia)). apply E1. lia. }
  eapply write_head_wp; [eapply (log_ctx_clear _ _ _ _ _ s1); [exact Hc2|exact Hm2|apply Hc1|by rewrite install_writes_fst]|].
  intros l3 s3 Hc3 Hm3. apply (HR l3 x); [done|]. change (blk (put_klog _ s2) start) with (blk s2 start) in Hm3. rewrite E2 in Hm3.
  pose proof (moved_app _ _ _ _ _ (moved_klog _ x _ _ (moved_app _ _ _ _ _ Hm1 Hm2)) Hm3) as Hm. cbn [app] in Hm.
  rewrite (install_writes_ext _ _ (blk s1) (dblk s)) in Hm; [exact Hm|]. intros j Hj. apply E1. lia.
Qed.

End recovery.
