(* ===== verification/LogOps.v ===== *)
(** * Transactions (log.c: begin_op, log_write, end_op) and their theorems

    Space in the log is reserved before an operation starts, a block is recorded
    once however often it is written, and the last operation to end commits. *)

From S2P Require Import Prelude Bytes Monad Machine ProcDefs RunQueue Proc ProcInv DemoProc KernDefs Sleeplock Bio BioInv Log LogInv LogCrash.

(** ** Reservation *)

(** What [log.lock] protects: unless a commit is under way, every operation that
    has begun may still record [MAXOPBLOCKS] blocks. *)
Record log_reserved (g : log_t) : Prop := {
  lr_out : 0 <= l_outstanding g;
  lr_n : 0 <= lh_n g;
  lr_space : l_committing g = 0 -> lh_n g + l_outstanding g * MAXOPBLOCKS <= LOGSIZE;
  lr_commit : l_committing g <> 0 -> l_outstanding g = 0
}.

Section reserve.
Context {FU : Fuel}.

Lemma begin_op_loop_wps n p s (P : unit -> kstate -> Prop) :
  kctx p [LLog] s -> log_reserved (klog s) ->
  (forall s', kctx p [] s' -> log_reserved (klog s') -> l_committing (klog s') = 0 -> 1 <= l_outstanding (klog s') -> P tt s') ->
  wps (kgiven_up (fun s => log_reserved (klog s))) (kresumed (fun s => log_reserved (klog s)) p) (begin_op_loop n) P s.
Proof.
  intros Hk Hr HP. revert s Hk Hr. induction n as [|n IH]; intros s Hk Hr; [done|]. cbn [begin_op_loop]. unfold getl, setl.
  apply wps_bind, wp_wps, wp_gets. destruct (Z.eqb_spec (l_committing (klog s)) 0) as [E|E]; cbn [negb].
  2: { apply wps_bind, (ksleep_wps (fun s => log_reserved (klog s))); [by intros ? ?|done|done|]. intros s' Hk' Hr'. by apply IH. }
  apply wps_bind, wp_wps, wp_gets, wps_bind, wp_wps, wp_gets.
  destruct (Z.ltb_spec LOGSIZE (lh_n (klog s) + (l_outstanding (klog s) + 1) * MAXOPBLOCKS)) as [Hb|Hb].
  { apply wps_bind, (ksleep_wps (fun s => log_reserved (klog s))); [by intros ? ?|done|done|]. intros s' Hk' Hr'. by apply IH. }
  apply wps_bind, wp_wps, wp_modify, wp_wps. eapply krelease_wp; [eapply kctx_same; [exact Hk|done]|set_solver|].
  cbv zeta. intros Hk'. destruct Hr as [H1 H2 H3 H4]. apply HP; [done| |done|cbn; lia].
  split; cbn; try done; lia.
Qed.

(** [begin_op] waits until the log has room: whatever other processes do while
    it sleeps, as long as they keep the reservation invariant, it never panics,
    and when it returns no commit is under way and the blocks recorded so far plus
    [MAXOPBLOCKS] for each operation under way, the caller's included, fit in the
    log; so at most three operations run at once. *)
Theorem begin_op_reserves p s :
  kctx p [] s -> log_reserved (klog s) ->
  wps (kgiven_up (fun s => log_reserved (klog s))) (kresumed (fun s => log_reserved (klog s)) p) begin_op
    (fun _ s' => kctx p [] s' /\ log_reserved (klog s') /\ l_committing (klog s') = 0 /\
       1 <= l_outstanding (klog s') <= 3 /\ lh_n (klog s') + l_outstanding (klog s') * MAXOPBLOCKS <= LOGSIZE) s.
Proof.
  intros Hk Hr. unfold begin_op. apply wps_bind, wp_wps. eapply kacquire_wp; [done|set_solver|]. intros Hk1.
  apply begin_op_loop_wps; [done|done|]. intros s' Hk' Hr' H0 H1. pose proof (lr_space _ Hr' H0) as Hs. pose proof (lr_n _ Hr').
  change MAXOPBLOCKS with 10 in *. change LOGSIZE with 30 in *. split_and!; try done; lia.
Qed.

(** ** Recording a block *)

(** The blocks named by the in-memory header. *)
Record log_names (bs : list Z) (g : log_t) : Prop := {
  ln_len : length (lh_block g) = Z.to_nat LOGSIZE;
  ln_n : lh_n g = Z.of_nat (length bs);
  ln_fit : (length bs <= Z.to_nat LOGSIZE)%nat;
  ln_ent : forall k b, bs !! k = Some b -> lh_block g !!! k = b
}.

(** The blocks after block [b] is recorded. *)
Definition absorb (b : Z) (bs : list Z) : list Z := if decide (b ∈ bs) then bs else bs ++ [b].

Lemma log_write_loop_wp n k bs b s (R : Z -> kstate -> Prop) :
  log_names bs (klog s) -> Forall (fun c => 0 <= c < 2 ^ 31) bs -> (k <= length bs)%nat -> (length bs - k < n)%nat ->
  (forall i, (k <= i)%nat -> bs !! i = Some b \/ (i = length bs /\ b ∉ drop k bs) -> R (Z.of_nat i) s) ->
  wp (log_write_loop n (Z.of_nat k) b) R s.
Proof.
  intros [Hl Hn Hf He] Hb. revert k. induction n as [|n IH]; intros k Hk Hkn HR; [lia|]. cbn [log_write_loop]. unfold getl. wp_step. wp_step.
  rewrite Hn. destruct (decide (k = length bs)) as [->|Hne].
  { rewrite (proj2 (Z.ltb_ge _ _)) by lia. cbn [negb]. apply wp_ret, HR; [done|]. right. split; [done|].
    rewrite drop_all. apply not_elem_of_nil. }
  rewrite (proj2 (Z.ltb_lt _ _)) by lia. cbn [negb]. destruct (lookup_lt_is_Some_2 bs k ltac:(lia)) as [c Hc].
  wp_step. unfold lh_entry, getl. rewrite (proj2 (Z.leb_le _ _)), (proj2 (Z.ltb_lt _ _)) by lia. cbn [andb]. wp_step. rewrite Nat2Z.id, (He k c Hc).
  eapply Forall_lookup_1 in Hb as Hcb; [|done]. rewrite u32_small by lia. destruct (Z.eqb_spec c b) as [->|Hcb'].
  - apply wp_ret, HR; [done|]. by left.
  - replace (Z.of_nat k + 1) with (Z.of_nat (S k)) by lia. apply IH; [lia|lia|]. intros i Hi [Hib|[Hib Hn2]]; (apply HR; [lia|]); [by left|].
    right. split; [done|]. rewrite (drop_S _ _ _ Hc). by apply not_elem_of_cons.
Qed.

Lemma log_write_spec p s i bs :
  let b := b_blockno (bufs s !!! i) in
  kctx p [] s -> log_names bs (klog s) -> NoDup bs -> Forall (fun c => 0 <= c < 2 ^ 31) bs -> 0 <= b < 2 ^ 31 ->
  (length bs < Z.to_nat LOGSIZE)%nat -> Z.of_nat (length bs) < l_size (klog s) - 1 -> 1 <= l_outstanding (klog s) ->
  wp (log_write i) (fun _ s' => log_names (absorb b bs) (klog s') /\ NoDup (absorb b bs) /\ b ∈ absorb b bs /\
     klog s' = set_lh_block (lh_block (klog s')) (set_lh_n (lh_n (klog s')) (klog s)) /\
     s' = put_klog (klog s') (put_bufs (alter (fun x => set_b_flags (Z.lor (b_flags x) B_DIRTY) x) i (bufs s)) s)) s.
Proof.
  intros b Hk Hnm Hnd Hbs Hb Hlen Hsz Hout. pose proof Hnm as [Hl Hn Hf He]. unfold log_write, getl, setl, setb. do 4 wp_step. rewrite Hn.
  rewrite (proj2 (Z.leb_gt _ _)), (proj2 (Z.leb_gt _ _)) by lia. cbn [orb]. wp_step. wp_step. rewrite (proj2 (Z.ltb_ge _ _)) by lia.
  wp_step. eapply kacquire_wp; [done|set_solver|]. intros Hk1. wp_step. apply wp_gets. change (b_blockno _) with b.
  wp_step. change 0 with (Z.of_nat 0) at 1. assert (log_fuel = S (Z.to_nat LOGSIZE)) as Hfl by done.
  apply (log_write_loop_wp _ 0 bs); [done|done|lia|lia|]. rewrite drop_0. intros k _ Hkb.
  assert (k < Z.to_nat LOGSIZE)%nat as Hkl by (destruct Hkb as [Hkb|[-> _]]; [apply lookup_lt_Some in Hkb; lia|done]).
  unfold set_lh_entry, setl. rewrite (proj2 (Z.leb_le _ _)), (proj2 (Z.ltb_lt _ _)) by lia. cbn [andb]. do 4 wp_step.
  cbn [klog put_klog klocked put_kp lh_n set_lh_block lh_block]. rewrite Hn, Nat2Z.id. rewrite s32_small by lia.
  set (bs' := absorb b bs). set (g := if Z.of_nat k =? Z.of_nat (length bs) then set_lh_n (Z.of_nat (length bs) + 1) (set_lh_block (<[k:=b]> (lh_block (klog s))) (klog s)) else set_lh_block (<[k:=b]> (lh_block (klog s))) (klog s)).
  assert (log_names bs' g /\ NoDup bs' /\ b ∈ bs') as Hg.
  { unfold bs', absorb, g. destruct Hkb as [Hkb|[-> Hnb]].
    - pose proof (lookup_lt_Some _ _ _ Hkb). rewrite (proj2 (Z.eqb_neq _ _)) by lia.
      rewrite decide_True by by eapply list_elem_of_lookup_2. split; [|split; [done|by eapply list_elem_of_lookup_2]].
      split; cbn; [by rewrite length_insert|done|done|]. intros j c Hj. destruct (decide (j = k)) as [->|Hjk].
      + rewrite list_lookup_total_insert_eq by lia. congruence.
      + rewrite list_lookup_total_insert_ne by done. by apply He.
    - rewrite Z.eqb_refl, decide_False by done. split; [|split; [apply NoDup_app; split; [done|]; split; [set_solver|apply NoDup_singleton]|set_solver]].
      split; cbn; [by rewrite length_insert|rewrite length_app; cbn; lia|rewrite length_app; cbn; lia|].
      intros j c Hj. apply lookup_app_Some in Hj as [Hj|[Hj1 Hj2]].
      + pose proof (lookup_lt_Some _ _ _ Hj). rewrite list_lookup_total_insert_ne by lia. by apply He.
      + destruct (j - length bs)%nat as [|m] eqn:Em; [|by destruct m]. injection Hj2 as <-.
        replace j with (length bs) by lia. apply list_lookup_total_insert_eq. lia. }
  wp_step. apply (wp_mono _ (fun _ s1 => s1 = put_klog g (klocked LLog s))).
  { apply wp_when; intros E; unfold g; rewrite E; [apply wp_modify|]; by destruct s. }
  intros _ s1 ->. do 2 wp_step. eapply krelease_wp; [eapply kctx_same; [exact Hk1|done]|set_solver|]. cbv zeta. intros _. cbn [klog put_klog put_bufs put_kp].
  split_and!; try apply Hg; [unfold g; by destruct (Z.of_nat k =? _), (klog s)|].
  cbn [kp put_klog put_bufs klocked put_kp]. rewrite (unlocked _ _ _ (kc_held _ _ _ Hk)). by destruct s.
Qed.

(** [log_write] records a block once: within a transaction and with room in the
    log, it returns with the block among those of the header, added at the end
    only if it was not there, marks the buffer dirty so that it stays in the cache
    until commit, and changes nothing else. *)
Theorem log_write_absorbs p s i bs :
  let b := b_blockno (bufs s !!! i) in
  kctx p [] s -> log_names bs (klog s) -> NoDup bs -> Forall (fun c => 0 <= c < 2 ^ 31) bs -> 0 <= b < 2 ^ 31 ->
  (length bs < Z.to_nat LOGSIZE)%nat -> Z.of_nat (length bs) < l_size (klog s) - 1 -> 1 <= l_outstanding (klog s) ->
  wp (log_write i) (fun _ s' => log_names (absorb b bs) (klog s') /\ NoDup (absorb b bs) /\ b ∈ absorb b bs /\
     klog s' = set_lh_block (lh_block (klog s')) (set_lh_n (lh_n (klog s')) (klog s)) /\
     s' = put_klog (klog s') (put_bufs (alter (fun x => set_b_flags (Z.lor (b_flags x) B_DIRTY) x) i (bufs s)) s)) s.
Proof. intros b. apply log_write_spec. Qed.

End reserve.

(** ** Commit and crashes *)

Lemma blk_length l s b : bio_inv l s -> 0 <= b < nblocks s -> length (blk s b) = bsize.
Proof.
  intros Hi Hb. destruct (cached_dec s b) as [(i & Hlt & Hc)|Hf].
  - rewrite (bi_len _ _ Hi) in Hlt. rewrite (blk_cached l s i b Hi Hlt Hc). apply (bi_buf _ _ Hi i Hlt).
  - rewrite (blk_uncached _ _ Hf). by apply (bi_disk _ _ Hi).
Qed.

Section crash.
Context {FU : Fuel} {BD : BlockDevice} {SD : SyncDevice}.

(** What a crash after [k] of the writes [ws], followed by recovery, leaves in the
    data blocks. *)
Definition after_crash (start : Z) (ws : list (Z * block)) (k : nat) (s : kstate) : Z -> block :=
  recovered start (wfun (take k ws) (dblk s)).

Lemma commit_writes_data start n bs V D c :
  data_block start n c -> (length bs <= nbuf)%nat ->
  wfun (commit_writes start V bs) D c = if decide (c ∈ bs) then V c else D c.
Proof.
  intros [Hc1 Hc2] Hl. pose proof nbuf_logsize as Hnb. unfold commit_writes. rewrite wfun_app. cbn [wfun fold_left fst snd].
  rewrite fold_left_app. cbn [fold_left fst snd].
  assert (c <> start) by (intros ->; apply Hc2; change LOGSIZE with 30; lia). rewrite decide_False by done.
  change (fold_left _ ?x ?y) with (wfun x y) at 1. rewrite wfun_map. case_decide; [done|]. rewrite decide_False by done.
  change (fold_left _ ?x ?y) with (wfun x y). apply wfun_other. intros Hin%log_writes_fst. apply Hc2. lia.
Qed.

(** The last write empties the header on the disk. *)
Lemma commit_writes_head start bs V D : length (V start) = bsize -> hdr_n (wfun (commit_writes start V bs) D start) = 0.
Proof.
  intros Hl. unfold commit_writes. rewrite (cons_middle (start, _)), !app_assoc, wfun_app. cbn [wfun fold_left fst snd].
  rewrite decide_True by done. apply hdr_empty. by rewrite length_hdr_encode.
Qed.

(** The transaction's blocks [bs] went to the disk by the writes [ws], all or none of
    them in a crash. *)
Record committed (start : Z) (bs : list Z) (ws : list (Z * block)) (s s' : kstate) : Prop := {
  cm_writes : d_writes (disk s') = rev ws ++ d_writes (disk s);
  cm_dblk : forall c, data_block start (nblocks s) c -> dblk s' c = if decide (c ∈ bs) then blk s c else dblk s c;
  cm_blk : forall c, data_block start (nblocks s) c -> blk s' c = blk s c;
  cm_head : hdr_n (dblk s' start) = 0;
  cm_crash : forall k,
    (forall c, data_block start (nblocks s) c -> after_crash start ws k s c = dblk s c) \/
    (forall c, data_block start (nblocks s) c -> after_crash start ws k s c = if decide (c ∈ bs) then blk s c else dblk s c)
}.

Lemma commit_all_wp start bs p l s (R : unit -> kstate -> Prop) :
  log_ctx start bs p l s -> hdr_n (dblk s start) = 0 ->
  (forall ws s', kctx p [] s' -> lh_n (klog s') = 0 -> committed start bs ws s s' -> R tt s') ->
  wp commit R s.
Proof.
  intros Hc H0 HR. pose proof (lc_log _ _ _ _ _ Hc) as [Hd Hs Hg Hln Hlen Hent Hdat]. pose proof nbuf_logsize as Hnb.
  destruct (decide (bs = [])) as [->|Hne].
  { unfold commit, getl. wp_step. wp_step. rewrite Hln. cbn [length Z.of_nat Z.ltb Z.compare when]. apply wp_ret.
    apply (HR []); [apply Hc|done|]. split; try done. intros k. left. intros c Hcd. unfold after_crash. rewrite take_nil. cbn. by apply recovered_empty. }
  assert (length (blk s start) = bsize) as Hbl.
  { eapply blk_length; [apply Hc|]. lia. }
  eapply commit_wp; [done|done|]. intros l' s' Hc' Hm. apply (HR (commit_writes start (blk s) bs)); [apply Hc'|apply (lo_n _ _ _ (lc_log _ _ _ _ _ Hc'))|].
  split.
  - by rewrite (mv_disk _ _ _ Hm).
  - intros c Hcd. rewrite (mv_dblk _ _ _ Hm) by apply Hcd. apply (commit_writes_data start (nblocks s)); [done|lia].
  - intros c Hcd. rewrite (mv_blk _ _ _ Hm) by apply Hcd. rewrite (commit_writes_data start (nblocks s)) by (done || lia). by case_decide.
  - rewrite (mv_dblk _ _ _ Hm) by (change (nblocks (put_klog _ s)) with (nblocks s); lia). by apply commit_writes_head.
  - intros k. apply (commit_crash start (nblocks s)); [done|done|done|done|lia].
Qed.

(** C2. Commit is atomic.  From a state where the cache holds the blocks [bs] of the
    transaction and the header on disk is empty, [commit] returns (it never
    panics or sleeps), every data block is on the disk with its content, the header
    on disk is empty again, and the writes it made are such that a crash after any number of them, followed by
    recovery, leaves all data blocks as they were on disk before, or all of them
    with the transaction's contents. *)
Theorem commit_atomic start bs p l s :
  log_ctx start bs p l s -> hdr_n (dblk s start) = 0 ->
  wp commit (fun _ s' => exists ws,
    d_writes (disk s') = rev ws ++ d_writes (disk s) /\
    (forall c, data_block start (nblocks s) c -> dblk s' c = if decide (c ∈ bs) then blk s c else dblk s c) /\
    (forall c, data_block start (nblocks s) c -> blk s' c = blk s c) /\
    lh_n (klog s') = 0 /\ hdr_n (dblk s' start) = 0 /\
    forall k,
      (forall c, data_block start (nblocks s) c -> after_crash start ws k s c = dblk s c) \/
      (forall c, data_block start (nblocks s) c -> after_crash start ws k s c = if decide (c ∈ bs) then blk s c else dblk s c)) s.
Proof.
  intros Hc H0. eapply commit_all_wp; [exact Hc|exact H0|]. intros ws s' _ Hn [C1 C2 C3 C4 C5]. by exists ws.
Qed.

(** C12. Recovery completes what a crash interrupted, and may itself be interrupted:
    after a restart [recover_from_log] returns with every data block as the header
    and the log on disk say and with an empty header, and a crash after any number
    of its writes, followed by another recovery, gives the same data blocks. *)
Theorem recovery_idempotent start p l s :
  boot_ctx start p l s ->
  wp recover_from_log (fun _ s' => exists ws,
    d_writes (disk s') = rev ws ++ d_writes (disk s) /\
    (forall c, data_block start (nblocks s) c -> dblk s' c = recovered start (dblk s) c /\ blk s' c = dblk s' c) /\
    hdr_n (dblk s' start) = 0 /\ lh_n (klog s') = 0 /\
    forall k c, data_block start (nblocks s) c -> after_crash start ws k s c = recovered start (dblk s) c) s.
Proof.
  intros Hb. pose proof (bc_range _ _ _ _ Hb) as Hrg. pose proof (bc_hdr _ _ _ _ Hb) as Hok.
  eapply recover_from_log_wp; [done|]. intros l' x s' Hc' Hm. exists (recovery_writes start (dblk s)).
  assert (forall c, blk s' c = dblk s' c) as Hcl by (intros c; eapply (blk_clean l'); apply Hc').
  split_and!.
  - by rewrite (mv_disk _ _ _ Hm).
  - intros c [Hc1 Hc2]. split; [|done]. rewrite (mv_dblk _ _ _ Hm) by done. unfold recovery_writes, recovered.
    rewrite wfun_app. cbn. rewrite decide_False; [done|]. intros ->. apply Hc2. change LOGSIZE with 30. lia.
  - rewrite (mv_dblk _ _ _ Hm) by (change LOGSIZE with 30 in *; change (nblocks (put_klog x s)) with (nblocks s); lia). unfold recovery_writes. rewrite wfun_app. cbn.
    rewrite decide_True by done. apply hdr_empty, Hok.
  - apply (lo_n _ _ _ (lc_log _ _ _ _ _ Hc')).
  - intros k c Hc. eapply recovered_again; done.
Qed.

Lemma log_ctx_frame start bs p l s s' :
  log_ctx start bs p l s -> kctx p [] s' -> bufs s' = bufs s -> bnext s' = bnext s -> bprev s' = bprev s -> disk s' = disk s ->
  l_dev (klog s') = l_dev (klog s) -> l_start (klog s') = l_start (klog s) -> lh_n (klog s') = lh_n (klog s) ->
  lh_block (klog s') = lh_block (klog s) -> log_ctx start bs p l s'.
Proof.
  intros [_ [[B1 B2 B3 B4 B5] Hr] Hp [L1 L2 L3 L4 L5 L6 L7]] Hk Eb En Ep Ed E1 E2 E3 E4.
  assert (forall b, dblk s' b = dblk s b) as Edb by (intros b; unfold dblk; by rewrite Ed).
  assert (nblocks s' = nblocks s) as Enb by (unfold nblocks; by rewrite Ed).
  split; [done| | |].
  - split; [|by rewrite Eb]. split; rewrite ?Eb, ?En, ?Ep, ?Enb; try done.
    + intros i Hi. unfold buf_ok. rewrite Enb, Edb. by apply B3.
    + intros b Hb. rewrite Edb. by apply B5.
  - unfold pinned. by rewrite Eb.
  - split; rewrite ?E1, ?E2, ?E3, ?E4, ?Enb; done.
Qed.

(** The last operation of the transaction commits. *)
Lemma end_op_last_wp start bs p l s (Q : kstate -> Prop) (R : unit -> kstate -> Prop) :
  log_ctx start bs p l s -> l_committing (klog s) = 0 -> l_outstanding (klog s) = 1 ->
  (forall s1, log_ctx start bs p l s1 -> bufs s1 = bufs s -> disk s1 = disk s -> klog s1 = set_l_committing 1 (set_l_outstanding 0 (klog s)) ->
     wp commit (fun _ s2 => kctx p [] s2 /\ Q s2) s1) ->
  (forall s2 s', Q s2 -> kctx p [] s' -> bufs s' = bufs s2 -> disk s' = disk s2 -> klog s' = set_l_committing 0 (klog s2) -> R tt s') ->
  wp end_op R s.
Proof.
  intros Hc H0 E1 Hcom HR. pose proof (lc_k _ _ _ _ _ Hc) as Hk. pose proof (kc_held _ _ _ Hk) as Hh.
  unfold end_op, setl, getl. wp_step. eapply kacquire_wp; [done|set_solver|]. intros Hk1. do 2 wp_step. do 2 wp_step.
  cbn [klog put_klog klocked put_kp l_committing set_l_outstanding]. rewrite H0. cbn [Z.eqb negb]. do 2 wp_step. cbn [klog put_klog klocked put_kp l_outstanding set_l_outstanding].
  cbv zeta. rewrite E1. change (1 - 1 =? 0) with true. cbv iota. do 2 wp_step. wp_step. cbn [klog put_klog klocked put_kp].
  eapply krelease_wp; [eapply kctx_same; [exact Hk1|done]|set_solver|]. cbv zeta. intros Hk2. cbn [when]. wp_step.
  eapply wp_mono; [apply Hcom; [by eapply log_ctx_frame; [exact Hc|..]|done..]|].
  intros [] s2 (Hk3 & HQ). wp_step. eapply kacquire_wp; [done|set_solver|]. intros Hk4. do 2 wp_step. wp_step.
  eapply kwakeup_wp; [eapply kctx_same; [exact Hk4|done]|set_solver|]. intros p' Hq.
  eapply krelease_wp; [eapply kctx_quiet; [eapply kctx_same; [exact Hk4|done]|exact Hq]|set_solver|]. cbv zeta. intros Hk5.
  by apply (HR s2).
Qed.

(** C18. [end_op] of an operation that began: if others are under way it only leaves
    the log and writes nothing; the last one commits, so that when it returns every
    data block the transaction recorded is on the disk with its content, and the log
    is empty, in memory and, if anything was recorded or it was empty before, in its
    header on the disk.  Either way the reservation invariant holds and no lock is
    held. *)
Theorem end_op_commits start bs p l s :
  log_ctx start bs p l s -> log_reserved (klog s) -> l_committing (klog s) = 0 -> 1 <= l_outstanding (klog s) ->
  wp end_op (fun _ s' => kctx p [] s' /\ log_reserved (klog s') /\ l_committing (klog s') = 0 /\
    l_outstanding (klog s') = l_outstanding (klog s) - 1 /\
    (l_outstanding (klog s) <> 1 -> disk s' = disk s /\ lh_n (klog s') = lh_n (klog s) /\ bufs s' = bufs s) /\
    (l_outstanding (klog s) = 1 -> lh_n (klog s') = 0 /\ (bs <> [] \/ hdr_n (dblk s start) = 0 -> hdr_n (dblk s' start) = 0) /\
       forall b, b ∈ bs -> dblk s' b = blk s b /\ blk s' b = blk s b)) s.
Proof.
  intros Hc Hr H0 Ho. pose proof (lc_k _ _ _ _ _ Hc) as Hk. pose proof (kc_held _ _ _ Hk) as Hh. destruct Hr as [R1 R2 R3 R4]. specialize (R3 H0).
  destruct (decide (l_outstanding (klog s) = 1)) as [E1|E1].
  - apply (end_op_last_wp start bs p l s (fun s2 => lh_n (klog s2) = 0 /\ l_outstanding (klog s2) = 0 /\
      (bs <> [] \/ hdr_n (dblk s start) = 0 -> hdr_n (dblk s2 start) = 0) /\ forall b, b ∈ bs -> dblk s2 b = blk s b /\ blk s2 b = blk s b)); try done.
    + intros s1 Hc1 Eb Ed Eg. assert (forall b, blk s1 b = blk s b) as Ebl by (intros b; unfold blk, dblk; by rewrite Eb, Ed).
      destruct (decide (bs = [])) as [->|Hne].
      * unfold commit, getl. wp_step. wp_step. rewrite (lo_n _ _ _ (lc_log _ _ _ _ _ Hc1)). cbn [length Z.of_nat Z.ltb Z.compare when]. apply wp_ret.
        split_and!; [apply Hc1|apply (lo_n _ _ _ (lc_log _ _ _ _ _ Hc1))|by rewrite Eg| |].
        { unfold dblk. rewrite Ed. by intros [?|?]. }
        intros b Hb. by apply elem_of_nil in Hb.
      * eapply commit_wp; [exact Hc1|done|]. intros l2 s2 Hc2 Hm. split_and!; [apply Hc2|apply (lo_n _ _ _ (lc_log _ _ _ _ _ Hc2))| | |].
        { rewrite (bf_log _ _ (mv_frame _ _ _ Hm)). cbn. by rewrite Eg. }
        { intros _. pose proof (lo_range _ _ _ (lc_log _ _ _ _ _ Hc1)) as Hrg. change LOGSIZE with 30 in Hrg.
          rewrite (mv_dblk _ _ _ Hm) by (change (nblocks (put_klog _ s1)) with (nblocks s1); lia). apply commit_writes_head. eapply blk_length; [apply Hc1|lia]. }
        intros b Hb. pose proof (lo_data _ _ _ (lc_log _ _ _ _ _ Hc1) b Hb) as Hbd.
        pose proof (lo_range _ _ _ (lc_log _ _ _ _ _ Hc1)) as Hrg. pose proof (lo_len _ _ _ (lc_log _ _ _ _ _ Hc1)).
        rewrite (mv_dblk _ _ _ Hm), (mv_blk _ _ _ Hm) by apply Hbd. rewrite !(commit_writes_data start (nblocks s1)) by (done || lia). rewrite !decide_True by done. by rewrite Ebl.
    + intros s2 s' (Hn2 & Ho2 & Hh2 & Hd2) Hk' Eb Ed Eg. assert (forall b, blk s' b = blk s2 b) as Ebl by (intros b; unfold blk, dblk; by rewrite Eb, Ed).
      rewrite Eg. split_and!; [done| |done|cbn; lia|by intros|].
      * split; cbn; rewrite ?Hn2, ?Ho2; change LOGSIZE with 30; lia.
      * intros _. split; [done|]. split; [unfold dblk at 2; by rewrite Ed|]. intros b Hb. rewrite Ebl. unfold dblk. rewrite Ed. by apply Hd2.
  - unfold end_op, setl, getl. wp_step. eapply kacquire_wp; [done|set_solver|]. intros Hk1. do 2 wp_step. do 2 wp_step.
    cbn [klog put_klog klocked put_kp l_committing set_l_outstanding]. rewrite H0. cbn [Z.eqb negb]. do 2 wp_step. cbn [klog put_klog klocked put_kp l_outstanding set_l_outstanding].
    cbv zeta. change MAXOPBLOCKS with 10 in *. rewrite (proj2 (Z.eqb_neq _ _)) by lia. wp_step. eapply kwakeup_wp; [eapply kctx_same; [exact Hk1|done]|set_solver|]. intros p' Hq. wp_step.
    eapply krelease_wp; [eapply kctx_quiet; [eapply kctx_same; [exact Hk1|done]|exact Hq]|set_solver|]. cbv zeta. intros Hk2. cbn [when]. apply wp_ret.
    split_and!; [done| |done|done|done|done]. split; cbn; try done; change MAXOPBLOCKS with 10; lia.
Qed.

End crash.
