(* ===== verification/DemoKern.v ===== *)
(** * A concrete kernel state

    The process table of [DemoProc], process 1 running, over a disk of 64 blocks
    of zeros with its log at block 2, and a buffer cache that is empty or holds one
    modified block.  The hypotheses of the cache's and the log's theorems hold of
    it, with the memory disk as the driver. *)

From S2P Require Import Prelude Bytes Monad Machine ProcDefs RunQueue Proc ProcInv DemoProc.
From S2P Require Import KernDefs Sleeplock Bio BioInv Log LogInv LogCrash LogOps.

#[export] Instance demo_fuel : Fuel := 1%nat.

Definition demo_nx : list nat := 30%nat :: seq 0 30.
Definition demo_pv : list nat := seq 1 30 ++ [0%nat].
Definition demo_order : list nat := reverse (seq 0 30).
Definition demo_disk : disk_t := MkDisk (replicate 64 zero_block) [].

(** The log at block 2, naming the blocks [bs], with [o] operations under way. *)
Definition demo_log (bs : list Z) (o : Z) : log_t :=
  MkLog 2 31 o 0 1 (Z.of_nat (length bs)) (take 30 (bs ++ replicate 30 0)).

(** Process 1 in the kernel; buffer 0 is [x], the others were never used. *)
Definition demo_k (x : buf) (g : log_t) : kstate :=
  MkK (demo_held []) (x :: replicate 29 buf0) demo_nx demo_pv demo_disk g (MkSb 64 30 20 30 2 33 36)
    (replicate 50 inode0) (replicate 100 file0) ∅ (MkCons (replicate 128 0) 0 0 0 false (MkCga 0 (replicate 2000 0)) []) (MkIde [] 1 []).

(** Block 40 modified and not written yet. *)
Definition demo_dirty : buf := MkBuf 6 1 40 sl0 0 (1 :: replicate 511 0).
(** Block 40 held by process 1. *)
Definition demo_locked : buf := MkBuf 2 1 40 (MkSl 1 1) 1 zero_block.

Lemma demo_kctx x g : kctx 1 [] (demo_k x g).
Proof. split; [exists demo_q; apply demo_held_sched|apply demo_running|done]. Qed.

Lemma demo_lru : lru demo_nx demo_pv demo_order.
Proof. split; [done|done|vm_compute; tauto|by unfold demo_order; rewrite reverse_Permutation]. Qed.

Lemma demo_buf x g i : (i < nbuf)%nat -> bufs (demo_k x g) !!! i = if decide (i = 0%nat) then x else buf0.
Proof.
  intros Hi. destruct i as [|i]; [done|]. rewrite decide_False by done. cbn -[replicate].
  change (replicate 29 buf0 !!! i = buf0). apply lookup_total_replicate_2. change (S i < 30)%nat in Hi. lia.
Qed.

Lemma demo_dblk x g b : 0 <= b < 64 -> dblk (demo_k x g) b = zero_block.
Proof. intros Hb. unfold dblk. cbn -[replicate]. apply lookup_total_replicate_2. lia. Qed.

Lemma buf0_ok s : buf_ok s buf0.
Proof. unfold buf_ok. cbn. split; [auto|]. split; [done|]. split; [lia|]. done. Qed.

Lemma demo_bio x g : buf_ok (demo_k x g) x -> bio_inv demo_order (demo_k x g).
Proof.
  intros Hx. split; [done|apply demo_lru| | |].
  - intros i Hi. rewrite demo_buf by done. case_decide; [done|apply buf0_ok].
  - intros i j b Hi Hj. rewrite !demo_buf by done. repeat case_decide; try congruence; done.
  - intros b Hb. change (0 <= b < 64) in Hb. by rewrite demo_dblk.
Qed.

Lemma demo_dirty_ok g : buf_ok (demo_k demo_dirty g) demo_dirty.
Proof. unfold buf_ok. cbn -[replicate]. split; [auto|]. split; [done|]. split; [lia|]. split; [done|]. split; [|done]. change (1 = 1 -> 0 <= 40 < 64). lia. Qed.

Lemma demo_locked_ok g : buf_ok (demo_k demo_locked g) demo_locked.
Proof. unfold buf_ok. cbn -[replicate]. split; [auto|]. split; [done|]. split; [lia|]. split; [done|]. split; [|done]. change (1 = 1 -> 0 <= 40 < 64). lia. Qed.

Lemma demo_rest x g : buf_ok (demo_k x g) x -> b_refcnt x = 0 -> rest demo_order (demo_k x g).
Proof. intros Hx Hr. split; [by apply demo_bio|]. intros i Hi. rewrite demo_buf by done. by case_decide. Qed.

Lemma demo_log_ctx o : log_ctx 2 [40] 1 demo_order (demo_k demo_dirty (demo_log [40] o)).
Proof.
  split; [apply demo_kctx|apply demo_rest; [apply demo_dirty_ok|done]| |].
  - intros i Hi. rewrite demo_buf by done. case_decide; [|done]. intros _. exists 40. split; [set_solver|done].
  - split; try done; [change (1 + 2 <= 30)%nat; lia| |].
    + intros [|k] b Hb; [cbn in *; congruence|done].
    + intros b Hb%list_elem_of_singleton. subst b. change (0 <= 40 < 64 /\ ~ 2 <= 40 <= 2 + 30). lia.
Qed.

(** Found after a crash: a committed transaction of block 40, not installed yet. *)
Definition demo_crashed : kstate :=
  put_disk (MkDisk (<[3%nat := 1 :: replicate 511 0]> (<[2%nat := hdr_encode [40] zero_block]> (replicate 64 zero_block))) [])
    (demo_k buf0 (demo_log [] 0)).

Lemma demo_crashed_disk : forallb (fun d => length d =? bsize)%nat (d_blocks (disk demo_crashed)) = true.
Proof. vm_compute. reflexivity. Qed.

Lemma demo_boot_ctx : boot_ctx 2 1 demo_order demo_crashed.
Proof.
  assert (forall i, (i < nbuf)%nat -> bufs demo_crashed !!! i = buf0) as Hb.
  { intros i Hi. change (bufs demo_crashed) with (bufs (demo_k buf0 (demo_log [] 0))). rewrite demo_buf by done. by case_decide. }
  split; try done.
  - eapply kctx_same; [apply (demo_kctx buf0 (demo_log [] 0))|done].
  - split; [split|]; [done|apply demo_lru| | | |].
    + intros i Hi. rewrite Hb by done. apply buf0_ok.
    + intros i j b Hi Hj. by rewrite !Hb by done.
    + intros b Hr. change (0 <= b < 64) in Hr. pose proof demo_crashed_disk as H. rewrite forallb_forall in H. apply Nat.eqb_eq, H, list_elem_of_In.
      apply list_elem_of_lookup_total_2. change (Z.to_nat b < 64)%nat. lia.
    + intros i Hi. by rewrite Hb.
  - intros i Hi. by rewrite Hb.
  - split; [done|]. split; [vm_compute; split; congruence|]. assert (hdr_blocks (dblk demo_crashed 2) = [40]) as -> by (vm_compute; reflexivity).
    intros b ->%list_elem_of_singleton. change (0 <= 40 < 64 /\ ~ 2 <= 40 <= 2 + 30). lia.
Qed.

Lemma demo_reserved bs o : 0 <= o -> Z.of_nat (length bs) + o * 10 <= 30 -> log_reserved (demo_log bs o).
Proof. intros H1 H2. split; cbn; [done|lia|intros _; exact H2|done]. Qed.

(** ** Witnesses *)

Lemma acquiresleep_excludes_witness :
  let K s := (0 < length (bufs s))%nat in
  let s := demo_k buf0 (demo_log [] 0) in
  wps (kgiven_up K) (kresumed K 1) (acquiresleep (SlBuf 0))
    (fun _ s' => exists s0, K s0 /\ sl_locked (sl_of (SlBuf 0) s0) = 0 /\
       kctx 1 [] s' /\ s' = sl_put (SlBuf 0) (MkSl 1 (pid_of 1 s')) (put_kp (kp s') s0)) s.
Proof. intros K s. apply (acquiresleep_excludes K 1 (SlBuf 0) s); [by intros ? ?|done|apply demo_kctx|unfold K; cbn; lia]. Defined.

Lemma binit_lru_witness :
  wp binit (fun _ s' => lru (bnext s') (bprev s') (reverse (seq 0 nbuf)) /\ length (bufs s') = nbuf /\
    forall i, (i < nbuf)%nat -> b_lock (bufs s' !!! i) = sl0) (demo_k buf0 (demo_log [] 0)).
Proof. apply (binit_lru (demo_k buf0 (demo_log [] 0))); done. Defined.

Lemma bread_array_witness :
  let s := demo_k demo_dirty (demo_log [40] 1) in
  wp (bread ROOTDEV 40) (fun i s' => (i < nbuf)%nat /\ bio_inv demo_order s' /\ kctx 1 [] s' /\ holds_buf 1 i s' /\
    b_dev (bufs s' !!! i) = ROOTDEV /\ b_blockno (bufs s' !!! i) = 40 /\ b_data (bufs s' !!! i) = blk s 40 /\
    disk s' = disk s /\ (forall c, blk s' c = blk s c) /\
    (keyed 40 (bufs s !!! i) = false -> busy (bufs s !!! i) = false) /\
    forall j, j <> i -> bufs s' !!! j = bufs s !!! j) s.
Proof.
  intros s. apply (bread_array 1 demo_order s 40); [apply demo_kctx|apply demo_bio, demo_dirty_ok|change (0 <= 40 < 64); lia|].
  split; [|exists 1%nat; split; [change (1 < 30)%nat; lia|done]]. intros i Hi. unfold s. rewrite demo_buf by done. by case_decide.
Defined.

Lemma brelse_recency_witness :
  let s := demo_k demo_locked (demo_log [] 0) in
  wp (brelse 0) (fun _ s' => bio_inv (if b_refcnt (bufs s !!! 0%nat) =? 1 then to_front 0 demo_order else demo_order) s' /\
    kctx 1 [] s' /\ b_lock (bufs s' !!! 0%nat) = sl0 /\ b_refcnt (bufs s' !!! 0%nat) = b_refcnt (bufs s !!! 0%nat) - 1 /\
    disk s' = disk s /\ (forall c, blk s' c = blk s c) /\ forall j, j <> 0%nat -> bufs s' !!! j = bufs s !!! j) s.
Proof.
  intros s. apply (brelse_recency 1 demo_order s 0); [apply demo_kctx|apply demo_bio, demo_locked_ok|change (0 < 30)%nat; lia|done|done|].
  intros _ _ _. unfold s. change (b_blockno _) with 40. by rewrite demo_dblk.
Defined.

Lemma begin_op_reserves_witness :
  wps (kgiven_up (fun s => log_reserved (klog s))) (kresumed (fun s => log_reserved (klog s)) 1) begin_op
    (fun _ s' => kctx 1 [] s' /\ log_reserved (klog s') /\ l_committing (klog s') = 0 /\
       1 <= l_outstanding (klog s') <= 3 /\ lh_n (klog s') + l_outstanding (klog s') * MAXOPBLOCKS <= LOGSIZE)
    (demo_k buf0 (demo_log [] 3)).
Proof. apply (begin_op_reserves 1 (demo_k buf0 (demo_log [] 3))); [apply demo_kctx|apply demo_reserved; cbn; lia]. Defined.

Lemma log_write_absorbs_witness :
  let s := demo_k demo_locked (demo_log [41] 1) in
  let b := b_blockno (bufs s !!! 0%nat) in
  wp (log_write 0) (fun _ s' => log_names (absorb b [41]) (klog s') /\ NoDup (absorb b [41]) /\ b ∈ absorb b [41] /\
     klog s' = set_lh_block (lh_block (klog s')) (set_lh_n (lh_n (klog s')) (klog s)) /\
     s' = put_klog (klog s') (put_bufs (alter (fun x => set_b_flags (Z.lor (b_flags x) B_DIRTY) x) 0%nat (bufs s)) s)) s.
Proof.
  intros s b. apply (log_write_absorbs 1 s 0 [41]); try done.
  - apply demo_kctx.
  - split; [done|done|vm_compute; lia|]. intros [|k] c Hc; [cbn in *; congruence|done].
  - apply NoDup_singleton.
  - apply Forall_singleton. lia.
  - vm_compute. lia.
Defined.

Lemma commit_atomic_witness :
  let s := demo_k demo_dirty (demo_log [40] 0) in
  wp commit (fun _ s' => exists ws,
    d_writes (disk s') = rev ws ++ d_writes (disk s) /\
    (forall c, data_block 2 (nblocks s) c -> dblk s' c = if decide (c ∈ [40]) then blk s c else dblk s c) /\
    (forall c, data_block 2 (nblocks s) c -> blk s' c = blk s c) /\
    lh_n (klog s') = 0 /\ hdr_n (dblk s' 2) = 0 /\
    forall k,
      (forall c, data_block 2 (nblocks s) c -> after_crash 2 ws k s c = dblk s c) \/
      (forall c, data_block 2 (nblocks s) c -> after_crash 2 ws k s c = if decide (c ∈ [40]) then blk s c else dblk s c)) s.
Proof. intros s. apply (commit_atomic 2 [40] 1 demo_order s); [apply demo_log_ctx|done]. Defined.

Lemma recovery_idempotent_witness :
  dblk demo_crashed 40 = zero_block /\
  wp recover_from_log (fun _ s' => hdr_n (dblk s' 2) = 0 /\ dblk s' 40 = 1 :: replicate 511 0 /\ exists ws,
    d_writes (disk s') = rev ws ++ d_writes (disk demo_crashed) /\
    forall k c, data_block 2 (nblocks demo_crashed) c -> after_crash 2 ws k demo_crashed c = recovered 2 (dblk demo_crashed) c) demo_crashed.
Proof.
  split; [vm_compute; reflexivity|]. eapply wp_mono; [apply (recovery_idempotent 2 1 demo_order demo_crashed); apply demo_boot_ctx|].
  intros _ s' (ws & W & D & H & _ & A). split; [exact H|]. split; [|exists ws; split; [exact W|exact A]].
  assert (data_block 2 (nblocks demo_crashed) 40) as H40 by (change (0 <= 40 < 64 /\ ~ 2 <= 40 <= 2 + 30); lia).
  destruct (D 40 H40) as [E _]. rewrite E. vm_compute. reflexivity.
Defined.

Lemma end_op_commits_witness :
  let s := demo_k demo_dirty (demo_log [40] 1) in
  wp end_op (fun _ s' => kctx 1 [] s' /\ log_reserved (klog s') /\ l_committing (klog s') = 0 /\
    l_outstanding (klog s') = l_outstanding (klog s) - 1 /\
    (l_outstanding (klog s) <> 1 -> disk s' = disk s /\ lh_n (klog s') = lh_n (klog s) /\ bufs s' = bufs s) /\
    (l_outstanding (klog s) = 1 -> lh_n (klog s') = 0 /\ ([40] <> [] \/ hdr_n (dblk s 2) = 0 -> hdr_n (dblk s' 2) = 0) /\
       forall b, b ∈ [40] -> dblk s' b = blk s b /\ blk s' b = blk s b)) s.
Proof.
  intros s. apply (end_op_commits 2 [40] 1 demo_order s); [apply demo_log_ctx|apply demo_reserved; cbn; lia|done|cbn; lia].
Defined.
