(* ===== verification/Fs.v ===== *)
(** * The file system (fs.c)

    Blocks, inodes, their content, directories and paths, over the buffer cache and
    the log.  An inode pointer is an index of the inode cache, so the tests for a
    null inode in [ilock] and [iunlock] have no counterpart.  Bytes read and written
    are lists: what [readi] copies to [dst] is its result, and [None] is -1. *)

From S2P Require Import Prelude Strings Bytes Monad Machine ProcDefs Proc KernDefs Sleeplock Bio Log.

(** [devsw]: the device drivers; reading gives the bytes stored at [dst]. *)
Class DevSw : Type := {
  dev_read : Z -> option (nat -> Z -> M kstate (option (list Z)));
  dev_write : Z -> option (nat -> list Z -> M kstate Z)
}.

Definition s16 (z : Z) : Z := let w := z mod 2 ^ 16 in if w <? 2 ^ 15 then w else w - 2 ^ 16.

(** fs.h *)
Definition IBLOCK (i : Z) (sb : superblock) : Z := u32 (i / IPB + sb_inodestart sb).
Definition BBLOCK (b : Z) (sb : superblock) : Z := u32 (b / BPB + sb_bmapstart sb).

(** Offset of inode [inum] in its block, and of the fields of [struct dinode]. *)
Definition dinode_off (inum : Z) : nat := Z.to_nat (inum mod IPB * 64).
Definition ndirect : nat := Z.to_nat NDIRECT.

(** What [ilock] copies from a [struct dinode]. *)
Definition dinode_load (d : block) (o : nat) (x : inode) : inode :=
  set_i_addrs (map (fun k => get32 d (o + 12 + 4 * k)) (seq 0 (S ndirect)))
    (set_i_size (get32 d (o + 8))
      (set_i_nlink (s16 (get16 d (o + 6)))
        (set_i_minor (s16 (get16 d (o + 4)))
          (set_i_major (s16 (get16 d (o + 2)))
            (set_i_type (s16 (get16 d o)) x))))).

(** [memmove(dip->addrs, ip->addrs, ...)]. *)
Fixpoint put_addrs (o : nat) (l : list Z) (d : block) : block :=
  match l with
  | [] => d
  | a :: l => put_addrs (o + 4) l (put32 o a d)
  end.

(** What [iupdate] stores into it. *)
Definition dinode_store (x : inode) (o : nat) (d : block) : block :=
  let d := put16 o (i_type x) d in
  let d := put16 (o + 2) (i_major x) d in
  let d := put16 (o + 4) (i_minor x) d in
  let d := put16 (o + 6) (i_nlink x) d in
  let d := put32 (o + 8) (i_size x) d in
  put_addrs (o + 12) (i_addrs x) d.

Section fs.
Context {FU : Fuel} {BD : BlockDevice} {DV : DevSw}.

Definition get_sb : M kstate superblock := gets ksb.
Definition edit (bp : nat) (f : block -> block) : M kstate unit := setb bp (fun x => set_b_data (f (b_data x)) x).

(** ** Blocks *)

Definition bzero (dev bno : Z) : M kstate unit :=
  let* bp := bread (u32 dev) (u32 bno) in
  setb bp (set_b_data (replicate bsize 0)) ;;;
  log_write bp ;;;
  brelse bp.

(** The scan of one bitmap block: the first free bit. *)
Fixpoint balloc_scan (n : nat) (bi b size : Z) (d : block) : option Z :=
  match n with
  | O => None
  | S n =>
      if (bi <? BPB) && (b + bi <? size) then
        let m := Z.shiftl 1 (bi mod 8) in
        if Z.land (byte_at d (Z.to_nat (bi / 8))) m =? 0 then Some bi
        else balloc_scan n (bi + 1) b size d
      else None
  end.

Fixpoint balloc_loop (n : nat) (dev b : Z) : M kstate Z :=
  let* sb := get_sb in
  match n with
  | O => nofuel
  | S n =>
      if negb (b <? sb_size sb) then panic "balloc: out of blocks" else
      let* bp := bread dev (BBLOCK b sb) in
      let* d := getb bp b_data in
      match balloc_scan (Z.to_nat BPB) 0 b (sb_size sb) d with
      | Some bi =>
          let m := Z.shiftl 1 (bi mod 8) in
          edit bp (fun d => <[Z.to_nat (bi / 8) := Z.lor (byte_at d (Z.to_nat (bi / 8))) m]> d) ;;;
          log_write bp ;;;
          brelse bp ;;;
          bzero dev (b + bi) ;;;
          ret (b + bi)
      | None =>
          brelse bp ;;;
          balloc_loop n dev (b + BPB)
      end
  end.
Definition balloc (dev : Z) : M kstate Z :=
  let* sb := get_sb in
  balloc_loop (S (S (Z.to_nat (sb_size sb / BPB)))) dev 0.

Definition bfree (dev b : Z) : M kstate unit :=
  let* sb := get_sb in
  let* bp := bread (u32 dev) (BBLOCK b sb) in
  let bi := b mod BPB in
  let m := Z.shiftl 1 (bi mod 8) in
  let* d := getb bp b_data in
  if Z.land (byte_at d (Z.to_nat (bi / 8))) m =? 0 then panic "freeing free block" else
  edit bp (fun d => <[Z.to_nat (bi / 8) := Z.land (byte_at d (Z.to_nat (bi / 8))) (Z.lnot m)]> d) ;;;
  log_write bp ;;;
  brelse bp.

(** ** Inodes *)

Fixpoint iinit_loop (n i : nat) : M kstate unit :=
  match n with
  | O => ret tt
  | S n => initsleeplock (SlInode i) ;;; iinit_loop n (S i)
  end.
Definition iinit (dev : Z) : M kstate unit :=
  iinit_loop ninode 0 ;;;
  let* sb := readsb (u32 dev) in
  modify (put_ksb sb).

(** [empty] is the first free entry met so far. *)
Fixpoint iget_loop (n ip : nat) (empty : option nat) (dev inum : Z) : M kstate (option nat + option nat) :=
  match n with
  | O => ret (inr empty)
  | S n =>
      let* x := gets (fun s => icache s !!! ip) in
      if (0 <? i_ref x) && (i_dev x =? dev) && (i_inum x =? inum) then
        seti ip (fun x => set_i_ref (s32 (i_ref x + 1)) x) ;;;
        krelease LIcache ;;;
        ret (inl (Some ip))
      else
        iget_loop n (S ip) (match empty with None => if i_ref x =? 0 then Some ip else None | Some _ => empty end) dev inum
  end.
Definition iget (dev inum : Z) : M kstate nat :=
  kacquire LIcache ;;;
  let* r := iget_loop ninode 0 None dev inum in
  match r with
  | inl (Some ip) => ret ip
  | inr (Some ip) =>
      seti ip (set_i_dev dev) ;;;
      seti ip (set_i_inum inum) ;;;
      seti ip (set_i_ref 1) ;;;
      seti ip (set_i_valid 0) ;;;
      krelease LIcache ;;;
      ret ip
  | _ => panic "iget: no inodes"
  end.

Fixpoint ialloc_loop (n : nat) (dev type inum : Z) : M kstate nat :=
  let* sb := get_sb in
  match n with
  | O => nofuel
  | S n =>
      if negb (inum <? sb_ninodes sb) then panic "ialloc: no inodes" else
      let* bp := bread dev (IBLOCK inum sb) in
      let o := dinode_off inum in
      let* d := getb bp b_data in
      if s16 (get16 d o) =? 0 then
        edit bp (fun d => put16 o type (blk_write o (replicate 64 0) d)) ;;;
        log_write bp ;;;
        brelse bp ;;;
        iget dev inum
      else
        brelse bp ;;;
        ialloc_loop n dev type (inum + 1)
  end.
Definition ialloc (dev type : Z) : M kstate nat :=
  let* sb := get_sb in
  ialloc_loop (S (Z.to_nat (sb_ninodes sb))) dev type 1.

Definition iupdate (ip : nat) : M kstate unit :=
  let* sb := get_sb in
  let* x := gets (fun s => icache s !!! ip) in
  let* bp := bread (i_dev x) (IBLOCK (i_inum x) sb) in
  let* x := gets (fun s => icache s !!! ip) in
  edit bp (dinode_store x (dinode_off (i_inum x))) ;;;
  log_write bp ;;;
  brelse bp.

Definition idup (ip : nat) : M kstate nat :=
  kacquire LIcache ;;;
  seti ip (fun x => set_i_ref (s32 (i_ref x + 1)) x) ;;;
  krelease LIcache ;;;
  ret ip.

Definition ilock (ip : nat) : M kstate unit :=
  let* r := geti ip i_ref in
  if r <? 1 then panic "ilock" else
  acquiresleep (SlInode ip) ;;;
  let* v := geti ip i_valid in
  when (v =? 0) (
    let* sb := get_sb in
    let* x := gets (fun s => icache s !!! ip) in
    let* bp := bread (i_dev x) (IBLOCK (i_inum x) sb) in
    let* d := getb bp b_data in
    seti ip (fun x => dinode_load d (dinode_off (i_inum x)) x) ;;;
    brelse bp ;;;
    seti ip (set_i_valid 1) ;;;
    let* t := geti ip i_type in
    if t =? 0 then panic "ilock: no type" else ret tt).

Definition iunlock (ip : nat) : M kstate unit :=
  let* h := holdingsleep (SlInode ip) in
  let* r := geti ip i_ref in
  if negb h || (r <? 1) then panic "iunlock" else
  releasesleep (SlInode ip).

(** ** Inode content *)

Definition bmap (ip : nat) (bn : Z) : M kstate Z :=
  let* dev := geti ip i_dev in
  if bn <? NDIRECT then
    let* addr := geti ip (fun x => i_addrs x !!! Z.to_nat bn) in
    if addr =? 0 then
      let* addr := balloc dev in
      seti ip (fun x => set_i_addrs (<[Z.to_nat bn := addr]> (i_addrs x)) x) ;;;
      ret addr
    else ret addr
  else
  let bn := bn - NDIRECT in
  if bn <? NINDIRECT then
    let* addr := geti ip (fun x => i_addrs x !!! ndirect) in
    let* addr := (if addr =? 0 then
        let* addr := balloc dev in
        seti ip (fun x => set_i_addrs (<[ndirect := addr]> (i_addrs x)) x) ;;;
        ret addr
      else ret addr) in
    let* bp := bread dev addr in
    let* d := getb bp b_data in
    let addr := get32 d (Z.to_nat (4 * bn)) in
    let* addr := (if addr =? 0 then
        let* addr := balloc dev in
        edit bp (put32 (Z.to_nat (4 * bn)) addr) ;;;
        log_write bp ;;;
        ret addr
      else ret addr) in
    brelse bp ;;;
    ret addr
  else panic "bmap: out of range".

Fixpoint itrunc_direct (n i ip : nat) : M kstate unit :=
  match n with
  | O => ret tt
  | S n =>
      let* a := geti ip (fun x => i_addrs x !!! i) in
      when (negb (a =? 0)) (
        let* dev := geti ip i_dev in
        bfree dev a ;;;
        seti ip (fun x => set_i_addrs (<[i := 0]> (i_addrs x)) x)) ;;;
      itrunc_direct n (S i) ip
  end.
Fixpoint itrunc_indirect (n j ip bp : nat) : M kstate unit :=
  match n with
  | O => ret tt
  | S n =>
      let* d := getb bp b_data in
      let a := get32 d (4 * j) in
      when (negb (a =? 0)) (
        let* dev := geti ip i_dev in
        bfree dev a) ;;;
      itrunc_indirect n (S j) ip bp
  end.
Definition itrunc (ip : nat) : M kstate unit :=
  itrunc_direct ndirect 0 ip ;;;
  let* a := geti ip (fun x => i_addrs x !!! ndirect) in
  when (negb (a =? 0)) (
    let* dev := geti ip i_dev in
    let* bp := bread dev a in
    itrunc_indirect (Z.to_nat NINDIRECT) 0 ip bp ;;;
    brelse bp ;;;
    let* a := geti ip (fun x => i_addrs x !!! ndirect) in
    bfree dev a ;;;
    seti ip (fun x => set_i_addrs (<[ndirect := 0]> (i_addrs x)) x)) ;;;
  seti ip (set_i_size 0) ;;;
  iupdate ip.

Definition iput (ip : nat) : M kstate unit :=
  acquiresleep (SlInode ip) ;;;
  let* v := geti ip i_valid in
  let* nl := geti ip i_nlink in
  when (negb (v =? 0) && (nl =? 0)) (
    kacquire LIcache ;;;
    let* r := geti ip i_ref in
    krelease LIcache ;;;
    when (r =? 1) (
      itrunc ip ;;;
      seti ip (set_i_type 0) ;;;
      iupdate ip ;;;
      seti ip (set_i_valid 0))) ;;;
  releasesleep (SlInode ip) ;;;
  kacquire LIcache ;;;
  seti ip (fun x => set_i_ref (s32 (i_ref x - 1)) x) ;;;
  krelease LIcache.

Definition iunlockput (ip : nat) : M kstate unit :=
  iunlock ip ;;;
  iput ip.

(** stat.h *)
Record stat : Type := MkStat { st_type : Z; st_dev : Z; st_ino : Z; st_nlink : Z; st_size : Z }.
Definition stati (ip : nat) : M kstate stat :=
  let* x := gets (fun s => icache s !!! ip) in
  ret (MkStat (i_type x) (s32 (i_dev x)) (i_inum x) (i_nlink x) (i_size x)).

(** The bytes read so far are [acc]. *)
Fixpoint readi_loop (f : nat) (ip : nat) (off n tot : Z) (acc : list Z) : M kstate (list Z) :=
  match f with
  | O => nofuel
  | S f =>
      if negb (tot <? n) then ret acc else
      let* dev := geti ip i_dev in
      let* a := bmap ip (off / BSIZE) in
      let* bp := bread dev a in
      let m := Z.min (n - tot) (BSIZE - off mod BSIZE) in
      let* d := getb bp b_data in
      brelse bp ;;;
      readi_loop f ip (u32 (off + m)) n (tot + m) (acc ++ blk_read (Z.to_nat (off mod BSIZE)) (Z.to_nat m) d)
  end.
(** Iterations of a transfer of [n] bytes: the first may be cut short. *)
Definition rw_fuel (n : Z) : nat := S (S (S (Z.to_nat (n / BSIZE)))).

Definition readi (ip : nat) (off n : Z) : M kstate (option (list Z)) :=
  let* x := gets (fun s => icache s !!! ip) in
  if i_type x =? T_DEV then
    if (i_major x <? 0) || (NDEV <=? i_major x) then ret None else
    match dev_read (i_major x) with
    | None => ret None
    | Some read => read ip n
    end
  else
  if (i_size x <? off) || (u32 (off + n) <? off) then ret None else
  let n := if i_size x <? u32 (off + n) then u32 (i_size x - off) else n in
  let* l := readi_loop (rw_fuel n) ip off n 0 [] in
  ret (Some l).

(** Returns the offset after the last byte written. *)
Fixpoint writei_loop (f : nat) (ip : nat) (off n tot : Z) (src : list Z) : M kstate Z :=
  match f with
  | O => nofuel
  | S f =>
      if negb (tot <? n) then ret off else
      let* dev := geti ip i_dev in
      let* a := bmap ip (off / BSIZE) in
      let* bp := bread dev a in
      let m := Z.min (n - tot) (BSIZE - off mod BSIZE) in
      edit bp (blk_write (Z.to_nat (off mod BSIZE)) (take (Z.to_nat m) src)) ;;;
      log_write bp ;;;
      brelse bp ;;;
      writei_loop f ip (u32 (off + m)) n (tot + m) (drop (Z.to_nat m) src)
  end.

Definition writei (ip : nat) (src : list Z) (off : Z) : M kstate Z :=
  let n := Z.of_nat (length src) in
  let* x := gets (fun s => icache s !!! ip) in
  if i_type x =? T_DEV then
    if (i_major x <? 0) || (NDEV <=? i_major x) then ret (-1) else
    match dev_write (i_major x) with
    | None => ret (-1)
    | Some write => write ip src
    end
  else
  if (i_size x <? off) || (u32 (off + n) <? off) then ret (-1) else
  if MAXFILE * BSIZE <? u32 (off + n) then ret (-1) else
  let* off := writei_loop (rw_fuel n) ip off n 0 src in
  let* size := geti ip i_size in
  when ((0 <? n) && (size <? off)) (
    seti ip (set_i_size off) ;;;
    iupdate ip) ;;;
  ret n.

(** ** Directories *)

(** Two byte arrays in memory, at 0 and at 2^16. *)
Definition two_arrays (s t : list Z) : bmem := fun a =>
  if a <? 2 ^ 16 then byte_at s (Z.to_nat a) else byte_at t (Z.to_nat (a - 2 ^ 16)).
Definition namecmp (s t : list Z) : Z := strncmp 0 (2 ^ 16) DIRSIZ (two_arrays s t).

(** [struct dirent]: the inode number and the name. *)
Definition de_size : Z := 16.
Definition de_inum (de : list Z) : Z := get16 de 0.
Definition de_name (de : list Z) : list Z := drop 2 de.

(** The entry's inode and its offset. *)
Fixpoint dirlookup_loop (f : nat) (dp : nat) (name : list Z) (off : Z) : M kstate (option (nat * Z)) :=
  match f with
  | O => nofuel
  | S f =>
      let* size := geti dp i_size in
      if negb (off <? size) then ret None else
      let* r := readi dp off de_size in
      match r with
      | Some de =>
          if negb (Z.of_nat (length de) =? de_size) then panic "dirlookup read" else
          if de_inum de =? 0 then dirlookup_loop f dp name (u32 (off + de_size)) else
          if namecmp name (de_name de) =? 0 then
            let* dev := geti dp i_dev in
            let* ip := iget dev (de_inum de) in
            ret (Some (ip, off))
          else dirlookup_loop f dp name (u32 (off + de_size))
      | None => panic "dirlookup read"
      end
  end.
(** Iterations over a directory of [size] bytes. *)
Definition dir_fuel (size : Z) : nat := S (S (Z.to_nat (size / de_size))).

Definition dirlookup (dp : nat) (name : list Z) : M kstate (option (nat * Z)) :=
  let* t := geti dp i_type in
  if negb (t =? T_DIR) then panic "dirlookup not DIR" else
  let* size := geti dp i_size in
  dirlookup_loop (dir_fuel size) dp name 0.

(** The offset of the first unused entry, or the end of the directory. *)
Fixpoint dirlink_loop (f : nat) (dp : nat) (off : Z) : M kstate Z :=
  match f with
  | O => nofuel
  | S f =>
      let* size := geti dp i_size in
      if negb (u32 off <? size) then ret off else
      let* r := readi dp (u32 off) de_size in
      match r with
      | Some de =>
          if negb (Z.of_nat (length de) =? de_size) then panic "dirlink read" else
          if de_inum de =? 0 then ret off else dirlink_loop f dp (s32 (off + de_size))
      | None => panic "dirlink read"
      end
  end.

(** The name as [strncpy] stores it: cut at [DIRSIZ], or padded with NULs. *)
Definition de_make (inum : Z) (name : list Z) : list Z :=
  let m := strncpy 0 (2 ^ 16) DIRSIZ (two_arrays [] name) in
  put16 0 inum (replicate 2 0) ++ map (fun k => m (Z.of_nat k)) (seq 0 (Z.to_nat DIRSIZ)).

Definition dirlink (dp : nat) (name : list Z) (inum : Z) : M kstate Z :=
  let* r := dirlookup dp name in
  match r with
  | Some (ip, _) => iput ip ;;; ret (-1)
  | None =>
      let* size := geti dp i_size in
      let* off := dirlink_loop (dir_fuel size) dp 0 in
      let* n := writei dp (de_make inum name) (u32 off) in
      if negb (n =? de_size) then panic "dirlink" else
      ret 0
  end.

End fs.

(** ** Paths *)

(** '/' is 47.  A path is the bytes before its NUL. *)
Definition slash : Z := 47.
Fixpoint skip_slashes (path : list Z) : list Z :=
  match path with
  | c :: rest => if c =? slash then skip_slashes rest else path
  | [] => []
  end.
(** The first element and what follows it. *)
Fixpoint take_elem (path : list Z) : list Z * list Z :=
  match path with
  | c :: rest => if c =? slash then ([], path) else let (s, r) := take_elem rest in (c :: s, r)
  | [] => ([], [])
  end.

(** [name] is the caller's buffer of [DIRSIZ] bytes; an element of [DIRSIZ] bytes
    or more is cut and gets no NUL. *)
Definition skipelem (path name : list Z) : option (list Z * list Z) :=
  let path := skip_slashes path in
  match path with
  | [] => None
  | _ =>
      let (s, path) := take_elem path in
      let len := Z.of_nat (length s) in
      let name := if DIRSIZ <=? len then take (Z.to_nat DIRSIZ) s
                  else <[length s := 0]> (blk_write 0 s name) in
      Some (skip_slashes path, name)
  end.

Section names.
Context {FU : Fuel} {BD : BlockDevice} {DV : DevSw}.

(** Each element takes at least one byte of the path. *)
Fixpoint namex_loop (f : nat) (ip : nat) (path name : list Z) (nameiparent : bool) : M kstate (option nat * list Z) :=
  match f with
  | O => nofuel
  | S f =>
      match skipelem path name with
      | Some (path, name) =>
          ilock ip ;;;
          let* t := geti ip i_type in
          if negb (t =? T_DIR) then iunlockput ip ;;; ret (None, name) else
          if nameiparent && bool_decide (path = []) then iunlock ip ;;; ret (Some ip, name) else
          let* r := dirlookup ip name in
          match r with
          | None => iunlockput ip ;;; ret (None, name)
          | Some (next, _) => iunlockput ip ;;; namex_loop f next path name nameiparent
          end
      | None =>
          if nameiparent then iput ip ;;; ret (None, name) else ret (Some ip, name)
      end
  end.

(** The inode, and the buffer [name] as it is left. *)
Definition namex (path : list Z) (nameiparent : bool) (name : list Z) : M kstate (option nat * list Z) :=
  let* ip := (if match path with c :: _ => c =? slash | [] => false end then iget ROOTDEV ROOTINO
    else
      let* p := kcurproc in
      let* cwd := proc_op (getp p p_cwd) in
      match cwd with
      | Some ip => idup ip
      | None => panic "null pointer"
      end) in
  namex_loop (S (length path)) ip path name nameiparent.

(** A path looked up for its inode only needs some buffer for the elements. *)
Definition namei (path : list Z) : M kstate (option nat) :=
  let* r := namex path false (replicate (Z.to_nat DIRSIZ) 0) in
  ret r.1.
Definition nameiparent (path name : list Z) : M kstate (option nat * list Z) := namex path true name.

End names.
