(* ===== verification/File.v ===== *)
(** * Open files and pipes (file.c, pipe.c)

    The table of open files, with reference counts, and the pipes, each in a page
    of its own.  A [struct file] pointer is an index of the table, a [struct pipe]
    pointer the address of its page. *)

From S2P Require Import Prelude Bytes Monad Machine Kalloc ProcDefs Proc KernDefs Sleeplock Bio Log Fs.

Definition PIPESIZE : Z := 512.
Definition pipe0 : pipe := MkPipe (replicate (Z.to_nat PIPESIZE) 1) 0 0 0 0.
#[export] Instance pipe_inhabited : Inhabited pipe := populate pipe0.

Definition getpipe {A} (p : Z) (f : pipe -> A) : M kstate A := gets (fun s => f (pipes s !!! p)).
Definition setpipe (p : Z) (f : pipe -> pipe) : M kstate unit := modify (fun s => put_pipes (alter f p (pipes s)) s).

Section file.
Context {FU : Fuel} {BD : BlockDevice} {DV : DevSw} {KI : KernelImage}.

Definition kkalloc : M kstate Z := proc_op (mem_op kalloc).
Definition kkfree (a : Z) : M kstate unit := proc_op (mem_op (kfree a)).
Definition killed : M kstate bool := let* p := kcurproc in let* k := proc_op (getp p p_killed) in ret (negb (k =? 0)).

(** ** Files *)

Fixpoint filealloc_loop (n f : nat) : M kstate (option nat) :=
  match n with
  | O => krelease LFtable ;;; ret None
  | S n =>
      let* r := getf f f_ref in
      if r =? 0 then
        setf f (set_f_ref 1) ;;;
        krelease LFtable ;;;
        ret (Some f)
      else filealloc_loop n (S f)
  end.
Definition filealloc : M kstate (option nat) :=
  kacquire LFtable ;;;
  filealloc_loop nfile 0.

Definition filedup (f : nat) : M kstate nat :=
  kacquire LFtable ;;;
  let* r := getf f f_ref in
  if r <? 1 then panic "filedup" else
  setf f (fun x => set_f_ref (s32 (f_ref x + 1)) x) ;;;
  krelease LFtable ;;;
  ret f.

(** ** Pipes *)

Definition pipeclose (p : Z) (writable : Z) : M kstate unit :=
  kacquire (LPipe p) ;;;
  (if negb (writable =? 0) then
     setpipe p (set_p_writeopen 0) ;;;
     proc_op (wakeup (ChPipeR p))
   else
     setpipe p (set_p_readopen 0) ;;;
     proc_op (wakeup (ChPipeW p))) ;;;
  let* x := gets (fun s => pipes s !!! p) in
  if (p_readopen x =? 0) && (p_writeopen x =? 0) then
    krelease (LPipe p) ;;;
    modify (fun s => put_pipes (delete p (pipes s)) s) ;;;
    kkfree p
  else krelease (LPipe p).

Definition fileclose (f : nat) : M kstate unit :=
  kacquire LFtable ;;;
  let* r := getf f f_ref in
  if r <? 1 then panic "fileclose" else
  setf f (fun x => set_f_ref (f_ref x - 1) x) ;;;
  let* r := getf f f_ref in
  if 0 <? r then krelease LFtable else
  let* ff := gets (fun s => ftable s !!! f) in
  setf f (set_f_ref 0) ;;;
  setf f (set_f_type FD_NONE) ;;;
  krelease LFtable ;;;
  match f_type ff with
  | FD_PIPE => pipeclose (f_pipe ff) (f_writable ff)
  | FD_INODE =>
      begin_op ;;;
      match f_ip ff with Some ip => iput ip | None => panic "null pointer" end ;;;
      end_op
  | FD_NONE => ret tt
  end.

(** A page holds what the allocator left in it: bytes of 1. *)
Definition pipealloc : M kstate (option (nat * nat)) :=
  let* f0 := filealloc in
  match f0 with
  | None => ret None
  | Some a =>
      let* f1 := filealloc in
      match f1 with
      | None => fileclose a ;;; ret None
      | Some b =>
          let* p := kkalloc in
          if p =? 0 then fileclose a ;;; fileclose b ;;; ret None else
          modify (fun s => put_pipes (<[p := pipe0]> (pipes s)) s) ;;;
          setpipe p (set_p_readopen 1) ;;;
          setpipe p (set_p_writeopen 1) ;;;
          setpipe p (set_p_nwrite 0) ;;;
          setpipe p (set_p_nread 0) ;;;
          setf a (set_f_type FD_PIPE) ;;;
          setf a (set_f_readable 1) ;;;
          setf a (set_f_writable 0) ;;;
          setf a (set_f_pipe p) ;;;
          setf b (set_f_type FD_PIPE) ;;;
          setf b (set_f_readable 0) ;;;
          setf b (set_f_writable 1) ;;;
          setf b (set_f_pipe p) ;;;
          ret (Some (a, b))
      end
  end.

(** [false] when the write is given up. *)
Fixpoint pipewrite_wait (n : nat) (p : Z) : M kstate bool :=
  match n with
  | O => nofuel
  | S n =>
      let* x := gets (fun s => pipes s !!! p) in
      if p_nwrite x =? u32 (p_nread x + PIPESIZE) then
        let* k := (if p_readopen x =? 0 then ret true else killed) in
        if k then krelease (LPipe p) ;;; ret false else
        proc_op (wakeup (ChPipeR p)) ;;;
        proc_op (sleep (ChPipeW p) (LPipe p)) ;;;
        pipewrite_wait n p
      else ret true
  end.
Fixpoint pipewrite_loop (addr : list Z) (p : Z) : M kstate bool :=
  match addr with
  | [] => ret true
  | c :: addr =>
      let* ok := pipewrite_wait (S fuel) p in
      if negb ok then ret false else
      setpipe p (fun x => set_p_nwrite (u32 (p_nwrite x + 1)) (set_p_data (<[Z.to_nat (p_nwrite x mod PIPESIZE) := c]> (p_data x)) x)) ;;;
      pipewrite_loop addr p
  end.
Definition pipewrite (p : Z) (addr : list Z) : M kstate Z :=
  kacquire (LPipe p) ;;;
  let* ok := pipewrite_loop addr p in
  if negb ok then ret (-1) else
  proc_op (wakeup (ChPipeR p)) ;;;
  krelease (LPipe p) ;;;
  ret (Z.of_nat (length addr)).

Fixpoint piperead_wait (n : nat) (p : Z) : M kstate bool :=
  match n with
  | O => nofuel
  | S n =>
      let* x := gets (fun s => pipes s !!! p) in
      if (p_nread x =? p_nwrite x) && negb (p_writeopen x =? 0) then
        let* k := killed in
        if k then krelease (LPipe p) ;;; ret false else
        proc_op (sleep (ChPipeR p) (LPipe p)) ;;;
        piperead_wait n p
      else ret true
  end.
Fixpoint piperead_loop (n : nat) (p : Z) (acc : list Z) : M kstate (list Z) :=
  match n with
  | O => ret acc
  | S n =>
      let* x := gets (fun s => pipes s !!! p) in
      if p_nread x =? p_nwrite x then ret acc else
      setpipe p (fun x => set_p_nread (u32 (p_nread x + 1)) x) ;;;
      piperead_loop n p (acc ++ [p_data x !!! Z.to_nat (p_nread x mod PIPESIZE)])
  end.
(** The bytes stored at [addr], at most [n]; [None] is -1. *)
Definition piperead (p n : Z) : M kstate (option (list Z)) :=
  kacquire (LPipe p) ;;;
  let* ok := piperead_wait (S fuel) p in
  if negb ok then ret None else
  let* l := piperead_loop (Z.to_nat n) p [] in
  proc_op (wakeup (ChPipeW p)) ;;;
  krelease (LPipe p) ;;;
  ret (Some l).

(** ** Reading and writing *)

Definition deref (o : option nat) : M kstate nat := match o with Some i => ret i | None => panic "null pointer" end.

Definition filestat (f : nat) : M kstate (option stat) :=
  let* x := gets (fun s => ftable s !!! f) in
  match f_type x with
  | FD_INODE =>
      let* ip := deref (f_ip x) in
      ilock ip ;;;
      let* st := stati ip in
      iunlock ip ;;;
      ret (Some st)
  | _ => ret None
  end.

Definition fileread (f : nat) (n : Z) : M kstate (option (list Z)) :=
  let* x := gets (fun s => ftable s !!! f) in
  if f_readable x =? 0 then ret None else
  match f_type x with
  | FD_PIPE => piperead (f_pipe x) n
  | FD_INODE =>
      let* ip := deref (f_ip x) in
      ilock ip ;;;
      let* off := getf f f_off in
      let* r := readi ip off (u32 n) in
      match r with
      | Some l => when (0 <? Z.of_nat (length l)) (setf f (fun x => set_f_off (u32 (f_off x + Z.of_nat (length l))) x))
      | None => ret tt
      end ;;;
      iunlock ip ;;;
      ret r
  | FD_NONE => panic "fileread"
  end.

(** The most bytes written in one transaction. *)
Definition fw_max : Z := (MAXOPBLOCKS - 1 - 1 - 2) / 2 * 512.

(** Returns the number of bytes written when the loop ends. *)
Fixpoint filewrite_loop (k : nat) (f : nat) (ip : nat) (addr : list Z) (i : Z) : M kstate Z :=
  match k with
  | O => nofuel
  | S k =>
      let n := Z.of_nat (length addr) in
      if negb (i <? n) then ret i else
      let n1 := Z.min (n - i) fw_max in
      begin_op ;;;
      ilock ip ;;;
      let* off := getf f f_off in
      let* r := writei ip (take (Z.to_nat n1) (drop (Z.to_nat i) addr)) off in
      when (0 <? r) (setf f (fun x => set_f_off (u32 (f_off x + r)) x)) ;;;
      iunlock ip ;;;
      end_op ;;;
      if r <? 0 then ret i else
      if negb (r =? n1) then panic "short filewrite" else
      filewrite_loop k f ip addr (i + r)
  end.

Definition filewrite (f : nat) (addr : list Z) : M kstate Z :=
  let n := Z.of_nat (length addr) in
  let* x := gets (fun s => ftable s !!! f) in
  if f_writable x =? 0 then ret (-1) else
  match f_type x with
  | FD_PIPE => pipewrite (f_pipe x) addr
  | FD_INODE =>
      let* ip := deref (f_ip x) in
      let* i := filewrite_loop (S (S (Z.to_nat (n / fw_max)))) f ip addr 0 in
      ret (if i =? n then n else -1)
  | FD_NONE => panic "filewrite"
  end.

End file.
