(* ===== verification/Fork.v ===== *)
(** * Creating and ending processes (proc.c: userinit, fork, clone, exit, forkret)

    The part of proc.c that also needs files and inodes. *)

From S2P Require Import Prelude Strings Bytes Monad Machine Kalloc Vm VmUser ProcDefs RunQueue Proc KernDefs Sleeplock Bio Log Fs File.

(** mmu.h *)
Abbreviation SEG_KCODE := (1)%Z.
Abbreviation SEG_UCODE := (3)%Z.
Abbreviation SEG_UDATA := (4)%Z.
Abbreviation DPL_USER := (0x3)%Z.
Abbreviation FL_IF := (0x00000200)%Z.

Definition nofile : nat := Z.to_nat NOFILE.

(** [safestrcpy(dst, name, 16)], [name] being the bytes before the NUL. *)
Definition copy_name (name : list Z) : list Z := name_of 16 0 (safestrcpy 0 (2 ^ 16) 16 (two_arrays [] name)).

Section user_memory.
Context {KI : KernelImage}.

(** ** The kernel's access to user memory

    The address space is the current process's; an unaligned word is read and
    written byte by byte. *)
Definition cur_space : M kstate (Z * Z) :=
  let* p := kcurproc in
  let* pg := proc_op (getp p p_pgdir) in
  let* sz := proc_op (getp p p_sz) in
  ret (pg, sz).

Definition uload8 (va : Z) : M kstate Z :=
  let* sp := cur_space in
  let* w := proc_op (mem_op (kern_load sp va)) in
  ret (Z.land (Z.shiftr w (8 * (va mod 4))) 0xFF).
Definition ustore8 (va b : Z) : M kstate unit :=
  let* sp := cur_space in
  let* r := proc_op (mem_op (access false 2 sp va true (fun f =>
    modify (fun s => set_mem (<[f := put_byte (page_of (mem s) f) (va mod 4096) b]> (mem s)) s)))) in
  match r with Some _ => ret tt | None => panic "kernel page fault" end.

Definition uload32 (va : Z) : M kstate Z :=
  let* a := uload8 va in
  let* b := uload8 (u32 (va + 1)) in
  let* c := uload8 (u32 (va + 2)) in
  let* d := uload8 (u32 (va + 3)) in
  ret (a + 2 ^ 8 * b + 2 ^ 16 * c + 2 ^ 24 * d).
Fixpoint ustore (va : Z) (bs : list Z) : M kstate unit :=
  match bs with
  | [] => ret tt
  | b :: bs => ustore8 va b ;;; ustore (u32 (va + 1)) bs
  end.
Definition ustore32 (va w : Z) : M kstate unit := ustore va (put32 0 w (replicate 4 0)).
Fixpoint uload (va : Z) (n : nat) : M kstate (list Z) :=
  match n with
  | O => ret []
  | S n =>
      let* b := uload8 va in
      let* bs := uload (u32 (va + 1)) n in
      ret (b :: bs)
  end.

End user_memory.

Section fork.
Context {FU : Fuel} {BD : BlockDevice} {DV : DevSw} {KI : KernelImage}.

Definition setproc (p : nat) (f : proc -> proc) : M kstate unit := proc_op (setp p f).
Definition getproc {A} (p : nat) (f : proc -> A) : M kstate A := proc_op (getp p f).

(** The state and the queue, under [ptable.lock]. *)
Definition start_proc (p : nat) : M kstate unit :=
  kacquire LPtable ;;;
  setproc p (set_state RUNNABLE) ;;;
  proc_op (let* c := least_loaded_cpu in rq_push c p) ;;;
  krelease LPtable.

(** [_binary_initcode_start] is what the linker embeds. *)
Definition userinit (initcode : list Z) : M kstate unit :=
  let* r := proc_op allocproc in
  match r with
  | None => panic "null pointer"
  | Some p =>
      proc_op (modify (put_initproc (Some p))) ;;;
      let* pg := proc_op (mem_op setupkvm) in
      setproc p (set_pgdir pg) ;;;
      if pg =? 0 then panic "userinit: out of memory?" else
      proc_op (mem_op (inituvm pg initcode)) ;;;
      setproc p (set_sz PGSIZE) ;;;
      setproc p (set_tf tf_zero) ;;;
      let cs := Z.lor (Z.shiftl SEG_UCODE 3) DPL_USER in
      let ds := Z.lor (Z.shiftl SEG_UDATA 3) DPL_USER in
      setproc p (fun x => set_tf (set_eip 0 (set_esp PGSIZE (set_eflags FL_IF (set_ss ds (set_es ds (set_ds ds (set_cs cs (p_tf x)))))))) x) ;;;
      setproc p (set_name (copy_name [105; 110; 105; 116; 99; 111; 100; 101])) ;;;
      let* cwd := namei [slash] in
      setproc p (set_cwd cwd) ;;;
      start_proc p
  end.

Fixpoint dup_files (n fd cur np : nat) : M kstate unit :=
  match n with
  | O => ret tt
  | S n =>
      let* f := getproc cur (fun x => p_ofile x !!! fd) in
      match f with
      | Some f =>
          let* f := filedup f in
          setproc np (fun x => set_ofile (<[fd := Some f]> (p_ofile x)) x)
      | None => ret tt
      end ;;;
      dup_files n (S fd) cur np
  end.

(** The last steps [fork] and [clone] share. *)
Definition inherit (cur np : nat) : M kstate Z :=
  dup_files nofile 0 cur np ;;;
  let* cwd := getproc cur p_cwd in
  let* cwd := deref cwd in
  let* cwd := idup cwd in
  setproc np (set_cwd (Some cwd)) ;;;
  let* name := getproc cur p_name in
  setproc np (set_name (copy_name name)) ;;;
  let* pid := getproc np p_pid in
  start_proc np ;;;
  ret pid.

(** [fork] once slot [np] is allocated. *)
Definition fork_slot (cur np : nat) : M kstate Z :=
  let* pg := getproc cur p_pgdir in
  let* sz := getproc cur p_sz in
  let* npg := proc_op (mem_op (cowuvm pg sz)) in
  setproc np (set_pgdir npg) ;;;
  if npg =? 0 then
    let* ks := getproc np p_kstack in
    proc_op (mem_op (kfree ks)) ;;;
    setproc np (set_kstack 0) ;;;
    setproc np (set_state UNUSED) ;;;
    ret (-1)
  else
  let* sz := getproc cur p_sz in
  setproc np (set_sz sz) ;;;
  setproc np (set_parent (Some cur)) ;;;
  let* bp := getproc cur p_base_prio in
  setproc np (set_base_prio bp) ;;;
  setproc np (fun x => set_prio (p_base_prio x) x) ;;;
  let* tf := getproc cur p_tf in
  setproc np (set_tf tf) ;;;
  setproc np (fun x => set_tf (set_eax 0 (p_tf x)) x) ;;;
  inherit cur np.

Definition fork : M kstate Z :=
  let* cur := kcurproc in
  let* sh := proc_op addrspace_shared in
  if sh then ret (-1) else
  let* r := proc_op allocproc in
  match r with
  | None => ret (-1)
  | Some np => fork_slot cur np
  end.

Definition clone (fn arg stack : Z) : M kstate Z :=
  let* cur := kcurproc in
  let* sz := getproc cur p_sz in
  if negb (stack mod PGSIZE =? 0) then ret (-1) else
  if (sz <=? stack) || (sz <? u32 (stack + PGSIZE)) then ret (-1) else
  let* r := proc_op allocproc in
  match r with
  | None => ret (-1)
  | Some np =>
      let* pg := getproc cur p_pgdir in
      setproc np (set_pgdir pg) ;;;
      let* sz := getproc cur p_sz in
      setproc np (set_sz sz) ;;;
      setproc np (set_parent (Some cur)) ;;;
      setproc np (set_isthread 1) ;;;
      setproc np (set_ustack stack) ;;;
      let* bp := getproc cur p_base_prio in
      setproc np (set_base_prio bp) ;;;
      setproc np (fun x => set_prio (p_base_prio x) x) ;;;
      let* tf := getproc cur p_tf in
      setproc np (set_tf tf) ;;;
      let sp := u32 (stack + PGSIZE) in
      let sp := u32 (sp - 4) in
      ustore32 sp arg ;;;
      let sp := u32 (sp - 4) in
      ustore32 sp 0xffffffff ;;;
      setproc np (fun x => set_tf (set_eip fn (p_tf x)) x) ;;;
      setproc np (fun x => set_tf (set_esp sp (p_tf x)) x) ;;;
      setproc np (fun x => set_tf (set_eax 0 (p_tf x)) x) ;;;
      inherit cur np
  end.

Fixpoint close_files (n fd cur : nat) : M kstate unit :=
  match n with
  | O => ret tt
  | S n =>
      let* f := getproc cur (fun x => p_ofile x !!! fd) in
      match f with
      | Some f =>
          fileclose f ;;;
          setproc cur (fun x => set_ofile (<[fd := None]> (p_ofile x)) x)
      | None => ret tt
      end ;;;
      close_files n (S fd) cur
  end.

(** [wakeup1(p)] for a process pointer. *)
Definition wakeup_proc (p : option nat) : M pstate unit :=
  wakeup1 (match p with Some p => ChProc p | None => ChNone end).

Fixpoint reparent (n i cur : nat) : M pstate unit :=
  match n with
  | O => ret tt
  | S n =>
      let* b := getp i (fun x => bool_decide (p_parent x = Some cur)) in
      when b (
        let* ini := gets initproc in
        setp i (set_parent ini) ;;;
        let* z := getp i (fun x => bool_decide (p_state x = ZOMBIE)) in
        when z (wakeup_proc ini)) ;;;
      reparent n (S i) cur
  end.

(** The end of [exit], which runs with [ptable.lock] held and never returns. *)
Definition exit_locked (cur : nat) : M pstate unit :=
  let* parent := getp cur p_parent in
  wakeup_proc parent ;;;
  reparent nproc 0 cur ;;;
  setp cur (set_state ZOMBIE) ;;;
  sched ;;;
  panic "zombie exit".

Definition exit : M kstate unit :=
  let* cur := kcurproc in
  let* ini := proc_op (gets initproc) in
  if bool_decide (ini = Some cur) then panic "init exiting" else
  close_files nofile 0 cur ;;;
  begin_op ;;;
  let* cwd := getproc cur p_cwd in
  let* cwd := deref cwd in
  iput cwd ;;;
  end_op ;;;
  setproc cur (set_cwd None) ;;;
  kacquire LPtable ;;;
  proc_op (exit_locked cur).

(** [first]: the function's static variable; its new value is returned. *)
Definition forkret (first : bool) : M kstate bool :=
  krelease LPtable ;;;
  when first (
    iinit ROOTDEV ;;;
    initlog ROOTDEV) ;;;
  ret false.

End fork.
