(* ===== verification/ForkInv.v ===== *)
(** * fork

    The child [fork] creates: a copy of the caller's memory, its registers with 0
    as the result, the same open files and directory with their reference counts
    raised, queued on a least loaded CPU.  When [fork] fails, nothing of the attempt
    is left behind. *)

From S2P Require Import Prelude Bytes Monad Machine Kalloc Vm VmInv VmOps VmFree VmKern VmFault VmCow VmUser.
From S2P Require Import ProcDefs RunQueue Proc ProcInv KernDefs Sleeplock Bio Log Fs File Fork Demo DemoProc DemoKern.

(** ** Access to the process table *)

Definition proc_at (s : kstate) (p : nat) : proc := procs (kp s) !!! p.
Definition upd_proc (p : nat) (f : proc -> proc) (s : kstate) : kstate :=
  put_kp (put_procs (alter f p (procs (kp s))) (kp s)) s.

Lemma setproc_wp p f (R : unit -> kstate -> Prop) s : R tt (upd_proc p f s) -> wp (setproc p f) R s.
Proof. intros HR. by apply wp_zoom, wp_modify. Qed.

Lemma getproc_wp {A} p (f : proc -> A) (R : A -> kstate -> Prop) s : R (f (proc_at s p)) s -> wp (getproc p f) R s.
Proof. intros HR. apply wp_zoom, wp_gets. by destruct s. Qed.

Lemma upd_proc_compose p f g s : upd_proc p f (upd_proc p g s) = upd_proc p (fun x => f (g x)) s.
Proof. unfold upd_proc. cbn. by rewrite alter_alter_compose. Qed.

Lemma proc_at_upd p f s : (p < length (procs (kp s)))%nat -> proc_at (upd_proc p f s) p = f (proc_at s p).
Proof. intros Hp. by apply alter_same. Qed.

Lemma proc_at_upd_ne p q f s : p <> q -> proc_at (upd_proc p f s) q = proc_at s q.
Proof. intros Hne. unfold proc_at, upd_proc. cbn. by rewrite list_lookup_total_alter_ne. Qed.

(** ** Open files *)

Definition dup_ref (x : file) : file := set_f_ref (s32 (f_ref x + 1)) x.

Lemma filedup_wp f (R : nat -> kstate -> Prop) s :
  LFtable ∉ held (pm (kp s)) -> 1 <= f_ref (ftable s !!! f) ->
  R f (put_ftable (alter dup_ref f (ftable s)) s) -> wp (filedup f) R s.
Proof.
  intros Hl Hr HR. apply wp_bind, kacquire_plain; [done|]. apply wp_bind, wp_gets.
  change (ftable (klocked LFtable s)) with (ftable s). rewrite (proj2 (Z.ltb_ge _ _)) by lia.
  apply wp_bind, wp_modify, wp_bind. apply (krelease_plain LFtable (kp s)); [done|done|]. apply wp_ret.
  by destruct s as [[] ? ? ? ? ? ? ? ? ? ? ?].
Qed.

Definition idup_ref (x : inode) : inode := set_i_ref (s32 (i_ref x + 1)) x.

Lemma idup_wp ip (R : nat -> kstate -> Prop) s :
  LIcache ∉ held (pm (kp s)) -> R ip (put_icache (alter idup_ref ip (icache s)) s) -> wp (idup ip) R s.
Proof.
  intros Hl HR. apply wp_bind, kacquire_plain; [done|]. apply wp_bind, wp_modify, wp_bind.
  apply (krelease_plain LIcache (kp s)); [done|done|]. apply wp_ret.
  by destruct s as [[] ? ? ? ? ? ? ? ? ? ? ?].
Qed.

Fixpoint dup_refs (fs : list (option nat)) (ft : list file) : list file :=
  match fs with
  | [] => ft
  | Some f :: fs => dup_refs fs (alter dup_ref f ft)
  | None :: fs => dup_refs fs ft
  end.

(** Descriptors [fd] to [fd + n] of [fs] entered in [l]. *)
Fixpoint overlay (n fd : nat) (fs l : list (option nat)) : list (option nat) :=
  match n with
  | O => l
  | S n => overlay n (S fd) fs (match fs !!! fd with Some f => <[fd := Some f]> l | None => l end)
  end.

(** Files that can be duplicated [n] times. *)
Definition dupable (n : Z) (fs : list (option nat)) (ft : list file) : Prop :=
  forall f, Some f ∈ fs -> 1 <= f_ref (ft !!! f) < 2 ^ 31 - n.

Lemma dup_ref_at f g (ft : list file) : 1 <= f_ref (ft !!! f) < 2 ^ 31 - 1 ->
  alter dup_ref f ft !!! g = set_f_ref (f_ref (ft !!! g) + (if decide (g = f) then 1 else 0)) (ft !!! g).
Proof.
  intros Hf. assert (f < length ft)%nat as Hlt.
  { apply Nat.nle_gt. intros Hge. rewrite (list_lookup_total_alt ft f), lookup_ge_None_2 in Hf by done. cbn in Hf. lia. }
  rewrite list_lookup_total_alter. repeat case_decide; try naive_solver.
  - subst g. unfold dup_ref. by rewrite s32_small by lia.
  - rewrite Z.add_0_r. by destruct (ft !!! g).
Qed.

Lemma dupable_step n f fs ft : 0 <= n -> dupable (n + 1) (Some f :: fs) ft -> dupable n fs (alter dup_ref f ft).
Proof.
  intros Hn Hd g Hg. pose proof (Hd f ltac:(set_solver)). pose proof (Hd g ltac:(set_solver)).
  rewrite dup_ref_at by lia. cbn. case_decide; lia.
Qed.

Definition picked (n fd : nat) (fs : list (option nat)) : list (option nat) := (fun i => fs !!! i) <$> seq fd n.

Lemma put_ftable_upd p f x s : put_ftable x (upd_proc p f s) = upd_proc p f (put_ftable x s).
Proof. done. Qed.

Lemma upd_proc_id p f s : (forall x, f x = x) -> upd_proc p f s = s.
Proof.
  intros Hf. unfold upd_proc. assert (alter f p (procs (kp s)) = procs (kp s)) as ->.
  { apply list_eq. intros j. destruct (decide (p = j)) as [->|]; [|by rewrite list_lookup_alter_ne].
    rewrite list_lookup_alter_eq. destruct (procs (kp s) !! j); cbn; by rewrite ?Hf. }
  by destruct s as [[] ? ? ? ? ? ? ? ? ? ? ?].
Qed.

Lemma dup_files_wp n fd cur np fs s (R : unit -> kstate -> Prop) :
  cur <> np -> LFtable ∉ held (pm (kp s)) -> p_ofile (proc_at s cur) = fs ->
  dupable (Z.of_nat n) (picked n fd fs) (ftable s) ->
  R tt (put_ftable (dup_refs (picked n fd fs) (ftable s))
         (upd_proc np (fun x => set_ofile (overlay n fd fs (p_ofile x)) x) s)) ->
  wp (dup_files n fd cur np) R s.
Proof.
  intros Hne Hl Hfs. revert fd s Hl Hfs R. induction n as [|n IH]; intros fd s Hl Hfs R Hd HR; cbn [dup_files].
  { apply wp_ret. cbn [picked seq fmap list_fmap dup_refs overlay] in HR. rewrite upd_proc_id in HR by by intros [].
    by destruct s as [[] ? ? ? ? ? ? ? ? ? ? ?]. }
  apply wp_bind, getproc_wp. rewrite Hfs. cbn [picked seq fmap list_fmap dup_refs overlay] in HR, Hd.
  change (_ <$> seq (S fd) n) with (picked n (S fd) fs) in HR, Hd. rewrite Nat2Z.inj_succ in Hd.
  destruct (fs !!! fd) as [f|] eqn:Ef.
  - apply wp_bind, wp_bind, filedup_wp; [done|by apply Hd; set_solver|]. apply setproc_wp.
    apply IH; [done|by rewrite proc_at_upd_ne|by apply dupable_step; [lia|]|].
    rewrite upd_proc_compose. exact HR.
  - apply wp_bind, wp_ret, IH; [done|done| |exact HR]. intros g Hg. pose proof (Hd g ltac:(set_solver)). lia.
Qed.

Lemma overlay_lookup n fd fs l i : (fd + n <= length l)%nat ->
  overlay n fd fs l !!! i = if decide (fd <= i < fd + n)%nat then match fs !!! i with Some f => Some f | None => l !!! i end else l !!! i.
Proof.
  revert fd l. induction n as [|n IH]; intros fd l Hn; cbn [overlay].
  { by rewrite decide_False by lia. }
  rewrite IH by (destruct (fs !!! fd); rewrite ?length_insert; lia).
  destruct (decide (i = fd)) as [->|Hne].
  - rewrite decide_False, decide_True by lia. destruct (fs !!! fd); [|done]. by rewrite list_lookup_total_insert_eq by lia.
  - assert ((match fs !!! fd with Some f => <[fd:=Some f]> l | None => l end) !!! i = l !!! i) as ->
      by (destruct (fs !!! fd); [by rewrite list_lookup_total_insert_ne|done]).
    repeat case_decide; done || lia.
Qed.

Lemma overlay_length n fd fs l : length (overlay n fd fs l) = length l.
Proof. revert fd l. induction n as [|n IH]; intros fd l; cbn; [done|]. rewrite IH. destruct (fs !!! fd); by rewrite ?length_insert. Qed.

Lemma total_list_eq `{Inhabited A} (l k : list A) :
  length l = length k -> (forall i, (i < length k)%nat -> l !!! i = k !!! i) -> l = k.
Proof.
  intros Hlen Hlk. apply list_eq. intros i. destruct (decide (i < length k)%nat) as [Hi|Hi].
  - rewrite !list_lookup_lookup_total_lt by lia. by rewrite Hlk.
  - by rewrite !lookup_ge_None_2 by lia.
Qed.

(** A process without open files gets those of the caller. *)
Lemma overlay_all fs : length fs = nofile -> overlay nofile 0 fs (replicate nofile None) = fs.
Proof.
  intros Hlen. apply total_list_eq; [by rewrite overlay_length, length_replicate|]. intros i Hi.
  rewrite overlay_lookup by by rewrite length_replicate. rewrite decide_True by lia.
  destruct (fs !!! i); [done|]. apply lookup_total_replicate_2. lia.
Qed.

Lemma picked_all fs : picked (length fs) 0 fs = fs.
Proof.
  apply total_list_eq; unfold picked; [by rewrite length_fmap, length_seq|]. intros i Hi.
  apply list_lookup_total_correct. rewrite list_lookup_fmap, lookup_seq_lt by done. done.
Qed.

(** Every file gains one reference for each descriptor. *)
Lemma dup_refs_at fs ft g : dupable (Z.of_nat (length fs)) fs ft ->
  dup_refs fs ft !!! g =
  set_f_ref (f_ref (ft !!! g) + Z.of_nat (length (filter (fun o => o = Some g) fs))) (ft !!! g).
Proof.
  revert ft. induction fs as [|o fs IH]; intros ft Hd; cbn [dup_refs].
  { cbn. rewrite Z.add_0_r. by destruct (ft !!! g). }
  cbn [length] in Hd. rewrite Nat2Z.inj_succ in Hd. destruct o as [f|].
  - rewrite IH by (apply dupable_step; [lia|done]). pose proof (Hd f ltac:(set_solver)).
    rewrite dup_ref_at by lia. destruct (decide (g = f)) as [->|Hne].
    + rewrite filter_cons_True by done. unfold set_f_ref. cbn [f_ref f_type f_readable f_writable f_pipe f_ip f_off length]. f_equal. lia.
    + rewrite filter_cons_False by congruence. rewrite Z.add_0_r. by destruct (ft !!! g).
  - rewrite filter_cons_False by done. apply IH. intros h Hh. pose proof (Hd h ltac:(set_solver)). lia.
Qed.

(** ** Starting a process *)

Definition least_loaded (Q : queues) (s : pstate) (c : nat) : Prop :=
  (c < ncpu s)%nat /\ forall c', (c' < ncpu s)%nat -> (length (qall Q c) <= length (qall Q c'))%nat.

(** [k'] is [k] with process [p] changed by [f] and queued on a least loaded CPU. *)
Record queued_as (Q : queues) (p : nat) (f : proc -> proc) (k : pstate) (Q' : queues) (k' : pstate) : Prop := {
  qa_inv : sched_inv Q' k';
  qa_frame : rq_frame (map_procs (at_proc p f) k) k';
  qa_queued : forall q, queued Q' q <-> queued Q q \/ q = p;
  qa_cpu : least_loaded Q k (p_rqcpu (procs k' !!! p))
}.

Lemma start_proc_wp Q p s (R : unit -> kstate -> Prop) :
  sched_inv Q (kp s) -> LPtable ∉ held (pm (kp s)) -> (p < nproc)%nat -> p_state (proc_at s p) <> RUNNABLE ->
  p_kstack (proc_at s p) <> 0 -> p_pgdir (proc_at s p) <> 0 ->
  (forall Q' k', queued_as Q p (set_state RUNNABLE) (kp s) Q' k' -> R tt (put_kp k' s)) ->
  wp (start_proc p) R s.
Proof.
  intros Hi Hl Hp Hst Hks Hpg HR. apply wp_bind, kacquire_plain; [done|].
  assert (sched_inv Q (locked LPtable (kp s))) as Hi1 by by apply sched_inv_locked.
  apply wp_bind, setproc_wp, wp_bind, wp_zoom, wp_bind. cbn [kp upd_proc put_kp klocked].
  set (k1 := put_procs _ _). eapply wp_mono; [apply (least_loaded_cpu_min Q k1)|].
  { apply rq_inv_setp; [apply Hi1|]. by apply (not_queued Q (kp s)). }
  { destruct (si_me _ _ Hi) as [? _]. change (0 < ncpu (kp s))%nat. lia. }
  intros c k2 (-> & Hc & Hmin). pose proof (rq_ncpu _ _ (si_rq _ _ Hi)) as Hnc. change (ncpu k1) with (ncpu (kp s)) in *.
  assert (wp (make_runnable c p) (fun _ k => exists Q', queued_as Q p (set_state RUNNABLE) (locked LPtable (kp s)) Q' k)
            (locked LPtable (kp s))) as Hmr.
  { eapply (make_runnable_wp Q); [done|cbn; lia|done..|]. intros Q' k' Hi' Hf _ Hcpu Hq. exists Q'.
    split; [done|done|done|]. rewrite Hcpu. by split. }
  eapply wp_mono; [exact Hmr|]. intros [] k3 [Q' [Hi3 Hf3 Hq3 Hc3]].
  apply (krelease_plain LPtable (kp s)); [apply (rf_pm _ _ Hf3)|done|].
  apply map_frame_locked in Hf3. apply (HR Q' (put_pm (pm (kp s)) k3)). split; [by apply sched_inv_pm|done..].
Qed.

Lemma queued_as_trans Q p f k Q' k' :
  queued_as Q p (set_state RUNNABLE) (put_procs (alter f p (procs k)) k) Q' k' ->
  queued_as Q p (fun x => set_state RUNNABLE (f x)) k Q' k'.
Proof.
  intros [H1 H2 H3 H4]. split; [done| |done|done]. eapply (map_frame_trans _ _ _ _ _ _ (alter_frame p f k) H2).
  - intros i x y E. unfold at_proc. case_decide; [|done]. apply erase_inj in E. by rewrite E.
  - intros i _. unfold at_proc. by case_decide.
Qed.

(** What [fork] and [clone] give the new process last. *)
Definition inherits (x : proc) (ip : nat) (y : proc) : proc :=
  set_name (copy_name (p_name x)) (set_cwd (Some ip) (set_ofile (p_ofile x) y)).

Section inherit.
Context {FU : Fuel} {BD : BlockDevice} {DV : DevSw} {KI : KernelImage}.

Lemma inherit_wp Q cur np ip s (R : Z -> kstate -> Prop) :
  sched_inv Q (kp s) -> held (pm (kp s)) = [] -> cur <> np -> (np < nproc)%nat ->
  p_state (proc_at s np) <> RUNNABLE -> p_kstack (proc_at s np) <> 0 -> p_pgdir (proc_at s np) <> 0 ->
  p_ofile (proc_at s np) = replicate nofile None -> length (p_ofile (proc_at s cur)) = nofile ->
  dupable (Z.of_nat nofile) (p_ofile (proc_at s cur)) (ftable s) -> p_cwd (proc_at s cur) = Some ip ->
  (forall Q' k', queued_as Q np (fun x => set_state RUNNABLE (inherits (proc_at s cur) ip x)) (kp s) Q' k' ->
     R (p_pid (proc_at s np)) (put_kp k' (put_icache (alter idup_ref ip (icache s))
                                 (put_ftable (dup_refs (p_ofile (proc_at s cur)) (ftable s)) s)))) ->
  wp (inherit cur np) R s.
Proof.
  intros Hi Hh Hne Hnp Hst Hks Hpg Hof Hlen Hd Hcwd HR. set (x := proc_at s cur) in *.
  assert (np < length (procs (kp s)))%nat as Hlt by (rewrite (si_np _ _ Hi); done).
  pose proof (picked_all (p_ofile x)) as Ep. rewrite Hlen in Ep.
  apply wp_bind, (dup_files_wp _ _ _ _ (p_ofile x)); [done|rewrite Hh; apply not_elem_of_nil|done|by rewrite Ep|]. rewrite Ep, put_ftable_upd.
  set (s1 := put_ftable _ s). set (f1 := fun y => set_ofile _ y).
  apply wp_bind, getproc_wp. rewrite proc_at_upd_ne by done. change (proc_at s1 cur) with x. rewrite Hcwd.
  apply wp_bind, wp_ret, wp_bind, idup_wp; [cbn [upd_proc kp put_kp put_procs pm]; change (kp s1) with (kp s); rewrite Hh; apply not_elem_of_nil|]. apply wp_bind, setproc_wp.
  change (put_icache ?a (upd_proc np f1 s1)) with (upd_proc np f1 (put_icache a s1)).
  set (s2 := put_icache _ s1). rewrite upd_proc_compose.
  apply wp_bind, getproc_wp. rewrite proc_at_upd_ne by done. change (proc_at s2 cur) with x.
  apply wp_bind, setproc_wp. rewrite upd_proc_compose. match goal with |- context [upd_proc np ?f s2] => set (f2 := f) end.
  assert (f2 (proc_at s np) = inherits x ip (proc_at s np)) as E2.
  { unfold f2, f1, inherits. rewrite Hof. by rewrite overlay_all. }
  assert (upd_proc np f2 s2 = upd_proc np (inherits x ip) s2) as ->.
  { unfold upd_proc. do 2 f_equal. apply total_list_eq; [by rewrite !length_alter|]. intros i Hil.
    rewrite !list_lookup_total_alter. case_decide as Ed; [|done]. destruct Ed as [-> _]. exact E2. }
  apply wp_bind, getproc_wp. rewrite proc_at_upd by done.
  apply wp_bind, (start_proc_wp Q).
  { by apply sched_inv_field. }
  { cbn [upd_proc kp put_kp put_procs pm]. change (kp s2) with (kp s). rewrite Hh. apply not_elem_of_nil. }
  { exact Hnp. }
  1-3: by rewrite proc_at_upd.
  intros Q' k' Hq. apply wp_ret. apply queued_as_trans in Hq. exact (HR Q' k' Hq).
Qed.

End inherit.

(** ** The parts of fork *)

Section fork_spec.
Context {FU : Fuel} {BD : BlockDevice} {DV : DevSw} {KI : KernelImage}.

Definition users (k : pstate) (pg : Z) : nat :=
  length (filter (fun p => p_state p <> UNUSED /\ p_pgdir p = pg) (procs k)).

Lemma addrspace_shared_wp cur k (R : bool -> pstate -> Prop) :
  running cur k -> LPtable ∉ held (pm k) -> p_pgdir (procs k !!! cur) <> 0 ->
  R (1 <? Z.of_nat (users k (p_pgdir (procs k !!! cur)))) k -> wp addrspace_shared R k.
Proof.
  intros (Hc & _ & _) Hl Hpg HR. apply wp_bind, pacquire_wp; [done|].
  apply wp_bind, wp_bind, wp_gets. cbn [cpus me locked put_pm]. rewrite Hc. apply wp_ret, wp_bind, wp_gets.
  cbn [procs locked put_pm]. unfold pgdir_users. rewrite (proj2 (Z.eqb_neq _ 0)) by done.
  apply wp_bind, wp_gets, wp_bind, (prelease_wp LPtable k); [done|done|]. apply wp_ret. by destruct k.
Qed.

(** The state [fork] relies on: [cur] runs, holding no lock, in address space [d];
    its files and directory can be duplicated, and free slots hold no files. *)
Record fork_pre (lo hi : Z) (G : ghost) (free : list Z) (Q : queues) (cur : nat) (d : Z) (a : aspace) (ip : nat) (s : kstate) : Prop := {
  fp_sched : sched_inv Q (kp s);
  fp_run : running cur (kp s);
  fp_held : held (pm (kp s)) = [];
  fp_vm : vm_inv lo hi G free (pm (kp s));
  fp_dir : g_dirs G !! d = Some a;
  fp_coh : coherent d a (pm (kp s));
  fp_pgdir : p_pgdir (proc_at s cur) = kva d;
  fp_sz : 0 <= p_sz (proc_at s cur) <= KERNBASE;
  fp_few : forall f, g_ext G f + Z.of_nat (size (g_dirs G)) + 3 < 2 ^ 16;
  fp_ofile : length (p_ofile (proc_at s cur)) = nofile;
  fp_dup : dupable (Z.of_nat nofile) (p_ofile (proc_at s cur)) (ftable s);
  fp_cwd : p_cwd (proc_at s cur) = Some ip;
  fp_clean : forall i, p_state (proc_at s i) = UNUSED -> p_ofile (proc_at s i) = replicate nofile None
}.

(** What is left when [fork] fails: the memory of every process, the free frames, every
    process, file and inode as before; a slot that was tried is unused again. *)
Definition fork_undone (lo hi : Z) (G : ghost) (free : list Z) (Q : queues) (cur : nat) (d : Z) (s s' : kstate) : Prop :=
  exists a1 free', vm_inv lo hi (set_dir d a1 G) free' (pm (kp s')) /\ coherent d a1 (pm (kp s')) /\
    same_umem G (pm (kp s)) (set_dir d a1 G) (pm (kp s')) /\ (forall f, f ∈ free' <-> f ∈ free) /\
    held (pm (kp s')) = [] /\ sched_inv Q (kp s') /\ running cur (kp s') /\
    (forall i, p_state (proc_at s i) <> UNUSED -> proc_at s' i = proc_at s i) /\
    (forall i, p_state (proc_at s i) = UNUSED -> p_state (proc_at s' i) = UNUSED) /\
    s' = put_kp (kp s') s.

(** The new process, [x] being process [cur], which called [fork]. *)
Record is_child (x : proc) (cur : nat) (pid c : Z) (y : proc) : Prop := {
  ch_state : p_state y = RUNNABLE;
  ch_pid : p_pid y = pid;
  ch_parent : p_parent y = Some cur;
  ch_pgdir : p_pgdir y = kva c;
  ch_sz : p_sz y = p_sz x;
  ch_tf : p_tf y = set_eax 0 (p_tf x);
  ch_ofile : p_ofile y = p_ofile x;
  ch_cwd : p_cwd y = p_cwd x;
  ch_name : p_name y = copy_name (p_name x);
  ch_prio : p_prio y = p_base_prio x /\ p_base_prio y = p_base_prio x;
  ch_thread : p_isthread y = 0
}.

Definition fork_done (lo hi : Z) (G : ghost) (Q : queues) (cur : nat) (d : Z) (ip : nat) (s : kstate) (r : Z) (s' : kstate) : Prop :=
  exists np ks c a1 b1 free' Q',
    r = nextpid (kp s) /\ p_state (proc_at s np) = UNUSED /\ g_dirs G !! c = None /\
    is_child (proc_at s cur) cur r c (proc_at s' np) /\
    (forall i, i <> np -> erase_q (proc_at s' i) = erase_q (proc_at s i)) /\
    (let G' := pair d c a1 b1 (add_ext ks 1 G) in vm_inv lo hi G' free' (pm (kp s')) /\
       coherent d a1 (pm (kp s')) /\ copied G (pm (kp s)) d c (p_sz (proc_at s cur)) G' (pm (kp s'))) /\
    held (pm (kp s')) = [] /\ running cur (kp s') /\
    sched_inv Q' (kp s') /\ (forall q, queued Q' q <-> queued Q q \/ q = np) /\
    least_loaded Q (kp s) (p_rqcpu (proc_at s' np)) /\
    (forall g, ftable s' !!! g = set_f_ref (f_ref (ftable s !!! g) +
       Z.of_nat (length (filter (fun o => o = Some g) (p_ofile (proc_at s cur))))) (ftable s !!! g)) /\
    icache s' = alter idup_ref ip (icache s).

(** A slot that was tried and given back. *)
Definition with_slot (m : mstate) (i : nat) (f : proc -> proc) (s : kstate) : kstate :=
  put_kp (put_pm m (put_procs (alter f i (procs (kp s))) (bump_pid (kp s)))) s.

Lemma undone_slot lo hi G free Q cur d a1 free' m i f s :
  running cur (kp s) -> p_state (proc_at s i) = UNUSED -> p_state (f (proc_at s i)) = UNUSED ->
  vm_inv lo hi (set_dir d a1 G) free' m -> coherent d a1 m -> same_umem G (pm (kp s)) (set_dir d a1 G) m ->
  (forall g, g ∈ free' <-> g ∈ free) -> held m = [] -> sched_inv Q (kp (with_slot m i f s)) ->
  fork_undone lo hi G free Q cur d s (with_slot m i f s).
Proof.
  intros (Hc & Hcur & Hst) Hu Hf Hvm Hco Hum Hfree Hh Hi.
  assert (forall j, j <> i -> proc_at (with_slot m i f s) j = proc_at s j) as Hoth
    by (intros j Hj; by apply list_lookup_total_alter_ne).
  assert (cur <> i) as Hne by (intros ->; unfold proc_at in Hu; congruence).
  exists a1, free'. split_and!; try done.
  - split; [done|]. split; [done|]. change (p_state (proc_at (with_slot m i f s) cur) = RUNNING). by rewrite Hoth.
  - intros j Hj. apply Hoth. congruence.
  - intros j Hj. destruct (decide (j = i)) as [->|]; [|by rewrite Hoth]. unfold proc_at, with_slot. cbn.
    rewrite list_lookup_total_alter. by case_decide.
Qed.

Lemma undone_same lo hi G free Q cur d a ip s :
  fork_pre lo hi G free Q cur d a ip s -> fork_undone lo hi G free Q cur d s s.
Proof.
  intros [? ? ? Hvm Hd ? ? ? ? ? ? ? ?]. exists a, free. split_and!; try done; [| |by destruct s].
  - eapply vm_inv_ext; [by apply set_dir_same|done|done].
  - intros d' v. unfold umem. cbn. by rewrite insert_id.
Qed.

Lemma fork_few lo hi G free (m : mstate) f g :
  vm_inv lo hi G free m -> (forall g, g_ext G g + Z.of_nat (size (g_dirs G)) + 3 < 2 ^ 16) -> cnt G f = 0 ->
  g_ext (add_ext f 1 G) g + Z.of_nat (size (g_dirs (add_ext f 1 G))) + 2 < 2 ^ 16.
Proof.
  intros Hvm Hfew Hc. cbn. unfold upd. specialize (Hfew g). pose proof (cnt_ge_ext G f). case_decide; subst; lia.
Qed.

Lemma stack_back_wp lo hi G free1 d a1 f m (R : unit -> mstate -> Prop) :
  vm_inv lo hi (set_dir d a1 (add_ext f 1 G)) free1 m -> is_Some (g_dirs G !! d) ->
  (forall g, cnt (set_dir d a1 (add_ext f 1 G)) g = cnt (add_ext f 1 G) g) -> cnt G f = 0 -> 0 <= g_ext G f ->
  (forall free' m', vm_inv lo hi (set_dir d a1 G) free' m' -> same_umem (set_dir d a1 G) m (set_dir d a1 G) m' ->
     same_cpu m m' -> (forall g, cnt (set_dir d a1 G) g = cnt G g) -> R tt m') ->
  wp (kfree (kva f)) R m.
Proof.
  intros Hvm [a Hd] Hcnt H0 He HR. set (G1 := set_dir d a1 (add_ext f 1 G)) in *.
  assert (1 <= g_ext G1 f) as H1 by (cbn; unfold upd; rewrite decide_True by done; lia).
  eapply vm_kfree_wp; [exact Hvm|exact H1|]. intros free' m' Hsc Hvm' Hpg _.
  apply (HR free').
  - eapply vm_inv_ext; [| |exact Hvm']; [done|]. intros g. cbn. unfold upd. repeat case_decide; subst; lia.
  - intros d' v. unfold umem. destruct (in_range 0 UPAGES v) eqn:Er; [|done]. apply in_range_spec in Er.
    destruct (g_dirs (set_dir d a1 G) !! d') as [b|] eqn:Eb; [|done]. cbn. f_equal. unfold view.
    destruct (as_pte b !! v) as [e|] eqn:Ee; [|done]. apply Hpg. left. intros Ef.
    pose proof (as_cnt_pte f d' b v e Ee ltac:(lia) Ef). pose proof (cnt_ge_dir G1 f d' b Eb). pose proof (Hcnt f) as Hc.
    rewrite cnt_add_ext, decide_True in Hc by done. cnt_nonneg. lia.
  - done.
  - intros g. specialize (Hcnt g). unfold G1 in Hcnt. rewrite (cnt_set_dir d a) in Hcnt |- * by done. lia.
Qed.

(** What [fork] sets in the new slot before the files. *)
Definition forked (x : proc) (cur : nat) (pg : Z) (y : proc) : proc :=
  set_tf (set_eax 0 (p_tf x)) (set_prio (p_base_prio x) (set_base_prio (p_base_prio x)
    (set_parent (Some cur) (set_sz (p_sz x) (set_pgdir pg y))))).

Lemma forked_steps x cur pg y :
  (fun y => set_tf (set_eax 0 (p_tf y)) y) (set_tf (p_tf x) ((fun y => set_prio (p_base_prio y) y)
    (set_base_prio (p_base_prio x) (set_parent (Some cur) (set_sz (p_sz x) (set_pgdir pg y)))))) = forked x cur pg y.
Proof. reflexivity. Qed.

Lemma with_slot_ext m i f g s : (forall y, f y = g y) -> with_slot m i f s = with_slot m i g s.
Proof.
  intros E. unfold with_slot. do 3 f_equal. apply list_eq. intros j.
  destruct (decide (i = j)) as [->|]; [|by rewrite !list_lookup_alter_ne].
  rewrite !list_lookup_alter_eq. destruct (procs (kp s) !! j); cbn; by rewrite ?E.
Qed.

Lemma wf_forked nq x cur pg ks pid y :
  0 <= p_base_prio x < NPRIO -> (0 < nq)%nat -> kva ks <> 0 -> pg <> 0 -> wf_proc nq (forked x cur pg (started ks pid y)).
Proof. intros Hb Hn Hk Hp. by split. Qed.

Lemma is_child_erase x cur pid c y z : erase_q y = erase_q z -> is_child x cur pid c z -> is_child x cur pid c y.
Proof. intros E. apply erase_inj in E. rewrite E. by intros []. Qed.

Lemma forked_child x cur ip ks pid c y :
  p_cwd x = Some ip -> is_child x cur pid c (set_state RUNNABLE (inherits x ip (forked x cur (kva c) (started ks pid y)))).
Proof. intros Hip. by split. Qed.

Lemma fork_child_wp lo hi G free Q cur d a ip s np ks c a1 b1 free' m :
  fork_pre lo hi G free Q cur d a ip s -> (np < nproc)%nat -> p_state (proc_at s np) = UNUSED ->
  0 <= ks < NFRAMES -> 0 < c < NFRAMES -> g_dirs G !! c = None ->
  vm_inv lo hi (pair d c a1 b1 (add_ext ks 1 G)) free' m -> coherent d a1 m -> held m = [] ->
  copied G (pm (kp s)) d c (p_sz (proc_at s cur)) (pair d c a1 b1 (add_ext ks 1 G)) m ->
  sched_inv Q (kp (with_slot m np (started ks (nextpid (kp s))) s)) ->
  wp (inherit cur np) (fork_done lo hi G Q cur d ip s)
    (upd_proc np (forked (proc_at s cur) cur (kva c)) (with_slot m np (started ks (nextpid (kp s))) s)).
Proof.
  intros Hpre Hnp Hu Hks Hc Hdc Hvm Hco Hh Hcp Hi. set (x := proc_at s cur) in *. set (s1 := with_slot m np _ s) in *.
  pose proof (fp_run _ _ _ _ _ _ _ _ _ _ Hpre) as Hrun. pose proof Hrun as (Hcpu & Hcur & Hst).
  assert (cur <> np) as Hne by (intros ->; unfold proc_at in Hu; congruence).
  pose proof (si_np _ _ (fp_sched _ _ _ _ _ _ _ _ _ _ Hpre)) as Hlen.
  assert (proc_at s1 np = started ks (nextpid (kp s)) (proc_at s np)) as E1 by (apply alter_same; rewrite Hlen; done).
  assert (proc_at s1 cur = x) as Ex by by apply list_lookup_total_alter_ne.
  assert (np < length (procs (kp s1)))%nat as Hlt by (cbn; rewrite length_alter, Hlen; done).
  destruct (running_wf Q (kp s) cur (fp_sched _ _ _ _ _ _ _ _ _ _ Hpre) Hrun) as [[Wp Wb Wc _] _].
  pose proof (kva_nonzero ks ltac:(lia)) as Hk0. pose proof (kva_nonzero c ltac:(lia)) as Hc0.
  set (s2 := upd_proc np _ s1).
  assert (proc_at s2 np = forked x cur (kva c) (started ks (nextpid (kp s)) (proc_at s np))) as E2
    by (rewrite <- E1; exact (proc_at_upd np _ s1 Hlt)).
  assert (proc_at s2 cur = x) as Ex2 by (rewrite <- Ex; exact (proc_at_upd_ne np cur _ s1 (not_eq_sym Hne))).
  assert (sched_inv Q (kp s2)) as Hi2.
  { unfold proc_at in E1. apply sched_inv_setp; [exact Hi|exact Hnp|rewrite E1; done|rewrite E1; done|]. rewrite E1.
    apply wf_forked; [exact Wb|change (0 < length (runq (kp s)))%nat; lia|exact Hk0|exact Hc0]. }
  eapply (inherit_wp Q cur np ip); [exact Hi2|exact Hh|exact Hne|exact Hnp|rewrite E2..|rewrite Ex2|rewrite Ex2|rewrite Ex2|].
  { done. }
  { exact Hk0. }
  { exact Hc0. }
  { by apply (fp_clean _ _ _ _ _ _ _ _ _ _ Hpre). }
  { apply (fp_ofile _ _ _ _ _ _ _ _ _ _ Hpre). }
  { apply (fp_dup _ _ _ _ _ _ _ _ _ _ Hpre). }
  { apply (fp_cwd _ _ _ _ _ _ _ _ _ _ Hpre). }
  rewrite E2, Ex2. intros Q' k' [Hi' Hf Hqd Hll]. set (s' := put_kp k' _).
  assert (forall i, erase_q (proc_at s' i) = erase_q (at_proc np (fun y => set_state RUNNABLE (inherits x ip y)) i (proc_at s2 i))) as Hp.
  { intros i. etrans; [exact (rf_proc _ _ Hf i)|]. destruct (decide (i < length (procs (kp s2)))%nat).
    - by rewrite map_procs_lookup.
    - rewrite map_procs_ge by lia. unfold at_proc. rewrite decide_False; [done|]. intros ->.
      cbn in *. rewrite !length_alter in *. lia. }
  assert (forall i, i <> np -> erase_q (proc_at s' i) = erase_q (proc_at s i)) as Ho.
  { intros i Hin. rewrite Hp. unfold at_proc. rewrite decide_False by done. unfold s2. rewrite proc_at_upd_ne by done.
    unfold proc_at, s1, with_slot. cbn. by rewrite list_lookup_total_alter_ne. }
  assert (pm (kp s') = m) as Epm by exact (rf_pm _ _ Hf).
  exists np, ks, c, a1, b1, free', Q'. rewrite Epm. split_and!; try done.
  - eapply is_child_erase; [|apply (forked_child x cur ip ks (nextpid (kp s)) c (proc_at s np)), (fp_cwd _ _ _ _ _ _ _ _ _ _ Hpre)].
    rewrite Hp. unfold at_proc. rewrite decide_True by exact eq_refl. rewrite E2. exact eq_refl.
  - split; [change (kp s') with k'; rewrite (rf_cpus _ _ Hf), (rf_me _ _ Hf); exact Hcpu|]. split; [done|].
    change (p_state (proc_at s' cur) = RUNNING). rewrite (erase_inj _ _ (Ho cur Hne)). exact Hst.
  - intros g. cbn. apply dup_refs_at. rewrite (fp_ofile _ _ _ _ _ _ _ _ _ _ Hpre). apply (fp_dup _ _ _ _ _ _ _ _ _ _ Hpre).
Qed.

Lemma upd_with_slot m i f g s : upd_proc i g (with_slot m i f s) = with_slot m i (fun x => g (f x)) s.
Proof. unfold upd_proc, with_slot. cbn. by rewrite alter_alter_compose. Qed.

Lemma with_slot_same i f s :
  put_kp (put_procs (alter f i (procs (kp s))) (bump_pid (kp s))) s = with_slot (pm (kp s)) i f s.
Proof. by destruct s as [[] ? ? ? ? ? ? ? ? ? ? ?]. Qed.

Lemma proc_at_slot m i f s : (i < length (procs (kp s)))%nat -> proc_at (with_slot m i f s) i = f (proc_at s i).
Proof. intros Hi. by apply alter_same. Qed.

Lemma proc_at_slot_ne m i f s j : j <> i -> proc_at (with_slot m i f s) j = proc_at s j.
Proof. intros Hj. by apply list_lookup_total_alter_ne. Qed.

Lemma free_same_cnt lo hi G free m G' free' m' :
  vm_inv lo hi G free m -> vm_inv lo hi G' free' m' -> (forall g, cnt G' g = cnt G g) -> forall g, g ∈ free' <-> g ∈ free.
Proof.
  intros Hi Hi' Hc g. rewrite (ki_free _ _ _ _ _ (vi_kmem _ _ _ _ _ Hi)), (ki_free _ _ _ _ _ (vi_kmem _ _ _ _ _ Hi')).
  by rewrite Hc.
Qed.

(** [fork] after its slot and kernel stack are found, when there is no memory for
    the page tables. *)
Lemma fork_nomem_undone lo hi G free Q cur d a ip s np ks a1 free' m m' :
  fork_pre lo hi G free Q cur d a ip s -> (np < nproc)%nat -> p_state (proc_at s np) = UNUSED ->
  vm_inv lo hi (set_dir d a1 G) free' m' -> (forall g, cnt (set_dir d a1 G) g = cnt G g) -> coherent d a1 m' ->
  same_umem G (pm (kp s)) (set_dir d a1 G) m' -> held m' = [] ->
  sched_inv Q (kp (with_slot m np (started ks (nextpid (kp s))) s)) ->
  fork_undone lo hi G free Q cur d s
    (with_slot m' np (fun x => set_state UNUSED (set_kstack 0 (set_pgdir 0 (started ks (nextpid (kp s)) x)))) s).
Proof.
  intros Hpre Hnp Hu Hvm Hcnt Hco Hum Hh Hi.
  pose proof (si_np _ _ (fp_sched _ _ _ _ _ _ _ _ _ _ Hpre)) as Hlen.
  eapply undone_slot; [apply Hpre|done|done|done|done|done| |done|].
  - eapply free_same_cnt; [apply Hpre|done|done].
  - assert (sched_inv Q (kp (upd_proc np (fun x => set_state UNUSED (set_kstack 0 (set_pgdir 0 x)))
              (with_slot m np (started ks (nextpid (kp s))) s)))) as Hi2.
    { apply sched_inv_setp; [done|done|..]; fold (proc_at (with_slot m np (started ks (nextpid (kp s))) s) np);
        rewrite proc_at_slot by (rewrite Hlen; done); [done|done|].
      destruct (si_me _ _ Hi) as [Hme _]. pose proof (rq_ncpu _ _ (si_rq _ _ Hi)). split; try done. cbn in *. lia. }
    rewrite upd_with_slot in Hi2. apply (sched_inv_pm _ _ m') in Hi2. exact Hi2.
Qed.

(** [fork] once [allocproc] has found slot [np] and kernel stack [ks]. *)
Lemma fork_slot_wp lo hi G free Q cur d a ip s np ks rest m :
  fork_pre lo hi G free Q cur d a ip s -> free = ks :: rest -> lo <= ks < hi -> cnt G ks = 0 -> (np < nproc)%nat ->
  p_state (proc_at s np) = UNUSED -> vm_inv lo hi (add_ext ks 1 G) rest m -> same_cpu (pm (kp s)) m -> mem m = mem (pm (kp s)) ->
  sched_inv Q (kp (with_slot m np (started ks (nextpid (kp s))) s)) ->
  wp (fork_slot cur np)
    (fun r s' => (r = -1 /\ fork_undone lo hi G free Q cur d s s') \/ fork_done lo hi G Q cur d ip s r s')
    (with_slot m np (started ks (nextpid (kp s))) s).
Proof.
  intros Hpre Hfree Hks H0 Hnp Hu Hvm Hsc Hmem Hi.
  pose proof (si_np _ _ (fp_sched _ _ _ _ _ _ _ _ _ _ Hpre)) as Hlen.
  assert (cur <> np) as Hne.
  { intros ->. destruct (fp_run _ _ _ _ _ _ _ _ _ _ Hpre) as (_ & _ & Hst). unfold proc_at in Hu. congruence. }
  assert (forall f m', proc_at (with_slot m' np f s) cur = proc_at s cur) as Ecur by (intros; by apply proc_at_slot_ne).
  unfold fork_slot. apply wp_bind, getproc_wp, wp_bind, getproc_wp. rewrite Ecur, (fp_pgdir _ _ _ _ _ _ _ _ _ _ Hpre).
  apply wp_bind, wp_zoom, wp_zoom.
  assert (forall d v, umem (add_ext ks 1 G) m d v = umem G (pm (kp s)) d v) as Hum0
    by (intros d' v; unfold umem; cbn; by rewrite Hmem).
  pose proof (fp_vm _ _ _ _ _ _ _ _ _ _ Hpre) as Hvm0. pose proof (fp_held _ _ _ _ _ _ _ _ _ _ Hpre) as Hh0.
  assert (coherent d a m) as Hco.
  { destruct (fp_coh _ _ _ _ _ _ _ _ _ _ Hpre) as [Hc Ht], Hsc as (_ & Hc' & Ht' & _). split; [congruence|]. by rewrite Ht'. }
  eapply (cowuvm_umem_wp lo hi (add_ext ks 1 G) rest d a); [exact Hvm|apply Hpre|apply Hpre|..].
  { intros f. eapply fork_few; [exact Hvm0|apply Hpre|done]. }
  - intros a1 free1 m1 Hvm1 Hum1 Hcnt1 Hh1 Hco1. change (put_kp _ _) with (with_slot m1 np (started ks (nextpid (kp s))) s).
    apply wp_bind, setproc_wp. cbn [Z.eqb]. rewrite upd_with_slot. apply wp_bind, getproc_wp.
    rewrite proc_at_slot by (rewrite Hlen; done). apply wp_bind, wp_zoom, wp_zoom.
    eapply stack_back_wp; [exact Hvm1|rewrite (fp_dir _ _ _ _ _ _ _ _ _ _ Hpre); eauto|done|done|apply (vi_wf _ _ _ _ _ Hvm0)|].
    intros free2 m2 Hvm2 Hum2 (Hh2 & Hc2 & Ht2 & _) Hcnt2. apply wp_bind, setproc_wp, wp_bind, setproc_wp, wp_ret.
    rewrite upd_proc_compose. change (put_kp _ _) with (with_slot m2 np (fun x => set_pgdir 0 (started ks (nextpid (kp s)) x)) s).
    rewrite upd_with_slot. left. split; [done|].
    eapply fork_nomem_undone; [done|done|done|exact Hvm2|done| | | |exact Hi].
    + destruct (Hco1 Hco) as [Hc Ht]. split; [etrans; [exact Hc2|exact Hc]|]. intros v e He. apply Ht. by rewrite Ht2 in He.
    + intros d' v. rewrite Hum2, <- Hum0. apply Hum1.
    + etrans; [exact Hh2|]. etrans; [exact Hh1|]. etrans; [exact (proj1 Hsc)|exact Hh0].
  - intros c a1 b1 free1 m1 Hc Hcf Hvm1 Hfl Hcp. change (put_kp _ _) with (with_slot m1 np (started ks (nextpid (kp s))) s).
    pose proof (vm_frames _ _ _ _ _ Hvm0) as Hb.
    apply wp_bind, setproc_wp. rewrite (proj2 (Z.eqb_neq _ _)) by (apply kva_nonzero; lia). rewrite upd_with_slot.
    apply wp_bind, getproc_wp. rewrite Ecur. apply wp_bind, setproc_wp, wp_bind, setproc_wp. rewrite !upd_with_slot.
    apply wp_bind, getproc_wp. rewrite Ecur. apply wp_bind, setproc_wp, wp_bind, setproc_wp. rewrite !upd_with_slot.
    apply wp_bind, getproc_wp. rewrite Ecur. apply wp_bind, setproc_wp, wp_bind, setproc_wp. rewrite !upd_with_slot.
    eapply wp_mono; [|intros r s' Hd; right; exact Hd].
    assert (wp (inherit cur np) (fork_done lo hi G Q cur d ip s)
              (upd_proc np (forked (proc_at s cur) cur (kva c)) (with_slot m1 np (started ks (nextpid (kp s))) s))) as Hwp.
    { eapply (fork_child_wp lo hi G free Q cur d a ip s np ks c a1 b1 free1 m1); [done|done|done|lia|done|done|done| | | |].
      - by eapply coherent_flushed.
      - destruct Hfl as (Hh1 & _). etrans; [exact Hh1|]. etrans; [exact (proj1 Hsc)|exact Hh0].
      - intros d' v. rewrite Hcp, !Hum0. done.
      - apply (sched_inv_pm _ _ m1) in Hi. exact Hi. }
    rewrite upd_with_slot in Hwp.
    rewrite (with_slot_ext _ _ _ (fun y => forked (proc_at s cur) cur (kva c) (started ks (nextpid (kp s)) y))); [exact Hwp|].
    intros y. generalize (started ks (nextpid (kp s)) y). intros z. apply forked_steps.
Qed.

Lemma fork_wp lo hi G free Q cur d a ip s (R : Z -> kstate -> Prop) :
  fork_pre lo hi G free Q cur d a ip s ->
  ((1 < users (kp s) (kva d))%nat \/ (forall i, (i < nproc)%nat -> p_state (proc_at s i) <> UNUSED) -> R (-1) s) ->
  (forall i, free = [] -> (i < nproc)%nat -> p_state (proc_at s i) = UNUSED ->
     sched_inv Q (kp (with_slot (pm (kp s)) i (given_back (nextpid (kp s))) s)) ->
     R (-1) (with_slot (pm (kp s)) i (given_back (nextpid (kp s))) s)) ->
  (forall np ks rest m, (users (kp s) (kva d) <= 1)%nat -> free = ks :: rest -> lo <= ks < hi -> cnt G ks = 0 ->
     (np < nproc)%nat -> p_state (proc_at s np) = UNUSED -> vm_inv lo hi (add_ext ks 1 G) rest m ->
     same_cpu (pm (kp s)) m -> mem m = mem (pm (kp s)) ->
     sched_inv Q (kp (with_slot m np (started ks (nextpid (kp s))) s)) ->
     wp (fork_slot cur np) R (with_slot m np (started ks (nextpid (kp s))) s)) ->
  wp fork R s.
Proof.
  intros Hpre Hsame Hmem Hslot. destruct (Hpre) as [Hsc Hrun Hh Hvm Hd Hco Hpg Hsz Hfew Hof Hdup Hcwd Hcl].
  assert (put_kp (kp s) s = s) as Es by by destruct s.
  assert (LPtable ∉ held (pm (kp s))) as Hl by (rewrite Hh; apply not_elem_of_nil).
  unfold fork. apply wp_bind. eapply (kcurproc_wp cur []); [split; eauto|].
  apply wp_bind, wp_zoom, (addrspace_shared_wp cur); [done|done|by apply (running_wf Q)|].
  fold (proc_at s cur). rewrite Hpg, Es. destruct (1 <? _) eqn:Eu; zbool; [apply wp_ret, Hsame; left; lia|].
  apply wp_bind, wp_zoom. eapply (allocproc_wp lo hi G free Q (kp s)); [done|done|done|..].
  - intros Hfull. rewrite Es. apply wp_ret, Hsame. by right.
  - intros i k' Hf Hi Hu Hsi Hk. subst k'. rewrite with_slot_same. apply wp_ret, Hmem; [done|done|done|].
    rewrite <- with_slot_same. exact Hsi.
  - intros np ks rest m k' Hf Hks H0 Hnp Hu _ Hsi Hvm' Hcpu Hm Hk. subst k'.
    change (put_kp _ _) with (with_slot m np (started ks (nextpid (kp s))) s).
    apply (Hslot np ks rest m); try done. lia.
Qed.

(** C5. [fork] duplicates the calling process.  Either it returns the pid of a new
    process, in a slot that was free: the process has its own copy of the caller's
    memory, the caller's registers with result 0, its files, directory, name and
    priority; each open file has one more reference for each descriptor and the
    directory one more, the new process and no other is added to the run queues, on a
    least loaded CPU, and the caller keeps its memory and no stale TLB entry.  Or it
    returns -1 and the memory of every process, the free frames, and all processes,
    files and inodes are as before. *)
Theorem fork_copies lo hi G free Q cur d a ip s :
  fork_pre lo hi G free Q cur d a ip s ->
  wp fork (fun r s' =>
    (r = -1 /\ fork_undone lo hi G free Q cur d s s') \/ fork_done lo hi G Q cur d ip s r s') s.
Proof.
  intros Hpre. eapply fork_wp; [exact Hpre|..].
  - intros _. left. split; [done|]. by eapply undone_same.
  - intros i Hf Hi Hu Hsi. left. split; [done|]. destruct (undone_same _ _ _ _ _ _ _ _ _ _ Hpre) as (a1 & free' & H).
    eapply (undone_slot _ _ _ _ _ _ _ a1 free'); [apply Hpre|done|done|apply H..|apply Hpre|done].
  - intros np ks rest m _ Hf Hks H0 Hnp Hu Hvm Hsc Hm Hsi. by eapply fork_slot_wp.
Qed.

(** C38. When [fork] cannot succeed it says so and touches nothing: if the address space
    is shared by another thread, no slot is free, or no frame is free, [fork] returns -1,
    the machine's memory, its allocator and TLB are exactly as before, every process is
    as before, and files, inodes and the run queues are unchanged. *)
Theorem fork_fails lo hi G free Q cur d a ip s :
  fork_pre lo hi G free Q cur d a ip s ->
  (1 < users (kp s) (kva d))%nat \/ (forall i, (i < nproc)%nat -> p_state (proc_at s i) <> UNUSED) \/ free = [] ->
  wp fork (fun r s' => r = -1 /\ pm (kp s') = pm (kp s) /\ sched_inv Q (kp s') /\ runq (kp s') = runq (kp s) /\
    (forall i, p_state (proc_at s i) <> UNUSED -> proc_at s' i = proc_at s i) /\
    (forall i, p_state (proc_at s i) = UNUSED -> p_state (proc_at s' i) = UNUSED) /\
    s' = put_kp (kp s') s) s.
Proof.
  intros Hpre Hwhy. assert (sched_inv Q (kp s)) as Hi by apply Hpre. eapply fork_wp; [exact Hpre|..].
  - intros _. split_and!; try done. by destruct s.
  - intros i _ Hin Hu Hsi. split_and!; try done.
    + intros j Hj. apply proc_at_slot_ne. congruence.
    + intros j Hj. destruct (decide (j = i)) as [->|]; [|by rewrite proc_at_slot_ne].
      by rewrite proc_at_slot by (rewrite (si_np _ _ Hi); done).
  - intros np ks rest m Hus Hf _ _ Hnp Hu. exfalso. destruct Hwhy as [?|[Hfull|Hnil]]; [lia| |congruence].
    by apply (Hfull np).
Qed.

End fork_spec.

(** ** Instances on the concrete machine *)

#[local] Existing Instance demo_image.

(** Process 1 has file 0 open as descriptor 0 and two pages; the address space of
    process 2 is [pg]. *)
Definition demo_caller (x : proc) : proc :=
  set_sz 8192 (set_cwd (Some 0%nat) (set_ofile (Some 0%nat :: replicate 15 None) x)).
Definition demo_fork1 : kstate :=
  upd_proc 1 demo_caller (put_ftable (set_f_ref 1 file0 :: replicate 99 file0) (demo_k buf0 (demo_log [] 0))).
Definition demo_fork (pg : Z) : kstate := upd_proc 2 (set_pgdir pg) demo_fork1.

Lemma demo_fork_slot pg i :
  p_state (proc_at (demo_fork pg) i) = UNUSED -> p_ofile (proc_at (demo_fork pg) i) = replicate nofile None.
Proof.
  destruct (decide (i = 1%nat)) as [->|H1]; [done|]. destruct (decide (i = 2%nat)) as [->|H2]; [done|].
  unfold demo_fork, demo_fork1. rewrite !proc_at_upd_ne by done.
  destruct (decide (i < nproc)%nat) as [Hi|Hi].
  - unfold proc_at. change (procs _) with (procs demo_p). destruct (demo_slot i Hi) as [->|[->|[->|[-> _]]]]; done.
  - intros _. unfold proc_at. rewrite list_lookup_total_alt, lookup_ge_None_2; [done|].
    change (nproc <= i)%nat. lia.
Qed.

Lemma demo_fork_pre pg : pg <> 0 -> fork_pre 1024 1030 demo_G demo_free demo_q 1 1024 demo_as 0 (demo_fork pg).
Proof.
  intros Hpg. split; try done.
  - apply sched_inv_setp; [|vm_compute; lia|done..|].
    + apply sched_inv_field; [apply demo_held_sched|done].
    + split; try done. vm_compute. lia.
  - split; [done|]. split; [vm_compute; lia|done].
  - apply demo_vm.
  - intros f Hf. change (Some f ∈ Some 0%nat :: replicate 15 None) in Hf. apply elem_of_cons in Hf as [[= ->]|Hf]; [vm_compute; done|].
    by apply elem_of_replicate in Hf as [? _].
  - apply demo_fork_slot.
Qed.

Lemma fork_copies_witness :
  wp fork (fun r s' =>
    (r = -1 /\ fork_undone 1024 1030 demo_G demo_free demo_q 1 1024 (demo_fork (kva 1041)) s') \/
    fork_done 1024 1030 demo_G demo_q 1 1024 0 (demo_fork (kva 1041)) r s') (demo_fork (kva 1041)).
Proof.
  apply (fork_copies 1024 1030 demo_G demo_free demo_q 1 1024 demo_as 0 (demo_fork (kva 1041))), demo_fork_pre. done.
Defined.

Lemma fork_fails_witness :
  wp fork (fun r s' => r = -1 /\ pm (kp s') = pm (kp (demo_fork (kva 1024)))) (demo_fork (kva 1024)).
Proof.
  eapply wp_mono.
  - apply (fork_fails 1024 1030 demo_G demo_free demo_q 1 1024 demo_as 0 (demo_fork (kva 1024))).
    + apply demo_fork_pre. done.
    + left. vm_compute. lia.
  - intros r s' (-> & H & _). exact (conj eq_refl H).
Defined.
