(* ===== verification/Exec.v ===== *)
(** * Running a program (exec.c, and loaduvm of vm.c)

    The new address space is built beside the old one and replaces it only when
    nothing can fail any more. *)

From S2P Require Import Prelude Strings Bytes Monad Machine Kalloc Vm VmUser ProcDefs RunQueue Proc KernDefs Sleeplock Bio Log Fs File Fork.

(** elf.h *)
Abbreviation ELF_MAGIC := (0x464C457F)%Z.
Abbreviation ELF_PROG_LOAD := (1)%Z.
Abbreviation MAXARG := (32)%Z.

Record elfhdr : Type := MkElf { e_magic : Z; e_entry : Z; e_phoff : Z; e_phnum : Z }.
Definition elf_size : Z := 52.
Definition elf_decode (d : list Z) : elfhdr := MkElf (get32 d 0) (get32 d 24) (get32 d 28) (get16 d 44).

Record proghdr : Type := MkPh { ph_type : Z; ph_off : Z; ph_vaddr : Z; ph_filesz : Z; ph_memsz : Z }.
Definition ph_size : Z := 32.
Definition ph_decode (d : list Z) : proghdr := MkPh (get32 d 0) (get32 d 4) (get32 d 8) (get32 d 16) (get32 d 20).

Section exec.
Context {FU : Fuel} {BD : BlockDevice} {DV : DevSw} {KI : KernelImage}.

(** [readi(ip, buf, off, n) != n] is [None]. *)
Definition readi_exact (ip : nat) (off n : Z) : M kstate (option (list Z)) :=
  let* r := readi ip off n in
  ret (match r with
       | Some l => if Z.of_nat (length l) =? n then Some l else None
       | None => None
       end).

Fixpoint loaduvm_loop (f : nat) (pgdir addr : Z) (ip : nat) (offset sz i : Z) : M kstate Z :=
  match f with
  | O => nofuel
  | S f =>
      if negb (i <? sz) then ret 0 else
      let* pte := proc_op (mem_op (walkpgdir pgdir (u32 (addr + i)) false)) in
      if pte =? 0 then panic "loaduvm: address should exist" else
      let* e := proc_op (mem_op (load pte)) in
      let pa := PTE_ADDR e in
      let n := if sz - i <? PGSIZE then sz - i else PGSIZE in
      let* r := readi ip (u32 (offset + i)) n in
      match r with
      | Some l =>
          proc_op (mem_op (memmove_bytes (P2V pa) 0 l)) ;;;
          if negb (Z.of_nat (length l) =? n) then ret (-1) else
          loaduvm_loop f pgdir addr ip offset sz (u32 (i + PGSIZE))
      | None => ret (-1)
      end
  end.
Definition loaduvm (pgdir addr : Z) (ip : nat) (offset sz : Z) : M kstate Z :=
  if negb (addr mod PGSIZE =? 0) then panic "loaduvm: addr must be page aligned" else
  loaduvm_loop (S (S (Z.to_nat (sz / PGSIZE)))) pgdir addr ip offset sz 0.

(** The program headers from number [i] at offset [off]: the new size, or [None]
    for [goto bad]. *)
Fixpoint exec_load (k : nat) (ip : nat) (pgdir off sz : Z) : M kstate (option Z) :=
  match k with
  | O => ret (Some sz)
  | S k =>
      let* r := readi_exact ip (u32 off) ph_size in
      match r with
      | None => ret None
      | Some d =>
          let ph := ph_decode d in
          if negb (ph_type ph =? ELF_PROG_LOAD) then exec_load k ip pgdir (off + ph_size) sz else
          if ph_memsz ph <? ph_filesz ph then ret None else
          if u32 (ph_vaddr ph + ph_memsz ph) <? ph_vaddr ph then ret None else
          let* sz := proc_op (mem_op (allocuvm pgdir sz (u32 (ph_vaddr ph + ph_memsz ph)))) in
          if sz =? 0 then ret None else
          if negb (ph_vaddr ph mod PGSIZE =? 0) then ret None else
          let* r := loaduvm pgdir (ph_vaddr ph) ip (ph_off ph) (ph_filesz ph) in
          if r <? 0 then ret None else
          exec_load k ip pgdir (off + ph_size) sz
      end
  end.

(** The argument strings: the stack pointer and the addresses pushed, last first. *)
Fixpoint exec_args (pgdir : Z) (argv : list (list Z)) (argc sp : Z) (acc : list Z) : M kstate (option (Z * list Z)) :=
  match argv with
  | [] => ret (Some (sp, acc))
  | a :: argv =>
      if MAXARG <=? argc then ret None else
      let sp := Z.land (u32 (sp - (Z.of_nat (length a) + 1))) (Z.lnot 3) in
      let* r := proc_op (mem_op (copyout pgdir sp (a ++ [0]))) in
      if r <? 0 then ret None else
      exec_args pgdir argv (argc + 1) sp (sp :: acc)
  end.

Definition words (l : list Z) : list Z := concat (map (fun w => put32 0 w (replicate 4 0)) l).

(** The path element after the last slash. *)
Fixpoint last_elem (s last : list Z) : list Z :=
  match s with
  | [] => last
  | c :: s => last_elem s (if c =? slash then s else last)
  end.

(** The stack of the new program: [Some (sz, sp)] when it is complete. *)
Definition exec_stack (pgdir sz : Z) (argv : list (list Z)) : M kstate (option (Z * Z)) :=
  let sz := PGROUNDUP sz in
  let* sz := proc_op (mem_op (allocuvm pgdir sz (u32 (sz + 2 * PGSIZE)))) in
  if sz =? 0 then ret None else
  proc_op (mem_op (clearpteu pgdir (u32 (sz - 2 * PGSIZE)))) ;;;
  let* r := exec_args pgdir argv 0 sz [] in
  match r with
  | None => ret None
  | Some (sp, addrs) =>
      let argc := Z.of_nat (length argv) in
      let ustack := 0xffffffff :: argc :: u32 (sp - (argc + 1) * 4) :: (rev addrs ++ [0]) in
      let sp := u32 (sp - (3 + argc + 1) * 4) in
      let* r := proc_op (mem_op (copyout pgdir sp (words ustack))) in
      if r <? 0 then ret None else
      ret (Some (sz, sp))
  end.

Definition exec (path : list Z) (argv : list (list Z)) : M kstate Z :=
  let* cur := kcurproc in
  let* sh := proc_op addrspace_shared in
  if sh then ret (-1) else
  begin_op ;;;
  let* o := namei path in
  match o with
  | None => end_op ;;; ret (-1)
  | Some ip =>
      ilock ip ;;;
      let close := (iunlockput ip ;;; end_op) in
      let* r := readi_exact ip 0 elf_size in
      match r with
      | None => close ;;; ret (-1)
      | Some d =>
          let elf := elf_decode d in
          if negb (e_magic elf =? ELF_MAGIC) then close ;;; ret (-1) else
          let* pgdir := proc_op (mem_op setupkvm) in
          if pgdir =? 0 then close ;;; ret (-1) else
          let* r := exec_load (Z.to_nat (e_phnum elf)) ip pgdir (s32 (e_phoff elf)) 0 in
          match r with
          | None => proc_op (mem_op (freevm pgdir)) ;;; close ;;; ret (-1)
          | Some sz =>
              close ;;;
              let* r := exec_stack pgdir sz argv in
              match r with
              | None => proc_op (mem_op (freevm pgdir)) ;;; ret (-1)
              | Some (sz, sp) =>
                  setproc cur (set_name (copy_name (last_elem path path))) ;;;
                  let* oldpgdir := getproc cur p_pgdir in
                  setproc cur (set_pgdir pgdir) ;;;
                  setproc cur (set_sz sz) ;;;
                  setproc cur (fun x => set_tf (set_eip (e_entry elf) (p_tf x)) x) ;;;
                  setproc cur (fun x => set_tf (set_esp sp (p_tf x)) x) ;;;
                  proc_op (switchuvm cur) ;;;
                  proc_op (mem_op (freevm oldpgdir)) ;;;
                  ret 0
              end
          end
      end
  end.

End exec.
