(* ===== verification/Syscall.v ===== *)
(** * System calls (syscall.c, sysproc.c)

    Fetching arguments from user memory, the calls on processes and memory.  A
    fetch that fails is [None].  A string argument is the bytes it points to. *)

From S2P Require Import Prelude Strings Bytes Monad Machine Kalloc Vm VmUser ProcDefs RunQueue Proc KernDefs Sleeplock Bio Log Fs File Fork Exec.

Section syscall.
Context {FU : Fuel} {BD : BlockDevice} {DV : DevSw} {KI : KernelImage}.

(** ** Arguments *)

Definition fetchint (addr : Z) : M kstate (option Z) :=
  let* cur := kcurproc in
  let* sz := getproc cur p_sz in
  if (sz <=? addr) || (sz <? u32 (addr + 4)) then ret None else
  let* v := uload32 addr in
  ret (Some (s32 v)).

(** The bytes from [s] to the NUL before [ep]. *)
Fixpoint fetchstr_loop (n : nat) (s ep : Z) (acc : list Z) : M kstate (option (list Z)) :=
  match n with
  | O => nofuel
  | S n =>
      if negb (s <? ep) then ret None else
      let* c := uload8 s in
      if c =? 0 then ret (Some acc) else
      fetchstr_loop n (u32 (s + 1)) ep (acc ++ [c])
  end.
Definition fetchstr (addr : Z) : M kstate (option (list Z)) :=
  let* cur := kcurproc in
  let* sz := getproc cur p_sz in
  if sz <=? addr then ret None else
  fetchstr_loop (S (Z.to_nat (sz - addr))) addr sz [].

Definition argint (n : Z) : M kstate (option Z) :=
  let* cur := kcurproc in
  let* tf := getproc cur p_tf in
  fetchint (u32 (tf_esp tf + 4 + 4 * n)).

Definition argptr (n size : Z) : M kstate (option Z) :=
  let* cur := kcurproc in
  let* r := argint n in
  match r with
  | None => ret None
  | Some i =>
      let* sz := getproc cur p_sz in
      if (size <? 0) || (sz <=? u32 i) || (sz <? u32 (u32 i + size)) then ret None else
      ret (Some (u32 i))
  end.

Definition argstr (n : Z) : M kstate (option (list Z)) :=
  let* r := argint n in
  match r with
  | None => ret None
  | Some addr => fetchstr (u32 addr)
  end.

(** [if(x < 0) return -1]. *)
Definition or_fail {A} (m : M kstate (option A)) (k : A -> M kstate Z) : M kstate Z :=
  let* r := m in
  match r with
  | Some a => k a
  | None => ret (-1)
  end.

(** ** sysproc.c *)

Definition sys_fork : M kstate Z := fork.
Definition sys_exit : M kstate Z := exit ;;; ret 0.
Definition sys_wait : M kstate Z := proc_op (wait fuel).
Definition sys_kill : M kstate Z := or_fail (argint 0) (fun pid => proc_op (kill pid)).
Definition sys_getpid : M kstate Z := mypid.

Definition sys_sbrk : M kstate Z :=
  let* cur := kcurproc in
  or_fail (argint 0) (fun n =>
    let* sz := getproc cur p_sz in
    let addr := s32 sz in
    if n <? 0 then
      let* r := proc_op (growproc n) in
      if r <? 0 then ret (-1) else ret addr
    else
    if (KERNBASE <=? u32 (sz + n)) || (u32 (sz + n) <? sz) then ret (-1) else
    setproc cur (set_sz (u32 (sz + n))) ;;;
    proc_op syncsize ;;;
    ret addr).

Definition sys_freemem : M kstate Z := proc_op (mem_op freemem).
Definition sys_setpriority : M kstate Z := or_fail (argint 0) (fun prio => proc_op (setpriority prio)).
Definition sys_getpriority : M kstate Z := proc_op getpriority.

Definition sys_clone : M kstate Z :=
  or_fail (argint 0) (fun fn => or_fail (argint 1) (fun arg => or_fail (argint 2) (fun stack =>
    clone (u32 fn) (u32 arg) (u32 stack)))).

Definition sys_join : M kstate Z :=
  or_fail (argptr 0 4) (fun p =>
    let* r := proc_op (join fuel) in
    if r.1 <? 0 then ret (-1) else
    match r.2 with Some stack => ustore32 p stack | None => ret tt end ;;;
    ret r.1).

Definition sys_futex_wait : M kstate Z :=
  or_fail (argptr 0 4) (fun addr => or_fail (argint 1) (fun expected => proc_op (futex_wait addr expected))).
Definition sys_futex_wake : M kstate Z :=
  or_fail (argptr 0 4) (fun addr => or_fail (argint 1) (fun n => proc_op (futex_wake addr n))).

Definition sys_getncpu : M kstate Z := let* n := proc_op (gets ncpu) in ret (Z.of_nat n).
Definition sys_getcpu : M kstate Z := let* id := proc_op cpuid in ret (Z.of_nat id).

(** [ticks - ticks0 < n] compares as unsigned. *)
Fixpoint sys_sleep_loop (f : nat) (ticks0 n : Z) : M kstate Z :=
  match f with
  | O => nofuel
  | S f =>
      let* t := proc_op (gets ticks) in
      if u32 (t - ticks0) <? u32 n then
        let* k := killed in
        if k then krelease LTicks ;;; ret (-1) else
        proc_op (sleep ChTicks LTicks) ;;;
        sys_sleep_loop f ticks0 n
      else krelease LTicks ;;; ret 0
  end.
Definition sys_sleep : M kstate Z :=
  or_fail (argint 0) (fun n =>
    kacquire LTicks ;;;
    let* ticks0 := proc_op (gets ticks) in
    sys_sleep_loop (S fuel) ticks0 n).

Definition sys_uptime : M kstate Z :=
  kacquire LTicks ;;;
  let* t := proc_op (gets ticks) in
  krelease LTicks ;;;
  ret (s32 t).

End syscall.
