(* ===== verification/Sysfile.v ===== *)
(** * File-system calls and dispatch (sysfile.c, the table of syscall.c)

    Bytes move between user memory and the kernel at the boundary of a call: what
    [read] returns is stored, what [write] takes is loaded, in one go. *)

From S2P Require Import Prelude Strings Bytes Monad Machine Kalloc Vm VmUser ProcDefs RunQueue Proc KernDefs Sleeplock Bio Log Fs File Fork Exec Syscall.

(** fcntl.h *)
Abbreviation O_RDONLY := (0x000)%Z.
Abbreviation O_WRONLY := (0x001)%Z.
Abbreviation O_RDWR := (0x002)%Z.
Abbreviation O_CREATE := (0x200)%Z.

Definition dot : list Z := [46].
Definition dotdot : list Z := [46; 46].

(** A fresh buffer [char name[DIRSIZ]]. *)
Definition name_buf : list Z := replicate (Z.to_nat DIRSIZ) 0.

Section sysfile.
Context {FU : Fuel} {BD : BlockDevice} {DV : DevSw} {KI : KernelImage}.

Definition argfd (n : Z) : M kstate (option (nat * nat)) :=
  let* r := argint n in
  match r with
  | None => ret None
  | Some fd =>
      if (fd <? 0) || (NOFILE <=? fd) then ret None else
      let* cur := kcurproc in
      let* f := getproc cur (fun x => p_ofile x !!! Z.to_nat fd) in
      ret (match f with Some f => Some (Z.to_nat fd, f) | None => None end)
  end.

Fixpoint fdalloc_loop (n fd cur f : nat) : M kstate (option nat) :=
  match n with
  | O => ret None
  | S n =>
      let* o := getproc cur (fun x => p_ofile x !!! fd) in
      match o with
      | None => setproc cur (fun x => set_ofile (<[fd := Some f]> (p_ofile x)) x) ;;; ret (Some fd)
      | Some _ => fdalloc_loop n (S fd) cur f
      end
  end.
Definition fdalloc (f : nat) : M kstate (option nat) :=
  let* cur := kcurproc in
  fdalloc_loop nofile 0 cur f.

Definition sys_dup : M kstate Z :=
  or_fail (argfd 0) (fun '(_, f) =>
    or_fail (fdalloc f) (fun fd =>
      filedup f ;;;
      ret (Z.of_nat fd))).

Definition sys_read : M kstate Z :=
  or_fail (argfd 0) (fun '(_, f) => or_fail (argint 2) (fun n => or_fail (argptr 1 n) (fun p =>
    or_fail (fileread f n) (fun l =>
      ustore p l ;;;
      ret (Z.of_nat (length l)))))).

Definition sys_write : M kstate Z :=
  or_fail (argfd 0) (fun '(_, f) => or_fail (argint 2) (fun n => or_fail (argptr 1 n) (fun p =>
    let* l := uload p (Z.to_nat n) in
    filewrite f l))).

Definition sys_close : M kstate Z :=
  or_fail (argfd 0) (fun '(fd, f) =>
    let* cur := kcurproc in
    setproc cur (fun x => set_ofile (<[fd := None]> (p_ofile x)) x) ;;;
    fileclose f ;;;
    ret 0).

(** [struct stat] in memory: 20 bytes with its padding, which is left alone. *)
Definition store_stat (p : Z) (st : stat) : M kstate unit :=
  ustore p (put16 0 (st_type st) (replicate 2 0)) ;;;
  ustore32 (u32 (p + 4)) (st_dev st) ;;;
  ustore32 (u32 (p + 8)) (st_ino st) ;;;
  ustore (u32 (p + 12)) (put16 0 (st_nlink st) (replicate 2 0)) ;;;
  ustore32 (u32 (p + 16)) (st_size st).

Definition sys_fstat : M kstate Z :=
  or_fail (argfd 0) (fun '(_, f) => or_fail (argptr 1 20) (fun p =>
    or_fail (filestat f) (fun st => store_stat p st ;;; ret 0))).

Definition add_nlink (ip : nat) (d : Z) : M kstate unit :=
  seti ip (fun x => set_i_nlink (s16 (i_nlink x + d)) x).

Definition sys_link : M kstate Z :=
  or_fail (argstr 0) (fun old => or_fail (argstr 1) (fun new =>
    begin_op ;;;
    let* o := namei old in
    match o with
    | None => end_op ;;; ret (-1)
    | Some ip =>
        ilock ip ;;;
        let* t := geti ip i_type in
        if t =? T_DIR then iunlockput ip ;;; end_op ;;; ret (-1) else
        add_nlink ip 1 ;;;
        iupdate ip ;;;
        iunlock ip ;;;
        let bad := (
          ilock ip ;;;
          add_nlink ip (-1) ;;;
          iupdate ip ;;;
          iunlockput ip ;;;
          end_op ;;;
          ret (-1)) in
        let* r := nameiparent new name_buf in
        match r with
        | (None, _) => bad
        | (Some dp, name) =>
            ilock dp ;;;
            let* ddev := geti dp i_dev in
            let* idev := geti ip i_dev in
            let* inum := geti ip i_inum in
            let* r := (if negb (ddev =? idev) then ret (-1) else dirlink dp name inum) in
            if r <? 0 then iunlockput dp ;;; bad else
            iunlockput dp ;;;
            iput ip ;;;
            end_op ;;;
            ret 0
        end
    end)).

Fixpoint isdirempty_loop (f : nat) (dp : nat) (off : Z) : M kstate bool :=
  match f with
  | O => nofuel
  | S f =>
      let* size := geti dp i_size in
      if negb (u32 off <? size) then ret true else
      let* r := readi dp (u32 off) de_size in
      match r with
      | Some de =>
          if negb (Z.of_nat (length de) =? de_size) then panic "isdirempty: readi" else
          if negb (de_inum de =? 0) then ret false else
          isdirempty_loop f dp (s32 (off + de_size))
      | None => panic "isdirempty: readi"
      end
  end.
Definition isdirempty (dp : nat) : M kstate bool :=
  let* size := geti dp i_size in
  isdirempty_loop (dir_fuel size) dp (2 * de_size).

Definition sys_unlink : M kstate Z :=
  or_fail (argstr 0) (fun path =>
    begin_op ;;;
    let* r := nameiparent path name_buf in
    match r with
    | (None, _) => end_op ;;; ret (-1)
    | (Some dp, name) =>
        ilock dp ;;;
        let bad := (iunlockput dp ;;; end_op ;;; ret (-1)) in
        if (namecmp name dot =? 0) || (namecmp name dotdot =? 0) then bad else
        let* o := dirlookup dp name in
        match o with
        | None => bad
        | Some (ip, off) =>
            ilock ip ;;;
            let* nl := geti ip i_nlink in
            if nl <? 1 then panic "unlink: nlink < 1" else
            let* t := geti ip i_type in
            let* full := (if t =? T_DIR then let* e := isdirempty ip in ret (negb e) else ret false) in
            if full then iunlockput ip ;;; bad else
            let* n := writei dp (replicate 16 0) off in
            if negb (n =? de_size) then panic "unlink: writei" else
            let* t := geti ip i_type in
            when (t =? T_DIR) (add_nlink dp (-1) ;;; iupdate dp) ;;;
            iunlockput dp ;;;
            add_nlink ip (-1) ;;;
            iupdate ip ;;;
            iunlockput ip ;;;
            end_op ;;;
            ret 0
        end
    end).

Definition create (path : list Z) (type major minor : Z) : M kstate (option nat) :=
  let* r := nameiparent path name_buf in
  match r with
  | (None, _) => ret None
  | (Some dp, name) =>
      ilock dp ;;;
      let* o := dirlookup dp name in
      match o with
      | Some (ip, _) =>
          iunlockput dp ;;;
          ilock ip ;;;
          let* t := geti ip i_type in
          if (type =? T_FILE) && (t =? T_FILE) then ret (Some ip) else
          iunlockput ip ;;;
          ret None
      | None =>
          let* ddev := geti dp i_dev in
          let* ip := ialloc ddev type in
          ilock ip ;;;
          seti ip (set_i_major (s16 major)) ;;;
          seti ip (set_i_minor (s16 minor)) ;;;
          seti ip (set_i_nlink 1) ;;;
          iupdate ip ;;;
          let* inum := geti ip i_inum in
          when (type =? T_DIR) (
            add_nlink dp 1 ;;;
            iupdate dp ;;;
            let* r := dirlink ip dot inum in
            if r <? 0 then panic "create dots" else
            let* dnum := geti dp i_inum in
            let* r := dirlink ip dotdot dnum in
            if r <? 0 then panic "create dots" else ret tt) ;;;
          let* r := dirlink dp name inum in
          if r <? 0 then panic "create: dirlink" else
          iunlockput dp ;;;
          ret (Some ip)
      end
  end.

(** The inode to open, locked, inside the transaction. *)
Definition open_inode (path : list Z) (omode : Z) : M kstate (option nat) :=
  if negb (Z.land omode O_CREATE =? 0) then create path T_FILE 0 0 else
  let* o := namei path in
  match o with
  | None => ret None
  | Some ip =>
      ilock ip ;;;
      let* t := geti ip i_type in
      if (t =? T_DIR) && negb (omode =? O_RDONLY) then iunlockput ip ;;; ret None else
      ret (Some ip)
  end.

Definition sys_open : M kstate Z :=
  or_fail (argstr 0) (fun path => or_fail (argint 1) (fun omode =>
    begin_op ;;;
    let* o := open_inode path omode in
    match o with
    | None => end_op ;;; ret (-1)
    | Some ip =>
        let fail := (iunlockput ip ;;; end_op ;;; ret (-1)) in
        let* f := filealloc in
        match f with
        | None => fail
        | Some f =>
            let* fd := fdalloc f in
            match fd with
            | None => fileclose f ;;; fail
            | Some fd =>
                iunlock ip ;;;
                end_op ;;;
                setf f (set_f_type FD_INODE) ;;;
                setf f (set_f_ip (Some ip)) ;;;
                setf f (set_f_off 0) ;;;
                setf f (set_f_readable (if Z.land omode O_WRONLY =? 0 then 1 else 0)) ;;;
                setf f (set_f_writable (if negb (Z.land omode O_WRONLY =? 0) || negb (Z.land omode O_RDWR =? 0) then 1 else 0)) ;;;
                ret (Z.of_nat fd)
            end
        end
    end)).

(** The end of [sys_mkdir] and [sys_mknod]. *)
Definition finish_create (m : M kstate (option nat)) : M kstate Z :=
  let* o := m in
  match o with
  | None => end_op ;;; ret (-1)
  | Some ip => iunlockput ip ;;; end_op ;;; ret 0
  end.

Definition sys_mkdir : M kstate Z :=
  begin_op ;;;
  finish_create (
    let* path := argstr 0 in
    match path with Some path => create path T_DIR 0 0 | None => ret None end).

Definition sys_mknod : M kstate Z :=
  begin_op ;;;
  finish_create (
    let* path := argstr 0 in
    match path with
    | None => ret None
    | Some path =>
        let* major := argint 1 in
        match major with
        | None => ret None
        | Some major =>
            let* minor := argint 2 in
            match minor with
            | None => ret None
            | Some minor => create path T_DEV major minor
            end
        end
    end).

Definition sys_chdir : M kstate Z :=
  let* cur := kcurproc in
  begin_op ;;;
  let* path := argstr 0 in
  let* o := match path with Some path => namei path | None => ret None end in
  match o with
  | None => end_op ;;; ret (-1)
  | Some ip =>
      ilock ip ;;;
      let* t := geti ip i_type in
      if negb (t =? T_DIR) then iunlockput ip ;;; end_op ;;; ret (-1) else
      iunlock ip ;;;
      let* cwd := getproc cur p_cwd in
      let* cwd := deref cwd in
      iput cwd ;;;
      end_op ;;;
      setproc cur (set_cwd (Some ip)) ;;;
      ret 0
  end.

(** [argv] has [MAXARG] entries, the null pointer included. *)
Fixpoint fetch_argv (n : nat) (uargv i : Z) (acc : list (list Z)) : M kstate (option (list (list Z))) :=
  match n with
  | O => ret None
  | S n =>
      let* r := fetchint (u32 (uargv + 4 * i)) in
      match r with
      | None => ret None
      | Some uarg =>
          if uarg =? 0 then ret (Some acc) else
          let* r := fetchstr (u32 uarg) in
          match r with
          | None => ret None
          | Some a => fetch_argv n uargv (i + 1) (acc ++ [a])
          end
      end
  end.
Definition sys_exec : M kstate Z :=
  or_fail (argstr 0) (fun path => or_fail (argint 1) (fun uargv =>
    or_fail (fetch_argv (Z.to_nat MAXARG) (u32 uargv) 0 []) (fun argv => exec path argv))).

Definition sys_pipe : M kstate Z :=
  or_fail (argptr 0 8) (fun fd =>
    or_fail pipealloc (fun '(rf, wf) =>
      let* cur := kcurproc in
      let fail := (fileclose rf ;;; fileclose wf ;;; ret (-1)) in
      let* fd0 := fdalloc rf in
      match fd0 with
      | None => fail
      | Some fd0 =>
          let* fd1 := fdalloc wf in
          match fd1 with
          | None =>
              setproc cur (fun x => set_ofile (<[fd0 := None]> (p_ofile x)) x) ;;;
              fail
          | Some fd1 =>
              ustore32 fd (Z.of_nat fd0) ;;;
              ustore32 (u32 (fd + 4)) (Z.of_nat fd1) ;;;
              ret 0
          end
      end)).

(** ** Dispatch (syscall.c, syscall.h) *)

Definition syscalls : list (M kstate Z) :=
  [sys_fork; sys_exit; sys_wait; sys_pipe; sys_read; sys_kill; sys_exec; sys_fstat; sys_chdir; sys_dup;
   sys_getpid; sys_sbrk; sys_sleep; sys_uptime; sys_open; sys_write; sys_mknod; sys_unlink; sys_link; sys_mkdir;
   sys_close; sys_freemem; sys_setpriority; sys_getpriority; sys_getcpu; sys_getncpu; sys_clone; sys_join;
   sys_futex_wait; sys_futex_wake].

Definition set_result (cur : nat) (r : Z) : M kstate unit :=
  setproc cur (fun x => set_tf (set_eax (u32 r) (p_tf x)) x).

(** Entry 0 of the table is empty. *)
Definition syscall : M kstate unit :=
  let* cur := kcurproc in
  let* tf := getproc cur p_tf in
  let num := s32 (tf_eax tf) in
  match (if 0 <? num then syscalls !! Z.to_nat (num - 1) else None) with
  | Some f => let* r := f in set_result cur r
  | None => set_result cur (-1)
  end.

End sysfile.
