(* ===== verification/PipeInv.v ===== *)
(** * Pipes are queues

    The ring buffer of a pipe, whose two counters run modulo 2^32, against the
    queue of the bytes written and not read yet. *)

From S2P Require Import Prelude Bytes Ring Monad Machine Kalloc ProcDefs RunQueue Proc ProcInv KernDefs Sleeplock Bio Log Fs File DemoKern Demo.

(** Bytes in the buffer. *)
Definition plen (x : pipe) : nat := ahead (p_nread x) (p_nwrite x).
Definition queue (x : pipe) : list Z := ring PIPESIZE (p_data x) (p_nread x) (plen x).

Record pipe_ok (x : pipe) : Prop := {
  po_data : length (p_data x) = 512%nat;
  po_r : 0 <= p_nread x < 2 ^ 32;
  po_w : 0 <= p_nwrite x < 2 ^ 32;
  po_len : (plen x <= 512)%nat
}.

(** One byte in, one byte out. *)
Definition push (c : Z) (x : pipe) : pipe :=
  set_p_nwrite (u32 (p_nwrite x + 1)) (set_p_data (<[slot PIPESIZE (p_nwrite x) := c]> (p_data x)) x).
Definition pop (x : pipe) : pipe := set_p_nread (u32 (p_nread x + 1)) x.

Lemma pipesize_div : (PIPESIZE | 2 ^ 32).
Proof. by exists (2 ^ 23). Qed.

Lemma length_queue x : length (queue x) = plen x.
Proof. apply length_ring. Qed.

Lemma full_spec x : pipe_ok x -> (p_nwrite x =? u32 (p_nread x + PIPESIZE)) = true <-> plen x = 512%nat.
Proof.
  intros [_ _ Hw _]. rewrite Z.eqb_eq. unfold plen. split.
  - intros ->. by apply ahead_at.
  - intros E. rewrite (ahead_back (p_nread x) _ Hw), E. done.
Qed.

Lemma empty_spec x : pipe_ok x -> (p_nread x =? p_nwrite x) = true <-> plen x = 0%nat.
Proof. intros [_ Hr Hw _]. rewrite Z.eqb_eq. symmetry. by apply ahead_0. Qed.

Lemma plen_push c x : pipe_ok x -> (plen x < 512)%nat -> plen (push c x) = S (plen x).
Proof. intros [_ _ Hw _] Hl. unfold plen in *. cbn [push p_nwrite p_nread set_p_nwrite set_p_data]. apply ahead_succ; [done|lia]. Qed.

Lemma push_ok c x : pipe_ok x -> (plen x < 512)%nat -> pipe_ok (push c x).
Proof.
  intros Hp Hl. pose proof (plen_push c x Hp Hl) as Hn. destruct Hp as [H1 H2 H3 H4]. split; [by cbn; rewrite length_insert|done| |lia].
  cbn. apply Z.mod_pos_bound. lia.
Qed.

(** A byte written goes to the end of the queue. *)
Lemma queue_push c x : pipe_ok x -> (plen x < 512)%nat -> queue (push c x) = queue x ++ [c].
Proof.
  intros Hp Hl. unfold queue. rewrite (plen_push c x Hp Hl). cbn [push p_data p_nread set_p_nwrite set_p_data].
  rewrite (ahead_back (p_nread x) (p_nwrite x) (po_w _ Hp)), slot_u32 by apply pipesize_div. fold (plen x).
  apply ring_push; [done|by rewrite (po_data _ Hp)|]. change PIPESIZE with 512. lia.
Qed.

Lemma plen_pop x : pipe_ok x -> (0 < plen x)%nat -> plen (pop x) = (plen x - 1)%nat.
Proof. intros [_ _ Hw _] Hl. by apply ahead_pred. Qed.

Lemma pop_ok x : pipe_ok x -> (0 < plen x)%nat -> pipe_ok (pop x).
Proof.
  intros Hp Hl. pose proof (plen_pop x Hp Hl) as Hn. destruct Hp as [H1 H2 H3 H4]. split; [done| |done|lia].
  cbn. apply Z.mod_pos_bound. lia.
Qed.

(** The byte read is the first of the queue. *)
Lemma queue_pop x : pipe_ok x -> (0 < plen x)%nat -> queue x = p_data x !!! slot PIPESIZE (p_nread x) :: queue (pop x).
Proof.
  intros Hp Hl. unfold queue at 2. rewrite (plen_pop x Hp Hl). cbn [pop p_data p_nread set_p_nread]. rewrite ring_u32 by apply pipesize_div.
  unfold queue. replace (plen x) with (S (plen x - 1)) at 1 by lia. apply ring_cons.
Qed.

(** ** The code *)

(** The pipe at [pi] is [x]. *)
Definition at_pipe (pi : Z) (x : pipe) (s : kstate) : kstate := put_pipes (<[pi := x]> (pipes s)) s.

Lemma setpipe_wp pi x f s (R : unit -> kstate -> Prop) :
  pipes s !! pi = Some x -> R tt (at_pipe pi (f x) s) -> wp (setpipe pi f) R s.
Proof.
  intros Hx HR. apply wp_modify. unfold at_pipe in HR. assert (alter f pi (pipes s) = <[pi := f x]> (pipes s)) as ->; [|done].
  apply map_eq. intros k. destruct (decide (k = pi)) as [->|Hne].
  - by rewrite lookup_alter_eq, Hx, lookup_insert_eq.
  - by rewrite lookup_alter_ne, lookup_insert_ne by done.
Qed.

Lemma at_pipe_eq pi x s : pipes (at_pipe pi x s) !! pi = Some x.
Proof. apply lookup_insert_eq. Qed.

Lemma at_pipe_twice pi x y s : at_pipe pi x (at_pipe pi y s) = at_pipe pi x s.
Proof. unfold at_pipe. cbn. by rewrite insert_insert_eq. Qed.

Lemma pipe_get pi x s : pipes s !! pi = Some x -> pipes s !!! pi = x.
Proof. intros Hx. unfold lookup_total, map_lookup_total. by rewrite Hx. Qed.

Section code.
Context {FU : Fuel} {BD : BlockDevice} {DV : DevSw} {KI : KernelImage}.

(** Whether process [p] was killed. *)
Definition was_killed (p : nat) (s : kstate) : Prop := p_killed (procs (kp s) !!! p) <> 0.

Lemma killed_wp p h s (R : bool -> kstate -> Prop) :
  kctx p h s -> (forall b, (b = true -> was_killed p s) -> R b s) -> wp killed R s.
Proof.
  intros Hk HR. unfold killed. wp_step. eapply kcurproc_wp; [done|]. wp_step. unfold proc_op, getp. do 3 wp_step.
  rewrite put_kp_same. apply HR. by intros ?%negb_true_iff%Z.eqb_neq.
Qed.

(** The bytes [l] went into pipe [x0], and since then some of what it held was read. *)
Record sent (x0 : pipe) (l : list Z) (x : pipe) : Prop := {
  sn_ok : pipe_ok x;
  sn_w : p_nwrite x = u32 (p_nwrite x0 + Z.of_nat (length l));
  sn_queue : exists k, (k <= length (queue x0 ++ l))%nat /\ queue x = drop k (queue x0 ++ l)
}.

Lemma sent_nil x : pipe_ok x -> sent x [] x.
Proof.
  intros Hok. split; [done|by rewrite Z.add_0_r, u32_small by apply Hok|]. exists 0%nat. rewrite app_nil_r. split; [lia|done].
Qed.

Lemma sent_push x0 l c x : sent x0 l x -> (plen x < 512)%nat -> sent x0 (l ++ [c]) (push c x).
Proof.
  intros [Hok Hw (k & Hk & Hq)] Hl. split; [by apply push_ok| |].
  - cbn [push p_nwrite set_p_nwrite]. rewrite Hw, u32_add_l, length_app. f_equal. cbn. lia.
  - exists k. rewrite queue_push, Hq by done. rewrite app_assoc, (drop_app_le (queue x0 ++ l)), (length_app (queue x0 ++ l)) by done. split; [lia|done].
Qed.

(** The other processes read from the pipe and do not write. *)
Definition reads_only (pi : Z) (s s' : kstate) : Prop :=
  forall x, pipes s !! pi = Some x -> pipe_ok x ->
  exists x' k, pipes s' !! pi = Some x' /\ pipe_ok x' /\ p_nwrite x' = p_nwrite x /\ (k <= plen x)%nat /\ queue x' = drop k (queue x).

(** Of the bytes to write some, in order, are in the pipe or read. *)
Definition sending (pi : Z) (x0 : pipe) (l : list Z) (s : kstate) : Prop :=
  exists i x, pipes s !! pi = Some x /\ sent x0 (take i l) x.

Lemma sent_reads x0 l x x' k :
  sent x0 l x -> pipe_ok x' -> p_nwrite x' = p_nwrite x -> (k <= plen x)%nat -> queue x' = drop k (queue x) -> sent x0 l x'.
Proof.
  intros [Hok Hw (j & Hj & Hq)] Hok' Ew Hk Eq. split; [done|congruence|]. exists (j + k)%nat. rewrite Eq, Hq, drop_drop. split; [|done].
  rewrite <- length_queue, Hq, length_drop in Hk. lia.
Qed.

Lemma sending_steady pi x0 l : steady (sending pi x0 l) (reads_only pi).
Proof.
  split.
  - intros s1 s2 s3 H12 H23 x Hx Hok. destruct (H12 x Hx Hok) as (y & j & Hy & Hoky & Wy & Hj & Qy).
    destruct (H23 y Hy Hoky) as (z & k & Hz & Hokz & Wz & Hk & Qz). exists z, (j + k)%nat. rewrite <- length_queue, Qy, length_drop, length_queue in Hk.
    split_and!; [done|done|congruence|lia|]. by rewrite Qz, Qy, drop_drop.
  - intros s y. split; intros x Hx Hok; exists x, 0%nat; (split_and!; [done|done|done|lia|done]).
  - intros s s' (i & x & Hx & Hs) HT. destruct (HT x Hx (sn_ok _ _ _ Hs)) as (x' & k & Hx' & Hok' & W & Hk & Q). exists i, x'.
    split; [done|]. by eapply sent_reads.
Qed.

Section writing.
Context (pi : Z) (p : nat) (x0 : pipe) (l : list Z).
Abbreviation G := (kgiven_up (sending pi x0 l)).
Abbreviation T := (kback (reads_only pi) p).

(** The pipe is full, and nobody will read it or the writer is to die. *)
Definition broken (x : pipe) (s : kstate) : Prop := plen x = 512%nat /\ (p_readopen x = 0 \/ was_killed p s).

Lemma pipewrite_wait_wps n i x s (P : bool -> kstate -> Prop) :
  kctx p [LPipe pi] s -> pipes s !! pi = Some x -> sent x0 (take i l) x ->
  (forall s' x, kctx p [] s' -> pipes s' !! pi = Some x -> sent x0 (take i l) x -> broken x s' -> P false s') ->
  (forall s' x, kctx p [LPipe pi] s' -> pipes s' !! pi = Some x -> sent x0 (take i l) x -> (plen x < 512)%nat -> P true s') ->
  wps G T (pipewrite_wait n pi) P s.
Proof.
  intros Hk Hx Hs HF HT. revert s x Hk Hx Hs. induction n as [|n IH]; intros s x Hk Hx Hs; [done|]. cbn [pipewrite_wait].
  pose proof (sn_ok _ _ _ Hs) as Hok. apply wps_bind, wp_wps, wp_gets. rewrite (pipe_get _ _ _ Hx). destruct (p_nwrite x =? _) eqn:E.
  - apply full_spec in E; [|done]. apply wps_bind, wp_wps.
    eapply (wp_mono _ (fun b s' => s' = s /\ (b = true -> p_readopen x = 0 \/ was_killed p s))).
    { destruct (Z.eqb_spec (p_readopen x) 0); [apply wp_ret; auto|]. eapply killed_wp; [done|]. auto. }
    intros b s' [-> Hb]. destruct b.
    + apply wps_bind, wp_wps. eapply krelease_wp; [done|set_solver|]. cbv zeta. intros Hk'. apply wp_wps, wp_ret, (HF _ x); try done.
      split; [done|by apply Hb].
    + apply wps_bind, wp_wps. eapply kwakeup_wp; [done|set_solver|]. intros p' Hq. apply wps_bind.
      eapply ksleep_rel_wps; [apply sending_steady|by eapply kctx_quiet|by exists i, x|]. intros s' Hk' Hr.
      destruct (Hr x Hx Hok) as (x' & k & Hx' & Hok' & W & Hle & Q). apply (IH s' x'); [done|done|]. by eapply sent_reads.
  - apply wp_wps, wp_ret. apply (HT s x); [done|done|done|]. pose proof (po_len _ Hok). apply not_true_iff_false in E.
    rewrite full_spec in E by done. lia.
Qed.

Lemma pipewrite_loop_wps i x s (P : bool -> kstate -> Prop) :
  kctx p [LPipe pi] s -> pipes s !! pi = Some x -> sent x0 (take i l) x ->
  (forall s' x j, kctx p [] s' -> pipes s' !! pi = Some x -> (j < length l)%nat -> sent x0 (take j l) x -> broken x s' -> P false s') ->
  (forall s' x, kctx p [LPipe pi] s' -> pipes s' !! pi = Some x -> sent x0 l x -> P true s') ->
  wps G T (pipewrite_loop (drop i l) pi) P s.
Proof.
  intros Hk Hx Hs HF HT. remember (drop i l) as l2 eqn:El. revert i x s Hk Hx Hs El. induction l2 as [|c l2 IH]; intros i x s Hk Hx Hs El; cbn [pipewrite_loop].
  - apply wp_wps, wp_ret. apply (HT s x); [done|done|]. symmetry in El. apply drop_nil_inv in El. by rewrite take_ge in Hs.
  - assert (l !! i = Some c) as Hi by (by rewrite <- (Nat.add_0_r i), <- lookup_drop, <- El).
    pose proof (lookup_lt_Some _ _ _ Hi) as Hlt.
    apply wps_bind. eapply (pipewrite_wait_wps _ i); [done|done|done| |].
    + intros s' x' Hk' Hx' Hs' Hb. cbn [negb]. apply wp_wps, wp_ret. by apply (HF s' x' i).
    + intros s' x' Hk' Hx' Hs' Hl. cbn [negb]. apply wps_bind, wp_wps, (setpipe_wp pi x'); [done|].
      apply (IH (S i) (push c x')); [by eapply kctx_same|apply at_pipe_eq| |].
      * rewrite (take_S_r _ _ c) by done. by apply sent_push.
      * rewrite (drop_S l c i) in El by done. by injection El.
Qed.

End writing.

(** C30. What [pipewrite] reports is what it did.  Started on a pipe that holds
    [queue x0], whose other users read and do not write while it sleeps, it never
    panics, and whenever it gives up the CPU some of the bytes to write, the first
    ones in their order, have been added behind what the pipe held.  When it returns
    the number of bytes, all of them have been, each once, and no reader is left
    asleep; when it returns -1, a proper prefix has been, the pipe is full, and it
    has no reader left or the process was killed.  No lock is held then. *)
Theorem pipewrite_safe pi p l x0 s :
  kctx p [] s -> pipes s !! pi = Some x0 -> pipe_ok x0 ->
  wps (kgiven_up (sending pi x0 l)) (kback (reads_only pi) p) (pipewrite pi l)
    (fun r s' => kctx p [] s' /\ exists x, pipes s' !! pi = Some x /\
       (r = Z.of_nat (length l) /\ sent x0 l x /\ no_sleeper (ChPipeR pi) (kp s') \/
        r = -1 /\ broken p x s' /\ exists i, (i < length l)%nat /\ sent x0 (take i l) x)) s.
Proof.
  intros Hk Hx Hok. unfold pipewrite. apply wps_bind, wp_wps. eapply kacquire_wp; [done|set_solver|]. intros Hk1.
  apply wps_bind. eapply (pipewrite_loop_wps pi p x0 l 0); [done|done|by apply sent_nil| |].
  - intros s' x i Hk' Hx' Hi Hs Hb. cbn [negb]. apply wp_wps, wp_ret. split; [done|]. exists x. split; [done|]. right. eauto.
  - intros s' x Hk' Hx' Hs. cbn [negb]. apply wps_bind, wp_wps. eapply kwakeup_wakes_wp; [done|set_solver|]. intros p' Hq Hns.
    apply wps_bind, wp_wps. eapply krelease_wp; [by eapply kctx_quiet|set_solver|]. cbv zeta. intros Hk2. apply wp_wps, wp_ret.
    split; [done|]. exists x. split; [done|]. by left.
Qed.

(** With room for all the bytes nothing waits. *)
Lemma pipewrite_loop_wp pi l x s (R : bool -> kstate -> Prop) :
  pipes s !! pi = Some x -> pipe_ok x -> (plen x + length l <= 512)%nat ->
  (forall x', pipe_ok x' -> queue x' = queue x ++ l -> p_readopen x' = p_readopen x -> p_writeopen x' = p_writeopen x -> R true (at_pipe pi x' s)) ->
  wp (pipewrite_loop l pi) R s.
Proof.
  revert x s. induction l as [|c l IH]; intros x s Hx Hok Hl HR; cbn [pipewrite_loop].
  - apply wp_ret. assert (at_pipe pi x s = s) as <-; [unfold at_pipe; rewrite insert_id by done; by destruct s|].
    apply HR; [done|by rewrite app_nil_r|done|done].
  - cbn [length] in Hl. assert ((p_nwrite x =? u32 (p_nread x + PIPESIZE)) = false) as E.
    { apply not_true_iff_false. rewrite full_spec by done. lia. }
    wp_step. cbn [pipewrite_wait]. wp_step. wp_step. rewrite (pipe_get _ _ _ Hx), E. apply wp_ret. cbn [negb].
    wp_step. apply (setpipe_wp pi x); [done|]. apply (IH (push c x)).
    + apply at_pipe_eq.
    + apply push_ok; [done|lia].
    + rewrite plen_push by (done || lia). lia.
    + intros x' Hok' Hq H1 H2. rewrite at_pipe_twice. apply HR; [done| |done|done].
      rewrite Hq, queue_push, <- app_assoc by (done || lia). done.
Qed.

Lemma pipewrite_wp pi p l x s (R : Z -> kstate -> Prop) :
  kctx p [] s -> pipes s !! pi = Some x -> pipe_ok x -> (plen x + length l <= 512)%nat ->
  (forall x' q, pipe_ok x' -> queue x' = queue x ++ l -> p_readopen x' = p_readopen x -> p_writeopen x' = p_writeopen x ->
     kctx p [] (put_kp q (at_pipe pi x' s)) -> R (Z.of_nat (length l)) (put_kp q (at_pipe pi x' s))) ->
  wp (pipewrite pi l) R s.
Proof.
  intros Hk Hx Hok Hl HR. unfold pipewrite. wp_step. eapply kacquire_wp; [done|set_solver|]. intros Hk1. wp_step.
  eapply pipewrite_loop_wp; [exact Hx|done|done|]. intros x' Hok' Hq H1 H2. cbn [negb]. wp_step.
  eapply kwakeup_wp; [by eapply kctx_same|set_solver|]. intros p' Hqt. wp_step.
  eapply krelease_wp; [eapply kctx_quiet; [by eapply kctx_same; [exact Hk1|]|exact Hqt]|set_solver|]. cbv zeta. intros Hk2. wp_step.
  by apply (HR x').
Qed.

Lemma piperead_loop_wp pi n acc x s (R : list Z -> kstate -> Prop) :
  pipes s !! pi = Some x -> pipe_ok x ->
  (forall x', pipe_ok x' -> queue x' = drop n (queue x) -> R (acc ++ take n (queue x)) (at_pipe pi x' s)) ->
  wp (piperead_loop n pi acc) R s.
Proof.
  revert acc x s. induction n as [|n IH]; intros acc x s Hx Hok HR; cbn [piperead_loop].
  - apply wp_ret. assert (at_pipe pi x s = s) as <-; [unfold at_pipe; rewrite insert_id by done; by destruct s|].
    rewrite <- (app_nil_r acc). by apply (HR x).
  - wp_step. wp_step. rewrite (pipe_get _ _ _ Hx). destruct (p_nread x =? p_nwrite x) eqn:E.
    + apply empty_spec in E; [|done]. apply wp_ret. assert (queue x = []) as Eq by (apply length_zero_iff_nil; by rewrite length_queue).
      assert (at_pipe pi x s = s) as <-; [unfold at_pipe; rewrite insert_id by done; by destruct s|].
      rewrite Eq in HR. cbn in HR. rewrite app_nil_r in HR. by apply HR.
    + assert (0 < plen x)%nat as Hl.
      { apply not_true_iff_false in E. rewrite empty_spec in E by done. lia. }
      wp_step. apply (setpipe_wp pi x); [done|]. change (set_p_nread _ x) with (pop x). apply (IH _ (pop x)); [apply at_pipe_eq|by apply pop_ok|].
      intros x' Hok' Hq. rewrite at_pipe_twice, <- app_assoc. rewrite (queue_pop x Hok Hl) in HR. cbn [take drop] in HR. by apply HR.
Qed.

(** C29. A pipe is a queue: bytes come out in the order they went in.  With room for
    them, [pipewrite] of [l] takes all the bytes; a [piperead] of [n] right after
    returns the first [n] bytes of what the pipe held followed by [l], and leaves
    the rest in order. *)
Theorem pipe_fifo pi p l n x s :
  kctx p [] s -> pipes s !! pi = Some x -> pipe_ok x -> (plen x + length l <= 512)%nat -> queue x ++ l <> [] -> 0 <= n ->
  wp (let* w := pipewrite pi l in let* r := piperead pi n in ret (w, r))
     (fun wr s' => wr = (Z.of_nat (length l), Some (take (Z.to_nat n) (queue x ++ l))) /\ kctx p [] s' /\
        exists x', pipes s' !! pi = Some x' /\ pipe_ok x' /\ queue x' = drop (Z.to_nat n) (queue x ++ l)) s.
Proof.
  intros Hk Hx Hok Hl Hne Hn. wp_step. eapply pipewrite_wp; [done|exact Hx|done|done|]. intros x1 q Hok1 Hq1 _ _ Hk1. wp_step.
  set (s1 := put_kp q (at_pipe pi x1 s)) in *. assert (pipes s1 !! pi = Some x1) as Hx1 by apply at_pipe_eq.
  assert ((p_nread x1 =? p_nwrite x1) = false) as E.
  { apply not_true_iff_false. rewrite empty_spec by done. rewrite <- length_queue, Hq1. intros E%nil_length_inv. done. }
  unfold piperead. wp_step. eapply kacquire_wp; [done|set_solver|]. intros Hk2. wp_step. cbn [piperead_wait]. wp_step. wp_step.
  change (pipes (klocked (LPipe pi) s1)) with (pipes s1). rewrite (pipe_get _ _ _ Hx1), E. cbn [andb]. apply wp_ret. cbn [negb]. wp_step.
  eapply (piperead_loop_wp pi _ [] x1); [done|done|]. intros x2 Hok2 Hq2. cbn [app]. wp_step.
  eapply kwakeup_wp; [by eapply kctx_same|set_solver|]. intros p' Hqt. wp_step.
  eapply krelease_wp; [eapply kctx_quiet; [by eapply kctx_same; [exact Hk2|]|exact Hqt]|set_solver|]. cbv zeta. intros Hk3. wp_step. wp_step.
  rewrite Hq1. split; [done|]. split; [done|]. exists x2. split; [apply at_pipe_eq|]. split; [done|]. by rewrite Hq2, Hq1.
Qed.

End code.

(** ** Witnesses *)

#[local] Instance demo_dev : DevSw := {| dev_read := fun _ => None; dev_write := fun _ => None |}.

(** A pipe whose counters are about to wrap around. *)
Definition demo_pipe : pipe := MkPipe (replicate 512 7) (2 ^ 32 - 2) (2 ^ 32 - 1) 1 1.
Definition demo_piped : kstate := put_pipes {[ kva 1030 := demo_pipe ]} (demo_k buf0 (demo_log [] 0)).

Lemma demo_pipe_ok : pipe_ok demo_pipe.
Proof. split; [done|cbn; lia|cbn; lia|vm_compute; lia]. Qed.

(** More bytes than fit. *)
Lemma pipewrite_safe_witness :
  let l := replicate 600 46 in
  wps (kgiven_up (sending (kva 1030) demo_pipe l)) (kback (reads_only (kva 1030)) 1) (pipewrite (kva 1030) l)
    (fun r s' => kctx 1 [] s' /\ exists x, pipes s' !! kva 1030 = Some x /\
       (r = Z.of_nat (length l) /\ sent demo_pipe l x /\ no_sleeper (ChPipeR (kva 1030)) (kp s') \/
        r = -1 /\ broken 1 x s' /\ exists i, (i < length l)%nat /\ sent demo_pipe (take i l) x)) demo_piped.
Proof.
  intros l. apply (pipewrite_safe (kva 1030) 1 l demo_pipe demo_piped);
    [eapply kctx_same; [apply (demo_kctx buf0 (demo_log [] 0))|done]|done|apply demo_pipe_ok].
Defined.

Lemma pipe_fifo_witness :
  wp (let* w := pipewrite (kva 1030) [1; 2; 3] in let* r := piperead (kva 1030) 2 in ret (w, r))
     (fun wr s' => wr = (Z.of_nat (length [1; 2; 3]), Some (take (Z.to_nat 2) (queue demo_pipe ++ [1; 2; 3]))) /\ kctx 1 [] s' /\
        exists x', pipes s' !! kva 1030 = Some x' /\ pipe_ok x' /\ queue x' = drop (Z.to_nat 2) (queue demo_pipe ++ [1; 2; 3])) demo_piped.
Proof.
  apply (pipe_fifo (kva 1030) 1 [1; 2; 3] 2 demo_pipe demo_piped);
    [eapply kctx_same; [apply (demo_kctx buf0 (demo_log [] 0))|done]|done|apply demo_pipe_ok|vm_compute; lia|by vm_compute|lia].
Defined.
