(* ===== verification/Console.v ===== *)
(** * The console and the keyboard (console.c, kbd.c, kbd.h)

    The input ring with its line editing, reading and writing the console device,
    the screen, and the decoding of scan codes.  What the hardware delivers (the
    characters or scan codes waiting at an interrupt) is an argument. *)

From S2P Require Import Prelude Strings Bytes Monad Machine Kalloc ProcDefs RunQueue Proc ProcInv KernDefs Sleeplock Bio Log Fs File DemoKern.

Abbreviation BACKSPACE := (0x100)%Z.
Definition INPUT_BUF : Z := 128.
Abbreviation CONSOLE := (1)%Z.
(** Control characters: [C(x)]. *)
Definition ctrl (x : Z) : Z := x - 64.

Definition getc {A} (f : cons_t -> A) : M kstate A := gets (fun s => f (cons s)).
Definition setc (f : cons_t -> cons_t) : M kstate unit := modify (fun s => put_cons (f (cons s)) s).

(** [None] when the position is out of range, which is a panic. *)
Definition cgaputc (c : Z) (g : cga_t) : option cga_t :=
  let pos := cga_pos g in
  let crt := cga_crt g in
  let '(pos, crt) :=
    if c =? 10 then (pos + (80 - pos mod 80), crt)
    else if c =? BACKSPACE then (if 0 <? pos then pos - 1 else pos, crt)
    else (pos + 1, <[Z.to_nat pos := Z.lor (Z.land c 0xff) 0x0700]> crt) in
  if (pos <? 0) || (25 * 80 <? pos) then None else
  let '(pos, crt) :=
    if 24 <=? pos / 80 then
      let crt := blk_write 0 (blk_read 80 (23 * 80) crt) crt in
      let pos := pos - 80 in
      (pos, blk_write (Z.to_nat pos) (replicate (Z.to_nat (24 * 80 - pos)) 0) crt)
    else (pos, crt) in
  Some (MkCga pos (<[Z.to_nat pos := Z.lor 32 0x0700]> crt)).

(** What [uartputc] is called with for a character. *)
Definition echo (c : Z) : list Z := if c =? BACKSPACE then [8; 32; 8] else [c].

(** After a panic of another processor it spins for ever. *)
Definition consputc (c : Z) : M kstate unit :=
  let* x := gets cons in
  if c_panicked x then nofuel else
  setc (fun x => set_c_out (rev (echo c) ++ c_out x) x) ;;;
  match cgaputc c (c_cga x) with
  | None => panic "pos under/overflow"
  | Some g => setc (set_c_cga g)
  end.

Definition input_at (x : cons_t) (i : Z) : Z := c_buf x !!! Z.to_nat (i mod INPUT_BUF).

Section console.
Context {FU : Fuel} {BD : BlockDevice}.

Fixpoint kill_line (n : nat) : M kstate unit :=
  match n with
  | O => nofuel
  | S n =>
      let* x := gets cons in
      if negb (c_e x =? c_w x) && negb (input_at x (u32 (c_e x - 1)) =? 10) then
        setc (fun x => set_c_e (u32 (c_e x - 1)) x) ;;;
        consputc BACKSPACE ;;;
        kill_line n
      else ret tt
  end.

(** One character; [true] asks for the process listing. *)
Definition input_char (c : Z) : M kstate bool :=
  if c =? ctrl 80 then ret true else
  if c =? ctrl 85 then kill_line (S (Z.to_nat INPUT_BUF)) ;;; ret false else
  if (c =? ctrl 72) || (c =? 127) then
    let* x := gets cons in
    when (negb (c_e x =? c_w x)) (
      setc (fun x => set_c_e (u32 (c_e x - 1)) x) ;;;
      consputc BACKSPACE) ;;;
    ret false
  else
  let* x := gets cons in
  when (negb (c =? 0) && (u32 (c_e x - c_r x) <? INPUT_BUF)) (
    let c := if c =? 13 then 10 else c in
    setc (fun x => set_c_e (u32 (c_e x + 1)) (set_c_buf (<[Z.to_nat (c_e x mod INPUT_BUF) := u8 c]> (c_buf x)) x)) ;;;
    consputc c ;;;
    let* x := gets cons in
    when ((c =? 10) || (c =? ctrl 68) || (c_e x =? u32 (c_r x + INPUT_BUF))) (
      setc (fun x => set_c_w (c_e x) x) ;;;
      proc_op (wakeup ChCons))) ;;;
  ret false.

Fixpoint input_chars (cs : list Z) (dump : bool) : M kstate bool :=
  match cs with
  | [] => ret dump
  | c :: cs => let* d := input_char c in input_chars cs (dump || d)
  end.

(** [cs]: what [getc] returns until it returns -1.  The result tells whether
    [procdump], which prints the process table, is called at the end. *)
Definition consoleintr (cs : list Z) : M kstate bool :=
  kacquire LCons ;;;
  let* dump := input_chars cs false in
  krelease LCons ;;;
  ret dump.

Fixpoint consoleread_wait (n : nat) : M kstate bool :=
  match n with
  | O => nofuel
  | S n =>
      let* x := gets cons in
      if c_r x =? c_w x then
        let* k := killed in
        if k then krelease LCons ;;; ret false else
        proc_op (sleep ChCons LCons) ;;;
        consoleread_wait n
      else ret true
  end.

(** [n] more bytes may be read; [acc] are those read so far. *)
Fixpoint consoleread_loop (n : nat) (acc : list Z) : M kstate (option (list Z)) :=
  match n with
  | O => ret (Some acc)
  | S n =>
      let* ok := consoleread_wait (S fuel) in
      if negb ok then ret None else
      let* c := getc (fun x => input_at x (c_r x)) in
      setc (fun x => set_c_r (u32 (c_r x + 1)) x) ;;;
      if c =? ctrl 68 then
        when (negb (bool_decide (acc = []))) (setc (fun x => set_c_r (u32 (c_r x - 1)) x)) ;;;
        ret (Some acc)
      else if c =? 10 then ret (Some (acc ++ [c]))
      else consoleread_loop n (acc ++ [c])
  end.

Definition consoleread (ip : nat) (n : Z) : M kstate (option (list Z)) :=
  iunlock ip ;;;
  kacquire LCons ;;;
  let* r := consoleread_loop (Z.to_nat n) [] in
  match r with
  | None => ilock ip ;;; ret None
  | Some l => krelease LCons ;;; ilock ip ;;; ret (Some l)
  end.

Fixpoint putchars (buf : list Z) : M kstate unit :=
  match buf with
  | [] => ret tt
  | c :: buf => consputc (Z.land c 0xff) ;;; putchars buf
  end.

Definition consolewrite (ip : nat) (buf : list Z) : M kstate Z :=
  iunlock ip ;;;
  kacquire LCons ;;;
  putchars buf ;;;
  krelease LCons ;;;
  ilock ip ;;;
  ret (Z.of_nat (length buf)).

(** [consoleinit]: the console is device [CONSOLE]. *)
Definition console_devsw : DevSw := {|
  dev_read := fun major => if major =? CONSOLE then Some consoleread else None;
  dev_write := fun major => if major =? CONSOLE then Some consolewrite else None
|}.

End console.

(** ** The keyboard *)

Abbreviation SHIFT := (1)%Z.
Abbreviation CTL := (2)%Z.
Abbreviation ALT := (4)%Z.
Abbreviation CAPSLOCK := (8)%Z.
Abbreviation NUMLOCK := (16)%Z.
Abbreviation SCROLLLOCK := (32)%Z.
Abbreviation E0ESC := (64)%Z.

(** Tables given by their non-zero entries. *)
Fixpoint sparse (l : list (Z * Z)) (i : Z) : Z :=
  match l with
  | [] => 0
  | (k, v) :: l => if i =? k then v else sparse l i
  end.
Definition shiftcode : Z -> Z := sparse [(0x1D, CTL); (0x2A, SHIFT); (0x36, SHIFT); (0x38, ALT); (0x9D, CTL); (0xB8, ALT)].
Definition togglecode : Z -> Z := sparse [(0x3A, CAPSLOCK); (0x45, NUMLOCK); (0x46, SCROLLLOCK)].

(** The entries after the first rows: the keypad and the arrows. *)
Definition keypad (enter div : Z) : list (Z * Z) :=
  [(0x9C, enter); (0xB5, div); (0xC8, 0xE2); (0xD0, 0xE3); (0xC9, 0xE6); (0xD1, 0xE7); (0xCB, 0xE4); (0xCD, 0xE5);
   (0x97, 0xE0); (0xCF, 0xE1); (0xD2, 0xE8); (0xD3, 0xE9)].
Definition table (rows : list Z) (rest : list (Z * Z)) (i : Z) : Z :=
  if i <? Z.of_nat (length rows) then byte_at rows (Z.to_nat i) else sparse rest i.

Definition normalmap : Z -> Z := table
  [0; 0x1B; 49; 50; 51; 52; 53; 54; 55; 56; 57; 48; 45; 61; 8; 9;
   113; 119; 101; 114; 116; 121; 117; 105; 111; 112; 91; 93; 10; 0; 97; 115;
   100; 102; 103; 104; 106; 107; 108; 59; 39; 96; 0; 92; 122; 120; 99; 118;
   98; 110; 109; 44; 46; 47; 0; 42; 0; 32; 0; 0; 0; 0; 0; 0;
   0; 0; 0; 0; 0; 0; 0; 55; 56; 57; 45; 52; 53; 54; 43; 49;
   50; 51; 48; 46; 0; 0; 0; 0] (keypad 10 47).
Definition shiftmap : Z -> Z := table
  [0; 27; 33; 64; 35; 36; 37; 94; 38; 42; 40; 41; 95; 43; 8; 9;
   81; 87; 69; 82; 84; 89; 85; 73; 79; 80; 123; 125; 10; 0; 65; 83;
   68; 70; 71; 72; 74; 75; 76; 58; 34; 126; 0; 124; 90; 88; 67; 86;
   66; 78; 77; 60; 62; 63; 0; 42; 0; 32; 0; 0; 0; 0; 0; 0;
   0; 0; 0; 0; 0; 0; 0; 55; 56; 57; 45; 52; 53; 54; 43; 49;
   50; 51; 48; 46; 0; 0; 0; 0] (keypad 10 47).
Definition ctlmap : Z -> Z := table
  [0; 0; 0; 0; 0; 0; 0; 0; 0; 0; 0; 0; 0; 0; 0; 0;
   ctrl 81; ctrl 87; ctrl 69; ctrl 82; ctrl 84; ctrl 89; ctrl 85; ctrl 73; ctrl 79; ctrl 80; 0; 0; 13; 0; ctrl 65; ctrl 83;
   ctrl 68; ctrl 70; ctrl 71; ctrl 72; ctrl 74; ctrl 75; ctrl 76; 0; 0; 0; 0; ctrl 92; ctrl 90; ctrl 88; ctrl 67; ctrl 86;
   ctrl 66; ctrl 78; ctrl 77; 0; 0; u8 (ctrl 47); 0; 0] (keypad 13 (u8 (ctrl 47))).

Definition charcode (i : Z) : Z -> Z :=
  if i =? 0 then normalmap else if i =? 1 then shiftmap else ctlmap.

(** The new value of [shift] and the character, for the scan code [data]. *)
Definition kbdgetc (shift data : Z) : Z * Z :=
  if data =? 0xE0 then (Z.lor shift E0ESC, 0) else
  if negb (Z.land data 0x80 =? 0) then
    let data := if negb (Z.land shift E0ESC =? 0) then data else Z.land data 0x7F in
    (Z.land shift (Z.lnot (Z.lor (shiftcode data) E0ESC)), 0)
  else
  let '(data, shift) :=
    if negb (Z.land shift E0ESC =? 0) then (Z.lor data 0x80, Z.land shift (Z.lnot E0ESC)) else (data, shift) in
  let shift := Z.lor shift (shiftcode data) in
  let shift := Z.lxor shift (togglecode data) in
  let c := charcode (Z.land shift (Z.lor CTL SHIFT)) data in
  let c := if negb (Z.land shift CAPSLOCK =? 0) then
             if (97 <=? c) && (c <=? 122) then c + (65 - 97)
             else if (65 <=? c) && (c <=? 90) then c + (97 - 65) else c
           else c in
  (shift, c).

Fixpoint kbd_decode (shift : Z) (codes : list Z) : Z * list Z :=
  match codes with
  | [] => (shift, [])
  | d :: codes =>
      let (shift, c) := kbdgetc shift d in
      let (shift, cs) := kbd_decode shift codes in
      (shift, c :: cs)
  end.

Section kbd.
Context {FU : Fuel} {BD : BlockDevice}.

(** The scan codes waiting at the interrupt. *)
Definition kbdintr (shift : Z) (codes : list Z) : M kstate Z :=
  let (shift, cs) := kbd_decode shift codes in
  consoleintr cs ;;;
  ret shift.

(** uart.c: the bytes waiting at the serial port. *)
Definition uartintr (cs : list Z) : M kstate bool := consoleintr cs.

End kbd.
