(* ===== verification/ConsoleInv.v ===== *)
(** * The console edits lines

    The input ring of console.c, with its three counters, against an editor that
    holds the bytes of finished lines and the line being typed. *)

From S2P Require Import Prelude Strings Bytes Ring Monad Machine Kalloc ProcDefs RunQueue Proc ProcInv KernDefs Sleeplock Bio Log Fs File DemoKern Console.

(** ** The editor *)

Record editor : Type := MkEd { ed_done : list Z; ed_line : list Z }.

(** One character typed: kill line, erase, or insert; a newline, an end of file or
    a full buffer finishes the line.  A carriage return is a newline. *)
Definition ed_step (ed : editor) (c : Z) : editor :=
  if c =? ctrl 80 then ed else
  if c =? ctrl 85 then MkEd (ed_done ed) [] else
  if (c =? ctrl 72) || (c =? 127) then MkEd (ed_done ed) (removelast (ed_line ed)) else
  if (c =? 0) || (128 <=? length (ed_done ed) + length (ed_line ed))%nat then ed else
  let c := if c =? 13 then 10 else c in
  let line := ed_line ed ++ [c] in
  if (c =? 10) || (c =? ctrl 68) || (length (ed_done ed) + length line =? 128)%nat
  then MkEd (ed_done ed ++ line) [] else MkEd (ed_done ed) line.

(** ** The ring *)

Definition ndone (x : cons_t) : nat := ahead (c_r x) (c_w x).
Definition nline (x : cons_t) : nat := ahead (c_w x) (c_e x).
Definition view (x : cons_t) : editor :=
  MkEd (ring INPUT_BUF (c_buf x) (c_r x) (ndone x)) (ring INPUT_BUF (c_buf x) (c_w x) (nline x)).

Record cons_ok (x : cons_t) : Prop := {
  co_buf : length (c_buf x) = 128%nat;
  co_r : 0 <= c_r x < 2 ^ 32;
  co_w : 0 <= c_w x < 2 ^ 32;
  co_e : 0 <= c_e x < 2 ^ 32;
  co_len : (ndone x + nline x <= 128)%nat;
  co_run : c_panicked x = false;
  co_cga : 0 <= cga_pos (c_cga x) < 24 * 80 /\ length (cga_crt (c_cga x)) = Z.to_nat (25 * 80)
}.

Lemma input_div : (INPUT_BUF | 2 ^ 32).
Proof. by exists (2 ^ 25). Qed.

Lemma length_done x : length (ed_done (view x)) = ndone x.
Proof. apply length_ring. Qed.
Lemma length_line x : length (ed_line (view x)) = nline x.
Proof. apply length_ring. Qed.

Lemma input_at_slot x i : input_at x i = c_buf x !!! slot INPUT_BUF i.
Proof. done. Qed.

(** The edit counter, seen from the read counter. *)
Lemma edit_ahead x : cons_ok x -> ahead (c_r x) (c_e x) = (ndone x + nline x)%nat.
Proof. intros [_ Hr Hw He Hl _ _]. apply ahead_trans; [done|done|]. unfold ndone, nline in Hl. lia. Qed.

(** Taking back the last character. *)
Definition unput (x : cons_t) : cons_t := set_c_e (u32 (c_e x - 1)) x.

Lemma unput_spec x :
  cons_ok x -> c_e x <> c_w x ->
  cons_ok (unput x) /\ ed_done (view (unput x)) = ed_done (view x) /\
  ed_line (view x) = ed_line (view (unput x)) ++ [input_at x (u32 (c_e x - 1))].
Proof.
  intros Hok Hne. pose proof Hok as [Hb Hr Hw He Hl Hp Hg].
  assert (0 < nline x)%nat as Hpos by (unfold nline; pose proof (ahead_0 (c_w x) (c_e x) Hw He); destruct (ahead _ _); [naive_solver|lia]).
  assert (nline (unput x) = (nline x - 1)%nat) as Hn.
  { unfold nline at 1. cbn [unput c_e c_w set_c_e]. rewrite (ahead_back (c_w x) _ He) at 1. fold (nline x). unfold Z.sub.
    rewrite u32_add_l, <- Z.add_assoc, ahead_at by lia. lia. }
  split_and!.
  - split; [done|done|done|apply Z.mod_pos_bound; lia| |done|done]. change (ndone (unput x)) with (ndone x). lia.
  - done.
  - cbn [view ed_line]. rewrite Hn. cbn [unput c_buf c_w set_c_e]. replace (nline x) with (S (nline x - 1)) at 1 by lia. rewrite ring_S. do 2 f_equal.
    unfold input_at. change (Z.to_nat (?z mod INPUT_BUF)) with (slot INPUT_BUF z). f_equal. rewrite slot_u32 by apply input_div.
    rewrite (ahead_back (c_w x) _ He) at 1. fold (nline x). unfold Z.sub. rewrite slot_u32_add by apply input_div. f_equal. lia.
Qed.

(** Adding a character to the line. *)
Definition put (c : Z) (x : cons_t) : cons_t :=
  set_c_e (u32 (c_e x + 1)) (set_c_buf (<[slot INPUT_BUF (c_e x) := c]> (c_buf x)) x).

Lemma put_spec c x :
  cons_ok x -> (ndone x + nline x < 128)%nat ->
  cons_ok (put c x) /\ ed_done (view (put c x)) = ed_done (view x) /\ ed_line (view (put c x)) = ed_line (view x) ++ [c].
Proof.
  intros Hok Hlt. pose proof Hok as [Hb Hr Hw He Hl Hp Hg].
  assert (nline (put c x) = S (nline x)) as Hn by (unfold nline in *; cbn [put c_e c_w set_c_e set_c_buf]; apply ahead_succ; [done|lia]).
  assert (ed_done (view x) ++ ed_line (view x) ++ [c] = ed_done (view (put c x)) ++ ed_line (view (put c x))) as E.
  { rewrite app_assoc. cbn [view ed_done ed_line]. rewrite Hn. cbn [put c_buf c_w c_r set_c_e set_c_buf]. change (ndone (put c x)) with (ndone x).
    assert (c_w x = u32 (c_r x + Z.of_nat (ndone x))) as Ew by by apply ahead_back.
    assert (c_e x = u32 (c_r x + Z.of_nat (ndone x + nline x))) as Ee by (rewrite <- (edit_ahead x Hok); by apply ahead_back).
    rewrite !Ew, !ring_u32, <- !ring_app by apply input_div. rewrite Nat.add_succ_r, Ee, slot_u32 by apply input_div.
    symmetry. apply ring_push; [done|by rewrite Hb|]. change INPUT_BUF with 128. lia. }
  apply app_inj_1 in E as [E1 E2]; [|rewrite !length_done; done]. split_and!; [|done|done].
  split; [by cbn; rewrite length_insert|done|done|apply Z.mod_pos_bound; lia| |done|done]. change (ndone (put c x)) with (ndone x). lia.
Qed.

(** Finishing the line. *)
Definition finish (x : cons_t) : cons_t := set_c_w (c_e x) x.

Lemma finish_spec x : cons_ok x -> cons_ok (finish x) /\ view (finish x) = MkEd (ed_done (view x) ++ ed_line (view x)) [].
Proof.
  intros Hok. pose proof Hok as [Hb Hr Hw He Hl Hp Hg].
  assert (ndone (finish x) = (ndone x + nline x)%nat) as Hd by exact (edit_ahead x Hok).
  assert (nline (finish x) = 0%nat) as Hn by (unfold nline; cbn; by apply ahead_0).
  split; [split; try done; lia|]. unfold view. rewrite Hd, Hn. cbn [finish c_buf c_r c_w set_c_w ed_done ed_line]. f_equal.
  rewrite ring_app. f_equal. rewrite <- (ring_u32 INPUT_BUF input_div). f_equal. unfold ndone. by rewrite <- ahead_back.
Qed.

(** ** The code *)

Section code.
Context {FU : Fuel}.

(** What the code keeps while the lock is held: the ring and the editor it shows. *)
Record typing (p : nat) (ed : editor) (s : kstate) : Prop := {
  ty_k : kctx p [LCons] s;
  ty_ok : cons_ok (cons s);
  ty_view : view (cons s) = ed;
  ty_line : 10 ∉ ed_line ed
}.

(** The cursor never leaves the first 24 rows, so echoing never panics. *)
Lemma cgaputc_ok c g :
  0 <= cga_pos g < 24 * 80 -> length (cga_crt g) = Z.to_nat (25 * 80) ->
  exists g', cgaputc c g = Some g' /\ 0 <= cga_pos g' < 24 * 80 /\ length (cga_crt g') = Z.to_nat (25 * 80).
Proof.
  intros Hp Hl. unfold cgaputc. set (f := if c =? 10 then _ else _).
  assert (0 <= fst f <= 24 * 80 /\ length (snd f) = Z.to_nat (25 * 80)) as [H1 H2].
  { unfold f. destruct (c =? 10); [cbn [fst snd]; split; [zdiv|done]|]. destruct (c =? BACKSPACE); cbn [fst snd]; [|rewrite length_insert; lia].
    split; [|done]. destruct (0 <? cga_pos g) eqn:E; zbool; lia. }
  destruct f as [pos crt]. cbn [fst snd] in *. rewrite (proj2 (orb_false_iff _ _)) by (split; zbool; lia).
  destruct (24 <=? pos / 80) eqn:E; zbool; eexists; (split; [reflexivity|]); cbn [cga_pos cga_crt]; rewrite length_insert, ?length_blk_write; (split; [zdiv|done]).
Qed.

(** Echoing changes what is shown, not the ring. *)
Lemma echo_wp {A} c x s (k : M kstate A) (R : A -> kstate -> Prop) :
  cons s = x -> cons_ok x ->
  (forall x', cons_ok x' -> view x' = view x -> wp k R (put_cons x' s)) ->
  wp (consputc c ;;; k) R s.
Proof.
  intros <- [H1 H2 H3 H4 H5 H6 [H7 H8]] HR. destruct (cgaputc_ok c _ H7 H8) as (g & Eg & G1 & G2).
  unfold consputc, setc. do 3 wp_step. rewrite H6. do 2 wp_step. cbn [cons put_cons]. rewrite Eg. wp_step. by apply HR.
Qed.

Lemma erase_wp {A} p ed s (k : M kstate A) (R : A -> kstate -> Prop) :
  typing p ed s -> c_e (cons s) <> c_w (cons s) ->
  (forall s', typing p (MkEd (ed_done ed) (removelast (ed_line ed))) s' -> wp k R s') ->
  wp (setc (fun x => set_c_e (u32 (c_e x - 1)) x) ;;; consputc BACKSPACE ;;; k) R s.
Proof.
  intros [Hk Hok Hv Hl] Hne HR. destruct (unput_spec _ Hok Hne) as (H1 & H2 & H3). unfold setc. do 2 wp_step.
  eapply (echo_wp _ (unput (cons s))); [done|done|]. intros x Hx Ev. apply HR.
  assert (removelast (ed_line ed) = ed_line (view (unput (cons s)))) as Er by (rewrite <- Hv, H3; apply removelast_last).
  split; [by eapply kctx_same|done| |].
  - cbn [cons put_cons]. rewrite Ev, Er, <- Hv, <- H2. by destruct (view (unput (cons s))).
  - cbn [ed_line]. rewrite Er. intros Hin. apply Hl. rewrite <- Hv, H3. set_solver.
Qed.

Lemma kill_line_wp p n ed s (R : unit -> kstate -> Prop) :
  typing p ed s -> (length (ed_line ed) < n)%nat -> (forall s', typing p (MkEd (ed_done ed) []) s' -> R tt s') -> wp (kill_line n) R s.
Proof.
  revert ed s. induction n as [|n IH]; intros ed s Ht Hn HR; [lia|]. cbn [kill_line]. wp_step. wp_step.
  pose proof Ht as [Hk Hok Hv Hl]. destruct (Z.eqb_spec (c_e (cons s)) (c_w (cons s))) as [E|E]; cbn [negb andb].
  - apply wp_ret, HR. assert (ed_line ed = []) as El.
    { rewrite <- Hv. apply length_zero_iff_nil. rewrite length_line. apply ahead_0; [apply Hok|apply Hok|done]. }
    destruct ed as [d l]. cbn in El. subst l. done.
  - destruct (unput_spec _ Hok E) as (_ & _ & H3). rewrite Hv in H3. assert (input_at (cons s) (u32 (c_e (cons s) - 1)) <> 10) as Hne.
    { intros E10. apply Hl. rewrite H3, E10. set_solver. }
    rewrite (proj2 (Z.eqb_neq _ _)) by done. cbn [negb]. assert (length (ed_line ed) <> 0%nat) by (rewrite H3, length_app; cbn; lia).
    eapply erase_wp; [done|done|]. intros s' Ht'. apply (IH _ _ Ht').
    + cbn [ed_line]. rewrite H3, length_app in Hn. rewrite H3, removelast_last. cbn [length] in Hn. lia.
    + cbn [ed_done]. done.
Qed.

Lemma input_char_wp p ed c s (R : bool -> kstate -> Prop) :
  typing p ed s -> 0 <= c < 256 ->
  (forall s', typing p (ed_step ed c) s' -> R (c =? ctrl 80) s') -> wp (input_char c) R s.
Proof.
  intros Ht Hc HR. unfold input_char, ed_step in *. destruct (c =? ctrl 80) eqn:EP; [by apply wp_ret, HR|].
  destruct (c =? ctrl 85) eqn:EU.
  { wp_step. eapply kill_line_wp; [done| |]; [|intros s' Ht'; by apply wp_ret, HR].
    pose proof (ty_ok _ _ _ Ht) as Hok. pose proof (co_len _ Hok). rewrite <- (ty_view _ _ _ Ht), length_line. change (nline (cons s) < 129)%nat. lia. }
  destruct ((c =? ctrl 72) || (c =? 127)) eqn:EH.
  { wp_step. wp_step. wp_step. destruct (Z.eqb_spec (c_e (cons s)) (c_w (cons s))) as [E|E]; cbn [negb when].
    - apply wp_ret, wp_ret, HR. assert (ed_line ed = []) as El.
      { rewrite <- (ty_view _ _ _ Ht). apply length_zero_iff_nil. rewrite length_line. apply ahead_0; [apply Ht|apply Ht|done]. }
      destruct ed as [d l]. cbn in El. subst l. done.
    - apply wp_tail. eapply erase_wp; [done|done|]. intros s' Ht'. apply wp_ret, wp_ret. by apply HR. }
  pose proof Ht as [Hk Hok Hv Hl]. pose proof Hok as [Hb Hr Hw He Hlen Hp Hg].
  wp_step. wp_step. wp_step.
  assert ((u32 (c_e (cons s) - c_r (cons s)) <? INPUT_BUF) = (ndone (cons s) + nline (cons s) <? 128)%nat) as Eroom.
  { rewrite <- (edit_ahead _ Hok). unfold ahead, INPUT_BUF. pose proof (Z.mod_pos_bound (c_e (cons s) - c_r (cons s)) (2 ^ 32) ltac:(lia)) as Hm.
    fold (u32 (c_e (cons s) - c_r (cons s))) in Hm. destruct (Nat.ltb_spec (Z.to_nat (u32 (c_e (cons s) - c_r (cons s)))) 128); zbool; lia. }
  rewrite Eroom. rewrite <- (length_done (cons s)), <- (length_line (cons s)), Hv. rewrite Nat.leb_antisym in HR.
  destruct (c =? 0) eqn:E0; cbn [negb andb orb] in *; [by apply wp_ret, wp_ret, HR|].
  destruct (Nat.ltb_spec (length (ed_done ed) + length (ed_line ed)) 128) as [Hroom|Hroom]; cbn [negb when] in *; [|by apply wp_ret, wp_ret, HR].
  set (c' := if c =? 13 then 10 else c) in *. assert (0 <= c' < 256) as Hc' by (unfold c'; destruct (c =? 13); lia).
  destruct (put_spec c' (cons s) Hok) as (P1 & P2 & P3); [rewrite <- length_done, <- length_line, Hv; lia|].
  unfold setc. do 2 wp_step. rewrite u8_small by done.
  eapply (echo_wp _ (put c' (cons s))); [done|done|]. intros x Hx Ev. do 2 wp_step. cbn [cons put_cons].
  assert (view x = MkEd (ed_done ed) (ed_line ed ++ [c'])) as Hvx.
  { rewrite Ev. rewrite Hv in P2, P3. destruct (view (put c' (cons s))) as [d l]. cbn [ed_done ed_line] in P2, P3. by subst. }
  assert ((c_e x =? u32 (c_r x + INPUT_BUF)) = (length (ed_done ed) + length (ed_line ed ++ [c']) =? 128)%nat) as Efull.
  { assert (length (ed_done ed) + length (ed_line ed ++ [c']) = ahead (c_r x) (c_e x))%nat as ->.
    { rewrite (edit_ahead x Hx), <- length_done, <- length_line, Hvx. done. }
    apply eq_bool_prop_intro. rewrite !Is_true_true, Z.eqb_eq, Nat.eqb_eq. split.
    - intros ->. by apply ahead_at.
    - intros E. rewrite (ahead_back (c_r x) _ (co_e _ Hx)), E. done. }
  change (cons (put_cons x _)) with x in *. rewrite Efull. destruct ((c' =? 10) || (c' =? ctrl 68) || _)%bool eqn:Ecm; cbn [when].
  - do 2 wp_step. eapply kwakeup_wp; [by eapply kctx_same|set_solver|]. intros p' Hq. apply wp_ret, HR.
    destruct (finish_spec x Hx) as [F1 F2]. split; [eapply kctx_quiet; [by eapply kctx_same|exact Hq]|exact F1| |cbn; apply not_elem_of_nil].
    change (view (finish x) = MkEd (ed_done ed ++ ed_line ed ++ [c']) []). by rewrite F2, Hvx.
  - apply wp_ret, wp_ret, HR. split; [by eapply kctx_same|exact Hx|exact Hvx|]. cbn [ed_line].
    apply orb_false_iff in Ecm as [Ecm _]. apply orb_false_iff in Ecm as [Ecm _]. zbool. set_solver.
Qed.

Lemma input_chars_wp p ed cs b s (R : bool -> kstate -> Prop) :
  typing p ed s -> Forall (fun c => 0 <= c < 256) cs ->
  (forall s', typing p (fold_left ed_step cs ed) s' -> R (b || existsb (fun c => c =? ctrl 80) cs) s') -> wp (input_chars cs b) R s.
Proof.
  intros Ht Hcs. revert ed b s Ht. induction Hcs as [|c cs Hc _ IH]; intros ed b s Ht HR; cbn [input_chars fold_left existsb] in *.
  - apply wp_ret. rewrite orb_false_r in HR. by apply HR.
  - wp_step. eapply input_char_wp; [done|done|]. intros s' Ht'. apply (IH _ _ _ Ht'). intros s2 Ht2. rewrite <- orb_assoc. by apply HR.
Qed.

(** C31. The console edits lines: whatever characters arrive at an interrupt, the
    input ring, with its three wrapping counters, ends up holding what the editor
    holds after the same characters (erase, kill line, end of line and overflow
    included), no finished line is changed, the cursor stays on the screen, so that
    the echo never panics, and Control-P asks for the listing. *)
Theorem consoleintr_edits p cs s :
  kctx p [] s -> cons_ok (cons s) -> 10 ∉ ed_line (view (cons s)) -> Forall (fun c => 0 <= c < 256) cs ->
  wp (consoleintr cs) (fun d s' => kctx p [] s' /\ cons_ok (cons s') /\
    view (cons s') = fold_left ed_step cs (view (cons s)) /\ d = existsb (fun c => c =? ctrl 80) cs) s.
Proof.
  intros Hk Hok Hl Hcs. unfold consoleintr. wp_step. eapply kacquire_wp; [done|set_solver|]. intros Hk1. wp_step.
  eapply (input_chars_wp p (view (cons s))); [by split|done|]. intros s' [Hk2 Hok2 Hv2 _]. wp_step.
  eapply krelease_wp; [done|set_solver|]. cbv zeta. intros Hk3. apply wp_ret. by cbn.
Qed.

End code.

(** "ab", erase, "c", return. *)
Lemma consoleintr_edits_witness :
  let s := demo_k buf0 (demo_log [] 0) in
  wp (consoleintr [97; 98; 8; 99; 13]) (fun d s' => kctx 1 [] s' /\ cons_ok (cons s') /\
    view (cons s') = fold_left ed_step [97; 98; 8; 99; 13] (view (cons s)) /\ d = existsb (fun c => c =? ctrl 80) [97; 98; 8; 99; 13]) s.
Proof.
  intros s. apply (consoleintr_edits 1 [97; 98; 8; 99; 13] s); [apply demo_kctx|split; try done; vm_compute; lia|vm_compute; set_solver|].
  repeat (apply Forall_cons; split; [lia|]). apply Forall_nil_2.
Defined.
