(* ===== verification/Ide.v ===== *)
(** * The IDE driver (ide.c)

    Requests wait in a queue whose head is the active one.  The controller is its
    ports: what the driver writes to them selects a drive and a sector, and the data
    port transfers the sector selected.  What the status register answers at each
    poll, errors included, is a parameter; the drive is only assumed to become ready.
    The disk of the model is drive 1, which has the file system. *)

From S2P Require Import Prelude Bytes Monad Machine Kalloc ProcDefs RunQueue Proc ProcInv KernDefs Sleeplock Bio BioInv DemoProc DemoKern.

Definition SECTOR_SIZE : Z := 512.
Abbreviation IDE_BSY := (0x80)%Z.
Abbreviation IDE_DRDY := (0x40)%Z.
Abbreviation IDE_DF := (0x20)%Z.
Abbreviation IDE_ERR := (0x01)%Z.
Abbreviation IDE_CMD_READ := (0x20)%Z.
Definition IDE_CMD_WRITE : Z := 0x30.

(** The status, port 0x1f7, at the [k]-th poll after the writes [l] to the ports, with
    a number of polls after which the drive is ready; and the sectors of drive 0, which
    nothing writes. *)
Class IdeHw : Type := {
  ide_status : list (Z * Z) -> nat -> Z;
  ide_polls : list (Z * Z) -> nat;
  ide_drive0 : Z -> block;
  ide_ready : forall l, exists k, (k <= ide_polls l)%nat /\ Z.land (ide_status l k) (Z.lor IDE_BSY IDE_DRDY) = IDE_DRDY
}.

(** ** The controller *)

Definition outb (port v : Z) : M kstate unit :=
  modify (fun s => put_ide (set_ide_ports ((port, v) :: ide_ports (ide s)) (ide s)) s).

(** The value last written to a port. *)
Fixpoint port (p : Z) (l : list (Z * Z)) : Z :=
  match l with
  | [] => 0
  | (q, v) :: l => if q =? p then v else port p l
  end.

(** The sector the registers select. *)
Definition ide_sector (l : list (Z * Z)) : Z :=
  port 0x1f3 l + Z.shiftl (port 0x1f4 l) 8 + Z.shiftl (port 0x1f5 l) 16 + Z.shiftl (Z.land (port 0x1f6 l) 0x0f) 24.

(** Bit 4 of port 0x1f6 selects the drive. *)
Definition ide_drive1 (l : list (Z * Z)) : bool := Z.testbit (port 0x1f6 l) 4.

Section ide.
Context {FU : Fuel} {HW : IdeHw}.

(** The data port: a sector out, a sector in. *)
Definition outsl (d : block) : M kstate unit :=
  modify (fun s => let l := ide_ports (ide s) in if ide_drive1 l then disk_write (ide_sector l) d s else s).
Definition insl : M kstate block :=
  gets (fun s => let l := ide_ports (ide s) in if ide_drive1 l then dblk s (ide_sector l) else ide_drive0 (ide_sector l)).

(** Polls number [k] to [k + n]. *)
Fixpoint idewait_loop (n k : nat) : M kstate Z :=
  let* r := gets (fun s => ide_status (ide_ports (ide s)) k) in
  if negb (Z.land r (Z.lor IDE_BSY IDE_DRDY) =? IDE_DRDY) then
    match n with
    | O => nofuel
    | S n => idewait_loop n (S k)
    end
  else ret r.

Definition idewait (checkerr : bool) : M kstate Z :=
  let* n := gets (fun s => ide_polls (ide_ports (ide s))) in
  let* r := idewait_loop n 0 in
  ret (if checkerr && negb (Z.land r (Z.lor IDE_DF IDE_ERR) =? 0) then -1 else 0).

(** One sector per block. *)
Definition idestart (b : nat) : M kstate unit :=
  let* no := getb b b_blockno in
  if FSSIZE <=? no then panic "incorrect blockno" else
  let sector := no * (BSIZE / SECTOR_SIZE) in
  idewait false ;;;
  outb 0x3f6 0 ;;;
  outb 0x1f2 (BSIZE / SECTOR_SIZE) ;;;
  outb 0x1f3 (Z.land sector 0xff) ;;;
  outb 0x1f4 (Z.land (Z.shiftr sector 8) 0xff) ;;;
  outb 0x1f5 (Z.land (Z.shiftr sector 16) 0xff) ;;;
  let* dev := getb b b_dev in
  outb 0x1f6 (Z.lor (Z.lor 0xe0 (Z.shiftl (Z.land dev 1) 4)) (Z.land (Z.shiftr sector 24) 0x0f)) ;;;
  let* f := getb b b_flags in
  if has f B_DIRTY then
    outb 0x1f7 IDE_CMD_WRITE ;;;
    let* d := getb b b_data in
    outsl d
  else outb 0x1f7 IDE_CMD_READ.

Definition ideintr : M kstate unit :=
  kacquire LIde ;;;
  let* q := gets (fun s => ide_queue (ide s)) in
  match q with
  | [] => krelease LIde
  | b :: q =>
      modify (fun s => put_ide (set_ide_queue q (ide s)) s) ;;;
      let* f := getb b b_flags in
      let* r := (if has f B_DIRTY then ret (-1) else idewait true) in
      when (0 <=? r) (let* d := insl in setb b (set_b_data d)) ;;;
      setb b (fun x => set_b_flags (Z.lor (b_flags x) B_VALID) x) ;;;
      setb b (fun x => set_b_flags (Z.land (b_flags x) (Z.lnot B_DIRTY)) x) ;;;
      proc_op (wakeup (ChBuf b)) ;;;
      match q with
      | b' :: _ => idestart b'
      | [] => ret tt
      end ;;;
      krelease LIde
  end.

Fixpoint iderw_wait (n : nat) (b : nat) : M kstate unit :=
  match n with
  | O => nofuel
  | S n =>
      let* f := getb b b_flags in
      if negb (Z.land f (Z.lor B_VALID B_DIRTY) =? B_VALID) then
        proc_op (sleep (ChBuf b) LIde) ;;;
        iderw_wait n b
      else ret tt
  end.

Definition ide_rw (b : nat) : M kstate unit :=
  let* h := holdingsleep (SlBuf b) in
  if negb h then panic "iderw: buf not locked" else
  let* f := getb b b_flags in
  if Z.land f (Z.lor B_VALID B_DIRTY) =? B_VALID then panic "iderw: nothing to do" else
  let* dev := getb b b_dev in
  let* have := gets (fun s => havedisk1 (ide s)) in
  if negb (dev =? 0) && (have =? 0) then panic "iderw: ide disk 1 not present" else
  kacquire LIde ;;;
  modify (fun s => put_ide (set_ide_queue (ide_queue (ide s) ++ [b]) (ide s)) s) ;;;
  let* q := gets (fun s => ide_queue (ide s)) in
  when (bool_decide (q !! 0%nat = Some b)) (idestart b) ;;;
  iderw_wait (S fuel) b ;;;
  krelease LIde.

End ide.

(** ** The registers select the sector *)

Lemma shiftr_mod n k : Z.land (Z.shiftr n k) 0xff = Z.shiftr n k mod 256.
Proof. change 0xff with (Z.ones 8). by rewrite Z.land_ones. Qed.

Lemma drive_bits dev x : Z.land (Z.lor (Z.lor 0xe0 (Z.shiftl (Z.land dev 1) 4)) x) 0x0f = Z.land x 0x0f.
Proof.
  rewrite !Z.land_lor_distr_l. change (Z.land 0xe0 0x0f) with 0.
  change 1 with (Z.ones 1) at 1. rewrite Z.land_ones by lia. change (2 ^ 1) with 2.
  assert (dev mod 2 = 0 \/ dev mod 2 = 1) as [->| ->] by (pose proof (Z.mod_pos_bound dev 2); lia); done.
Qed.

Lemma sector_bytes n :
  0 <= n < FSSIZE ->
  Z.land n 0xff + Z.shiftl (Z.land (Z.shiftr n 8) 0xff) 8 + Z.shiftl (Z.land (Z.shiftr n 16) 0xff) 16 +
  Z.shiftl (Z.land (Z.land (Z.shiftr n 24) 0x0f) 0x0f) 24 = n.
Proof.
  unfold FSSIZE. intros Hn. rewrite !shiftr_mod, <- (Z.shiftr_0_r n), shiftr_mod.
  rewrite !Z.shiftr_div_pow2, !Z.shiftl_mul_pow2 by lia. rewrite Z.div_1_r.
  assert (n / 2 ^ 16 = 0 /\ n / 2 ^ 24 = 0) as [-> ->] by (split; apply Z.div_small; lia).
  change (2 ^ 8) with 256. cbn. rewrite !Z.add_0_r, (Z.mod_small (n / 256)) by (split; [apply Z.div_pos|apply Z.div_lt_upper_bound]; lia).
  pose proof (Z.div_mod n 256). lia.
Qed.

(** ** The queue *)

(** The drive works on the request at the head: its registers select that block,
    and if the request is a write it has the data. *)
Definition ide_active (s : kstate) : Prop :=
  match ide_queue (ide s) with
  | [] => True
  | b :: _ =>
      ide_sector (ide_ports (ide s)) = b_blockno (bufs s !!! b) /\ ide_drive1 (ide_ports (ide s)) = true /\
      (b_flags (bufs s !!! b) = 6 -> dblk s (b_blockno (bufs s !!! b)) = b_data (bufs s !!! b))
  end.

(** A buffer that waits to be read (flags 0) or written (flags 6). *)
Definition ide_request (s : kstate) (b : nat) : Prop :=
  (b < length (bufs s))%nat /\ b_dev (bufs s !!! b) = ROOTDEV /\ 0 <= b_blockno (bufs s !!! b) < FSSIZE /\ b_blockno (bufs s !!! b) < nblocks s /\
  (b_flags (bufs s !!! b) = 0 \/ b_flags (bufs s !!! b) = 6).

Record ide_inv (s : kstate) : Prop := {
  ii_active : ide_active s;
  ii_nodup : NoDup (ide_queue (ide s));
  ii_req : forall b, b ∈ ide_queue (ide s) -> ide_request s b
}.

Section proofs.
Context {FU : Fuel} {HW : IdeHw}.

(** The state after the registers were set for a request. *)
Definition ide_started (b : nat) (s : kstate) : kstate -> Prop := fun s' =>
  kp s' = kp s /\ bufs s' = bufs s /\ ide_queue (ide s') = ide_queue (ide s) /\ havedisk1 (ide s') = havedisk1 (ide s) /\
  nblocks s' = nblocks s /\
  ide_sector (ide_ports (ide s')) = b_blockno (bufs s !!! b) /\ ide_drive1 (ide_ports (ide s')) = true /\
  (b_flags (bufs s !!! b) = 6 -> dblk s' (b_blockno (bufs s !!! b)) = b_data (bufs s !!! b)) /\
  (forall c, 0 <= c -> (b_flags (bufs s !!! b) = 6 -> c <> b_blockno (bufs s !!! b)) -> dblk s' c = dblk s c).

Definition with_port (p v : Z) (s : kstate) : kstate := put_ide (set_ide_ports ((p, v) :: ide_ports (ide s)) (ide s)) s.

Lemma outb_wp p v s (R : unit -> kstate -> Prop) : R tt (with_port p v s) -> wp (outb p v) R s.
Proof. done. Qed.

(** The first poll that finds the drive ready. *)
Definition ready_at (l : list (Z * Z)) (k : nat) : Prop := Z.land (ide_status l k) (Z.lor IDE_BSY IDE_DRDY) = IDE_DRDY.
#[export] Instance ready_at_dec l k : Decision (ready_at l k) := decide (Z.land (ide_status l k) (Z.lor IDE_BSY IDE_DRDY) = IDE_DRDY).
Definition first_ready (l : list (Z * Z)) (k : nat) : Prop := ready_at l k /\ forall j, (j < k)%nat -> ~ ready_at l j.

(** The status of a failed transfer. *)
Definition failed (r : Z) : bool := negb (Z.land r (Z.lor IDE_DF IDE_ERR) =? 0).

Lemma first_ready_ex l : exists k, (k <= ide_polls l)%nat /\ first_ready l k.
Proof.
  destruct (ide_ready l) as (k & Hk & Hr). fold (ready_at l k) in Hr. revert Hk Hr. induction k as [k IH] using lt_wf_ind. intros Hk Hr.
  destruct (decide (Exists (ready_at l) (seq 0 k))) as [He|Hne].
  - apply Exists_exists in He as (j & Hj%elem_of_seq & Hrj). apply (IH j); [lia|lia|done].
  - exists k. split; [done|]. split; [done|]. intros j Hj Hrj. apply Hne, Exists_exists. exists j. split; [apply elem_of_seq; lia|done].
Qed.

Lemma first_ready_fun l k k' : first_ready l k -> first_ready l k' -> k = k'.
Proof.
  intros [H1 H2] [H3 H4]. destruct (lt_eq_lt_dec k k') as [[Hlt|]|Hlt]; [by destruct (H4 k Hlt)|done|by destruct (H2 k' Hlt)].
Qed.

Lemma idewait_loop_wp n j k s (R : Z -> kstate -> Prop) :
  let l := ide_ports (ide s) in
  first_ready l k -> (j <= k <= j + n)%nat -> R (ide_status l k) s -> wp (idewait_loop n j) R s.
Proof.
  intros l [Hr Hno]. revert j. induction n as [|n IH]; intros j Hj HR; cbn [idewait_loop]; apply wp_bind, wp_gets; fold l;
    (destruct (Z.eqb_spec (Z.land (ide_status l j) (Z.lor IDE_BSY IDE_DRDY)) IDE_DRDY) as [E|E]; cbn [negb]).
  - replace j with k by lia. by apply wp_ret.
  - destruct E. replace j with k by lia. exact Hr.
  - apply wp_ret. destruct (decide (j = k)) as [->|Hne]; [done|]. destruct (Hno j); [lia|exact E].
  - apply IH; [|done]. destruct (decide (j = k)) as [->|Hne]; [by destruct E|lia].
Qed.

Lemma idewait_wp c k s (R : Z -> kstate -> Prop) :
  first_ready (ide_ports (ide s)) k ->
  R (if c && failed (ide_status (ide_ports (ide s)) k) then -1 else 0) s -> wp (idewait c) R s.
Proof.
  intros Hf HR. destruct (first_ready_ex (ide_ports (ide s))) as (k' & Hk' & Hf'). rewrite (first_ready_fun _ _ _ Hf' Hf) in Hk'.
  apply wp_bind, wp_gets, wp_bind. eapply idewait_loop_wp; [exact Hf|lia|]. by apply wp_ret.
Qed.

Lemma idestart_wp b s (R : unit -> kstate -> Prop) :
  ide_request s b -> (forall s', ide_started b s s' -> R tt s') -> wp (idestart b) R s.
Proof.
  intros (Hb & Hdev & Hn & Hnb & Hf) HR. unfold idestart. apply wp_bind, getb_wp.
  rewrite (proj2 (Z.leb_gt _ _)) by lia. cbv zeta.
  change (BSIZE / SECTOR_SIZE) with 1. rewrite Z.mul_1_r.
  set (n := b_blockno (bufs s !!! b)) in *.
  destruct (first_ready_ex (ide_ports (ide s))) as (k & _ & Hk). apply wp_bind. eapply idewait_wp; [exact Hk|].
  do 5 (apply wp_bind, outb_wp). apply wp_bind, getb_wp, wp_bind, outb_wp, wp_bind, getb_wp.
  match goal with |- context [b_flags (bufs ?x !!! b)] => set (s1 := x) end.
  change (bufs s1) with (bufs s).
  assert (forall c, ide_sector ((0x1f7, c) :: ide_ports (ide s1)) = n) as Hsec.
  { intros c. unfold ide_sector. cbn -[Z.land Z.lor Z.shiftl Z.shiftr n].
    rewrite drive_bits. by apply sector_bytes. }
  assert (forall c, ide_drive1 ((0x1f7, c) :: ide_ports (ide s1)) = true) as Hdrv.
  { intros c. unfold ide_drive1. cbn -[Z.land Z.lor Z.shiftl Z.shiftr n Z.testbit]. rewrite Hdev, !Z.lor_spec. done. }
  destruct Hf as [Hf|Hf]; rewrite Hf.
  - change (has 0 B_DIRTY) with false. cbn iota. apply outb_wp, HR.
    split_and!; try done; [apply Hsec|apply Hdrv|by rewrite Hf].
  - change (has 6 B_DIRTY) with true. cbn iota. apply wp_bind, outb_wp, wp_bind, getb_wp, wp_modify. cbv zeta.
    change (ide_ports (ide (with_port 503 IDE_CMD_WRITE s1))) with ((0x1f7, IDE_CMD_WRITE) :: ide_ports (ide s1)). rewrite Hsec, Hdrv.
    apply HR. unfold nblocks in Hnb. split_and!; try done.
    + unfold nblocks. cbn. by rewrite length_insert.
    + apply Hsec.
    + apply Hdrv.
    + intros _. fold n. unfold dblk. cbn. apply list_lookup_total_insert_eq. lia.
    + intros c Hc Hne. unfold dblk. cbn. apply list_lookup_total_insert_ne. fold n in Hne. specialize (Hne Hf). lia.
Qed.

(** What the interrupt does to the buffer it serves, when the drive answers [r].  After
    a read that failed the buffer keeps what was in it. *)
Definition served (r : Z) (b : nat) (s : kstate) : buf :=
  let x := bufs s !!! b in
  set_b_flags 2 (if (b_flags x =? 0) && failed r then x else set_b_data (dblk s (b_blockno x)) x).

(** The transfer and the flags. *)
Lemma ide_serve_wp b n s (R : unit -> kstate -> Prop) (k : M kstate unit) :
  let l := ide_ports (ide s) in
  ide_request s b -> ide_sector l = b_blockno (bufs s !!! b) -> ide_drive1 l = true ->
  (b_flags (bufs s !!! b) = 6 -> dblk s (b_blockno (bufs s !!! b)) = b_data (bufs s !!! b)) ->
  first_ready l n ->
  wp k R (with_buf b (served (ide_status l n) b s) s) ->
  wp (let* f := getb b b_flags in
      let* r := (if has f B_DIRTY then ret (-1) else idewait true) in
      when (0 <=? r) (let* d := insl in setb b (set_b_data d)) ;;;
      setb b (fun x => set_b_flags (Z.lor (b_flags x) B_VALID) x) ;;;
      setb b (fun x => set_b_flags (Z.land (b_flags x) (Z.lnot B_DIRTY)) x) ;;;
      k) R s.
Proof.
  intros l (Hb & _ & _ & _ & Hf) Hsec Hdrv Hw Hrd HR. apply wp_bind, getb_wp.
  assert (forall x, b_flags x = 0 \/ b_flags x = 6 -> Z.land (Z.lor (b_flags x) B_VALID) (Z.lnot B_DIRTY) = 2) as Hfl
    by (intros x [->| ->]; done).
  unfold served in HR. cbv zeta in HR. destruct Hf as [Hf|Hf]; rewrite Hf in *.
  - change (has 0 B_DIRTY) with false. cbn iota. apply wp_bind. eapply idewait_wp; [exact Hrd|]. fold l. cbn [andb] in *. change (0 =? 0) with true in HR.
    cbn [andb] in HR. apply wp_bind. destruct (failed (ide_status l n)); cbn [Z.leb Z.compare when].
    + apply wp_ret. apply wp_bind, setb_wp, wp_bind, setb_wp. rewrite !with_buf_with_buf, !with_buf_eq by done. cbn [b_flags set_b_flags].
      rewrite Hfl by auto. exact HR.
    + apply wp_bind, wp_gets. cbv zeta. fold l. rewrite Hsec, Hdrv. apply setb_wp.
      apply wp_bind, setb_wp, wp_bind, setb_wp. rewrite !with_buf_with_buf, !with_buf_eq by (by rewrite ?length_with_buf). cbn [b_flags set_b_flags].
      change (b_flags (set_b_data ?d ?x)) with (b_flags x). rewrite Hfl by auto. exact HR.
  - change (has 6 B_DIRTY) with true. cbn iota. apply wp_bind, wp_ret, wp_bind. cbn [Z.leb Z.compare when]. apply wp_ret.
    apply wp_bind, setb_wp, wp_bind, setb_wp. rewrite !with_buf_with_buf, !with_buf_eq by done. cbn [b_flags set_b_flags].
    rewrite Hfl by auto. change (6 =? 0) with false in HR. cbn [andb] in HR. rewrite Hw in HR by done. by destruct (bufs s !!! b).
Qed.

(** The rest of the queue after its head is served. *)
Lemma ide_rest r b q s s1 :
  ide_queue (ide s) = b :: q -> ide_inv s -> bufs s1 = <[b := served r b s]> (bufs s) -> nblocks s1 = nblocks s ->
  forall c, c ∈ q -> bufs s1 !!! c = bufs s !!! c /\ ide_request s1 c.
Proof.
  intros Eq [_ Hnd Hreq] Eb En c Hc. rewrite Eq in Hnd, Hreq. apply NoDup_cons in Hnd as [Hbq _].
  assert (bufs s1 !!! c = bufs s !!! c) as E.
  { rewrite Eb. apply list_lookup_total_insert_ne. intros ->. done. }
  split; [done|]. destruct (Hreq c) as (H1 & H2 & H3 & H4 & H5); [by apply list_elem_of_further|].
  unfold ide_request. rewrite E, En. split; [|done]. by rewrite Eb, length_insert.
Qed.

(** The next request is started. *)
Lemma ide_next_wp r b q s s1 (R : unit -> kstate -> Prop) :
  ide_queue (ide s) = b :: q -> ide_inv s -> bufs s1 = <[b := served r b s]> (bufs s) -> nblocks s1 = nblocks s ->
  ide_queue (ide s1) = q ->
  (forall s', ide_inv s' -> kp s' = kp s1 -> bufs s' = bufs s1 -> ide_queue (ide s') = q ->
     (forall c, 0 <= c -> (forall b' q', q = b' :: q' -> b_flags (bufs s !!! b') = 6 -> c <> b_blockno (bufs s !!! b')) ->
        dblk s' c = dblk s1 c) -> R tt s') ->
  wp (match q with b' :: _ => idestart b' | [] => ret tt end) R s1.
Proof.
  intros Eq Hi Eb En Eq1 HR. pose proof (ide_rest _ _ _ _ _ Eq Hi Eb En) as Hrest.
  assert (NoDup q) as Hnd by (pose proof (ii_nodup _ Hi) as H; rewrite Eq in H; by apply NoDup_cons in H as [_ ?]).
  destruct q as [|b' q'].
  - apply wp_ret, HR; try done. split; [unfold ide_active; by rewrite Eq1|by rewrite Eq1|rewrite Eq1; by intros c Hc%elem_of_nil].
  - destruct (Hrest b') as [E' Hr']; [by left|]. apply idestart_wp; [done|].
    intros s' (K1 & K2 & K3 & _ & K4 & K5 & K8 & K6 & K7). apply HR; try done; [|by rewrite K3|].
    + split; [unfold ide_active|by rewrite K3, Eq1|]; rewrite K3, Eq1; [by rewrite K2|].
      intros c Hc. destruct (Hrest c Hc) as [_ Hr]. unfold ide_request. by rewrite K2, K4.
    + intros c Hc Hne. apply K7; [done|]. intros Hf. rewrite E' in *. by eapply Hne.
Qed.

(** C26. The disk interrupt serves the queue in order.  It completes the request at
    the head with the answer [r] of the drive, the first status that is not busy: a
    written buffer becomes clean; a buffer to be read gets the content of its block,
    unless [r] reports an error, when the buffer keeps its old content.  In all these
    cases, a failed read included, the buffer is marked valid and no process sleeps on
    it any more.  The next request is started, so that the drive again works on the
    head of the queue; no other buffer changes, and no other block of the disk than
    that of a write that is started. *)
Theorem ideintr_serves p h s b q k :
  let r := ide_status (ide_ports (ide s)) k in
  kctx p h s -> LIde ∉ h -> LPtable ∉ h -> ide_inv s -> ide_queue (ide s) = b :: q -> first_ready (ide_ports (ide s)) k ->
  wp ideintr (fun _ s' =>
    ide_inv s' /\ ide_queue (ide s') = q /\ kctx p h s' /\ no_sleeper (ChBuf b) (kp s') /\
    bufs s' = <[b := served r b s]> (bufs s) /\
    forall c, 0 <= c -> (forall b' q', q = b' :: q' -> b_flags (bufs s !!! b') = 6 -> c <> b_blockno (bufs s !!! b')) ->
      dblk s' c = dblk s c) s.
Proof.
  intros r Hk Hl Hpt Hi Eq Hst. unfold ideintr. apply wp_bind. eapply kacquire_wp; [done|done|]. intros Hk1.
  apply wp_bind, wp_gets. change (ide_queue (ide (klocked LIde s))) with (ide_queue (ide s)). rewrite Eq.
  apply wp_bind, wp_modify.
  pose proof (ii_active _ Hi) as Ha. unfold ide_active in Ha. rewrite Eq in Ha. destruct Ha as (Ha1 & Ha3 & Ha2).
  apply (ide_serve_wp b k); [apply (ii_req _ Hi); rewrite Eq; by left|done|done|done|done|].
  apply wp_bind. eapply kwakeup_wakes_wp; [eapply kctx_same; [exact Hk1|done]|set_solver|]. intros p' Hq Hns. apply wp_bind.
  eapply (ide_next_wp r b q s); [done|done|done|done|done|]. intros s' Hi' E1 E2 E3 E4. cbn [kp put_kp] in E1.
  eapply krelease_wp; [eapply kctx_quiet; [exact Hk1|rewrite E1; exact Hq]|done|]. cbv zeta. intros Hk2.
  split_and!; [by destruct Hi'|exact E3|exact Hk2|cbn; rewrite E1; exact Hns|exact E2|exact E4].
Qed.

(** Buffer [b] waits in the queue or is served. *)
Definition ide_pending (b : nat) (s : kstate) : Prop :=
  ide_inv s /\ (b ∈ ide_queue (ide s) \/ b_flags (bufs s !!! b) = 2).

Lemma ide_pending_kept b : kept (ide_pending b).
Proof. by intros s x [[H1 H2 H3] H4]. Qed.

Lemma ide_enqueue b s s1 :
  ide_inv s -> ide_request s b -> b ∉ ide_queue (ide s) ->
  bufs s1 = bufs s -> nblocks s1 = nblocks s -> ide_queue (ide s1) = ide_queue (ide s) ++ [b] -> ide_active s1 ->
  ide_pending b s1.
Proof.
  intros [_ Hnd Hreq] Hb Hnb Eb En Eq Ha. split; [|left; rewrite Eq; set_solver]. split; [done| |].
  - rewrite Eq. apply NoDup_app. split; [done|]. split; [set_solver|apply NoDup_singleton].
  - intros c. rewrite Eq, elem_of_app, list_elem_of_singleton. unfold ide_request. rewrite Eb, En. intros [Hc| ->]; [by apply Hreq|done].
Qed.

Lemma iderw_wait_wps b p n s (P : unit -> kstate -> Prop) :
  kctx p [LIde] s -> ide_pending b s ->
  (forall s', kctx p [LIde] s' -> ide_pending b s' -> b_flags (bufs s' !!! b) = 2 -> P tt s') ->
  wps (kgiven_up (ide_pending b)) (kresumed (ide_pending b) p) (iderw_wait n b) P s.
Proof.
  revert s. induction n as [|n IH]; intros s Hk Hp HP; [done|]. cbn [iderw_wait]. apply wps_bind, wp_wps, getb_wp.
  destruct (decide (b_flags (bufs s !!! b) = 2)) as [E|E].
  - rewrite E. apply wp_wps, wp_ret. by apply HP.
  - destruct Hp as [Hi [Hq|]]; [|done]. pose proof (ii_req _ Hi b Hq) as (_ & _ & _ & _ & Hf).
    assert (negb (Z.land (b_flags (bufs s !!! b)) (Z.lor B_VALID B_DIRTY) =? B_VALID) = true) as -> by (destruct Hf as [->| ->]; done).
    apply wps_bind, ksleep_wps; [apply ide_pending_kept|done|split; [done|by left]|]. intros s' Hk' Hp'. by apply IH.
Qed.

(** C25. A disk request completes.  [iderw] puts the buffer at the end of the queue
    and starts the drive if it was idle, so that the drive always works on the head
    of the queue, also in every state in which the process sleeps.  Whatever others
    do to the queue meanwhile, as long as the buffer is queued or served, the call
    does not panic and returns only when the buffer is valid and clean. *)
Theorem iderw_completes p s b :
  kctx p [] s -> ide_inv s -> ide_request s b -> b ∉ ide_queue (ide s) -> holds_buf p b s ->
  b_dev (bufs s !!! b) = ROOTDEV -> havedisk1 (ide s) = 1 ->
  wps (kgiven_up (ide_pending b)) (kresumed (ide_pending b) p) (ide_rw b)
    (fun _ s' => kctx p [] s' /\ ide_pending b s' /\ b_flags (bufs s' !!! b) = 2) s.
Proof.
  intros Hk Hi Hb Hnq Hh Hd Hv. pose proof Hb as (_ & _ & _ & _ & Hf). unfold ide_rw.
  apply wps_bind, wp_wps. eapply holdingsleep_wp; [done|set_solver|done|]. cbn [negb].
  apply wps_bind, wp_wps, getb_wp.
  assert ((Z.land (b_flags (bufs s !!! b)) (Z.lor B_VALID B_DIRTY) =? B_VALID) = false) as -> by (destruct Hf as [->| ->]; done).
  apply wps_bind, wp_wps, getb_wp, wps_bind, wp_wps, wp_gets. rewrite Hd, Hv. cbn [Z.eqb negb andb].
  change (negb (ROOTDEV =? 0) && false) with false. cbn iota.
  apply wps_bind, wp_wps. eapply kacquire_wp; [done|set_solver|]. intros Hk1.
  apply wps_bind, wp_wps, wp_modify, wps_bind, wp_wps, wp_gets.
  set (s1 := put_ide _ _). change (ide_queue (ide s1)) with (ide_queue (ide s) ++ [b]).
  assert (kctx p [LIde] s1) as Hk2 by (eapply kctx_same; [exact Hk1|done]).
  assert (wp (when (bool_decide ((ide_queue (ide s) ++ [b]) !! 0%nat = Some b)) (idestart b))
            (fun _ s2 => kctx p [LIde] s2 /\ ide_pending b s2) s1) as Hst.
  { destruct (ide_queue (ide s)) as [|c q] eqn:Eq; cbn [app lookup list_lookup].
    - rewrite bool_decide_true by done. apply idestart_wp; [done|]. intros s2 (K1 & K2 & K3 & _ & K4 & K5 & K7 & K6 & _).
      split; [by eapply (kctx_same _ _ s1)|]. eapply (ide_enqueue b s); [done|done|by rewrite Eq|by rewrite K2|by rewrite K4|by rewrite K3|].
      unfold ide_active. rewrite K3. change (ide_queue (ide s1)) with (ide_queue (ide s) ++ [b]). rewrite Eq. by rewrite K2.
    - rewrite bool_decide_false by set_solver. apply wp_ret. split; [done|]. eapply (ide_enqueue b s); [done|done|by rewrite Eq|done|done|done|].
      pose proof (ii_active _ Hi) as Ha. unfold ide_active in *. change (ide_queue (ide s1)) with (ide_queue (ide s) ++ [b]). by rewrite Eq in Ha |- *. }
  apply wps_bind, wp_wps. eapply wp_mono; [exact Hst|]. intros [] s2 [Hk3 Hp2].
  apply wps_bind. apply iderw_wait_wps; [done|done|]. intros s3 Hk4 Hp3 Hf3.
  apply wp_wps. eapply krelease_wp; [exact Hk4|set_solver|]. cbv zeta. intros Hk5.
  split; [done|]. split; [by apply ide_pending_kept|done].
Qed.

End proofs.

(** ** Witnesses *)

(** Block 40, locked by process 1 and not yet read; a drive that is busy for [n] polls and
    then reports an error or none. *)
Definition demo_status (bad : bool) (n k : nat) : Z := if decide (k < n)%nat then 0x80 else if bad then 0x41 else 0x40.
#[local] Program Instance demo_drive (bad : bool) (n : nat) : IdeHw :=
  {| ide_status _ k := demo_status bad n k; ide_polls _ := n; ide_drive0 _ := zero_block |}.
Next Obligation. intros bad n l. exists n. split; [done|]. unfold demo_status. rewrite decide_False by lia. by destruct bad. Qed.
Definition demo_ready : IdeHw := demo_drive false 0.
Definition demo_unread : buf := MkBuf 0 1 40 (MkSl 1 1) 1 zero_block.
Definition demo_ide (q : list nat) (l : list (Z * Z)) : kstate := put_ide (MkIde q 1 l) (demo_k demo_unread (demo_log [] 0)).

Lemma demo_ide_kctx q l : kctx 1 [] (demo_ide q l).
Proof. eapply kctx_same; [exact (demo_kctx demo_unread (demo_log [] 0))|done]. Qed.

Lemma demo_ide_request q l : ide_request (demo_ide q l) 0.
Proof. split; [cbn; lia|]. split; [done|]. split; [cbn; unfold FSSIZE; lia|]. split; [change (40 < 64); lia|by left]. Qed.

Lemma demo_ide_inv : ide_inv (demo_ide [0%nat] [(0x1f6, 0xf0); (0x1f3, 40)]).
Proof.
  split; [done|apply NoDup_singleton|]. intros b. change (ide_queue _) with [0%nat]. rewrite list_elem_of_singleton. intros ->.
  apply demo_ide_request.
Qed.

(** The drive is busy three times, and then reports an error. *)
Lemma ideintr_serves_witness :
  let s := demo_ide [0%nat] [(0x1f6, 0xf0); (0x1f3, 40)] in
  wp (@ideintr (demo_drive true 3)) (fun _ s' =>
    ide_inv s' /\ ide_queue (ide s') = [] /\ kctx 1 [] s' /\ no_sleeper (ChBuf 0) (kp s') /\
    bufs s' = <[0%nat := set_b_flags 2 demo_unread]> (bufs s) /\
    forall c, 0 <= c -> (forall b' q', [] = b' :: q' -> b_flags (bufs s !!! b') = 6 -> c <> b_blockno (bufs s !!! b')) ->
      dblk s' c = dblk s c) s.
Proof.
  intros s. apply (@ideintr_serves (demo_drive true 3) 1 [] s 0 [] 3);
    [apply demo_ide_kctx|set_solver|set_solver|apply demo_ide_inv|done|].
  split; [done|]. intros j Hj. do 3 (destruct j as [|j]; [done|]). lia.
Defined.

Lemma iderw_completes_witness :
  let s := demo_ide [] [] in
  wps (kgiven_up (ide_pending 0)) (kresumed (ide_pending 0) 1) (@ide_rw demo_fuel demo_ready 0)
    (fun _ s' => kctx 1 [] s' /\ ide_pending 0 s' /\ b_flags (bufs s' !!! 0%nat) = 2) s.
Proof.
  intros s. apply (@iderw_completes demo_fuel demo_ready 1 s 0);
    [apply demo_ide_kctx|split; [done|apply NoDup_nil_2|by intros b Hb%elem_of_nil]|apply demo_ide_request|set_solver|done|done|done].
Defined.
