(* ===== verification/Boot.v ===== *)
(** * The boot loader (bootmain.c)

    [bootmain] runs before the kernel: it reads the kernel's ELF file from the disk
    sector by sector through the controller's ports, copies its segments to the
    physical addresses they ask for, and jumps to its entry point.  Memory is a
    function from addresses to bytes; the disk is a class that states how a drive
    answers the commands the loader uses. *)

From S2P Require Import Prelude Bytes Monad Strings Exec Ide.

Abbreviation SECTSIZE := (512)%Z.

(** A drive in programmed I/O: while it is busy its status says so, for a bounded
    number of polls; once the registers select a sector and the read command is
    given, the data port delivers that sector. *)
Class AtaDisk : Type := {
  ata : Type;
  ata_inb : Z -> ata -> Z * ata;
  ata_outb : Z -> Z -> ata -> ata;
  ata_insl : Z -> nat -> ata -> list Z * ata;
  sector : Z -> list Z;
  ata_idle : ata -> Prop;
  ata_loaded : Z -> ata -> Prop;
  busy_for : ata -> nat;
  ata_patience : nat;
  ata_bound d : (busy_for d <= ata_patience)%nat;
  ata_status d : Z.land (fst (ata_inb 0x1F7 d)) 0xC0 = 0x40 <-> busy_for d = 0%nat;
  ata_progress d : (busy_for (snd (ata_inb 0x1F7 d)) <= pred (busy_for d))%nat;
  ata_poll_idle d : ata_idle d -> ata_idle (snd (ata_inb 0x1F7 d));
  ata_poll_loaded n d : ata_loaded n d -> ata_loaded n (snd (ata_inb 0x1F7 d));
  ata_select d b0 b1 b2 b3 : ata_idle d -> busy_for d = 0%nat -> Z.land b3 0xF0 = 0xE0 ->
    ata_loaded (b0 + 2 ^ 8 * b1 + 2 ^ 16 * b2 + 2 ^ 24 * Z.land b3 0x0F)
      (ata_outb 0x1F7 0x20 (ata_outb 0x1F6 b3 (ata_outb 0x1F5 b2 (ata_outb 0x1F4 b1 (ata_outb 0x1F3 b0 (ata_outb 0x1F2 1 d))))));
  ata_data n d : ata_loaded n d -> busy_for d = 0%nat ->
    fst (ata_insl 0x1F0 128 d) = sector n /\ ata_idle (snd (ata_insl 0x1F0 128 d));
  sector_length n : length (sector n) = 512%nat;
  sector_bytes n : bytes_in (sector n)
}.

Section boot.
Context {DK : AtaDisk}.

Record boot : Type := MkBoot { bt_mem : bmem; bt_dev : ata }.
Definition set_bt_mem (x : bmem) (s : boot) : boot := MkBoot x (bt_dev s).
Definition set_bt_dev (x : ata) (s : boot) : boot := MkBoot (bt_mem s) x.

(** ** Ports *)

Definition boot_inb (p : Z) : M boot Z :=
  let* r := gets (fun s => ata_inb p (bt_dev s)) in
  modify (set_bt_dev (snd r)) ;;; ret (fst r).
Definition boot_outb (p v : Z) : M boot unit := modify (fun s => set_bt_dev (ata_outb p (u8 v) (bt_dev s)) s).

Fixpoint pokes (a : Z) (l : list Z) (m : bmem) : bmem :=
  match l with
  | [] => m
  | b :: l => pokes (padd a 1) l (poke a b m)
  end.
Definition boot_insl (p addr : Z) (cnt : nat) : M boot unit :=
  let* r := gets (fun s => ata_insl p cnt (bt_dev s)) in
  modify (fun s => MkBoot (pokes addr (fst r) (bt_mem s)) (snd r)).

(** ** bootmain.c *)

Fixpoint waitdisk (n : nat) : M boot unit :=
  match n with
  | O => nofuel
  | S n =>
      let* v := boot_inb 0x1F7 in
      if negb (Z.land v 0xC0 =? 0x40) then waitdisk n else ret tt
  end.

Definition readsect (dst offset : Z) : M boot unit :=
  waitdisk (S ata_patience) ;;;
  boot_outb 0x1F2 1 ;;;
  boot_outb 0x1F3 offset ;;;
  boot_outb 0x1F4 (Z.shiftr offset 8) ;;;
  boot_outb 0x1F5 (Z.shiftr offset 16) ;;;
  boot_outb 0x1F6 (Z.lor (Z.shiftr offset 24) 0xE0) ;;;
  boot_outb 0x1F7 0x20 ;;;
  waitdisk (S ata_patience) ;;;
  boot_insl 0x1F0 dst (Z.to_nat (SECTSIZE / 4)).

Fixpoint readseg_loop (n : nat) (pa epa offset : Z) : M boot unit :=
  match n with
  | O => nofuel
  | S n =>
      if pa <? epa then
        readsect pa offset ;;;
        readseg_loop n (padd pa SECTSIZE) epa (u32 (offset + 1))
      else ret tt
  end.

Definition readseg (pa count offset : Z) : M boot unit :=
  let epa := padd pa count in
  let pa := padd pa (- (offset mod SECTSIZE)) in
  readseg_loop (Z.to_nat (count / SECTSIZE + 3)) pa epa (u32 (offset / SECTSIZE + 1)).

Definition field (f : bmem -> Z) : M boot Z := gets (fun s => f (bt_mem s)).

Fixpoint load_segments (n : nat) (ph eph : Z) : M boot unit :=
  match n with
  | O => nofuel
  | S n =>
      if ph <? eph then
        let* pa := field (peek32 (padd ph 12)) in
        let* filesz := field (peek32 (padd ph 16)) in
        let* off := field (peek32 (padd ph 4)) in
        readseg pa filesz off ;;;
        let* memsz := field (peek32 (padd ph 20)) in
        let* filesz := field (peek32 (padd ph 16)) in
        when (filesz <? memsz)
          (modify (fun s => set_bt_mem (stosb (Z.to_nat (memsz - filesz)) (padd pa filesz) 0 (bt_mem s)) s)) ;;;
        load_segments n (padd ph 32) eph
      else ret tt
  end.

(** The address control is passed to; [None] returns to bootasm.S. *)
Definition bootmain : M boot (option Z) :=
  let elf := 0x10000 in
  readseg elf 4096 0 ;;;
  let* magic := field (peek32 elf) in
  if negb (magic =? ELF_MAGIC) then ret None else
  let* phoff := field (peek32 (padd elf 28)) in
  let ph := padd elf phoff in
  let* phnum := field (fun m => m (padd elf 44) + 2 ^ 8 * m (padd elf 45)) in
  load_segments (S (Z.to_nat phnum)) ph (padd ph (phnum * 32)) ;;;
  let* entry := field (peek32 (padd elf 24)) in
  ret (Some entry).

End boot.

(** ** Sectors *)

Section boot_spec.
Context {DK : AtaDisk}.

(** Byte [i] of the kernel's file, which starts at sector 1. *)
Definition kbyte (i : Z) : Z := byte_at (sector (i / SECTSIZE + 1)) (Z.to_nat (i mod SECTSIZE)).

Lemma waitdisk_wp (P : ata -> Prop) n s (R : unit -> boot -> Prop) :
  (forall d, P d -> P (snd (ata_inb 0x1F7 d))) -> (busy_for (bt_dev s) < n)%nat -> P (bt_dev s) ->
  (forall d, P d -> busy_for d = 0%nat -> R tt (set_bt_dev d s)) -> wp (waitdisk n) R s.
Proof.
  intros HP. revert s. induction n as [|n IH]; intros s Hn Hs HR; [lia|]. cbn [waitdisk].
  apply wp_bind, wp_bind, wp_gets, wp_bind, wp_modify, wp_ret.
  pose proof (ata_status (bt_dev s)) as Hst. pose proof (ata_progress (bt_dev s)) as Hpr.
  destruct (Z.land _ _ =? _) eqn:E; zbool; cbn [negb].
  - apply wp_ret, HR; [by apply HP|]. apply Hst in E. lia.
  - apply IH; cbn [bt_dev set_bt_dev]; [|by apply HP|].
    + assert (busy_for (bt_dev s) <> 0%nat) by tauto. lia.
    + intros d Hd H0. by apply (HR d).
Qed.

Lemma pokes_at l a m x : bytes_in l -> 0 <= a -> a + Z.of_nat (length l) <= 2 ^ 32 ->
  pokes a l m x = if in_rng a (Z.of_nat (length l)) x then byte_at l (Z.to_nat (x - a)) else m x.
Proof.
  intros Hl. revert a m. induction Hl as [|b l Hb Hl IH]; intros a m Ha Hn; cbn [pokes length].
  { unfold in_rng. destruct (_ && _) eqn:E; zbool; [lia|done]. }
  assert (u8 b = b) as Eb by (apply Z.mod_small; exact Hb).
  cbn [length] in Hn. destruct (decide (x = a)) as [->|Hx].
  - assert (pokes (padd a 1) l (poke a b m) a = b) as ->.
    { destruct l as [|c l]; [cbn; by rewrite poke_same|]. cbn [length] in Hn. rewrite padd_small by lia.
      rewrite IH by (cbn [length]; lia). rewrite (proj2 (in_rng_false _ _ _)) by lia. by rewrite poke_same. }
    rewrite (proj2 (in_rng_spec _ _ _)) by lia. by rewrite Z.sub_diag.
  - assert (pokes (padd a 1) l (poke a b m) x = if in_rng (a + 1) (Z.of_nat (length l)) x then byte_at l (Z.to_nat (x - (a + 1))) else m x) as ->.
    { destruct l as [|c l].
      - cbn. rewrite poke_ne by done. by rewrite (proj2 (in_rng_false _ _ _)) by lia.
      - cbn [length] in Hn. rewrite padd_small by lia. rewrite IH by (cbn [length]; lia). by rewrite poke_ne. }
    destruct (in_rng a _ x) eqn:E; [apply in_rng_spec in E|apply in_rng_false in E].
    + rewrite (proj2 (in_rng_spec _ _ _)) by lia. by replace (Z.to_nat (x - a)) with (S (Z.to_nat (x - (a + 1)))) by lia.
    + by rewrite (proj2 (in_rng_false _ _ _)) by lia.
Qed.

Lemma lba_bytes n : 0 <= n < 2 ^ 28 -> u8 n + 2 ^ 8 * u8 (Z.shiftr n 8) + 2 ^ 16 * u8 (Z.shiftr n 16) +
  2 ^ 24 * Z.land (u8 (Z.lor (Z.shiftr n 24) 0xE0)) 0x0F = n /\ Z.land (u8 (Z.lor (Z.shiftr n 24) 0xE0)) 0xF0 = 0xE0.
Proof.
  intros Hn. rewrite !Z.shiftr_div_pow2 by lia. set (h := n / 2 ^ 24).
  assert (0 <= h < 16) as Hh by (unfold h; zdiv).
  assert (Z.land (u8 (Z.lor h 0xE0)) 0x0F = h /\ Z.land (u8 (Z.lor h 0xE0)) 0xF0 = 0xE0) as [-> ->].
  { assert (h = 0 \/ h = 1 \/ h = 2 \/ h = 3 \/ h = 4 \/ h = 5 \/ h = 6 \/ h = 7 \/ h = 8 \/ h = 9 \/ h = 10 \/ h = 11 \/
            h = 12 \/ h = 13 \/ h = 14 \/ h = 15) as Hc by lia. clearbody h.
    repeat (destruct Hc as [->|Hc]; [done|]). by subst. }
  split; [|done]. unfold h, u8. zdiv.
Qed.

Lemma readsect_wp dst n s (R : unit -> boot -> Prop) :
  ata_idle (bt_dev s) -> 0 <= n < 2 ^ 28 ->
  (forall d, ata_idle d -> R tt (MkBoot (pokes dst (sector n) (bt_mem s)) d)) -> wp (readsect dst n) R s.
Proof.
  intros Hid Hn HR. unfold readsect. destruct (lba_bytes n Hn) as [El Eh].
  apply wp_bind, (waitdisk_wp ata_idle); [apply ata_poll_idle|pose proof (ata_bound (bt_dev s)); lia|done|].
  intros d Hd H0. do 6 apply wp_bind, wp_modify.
  apply wp_bind, (waitdisk_wp (ata_loaded n)); [apply ata_poll_loaded| | |].
  { cbn [bt_dev set_bt_dev]. match goal with |- (busy_for ?x < _)%nat => pose proof (ata_bound x) end. lia. }
  { cbn [bt_dev set_bt_dev]. rewrite <- El at 1. by apply ata_select. }
  intros d' Hd' H0'. unfold boot_insl. apply wp_bind, wp_gets, wp_modify. cbn [bt_dev bt_mem set_bt_dev].
  change (Z.to_nat (SECTSIZE / 4)) with 128%nat. destruct (ata_data n d' Hd' H0') as [-> Hi]. by apply HR.
Qed.

(** ** Segments *)

Lemma readseg_loop_wp k fuel pa epa n s (R : unit -> boot -> Prop) :
  (k < fuel)%nat -> ata_idle (bt_dev s) -> 0 <= pa -> pa + 512 * Z.of_nat k < 2 ^ 32 ->
  pa + 512 * Z.of_nat k - 512 < epa <= pa + 512 * Z.of_nat k -> 0 <= n -> n + Z.of_nat k <= 2 ^ 28 ->
  (forall m d, ata_idle d ->
     (forall x, m x = if in_rng pa (512 * Z.of_nat k) x
                      then byte_at (sector (n + (x - pa) / 512)) (Z.to_nat ((x - pa) mod 512)) else bt_mem s x) ->
     R tt (MkBoot m d)) ->
  wp (readseg_loop fuel pa epa n) R s.
Proof.
  revert fuel pa n s. induction k as [|k IH]; intros fuel pa n s Hf Hid Hpa Hend Hepa Hn Hn28 HR;
    (destruct fuel as [|fuel]; [lia|]); cbn [readseg_loop].
  { rewrite (proj2 (Z.ltb_ge _ _)) by lia. apply wp_ret. destruct s as [m d]. apply HR; [done|].
    intros x. by rewrite (proj2 (in_rng_false _ _ _)) by lia. }
  rewrite (proj2 (Z.ltb_lt _ _)) by lia. apply wp_bind, readsect_wp; [done|lia|]. intros d Hd.
  rewrite padd_small, u32_small by lia. apply IH; [lia|done|lia..|]. cbn [bt_mem].
  intros m' d' Hd' Hm. apply HR; [done|]. intros x. rewrite Hm.
  rewrite pokes_at by (rewrite ?sector_length; try lia; apply sector_bytes). rewrite sector_length.
  destruct (in_rng pa (512 * Z.of_nat (S k)) x) eqn:E; [apply in_rng_spec in E|apply in_rng_false in E].
  - destruct (decide (x < pa + 512)).
    + rewrite (proj2 (in_rng_false _ _ _)), (proj2 (in_rng_spec _ _ _)) by lia.
      rewrite Z.div_small, Z.mod_small, Z.add_0_r by lia. done.
    + rewrite (proj2 (in_rng_spec _ _ _)) by lia.
      replace (x - pa) with (x - (pa + 512) + 1 * 512) by lia. rewrite Z.div_add, Z.mod_add by lia.
      do 2 f_equal. lia.
  - by rewrite !(proj2 (in_rng_false _ _ _)) by lia.
Qed.

(** Where [readseg] starts writing, and how many bytes it writes. *)
Definition seg_start (pa off : Z) : Z := pa - off mod 512.
Definition seg_len (count off : Z) : Z := (off mod 512 + count + 511) / 512 * 512.

Lemma readseg_wp pa count off s (R : unit -> boot -> Prop) :
  ata_idle (bt_dev s) -> 0 <= count -> 0 <= off -> off + count < 2 ^ 32 -> 0 <= seg_start pa off ->
  seg_start pa off + seg_len count off < 2 ^ 32 ->
  (forall m d, ata_idle d ->
     (forall x, m x = if in_rng (seg_start pa off) (seg_len count off) x then kbyte (off + (x - pa)) else bt_mem s x) ->
     R tt (MkBoot m d)) ->
  wp (readseg pa count off) R s.
Proof.
  unfold seg_start, seg_len. intros Hid Hc Ho Hoc Hs He HR. unfold readseg. set (k := (off mod 512 + count + 511) / 512) in *.
  assert (0 <= off mod 512 < 512) by zdiv. assert (off mod 512 + count <= k * 512 < off mod 512 + count + 512) as Hk by (unfold k; zdiv).
  assert (off = 512 * (off / 512) + off mod 512) as Eo by zdiv. clearbody k.
  rewrite !padd_small by lia. rewrite u32_small by lia. change (pa + - (off mod 512)) with (pa - off mod 512).
  assert (count / SECTSIZE + 3 > k) by zdiv.
  eapply (readseg_loop_wp (Z.to_nat k)); rewrite ?Z2Nat.id by lia; [lia|done|lia..|].
  - intros m d Hd Hm. apply HR; [done|]. intros x. rewrite Hm, (Z.mul_comm 512). destruct (in_rng _ _ x); [|done].
    unfold kbyte. replace (off + (x - pa)) with (x - (pa - off mod 512) + off / 512 * 512) by zdiv.
    rewrite Z.div_add, Z.mod_add by lia. do 2 f_equal. lia.
Qed.

(** ** The kernel's file *)

Definition img32 (o : Z) : Z := kbyte o + 2 ^ 8 * kbyte (o + 1) + 2 ^ 16 * kbyte (o + 2) + 2 ^ 24 * kbyte (o + 3).

Definition img_phnum : Z := kbyte 44 + 2 ^ 8 * kbyte 45.
(** Field at offset [f] of program header [i]. *)
Definition img_ph (i f : Z) : Z := img32 (img32 28 + 32 * i + f).
Definition ph_paddr (i : Z) : Z := img_ph i 12.
Definition ph_offset (i : Z) : Z := img_ph i 4.
Definition ph_filesize (i : Z) : Z := img_ph i 16.
Definition ph_extent (i : Z) : Z := Z.max (img_ph i 16) (img_ph i 20).

(** The headers are in the first page, segments lie above the loader's scratch page
    and in increasing order, and none reaches into the sectors read for the next. *)
Record bootable : Prop := {
  bo_hdr : img32 28 + 32 * img_phnum <= 4096;
  bo_seg i : 0 <= i < img_phnum ->
    0x11000 <= seg_start (ph_paddr i) (ph_offset i) /\ ph_offset i + ph_filesize i < 2 ^ 32 /\
    seg_start (ph_paddr i) (ph_offset i) + seg_len (ph_filesize i) (ph_offset i) < 2 ^ 32 /\
    ph_paddr i + ph_extent i <= 2 ^ 32;
  bo_order i j : 0 <= i < j -> j < img_phnum -> ph_paddr i + ph_extent i <= seg_start (ph_paddr j) (ph_offset j)
}.

(** Segment [i] is in memory, the part beyond the file zero. *)
Definition seg_loaded (m : bmem) (i : Z) : Prop :=
  forall k, 0 <= k < ph_extent i -> m (ph_paddr i + k) = if k <? ph_filesize i then kbyte (ph_offset i + k) else 0.

Definition hdr_read (m : bmem) : Prop := forall o, 0 <= o < 4096 -> m (0x10000 + o) = kbyte o.

Lemma kbyte_range i : 0 <= kbyte i < 256.
Proof.
  unfold kbyte, byte_at. pose proof (sector_bytes (i / 512 + 1)) as Hb. rewrite nth_lookup.
  destruct (sector _ !! _) eqn:E; cbn; [|lia]. unfold bytes_in in Hb. rewrite Forall_lookup in Hb. by eapply Hb.
Qed.

Lemma img32_range o : 0 <= img32 o < 2 ^ 32.
Proof. unfold img32. pose proof (kbyte_range o). pose proof (kbyte_range (o + 1)). pose proof (kbyte_range (o + 2)). pose proof (kbyte_range (o + 3)). lia. Qed.

Lemma peek_hdr m o : hdr_read m -> 0 <= o <= 4092 -> peek32 (0x10000 + o) m = img32 o.
Proof.
  intros Hm Ho. unfold peek32, img32. rewrite !padd_small by lia. rewrite <- !Z.add_assoc, !Hm by lia. done.
Qed.

Lemma load_step m m' i :
  bootable -> 0 <= i < img_phnum ->
  (forall x, m' x = if in_rng (ph_paddr i + ph_filesize i) (ph_extent i - ph_filesize i) x then 0 else
     if in_rng (seg_start (ph_paddr i) (ph_offset i)) (seg_len (ph_filesize i) (ph_offset i)) x
     then kbyte (ph_offset i + (x - ph_paddr i)) else m x) ->
  hdr_read m -> (forall j, 0 <= j < i -> seg_loaded m j) ->
  hdr_read m' /\ forall j, 0 <= j < i + 1 -> seg_loaded m' j.
Proof.
  intros Hb Hi Hm Hh Hl. destruct (bo_seg Hb i Hi) as (H1 & H2 & H3 & H4).
  pose proof (img32_range (img32 28 + 32 * i + 16)) as R1. fold (img_ph i 16) in R1. fold (ph_filesize i) in R1.
  pose proof (img32_range (img32 28 + 32 * i + 4)) as R2. fold (img_ph i 4) in R2. fold (ph_offset i) in R2.
  assert (ph_filesize i <= ph_extent i) as Hx by (unfold ph_extent, ph_filesize; lia).
  assert (seg_start (ph_paddr i) (ph_offset i) <= ph_paddr i) as Hs by (unfold seg_start; zdiv).
  assert (ph_paddr i + ph_filesize i <= seg_start (ph_paddr i) (ph_offset i) + seg_len (ph_filesize i) (ph_offset i)) as He
    by (unfold seg_start, seg_len; zdiv).
  split.
  - intros o Ho. rewrite Hm, !(proj2 (in_rng_false _ _ _)) by lia. by apply Hh.
  - intros j Hj k Hk. rewrite Hm. destruct (decide (j = i)) as [->|Hne].
    + destruct (k <? ph_filesize i) eqn:Ek; zbool.
      * rewrite (proj2 (in_rng_false _ _ _)), (proj2 (in_rng_spec _ _ _)) by lia. f_equal. lia.
      * by rewrite (proj2 (in_rng_spec _ _ _)) by lia.
    + pose proof (bo_order Hb j i ltac:(lia) ltac:(lia)).
      rewrite !(proj2 (in_rng_false _ _ _)) by lia. by apply Hl; [lia|].
Qed.

Lemma field_wp f s (R : Z -> boot -> Prop) : R (f (bt_mem s)) s -> wp (field f) R s.
Proof. intros HR. by apply wp_gets. Qed.

Lemma field_ph_wp i o s (R : Z -> boot -> Prop) :
  bootable -> 0 <= i < img_phnum -> hdr_read (bt_mem s) -> 0 <= o <= 28 ->
  R (img_ph i o) s -> wp (field (peek32 (padd (0x10000 + img32 28 + 32 * i) o))) R s.
Proof.
  intros Hb Hi Hh Ho HR. apply field_wp. pose proof (bo_hdr Hb). pose proof (img32_range 28).
  rewrite padd_small by lia. rewrite <- !Z.add_assoc, peek_hdr by (done || lia). by rewrite !Z.add_assoc.
Qed.

Lemma load_segments_wp r i fuel s (R : unit -> boot -> Prop) :
  bootable -> 0 <= i -> i + Z.of_nat r = img_phnum -> (r < fuel)%nat -> ata_idle (bt_dev s) ->
  hdr_read (bt_mem s) -> (forall j, 0 <= j < i -> seg_loaded (bt_mem s) j) ->
  (forall s', hdr_read (bt_mem s') -> (forall j, 0 <= j < img_phnum -> seg_loaded (bt_mem s') j) -> R tt s') ->
  wp (load_segments fuel (0x10000 + img32 28 + 32 * i) (0x10000 + img32 28 + 32 * img_phnum)) R s.
Proof.
  intros Hb. revert i fuel s. induction r as [|r IH]; intros i fuel s Hi Hr Hf Hid Hh Hl HR;
    (destruct fuel as [|fuel]; [lia|]); cbn [load_segments].
  { rewrite (proj2 (Z.ltb_ge _ _)) by lia. apply wp_ret, HR; [done|]. intros j Hj. apply Hl. lia. }
  rewrite (proj2 (Z.ltb_lt _ _)) by lia. assert (0 <= i < img_phnum) as Hin by lia.
  destruct (bo_seg Hb i Hin) as (H1 & H2 & H3 & H4). pose proof (bo_hdr Hb). pose proof (img32_range 28).
  pose proof (img32_range (img32 28 + 32 * i + 16) : 0 <= ph_filesize i < 2 ^ 32) as R1.
  pose proof (img32_range (img32 28 + 32 * i + 4) : 0 <= ph_offset i < 2 ^ 32) as R2.
  assert (ph_paddr i + ph_filesize i <= seg_start (ph_paddr i) (ph_offset i) + seg_len (ph_filesize i) (ph_offset i)) as He
    by (unfold seg_start, seg_len; zdiv).
  assert (seg_start (ph_paddr i) (ph_offset i) <= ph_paddr i) as Hs by (unfold seg_start; zdiv).
  do 3 (apply wp_bind, field_ph_wp; [done|done|done|lia|]).
  apply wp_bind, (readseg_wp (ph_paddr i) (ph_filesize i) (ph_offset i)); [done|lia..|]. intros m1 d1 Hd1 Hm1.
  assert (hdr_read m1) as Hh1 by (intros o Ho; rewrite Hm1, (proj2 (in_rng_false _ _ _)) by lia; by apply Hh).
  do 2 (apply wp_bind, field_ph_wp; [done|done|done|lia|]). fold (ph_filesize i). apply wp_bind.
  assert (forall m2, (forall x, m2 x = if in_rng (ph_paddr i + ph_filesize i) (ph_extent i - ph_filesize i) x then 0 else m1 x) ->
            wp (load_segments fuel (padd (0x10000 + img32 28 + 32 * i) 32) (0x10000 + img32 28 + 32 * img_phnum)) R (MkBoot m2 d1)) as Hgo.
  { intros m2 Hm2. rewrite padd_small by lia. replace (0x10000 + img32 28 + 32 * i + 32) with (0x10000 + img32 28 + 32 * (i + 1)) by lia.
    destruct (load_step (bt_mem s) m2 i Hb Hin) as [Hh2 Hl2]; [|done|done|].
    - intros x. by rewrite Hm2, Hm1.
    - apply IH; try done; lia. }
  apply wp_when; intros Elt; zbool.
  - apply wp_modify, Hgo. intros x. cbn [bt_mem]. assert (ph_extent i = img_ph i 20) as Ex by (unfold ph_extent, ph_filesize in *; lia).
    rewrite Ex in *. fold (ph_paddr i). rewrite padd_small, stosb_at by lia. by rewrite Z2Nat.id by lia.
  - apply Hgo. intros x. rewrite (proj2 (in_rng_false _ _ _)); [done|]. unfold ph_extent, ph_filesize in *. lia.
Qed.

(** C15. The boot loader loads the kernel.  If the file on the disk is not an ELF file,
    [bootmain] returns to its caller.  If it is, and its program headers are in the
    first page of the file, its segments lie above the page they are read to, in
    increasing order, and none reaches into the memory that the first sector of a later
    one is copied to, then however long the drive stays busy [bootmain] passes
    control to the file's entry point, with every byte of every segment at the address
    it asks for and the rest of each segment's memory zero.  Segments need not be
    aligned to sectors; [bootmain_low_segment] shows what happens when one that is not
    follows another too closely. *)
Theorem bootmain_loads s :
  ata_idle (bt_dev s) -> (img32 0 = ELF_MAGIC -> bootable) ->
  wp bootmain (fun r s' =>
    if img32 0 =? ELF_MAGIC
    then r = Some (img32 24) /\ forall i, 0 <= i < img_phnum -> seg_loaded (bt_mem s') i
    else r = None) s.
Proof.
  intros Hid Hb. unfold bootmain. apply wp_bind, readseg_wp; [done|done|done|done|done|vm_compute; done|].
  intros m d Hd Hm. change (seg_start 0x10000 0) with 0x10000 in Hm. change (seg_len 4096 0) with 4096 in Hm.
  assert (hdr_read m) as Hh by (intros o Ho; rewrite Hm, (proj2 (in_rng_spec _ _ _)) by lia; f_equal; lia).
  apply wp_bind, field_wp. cbn [bt_mem]. change 0x10000 with (0x10000 + 0) at 1. rewrite peek_hdr by (done || lia).
  destruct (img32 0 =? ELF_MAGIC) eqn:Em; zbool; cbn [negb]; [|by apply wp_ret]. specialize (Hb Em).
  pose proof (bo_hdr Hb) as Hhd. pose proof (img32_range 28). assert (0 <= img_phnum) as Hn.
  { unfold img_phnum. pose proof (kbyte_range 44). pose proof (kbyte_range 45). lia. }
  apply wp_bind, field_wp. cbn [bt_mem]. rewrite (padd_small 0x10000 28) by lia. rewrite peek_hdr by (done || lia).
  apply wp_bind, field_wp. cbn [bt_mem]. rewrite !(padd_small 0x10000) by lia. rewrite !Hh by lia. fold img_phnum.
  rewrite (Z.mul_comm img_phnum), padd_small by lia. apply wp_bind.
  replace (0x10000 + img32 28) with (0x10000 + img32 28 + 32 * 0) at 1 by lia.
  apply (load_segments_wp (Z.to_nat img_phnum)); [done|lia|lia|lia|done|done|lia|].
  intros s' Hh' Hl. apply wp_bind, field_wp. rewrite ?(padd_small 0x10000) by lia. rewrite (peek_hdr _ 24) by (done || lia).
  by apply wp_ret.
Qed.

End boot_spec.

(** ** A concrete drive and kernel file *)

Definition demo_words (base : Z) (l : list (Z * Z)) (d : list Z) : list Z :=
  foldr (fun x d => put32 (Z.to_nat (base + fst x)) (snd x) d) d l.

(** Two segments; the second starts in the middle of a sector.  With [low] it is placed
    so close to the first that the start of its sector reaches into it. *)
Definition demo_elf (low : bool) : list Z :=
  demo_words 0 [(0, ELF_MAGIC); (24, 0x10000C); (28, 52); (44, 2)]
    (demo_words 52 [(4, 512); (12, 0x100000); (16, 600); (20, 1000)]
      (demo_words 84 [(4, 1112); (12, if low then 0x100420 else 0x100458); (16, 100); (20, 100)] (replicate 1536 7))).

Definition demo_sector (low : bool) (n : Z) : list Z := take 512 (drop (Z.to_nat (512 * (n - 1))) (demo_elf low) ++ replicate 512 0).

Lemma demo_elf_bytes low : forallb (fun b => (0 <=? b) && (b <? 256)) (demo_elf low) = true.
Proof. destruct low; vm_compute; reflexivity. Qed.

Lemma demo_sector_bytes low n : bytes_in (demo_sector low n).
Proof.
  apply Forall_take, Forall_app. split; [apply Forall_drop|apply Forall_replicate; lia].
  apply Forall_forall. intros b Hb. pose proof (demo_elf_bytes low) as H. rewrite forallb_forall in H.
  apply list_elem_of_In in Hb. specialize (H b Hb). zbool. lia.
Qed.

(** Busy for three polls after each command. *)
Definition demo_ata_busy (d : list (Z * Z) * nat) : nat := Nat.min (snd d) 3.

#[refine] Instance demo_ata (low : bool) : AtaDisk := {|
  ata := list (Z * Z) * nat;
  ata_inb p d := if p =? 0x1F7 then (if Nat.eqb (snd d) 0 then 0x40 else 0x80, (fst d, pred (demo_ata_busy d))) else (0, d);
  ata_outb p v d := ((p, v) :: fst d, if p =? 0x1F7 then 3%nat else snd d);
  ata_insl p n d := (demo_sector low (ide_sector (fst d)), d);
  sector := demo_sector low;
  ata_idle d := True;
  ata_loaded n d := ide_sector (fst d) = n;
  busy_for := demo_ata_busy;
  ata_patience := 3
|}.
Proof.
  - intros [l n]. unfold demo_ata_busy. cbn. lia.
  - intros [l [|n]]; unfold demo_ata_busy; cbn; split; done || lia.
  - intros [l n]. unfold demo_ata_busy. cbn. lia.
  - done.
  - intros n [l k]. done.
  - intros [l k] b0 b1 b2 b3 _ _ _. unfold ide_sector. cbn [fst]. rewrite !Z.shiftl_mul_pow2 by lia. cbn [port Z.eqb Pos.eqb]. lia.
  - intros n [l k] <- _. done.
  - intros n. unfold demo_sector. rewrite length_take, length_app, length_replicate. lia.
  - apply demo_sector_bytes.
Defined.

#[local] Instance apart_ata : AtaDisk := demo_ata false.

Lemma demo_phdrs :
  (ph_paddr 0 = 0x100000 /\ ph_offset 0 = 512 /\ ph_filesize 0 = 600 /\ ph_extent 0 = 1000) /\
  (ph_paddr 1 = 0x100458 /\ ph_offset 1 = 1112 /\ ph_filesize 1 = 100 /\ ph_extent 1 = 100).
Proof. split_and!; vm_compute; reflexivity. Qed.

Lemma demo_bootable : bootable.
Proof.
  assert (img_phnum = 2) as En by (vm_compute; reflexivity).
  destruct demo_phdrs as [(E1 & E2 & E3 & E4) (E5 & E6 & E7 & E8)].
  assert (forall i, 0 <= i < 2 -> i = 0 \/ i = 1) as Hi by lia.
  split; rewrite En.
  - assert (img32 28 = 52) as -> by (vm_compute; reflexivity). lia.
  - intros i H. unfold seg_start, seg_len. destruct (Hi i H) as [->| ->]; rewrite ?E1, ?E2, ?E3, ?E4, ?E5, ?E6, ?E7, ?E8; split_and!; zdiv.
  - intros i j H1 H2. assert (i = 0) as -> by lia. assert (j = 1) as -> by lia. rewrite E1, E4, E5, E6. unfold seg_start. zdiv.
Qed.

Definition demo_boot : @boot apart_ata := @MkBoot apart_ata (fun _ => 0) ([], 0%nat).

Lemma bootmain_loads_witness :
  wp bootmain (fun r s' => r = Some 0x10000C /\ seg_loaded (bt_mem s') 1) demo_boot.
Proof.
  eapply wp_mono.
  - apply (bootmain_loads demo_boot); [exact I|intros _; exact demo_bootable].
  - intros r s'. assert (img32 0 = ELF_MAGIC) as -> by (vm_compute; reflexivity).
    intros [Hr Hl]. split; [rewrite Hr; vm_compute; reflexivity|].
    apply Hl. assert (img_phnum = 2) as -> by (vm_compute; reflexivity). lia.
Defined.

#[local] Instance low_ata : AtaDisk := demo_ata true.
Definition demo_low : @boot low_ata := @MkBoot low_ata (fun _ => 0) ([], 0%nat).

(** When the sector a segment starts in reaches into the segment before, whose bytes
    it should leave zero, the copy overwrites them. *)
Lemma bootmain_low_segment :
  ph_paddr 0 + ph_extent 0 <= ph_paddr 1 /\
  wp bootmain (fun r s' => r = Some 0x10000C /\ bt_mem s' (ph_paddr 0 + 968) = 7 /\ ~ seg_loaded (bt_mem s') 0) demo_low.
Proof.
  assert (ph_paddr 0 = 0x100000 /\ ph_extent 0 = 1000 /\ ph_filesize 0 = 600 /\ ph_paddr 1 = 0x100420) as (E0 & E1 & E2 & E3) by (split_and!; vm_compute; reflexivity).
  split; [rewrite E0, E1, E3; lia|].
  eapply wp_mono; [eapply (wp_eval _ (fun r s' => bool_decide (r = Some 0x10000C /\ bt_mem s' (0x100000 + 968) = 7))); vm_compute; reflexivity|].
  intros r s' [Er Em]%bool_decide_eq_true. rewrite E0. split_and!; [exact Er|exact Em|].
  intros Hl. specialize (Hl 968). rewrite E0, E1, E2, Em in Hl. discriminate Hl. lia.
Qed.
