(* ===== verification/Trap.v ===== *)
(** * Traps (trap.c)

    What the processor does on a system call, an interrupt, a page fault or any
    other exception.  The trap frame of a system call is the process's own; the
    device interrupts carry what the device delivers. *)

From S2P Require Import Prelude Strings Bytes Monad Machine Kalloc Vm VmUser ProcDefs RunQueue Proc KernDefs Sleeplock Bio Log Fs File Fork Exec Syscall Sysfile Console Ide.

(** traps.h *)
Abbreviation T_PGFLT := (14)%Z.
Abbreviation T_SYSCALL := (64)%Z.
Abbreviation T_IRQ0 := (32)%Z.
Abbreviation IRQ_TIMER := (0)%Z.
Abbreviation IRQ_KBD := (1)%Z.
Abbreviation IRQ_COM1 := (4)%Z.
Abbreviation IRQ_IDE := (14)%Z.
Abbreviation IRQ_SPURIOUS := (31)%Z.

Section trap.
Context {FU : Fuel} {BD : BlockDevice} {DV : DevSw} {KI : KernelImage} {HW : IdeHw}.

(** What the devices deliver: the faulting address, the keyboard's state and scan
    codes, and the bytes at the serial port. *)
Record devices : Type := MkDev { dv_cr2 : Z; dv_shift : Z; dv_codes : list Z; dv_serial : list Z }.

Definition is_killed (p : nat) : M kstate bool := getproc p (fun x => negb (p_killed x =? 0)).
Definition kmyproc : M kstate (option nat) := proc_op myproc.

Definition trap_syscall (tf : trapframe) : M kstate unit :=
  let* p := kcurproc in
  let* k := is_killed p in
  when k exit ;;;
  setproc p (set_tf tf) ;;;
  syscall ;;;
  let* k := is_killed p in
  when k exit.

(** The clock, on the first CPU. *)
Definition timer_intr : M kstate unit :=
  let* id := proc_op cpuid in
  when (id =? 0)%nat (
    kacquire LTicks ;;;
    proc_op (modify (fun s => put_ticks (u32 (ticks s + 1)) s)) ;;;
    let* now := proc_op (gets ticks) in
    proc_op (wakeup ChTicks) ;;;
    krelease LTicks ;;;
    proc_op (scheduler_tick now)).

(** [myproc() && myproc()->killed && (tf->cs&3) == DPL_USER]. *)
Definition exit_if_killed (tf : trapframe) : M kstate unit :=
  let* o := kmyproc in
  match o with
  | Some p =>
      let* k := is_killed p in
      when (k && (Z.land (tf_cs tf) 3 =? DPL_USER)) exit
  | None => ret tt
  end.

(** A fault the kernel does not resolve: it is its own mistake, or the process's. *)
Definition bad_trap (tf : trapframe) (msg : string) : M kstate unit :=
  let* o := kmyproc in
  match o with
  | Some p => if Z.land (tf_cs tf) 3 =? 0 then panic msg else setproc p (set_killed 1)
  | None => panic msg
  end.

Definition trap_pgflt (tf : trapframe) (cr2 : Z) : M kstate unit :=
  let* o := kmyproc in
  let* sp := match o with Some p => let* pg := getproc p p_pgdir in let* sz := getproc p p_sz in ret (Some (pg, sz)) | None => ret None end in
  let* r := proc_op (mem_op (pagefault sp cr2 (tf_err tf))) in
  if r =? 0 then ret tt else bad_trap tf "kernel page fault".

Definition dispatch (tf : trapframe) (dv : devices) : M kstate unit :=
  let n := tf_trapno tf in
  if n =? T_IRQ0 + IRQ_TIMER then timer_intr
  else if n =? T_IRQ0 + IRQ_IDE then ideintr
  else if n =? T_IRQ0 + IRQ_IDE + 1 then ret tt
  else if n =? T_IRQ0 + IRQ_KBD then kbdintr (dv_shift dv) (dv_codes dv) ;;; ret tt
  else if n =? T_IRQ0 + IRQ_COM1 then uartintr (dv_serial dv) ;;; ret tt
  else if (n =? T_IRQ0 + 7) || (n =? T_IRQ0 + IRQ_SPURIOUS) then ret tt
  else if n =? T_PGFLT then trap_pgflt tf (dv_cr2 dv)
  else bad_trap tf "trap".

(** The slice of the running process ends with its last tick. *)
Definition preempt (tf : trapframe) : M kstate unit :=
  let* o := kmyproc in
  match o with
  | Some p =>
      let* st := getproc p p_state in
      when (bool_decide (st = RUNNING) && (tf_trapno tf =? T_IRQ0 + IRQ_TIMER)) (
        setproc p (fun x => set_slice (s32 (p_slice x - 1)) x) ;;;
        let* sl := getproc p p_slice in
        when (sl <=? 0) (proc_op yield))
  | None => ret tt
  end.

Definition trap (tf : trapframe) (dv : devices) : M kstate unit :=
  if tf_trapno tf =? T_SYSCALL then trap_syscall tf else
  dispatch tf dv ;;;
  exit_if_killed tf ;;;
  preempt tf ;;;
  exit_if_killed tf.

End trap.
