(* ===== verification/Seg.v ===== *)
(** * Segments and gates (mmu.h, seginit of vm.c, tvinit of trap.c)

    The descriptors as the C code builds them, field by field, and as the processor
    decodes them from memory: a bit field of width [w] keeps its value modulo [2^w],
    and the fields of a descriptor are laid out from the least significant bit on. *)

From S2P Require Import Prelude Monad Machine Fork Trap.

Abbreviation SEG_KDATA := (2)%Z.
Abbreviation SEG_TSS := (5)%Z.
Abbreviation STA_X := (0x8)%Z.
Abbreviation STA_W := (0x2)%Z.
Abbreviation STA_R := (0x2)%Z.
Abbreviation STS_T32A := (0x9)%Z.
Abbreviation STS_IG32 := (0xE)%Z.
Abbreviation STS_TG32 := (0xF)%Z.

(** ** Descriptors *)

Record segdesc : Type := MkSeg {
  lim_15_0 : Z; base_15_0 : Z; base_23_16 : Z; sd_type : Z; sd_s : Z; sd_dpl : Z; sd_p : Z;
  lim_19_16 : Z; sd_avl : Z; sd_rsv1 : Z; sd_db : Z; sd_g : Z; base_31_24 : Z
}.
Record gatedesc : Type := MkGate {
  off_15_0 : Z; gd_cs : Z; gd_args : Z; gd_rsv1 : Z; gd_type : Z; gd_s : Z; gd_dpl : Z; gd_p : Z; off_31_16 : Z
}.

Definition SEG (type base lim dpl : Z) : segdesc :=
  MkSeg (Z.land (Z.shiftr lim 12) 0xffff) (Z.land base 0xffff) (Z.land (Z.shiftr base 16) 0xff) type 1 dpl 1
        (Z.shiftr lim 28) 0 0 1 1 (Z.shiftr base 24).
Definition SEG16 (type base lim dpl : Z) : segdesc :=
  MkSeg (Z.land lim 0xffff) (Z.land base 0xffff) (Z.land (Z.shiftr base 16) 0xff) type 1 dpl 1
        (Z.shiftr lim 16) 0 0 1 0 (Z.shiftr base 24).

Definition SETGATE (istrap : bool) (sel off d : Z) : gatedesc :=
  MkGate (Z.land off 0xffff) sel 0 0 (if istrap then STS_TG32 else STS_IG32) 0 d 1 (Z.shiftr off 16).

(** ** Tables *)

Definition seg0 : segdesc := MkSeg 0 0 0 0 0 0 0 0 0 0 0 0 0.
#[export] Instance segdesc_inhabited : Inhabited segdesc := populate seg0.
#[export] Instance gatedesc_inhabited : Inhabited gatedesc := populate (MkGate 0 0 0 0 0 0 0 0 0).

(** The three halfwords [lgdt] and [lidt] pass to the processor for a table at [p]. *)
Definition lgdt (p size : Z) : list Z := [u16 (size - 1); u16 p; u16 (Z.shiftr p 16)].

(** [c->gdt] after [seginit]. *)
Definition seginit (gdt : list segdesc) : list segdesc :=
  let gdt := <[1%nat := SEG (Z.lor STA_X STA_R) 0 0xffffffff 0]> gdt in
  let gdt := <[2%nat := SEG STA_W 0 0xffffffff 0]> gdt in
  let gdt := <[3%nat := SEG (Z.lor STA_X STA_R) 0 0xffffffff DPL_USER]> gdt in
  <[4%nat := SEG STA_W 0 0xffffffff DPL_USER]> gdt.

(** [idt] after [tvinit]; [vectors] is the table vectors.pl generates. *)
Fixpoint tvinit_loop (n i : nat) (vectors : list Z) (idt : list gatedesc) : list gatedesc :=
  match n with
  | O => idt
  | S n => tvinit_loop n (S i) vectors (<[i := SETGATE false (Z.shiftl SEG_KCODE 3) (vectors !!! i) 0]> idt)
  end.
Definition tvinit (vectors : list Z) (idt : list gatedesc) : list gatedesc :=
  let idt := tvinit_loop 256 0 vectors idt in
  <[Z.to_nat T_SYSCALL := SETGATE true (Z.shiftl SEG_KCODE 3) (vectors !!! Z.to_nat T_SYSCALL) DPL_USER]> idt.

(** The task state segment as [switchuvm] sets it, [ts] being its address: the stack
    the processor switches to on entry to the kernel, and the offset of the I/O
    permission map. *)
Record taskstate : Type := MkTs {
  ts_link : Z; ts_esp0 : Z; ts_ss0 : Z; ts_padding1 : Z; ts_esp1 : Z; ts_ss1 : Z; ts_padding2 : Z;
  ts_esp2 : Z; ts_ss2 : Z; ts_padding3 : Z; ts_cr3 : Z; ts_eip : Z; ts_eflags : Z; ts_eax : Z; ts_ecx : Z;
  ts_edx : Z; ts_ebx : Z; ts_esp : Z; ts_ebp : Z; ts_esi : Z; ts_edi : Z; ts_es : Z; ts_padding4 : Z;
  ts_cs : Z; ts_padding5 : Z; ts_ss : Z; ts_padding6 : Z; ts_ds : Z; ts_padding7 : Z; ts_fs : Z;
  ts_padding8 : Z; ts_gs : Z; ts_padding9 : Z; ts_ldt : Z; ts_padding10 : Z; ts_t : Z; ts_iomb : Z
}.
Definition set_kernel_stack (esp0 ss0 iomb : Z) (x : taskstate) : taskstate :=
  MkTs (ts_link x) esp0 ss0 (ts_padding1 x) (ts_esp1 x) (ts_ss1 x) (ts_padding2 x) (ts_esp2 x) (ts_ss2 x)
    (ts_padding3 x) (ts_cr3 x) (ts_eip x) (ts_eflags x) (ts_eax x) (ts_ecx x) (ts_edx x) (ts_ebx x) (ts_esp x)
    (ts_ebp x) (ts_esi x) (ts_edi x) (ts_es x) (ts_padding4 x) (ts_cs x) (ts_padding5 x) (ts_ss x)
    (ts_padding6 x) (ts_ds x) (ts_padding7 x) (ts_fs x) (ts_padding8 x) (ts_gs x) (ts_padding9 x) (ts_ldt x)
    (ts_padding10 x) (ts_t x) iomb.
Definition ts_size : Z := 104.
Definition set_s (x : Z) (d : segdesc) : segdesc :=
  MkSeg (lim_15_0 d) (base_15_0 d) (base_23_16 d) (sd_type d) x (sd_dpl d) (sd_p d) (lim_19_16 d) (sd_avl d) (sd_rsv1 d)
        (sd_db d) (sd_g d) (base_31_24 d).
Definition switch_tss (ts kstack : Z) (gdt : list segdesc) (x : taskstate) : list segdesc * taskstate :=
  let gdt := <[Z.to_nat SEG_TSS := SEG16 STS_T32A ts (ts_size - 1) 0]> gdt in
  (alter (set_s 0) (Z.to_nat SEG_TSS) gdt, set_kernel_stack (u32 (kstack + KSTACKSIZE)) (Z.shiftl SEG_KDATA 3) 0xFFFF x).

(** ** The processor's view *)

(** Bit fields [(width, value)], the first in the lowest bits. *)
Fixpoint pack (l : list (Z * Z)) : Z :=
  match l with
  | [] => 0
  | (w, v) :: l => v mod 2 ^ w + 2 ^ w * pack l
  end.

Definition seg_word (d : segdesc) : Z :=
  pack [(16, lim_15_0 d); (16, base_15_0 d); (8, base_23_16 d); (4, sd_type d); (1, sd_s d); (2, sd_dpl d); (1, sd_p d);
        (4, lim_19_16 d); (1, sd_avl d); (1, sd_rsv1 d); (1, sd_db d); (1, sd_g d); (8, base_31_24 d)].
Definition gate_word (d : gatedesc) : Z :=
  pack [(16, off_15_0 d); (16, gd_cs d); (5, gd_args d); (3, gd_rsv1 d); (4, gd_type d); (1, gd_s d); (2, gd_dpl d);
        (1, gd_p d); (16, off_31_16 d)].

(** [n] bits of [w] from bit [lo] on. *)
Definition bits (lo n w : Z) : Z := w / 2 ^ lo mod 2 ^ n.

(** What the processor takes from the 64 bits of a code or data segment, and of a gate. *)
Record cpu_seg : Type := MkCpuSeg { cs_base : Z; cs_limit : Z; cs_type : Z; cs_app : Z; cs_dpl : Z; cs_present : Z }.
Definition decode_seg (w : Z) : cpu_seg :=
  let lim := bits 0 16 w + 2 ^ 16 * bits 48 4 w in
  MkCpuSeg (bits 16 16 w + 2 ^ 16 * bits 32 8 w + 2 ^ 24 * bits 56 8 w)
           (if bits 55 1 w =? 1 then lim * 4096 + 4095 else lim)
           (bits 40 4 w) (bits 44 1 w) (bits 45 2 w) (bits 47 1 w).
Record cpu_gate : Type := MkCpuGate { cg_offset : Z; cg_sel : Z; cg_type : Z; cg_sys : Z; cg_dpl : Z; cg_present : Z }.
Definition decode_gate (w : Z) : cpu_gate :=
  MkCpuGate (bits 0 16 w + 2 ^ 16 * bits 48 16 w) (bits 16 16 w) (bits 40 4 w) (bits 44 1 w) (bits 45 2 w) (bits 47 1 w).

(** ** Bit fields *)

Fixpoint field_at (lo : Z) (l : list (Z * Z)) : option (Z * Z) :=
  match l with
  | [] => None
  | (w, v) :: l => if lo =? 0 then Some (w, v) else field_at (lo - w) l
  end.

Lemma bits_field l lo n v :
  Forall (fun x => 0 < x.1) l -> 0 <= lo -> field_at lo l = Some (n, v) -> bits lo n (pack l) = v mod 2 ^ n.
Proof.
  intros Hl. revert lo. induction Hl as [|[w x] l Hw Hl IH]; intros lo Hlo Hf; [done|]. cbn [field_at pack fst] in *.
  assert (0 < 2 ^ w) as Hp by (apply Z.pow_pos_nonneg; lia).
  destruct (lo =? 0) eqn:E; zbool.
  - injection Hf as -> ->. subst lo. unfold bits. rewrite Z.div_1_r, (Z.mul_comm (2 ^ n)), Z.mod_add by lia. by rewrite Z.mod_mod by lia.
  - assert (w <= lo) as Hle.
    { destruct (decide (w <= lo)); [done|]. exfalso. assert (lo - w < 0) as Hneg by lia. clear -Hneg Hf Hl.
      revert lo w Hneg Hf. induction Hl as [|[w' x'] l' Hw' _ IH']; intros lo w Hneg Hf; [done|]. cbn [field_at fst] in *.
      rewrite (proj2 (Z.eqb_neq _ _)) in Hf by lia. apply (IH' (lo - w) w'); [lia|done]. }
    rewrite <- (IH (lo - w)) by (done || lia). unfold bits. f_equal.
    replace (2 ^ lo) with (2 ^ w * 2 ^ (lo - w)) by (rewrite <- Z.pow_add_r by lia; f_equal; lia).
    rewrite <- Z.div_div by (apply Z.pow_nonzero || apply Z.pow_pos_nonneg; lia).
    rewrite (Z.mul_comm (2 ^ w)), Z.div_add by lia. rewrite (Z.div_small (x mod 2 ^ w)) by (apply Z.mod_pos_bound; lia). done.
Qed.

Ltac unpack := repeat match goal with
  | |- context [bits ?lo ?n (pack ?l)] => erewrite (bits_field l lo n); [|repeat apply Forall_cons_2; [cbn; lia..|apply Forall_nil_2]|lia|reflexivity]
  end.

Lemma land_ffff x : Z.land x 0xffff = x mod 2 ^ 16.
Proof. apply (Z.land_ones x 16). lia. Qed.
Lemma land_ff x : Z.land x 0xff = x mod 2 ^ 8.
Proof. apply (Z.land_ones x 8). lia. Qed.

(** ** Descriptors are read as they were meant *)

Lemma decode_SEG type base lim dpl :
  0 <= type < 16 -> 0 <= base < 2 ^ 32 -> 0 <= lim < 2 ^ 32 -> 0 <= dpl < 4 ->
  decode_seg (seg_word (SEG type base lim dpl)) = MkCpuSeg base (lim / 4096 * 4096 + 4095) type 1 dpl 1.
Proof.
  intros Ht Hb Hl Hd. unfold decode_seg, seg_word. unpack. cbn [lim_15_0 base_15_0 base_23_16 sd_type sd_s sd_dpl sd_p lim_19_16 sd_g base_31_24 SEG].
  change (1 mod 2 ^ 1 =? 1) with true. cbn iota. rewrite land_ff, !land_ffff, !Z.shiftr_div_pow2 by lia. f_equal; zdiv.
Qed.

Lemma decode_SEG16 type base lim dpl s :
  0 <= type < 16 -> 0 <= base < 2 ^ 32 -> 0 <= lim < 2 ^ 20 -> 0 <= dpl < 4 -> 0 <= s < 2 ->
  decode_seg (seg_word (set_s s (SEG16 type base lim dpl))) = MkCpuSeg base lim type s dpl 1.
Proof.
  intros Ht Hb Hl Hd Hs. unfold decode_seg, seg_word. unpack.
  cbn [lim_15_0 base_15_0 base_23_16 sd_type sd_s sd_dpl sd_p lim_19_16 sd_g base_31_24 SEG16 set_s].
  change (0 mod 2 ^ 1 =? 1) with false. cbn iota. rewrite land_ff, !land_ffff, !Z.shiftr_div_pow2 by lia. f_equal; zdiv.
Qed.

Lemma decode_SETGATE istrap sel off d :
  0 <= sel < 2 ^ 16 -> 0 <= off < 2 ^ 32 -> 0 <= d < 4 ->
  decode_gate (gate_word (SETGATE istrap sel off d)) = MkCpuGate off sel (if istrap then STS_TG32 else STS_IG32) 0 d 1.
Proof.
  intros Hs Ho Hd. unfold decode_gate, gate_word. unpack. cbn [off_15_0 gd_cs gd_type gd_s gd_dpl gd_p off_31_16 SETGATE].
  rewrite !land_ffff, !Z.shiftr_div_pow2 by lia. f_equal; [zdiv|zdiv|by destruct istrap|zdiv].
Qed.

Lemma tvinit_loop_at n i vectors idt j :
  (i + n <= length idt)%nat ->
  tvinit_loop n i vectors idt !!! j =
  if decide (i <= j < i + n)%nat then SETGATE false (Z.shiftl SEG_KCODE 3) (vectors !!! j) 0 else idt !!! j.
Proof.
  revert i idt. induction n as [|n IH]; intros i idt Hn; cbn [tvinit_loop].
  { by rewrite decide_False by lia. }
  rewrite IH by (rewrite length_insert; lia). destruct (decide (j = i)) as [->|Hne].
  - rewrite decide_False, decide_True by lia. by rewrite list_lookup_total_insert_eq by lia.
  - rewrite list_lookup_total_insert_ne by done. repeat case_decide; done || lia.
Qed.

Lemma tvinit_loop_length n i vectors idt : length (tvinit_loop n i vectors idt) = length idt.
Proof. revert i idt. induction n as [|n IH]; intros i idt; cbn; [done|]. by rewrite IH, length_insert. Qed.

(** The gate of vector [i], and the segment it leads to, as the processor reads them. *)
Definition gate_of (idt : list gatedesc) (i : nat) : cpu_gate := decode_gate (gate_word (idt !!! i)).
Definition segment_of (gdt : list segdesc) (sel : Z) : cpu_seg := decode_seg (seg_word (gdt !!! Z.to_nat (sel / 8))).

Lemma tvinit_gate vectors idt i :
  length idt = 256%nat -> (i < 256)%nat -> 0 <= vectors !!! i < 2 ^ 32 ->
  let sys := bool_decide (Z.of_nat i = T_SYSCALL) in
  gate_of (tvinit vectors idt) i =
  MkCpuGate (vectors !!! i) 8 (if sys then STS_TG32 else STS_IG32) 0 (if sys then 3 else 0) 1.
Proof.
  intros Hl Hi Hv. cbn zeta. unfold gate_of, tvinit. change (Z.to_nat T_SYSCALL) with 64%nat. case_bool_decide as Esys.
  - assert (i = 64%nat) as -> by lia. rewrite list_lookup_total_insert_eq by (rewrite tvinit_loop_length; lia).
    by rewrite decode_SETGATE.
  - rewrite list_lookup_total_insert_ne by lia. rewrite tvinit_loop_at by lia. rewrite decide_True by lia.
    by rewrite decode_SETGATE.
Qed.

(** C35. The ways into the kernel.  With the tables [tvinit] and [seginit] build, every
    vector has a present gate to its own handler, in the kernel's code segment, which
    spans the whole address space at privilege 0; only the gate of the system call may be
    used by a user's [int] instruction, and only it leaves interrupts enabled.  The
    segments a user may load have privilege 3.  With the task state segment
    [switchuvm] sets, the processor finds the process's kernel stack, and the I/O
    permission map lies beyond the segment's limit, so user code cannot use ports. *)
Theorem kernel_entry vectors idt gdt ts kstack x :
  length idt = 256%nat -> length gdt = 6%nat -> Forall (fun v => 0 <= v < 2 ^ 32) vectors -> length vectors = 256%nat ->
  0 <= ts < 2 ^ 32 -> 0 <= kstack < 2 ^ 32 - KSTACKSIZE ->
  let idt := tvinit vectors idt in
  let (gdt, tss) := switch_tss ts kstack (seginit gdt) x in
  (forall i, (i < 256)%nat ->
     let g := gate_of idt i in let sys := bool_decide (Z.of_nat i = T_SYSCALL) in
     cg_offset g = vectors !!! i /\ cg_present g = 1 /\ cg_sys g = 0 /\
     segment_of gdt (cg_sel g) = MkCpuSeg 0 0xffffffff (Z.lor STA_X STA_R) 1 0 1 /\
     cg_dpl g = (if sys then 3 else 0) /\ cg_type g = (if sys then STS_TG32 else STS_IG32)) /\
  segment_of gdt (Z.shiftl SEG_KDATA 3) = MkCpuSeg 0 0xffffffff STA_W 1 0 1 /\
  segment_of gdt (Z.shiftl SEG_UCODE 3) = MkCpuSeg 0 0xffffffff (Z.lor STA_X STA_R) 1 3 1 /\
  segment_of gdt (Z.shiftl SEG_UDATA 3) = MkCpuSeg 0 0xffffffff STA_W 1 3 1 /\
  segment_of gdt (Z.shiftl SEG_TSS 3) = MkCpuSeg ts (ts_size - 1) STS_T32A 0 0 1 /\
  ts_esp0 tss = kstack + KSTACKSIZE /\ ts_ss0 tss = Z.shiftl SEG_KDATA 3 /\ ts_size - 1 < ts_iomb tss.
Proof.
  intros Hidt Hgdt Hv Hvl Hts Hks. cbn zeta. unfold switch_tss. cbn [ts_esp0 ts_ss0 ts_iomb set_kernel_stack].
  do 6 (destruct gdt as [|? gdt]; [done|]). destruct gdt; [|done]. unfold segment_of.
  repeat match goal with |- context [Z.to_nat (Z.shiftl ?x 3 / 8)] =>
    let n := eval vm_compute in (Z.to_nat (Z.shiftl x 3 / 8)) in change (Z.to_nat (Z.shiftl x 3 / 8)) with n end.
  change (Z.to_nat SEG_TSS) with 5%nat. cbn [seginit insert list_insert alter list_alter lookup_total list_lookup_total].
  split_and!; try by (rewrite decode_SEG by done; reflexivity).
  - intros i Hi. rewrite tvinit_gate; [|done|done|]; cbn [cg_offset cg_present cg_sys cg_sel cg_dpl cg_type].
    + change (Z.to_nat (8 / 8)) with 1%nat. cbn [lookup_total list_lookup_total].
      rewrite decode_SEG by done. done.
    + rewrite Forall_lookup in Hv. apply (Hv i). by apply list_lookup_lookup_total_lt; lia.
  - by apply decode_SEG16.
  - apply u32_small. lia.
  - done.
  - done.
Qed.

Definition ts0 : taskstate := MkTs 0 0 0 0 0 0 0 0 0 0 0 0 0 0 0 0 0 0 0 0 0 0 0 0 0 0 0 0 0 0 0 0 0 0 0 0 0.

Lemma kernel_entry_witness :
  gate_of (tvinit (map Z.of_nat (seq 1000 256)) (replicate 256 inhabitant)) 14 = MkCpuGate 1014 8 STS_IG32 0 0 1 /\
  ts_esp0 (snd (switch_tss 4096 8192 (seginit (replicate 6 seg0)) ts0)) = 12288.
Proof.
  assert (Forall (fun v => 0 <= v < 2 ^ 32) (map Z.of_nat (seq 1000 256))) as Hv.
  { apply Forall_forall. intros v Hv. apply list_elem_of_fmap in Hv as (n & -> & Hn). apply elem_of_seq in Hn. lia. }
  pose proof (kernel_entry (map Z.of_nat (seq 1000 256)) (replicate 256 inhabitant) (replicate 6 seg0) 4096 8192 ts0
    eq_refl eq_refl Hv eq_refl ltac:(lia) ltac:(lia)) as H.
  split; [vm_compute; reflexivity|]. exact (proj1 (proj2 (proj2 (proj2 (proj2 (proj2 H)))))).
Defined.

(** ** The page directory used before paging is set up (main.c)

    [entry.S] and the other processors start on it.  PTE_PS makes an entry of the
    directory map 4 Mbyte. *)

Abbreviation PTE_PS := (0x080)%Z.

Definition entrypgdir : list Z :=
  let e := Z.lor (Z.lor (Z.lor 0 PTE_P) PTE_W) PTE_PS in
  <[Z.to_nat (Z.shiftr KERNBASE PDXSHIFT) := e]> (<[0%nat := e]> (replicate (Z.to_nat NPDENTRIES) 0)).

(** The processor's translation through large pages. *)
Definition walk_large (pgdir : list Z) (va : Z) : option Z :=
  let pde := pgdir !!! Z.to_nat (PDX va) in
  if has pde PTE_P && has pde PTE_PS then Some (pde / 2 ^ 22 * 2 ^ 22 + va mod 2 ^ 22) else None.

Lemma entrypgdir_at n : (n < 1024)%nat -> entrypgdir !!! n = if decide (n = 0%nat \/ n = 512%nat) then 0x83 else 0.
Proof.
  intros Hn. unfold entrypgdir. change (Z.to_nat (Z.shiftr KERNBASE PDXSHIFT)) with 512%nat.
  change (Z.lor _ PTE_PS) with 0x83. change (Z.to_nat NPDENTRIES) with 1024%nat.
  destruct (decide (n = 512%nat)) as [->|N1].
  { rewrite decide_True by lia. by rewrite list_lookup_total_insert_eq by (rewrite length_insert, length_replicate; lia). }
  rewrite list_lookup_total_insert_ne by done. destruct (decide (n = 0%nat)) as [->|N0].
  { rewrite decide_True by lia. by rewrite list_lookup_total_insert_eq by (rewrite length_replicate; lia). }
  rewrite decide_False by lia. rewrite list_lookup_total_insert_ne by done. by apply lookup_total_replicate_2.
Qed.

(** The kernel runs from its first instruction in C at the addresses it is linked at:
    the first 4 Mbyte of physical memory appear at 0 and at [KERNBASE], and nothing
    else is mapped. *)
Theorem entrypgdir_maps va :
  0 <= va < 2 ^ 32 ->
  walk_large entrypgdir va =
  if decide (va < 2 ^ 22) then Some va else if decide (KERNBASE <= va < KERNBASE + 2 ^ 22) then Some (V2P va) else None.
Proof.
  intros Hva. unfold walk_large.
  assert (PDX va = va / 2 ^ 22) as Ep.
  { unfold PDX, PDXSHIFT. rewrite (Z.land_ones _ 10), Z.shiftr_div_pow2 by lia. zdiv. }
  assert (0 <= va / 2 ^ 22 < 1024) as Hp by zdiv. rewrite Ep, entrypgdir_at by lia. unfold KERNBASE.
  pose proof (Z.div_mod va (2 ^ 22) ltac:(lia)) as Hd. pose proof (Z.mod_pos_bound va (2 ^ 22) ltac:(lia)) as Hm.
  destruct (decide (_ \/ _)) as [Hc|Hc].
  - change (has 0x83 PTE_P && has 0x83 PTE_PS) with true. cbn iota. change (0x83 / 2 ^ 22 * 2 ^ 22) with 0.
    destruct Hc as [Hc|Hc].
    + rewrite decide_True by lia. f_equal. lia.
    + rewrite decide_False, decide_True by lia. unfold V2P, KERNBASE. rewrite u32_small by lia. f_equal. lia.
  - change (has 0 PTE_P && has 0 PTE_PS) with false. cbn iota.
    by rewrite !decide_False by lia.
Qed.
