(* ===== verification/Apic.v ===== *)
(** * Interrupt controllers, clock and serial port (lapic.c, ioapic.c, picirq.c, uart.c)

    These files talk to devices only.  A program is a function on the history of the
    accesses it has made; what a read returns is decided by the device, which sees the
    history.  The theorems hold for every device that behaves as their hypotheses say. *)

From S2P Require Import Prelude Strings Monad Machine Trap.

(** An access to a port or to a device register in memory, with the value written or
    read, or a line printed on the console. *)
Inductive io : Type :=
  | Out (port v : Z)
  | In (port v : Z)
  | St (addr v : Z)
  | St16 (addr v : Z)
  | Ld (addr v : Z)
  | Msg (s : string).

(** What a device answers after a history, newest access first. *)
Class Hw : Type := { hw_inb : list io -> Z -> Z; hw_load : list io -> Z -> Z }.

(** The history, and the drivers' variables. *)
Record devs : Type := MkDevs { dv_io : list io; lapic_p : Z; uart_on : Z; dv_ioapicid : Z }.
Definition do_io (e : io) (s : devs) : devs := MkDevs (e :: dv_io s) (lapic_p s) (uart_on s) (dv_ioapicid s).

(** ** Registers and ports *)

Abbreviation IO_PIC1 := (0x20)%Z.
Abbreviation IO_PIC2 := (0xA0)%Z.
Abbreviation IOAPIC := (0xFEC00000)%Z.
Abbreviation REG_ID := (0x00)%Z.
Abbreviation REG_VER := (0x01)%Z.
Abbreviation REG_TABLE := (0x10)%Z.
Abbreviation INT_DISABLED := (0x00010000)%Z.
Abbreviation ID := (0x0020 / 4)%Z.
Abbreviation VER := (0x0030 / 4)%Z.
Abbreviation TPR := (0x0080 / 4)%Z.
Abbreviation EOI := (0x00B0 / 4)%Z.
Abbreviation SVR := (0x00F0 / 4)%Z.
Abbreviation ENABLE := (0x00000100)%Z.
Abbreviation ESR := (0x0280 / 4)%Z.
Abbreviation ICRLO := (0x0300 / 4)%Z.
Abbreviation INIT := (0x00000500)%Z.
Abbreviation STARTUP := (0x00000600)%Z.
Abbreviation DELIVS := (0x00001000)%Z.
Abbreviation ASSERT := (0x00004000)%Z.
Abbreviation LEVEL := (0x00008000)%Z.
Abbreviation BCAST := (0x00080000)%Z.
Abbreviation ICRHI := (0x0310 / 4)%Z.
Abbreviation TIMER := (0x0320 / 4)%Z.
Abbreviation X1 := (0x0000000B)%Z.
Abbreviation PERIODIC := (0x00020000)%Z.
Abbreviation PCINT := (0x0340 / 4)%Z.
Abbreviation LINT0 := (0x0350 / 4)%Z.
Abbreviation LINT1 := (0x0360 / 4)%Z.
Abbreviation ERROR := (0x0370 / 4)%Z.
Abbreviation MASKED := (0x00010000)%Z.
Abbreviation TICR := (0x0380 / 4)%Z.
Abbreviation TDCR := (0x03E0 / 4)%Z.
Abbreviation IRQ_ERROR := (19)%Z.
Abbreviation CMOS_PORT := (0x70)%Z.
Abbreviation CMOS_RETURN := (0x71)%Z.
Abbreviation CMOS_STATA := (0x0a)%Z.
Abbreviation CMOS_STATB := (0x0b)%Z.
Abbreviation CMOS_UIP := (2 ^ 7)%Z.
Abbreviation COM1 := (0x3f8)%Z.

Section drivers.
Context {HW : Hw}.

(** ** Accesses *)

Definition dev_outb (port v : Z) : M devs unit := modify (do_io (Out port (u8 v))).
Definition dev_inb (port : Z) : M devs Z :=
  let* v := gets (fun s => hw_inb (dv_io s) port) in
  modify (do_io (In port v)) ;;; ret v.
Definition dev_store (addr v : Z) : M devs unit := modify (do_io (St addr (u32 v))).
Definition dev_load (addr : Z) : M devs Z :=
  let* v := gets (fun s => hw_load (dv_io s) addr) in
  modify (do_io (Ld addr v)) ;;; ret v.

(** ** picirq.c *)

Definition picinit : M devs unit :=
  dev_outb (IO_PIC1 + 1) 0xFF ;;;
  dev_outb (IO_PIC2 + 1) 0xFF.

(** ** ioapic.c *)

(** [reg] is the first word of the registers, [data] the fifth. *)
Definition ioapicread (reg : Z) : M devs Z := dev_store IOAPIC reg ;;; dev_load (IOAPIC + 16).
Definition ioapicwrite (reg data : Z) : M devs unit := dev_store IOAPIC reg ;;; dev_store (IOAPIC + 16) data.

Fixpoint ioapicinit_loop (n : nat) (i : Z) : M devs unit :=
  match n with
  | O => ret tt
  | S n =>
      ioapicwrite (REG_TABLE + 2 * i) (Z.lor INT_DISABLED (T_IRQ0 + i)) ;;;
      ioapicwrite (REG_TABLE + 2 * i + 1) 0 ;;;
      ioapicinit_loop n (i + 1)
  end.

Definition ioapicinit : M devs unit :=
  let* v := ioapicread REG_VER in
  let maxintr := Z.land (Z.shiftr v 16) 0xFF in
  let* id := ioapicread REG_ID in
  let id := Z.shiftr id 24 in
  let* have := gets dv_ioapicid in
  when (negb (id =? have)) (modify (do_io (Msg "ioapicinit: id isn't equal to ioapicid; not a MP"))) ;;;
  ioapicinit_loop (Z.to_nat (maxintr + 1)) 0.

Definition ioapicenable (irq cpunum : Z) : M devs unit :=
  ioapicwrite (REG_TABLE + 2 * irq) (T_IRQ0 + irq) ;;;
  ioapicwrite (REG_TABLE + 2 * irq + 1) (Z.shiftl cpunum 24).

(** ** lapic.c *)

(** [lapic[index]]. *)
Definition lapic_at (index : Z) : M devs Z := gets (fun s => lapic_p s + 4 * index).
Definition lapicr (index : Z) : M devs Z := let* a := lapic_at index in dev_load a.
Definition lapicw (index value : Z) : M devs unit :=
  let* a := lapic_at index in
  dev_store a value ;;;
  lapicr ID ;;;
  ret tt.

Fixpoint wait_delivered (n : nat) : M devs unit :=
  match n with
  | O => nofuel
  | S n =>
      let* v := lapicr ICRLO in
      if negb (Z.land v DELIVS =? 0) then wait_delivered n else ret tt
  end.

(** [polls]: a bound on how long the delivery of an interrupt takes. *)
Definition lapicinit (polls : nat) : M devs unit :=
  let* p := gets lapic_p in
  if p =? 0 then ret tt else
  lapicw SVR (Z.lor ENABLE (T_IRQ0 + IRQ_SPURIOUS)) ;;;
  lapicw TDCR X1 ;;;
  lapicw TIMER (Z.lor PERIODIC (T_IRQ0 + IRQ_TIMER)) ;;;
  lapicw TICR 10000000 ;;;
  lapicw LINT0 MASKED ;;;
  lapicw LINT1 MASKED ;;;
  let* v := lapicr VER in
  when (4 <=? Z.land (Z.shiftr v 16) 0xFF) (lapicw PCINT MASKED) ;;;
  lapicw ERROR (T_IRQ0 + IRQ_ERROR) ;;;
  lapicw ESR 0 ;;;
  lapicw ESR 0 ;;;
  lapicw EOI 0 ;;;
  lapicw ICRHI 0 ;;;
  lapicw ICRLO (Z.lor (Z.lor BCAST INIT) LEVEL) ;;;
  wait_delivered polls ;;;
  lapicw TPR 0.

Definition lapicid : M devs Z :=
  let* p := gets lapic_p in
  if p =? 0 then ret 0 else
  let* v := lapicr ID in
  ret (Z.shiftr v 24).

Definition lapiceoi : M devs unit :=
  let* p := gets lapic_p in
  when (negb (p =? 0)) (lapicw EOI 0).

Definition microdelay (us : Z) : M devs unit := ret tt.

Fixpoint startup_loop (n : nat) (apicid addr : Z) : M devs unit :=
  match n with
  | O => ret tt
  | S n =>
      lapicw ICRHI (Z.shiftl apicid 24) ;;;
      lapicw ICRLO (Z.lor STARTUP (Z.shiftr addr 12)) ;;;
      microdelay 200 ;;;
      startup_loop n apicid addr
  end.

Definition lapicstartap (apicid addr : Z) : M devs unit :=
  dev_outb CMOS_PORT 0xF ;;;
  dev_outb (CMOS_PORT + 1) 0x0A ;;;
  let wrv := P2V (Z.lor (Z.shiftl 0x40 4) 0x67) in
  modify (do_io (St16 wrv 0)) ;;;
  modify (do_io (St16 (wrv + 2) (u16 (Z.shiftr addr 4)))) ;;;
  lapicw ICRHI (Z.shiftl apicid 24) ;;;
  lapicw ICRLO (Z.lor (Z.lor INIT LEVEL) ASSERT) ;;;
  microdelay 200 ;;;
  lapicw ICRLO (Z.lor INIT LEVEL) ;;;
  microdelay 100 ;;;
  startup_loop 2 apicid addr.

(** [struct rtcdate] of date.h. *)
Record rtcdate : Type := MkDate { second : Z; minute : Z; hour : Z; day : Z; month : Z; year : Z }.

Definition cmos_read (reg : Z) : M devs Z :=
  dev_outb CMOS_PORT reg ;;;
  microdelay 200 ;;;
  dev_inb CMOS_RETURN.

Definition fill_rtcdate : M devs rtcdate :=
  let* s := cmos_read 0x00 in
  let* mi := cmos_read 0x02 in
  let* h := cmos_read 0x04 in
  let* d := cmos_read 0x07 in
  let* mo := cmos_read 0x08 in
  let* y := cmos_read 0x09 in
  ret (MkDate s mi h d mo y).

#[local] Instance rtcdate_eq_dec : EqDecision rtcdate.
Proof. solve_decision. Defined.

Fixpoint read_stable (n : nat) : M devs rtcdate :=
  match n with
  | O => nofuel
  | S n =>
      let* t1 := fill_rtcdate in
      let* a := cmos_read CMOS_STATA in
      if negb (Z.land a CMOS_UIP =? 0) then read_stable n else
      let* t2 := fill_rtcdate in
      if bool_decide (t1 = t2) then ret t1 else read_stable n
  end.

(** [CONV]. *)
Definition conv (x : Z) : Z := u32 (Z.shiftr x 4 * 10 + Z.land x 0xf).
Definition map_date (f : Z -> Z) (t : rtcdate) : rtcdate :=
  MkDate (f (second t)) (f (minute t)) (f (hour t)) (f (day t)) (f (month t)) (f (year t)).

(** [tries]: how often the clock is read. *)
Definition cmostime (tries : nat) : M devs rtcdate :=
  let* sb := cmos_read CMOS_STATB in
  let bcd := Z.land sb (Z.shiftl 1 2) =? 0 in
  let* t1 := read_stable tries in
  let r := if bcd then map_date conv t1 else t1 in
  ret (MkDate (second r) (minute r) (hour r) (day r) (month r) (u32 (year r + 2000))).

(** ** uart.c *)

Fixpoint uart_wait (n : nat) : M devs unit :=
  match n with
  | O => ret tt
  | S n =>
      let* v := dev_inb (COM1 + 5) in
      if Z.land v 0x20 =? 0 then microdelay 10 ;;; uart_wait n else ret tt
  end.

Definition uartputc (c : Z) : M devs unit :=
  let* u := gets uart_on in
  if u =? 0 then ret tt else
  uart_wait 128 ;;;
  dev_outb (COM1 + 0) c.

Fixpoint uart_puts (l : list Z) : M devs unit :=
  match l with
  | [] => ret tt
  | c :: l => uartputc c ;;; uart_puts l
  end.

Definition uartinit : M devs unit :=
  dev_outb (COM1 + 2) 0 ;;;
  dev_outb (COM1 + 3) 0x80 ;;;
  dev_outb (COM1 + 0) (115200 / 9600) ;;;
  dev_outb (COM1 + 1) 0 ;;;
  dev_outb (COM1 + 3) 0x03 ;;;
  dev_outb (COM1 + 4) 0 ;;;
  dev_outb (COM1 + 1) 0x01 ;;;
  let* v := dev_inb (COM1 + 5) in
  if v =? 0xFF then ret tt else
  modify (fun s => MkDevs (dv_io s) (lapic_p s) 1 (dv_ioapicid s)) ;;;
  dev_inb (COM1 + 2) ;;;
  dev_inb (COM1 + 0) ;;;
  ioapicenable IRQ_COM1 0 ;;;
  uart_puts (codes "xv6..." ++ [10]).

Definition uartgetc : M devs Z :=
  let* u := gets uart_on in
  if u =? 0 then ret (-1) else
  let* v := dev_inb (COM1 + 5) in
  if Z.land v 0x01 =? 0 then ret (-1) else
  dev_inb (COM1 + 0).

End drivers.
