(* ===== verification/ApicInv.v ===== *)
(** * The clock is read consistently, interrupts are routed as asked

    [cmostime] never returns a date the clock did not show, although the clock may
    change between the reads of its registers.  The I/O APIC's table after
    [ioapicinit] and [ioapicenable].  The serial port's transmitter is waited for only a
    bounded time. *)

From S2P Require Import Prelude Strings Monad Machine Trap Apic.

(** ** Accesses *)

Lemma dev_inb_wp {HW : Hw} p s (R : Z -> devs -> Prop) :
  R (hw_inb (dv_io s) p) (do_io (In p (hw_inb (dv_io s) p)) s) -> wp (dev_inb p) R s.
Proof. intros HR. by apply wp_bind, wp_gets, wp_bind, wp_modify, wp_ret. Qed.

Lemma dev_load_wp {HW : Hw} a s (R : Z -> devs -> Prop) :
  R (hw_load (dv_io s) a) (do_io (Ld a (hw_load (dv_io s) a)) s) -> wp (dev_load a) R s.
Proof. intros HR. by apply wp_bind, wp_gets, wp_bind, wp_modify, wp_ret. Qed.

(** ** The clock *)

(** The register selected, and how many registers have been read. *)
Fixpoint cmos_sel (tr : list io) : Z :=
  match tr with
  | Out p v :: tr => if p =? CMOS_PORT then v else cmos_sel tr
  | _ :: tr => cmos_sel tr
  | [] => 0
  end.
Fixpoint cmos_reads (tr : list io) : nat :=
  match tr with
  | In p _ :: tr => if p =? CMOS_RETURN then S (cmos_reads tr) else cmos_reads tr
  | _ :: tr => cmos_reads tr
  | [] => O
  end.

(** The numbers a date is kept as: binary coded decimal unless bit 2 of status
    register B is set. *)
Definition bcd (x : Z) : Z := x / 10 * 16 + x mod 10.

Lemma conv_bcd x : 0 <= x < 100 -> conv (bcd x) = x.
Proof.
  intros Hx. unfold conv, bcd. rewrite Z.shiftr_div_pow2 by lia. change 0xf with (Z.ones 4).
  rewrite Z.land_ones by lia. change (2 ^ 4) with 16. rewrite u32_small; zdiv.
Qed.

Section clock.
Context {HW : Hw}.

(** Contents of clock register [r] at the [t]-th read. *)
Variable rtc : nat -> Z -> Z.
Hypothesis rtc_answers : forall tr, hw_inb tr CMOS_RETURN = rtc (cmos_reads tr) (cmos_sel tr).

(** What the clock shows at the [t]-th read. *)
Definition shows (t : nat) : rtcdate :=
  MkDate (rtc t 0x00) (rtc t 0x02) (rtc t 0x04) (rtc t 0x07) (rtc t 0x08) (rtc t 0x09).
(** What reading the registers one after the other, from the [t]-th read, gives. *)
Definition pass (t : nat) : rtcdate :=
  MkDate (rtc t 0x00) (rtc (t + 1) 0x02) (rtc (t + 2) 0x04) (rtc (t + 3) 0x07) (rtc (t + 4) 0x08) (rtc (t + 5) 0x09).

(** In 13 reads, less than the time of two updates, the clock changes at most once. *)
Hypothesis one_tick : forall t, exists tick, forall u, (t <= u < t + 13)%nat ->
  shows u = if decide (u < tick)%nat then shows t else shows (t + 12).

Lemma cmos_read_wp reg s (R : Z -> devs -> Prop) :
  0 <= reg < 256 ->
  (forall s', cmos_reads (dv_io s') = S (cmos_reads (dv_io s)) -> R (rtc (cmos_reads (dv_io s)) reg) s') ->
  wp (cmos_read reg) R s.
Proof.
  intros Hr HR. apply wp_bind, wp_modify, wp_bind, wp_ret, dev_inb_wp. rewrite rtc_answers. cbn.
  unfold u8. rewrite Z.mod_small by lia. apply HR. done.
Qed.

Lemma fill_wp s (R : rtcdate -> devs -> Prop) :
  (forall s', cmos_reads (dv_io s') = (cmos_reads (dv_io s) + 6)%nat -> R (pass (cmos_reads (dv_io s))) s') ->
  wp fill_rtcdate R s.
Proof.
  intros HR. unfold fill_rtcdate.
  apply wp_bind, cmos_read_wp; [lia|]. intros s1 E1. apply wp_bind, cmos_read_wp; [lia|]. intros s2 E2.
  apply wp_bind, cmos_read_wp; [lia|]. intros s3 E3. apply wp_bind, cmos_read_wp; [lia|]. intros s4 E4.
  apply wp_bind, cmos_read_wp; [lia|]. intros s5 E5. apply wp_bind, cmos_read_wp; [lia|]. intros s6 E6. apply wp_ret.
  replace (MkDate _ _ _ _ _ _) with (pass (cmos_reads (dv_io s))); [apply HR; lia|].
  unfold pass. do 2 f_equal; lia.
Qed.

(** Two passes that agree show one moment. *)
Lemma passes_agree t : pass t = pass (t + 7) -> exists u, (t <= u < t + 13)%nat /\ pass t = shows u.
Proof.
  intros Ea. destruct (one_tick t) as [k Hk].
  assert (forall a b, (forall i, (i < 6)%nat -> shows (a + i) = shows b) -> pass a = shows b) as Hall.
  { intros a b H. pose proof (H 0 ltac:(lia))%nat as H0. rewrite Nat.add_0_r in H0. unfold pass, shows in *. f_equal.
    - by injection H0.
    - by injection (H 1%nat ltac:(lia)).
    - by injection (H 2%nat ltac:(lia)).
    - by injection (H 3%nat ltac:(lia)).
    - by injection (H 4%nat ltac:(lia)).
    - by injection (H 5%nat ltac:(lia)). }
  destruct (decide (k <= t + 6)%nat) as [Hle|Hgt].
  - exists (t + 12)%nat. split; [lia|]. rewrite Ea. apply Hall. intros i Hi. rewrite Hk by lia. by rewrite decide_False by lia.
  - exists t. split; [lia|]. apply Hall. intros i Hi. rewrite Hk by lia. by rewrite decide_True by lia.
Qed.

(** From read [T] on the clock rests for two passes. *)
Definition rests (T : nat) : Prop :=
  forall u, (T <= u < T + 26)%nat -> shows u = shows T /\ Z.land (rtc u CMOS_STATA) CMOS_UIP = 0.

Lemma read_stable_wp T n s (R : rtcdate -> devs -> Prop) :
  rests T -> (cmos_reads (dv_io s) < T + 13)%nat -> (T - cmos_reads (dv_io s) < n)%nat ->
  (forall u s', (cmos_reads (dv_io s) <= u < cmos_reads (dv_io s'))%nat -> R (shows u) s') ->
  wp (read_stable n) R s.
Proof.
  intros HT. revert s. induction n as [|n IH]; intros s Ht Hn HR; [lia|]. cbn [read_stable].
  set (t := cmos_reads (dv_io s)) in *. apply wp_bind, fill_wp. fold t. intros s1 E1.
  apply wp_bind, cmos_read_wp; [lia|]. intros s2 E2. rewrite E1 in E2 |- *.
  assert (forall s', cmos_reads (dv_io s') = (t + 7)%nat \/ cmos_reads (dv_io s') = (t + 13)%nat -> (t < T)%nat ->
            wp (read_stable n) R s') as Hagain.
  { intros s' Es Hlt. apply IH; [lia|lia|]. intros u s'' Hu. apply HR. lia. }
  destruct (Z.land (rtc (t + 6) CMOS_STATA) CMOS_UIP =? 0) eqn:Eu; zbool; cbn [negb].
  2:{ apply Hagain; [left; lia|]. apply Nat.nle_gt. intros Hge. by apply Eu, (HT (t + 6)%nat); lia. }
  apply wp_bind, fill_wp. rewrite E2. intros s3 E3. replace (S (t + 6)) with (t + 7)%nat in * by lia.
  case_bool_decide as Ep.
  - destruct (passes_agree t Ep) as (u & Hu & ->). apply wp_ret, HR. lia.
  - apply Hagain; [right; lia|]. apply Nat.nle_gt. intros Hge. apply Ep.
    assert (forall a, (T <= a)%nat -> (a + 6 <= T + 26)%nat -> pass a = shows T) as Hq.
    { intros a Ha Ha2. unfold pass. pose proof (fun i H => proj1 (HT (a + i)%nat H)) as H. unfold shows in H |- *. f_equal.
      - pose proof (proj1 (HT a ltac:(lia))) as H0. unfold shows in H0. by injection H0.
      - by injection (H 1%nat ltac:(lia)).
      - by injection (H 2%nat ltac:(lia)).
      - by injection (H 3%nat ltac:(lia)).
      - by injection (H 4%nat ltac:(lia)).
      - by injection (H 5%nat ltac:(lia)). }
    by rewrite !Hq by lia.
Qed.

End clock.

Definition date_in (lo hi : Z) (t : rtcdate) : Prop :=
  Forall (fun x => lo <= x < hi) [second t; minute t; hour t; day t; month t; year t].

(** [cmostime] returns a date the clock showed while it was being read, in whatever
    format the clock keeps it: the clock may change between any two of the reads, at
    most once in a pass over the registers and back, and the result never mixes the
    dates before and after a change.  It returns once the clock rests for two passes. *)
Theorem cmostime_consistent {HW : Hw} rtc now (binary : bool) T tries s :
  (forall tr, hw_inb tr CMOS_RETURN = rtc (cmos_reads tr) (cmos_sel tr)) ->
  (forall t, exists tick, forall u, (t <= u < t + 13)%nat ->
     shows rtc u = if decide (u < tick)%nat then shows rtc t else shows rtc (t + 12)) ->
  (forall t, shows rtc t = map_date (if binary then id else bcd) (now t) /\ date_in 0 100 (now t)) ->
  (forall t, Z.testbit (rtc t CMOS_STATB) 2 = binary) ->
  rests rtc T -> (cmos_reads (dv_io s) < T)%nat -> (T - cmos_reads (dv_io s) < tries)%nat ->
  wp (cmostime tries) (fun r s' => exists u, (cmos_reads (dv_io s) < u < cmos_reads (dv_io s'))%nat /\
    let d := now u in r = MkDate (second d) (minute d) (hour d) (day d) (month d) (2000 + year d)) s.
Proof.
  intros Hans Htick Hnow Hbin HT Hs Hn. unfold cmostime.
  apply wp_bind, (cmos_read_wp rtc Hans); [lia|]. intros s1 E1. apply wp_bind.
  eapply (read_stable_wp rtc Hans Htick T); [done|lia|lia|]. intros u s2 Hu. apply wp_ret. exists u. split; [lia|].
  destruct (Hnow u) as [-> Hin]. unfold date_in in Hin. rewrite !Forall_cons in Hin. cbn zeta.
  assert ((Z.land (rtc (cmos_reads (dv_io s)) CMOS_STATB) (Z.shiftl 1 2) =? 0) = negb binary) as ->.
  { change (Z.shiftl 1 2) with (2 ^ 2). rewrite <- (Hbin (cmos_reads (dv_io s))).
    rewrite <- (has_bit (rtc _ _) 2) by lia. unfold has. by rewrite negb_involutive. }
  destruct binary; cbn [negb map_date second minute hour day month year].
  - unfold id. rewrite (Z.add_comm 2000), u32_small by lia. done.
  - rewrite !conv_bcd by lia. rewrite (Z.add_comm 2000), u32_small by lia. done.
Qed.

(** ** The I/O APIC *)

(** The register selected, and what the history left in each register. *)
Fixpoint ioapic_sel (tr : list io) : Z :=
  match tr with
  | St a v :: tr => if a =? IOAPIC then v else ioapic_sel tr
  | _ :: tr => ioapic_sel tr
  | [] => 0
  end.
Fixpoint ioapic_reg (tr : list io) (r : Z) : option Z :=
  match tr with
  | St a v :: tr => if (a =? IOAPIC + 16) && (ioapic_sel tr =? r) then Some v else ioapic_reg tr r
  | _ :: tr => ioapic_reg tr r
  | [] => None
  end.

(** Entry [i] of the redirection table. *)
Definition redirection (tr : list io) (i : Z) : option Z * option Z :=
  (ioapic_reg tr (REG_TABLE + 2 * i), ioapic_reg tr (REG_TABLE + 2 * i + 1)).

Section ioapic.
Context {HW : Hw}.

Lemma ioapicread_wp r s (R : Z -> devs -> Prop) :
  (forall s', ioapic_reg (dv_io s') = ioapic_reg (dv_io s) -> R (hw_load (St IOAPIC (u32 r) :: dv_io s) (IOAPIC + 16)) s') ->
  wp (ioapicread r) R s.
Proof.
  intros HR. apply wp_bind, wp_modify, dev_load_wp. apply HR. cbn [do_io dv_io ioapic_reg].
  change (IOAPIC =? IOAPIC + 16) with false. done.
Qed.

Lemma ioapicwrite_wp r v s (R : unit -> devs -> Prop) :
  0 <= r < 2 ^ 32 ->
  (forall s', (forall q, ioapic_reg (dv_io s') q = if r =? q then Some (u32 v) else ioapic_reg (dv_io s) q) -> R tt s') ->
  wp (ioapicwrite r v) R s.
Proof.
  intros Hr HR. apply wp_bind, wp_modify, wp_modify, HR. intros q. cbn [do_io dv_io ioapic_reg ioapic_sel].
  change (IOAPIC + 16 =? IOAPIC + 16) with true. change (IOAPIC =? IOAPIC) with true. change (IOAPIC =? IOAPIC + 16) with false.
  rewrite u32_small by lia. cbn [andb]. done.
Qed.

Lemma redirect_wp i lo hi s (R : unit -> devs -> Prop) :
  0 <= i < 256 ->
  (forall s', (forall j, redirection (dv_io s') j = if j =? i then (Some (u32 lo), Some (u32 hi)) else redirection (dv_io s) j) -> R tt s') ->
  wp (ioapicwrite (REG_TABLE + 2 * i) lo ;;; ioapicwrite (REG_TABLE + 2 * i + 1) hi) R s.
Proof.
  intros Hi HR. apply wp_bind, ioapicwrite_wp; [lia|]. intros s1 H1. apply ioapicwrite_wp; [lia|]. intros s2 H2.
  apply HR. intros j. unfold redirection. rewrite !H2, !H1. destruct (j =? i) eqn:E; zbool.
  - subst j. rewrite Z.eqb_refl. rewrite (proj2 (Z.eqb_neq _ _)) by lia. by rewrite Z.eqb_refl.
  - by rewrite !(proj2 (Z.eqb_neq _ _)) by lia.
Qed.

(** An entry masked, and one that interrupts the given CPU. *)
Definition masked (i : Z) : option Z * option Z := (Some (u32 (Z.lor INT_DISABLED (T_IRQ0 + i))), Some (u32 0)).
Definition routed (i cpu : Z) : option Z * option Z := (Some (u32 (T_IRQ0 + i)), Some (u32 (Z.shiftl cpu 24))).

Lemma ioapicinit_loop_wp n i s (R : unit -> devs -> Prop) :
  0 <= i -> i + Z.of_nat n <= 256 ->
  (forall s', (forall j, redirection (dv_io s') j = if in_rng i (Z.of_nat n) j then masked j else redirection (dv_io s) j) -> R tt s') ->
  wp (ioapicinit_loop n i) R s.
Proof.
  revert i s. induction n as [|n IH]; intros i s Hi Hn HR; cbn [ioapicinit_loop].
  { apply wp_ret, HR. intros j. by rewrite (proj2 (in_rng_false _ _ _)) by lia. }
  assert (wp (ioapicwrite (REG_TABLE + 2 * i) (Z.lor INT_DISABLED (T_IRQ0 + i)) ;;; ioapicwrite (REG_TABLE + 2 * i + 1) 0)
    (fun _ s' => wp (ioapicinit_loop n (i + 1)) R s') s) as Hstep.
  { apply redirect_wp; [lia|]. intros s1 H1. apply IH; [lia|lia|]. intros s2 H2. apply HR. intros j.
    rewrite H2, H1. destruct (j =? i) eqn:E; zbool.
    - subst j. by rewrite (proj2 (in_rng_false _ _ _)), (proj2 (in_rng_spec _ _ _)) by lia.
    - destruct (in_rng (i + 1) _ j) eqn:E2; [apply in_rng_spec in E2|apply in_rng_false in E2].
      + by rewrite (proj2 (in_rng_spec _ _ _)) by lia.
      + by rewrite (proj2 (in_rng_false _ _ _)) by lia. }
  apply wp_bind. unfold wp, bind in Hstep |- *.
  destruct (ioapicwrite (REG_TABLE + 2 * i) _ s) as [[] s1| | |]; cbn [obind] in Hstep |- *; try done.
Qed.

(** Drivers enabling their interrupts one after the other. *)
Fixpoint enable_all (l : list (Z * Z)) : M devs unit :=
  match l with
  | [] => ret tt
  | (irq, cpu) :: l => ioapicenable irq cpu ;;; enable_all l
  end.

(** The CPU that serves interrupt [i] in the end. *)
Fixpoint served_by (l : list (Z * Z)) (i : Z) : option Z :=
  match l with
  | [] => None
  | (irq, cpu) :: l => match served_by l i with Some c => Some c | None => if irq =? i then Some cpu else None end
  end.

Lemma enable_all_wp l s (R : unit -> devs -> Prop) :
  Forall (fun x => 0 <= x.1 < 256) l ->
  (forall s', (forall j, redirection (dv_io s') j =
     match served_by l j with Some cpu => routed j cpu | None => redirection (dv_io s) j end) -> R tt s') ->
  wp (enable_all l) R s.
Proof.
  intros Hl. revert s. induction Hl as [|[irq cpu] l Hi Hl IH]; intros s HR; cbn [enable_all]; [by apply wp_ret, HR|].
  apply wp_bind, redirect_wp; [exact Hi|]. intros s1 H1. apply IH. intros s2 H2. apply HR. intros j. cbn [served_by].
  rewrite H2, H1. destruct (served_by l j); [done|]. rewrite (Z.eqb_sym irq j). destruct (j =? irq) eqn:E; zbool; [by subst|done].
Qed.

(** Number of the last entry of the table, as the I/O APIC reports it. *)
Definition maxintr (s : devs) : Z := Z.land (Z.shiftr (hw_load (St IOAPIC REG_VER :: dv_io s) (IOAPIC + 16)) 16) 0xFF.

(** Interrupts go where the drivers asked.  After [ioapicinit] and any number of
    calls of [ioapicenable], every entry of the I/O APIC's table that was enabled
    carries its vector, unmasked, to the CPU last asked for, and every other entry is
    masked: no device interrupts the kernel without a driver having asked for it. *)
Theorem irq_routing l s :
  Forall (fun x => 0 <= x.1 < 256) l ->
  wp (ioapicinit ;;; enable_all l) (fun _ s' => forall i, 0 <= i <= maxintr s ->
    redirection (dv_io s') i = match served_by l i with Some cpu => routed i cpu | None => masked i end) s.
Proof.
  intros Hl. unfold ioapicinit. apply wp_bind, wp_bind, ioapicread_wp. intros s1 H1.
  change (u32 REG_VER) with REG_VER. fold (maxintr s). apply wp_bind, ioapicread_wp. intros s2 H2.
  assert (0 <= maxintr s <= 255) as Hm.
  { unfold maxintr. rewrite (Z.land_ones _ 8) by lia. zdiv. }
  assert (forall s3, ioapic_reg (dv_io s3) = ioapic_reg (dv_io s) ->
    wp (ioapicinit_loop (Z.to_nat (maxintr s + 1)) 0) (fun _ s4 => wp (enable_all l) (fun _ s' => forall i, 0 <= i <= maxintr s ->
      redirection (dv_io s') i = match served_by l i with Some cpu => routed i cpu | None => masked i end) s4) s3) as Hgo.
  { intros s3 H3. apply ioapicinit_loop_wp; [lia|lia|]. intros s4 H4. apply enable_all_wp; [done|]. intros s5 H5 i Hi.
    rewrite H5, H4. by rewrite (proj2 (in_rng_spec _ _ _)) by lia. }
  apply wp_bind, wp_gets, wp_bind, wp_when; intros _; [apply wp_modify|]; apply Hgo; rewrite <- H1, <- H2; reflexivity.
Qed.

End ioapic.

(** ** The serial port *)

Section serial.
Context {HW : Hw}.

Lemma uart_wait_wp n s (R : unit -> devs -> Prop) :
  (forall vs, (length vs <= n)%nat ->
     (length vs = n \/ exists v vs', vs = v :: vs' /\ Z.testbit v 5 = true) ->
     R tt (MkDevs (map (In (COM1 + 5)) vs ++ dv_io s) (lapic_p s) (uart_on s) (dv_ioapicid s))) ->
  wp (uart_wait n) R s.
Proof.
  revert s R. induction n as [|n IH]; intros s R HR; cbn [uart_wait].
  { apply wp_ret. destruct s. apply (HR []); [done|by left]. }
  apply wp_bind, dev_inb_wp. set (v := hw_inb _ _). destruct (Z.land v 0x20 =? 0) eqn:E; zbool.
  - apply wp_bind, wp_ret, IH. intros vs Hl Hv. cbn [do_io dv_io lapic_p uart_on dv_ioapicid].
    replace (map (In (COM1 + 5)) vs ++ In (COM1 + 5) v :: dv_io s) with (map (In (COM1 + 5)) (vs ++ [v]) ++ dv_io s)
      by (rewrite map_app, <- app_assoc; done).
    apply HR; rewrite ?length_app; cbn [length]; [lia|].
    destruct Hv as [Hv|(w & vs' & -> & Hw)]; [left; lia|right; exists w, (vs' ++ [v]); done].
  - apply wp_ret, (HR [v]); cbn [length]; [lia|]. right. exists v, []. split; [done|].
    rewrite <- has_bit by lia. unfold has. by apply negb_true_iff, Z.eqb_neq.
Qed.

(** A character goes out exactly once, after a bounded wait: with a serial port
    [uartputc] polls the line status at most 128 times, stopping when the transmitter is
    empty, and then writes the character; without one it does nothing. *)
Theorem uartputc_sends c s :
  wp (uartputc c) (fun _ s' =>
    if uart_on s =? 0 then s' = s else exists vs, (length vs <= 128)%nat /\
      (length vs = 128%nat \/ exists v vs', vs = v :: vs' /\ Z.testbit v 5 = true) /\
      dv_io s' = Out COM1 (u8 c) :: map (In (COM1 + 5)) vs ++ dv_io s) s.
Proof.
  unfold uartputc. apply wp_bind, wp_gets. destruct (uart_on s =? 0); [by apply wp_ret|].
  apply wp_bind, uart_wait_wp. intros vs Hl Hv. apply wp_modify. exists vs. done.
Qed.

End serial.

(** ** A concrete clock *)

(** The new year arrives at the tenth read. *)
Definition demo_now (t : nat) : rtcdate :=
  if decide (t < 10)%nat then MkDate 59 59 23 31 12 25 else MkDate 0 0 0 1 1 26.
Definition demo_rtc (t : nat) (r : Z) : Z :=
  let d := map_date bcd (demo_now t) in
  if r =? 0 then second d else if r =? 2 then minute d else if r =? 4 then hour d else
  if r =? 7 then day d else if r =? 8 then month d else if r =? 9 then year d else 0.
#[local] Instance demo_hw : Hw := {| hw_inb tr _ := demo_rtc (cmos_reads tr) (cmos_sel tr); hw_load _ _ := 0x170000 |}.

Lemma demo_shows t : shows demo_rtc t = map_date bcd (demo_now t).
Proof. done. Qed.

Lemma demo_now_in t : date_in 0 100 (demo_now t).
Proof. unfold demo_now, date_in. case_decide; repeat apply Forall_cons_2; try apply Forall_nil_2; cbn; lia. Qed.

Lemma demo_rests : rests demo_rtc 10.
Proof. intros u Hu. rewrite !demo_shows. unfold demo_now. rewrite !decide_False by lia. done. Qed.

Lemma cmostime_consistent_witness :
  wp (cmostime 12) (fun r _ => exists u, r = let d := demo_now u in
    MkDate (second d) (minute d) (hour d) (day d) (month d) (2000 + year d)) (MkDevs [] 0 0 0).
Proof.
  eapply wp_mono.
  - apply (cmostime_consistent demo_rtc demo_now false 10 12 (MkDevs [] 0 0 0)).
    + reflexivity.
    + intros t. exists 10%nat. intros u Hu. rewrite !demo_shows. unfold demo_now.
      repeat case_decide; try reflexivity; lia.
    + intros t. split; [apply demo_shows|apply demo_now_in].
    + reflexivity.
    + exact demo_rests.
    + cbn. lia.
    + cbn. lia.
  - intros r s' (u & _ & Hr). exists u. exact Hr.
Defined.

(** Keyboard and serial port on CPU 0, the disk on CPU 1. *)
Lemma irq_routing_witness :
  wp (ioapicinit ;;; enable_all [(IRQ_KBD, 0); (IRQ_COM1, 0); (IRQ_IDE, 1)]) (fun _ s' =>
    redirection (dv_io s') IRQ_IDE = routed IRQ_IDE 1 /\ redirection (dv_io s') 5 = masked 5) (MkDevs [] 0 0 0).
Proof.
  eapply wp_mono.
  - apply (irq_routing [(IRQ_KBD, 0); (IRQ_COM1, 0); (IRQ_IDE, 1)] (MkDevs [] 0 0 0)).
    repeat apply Forall_cons_2; try apply Forall_nil_2; cbn; lia.
  - intros r s' H. split; [apply (H IRQ_IDE)|apply (H 5)]; vm_compute; split; discriminate.
Defined.
