(* ===== verification/Sh.v ===== *)
(** * The shell (sh.c)

    The parser works on the line the user typed: pointers into it are offsets, and
    the words of a command are pairs of the offsets where they start and end, until
    [nulterminate] cuts the line into strings.  [runcmd] is the program of system
    calls it makes; a fork continues twice. *)

From Stdlib Require Import Ascii.
From S2P Require Import Prelude Strings Monad Sysfile.

(** ** Characters *)

Definition whitespace : list Z := [32; 9; 13; 10; 11].
Definition symbols : list Z := codes "<|>&;()".

(** [strchr(set, c)] as a truth value, for a constant [set] without NUL. *)
Definition in_set (set : list Z) (c : Z) : bool := existsb (Z.eqb c) set.

(** ** Commands *)

Definition MAXARGS : nat := 10.

(** [W] is what stands for a word. *)
Inductive cmd (W : Type) : Type :=
  | EXEC (argv : list W)
  | REDIR (c : cmd W) (file : W) (mode fd : Z)
  | PIPE (left right : cmd W)
  | LIST (left right : cmd W)
  | BACK (c : cmd W).
Arguments EXEC {W} argv.
Arguments REDIR {W} c file mode fd.
Arguments PIPE {W} left right.
Arguments LIST {W} left right.
Arguments BACK {W} c.

(** Where a word starts and ends in the line. *)
Definition span : Type := nat * nat.
Definition pcmd : Type := cmd span.

Definition execcmd : pcmd := EXEC [].
Definition redircmd (c : pcmd) (file efile : nat) (mode fd : Z) : pcmd := REDIR c (file, efile) mode fd.
Definition pipecmd (l r : pcmd) : pcmd := PIPE l r.
Definition listcmd (l r : pcmd) : pcmd := LIST l r.
Definition backcmd (c : pcmd) : pcmd := BACK c.

(** The [execcmd] that redirections were wrapped around, which the parser still
    holds a pointer to. *)
Fixpoint at_exec (f : list span -> list span) (c : pcmd) : pcmd :=
  match c with
  | EXEC a => EXEC (f a)
  | REDIR c w m d => REDIR (at_exec f c) w m d
  | c => c
  end.

(** ** The parser

    Its state is the pointer [*ps]. *)

Section parser.
Context (buf : list Z) (es : nat).

Definition ch (s : nat) : Z := nth s buf 0.

Fixpoint skip_loop (n s : nat) : nat :=
  match n with
  | O => s
  | S n => if in_set whitespace (ch s) then skip_loop n (S s) else s
  end.
(** [while(s < es && strchr(whitespace, *s)) s++;] *)
Definition skip (s : nat) : nat := skip_loop (es - s) s.

Fixpoint word_loop (n s : nat) : nat :=
  match n with
  | O => s
  | S n => if negb (in_set whitespace (ch s)) && negb (in_set symbols (ch s)) then word_loop n (S s) else s
  end.
Definition word_end (s : nat) : nat := word_loop (es - s) s.

(** The token at [s] and where it ends; 43 is '+', 62 is '>', 97 is 'a'. *)
Definition token (s : nat) : Z * nat :=
  let c := ch s in
  if c =? 0 then (c, s)
  else if in_set (codes "|();&<") c then (c, S s)
  else if c =? 62 then (if ch (S s) =? 62 then (43, S (S s)) else (c, S s))
  else (97, word_end s).

(** Returns the token and the [*q] and [*eq] it sets. *)
Definition gettoken : M nat (Z * nat * nat) :=
  let* p := gets (fun s => s) in
  let s := skip p in
  let '(r, e) := token s in
  modify (fun _ => skip e) ;;;
  ret (r, s, e).

Definition peek (toks : list Z) : M nat bool :=
  let* p := gets (fun s => s) in
  let s := skip p in
  modify (fun _ => s) ;;;
  ret (negb (ch s =? 0) && in_set toks (ch s)).

Fixpoint redirs_loop (n : nat) (c : pcmd) : M nat pcmd :=
  match n with
  | O => nofuel
  | S n =>
      let* b := peek (codes "<>") in
      if b then
        let* t := gettoken in
        let '(tok, _, _) := t in
        let* t := gettoken in
        let '(tok2, q, eq) := t in
        if negb (tok2 =? 97) then panic "missing file for redirection" else
        redirs_loop n
          (if tok =? 60 then redircmd c q eq O_RDONLY 0
           else if tok =? 62 then redircmd c q eq (Z.lor O_WRONLY O_CREATE) 1
           else if tok =? 43 then redircmd c q eq (Z.lor O_WRONLY O_CREATE) 1
           else c)
      else ret c
  end.
Definition parseredirs (c : pcmd) : M nat pcmd := redirs_loop (S es) c.

Fixpoint args_loop (n : nat) (r : pcmd) (argc : nat) : M nat pcmd :=
  match n with
  | O => nofuel
  | S n =>
      let* b := peek (codes "|)&;") in
      if b then ret r else
      let* t := gettoken in
      let '(tok, q, eq) := t in
      if tok =? 0 then ret r else
      if negb (tok =? 97) then panic "syntax" else
      let r := at_exec (fun a => a ++ [(q, eq)]) r in
      if (MAXARGS <=? S argc)%nat then panic "too many args" else
      let* r := parseredirs r in
      args_loop n r (S argc)
  end.

Fixpoint back_loop (n : nat) (c : pcmd) : M nat pcmd :=
  match n with
  | O => nofuel
  | S n =>
      let* b := peek (codes "&") in
      if b then gettoken ;;; back_loop n (backcmd c) else ret c
  end.

Fixpoint parseline (n : nat) : M nat pcmd :=
  match n with
  | O => nofuel
  | S n =>
      let* c := parsepipe n in
      let* c := back_loop (S es) c in
      let* b := peek (codes ";") in
      if b then
        gettoken ;;;
        let* r := parseline n in
        ret (listcmd c r)
      else ret c
  end
with parsepipe (n : nat) : M nat pcmd :=
  match n with
  | O => nofuel
  | S n =>
      let* c := parseexec n in
      let* b := peek (codes "|") in
      if b then
        gettoken ;;;
        let* r := parsepipe n in
        ret (pipecmd c r)
      else ret c
  end
with parseexec (n : nat) : M nat pcmd :=
  match n with
  | O => nofuel
  | S n =>
      let* b := peek (codes "(") in
      if b then parseblock n else
      let* r := parseredirs execcmd in
      args_loop (S es) r 0
  end
with parseblock (n : nat) : M nat pcmd :=
  match n with
  | O => nofuel
  | S n =>
      let* b := peek (codes "(") in
      if negb b then panic "parseblock" else
      gettoken ;;;
      let* c := parseline n in
      let* b := peek (codes ")") in
      if negb b then panic "syntax - missing )" else
      gettoken ;;;
      parseredirs c
  end.

End parser.

(** [*eq = 0] *)
Definition nul (w : span) (buf : list Z) : list Z := <[snd w := 0]> buf.

Fixpoint nulterminate (c : pcmd) (buf : list Z) : list Z :=
  match c with
  | EXEC argv => foldl (fun b w => nul w b) buf argv
  | REDIR c w _ _ => nul w (nulterminate c buf)
  | PIPE l r | LIST l r => nulterminate r (nulterminate l buf)
  | BACK c => nulterminate c buf
  end.

Fixpoint buf_strlen (s : list Z) : nat :=
  match s with
  | [] => 0
  | c :: s => if c =? 0 then 0 else S (buf_strlen s)
  end.

(** The string a pointer into the line points to. *)
Definition cstring (buf : list Z) (w : span) : list Z := let s := drop (fst w) buf in take (buf_strlen s) s.

(** What is printed when a part of the line is left over, by parsecmd and by panic. *)
Definition text (l : list Z) : string := String.string_of_list_ascii (map (fun c => ascii_of_N (Z.to_N c)) l).
Definition leftovers (l : list Z) : string := ("leftovers: " ++ text l ++ String "010" "syntax")%string.

(** Returns the command and the line cut into strings.  Nested as deep as the line
    is long, four calls a level. *)
Definition parsecmd (buf : list Z) : M nat (pcmd * list Z) :=
  let es := buf_strlen buf in
  let* c := parseline buf es (4 * es + 4) in
  peek buf es [] ;;;
  let* s := gets (fun s => s) in
  if negb (s =? es)%nat then panic (leftovers (cstring buf (s, es))) else
  ret (c, nulterminate c buf).

(** ** Running commands *)

Fixpoint map_cmd {W X} (f : W -> X) (c : cmd W) : cmd X :=
  match c with
  | EXEC a => EXEC (map f a)
  | REDIR c w m d => REDIR (map_cmd f c) (f w) m d
  | PIPE l r => PIPE (map_cmd f l) (map_cmd f r)
  | LIST l r => LIST (map_cmd f l) (map_cmd f r)
  | BACK c => BACK (map_cmd f c)
  end.

Definition word : Type := list Z.

(** A process: the system calls it makes, going on with their results. *)
Inductive prog : Type :=
  | Exit
  | Exec (path : word) (argv : list word) (k : prog)
  | Printf (fd : Z) (msg : list Z) (k : prog)
  | Close (fd : Z) (k : prog)
  | Dup (fd : Z) (k : Z -> prog)
  | Open (path : word) (mode : Z) (k : Z -> prog)
  | Pipe (k : option (Z * Z) -> prog)
  | Fork (k : Z -> prog)
  | Wait (k : prog)
  | Chdir (path : word) (k : Z -> prog).

(** [panic] of sh.c. *)
Definition sh_panic (msg : string) : prog := Printf 2 (codes msg ++ [10]) Exit.

Lemma codes_app s t : codes (s ++ t) = codes s ++ codes t.
Proof. unfold codes. induction s as [|c s IH]; [done|]. exact (f_equal (cons _) IH). Qed.

Lemma codes_text l : Forall (fun c => 0 <= c < 256) l -> codes (text l) = l.
Proof.
  unfold codes, text. rewrite String.list_ascii_of_string_of_list_ascii. induction 1 as [|c l Hc _ IH]; [done|].
  cbn [map]. rewrite IH, N_ascii_embedding by lia. f_equal. lia.
Qed.

(** Two lines: what is left over, then the error. *)
Lemma leftovers_printed l :
  Forall (fun c => 0 <= c < 256) l ->
  sh_panic (leftovers l) = Printf 2 ((codes "leftovers: " ++ l ++ [10]) ++ (codes "syntax" ++ [10])) Exit.
Proof. intros Hl. unfold sh_panic, leftovers. rewrite !codes_app, codes_text, <- !app_assoc by done. done. Qed.

Definition fork1 (k : Z -> prog) : prog := Fork (fun pid => if pid =? -1 then sh_panic "fork" else k pid).

(** In a child; never returns. *)
Fixpoint runcmd (c : cmd word) : prog :=
  match c with
  | EXEC [] => Exit
  | EXEC (a :: argv) => Exec a (a :: argv) (Printf 2 (codes "exec " ++ a ++ codes " failed" ++ [10]) Exit)
  | REDIR c file mode fd =>
      Close fd (Open file mode (fun r =>
        if r <? 0 then Printf 2 (codes "open " ++ file ++ codes " failed" ++ [10]) Exit else runcmd c))
  | LIST l r => fork1 (fun pid => if pid =? 0 then runcmd l else Wait (runcmd r))
  | PIPE l r =>
      Pipe (fun p =>
        match p with
        | None => sh_panic "pipe"
        | Some (p0, p1) =>
            fork1 (fun pid => if pid =? 0 then Close 1 (Dup p1 (fun _ => Close p0 (Close p1 (runcmd l)))) else
            fork1 (fun pid => if pid =? 0 then Close 0 (Dup p0 (fun _ => Close p0 (Close p1 (runcmd r)))) else
            Close p0 (Close p1 (Wait (Wait Exit)))))
        end)
  | BACK c => fork1 (fun pid => if pid =? 0 then runcmd c else Exit)
  end.

(** [runcmd(parsecmd(buf))], in the child that runs a line. *)
Definition run_line (buf : list Z) : prog :=
  match parsecmd buf 0%nat with
  | Ok (c, buf') _ => runcmd (map_cmd (cstring buf') c)
  | Panic msg => sh_panic msg
  | _ => Exit
  end.

(** What the shell does with one line, before it reads the next; 99 100 32 is "cd ". *)
Definition main_line (buf : list Z) (next : prog) : prog :=
  if (nth 0 buf 0 =? 99) && (nth 1 buf 0 =? 100) && (nth 2 buf 0 =? 32) then
    let buf := <[(buf_strlen buf - 1)%nat := 0]> buf in
    let path := cstring buf (3, 3)%nat in
    Chdir path (fun r => if r <? 0 then Printf 2 (codes "cannot cd " ++ path ++ [10]) next else next)
  else fork1 (fun pid => if pid =? 0 then run_line buf else Wait next).
