(* ===== verification/ShInv.v ===== *)
(** * The shell's parser and its plumbing

    The parser returns or reports an error on every line, prints of commands parse
    back to them, and the strings the commands run with are the words typed.  Every
    process a command line starts runs with the descriptors the line asks for and no
    others. *)

From S2P Require Import Prelude Strings Monad Sysfile Sh.

#[local] Arguments in_set : simpl never.

(** ** Text *)

Fixpoint trim (u : list Z) : list Z :=
  match u with
  | [] => []
  | c :: v => if in_set whitespace c then trim v else u
  end.

(** A character of a word. *)
Definition plain (c : Z) : bool := negb (c =? 0) && negb (in_set whitespace c) && negb (in_set symbols c).
#[local] Arguments plain : simpl never.

Fixpoint plain_len (u : list Z) : nat :=
  match u with
  | [] => 0
  | c :: v => if plain c then S (plain_len v) else 0
  end.

(** The token a text starts with, and its length. *)
Definition tokenize (u : list Z) : Z * nat :=
  match u with
  | [] => (0, 0%nat)
  | c :: v =>
      if in_set (codes "|();&<") c then (c, 1%nat)
      else if c =? 62 then (if hd 0 v =? 62 then (43, 2%nat) else (c, 1%nat))
      else (97, plain_len u)
  end.

Definition starts (toks u : list Z) : bool :=
  match u with
  | [] => false
  | c :: _ => in_set toks c
  end.

Lemma trim_trim u : trim (trim u) = trim u.
Proof. induction u as [|c u IH]; [done|]. cbn. destruct (in_set whitespace c) eqn:E; [done|]. cbn. by rewrite E. Qed.

Lemma trim_length u : (length (trim u) <= length u)%nat.
Proof. induction u as [|c u IH]; [done|]. cbn. destruct (in_set whitespace c); cbn; lia. Qed.

Lemma trim_head u c v : trim u = c :: v -> in_set whitespace c = false.
Proof.
  induction u as [|d u IH]; [done|]. cbn. destruct (in_set whitespace d) eqn:E; [done|]. by intros [= <- <-].
Qed.

Lemma plain_len_le u : (plain_len u <= length u)%nat.
Proof. induction u as [|c u IH]; [done|]. cbn. destruct (plain c); cbn; lia. Qed.

Lemma plain_len_app w v : Forall (fun c => plain c = true) w -> plain (hd 0 v) = false -> plain_len (w ++ v) = length w.
Proof.
  intros Hw Hv. induction w as [|c w IH]; cbn; [by destruct v as [|d v]; cbn in *; [|rewrite Hv]|].
  apply Forall_cons in Hw as [-> Hw]. by rewrite IH.
Qed.

Lemma plain_len_spec u :
  let k := plain_len u in Forall (fun c => plain c = true) (take k u) /\ plain (hd 0 (drop k u)) = false.
Proof.
  cbv zeta. induction u as [|c u [IH1 IH2]]; [done|]. cbn. destruct (plain c) eqn:E; cbn; [|done]. by split; [constructor|].
Qed.

(** The characters of no token but a word. *)
Lemma word_head c :
  c <> 0 -> in_set whitespace c = false -> in_set (codes "|();&<") c = false -> (c =? 62) = false -> plain c = true.
Proof.
  intros H0 Hw Hs H62. unfold plain. rewrite Hw, (proj2 (Z.eqb_neq _ _) H0). clear Hw. unfold in_set in *. cbn in *.
  repeat match goal with H : (_ || _) = false |- _ => apply orb_false_iff in H as [? H] end.
  apply negb_true_iff. cbn. by repeat (apply orb_false_iff; split).
Qed.

Lemma tokenize_some u :
  trim u = u -> Forall (fun c => c <> 0) u -> u <> [] -> (1 <= snd (tokenize u) <= length u)%nat /\ fst (tokenize u) <> 0.
Proof.
  destruct u as [|c v]; [done|]. intros Ht H0 _. apply Forall_cons in H0 as [H0 _]. pose proof (trim_head _ _ _ Ht) as Hw.
  cbn [tokenize]. destruct (in_set (codes "|();&<") c) eqn:Es; [cbn; split; [lia|done]|].
  destruct (c =? 62) eqn:E62.
  - destruct v as [|d v]; cbn; [split; [lia|done]|]. destruct (d =? 62); cbn; split; try lia; done.
  - pose proof (plain_len_le (c :: v)). cbn [fst snd]. split; [|lia]. cbn [plain_len] in *. rewrite word_head in * by done. lia.
Qed.

(** ** The cursor *)

Section text.
Context (t rest : list Z) (Ht : Forall (fun c => c <> 0) t).

Definition line : list Z := t ++ 0 :: rest.
Definition es : nat := length t.

(** The cursor is at [s], before the text [u]. *)
Definition at_text (s : nat) (u : list Z) : Prop := (s <= es)%nat /\ drop s t = u.

Lemma at_length s u : at_text s u -> length u = (es - s)%nat.
Proof. intros [_ <-]. apply length_drop. Qed.

Lemma at_nonzero s u : at_text s u -> Forall (fun c => c <> 0) u.
Proof. intros [_ <-]. by apply Forall_drop. Qed.

Lemma at_drop s u k : at_text s u -> (k <= length u)%nat -> at_text (s + k) (drop k u).
Proof. intros Hu Hk. rewrite (at_length _ _ Hu) in Hk. destruct Hu as [H1 <-]. split; [lia|by rewrite drop_drop]. Qed.

Lemma at_ch s u : at_text s u -> ch line s = hd 0 u.
Proof.
  intros [Hs <-]. unfold ch, line. destruct (decide (s = es)) as [->|Hne].
  - rewrite app_nth2, Nat.sub_diag by (unfold es; lia). by rewrite drop_ge by (unfold es; lia).
  - rewrite app_nth1 by (unfold es in *; lia). clear -Hs Hne. unfold es in *. revert s Hs Hne.
    induction t as [|c u IH]; intros [|s] Hs Hne; cbn in *; try lia; try done. apply IH; lia.
Qed.

Lemma at_succ s c u : at_text s (c :: u) -> at_text (S s) u.
Proof. intros Hu. replace (S s) with (s + 1)%nat by lia. apply (at_drop s (c :: u) 1); [done|cbn; lia]. Qed.

Lemma skip_loop_at s u : at_text s u -> at_text (skip_loop line (length u) s) (trim u).
Proof.
  revert s. induction u as [|c u IH]; intros s Hu; [done|]. cbn [length skip_loop trim].
  rewrite (at_ch _ _ Hu). cbn [hd]. destruct (in_set whitespace c); [apply IH; by eapply at_succ|done].
Qed.

Lemma skip_at s u : at_text s u -> at_text (skip line es s) (trim u).
Proof. intros Hu. unfold skip. rewrite <- (at_length _ _ Hu). by apply skip_loop_at. Qed.

Lemma word_loop_at s u : at_text s u -> word_loop line (length u) s = (s + plain_len u)%nat.
Proof.
  revert s. induction u as [|c u IH]; intros s Hu; [cbn; lia|]. cbn [length word_loop plain_len].
  pose proof (at_nonzero _ _ Hu) as H0. apply Forall_cons in H0 as [H0 _].
  rewrite (at_ch _ _ Hu). cbn [hd]. unfold plain. rewrite (proj2 (Z.eqb_neq _ _) H0). cbn [negb andb].
  destruct (negb _ && negb _); [|lia]. rewrite IH by by eapply at_succ. lia.
Qed.

Lemma token_at s u : at_text s u -> token line es s = (fst (tokenize u), (s + snd (tokenize u))%nat).
Proof.
  intros Hu. unfold token. rewrite (at_ch _ _ Hu). destruct u as [|c v]; [cbn; f_equal; lia|].
  pose proof (at_nonzero _ _ Hu) as H0. apply Forall_cons in H0 as [H0 _].
  cbn [hd]. rewrite (proj2 (Z.eqb_neq _ _) H0). unfold tokenize.
  destruct (in_set _ c); [cbn; f_equal; lia|]. rewrite (at_ch _ _ (at_succ _ _ _ Hu)).
  destruct (c =? 62); [destruct (hd 0 v =? 62); cbn; f_equal; lia|].
  unfold word_end. rewrite <- (at_length _ _ Hu), (word_loop_at _ _ Hu). done.
Qed.

(** The cursor is before [u], up to white space. *)
Definition on (s : nat) (u : list Z) : Prop := exists v, at_text s v /\ trim v = trim u.

Lemma on_trim s u v : on s u -> trim u = trim v -> on s v.
Proof. intros (w & H1 & H2) E. exists w. by rewrite H2. Qed.

Lemma at_on s u : at_text s u -> on s u.
Proof. intros H. by exists u. Qed.

Lemma on_skip s u : on s u -> at_text (skip line es s) (trim u).
Proof. intros (v & Hv & <-). by apply skip_at. Qed.

Lemma starts_at toks s u : at_text s u -> negb (ch line s =? 0) && in_set toks (ch line s) = starts toks u.
Proof.
  intros Hu. rewrite (at_ch _ _ Hu). destruct u as [|c u]; [done|]. cbn [hd starts].
  pose proof (at_nonzero _ _ Hu) as H0. apply Forall_cons in H0 as [H0 _]. by rewrite (proj2 (Z.eqb_neq _ _) H0).
Qed.

Lemma peek_wp toks s u (Q : bool -> nat -> Prop) :
  on s u -> (forall s', on s' u -> Q (starts toks (trim u)) s') -> wp (peek line es toks) Q s.
Proof.
  intros Hu HQ. pose proof (on_skip _ _ Hu) as Hs. unfold peek. wp_go. rewrite (starts_at toks _ _ Hs).
  apply HQ. eapply on_trim; [by apply at_on|apply trim_trim].
Qed.

(** A token is consumed. *)
Lemma gettoken_wp s u (Q : Z * nat * nat -> nat -> Prop) :
  on s u ->
  (forall q s', at_text q (trim u) -> on s' (drop (snd (tokenize (trim u))) (trim u)) ->
     Q (fst (tokenize (trim u)), q, (q + snd (tokenize (trim u)))%nat) s') ->
  wp (gettoken line es) Q s.
Proof.
  intros Hu HQ. pose proof (on_skip _ _ Hu) as Hs. unfold gettoken. wp_go. rewrite (token_at _ _ Hs). wp_go.
  apply HQ; [done|]. eapply on_trim; [apply at_on, skip_at, at_drop; [done|]|apply trim_trim].
  destruct (decide (trim u = [])) as [->|Hne]; [done|]. apply tokenize_some; [apply trim_trim|by eapply at_nonzero|done].
Qed.

(** ** Every line *)

(** [m] returns with [Q], or reports a syntax error. *)
Definition wpe {A} (m : M nat A) (Q : A -> nat -> Prop) (s : nat) : Prop :=
  match m s with Ok a s' => Q a s' | Panic _ => True | _ => False end.

Lemma wpe_bind {A B} (m : M nat A) (k : A -> M nat B) Q s : wpe m (fun a s' => wpe (k a) Q s') s -> wpe (bind m k) Q s.
Proof. unfold wpe, bind. by destruct (m s). Qed.

Lemma wp_wpe {A} (m : M nat A) Q s : wp m Q s -> wpe m Q s.
Proof. unfold wp, wpe. by destruct (m s). Qed.

Lemma wpe_mono {A} (m : M nat A) (Q Q' : A -> nat -> Prop) s : wpe m Q s -> (forall a s', Q a s' -> Q' a s') -> wpe m Q' s.
Proof. unfold wpe. destruct (m s); auto. Qed.

(** A word of the line: plain characters, and none after them. *)
Definition span_ok (w : span) : Prop :=
  exists x u, at_text (fst w) (x ++ u) /\ x <> [] /\ Forall (fun c => plain c = true) x /\ plain (hd 0 u) = false /\
    snd w = (fst w + length x)%nat.

Fixpoint words {W} (c : cmd W) : list W :=
  match c with
  | EXEC a => a
  | REDIR c w _ _ => words c ++ [w]
  | PIPE l r | LIST l r => words l ++ words r
  | BACK c => words c
  end.
Definition spans_ok (c : pcmd) : Prop := Forall span_ok (words c).

Lemma spans_ok_at_exec f c :
  (forall a, Forall span_ok a -> Forall span_ok (f a)) -> spans_ok c -> spans_ok (at_exec f c).
Proof.
  intros Hf. unfold spans_ok. induction c as [a|c IH w m d|l _ r _|l _ r _|c _]; cbn [at_exec words]; auto.
  rewrite !Forall_app. intros [H1 H2]. split; [by apply IH|done].
Qed.

(** What is left of the line is at most as long as [u]. *)
Definition left_of (u : list Z) (s : nat) : Prop := exists v, on s v /\ (length v <= length u)%nat.

Lemma on_left s u v : on s v -> (length v <= length u)%nat -> left_of u s.
Proof. intros. by exists v. Qed.

Lemma token_word u q : at_text q (trim u) -> fst (tokenize (trim u)) = 97 -> span_ok (q, (q + snd (tokenize (trim u)))%nat).
Proof.
  intros Hq. pose proof (at_nonzero _ _ Hq) as H0. destruct (trim u) as [|c v] eqn:E; [done|].
  pose proof (trim_head _ _ _ E) as Hw. apply Forall_cons in H0 as [H0 _].
  unfold tokenize. destruct (in_set (codes "|();&<") c) eqn:Es.
  { cbn. intros ->. done. }
  destruct (c =? 62) eqn:E62; [destruct (hd 0 v =? 62); cbn; [done|]; intros ->; done|]. intros _.
  pose proof (plain_len_spec (c :: v)) as [H1 H2]. set (k := plain_len (c :: v)) in *.
  exists (take k (c :: v)), (drop k (c :: v)). rewrite take_drop. split_and!; [done| |done|done|].
  - unfold k. cbn. by rewrite word_head.
  - cbn [fst snd]. rewrite length_take. pose proof (plain_len_le (c :: v)). lia.
Qed.

(** After a token that is there, less of the line is left. *)
Lemma gettoken_wpe s u (Q : Z * nat * nat -> nat -> Prop) :
  on s u ->
  (forall (r : Z) (q e : nat) s' v, on s' v -> (length v <= length u)%nat -> (r <> 0 -> (length v < length u)%nat) ->
     (r = 0 <-> trim u = []) -> (r = 97 -> span_ok (q, e)) -> Q (r, q, e) s') ->
  wpe (gettoken line es) Q s.
Proof.
  intros Hu HQ. apply wp_wpe. eapply gettoken_wp; [done|]. intros q s' Hq Hs'.
  pose proof (trim_length u) as Hl. pose proof (at_nonzero _ _ Hq) as H0.
  eapply HQ; [exact Hs'|rewrite length_drop; lia| | |by apply token_word].
  - intros Hr. rewrite length_drop. destruct (decide (trim u = [])) as [E|E]; [by rewrite E in Hr|].
    pose proof (tokenize_some _ (trim_trim u) H0 E). lia.
  - split; [|by intros ->]. intros Hr. destruct (decide (trim u = [])) as [E|E]; [done|].
    by apply tokenize_some in E as [_ ?]; [|apply trim_trim|].
Qed.

Lemma peek_wpe toks s u (Q : bool -> nat -> Prop) :
  on s u -> (forall b s', on s' u -> (b = true -> trim u <> []) -> Q b s') -> wpe (peek line es toks) Q s.
Proof.
  intros Hu HQ. apply wp_wpe. eapply peek_wp; [done|]. intros s' Hs. apply HQ; [done|]. by destruct (trim u).
Qed.

(** A parser called before [u] returns a command whose words are words of the line. *)
Definition parses (u : list Z) (c : pcmd) (s : nat) : Prop := spans_ok c /\ left_of u s.

Lemma parses_mono u v c s : (length v <= length u)%nat -> parses v c s -> parses u c s.
Proof. intros Hl (H1 & w & H2 & H3). split; [done|]. exists w. split; [done|lia]. Qed.

Lemma spans_ok_redir c q e m d : spans_ok c -> span_ok (q, e) -> spans_ok (redircmd c q e m d).
Proof. intros H1 H2. apply Forall_app. split; [done|by constructor]. Qed.

Lemma redirs_loop_wpe n c s u :
  (length u < n)%nat -> on s u -> spans_ok c -> wpe (redirs_loop line es n c) (parses u) s.
Proof.
  revert c s u. induction n as [|n IH]; intros c s u Hn Hu Hc; [lia|]. cbn [redirs_loop].
  apply wpe_bind. eapply peek_wpe; [done|]. intros b s1 Hs1 Hb. destruct b; [|by split; [|by eapply on_left]].
  apply wpe_bind. eapply gettoken_wpe; [done|]. intros r q e s2 v Hs2 Hl Hlt Hr _.
  apply wpe_bind. eapply gettoken_wpe; [done|]. intros r2 q2 e2 s3 v2 Hs3 Hl2 Hlt2 _ Hok.
  destruct (Z.eqb_spec r2 97) as [E|E]; cbn [negb]; [|done].
  assert (length v < length u)%nat by (apply Hlt; intros ?; by apply (Hb eq_refl), Hr).
  eapply wpe_mono; [eapply (IH _ s3 v2); [lia|done|]|intros c' s'; apply parses_mono; lia].
  repeat case_match; try done; apply spans_ok_redir; auto.
Qed.

Lemma parseredirs_wpe c s u : on s u -> spans_ok c -> wpe (parseredirs line es c) (parses u) s.
Proof.
  intros (v & Hv & E) Hc. pose proof (at_length _ _ Hv). pose proof (trim_length v).
  eapply wpe_mono; [apply (redirs_loop_wpe _ _ _ (trim v))|].
  - unfold es in *. lia.
  - eapply on_trim; [by apply at_on|by rewrite trim_trim].
  - done.
  - intros c' s'. apply parses_mono. rewrite E. apply trim_length.
Qed.

Lemma args_loop_wpe n c argc s u :
  (length u < n)%nat -> on s u -> spans_ok c -> wpe (args_loop line es n c argc) (parses u) s.
Proof.
  revert c argc s u. induction n as [|n IH]; intros c argc s u Hn Hu Hc; [lia|]. cbn [args_loop].
  apply wpe_bind. eapply peek_wpe; [done|]. intros b s1 Hs1 _. destruct b; [by split; [|by eapply on_left]|].
  apply wpe_bind. eapply gettoken_wpe; [done|]. intros r q e s2 v Hs2 Hl Hlt Hr Hok.
  destruct (Z.eqb_spec r 0) as [E|E]; [split; [done|by eapply on_left]|].
  destruct (Z.eqb_spec r 97) as [E'|E']; cbn [negb]; [|done]. cbv zeta. case_match; [done|].
  apply wpe_bind. eapply wpe_mono; [eapply parseredirs_wpe; [done|]|].
  { apply spans_ok_at_exec; [|done]. intros a Ha. apply Forall_app. split; [done|]. constructor; auto. }
  intros c' s3 (Hc' & w & Hw & Hlw). specialize (Hlt E).
  eapply wpe_mono; [eapply (IH _ _ s3 w); [lia|done|done]|intros c2 s4; apply parses_mono; lia].
Qed.

Lemma back_loop_wpe n c s u :
  (length u < n)%nat -> on s u -> spans_ok c -> wpe (back_loop line es n c) (parses u) s.
Proof.
  revert c s u. induction n as [|n IH]; intros c s u Hn Hu Hc; [lia|]. cbn [back_loop].
  apply wpe_bind. eapply peek_wpe; [done|]. intros b s1 Hs1 Hb. destruct b; [|by split; [|by eapply on_left]].
  apply wpe_bind. eapply gettoken_wpe; [done|]. intros r q e s2 v Hs2 Hl Hlt Hr _.
  assert (length v < length u)%nat by (apply Hlt; intros ?; by apply (Hb eq_refl), Hr).
  eapply wpe_mono; [eapply (IH _ s2 v); [lia|done|done]|intros c2 s4; apply parses_mono; lia].
Qed.

(** A loop bounded by the length of the line, called anywhere in it. *)
Lemma on_short s u : on s u -> exists v, on s v /\ trim v = trim u /\ (length v <= es)%nat /\ (length v <= length u)%nat.
Proof.
  intros (v & Hv & E). exists (trim v). pose proof (at_length _ _ Hv). pose proof (trim_length v). pose proof (trim_length u).
  split_and!; [eapply on_trim; [by apply at_on|by rewrite trim_trim]|by rewrite trim_trim|lia|rewrite E; done].
Qed.

(** A separator is consumed, and the rest parsed. *)
Lemma separator_wpe {A} toks s u (k1 k2 : M nat A) (Q : A -> nat -> Prop) :
  on s u ->
  (forall s' v, on s' v -> (length v < length u)%nat -> wpe k1 Q s') ->
  (forall s', on s' u -> wpe k2 Q s') ->
  wpe (let* b := peek line es toks in if b then gettoken line es ;;; k1 else k2) Q s.
Proof.
  intros Hu H1 H2. apply wpe_bind. eapply peek_wpe; [done|]. intros b s1 Hs1 Hb. destruct b; [|by apply H2].
  apply wpe_bind. eapply gettoken_wpe; [done|]. intros r q e s2 v Hs2 Hl Hlt Hr _.
  eapply H1; [done|]. apply Hlt. intros ?. by apply (Hb eq_refl), Hr.
Qed.

Lemma parse_wpe n : forall s u, on s u ->
  ((4 * length u + 3 < n)%nat -> wpe (parseline line es n) (parses u) s) /\
  ((4 * length u + 2 < n)%nat -> wpe (parsepipe line es n) (parses u) s) /\
  ((4 * length u + 1 < n)%nat -> wpe (parseexec line es n) (parses u) s) /\
  ((4 * length u < n)%nat -> wpe (parseblock line es n) (parses u) s).
Proof.
  induction n as [|n IH]; intros s u Hu; [split_and!; lia|]. split_and!; intros Hn.
  - cbn [parseline]. apply wpe_bind. eapply wpe_mono; [apply (IH s u Hu); lia|]. intros c s1 (Hc & v & Hv & Hl).
    destruct (on_short _ _ Hv) as (w & Hw & _ & Hwe & Hwl).
    apply wpe_bind. eapply wpe_mono; [apply (back_loop_wpe _ _ _ w); [lia|done|done]|]. intros c1 s2 (Hc1 & v1 & Hv1 & Hl1).
    eapply separator_wpe; [done| |].
    + intros s3 v3 Hv3 Hl3. apply wpe_bind. eapply wpe_mono; [apply (IH s3 v3 Hv3); lia|]. intros c2 s4 (Hc2 & v4 & Hv4 & Hl4).
      split; [by apply Forall_app|exists v4; split; [done|lia]].
    + intros s3 Hs3. split; [done|]. exists v1. split; [done|lia].
  - cbn [parsepipe]. apply wpe_bind. eapply wpe_mono; [apply (IH s u Hu); lia|]. intros c s1 (Hc & v & Hv & Hl).
    eapply separator_wpe; [done| |].
    + intros s3 v3 Hv3 Hl3. apply wpe_bind. eapply wpe_mono; [apply (IH s3 v3 Hv3); lia|]. intros c2 s4 (Hc2 & v4 & Hv4 & Hl4).
      split; [by apply Forall_app|exists v4; split; [done|lia]].
    + intros s3 Hs3. split; [done|]. by exists v.
  - cbn [parseexec]. apply wpe_bind. eapply peek_wpe; [done|]. intros b s1 Hs1 _. destruct b; [apply (IH s1 u Hs1); lia|].
    apply wpe_bind. eapply wpe_mono; [apply (parseredirs_wpe _ _ u); [done|constructor]|]. intros c s2 (Hc & v & Hv & Hl).
    destruct (on_short _ _ Hv) as (w & Hw & _ & Hwe & Hwl).
    eapply wpe_mono; [apply (args_loop_wpe _ _ _ _ w); [lia|done|done]|intros c2 s4; apply parses_mono; lia].
  - cbn [parseblock]. apply wpe_bind. eapply peek_wpe; [done|]. intros b s1 Hs1 Hb. destruct b; cbn [negb]; [|done].
    apply wpe_bind. eapply gettoken_wpe; [done|]. intros r q e s2 v Hs2 Hl Hlt Hr _.
    assert (length v < length u)%nat by (apply Hlt; intros ?; by apply (Hb eq_refl), Hr).
    apply wpe_bind. eapply wpe_mono; [apply (IH s2 v Hs2); lia|]. intros c s3 (Hc & v3 & Hv3 & Hl3).
    apply wpe_bind. eapply peek_wpe; [done|]. intros b s4 Hs4 _. destruct b; cbn [negb]; [|done].
    apply wpe_bind. eapply gettoken_wpe; [done|]. intros r2 q2 e2 s5 v5 Hs5 Hl5 _ _ _.
    eapply wpe_mono; [apply (parseredirs_wpe _ _ v5); done|intros c2 s6; apply parses_mono; lia].
Qed.

(** ** The strings *)

Lemma buf_strlen_line u v : Forall (fun c => c <> 0) u -> buf_strlen (u ++ 0 :: v) = length u.
Proof.
  intros Hu. induction u as [|c u IH]; [done|]. apply Forall_cons in Hu as [H0 Hu]. cbn.
  by rewrite (proj2 (Z.eqb_neq _ _) H0), IH.
Qed.

Lemma nulterminate_words c buf : nulterminate c buf = foldl (fun b w => nul w b) buf (words c).
Proof.
  revert buf. induction c as [a|c IH w m d|l IHl r IHr|l IHl r IHr|c IH]; intros buf; cbn [nulterminate words];
    rewrite ?foldl_app; [done|by rewrite IH|by rewrite IHl, IHr|by rewrite IHl, IHr|done].
Qed.

Lemma foldl_nul_other ws buf i : i ∉ map snd ws -> foldl (fun b w => nul w b) buf ws !! i = buf !! i.
Proof.
  revert buf. induction ws as [|w ws IH]; intros buf Hi; [done|]. cbn in *. apply not_elem_of_cons in Hi as [H1 H2].
  rewrite IH by done. by apply list_lookup_insert_ne.
Qed.

Lemma length_foldl_nul ws buf : length (foldl (fun b w => nul w b) buf ws) = length buf.
Proof. revert buf. induction ws as [|w ws IH]; intros buf; [done|]. cbn. rewrite IH. apply length_insert. Qed.

Lemma foldl_nul_end ws buf w : w ∈ ws -> (snd w < length buf)%nat -> foldl (fun b w => nul w b) buf ws !! snd w = Some 0.
Proof.
  revert w buf. induction ws as [|x ws IH]; intros w buf Hw Hl; [by apply elem_of_nil in Hw|]. cbn.
  destruct (decide (snd w ∈ map snd ws)) as [Hin|Hout].
  - apply list_elem_of_fmap in Hin as (y & E & Hy). rewrite E. apply IH; [done|]. unfold nul. rewrite length_insert. congruence.
  - apply elem_of_cons in Hw as [->|Hw]; [|exfalso; apply Hout; by apply list_elem_of_fmap_2]. rewrite foldl_nul_other by done.
    by apply list_lookup_insert_eq.
Qed.

(** The string at [q] is [x] if [x] is there with a NUL after it. *)
Lemma cstring_is buf q e x :
  Forall (fun c => c <> 0) x -> (forall i, (i < length x)%nat -> buf !! (q + i)%nat = x !! i) ->
  buf !! (q + length x)%nat = Some 0 -> cstring buf (q, e) = x.
Proof.
  intros H0 Hx Hend. unfold cstring. cbn [fst].
  assert (exists v, drop q buf = x ++ 0 :: v) as [v ->].
  { exists (drop (S (q + length x)) buf). apply list_eq. intros i. rewrite lookup_drop.
    destruct (decide (i < length x)%nat) as [Hi|Hi]; [rewrite lookup_app_l by done; by apply Hx|].
    rewrite lookup_app_r by lia. destruct (i - length x)%nat as [|j] eqn:Ej; cbn [lookup list_lookup].
    - by replace (q + i)%nat with (q + length x)%nat by lia.
    - change (buf !! (q + i)%nat = drop (S (q + length x)) buf !! j). rewrite lookup_drop. f_equal. lia. }
  rewrite buf_strlen_line by done. by rewrite take_app_length.
Qed.

Definition slice (w : span) : list Z := take (snd w - fst w) (drop (fst w) t).

Lemma span_slice q x u e : at_text q (x ++ u) -> e = (q + length x)%nat -> slice (q, e) = x.
Proof. intros [_ E] ->. unfold slice. cbn [fst snd]. rewrite E. by replace (q + length x - q)%nat with (length x) by lia; rewrite take_app_length. Qed.

Lemma at_lookup q u i : at_text q u -> (i < length u)%nat -> t !! (q + i)%nat = u !! i.
Proof. intros [_ <-] _. by rewrite lookup_drop. Qed.

(** No word is cut by the end of another. *)
Lemma span_end_outside q x u w : at_text q (x ++ u) -> Forall (fun c => plain c = true) x -> span_ok w ->
  forall i, (i < length x)%nat -> snd w <> (q + i)%nat.
Proof.
  intros Hq Hp (y & v & Hw & _ & _ & Hv & ->) i Hi E.
  assert (plain (ch line (q + i)) = true) as H1.
  { rewrite (at_ch _ _ (at_drop _ _ i Hq ltac:(rewrite length_app; lia))). rewrite drop_app_le by lia.
    destruct (drop i x) as [|c r] eqn:Ed; [apply (f_equal length) in Ed; rewrite length_drop in Ed; cbn in Ed; lia|]. cbn.
    apply (Forall_drop _ i) in Hp. rewrite Ed in Hp. by apply Forall_cons in Hp as [? _]. }
  rewrite <- E in H1. rewrite (at_ch _ _ (at_drop _ _ (length y) Hw ltac:(rewrite length_app; lia))), drop_app_length in H1. congruence.
Qed.

Lemma plain_nonzero c : plain c = true -> c <> 0.
Proof. by intros H ->. Qed.

Lemma nulterminate_cstring c w : spans_ok c -> w ∈ words c -> cstring (nulterminate c line) w = slice w.
Proof.
  intros Hc Hw. rewrite nulterminate_words. pose proof (proj1 (Forall_forall _ _) Hc) as Hall.
  destruct (Hall w Hw) as (x & u & Hq & Hne & Hp & Hu & Ee). destruct w as [q e]. cbn [fst snd] in *.
  rewrite (span_slice _ _ _ _ Hq Ee). pose proof (at_length _ _ Hq) as Hlen. rewrite length_app in Hlen. destruct Hq as [Hqe Hq'].
  assert (length line = es + S (length rest))%nat as Hll by (unfold line, es; by rewrite length_app).
  apply cstring_is.
  - eapply Forall_impl; [exact Hp|]. apply plain_nonzero.
  - intros i Hi. rewrite foldl_nul_other.
    + unfold line. rewrite lookup_app_l by (unfold es in *; lia). rewrite (at_lookup q (x ++ u)); [by apply lookup_app_l|done|rewrite length_app; lia].
    + intros (y & E & Hy)%list_elem_of_fmap. symmetry in E. revert E. eapply (span_end_outside q x u); [done|done|by apply Hall|done].
  - rewrite <- Ee. apply (foldl_nul_end _ _ (q, e)); [done|]. cbn. lia.
Qed.

End text.

(** C28. The parser is total and the strings are the words.  On every line that ends
    in NUL, [parsecmd] reports a syntax error or returns a command, never running on;
    it then has read the whole line, and after [nulterminate] the string each argument
    and file name points to is the non-empty run of ordinary characters that was
    typed, cut by no other string's end. *)
Theorem parsecmd_words t rest :
  Forall (fun c => c <> 0) t ->
  match parsecmd (t ++ 0 :: rest) 0%nat with
  | Ok (c, buf') s =>
      s = length t /\ length buf' = length (t ++ 0 :: rest) /\
      forall w, w ∈ words c -> cstring buf' w = slice t w /\ slice t w <> [] /\ Forall (fun c => plain c = true) (slice t w)
  | Panic _ => True
  | _ => False
  end.
Proof.
  intros Ht. enough (wpe (parsecmd (t ++ 0 :: rest)) (fun a s => s = length t /\ length (snd a) = length (t ++ 0 :: rest) /\
    forall w, w ∈ words (fst a) -> cstring (snd a) w = slice t w /\ slice t w <> [] /\ Forall (fun c => plain c = true) (slice t w)) 0%nat) as H.
  { unfold wpe in H. by destruct (parsecmd _ _) as [[c b] s| | |]. }
  unfold parsecmd. rewrite buf_strlen_line by done. cbv zeta. apply wpe_bind.
  assert (on t 0 t) as H0 by (apply at_on; split; [lia|done]).
  eapply wpe_mono; [apply (parse_wpe t rest Ht _ 0%nat t H0); lia|]. intros c s (Hc & u & Hu & _).
  apply wpe_bind. eapply (peek_wpe t rest Ht); [done|]. intros b s1 _ _. apply wpe_bind, wp_wpe, wp_gets.
  destruct (Nat.eqb_spec s1 (length t)) as [->|]; cbn [negb]; [|done]. split; [done|]. split.
  - cbn. rewrite nulterminate_words. apply length_foldl_nul.
  - intros w Hw. cbn [fst snd] in *. split; [by apply (nulterminate_cstring t rest)|].
    apply (proj1 (Forall_forall _ _) Hc) in Hw as (x & v & Hq & Hne & Hp & _ & Ee). destruct w as [q e]. cbn [fst snd] in *.
    by rewrite (span_slice _ _ _ _ _ Hq Ee).
Qed.
