(* ===== verification/ShPrint.v ===== *)
(** * The shell's language

    How to write any command down so that the shell runs exactly that command: the
    printer puts parentheses where the grammar needs them, and the parser undoes it. *)

From S2P Require Import Prelude Strings Monad Sysfile Sh ShInv.

#[local] Arguments in_set : simpl never.
#[local] Arguments plain : simpl never.

(** ** Printing *)

Definition show_word (w : word) : list Z := w ++ [32].
Definition show_redir (w : word) (fd : Z) : list Z := (if fd =? 0 then 60 else 62) :: show_word w.
Definition show_args (a : list word) : list Z := concat (map show_word a).
Definition paren (b : bool) (u : list Z) : list Z := if b then 40 :: u ++ [41] else u.

(** At level 0 a list, at 1 its elements, at 2 a pipeline, at 3 one of its parts. *)
Fixpoint show (lvl : nat) (c : cmd word) : list Z :=
  match c with
  | EXEC a => show_args a
  | REDIR c w _ fd => show 3 c ++ show_redir w fd
  | PIPE l r => paren (3 <=? lvl)%nat (show 3 l ++ 124 :: show 2 r)
  | BACK c => paren (2 <=? lvl)%nat (show 1 c ++ [38])
  | LIST l r => paren (1 <=? lvl)%nat (show 1 l ++ 59 :: show 0 r)
  end.

(** The commands that can be written: words of ordinary characters, at most nine of
    them to a command, input from or output to a file. *)
Definition word_ok (w : word) : Prop := w <> [] /\ Forall (fun c => plain c = true) w.
Definition redir_ok (m fd : Z) : Prop := (m = O_RDONLY /\ fd = 0) \/ (m = Z.lor O_WRONLY O_CREATE /\ fd = 1).
Fixpoint cmd_ok (c : cmd word) : Prop :=
  match c with
  | EXEC a => Forall word_ok a /\ (length a < MAXARGS)%nat
  | REDIR c w m fd => cmd_ok c /\ word_ok w /\ redir_ok m fd
  | PIPE l r | LIST l r => cmd_ok l /\ cmd_ok r
  | BACK c => cmd_ok c
  end.

(** ** Characters *)

Lemma plain_in toks c : Forall (fun d => d ∈ symbols) toks -> plain c = true -> in_set toks c = false.
Proof.
  intros Hs Hc. unfold plain in Hc. apply andb_true_iff in Hc as [_ Hc]. apply negb_true_iff in Hc.
  apply not_true_iff_false. intros H. unfold in_set in *. apply existsb_exists in H as (d & Hd & E). apply Z.eqb_eq in E as ->.
  apply not_true_iff_false in Hc. apply Hc, existsb_exists. exists d. split; [|apply Z.eqb_refl].
  apply list_elem_of_In. apply list_elem_of_In in Hd. by eapply Forall_forall in Hs.
Qed.

Lemma plain_white c : plain c = true -> in_set whitespace c = false.
Proof. unfold plain. intros H. zbool. done. Qed.

Lemma word_trim w v : word_ok w -> trim (w ++ v) = w ++ v.
Proof. intros [Hne Hp]. destruct w as [|c w]; [done|]. apply Forall_cons in Hp as [Hc _]. cbn. by rewrite plain_white. Qed.

Lemma word_tokenize w v : word_ok w -> plain (hd 0 v) = false -> tokenize (w ++ v) = (97, length w).
Proof.
  intros [Hne Hp] Hv. pose proof (plain_len_app w v Hp Hv) as Hl. destruct w as [|c w]; [done|].
  apply Forall_cons in Hp as [Hc _]. cbn [app tokenize] in *.
  rewrite (plain_in (codes "|();&<")) by (done || (repeat constructor; set_solver)).
  destruct (Z.eqb_spec c 62) as [->|]; [done|]. by rewrite Hl.
Qed.

Lemma word_starts toks w v : word_ok w -> Forall (fun d => d ∈ symbols) toks -> starts toks (trim (w ++ v)) = false.
Proof.
  intros Hw Ht. rewrite word_trim by done. destruct Hw as [Hne Hp]. destruct w as [|c w]; [done|].
  apply Forall_cons in Hp as [Hc _]. by apply plain_in.
Qed.

(** What may follow: nothing, or one of [F]. *)
Definition ends (F v : list Z) : Prop := trim v = [] \/ starts F (trim v) = true.

Lemma starts_app F G u : starts F u = true -> (forall c, in_set F c = true -> in_set G c = true) -> starts G u = true.
Proof. destruct u; [done|]. cbn. auto. Qed.

Lemma ends_mono F G v : (forall c, in_set F c = true -> in_set G c = true) -> ends F v -> ends G v.
Proof. intros HFG [H|H]; [by left|]. right. by eapply starts_app. Qed.

(** A set of separators that has none of [toks]. *)
Lemma ends_starts F toks v : ends F v -> Forall (fun c => in_set toks c = false) F -> starts toks (trim v) = false.
Proof.
  intros [->|H] HF; [done|]. destruct (trim v) as [|c u]; [done|]. cbn in *. unfold in_set in H.
  apply existsb_exists in H as (d & Hd & ->%Z.eqb_eq). apply list_elem_of_In in Hd. by eapply Forall_forall in HF.
Qed.

Lemma in_set_subset F G : Forall (fun c => in_set G c = true) F -> forall c, in_set F c = true -> in_set G c = true.
Proof.
  intros HF c H. unfold in_set in H. apply existsb_exists in H as (d & Hd & ->%Z.eqb_eq). apply list_elem_of_In in Hd.
  by eapply Forall_forall in HF.
Qed.

Abbreviation follow3 := (ends (codes "|)&;")).
Abbreviation follow2 := (ends (codes ")&;")).
Abbreviation follow1 := (ends (codes ");")).
Abbreviation follow0 := (ends (codes ")")).

Ltac follows := eapply ends_mono; [|eassumption]; apply in_set_subset; repeat constructor.

(** ** Tokens *)

Section text.
Context (t rest : list Z) (Ht : Forall (fun c => c <> 0) t).
Abbreviation line := (line t rest).
Abbreviation es := (es t).
Abbreviation on := (on t).
Abbreviation resolve := (map_cmd (slice t)).

Lemma on_length s u : on s u -> (length (trim u) <= es)%nat.
Proof. intros (v & Hv & <-). pose proof (at_length _ _ _ Hv). pose proof (trim_length v). lia. Qed.

Lemma get_word s w v (Q : Z * nat * nat -> nat -> Prop) :
  word_ok w -> on s (show_word w ++ v) ->
  (forall q e s', slice t (q, e) = w -> on s' v -> Q (97, q, e) s') -> wp (gettoken line es) Q s.
Proof.
  intros Hw Hs HQ. unfold show_word in Hs. rewrite <- app_assoc in Hs. cbn [app] in Hs.
  eapply (gettoken_wp t rest Ht); [done|]. rewrite word_trim, word_tokenize by done. cbn [fst snd].
  intros q s' Hq Hs'. apply HQ; [by eapply span_slice|]. rewrite drop_app_length in Hs'. by eapply on_trim.
Qed.

Lemma get_symbol c s v (Q : Z * nat * nat -> nat -> Prop) :
  in_set (codes "|();&<") c = true -> on s (c :: v) -> (forall q e s', on s' v -> Q (c, q, e) s') -> wp (gettoken line es) Q s.
Proof.
  intros Hc Hs HQ. eapply (gettoken_wp t rest Ht); [done|].
  assert (in_set whitespace c = false) as Hw.
  { unfold in_set in Hc. apply existsb_exists in Hc as (d & Hd & ->%Z.eqb_eq). cbn in Hd. intuition (subst; done). }
  cbn [trim]. rewrite Hw. cbn [tokenize]. rewrite Hc. cbn [fst snd]. intros q s' _ Hs'. by apply HQ.
Qed.

Lemma get_output s v (Q : Z * nat * nat -> nat -> Prop) :
  hd 0 v <> 62 -> on s (62 :: v) -> (forall q e s', on s' v -> Q (62, q, e) s') -> wp (gettoken line es) Q s.
Proof.
  intros Hv Hs HQ. eapply (gettoken_wp t rest Ht); [done|]. change (trim (62 :: v)) with (62 :: v).
  unfold tokenize. change (in_set (codes "|();&<") 62) with false. cbn iota. change (62 =? 62) with true. cbn iota.
  rewrite (proj2 (Z.eqb_neq _ _) Hv). cbn [fst snd]. intros q s' _ Hs'. by apply HQ.
Qed.

Lemma peek_text toks s v b (Q : bool -> nat -> Prop) :
  on s v -> starts toks (trim v) = b -> (forall s', on s' v -> Q b s') -> wp (peek line es toks) Q s.
Proof. intros Hs <- HQ. by eapply (peek_wp t rest Ht). Qed.

(** ** Redirections *)

Definition redir : Type := word * Z * Z.
Definition redir_wf (r : redir) : Prop := let '(w, m, d) := r in word_ok w /\ redir_ok m d.
Definition wrap (c : cmd word) (rs : list redir) : cmd word := foldl (fun c r => let '(w, m, d) := r in REDIR c w m d) c rs.
Definition show_redirs (rs : list redir) : list Z := concat (map (fun r => let '(w, _, d) := r in show_redir w d) rs).

Lemma show_redirs_starts toks rs v :
  in_set toks 60 = false -> in_set toks 62 = false -> starts toks (trim v) = false -> starts toks (trim (show_redirs rs ++ v)) = false.
Proof. intros H1 H2 Hv. destruct rs as [|[[w m] d] rs]; [done|]. cbn. by destruct (d =? 0). Qed.

Lemma show_redirs_cons w m d (rs : list redir) v :
  show_redirs ((w, m, d) :: rs) ++ v = (if d =? 0 then 60 else 62) :: show_word w ++ (show_redirs rs ++ v).
Proof. unfold show_redirs. cbn. by rewrite <- !app_assoc. Qed.

Lemma word_hd w v : word_ok w -> hd 0 (show_word w ++ v) <> 62.
Proof.
  intros [Hne Hp]. destruct w as [|c w]; [done|]. apply Forall_cons in Hp as [Hc _]. cbn. intros ->. done.
Qed.

Lemma redirs_show rs n c s v (Q : pcmd -> nat -> Prop) :
  Forall redir_wf rs -> (length rs < n)%nat -> on s (show_redirs rs ++ v) -> starts (codes "<>") (trim v) = false ->
  (forall c' s', on s' v -> resolve c' = wrap (resolve c) rs -> (rs = [] -> c' = c) -> Q c' s') ->
  wp (redirs_loop line es n c) Q s.
Proof.
  revert rs c s. induction n as [|n IH]; intros rs c s Hrs Hn Hs Hv HQ; [lia|]. cbn [redirs_loop]. apply wp_bind.
  destruct rs as [|[[w m] d] rs].
  - eapply peek_text; [done|done|]. intros s' Hs'. apply wp_ret. by apply HQ.
  - apply Forall_cons in Hrs as [[Hw Hmd] Hrs]. cbn in Hn.
    rewrite show_redirs_cons in Hs.
    eapply peek_text with (b := true); [exact Hs|by destruct (d =? 0)|]. intros s1 Hs1. apply wp_bind.
    destruct Hmd as [[-> ->]|[-> ->]]; [change (0 =? 0) with true in Hs1|change (1 =? 0) with false in Hs1].
    + eapply (get_symbol 60); [done|done|]. intros q e s2 Hs2. apply wp_bind. eapply get_word; [done|done|].
      intros q2 e2 s3 Hq2 Hs3. change (97 =? 97) with true. cbn [negb]. change (60 =? 60) with true. cbn iota.
      eapply (IH rs); [done|lia|done|done|]. intros c' s' Hs' Hc' _. apply HQ; [done| |done]. rewrite Hc'. unfold wrap, redircmd. cbn [map_cmd foldl]. by rewrite Hq2.
    + eapply get_output; [by apply word_hd|done|]. intros q e s2 Hs2. apply wp_bind. eapply get_word; [done|done|].
      intros q2 e2 s3 Hq2 Hs3. change (97 =? 97) with true. cbn [negb]. change (62 =? 60) with false. change (62 =? 62) with true. cbn iota.
      eapply (IH rs); [done|lia|done|done|]. intros c' s' Hs' Hc' _. apply HQ; [done| |done]. rewrite Hc'. unfold wrap, redircmd. cbn [map_cmd foldl]. by rewrite Hq2.
Qed.

Lemma show_redirs_length rs s v : on s (show_redirs rs ++ v) -> (length rs < S es)%nat.
Proof.
  intros Hs%on_length. assert (length rs <= length (show_redirs rs))%nat as Hl.
  { clear. induction rs as [|[[w m] d] rs IH]; [done|].
    rewrite <- (app_nil_r (show_redirs _)), show_redirs_cons, app_nil_r. cbn. rewrite length_app. lia. }
  destruct rs as [|r rs]; [cbn; lia|].
  assert (trim (show_redirs (r :: rs) ++ v) = show_redirs (r :: rs) ++ v) as E by (destruct r as [[w m] d]; cbn; by destruct (d =? 0)).
  rewrite E, length_app in Hs. lia.
Qed.

Lemma parseredirs_show rs c s v (Q : pcmd -> nat -> Prop) :
  Forall redir_wf rs -> on s (show_redirs rs ++ v) -> starts (codes "<>") (trim v) = false ->
  (forall c' s', on s' v -> resolve c' = wrap (resolve c) rs -> (rs = [] -> c' = c) -> Q c' s') ->
  wp (parseredirs line es c) Q s.
Proof. intros. eapply redirs_show; [done|by eapply show_redirs_length|done|done|done]. Qed.

(** ** Simple commands *)

Lemma args_end n r argc s v (Q : pcmd -> nat -> Prop) :
  follow3 v -> on s v -> (forall s', on s' v -> Q r s') -> wp (args_loop line es (S n) r argc) Q s.
Proof.
  intros Hv Hs HQ. cbn [args_loop]. apply wp_bind. destruct Hv as [Hv|Hv].
  - eapply peek_text with (b := false); [done|by rewrite Hv|]. intros s1 Hs1. apply wp_bind.
    eapply (gettoken_wp t rest Ht); [done|]. rewrite Hv. cbn [tokenize fst snd]. intros q s2 _ Hs2. apply wp_ret, HQ.
    eapply on_trim; [exact Hs2|by rewrite Hv].
  - eapply peek_text with (b := true); [done|done|]. intros s1 Hs1. apply wp_ret. by apply HQ.
Qed.

Lemma show_args_cons w a v : show_args (w :: a) ++ v = show_word w ++ (show_args a ++ v).
Proof. unfold show_args. cbn [map concat]. by rewrite <- app_assoc. Qed.

Lemma args_show a n ws s rs v (Q : pcmd -> nat -> Prop) :
  Forall word_ok a -> Forall redir_wf rs -> a <> [] -> (length a < n)%nat -> (length ws + length a < MAXARGS)%nat -> follow3 v ->
  on s (show_args a ++ show_redirs rs ++ v) ->
  (forall c' s', on s' v -> resolve c' = wrap (EXEC (map (slice t) ws ++ a)) rs -> Q c' s') ->
  wp (args_loop line es n (EXEC ws) (length ws)) Q s.
Proof.
  revert n ws s. induction a as [|w a IH]; intros n ws s Ha Hrs Hne Hn Hl Hv Hs HQ; [done|]. destruct n as [|n]; [lia|].
  apply Forall_cons in Ha as [Hw Ha]. cbn in Hn, Hl.
  rewrite show_args_cons in Hs.
  cbn [args_loop]. apply wp_bind. eapply peek_text with (b := false); [done| |].
  { unfold show_word. rewrite <- app_assoc. apply word_starts; [done|repeat constructor; set_solver]. }
  intros s1 Hs1. apply wp_bind. eapply get_word; [done|done|]. intros q e s2 Hq Hs2. change (97 =? 0) with false.
  change (97 =? 97) with true. cbn [negb at_exec]. cbv zeta. rewrite (proj2 (Nat.leb_gt _ _)) by lia. apply wp_bind.
  assert (starts (codes "<>") (trim v) = false) as Hv' by (eapply ends_starts; [done|repeat constructor]).
  destruct a as [|w' a].
  - eapply (parseredirs_show rs _ _ v); [done|exact Hs2|done|]. intros c' s3 Hs3 Hc' _. destruct n as [|n]; [cbn in Hn; lia|].
    eapply args_end; [done|done|]. intros s4 Hs4. apply HQ; [done|]. rewrite Hc'. cbn [map_cmd]. by rewrite map_app, <- Hq.
  - eapply (parseredirs_show []); [constructor|exact Hs2| |].
    { apply Forall_cons in Ha as [Hw' _]. rewrite show_args_cons. unfold show_word at 1. rewrite <- app_assoc.
      apply word_starts; [done|repeat constructor; set_solver]. }
    intros c' s3 Hs3 _ E. rewrite (E eq_refl). replace (S (length ws)) with (length (ws ++ [(q, e)])) by (rewrite length_app; cbn; lia).
    eapply IH; [done|done|done|lia|rewrite length_app; cbn in *; lia|done|done|].
    intros c2 s4 Hs4 Hc2. apply HQ; [done|]. rewrite Hc2, map_app, <- app_assoc. cbn [map app]. by rewrite Hq.
Qed.

(** ** Commands *)

(** The parsers read back what the printer writes, whatever may follow. *)
Definition reads0 (c : cmd word) : Prop := forall v n s, follow0 v -> on s (show 0 c ++ v) ->
  (4 * length (show 0 c ++ v) + 3 < n)%nat -> wp (parseline line es n) (fun c' s' => on s' v /\ resolve c' = c) s.
Definition reads2 (c : cmd word) : Prop := forall v n s, follow2 v -> on s (show 2 c ++ v) ->
  (4 * length (show 2 c ++ v) + 2 < n)%nat -> wp (parsepipe line es n) (fun c' s' => on s' v /\ resolve c' = c) s.
Definition reads3 (c : cmd word) : Prop := forall v n s, follow3 v -> on s (show 3 c ++ v) ->
  (4 * length (show 3 c ++ v) + 1 < n)%nat -> wp (parseexec line es n) (fun c' s' => on s' v /\ resolve c' = c) s.

(** A chain of [&]s and a chain of redirections, around a command that is neither. *)
Definition back_n (k : nat) (c : cmd word) : cmd word := Nat.iter k BACK c.
Definition reads1 (c : cmd word) : Prop :=
  exists k b, c = back_n k b /\ show 1 c = show 2 b ++ replicate k 38 /\ reads2 b.
Definition reads_redir (c : cmd word) : Prop :=
  exists b rs, c = wrap b rs /\ show 3 c = show 3 b ++ show_redirs rs /\ Forall redir_wf rs /\
    ((exists a, b = EXEC a /\ cmd_ok b) \/ (show 3 b = 40 :: show 0 b ++ [41] /\ reads0 b)).

Lemma exec_reads a rs v n s :
  cmd_ok (EXEC a) -> Forall redir_wf rs -> follow3 v -> on s (show_args a ++ show_redirs rs ++ v) ->
  wp (parseexec line es (S n)) (fun c' s' => on s' v /\ resolve c' = wrap (EXEC a) rs) s.
Proof.
  intros [Ha Hl] Hrs Hv Hs. cbn [parseexec]. apply wp_bind.
  assert (starts (codes "<>") (trim v) = false /\ starts (codes "(") (trim v) = false) as [Hv1 Hv2]
    by (split; (eapply ends_starts; [done|repeat constructor])).
  destruct a as [|w a].
  - eapply peek_text with (b := false); [done|by apply show_redirs_starts|]. intros s1 Hs1. apply wp_bind.
    eapply (parseredirs_show rs _ _ v); [done|exact Hs1|done|]. intros c' s2 Hs2 Hc' _. by eapply args_end.
  - pose proof (on_length _ _ Hs) as Hlen. rewrite show_args_cons in *. apply Forall_cons in Ha as Ha'. destruct Ha' as [Hw Ha'].
    assert (forall toks, Forall (fun d => d ∈ symbols) toks -> starts toks (trim (show_word w ++ show_args a ++ show_redirs rs ++ v)) = false) as Hst.
    { intros toks Htk. unfold show_word. rewrite <- app_assoc. by apply word_starts. }
    eapply peek_text with (b := false); [done|apply Hst; repeat constructor; set_solver|]. intros s1 Hs1. apply wp_bind.
    eapply (parseredirs_show []); [constructor|exact Hs1|apply Hst; repeat constructor; set_solver|]. intros c' s2 Hs2 _ E. rewrite (E eq_refl).
    eapply (args_show (w :: a) _ []); [done|done|done| |exact Hl|done|by rewrite show_args_cons|done].
    unfold show_word in Hlen. rewrite <- app_assoc, word_trim, !length_app in Hlen by done. cbn in *.
    assert (length a <= length (show_args a))%nat; [|lia].
    clear. induction a as [|x a IH]; [done|]. rewrite <- (app_nil_r (show_args _)), show_args_cons, app_nil_r.
    unfold show_word. rewrite !length_app. cbn. lia.
Qed.

Lemma block_reads b rs v n s :
  reads0 b -> Forall redir_wf rs -> follow3 v -> on s (40 :: show 0 b ++ 41 :: show_redirs rs ++ v) ->
  (4 * length (40 :: show 0 b ++ 41 :: show_redirs rs ++ v)%Z + 1 < n)%nat ->
  wp (parseexec line es n) (fun c' s' => on s' v /\ resolve c' = wrap b rs) s.
Proof.
  intros Hb Hrs Hv Hs Hn. destruct n as [|[|n]]; [lia|lia|]. cbn [parseexec]. apply wp_bind.
  eapply peek_text with (b := true); [done|done|]. intros s1 Hs1. cbn [parseblock]. apply wp_bind.
  eapply peek_text with (b := true); [done|done|]. intros s2 Hs2. cbn [negb]. apply wp_bind.
  eapply (get_symbol 40); [done|done|]. intros q e s3 Hs3. apply wp_bind. eapply wp_mono; [eapply Hb; [|exact Hs3|]|].
  - by right.
  - cbn [length] in Hn. lia.
  - intros c s4 [Hs4 Hc]. apply wp_bind. eapply peek_text with (b := true); [done|done|]. intros s5 Hs5. cbn [negb]. apply wp_bind.
    eapply (get_symbol 41); [done|done|]. intros q2 e2 s6 Hs6.
    eapply (parseredirs_show rs); [done|done|eapply ends_starts; [done|repeat constructor]|].
    intros c' s7 Hs7 Hc' _. split; [done|]. by rewrite Hc', Hc.
Qed.

Lemma redir_reads3 c : reads_redir c -> reads3 c.
Proof.
  intros (b & rs & -> & E & Hrs & Hb) v n s Hv. rewrite E, <- app_assoc. intros Hs Hn. destruct Hb as [(a & -> & Ha)|[Eb Hb]].
  - destruct n as [|n]; [lia|]. by apply exec_reads.
  - rewrite Eb in *. cbn [app] in *. rewrite <- app_assoc in *. by apply block_reads.
Qed.

(** A command that is not a pipeline itself. *)
Lemma part_reads2 c : show 2 c = show 3 c -> reads3 c -> reads2 c.
Proof.
  intros E H3 v n s Hv. rewrite E. intros Hs Hn. destruct n as [|n]; [lia|]. cbn [parsepipe]. apply wp_bind.
  eapply wp_mono; [apply (H3 v); [follows|done|lia]|]. intros c' s1 [Hs1 Hc]. apply wp_bind.
  eapply peek_text with (b := false); [done|eapply ends_starts; [done|repeat constructor]|]. intros s2 Hs2. by apply wp_ret.
Qed.

Lemma pipe_reads2 l r : reads3 l -> reads2 r -> reads2 (PIPE l r).
Proof.
  intros Hl Hr v n s Hv Hs Hn. change (show 2 (PIPE l r)) with (show 3 l ++ 124 :: show 2 r) in *.
  rewrite <- app_assoc in *. cbn [app] in *. destruct n as [|n]; [lia|]. cbn [parsepipe]. apply wp_bind.
  eapply wp_mono; [eapply Hl; [|exact Hs|lia]; by right|]. intros c s1 [Hs1 Hc]. apply wp_bind.
  eapply peek_text with (b := true); [done|done|]. intros s2 Hs2. apply wp_bind.
  eapply (get_symbol 124); [done|done|]. intros q e s3 Hs3. apply wp_bind. rewrite length_app in Hn. cbn [length] in Hn.
  eapply wp_mono; [by eapply Hr; [|exact Hs3|lia]|]. intros c2 s4 [Hs4 Hc2]. apply wp_ret. split; [done|]. cbn. by rewrite Hc, Hc2.
Qed.

Lemma back_reads k n c s v (Q : pcmd -> nat -> Prop) :
  (k < n)%nat -> on s (replicate k 38 ++ v) -> starts (codes "&") (trim v) = false ->
  (forall c' s', on s' v -> resolve c' = back_n k (resolve c) -> Q c' s') -> wp (back_loop line es n c) Q s.
Proof.
  revert k c s. induction n as [|n IH]; intros k c s Hk Hs Hv HQ; [lia|]. cbn [back_loop]. apply wp_bind. destruct k as [|k].
  - eapply peek_text with (b := false); [exact Hs|done|]. intros s1 Hs1. apply wp_ret. by apply HQ.
  - eapply peek_text with (b := true); [exact Hs|done|]. intros s1 Hs1. apply wp_bind.
    eapply (get_symbol 38); [done|exact Hs1|]. intros q e s2 Hs2. eapply (IH k); [lia|done|done|].
    intros c' s' Hs' Hc'. apply HQ; [done|]. rewrite Hc'. symmetry. apply Nat.iter_succ_r.
Qed.

Lemma elem_reads c v n s (k : pcmd -> M nat pcmd) (Q : pcmd -> nat -> Prop) :
  reads1 c -> follow1 v -> on s (show 1 c ++ v) -> (4 * length (show 1 c ++ v) + 2 < n)%nat ->
  (forall c' s', on s' v -> resolve c' = c -> wp (k c') Q s') ->
  wp (let* x := parsepipe line es n in let* y := back_loop line es (S es) x in k y) Q s.
Proof.
  intros (j & b & -> & E & Hb) Hv. rewrite E, <- app_assoc. intros Hs Hn HQ. apply wp_bind.
  eapply wp_mono; [eapply Hb; [|exact Hs|lia]|].
  { destruct j as [|j]; [cbn; follows|by right]. }
  intros c' s1 [Hs1 Hc]. apply wp_bind. pose proof (on_length _ _ Hs1) as Hl.
  eapply (back_reads j); [|done|eapply ends_starts; [done|repeat constructor]|].
  - destruct j as [|j]; [lia|]. change (trim (replicate (S j) 38 ++ v)) with (replicate (S j) 38 ++ v) in Hl.
    rewrite length_app, length_replicate in Hl. lia.
  - intros c2 s2 Hs2 Hc2. apply HQ; [done|]. by rewrite Hc2, Hc.
Qed.

Lemma elem_reads0 c : show 0 c = show 1 c -> reads1 c -> reads0 c.
Proof.
  intros E H1 v n s Hv. rewrite E. intros Hs Hn. destruct n as [|n]; [lia|]. cbn [parseline].
  eapply elem_reads; [done|follows|exact Hs|lia|]. intros c' s1 Hs1 Hc. apply wp_bind.
  eapply peek_text with (b := false); [done|eapply ends_starts; [done|repeat constructor]|]. intros s2 Hs2. by apply wp_ret.
Qed.

Lemma list_reads0 l r : reads1 l -> reads0 r -> reads0 (LIST l r).
Proof.
  intros Hl Hr v n s Hv Hs Hn. change (show 0 (LIST l r)) with (show 1 l ++ 59 :: show 0 r) in *.
  rewrite <- app_assoc in *. cbn [app] in *. destruct n as [|n]; [lia|]. cbn [parseline].
  eapply elem_reads; [done| |exact Hs|lia|]; [by right|]. intros c s1 Hs1 Hc. apply wp_bind.
  eapply peek_text with (b := true); [done|done|]. intros s2 Hs2. apply wp_bind.
  eapply (get_symbol 59); [done|done|]. intros q e s3 Hs3. apply wp_bind. rewrite length_app in Hn. cbn [length] in Hn.
  eapply wp_mono; [by eapply Hr; [|exact Hs3|lia]|]. intros c2 s4 [Hs4 Hc2]. apply wp_ret. split; [done|]. cbn. by rewrite Hc, Hc2.
Qed.

Lemma reads2_1 c : show 1 c = show 2 c -> reads2 c -> reads1 c.
Proof. intros E H. exists 0%nat, c. by rewrite E, app_nil_r. Qed.

Lemma reads0_redir c : show 3 c = 40 :: show 0 c ++ [41] -> reads0 c -> reads_redir c.
Proof. intros E H. exists c, []. split_and!; [done|by rewrite app_nil_r|constructor|by right]. Qed.

Lemma all_reads c : cmd_ok c -> reads0 c /\ reads1 c /\ reads2 c /\ reads3 c /\ reads_redir c.
Proof.
  induction c as [a|c IH w m d|l IHl r IHr|l IHl r IHr|c IH]; intros Hok.
  - assert (reads_redir (EXEC a)) as H.
    { exists (EXEC a), []. split_and!; [done|by rewrite app_nil_r|constructor|left; by exists a]. }
    pose proof (redir_reads3 _ H) as H3. pose proof (part_reads2 (EXEC a) eq_refl H3) as H2. pose proof (reads2_1 (EXEC a) eq_refl H2) as H1.
    pose proof (elem_reads0 (EXEC a) eq_refl H1). done.
  - destruct Hok as (Hc & Hw & Hmd). destruct (IH Hc) as (_ & _ & _ & _ & b & rs & -> & E & Hrs & Hb).
    assert (reads_redir (REDIR (wrap b rs) w m d)) as H.
    { exists b, (rs ++ [(w, m, d)]). split_and!; [by unfold wrap; rewrite foldl_app| |apply Forall_app; split; [done|by constructor]|done].
      cbn [show]. rewrite E, <- app_assoc. f_equal. unfold show_redirs. rewrite map_app, concat_app. cbn. by rewrite app_nil_r. }
    pose proof (redir_reads3 _ H) as H3. pose proof (part_reads2 (REDIR (wrap b rs) w m d) eq_refl H3) as H2. pose proof (reads2_1 (REDIR (wrap b rs) w m d) eq_refl H2) as H1.
    pose proof (elem_reads0 (REDIR (wrap b rs) w m d) eq_refl H1). done.
  - destruct Hok as [Hl Hr]. destruct (IHl Hl) as (_ & _ & _ & L3 & _), (IHr Hr) as (_ & _ & R2 & _).
    pose proof (pipe_reads2 _ _ L3 R2) as H2. pose proof (reads2_1 (PIPE l r) eq_refl H2) as H1. pose proof (elem_reads0 (PIPE l r) eq_refl H1) as H0.
    pose proof (reads0_redir (PIPE l r) eq_refl H0) as H. pose proof (redir_reads3 _ H). done.
  - destruct Hok as [Hl Hr]. destruct (IHl Hl) as (_ & L1 & _), (IHr Hr) as (R0 & _).
    pose proof (list_reads0 _ _ L1 R0) as H0. pose proof (reads0_redir (LIST l r) eq_refl H0) as H. pose proof (redir_reads3 _ H) as H3.
    pose proof (part_reads2 (LIST l r) eq_refl H3) as H2. pose proof (reads2_1 (LIST l r) eq_refl H2). done.
  - destruct (IH Hok) as (_ & (k & b & -> & E & Hb) & _).
    assert (reads1 (BACK (back_n k b))) as H1.
    { exists (S k), b. split_and!; [done| |done]. change (show 1 (BACK (back_n k b))) with (show 1 (back_n k b) ++ [38]).
      by rewrite E, <- app_assoc, <- replicate_cons_app. }
    pose proof (elem_reads0 (BACK (back_n k b)) eq_refl H1) as H0. pose proof (reads0_redir (BACK (back_n k b)) eq_refl H0) as H. pose proof (redir_reads3 _ H) as H3.
    pose proof (part_reads2 (BACK (back_n k b)) eq_refl H3) as H2. done.
Qed.

End text.

(** ** The round trip *)

Lemma plain_all_nonzero w : Forall (fun c => plain c = true) w -> Forall (fun c => c <> 0) w.
Proof. intros H. eapply Forall_impl; [exact H|]. apply plain_nonzero. Qed.

Lemma show_nonzero lvl c : cmd_ok c -> Forall (fun c => c <> 0) (show lvl c).
Proof.
  assert (forall b u, Forall (fun c => c <> 0) u -> Forall (fun c => c <> 0) (paren b u)) as Hp.
  { intros [] u Hu; [|done]. apply Forall_cons. split; [done|]. apply Forall_app. by split; [|repeat constructor]. }
  assert (forall w, word_ok w -> Forall (fun c => c <> 0) (show_word w)) as Hw.
  { intros w [_ Hw]. apply Forall_app. split; [by apply plain_all_nonzero|by repeat constructor]. }
  revert lvl. induction c as [a|c IH w m d|l IHl r IHr|l IHl r IHr|c IH]; intros lvl Hok; cbn [show cmd_ok] in *.
  - destruct Hok as [Ha _]. unfold show_args. induction Ha; [constructor|]. apply Forall_app. auto.
  - destruct Hok as (Hc & Hx & _). apply Forall_app. split; [auto|]. apply Forall_cons. split; [by destruct (d =? 0)|auto].
  - destruct Hok. apply Hp, Forall_app. split; [auto|]. apply Forall_cons. auto.
  - destruct Hok. apply Hp, Forall_app. split; [auto|]. apply Forall_cons. auto.
  - apply Hp, Forall_app. split; [auto|by repeat constructor].
Qed.

Lemma map_cmd_ext {W X} (f g : W -> X) c : (forall w, w ∈ words c -> f w = g w) -> map_cmd f c = map_cmd g c.
Proof.
  induction c as [a|c IH w m d|l IHl r IHr|l IHl r IHr|c IH]; cbn [words map_cmd]; intros H.
  - f_equal. apply map_ext_in. intros x Hx. apply H. by apply list_elem_of_In.
  - f_equal; [apply IH; set_solver|apply H; set_solver].
  - f_equal; [apply IHl|apply IHr]; set_solver.
  - f_equal; [apply IHl|apply IHr]; set_solver.
  - f_equal. auto.
Qed.

(** C17. The shell runs the command that was typed.  Any command built from words of
    ordinary characters, redirections, pipes, lists and background jobs can be written
    as a line; of that line, with whatever is behind it in the buffer, the child the
    shell forks makes of [runcmd] exactly the call for that command. *)
Theorem run_line_show c rest : cmd_ok c -> run_line (show 0 c ++ 0 :: rest) = runcmd c.
Proof.
  intros Hok. set (t := show 0 c). assert (Forall (fun c => c <> 0) t) as Ht by by apply show_nonzero.
  assert (on t 0 t) as H0 by (apply at_on; split; [lia|done]).
  assert (on t 0 (show 0 c ++ [])) as H0' by by rewrite app_nil_r.
  pose proof (proj1 (all_reads t rest Ht c Hok) [] (4 * length t + 4)%nat 0%nat (or_introl eq_refl) H0') as Hp.
  rewrite app_nil_r in Hp. fold t in Hp. specialize (Hp ltac:(lia)).
  pose proof (proj1 (parse_wpe t rest Ht (4 * length t + 4)%nat 0%nat t H0) ltac:(lia)) as Hs.
  unfold run_line, parsecmd. rewrite buf_strlen_line by done. cbv zeta. unfold wp, wpe, line, es, bind in *.
  destruct (parseline _ _ _ _) as [c' s'| | |]; try done. cbn [obind]. destruct Hp as [Hs' Hc'], Hs as [Hsp _].
  pose proof (on_skip t rest _ _ Hs') as Hend. cbn [trim] in Hend. unfold peek, bind, gets, modify, ret. cbn [obind].
  destruct Hend as [Hle Hd]. apply (f_equal length) in Hd. rewrite length_drop in Hd. cbn in Hd. unfold es, line in *.
  rewrite (proj2 (Nat.eqb_eq _ _)) by lia. cbn [negb]. f_equal. rewrite <- Hc'. apply map_cmd_ext. intros w Hw.
  by apply (nulterminate_cstring t rest).
Qed.
