(* ===== verification/ShRun.v ===== *)
(** * What the shell's processes are connected to

    The processes that a command line starts, with their descriptors as the system
    calls leave them, against what the line says: each runs with its standard
    descriptors connected as asked, and with no other descriptor open. *)

From stdpp Require Import gmap.
From S2P Require Import Prelude Strings Monad Sysfile Sh ShInv ShPrint.

(** ** Descriptors *)

(** The calls a process and its ancestors made that tell processes and pipes apart:
    the results of [fork], and -2 for a [pipe]. *)
Definition history : Type := list Z.

Inductive object : Type :=
  | Std (n : Z)
  | OFile (path : word) (mode : Z)
  | PipeR (h : history)
  | PipeW (h : history).
Abbreviation fdtable := (gmap Z object).

Definition NOFILES : Z := 16.

(** [fdalloc] returns the first free slot. *)
Definition lowest (f : fdtable) (n : Z) : Prop := 0 <= n < NOFILES /\ f !! n = None /\ forall j, 0 <= j < n -> is_Some (f !! j).
Definition no_free (f : fdtable) : Prop := forall j, 0 <= j < NOFILES -> is_Some (f !! j).

(** [reaches h f pr p a f']: a process of the program [pr], or one it forks, comes to
    call [exec(p, a)] with the descriptors [f']. *)
Inductive reaches : history -> fdtable -> prog -> word -> list word -> fdtable -> Prop :=
  | R_exec h f p a k : reaches h f (Exec p a k) p a f
  | R_exec_fails h f p0 a0 k p a f' : reaches h f k p a f' -> reaches h f (Exec p0 a0 k) p a f'
  | R_printf h f d m k p a f' : reaches h f k p a f' -> reaches h f (Printf d m k) p a f'
  | R_close h f d k p a f' : reaches h (delete d f) k p a f' -> reaches h f (Close d k) p a f'
  | R_dup h f d o n k p a f' :
      f !! d = Some o -> lowest f n -> reaches h (<[n := o]> f) (k n) p a f' -> reaches h f (Dup d k) p a f'
  | R_dup_fails h f d k p a f' : f !! d = None \/ no_free f -> reaches h f (k (-1)) p a f' -> reaches h f (Dup d k) p a f'
  | R_open h f w m n k p a f' :
      lowest f n -> reaches h (<[n := OFile w m]> f) (k n) p a f' -> reaches h f (Open w m k) p a f'
  | R_open_fails h f w m k p a f' : reaches h f (k (-1)) p a f' -> reaches h f (Open w m k) p a f'
  | R_pipe h f n0 n1 k p a f' :
      lowest f n0 -> lowest (<[n0 := PipeR h]> f) n1 ->
      reaches (-2 :: h) (<[n1 := PipeW h]> (<[n0 := PipeR h]> f)) (k (Some (n0, n1))) p a f' -> reaches h f (Pipe k) p a f'
  | R_pipe_fails h f k p a f' : reaches h f (k None) p a f' -> reaches h f (Pipe k) p a f'
  | R_fork h f pid k p a f' : -1 <= pid -> reaches (pid :: h) f (k pid) p a f' -> reaches h f (Fork k) p a f'
  | R_wait h f k p a f' : reaches h f k p a f' -> reaches h f (Wait k) p a f'
  | R_chdir h f w r k p a f' : reaches h f (k r) p a f' -> reaches h f (Chdir w k) p a f'.

(** What the command says: [wired h c f p a f'] if it runs [p] with arguments [a],
    connected to [f'], when it is itself connected to [f].  The two sides of a pipe
    are named alike. *)
Inductive wired : history -> cmd word -> fdtable -> word -> list word -> fdtable -> Prop :=
  | W_exec h p a f : wired h (EXEC (p :: a)) f p (p :: a) f
  | W_redir h c w m d f p a f' : wired h c (<[d := OFile w m]> f) p a f' -> wired h (REDIR c w m d) f p a f'
  | W_left h l r f p a f' : wired (0 :: -2 :: h) l (<[1 := PipeW h]> f) p a f' -> wired h (PIPE l r) f p a f'
  | W_right h l r f pid p a f' :
      0 < pid -> wired (0 :: pid :: -2 :: h) r (<[0 := PipeR h]> f) p a f' -> wired h (PIPE l r) f p a f'
  | W_first h l r f p a f' : wired (0 :: h) l f p a f' -> wired h (LIST l r) f p a f'
  | W_second h l r f pid p a f' : 0 < pid -> wired (pid :: h) r f p a f' -> wired h (LIST l r) f p a f'
  | W_back h c f p a f' : wired (0 :: h) c f p a f' -> wired h (BACK c) f p a f'.

(** Just the standard descriptors are open. *)
Definition std (f : fdtable) : Prop := forall j, is_Some (f !! j) <-> 0 <= j <= 2.

Lemma std_insert f d o : std f -> 0 <= d <= 2 -> std (<[d := o]> f).
Proof.
  intros Hf Hd j. destruct (decide (j = d)) as [->|Hne]; [rewrite lookup_insert_eq; by split; [intros _|eauto]|].
  rewrite lookup_insert_ne by done. apply Hf.
Qed.

Lemma std_none f j : std f -> 3 <= j -> f !! j = None.
Proof. intros Hf Hj. apply eq_None_not_Some. rewrite (Hf j). lia. Qed.

Lemma lowest_unique f n m : lowest f n -> lowest f m -> n = m.
Proof.
  intros (H1 & H2 & H3) (K1 & K2 & K3). destruct (Z.lt_trichotomy n m) as [H|[H|H]]; [|done|].
  - destruct (K3 n) as [x Hx]; [lia|congruence].
  - destruct (H3 m) as [x Hx]; [lia|congruence].
Qed.

Lemma lowest_next f : std f -> lowest f 3.
Proof. intros Hf. split; [unfold NOFILES; lia|]. split; [by apply std_none|]. intros j Hj. apply Hf. lia. Qed.

(** The slot just closed is the first free one. *)
Lemma lowest_closed f d : (forall j, 0 <= j <= 2 -> is_Some (f !! j)) -> 0 <= d <= 2 -> lowest (delete d f) d.
Proof.
  intros Hf Hd. split; [unfold NOFILES; lia|]. split; [apply lookup_delete_eq|]. intros j Hj.
  rewrite lookup_delete_ne by lia. apply Hf. lia.
Qed.

(** ** Pipes *)

Definition piped_fds (h : history) (f : fdtable) : fdtable := <[4 := PipeW h]> (<[3 := PipeR h]> f).

Lemma piped_std h f j : std f -> 0 <= j <= 2 -> is_Some (piped_fds h f !! j).
Proof. intros Hf Hj. unfold piped_fds. rewrite !lookup_insert_ne by lia. by apply Hf. Qed.

(** [close(d); dup(e); close(p[0]); close(p[1]);] *)
Lemma move_fd h f d e o : std f -> 0 <= d <= 2 -> piped_fds h f !! e = Some o -> 3 <= e ->
  delete 4 (delete 3 (<[d := o]> (delete d (piped_fds h f)))) = <[d := o]> f.
Proof.
  intros Hf Hd He He3. rewrite insert_delete_eq. apply map_eq. intros j. unfold piped_fds.
  destruct (decide (j = 4)) as [->|H4]; [rewrite lookup_delete_eq, lookup_insert_ne by lia; symmetry; by apply std_none|].
  rewrite lookup_delete_ne by done.
  destruct (decide (j = 3)) as [->|H3]; [rewrite lookup_delete_eq, lookup_insert_ne by lia; symmetry; by apply std_none|].
  rewrite lookup_delete_ne by done. destruct (decide (j = d)) as [->|Hjd]; [by rewrite !lookup_insert_eq|].
  by rewrite !lookup_insert_ne.
Qed.

(** ** The theorem *)

(** The parser only redirects descriptors 0 and 1. *)
Fixpoint redirs_std {W} (c : cmd W) : Prop :=
  match c with
  | EXEC _ => True
  | REDIR c _ _ d => redirs_std c /\ (d = 0 \/ d = 1)
  | PIPE l r | LIST l r => redirs_std l /\ redirs_std r
  | BACK c => redirs_std c
  end.

Ltac run := match goal with H : reaches _ _ _ _ _ _ |- _ => inversion H; subst; clear H end.

Lemma fork1_reaches h f k p a f' :
  reaches h f (fork1 k) p a f' -> exists pid, 0 <= pid /\ reaches (pid :: h) f (k pid) p a f'.
Proof.
  intros H. unfold fork1 in H. run. destruct (Z.eqb_spec pid (-1)) as [->|]; [unfold sh_panic in *; do 2 run|].
  exists pid. split; [lia|done].
Qed.

Lemma dup_reaches h f d e k p a f' :
  (exists o, delete d f !! e = Some o) -> (forall j, 0 <= j <= 2 -> is_Some (f !! j)) -> 0 <= d <= 2 ->
  reaches h f (Close d (Dup e k)) p a f' -> exists o, delete d f !! e = Some o /\ reaches h (<[d := o]> (delete d f)) (k d) p a f'.
Proof.
  intros [o He] Hf Hd H. run. pose proof (lowest_closed _ _ Hf Hd) as Hlow. run.
  - match goal with H : lowest _ n |- _ => rewrite (lowest_unique _ _ _ H Hlow) in * end. eauto.
  - destruct Hlow as (H1 & H2 & _). destruct_or!; [congruence|].
    match goal with H : no_free _ |- _ => destruct (H d H1) as [x Hx]; congruence end.
Qed.

Lemma pipe_end_reaches h h0 f d e o k p a f' :
  std f -> 0 <= d <= 2 -> 3 <= e -> piped_fds h0 f !! e = Some o ->
  reaches h (piped_fds h0 f) (Close d (Dup e (fun _ => Close 3 (Close 4 k)))) p a f' -> reaches h (<[d := o]> f) k p a f'.
Proof.
  intros Hf Hd He Ho H.
  assert (delete d (piped_fds h0 f) !! e = Some o) as Ho' by (rewrite lookup_delete_ne by lia; done).
  apply dup_reaches in H as (o' & Ho2 & H); [|by exists o|intros j Hj; by apply piped_std|done].
  rewrite Ho' in Ho2. injection Ho2 as <-. do 2 run. by rewrite (move_fd h0 f d e o) in *.
Qed.

Lemma pipe_reaches h f l r p a f' :
  std f -> reaches h f (runcmd (PIPE l r)) p a f' ->
  reaches (0 :: -2 :: h) (<[1 := PipeW h]> f) (runcmd l) p a f' \/
  exists pid, 0 < pid /\ reaches (0 :: pid :: -2 :: h) (<[0 := PipeR h]> f) (runcmd r) p a f'.
Proof.
  intros Hf H. cbn [runcmd] in H. run; [|unfold sh_panic in *; do 2 run].
  match goal with H : lowest f n0 |- _ => rewrite (lowest_unique _ _ _ H (lowest_next _ Hf)) in * end.
  assert (lowest (<[3 := PipeR h]> f) 4) as Hlow4.
  { split; [unfold NOFILES; lia|]. split; [rewrite lookup_insert_ne by lia; by apply std_none|]. intros j Hj.
    destruct (decide (j = 3)) as [->|]; [rewrite lookup_insert_eq; eauto|]. rewrite lookup_insert_ne by done. apply Hf. lia. }
  match goal with H : lowest _ n1 |- _ => rewrite (lowest_unique _ _ _ H Hlow4) in * end. fold (piped_fds h f) in *.
  match goal with H : reaches _ _ (fork1 _) _ _ _ |- _ => apply fork1_reaches in H as (pid & Hpid & Hk) end.
  destruct (Z.eqb_spec pid 0) as [->|Hne].
  - left. apply (pipe_end_reaches _ h f 1 4 (PipeW h)) in Hk; [done|done|lia|lia|by apply lookup_insert_eq].
  - apply fork1_reaches in Hk as (pid2 & Hpid2 & Hk). destruct (Z.eqb_spec pid2 0) as [->|Hne2]; [|do 5 run].
    right. exists pid. split; [lia|].
    apply (pipe_end_reaches _ h f 0 3 (PipeR h)) in Hk; [done|done|lia|lia|by unfold piped_fds; rewrite lookup_insert_ne, lookup_insert_eq by lia].
Qed.

(** C27. Plumbing.  Started with the three standard descriptors, every program that a
    command line comes to execute, whatever the system calls return on the way, is one
    the command names, connected as the command says: to the file of the innermost
    redirection, and the two sides of a pipe to the two ends of the same pipe.  It has
    no other descriptor open, so that a pipe's reader sees the end of its input once
    the writers exit. *)
Theorem runcmd_plumbing c h f p a f' :
  redirs_std c -> std f -> reaches h f (runcmd c) p a f' -> wired h c f p a f' /\ std f'.
Proof.
  revert h f. induction c as [[|x argv]|c IH w m d|l IHl r IHr|l IHl r IHr|c IH]; intros h f Hc Hf H; cbn [runcmd redirs_std] in *.
  - run.
  - run; [by split; [constructor|]|]. do 2 run.
  - destruct Hc as [Hc Hd]. assert (0 <= d <= 2) as Hd' by (destruct Hd; lia). run. run.
    + match goal with H : lowest _ n |- _ => rewrite (lowest_unique _ _ _ H (lowest_closed _ d ltac:(intros j Hj; by apply Hf) Hd')) in * end.
      rewrite (proj2 (Z.ltb_ge _ _)), insert_delete_eq in * by lia.
      destruct (IH h (<[d := OFile w m]> f)) as [H1 H2]; [done|by apply std_insert|done|]. split; [by constructor|done].
    + cbn in *. do 2 run.
  - destruct Hc as [Hl Hr]. apply pipe_reaches in H as [H|(pid & Hpid & H)]; [| |done].
    + destruct (IHl (0 :: -2 :: h) (<[1 := PipeW h]> f)) as [H1 H2]; [done|by apply std_insert|done|]. split; [by constructor|done].
    + destruct (IHr (0 :: pid :: -2 :: h) (<[0 := PipeR h]> f)) as [H1 H2]; [done|by apply std_insert|done|].
      split; [by apply (W_right h l r f pid)|done].
  - destruct Hc as [Hl Hr]. apply fork1_reaches in H as (pid & Hpid & H). destruct (Z.eqb_spec pid 0) as [->|Hne].
    + destruct (IHl (0 :: h) f) as [H1 H2]; [done..|]. split; [by constructor|done].
    + run. destruct (IHr (pid :: h) f) as [H1 H2]; [done..|]. split; [apply (W_second h l r f pid); [lia|done]|done].
  - apply fork1_reaches in H as (pid & Hpid & H). destruct (Z.eqb_spec pid 0) as [->|Hne]; [|run].
    destruct (IH (0 :: h) f) as [H1 H2]; [done..|]. split; [by constructor|done].
Qed.

(** ** Witnesses *)

Definition demo_fds : fdtable := <[0 := Std 0]> (<[1 := Std 1]> (<[2 := Std 2]> ∅)).

Lemma demo_std : std demo_fds.
Proof.
  intros j. unfold demo_fds. destruct (decide (j = 0)) as [->|]; [rewrite lookup_insert_eq; split; [lia|eauto]|].
  rewrite lookup_insert_ne by done. destruct (decide (j = 1)) as [->|]; [rewrite lookup_insert_eq; split; [lia|eauto]|].
  rewrite lookup_insert_ne by done. destruct (decide (j = 2)) as [->|]; [rewrite lookup_insert_eq; split; [lia|eauto]|].
  rewrite lookup_insert_ne, lookup_empty by done. split; [by intros [? ?]|lia].
Qed.

(** ls | wc, and the line for it. *)
Definition demo_ls : word := codes "ls".
Definition demo_wc : word := codes "wc".
Definition demo_cmd : cmd word := PIPE (EXEC [demo_ls]) (EXEC [demo_wc]).

Lemma demo_cmd_ok : cmd_ok demo_cmd.
Proof. by repeat first [split | constructor]; cbn; unfold MAXARGS; try lia. Qed.

Lemma demo_reaches : reaches [] demo_fds (runcmd demo_cmd) demo_ls [demo_ls] (<[1 := PipeW []]> demo_fds).
Proof.
  apply (R_pipe _ _ 3 4); [apply lowest_next, demo_std| |].
  { split; [unfold NOFILES; lia|]. split; [done|]. intros j Hj.
    destruct (decide (j = 3)) as [->|]; [rewrite lookup_insert_eq; eauto|]. rewrite lookup_insert_ne by done. apply demo_std. lia. }
  apply (R_fork _ _ 0); [lia|]. cbn [Z.eqb]. apply R_close. apply (R_dup _ _ _ (PipeW []) 1); [done| |].
  { apply lowest_closed; [|lia]. intros j Hj. apply (piped_std []); [apply demo_std|done]. }
  do 2 apply R_close. fold (piped_fds [] demo_fds). rewrite (move_fd [] demo_fds 1 4 (PipeW [])); [apply R_exec|apply demo_std|lia|done|lia].
Qed.

Lemma runcmd_plumbing_witness :
  wired [] demo_cmd demo_fds demo_ls [demo_ls] (<[1 := PipeW []]> demo_fds) /\ std (<[1 := PipeW []]> demo_fds).
Proof. apply (runcmd_plumbing demo_cmd [] demo_fds); [by repeat split|apply demo_std|apply demo_reaches]. Defined.

Lemma run_line_show_witness : run_line (show 0 demo_cmd ++ [0]) = runcmd demo_cmd.
Proof. apply (run_line_show demo_cmd []). apply demo_cmd_ok. Defined.

Lemma parsecmd_words_witness :
  match parsecmd (codes "ls" ++ [0]) 0%nat with
  | Ok (c, buf') s =>
      s = 2%nat /\ length buf' = 3%nat /\
      forall w, w ∈ words c -> cstring buf' w = slice (codes "ls") w /\ slice (codes "ls") w <> [] /\
        Forall (fun c => plain c = true) (slice (codes "ls") w)
  | Panic _ => True
  | _ => False
  end.
Proof. apply (parsecmd_words (codes "ls") []). by repeat constructor. Defined.
