(* ===== verification/FsTx.v ===== *)
(** * Blocks within a transaction

    What fs.c relies on between [begin_op] and [end_op]: the buffer cache and the log
    together are an array of blocks that can be read and written, with some buffers
    held and a list of blocks recorded in the log. *)

From S2P Require Import Prelude Bytes Monad Machine ProcDefs ProcInv Proc KernDefs Sleeplock Bio BioInv Log LogInv LogCrash LogOps Fs.

(** Apart from the blocks they name, the logs agree. *)
Definition same_log (g g' : log_t) : Prop := set_lh_n 0 (set_lh_block [] g') = set_lh_n 0 (set_lh_block [] g).

(** Everything but processes woken up, the cache and the blocks the log names. *)
Record fframe (s s' : kstate) : Prop := {
  ff_kp : quiet (kp s) (kp s');
  ff_disk : disk s' = disk s;
  ff_log : same_log (klog s) (klog s');
  ff_sb : ksb s' = ksb s;
  ff_ic : icache s' = icache s;
  ff_ft : ftable s' = ftable s;
  ff_pipes : pipes s' = pipes s;
  ff_cons : cons s' = cons s;
  ff_ide : ide s' = ide s
}.

#[export] Instance fframe_preorder : PreOrder fframe.
Proof.
  split; [by split|]. intros s1 s2 s3 [A1 A2 A3 A4 A5 A6 A7 A8 A9] [B1 B2 B3 B4 B5 B6 B7 B8 B9].
  split; unfold same_log in *; try congruence. by transitivity (kp s2).
Qed.

Lemma bframe_fframe s s' : bframe s s' -> disk s' = disk s -> fframe s s'.
Proof. intros [] Hd. split; try done. unfold same_log. congruence. Qed.

Lemma same_log_fields g g' :
  same_log g g' -> l_start g' = l_start g /\ l_size g' = l_size g /\ l_outstanding g' = l_outstanding g /\ l_committing g' = l_committing g /\ l_dev g' = l_dev g.
Proof. destruct g, g'. unfold same_log. cbn. intros [=]. by subst. Qed.

Lemma fframe_start s s' : fframe s s' -> l_start (klog s') = l_start (klog s).
Proof. intros H. by destruct (same_log_fields _ _ (ff_log _ _ H)). Qed.

Lemma fframe_nblocks s s' : fframe s s' -> nblocks s' = nblocks s.
Proof. intros H. unfold nblocks. by rewrite (ff_disk _ _ H). Qed.

(** The most blocks a transaction may record: the log keeps one block for its header. *)
Definition log_limit : nat := 29.

Section tx.
Context {FU : Fuel} {BD : BlockDevice} {SD : SyncDevice} (p : nat).

(** Process [p] is in a transaction that has recorded the blocks [bs], and holds the
    buffers of [H], each with the block it is for. *)
Record tx (H : list (nat * Z)) (bs : list Z) (s : kstate) : Prop := {
  tx_ctx : kctx p [] s;
  tx_inv : exists l, bio_inv l s;
  tx_held : forall i b, (i, b) ∈ H ->
    (i < nbuf)%nat /\ holds_buf p i s /\ keyed b (bufs s !!! i) = true /\ b_refcnt (bufs s !!! i) = 1 /\
    (b_flags (bufs s !!! i) = 2 \/ b_flags (bufs s !!! i) = 6) /\
    (b_flags (bufs s !!! i) = 2 -> b_data (bufs s !!! i) = dblk s b);
  tx_free : forall i, (i < nbuf)%nat -> i ∉ H.*1 -> b_refcnt (bufs s !!! i) = 0;
  tx_nodup : NoDup H.*1;
  tx_pin : pinned bs s;
  tx_names : log_names bs (klog s);
  tx_once : NoDup bs;
  tx_range : Forall (data_block (l_start (klog s)) (nblocks s)) bs;
  tx_small : nblocks s < 2 ^ 31;
  tx_out : 1 <= l_outstanding (klog s);
  tx_size : 30 <= l_size (klog s)
}.

(** A held buffer has the current content of its block. *)
Lemma tx_data H bs s i b : tx H bs s -> (i, b) ∈ H -> b_data (bufs s !!! i) = blk s b.
Proof.
  intros Ht Hin. destruct (tx_inv _ _ _ Ht) as [l Hi]. destruct (tx_held _ _ _ Ht i b Hin) as (Hlt & _ & Hk & _ & Hf & _).
  symmetry. apply (blk_cached l); [done|done|]. unfold cached. rewrite Hk. destruct Hf as [-> | ->]; done.
Qed.

Lemma tx_range_held H bs s i b : tx H bs s -> (i, b) ∈ H -> 0 <= b < nblocks s.
Proof.
  intros Ht Hin. destruct (tx_inv _ _ _ Ht) as [l Hi]. destruct (tx_held _ _ _ Ht i b Hin) as (Hlt & _ & Hk & _).
  destruct (bi_buf _ _ Hi i Hlt) as (_ & _ & _ & _ & Hb & _). unfold keyed in Hk. zbool. subst b. by apply Hb.
Qed.

(** Some buffer can be recycled. *)
Lemma tx_room H bs s :
  tx H bs s -> (length bs + length H < nbuf)%nat -> exists i, (i < nbuf)%nat /\ busy (bufs s !!! i) = false.
Proof.
  intros Ht Hn. destruct (tx_inv _ _ _ Ht) as [l Hi].
  destruct (decide (Exists (fun i => busy (bufs s !!! i) = false) (seq 0 nbuf))) as [He|Hne].
  { apply Exists_exists in He as (i & Hin%elem_of_seq & Hb). exists i. split; [lia|done]. }
  exfalso. assert (forall i, (i < nbuf)%nat -> busy (bufs s !!! i) = true) as Hall.
  { intros i Hlt. apply not_false_iff_true. intros Hb. apply Hne, Exists_exists. exists i. split; [apply elem_of_seq; lia|done]. }
  set (D := filter (fun i => i ∉ H.*1) (seq 0 nbuf)).
  assert (forall i, i ∈ D -> (i < nbuf)%nat /\ b_flags (bufs s !!! i) = 6) as HD.
  { intros i. unfold D. rewrite list_elem_of_filter, elem_of_seq. intros [Hni Hlt]. split; [lia|].
    specialize (Hall i ltac:(lia)). unfold busy in Hall. rewrite (tx_free _ _ _ Ht) in Hall by (lia || done). cbn in Hall. by zbool. }
  assert (length D <= length bs)%nat.
  { rewrite <- (length_fmap (fun i => b_blockno (bufs s !!! i)) D). apply submseteq_length, NoDup_submseteq.
    - apply NoDup_fmap_2_strong; [|apply NoDup_filter, NoDup_seq]. intros i j Hi' Hj' E.
      destruct (HD i Hi') as [Hi1 Hi2], (HD j Hj') as [Hj1 Hj2].
      destruct (tx_pin _ _ _ Ht i Hi1 Hi2) as (b & _ & Hb), (tx_pin _ _ _ Ht j Hj1 Hj2) as (b' & _ & Hb').
      apply (bi_uniq _ _ Hi i j b); [done|done|done|]. unfold keyed in *. zbool. rewrite (proj2 (Z.eqb_eq _ _)) by done.
      apply Z.eqb_eq. congruence.
    - intros b Hb. apply list_elem_of_fmap in Hb as (i & -> & Hb). destruct (HD i Hb) as [Hi1 Hi2].
      destruct (tx_pin _ _ _ Ht i Hi1 Hi2) as (b & Hin & Hkey). unfold keyed in Hkey. zbool. by subst. }
  assert (nbuf <= length (H.*1 ++ D))%nat as Hle.
  { rewrite <- (length_seq nbuf 0). apply submseteq_length, NoDup_submseteq; [apply NoDup_seq|]. intros i Hin. apply elem_of_app.
    destruct (decide (i ∈ H.*1)); [by left|right]. unfold D. by apply list_elem_of_filter. }
  rewrite length_app, length_fmap in Hle. lia.
Qed.

Lemma tx_bread H bs s b (R : nat -> kstate -> Prop) :
  tx H bs s -> 0 <= b < nblocks s -> b ∉ H.*2 -> (length bs + length H < nbuf)%nat ->
  (forall i s1, tx ((i, b) :: H) bs s1 -> fframe s s1 -> (forall c, blk s1 c = blk s c) -> R i s1) ->
  wp (bread ROOTDEV b) R s.
Proof.
  intros Ht Hb HbH Hn HR. pose proof Ht as [Hk [l Hi] Hheld Hfree Hnd Hpin Hnm Hon Hrg Hsm Hout Hsz]. pose proof (bi_len _ _ Hi) as Hlen.
  assert (forall j, (j < nbuf)%nat -> keyed b (bufs s !!! j) = true -> b_refcnt (bufs s !!! j) = 0) as Hr0.
  { intros j Hj Hkj. apply Hfree; [done|]. intros (q & -> & Hq)%list_elem_of_fmap. destruct q as [q c]. cbn in *.
    destruct (Hheld q c Hq) as (_ & _ & Hkq & _). apply HbH. rewrite (keyed_fun _ _ _ Hkj Hkq). apply list_elem_of_fmap. by exists (q, c). }
  eapply bread_wp; [done|done|done| |].
  - split; [|by eapply tx_room]. intros i Hlt Hkey. pose proof (Hr0 i Hlt Hkey) as E. split; [|lia]. by apply (bi_buf _ _ Hi i Hlt).
  - intros i x Hlt Hp Hi' [Hd Hs]. pose proof (bread_got p l s i b x Hi Hlt Hr0 Hp) as Hg.
    assert (i ∉ H.*1) as HiH.
    { intros (q & -> & Hq)%list_elem_of_fmap. destruct q as [q c]. cbn in *. destruct (Hheld q c Hq) as (_ & _ & _ & Hr & _).
      destruct (bp_old _ _ _ _ _ Hp) as [(Ho & _)|(Ho & _)]; [rewrite (Hr0 q Hlt Ho) in Hr; done|].
      unfold busy in Ho. rewrite Hr in Ho. done. }
    apply HR; [|by apply bframe_fframe|done]. split; try done.
    + by eapply kctx_same.
    + by exists l.
    + intros j c [[= -> ->]|Hin]%elem_of_cons.
      * unfold holds_buf. rewrite with_buf_eq by lia. split_and!; [done|apply Hg..| ]. apply Hg.
      * destruct (Hheld j c Hin) as (H1 & H2 & H3 & H4 & H5 & H6). assert (j <> i) as Hne.
        { intros ->. apply HiH, list_elem_of_fmap. by exists (i, c). }
        unfold holds_buf. by rewrite with_buf_ne.
    + intros j Hj Hnj. cbn in Hnj. apply not_elem_of_cons in Hnj as [Hne Hnj]. rewrite with_buf_ne by done. by apply Hfree.
    + cbn. by apply NoDup_cons.
    + intros j Hj Hf6. destruct (decide (j = i)) as [->|Hne].
      * rewrite with_buf_eq in * by lia. destruct (gt_dirty _ _ _ _ _ Hg Hf6) as [F1 F2]. destruct (Hpin i Hj F1) as (c & Hc & Hkc).
        exists c. split; [done|]. by rewrite <- F2.
      * rewrite with_buf_ne in * by done. by apply Hpin.
Qed.

(** The other buffers of a transaction are not those of a held one. *)
Lemma tx_held_ne H bs s i b j c : tx ((i, b) :: H) bs s -> (j, c) ∈ H -> j <> i.
Proof.
  intros Ht Hin ->. pose proof (tx_nodup _ _ _ Ht) as Hnd. cbn in Hnd. apply NoDup_cons in Hnd as [Hni _].
  apply Hni, list_elem_of_fmap. by exists (i, c).
Qed.

Lemma tx_brelse H bs s i b (R : unit -> kstate -> Prop) :
  tx ((i, b) :: H) bs s ->
  (forall s', tx H bs s' -> fframe s s' -> (forall c, blk s' c = blk s c) -> R tt s') ->
  wp (brelse i) R s.
Proof.
  intros Ht HR. pose proof Ht as [Hk [l Hi] Hheld Hfree Hnd Hpin Hnm Hon Hrg Hsm Hout Hsz]. pose proof (bi_len _ _ Hi) as Hlen.
  destruct (Hheld i b ltac:(by left)) as (Hlt & Hl & Hkey & Hr & Hf & Hcl).
  eapply (brelse_wp p l s i); [done|done|done|done|lia| |].
  { intros _ _ E. unfold keyed in Hkey. zbool. rewrite H1. by apply Hcl. }
  intros l' s' Hi' Hfr [Hd Hs] Eb _.
  assert (forall j, j <> i -> bufs s' !!! j = bufs s !!! j) as Ho by (intros j Hj; rewrite Eb; by apply list_lookup_total_insert_ne).
  assert (bufs s' !!! i = released (bufs s !!! i)) as Ei by (rewrite Eb; apply list_lookup_total_insert_eq; lia).
  apply HR; [|by apply bframe_fframe|done]. pose proof (fframe_nblocks s s' (bframe_fframe _ _ Hfr Hd)) as En.
  split; rewrite ?(bf_log _ _ Hfr), ?En; try done.
  - by eapply bframe_kctx.
  - by exists l'.
  - intros j c Hin. destruct (Hheld j c ltac:(by right)) as (H1 & H2 & H3). rewrite Ho by by eapply tx_held_ne.
    split; [done|]. split; [|unfold dblk; by rewrite Hd]. unfold holds_buf. rewrite Ho by by eapply tx_held_ne. by rewrite (bframe_pid p s s').
  - intros j Hj Hnj. destruct (decide (j = i)) as [->|Hne]; [rewrite Ei; cbn; lia|]. rewrite Ho by done. apply Hfree; [done|].
    cbn. by apply not_elem_of_cons.
  - cbn in Hnd. by apply NoDup_cons in Hnd as [_ ?].
  - intros j Hj. destruct (decide (j = i)) as [->|Hne]; [rewrite Ei|rewrite Ho by done]; by apply Hpin.
Qed.

(** The buffer after its block was changed and recorded. *)
Definition logged (d : block) (x : buf) : buf := set_b_flags 6 (set_b_data d x).

Lemma logged_ok l s i b d :
  bio_inv l s -> (i < nbuf)%nat -> keyed b (bufs s !!! i) = true -> b_flags (bufs s !!! i) <> 0 ->
  1 <= b_refcnt (bufs s !!! i) -> length d = bsize ->
  let s' := with_buf i (logged d (bufs s !!! i)) s in
  bio_inv l s' /\ forall c, blk s' c = if decide (c = b) then d else blk s c.
Proof.
  intros Hi Hlt Hkey Hf Hr Hd s'. pose proof (bi_len _ _ Hi) as Hlen.
  destruct (set_data_ok l s i b d Hi Hlt Hkey Hf Hr Hd) as [Hi1 Hb1]. set (s1 := with_buf i (set_b_data d (bufs s !!! i)) s) in *.
  assert (bufs s1 !!! i = set_b_data d (bufs s !!! i)) as E1 by (apply with_buf_eq; lia).
  assert (s' = with_buf i (set_b_flags 6 (bufs s1 !!! i)) s1) as E by (rewrite E1; unfold s1; by rewrite with_buf_with_buf).
  assert (forall c, keyed c (set_b_flags 6 (bufs s1 !!! i)) = keyed c (bufs s1 !!! i)) as Hky by done.
  assert (bio_inv l s') as Hi'.
  { rewrite E. destruct (bi_buf _ _ Hi1 i Hlt) as (_ & B2 & B3 & B4 & B5 & _). apply bio_inv_with; [done|done| |].
    - split; [auto|]. split; [done|]. split; [done|]. split; [done|]. split; [done|]. done.
    - intros c j Hj Hne Hc. rewrite Hky in Hc. apply not_true_iff_false. intros Hcj. apply Hne. by apply (bi_uniq _ _ Hi1 j i c). }
  split; [done|]. intros c. rewrite <- Hb1. apply (blk_ext l l); [done|done|done|]. intros j Hj. rewrite E.
  destruct (decide (j = i)) as [->|Hne]; [|by rewrite with_buf_ne]. rewrite with_buf_eq by (unfold s1; rewrite length_with_buf; lia).
  split; [|done]. unfold cached. rewrite Hky. f_equal. rewrite E1. cbn. by destruct (Z.eqb_spec (b_flags (bufs s !!! i)) 0).
Qed.
Lemma absorb_elem b bs c : c ∈ absorb b bs <-> c = b \/ c ∈ bs.
Proof. unfold absorb. case_decide; set_solver. Qed.

(** The caller changes a held block and records it. *)
Lemma tx_log {A} H bs s i b f (k : M kstate A) (R : A -> kstate -> Prop) :
  tx ((i, b) :: H) bs s -> data_block (l_start (klog s)) (nblocks s) b -> length (f (blk s b)) = bsize -> (length bs < log_limit)%nat ->
  (forall s', tx ((i, b) :: H) (absorb b bs) s' -> fframe s s' ->
     (forall c, blk s' c = if decide (c = b) then f (blk s b) else blk s c) -> wp k R s') ->
  wp (edit i f ;;; log_write i ;;; k) R s.
Proof.
  intros Ht Hdb Hd Hn HR. pose proof Ht as [Hk [l Hi] Hheld Hfree Hnd Hpin Hnm Hon Hrg Hsm Hout Hsz]. pose proof (bi_len _ _ Hi) as Hlen.
  destruct (Hheld i b ltac:(by left)) as (Hlt & Hl & Hkey & Hr & Hf & Hcl). pose proof (tx_data _ _ _ i b Ht ltac:(by left)) as Edata.
  pose proof (proj1 Hdb) as Hb.
  assert (b_blockno (bufs s !!! i) = b) as Eno by (unfold keyed in Hkey; zbool; done).
  apply wp_bind, setb_wp. rewrite Edata. set (s1 := with_buf i _ s).
  assert (bufs s1 !!! i = set_b_data (f (blk s b)) (bufs s !!! i)) as E1 by (apply with_buf_eq; lia).
  pose proof (log_write_spec p s1 i bs) as Hlw. cbv zeta in Hlw. rewrite E1 in Hlw.
  change (b_blockno (set_b_data _ (bufs s !!! i))) with (b_blockno (bufs s !!! i)) in Hlw. rewrite Eno in Hlw.
  apply wp_bind. eapply wp_mono; [apply Hlw|].
  1: by eapply kctx_same.
  1: exact Hnm.
  1: exact Hon.
  1: eapply Forall_impl; [exact Hrg|]; intros c [Hc _]; lia.
  1: lia.
  1: unfold log_limit in Hn; change (Z.to_nat LOGSIZE) with 30%nat; lia.
  1: change (klog s1) with (klog s); unfold log_limit in Hn; lia.
  1: exact Hout.
  intros [] s2 (Hnm2 & Hnd2 & _ & Hg & E2).
  assert (s2 = put_klog (klog s2) (with_buf i (logged (f (blk s b)) (bufs s !!! i)) s)) as E3.
  { assert (alter (fun x => set_b_flags (Z.lor (b_flags x) B_DIRTY) x) i (bufs s1) = <[i := logged (f (blk s b)) (bufs s !!! i)]> (bufs s)) as Eb.
    { rewrite alter_insert, E1. change (b_flags (set_b_data _ (bufs s !!! i))) with (b_flags (bufs s !!! i)).
      unfold s1, with_buf. cbn [bufs put_bufs]. rewrite list_insert_insert_eq. f_equal. unfold logged. f_equal. destruct Hf as [-> | ->]; done. }
    rewrite E2 at 1. by rewrite Eb. }
  destruct (logged_ok l s i b (f (blk s b)) Hi Hlt Hkey) as [Hi' Hb']; [destruct Hf; lia|lia|done|].
  set (s3 := with_buf i (logged (f (blk s b)) (bufs s !!! i)) s) in *.
  assert (bufs s2 = bufs s3 /\ kp s2 = kp s /\ disk s2 = disk s) as (Eb2 & Ek2 & Ed2) by (rewrite E3; split_and!; reflexivity).
  assert (bio_inv l s2) as Hi2 by (rewrite E3; destruct Hi' as [? ? ? ? ?]; by split).
  assert (forall j, j <> i -> bufs s2 !!! j = bufs s !!! j) as Ho by (intros j Hj; rewrite Eb2; by apply with_buf_ne).
  assert (bufs s2 !!! i = logged (f (blk s b)) (bufs s !!! i)) as Ei by (rewrite Eb2; apply with_buf_eq; lia).
  assert (same_log (klog s) (klog s2)) as Hsl by (rewrite Hg; change (klog s1) with (klog s); by destruct (klog s)).
  assert (fframe s s2) as Hfr by (rewrite E3; by split). destruct (same_log_fields _ _ Hsl) as (S1 & S2 & S3 & S4 & S5).
  apply HR; [|done|intros c; rewrite E3; apply Hb'].
  split; try done.
  - by eapply kctx_same.
  - by exists l.
  - intros j c [[= -> ->]|Hin]%elem_of_cons.
    + unfold holds_buf. rewrite Ei. cbn. split; [done|]. split; [|by split_and!; auto]. unfold pid_of. by rewrite Ek2.
    + destruct (Hheld j c ltac:(by right)) as (H1 & H2 & H3). unfold holds_buf, pid_of, dblk. rewrite Ho, Ek2, Ed2 by by eapply tx_held_ne.
      done.
  - intros j Hj Hnj. assert (j <> i) by (intros ->; apply Hnj; cbn; by left). rewrite Ho by done. by apply Hfree.
  - intros j Hj Hf6. destruct (decide (j = i)) as [->|Hne].
    + exists b. rewrite Ei. split; [apply absorb_elem; by left|done].
    + rewrite Ho in * by done. destruct (Hpin j Hj Hf6) as (c & Hc & Hkc). exists c. split; [apply absorb_elem; by right|done].
  - rewrite (fframe_nblocks _ _ Hfr), S1. apply Forall_forall. intros c Hc%absorb_elem. destruct Hc as [->|Hc]; [done|].
    by eapply Forall_forall in Hrg.
  - by rewrite (fframe_nblocks _ _ Hfr).
  - by rewrite S3.
  - by rewrite S2.
Qed.

End tx.
