(* ===== verification/FsBitmap.v ===== *)
(** * Allocating blocks

    The bitmap marks the blocks in use; [balloc] finds one that is not, marks it and
    clears it. *)

From S2P Require Import Prelude Bytes Monad Machine ProcDefs ProcInv Proc KernDefs Sleeplock Bio BioInv Log LogInv LogCrash LogOps Fs FsTx.

(** ** Bits *)

Definition used (d : block) (b : Z) : bool := negb (Z.land (byte_at d (Z.to_nat (b / 8))) (Z.shiftl 1 (b mod 8)) =? 0).
Definition set_bit (d : block) (b : Z) : block :=
  <[Z.to_nat (b / 8) := Z.lor (byte_at d (Z.to_nat (b / 8))) (Z.shiftl 1 (b mod 8))]> d.
Definition clear_bit (d : block) (b : Z) : block :=
  <[Z.to_nat (b / 8) := Z.land (byte_at d (Z.to_nat (b / 8))) (Z.lnot (Z.shiftl 1 (b mod 8)))]> d.

Lemma bit_of_one i j : 0 <= i -> 0 <= j -> Z.testbit (Z.shiftl 1 i) j = bool_decide (j = i).
Proof.
  intros Hi Hj. rewrite Z.shiftl_spec by done. case_bool_decide as E; [by rewrite E, Z.sub_diag|].
  destruct (decide (j < i)); [apply Z.testbit_neg_r; lia|apply Z.bits_above_log2; cbn; lia].
Qed.

Lemma mask_bit x j : 0 <= j -> negb (Z.land x (Z.shiftl 1 j) =? 0) = Z.testbit x j.
Proof.
  intros Hj. destruct (Z.testbit x j) eqn:E.
  - apply negb_true_iff, Z.eqb_neq. intros H. apply (f_equal (fun z => Z.testbit z j)) in H.
    rewrite Z.land_spec, bit_of_one, E, bool_decide_true, Z.bits_0 in H by done. done.
  - apply negb_false_iff, Z.eqb_eq. apply Z.bits_inj'. intros i Hi. rewrite Z.land_spec, bit_of_one, Z.bits_0 by done.
    case_bool_decide as Eij; [by rewrite Eij, E|apply andb_false_r].
Qed.

Lemma used_testbit d b : used d b = Z.testbit (byte_at d (Z.to_nat (b / 8))) (b mod 8).
Proof. apply mask_bit. pose proof (Z.mod_pos_bound b 8). lia. Qed.

Section bits.
Context (d : block) (Hd : length d = bsize).

Lemma bit_byte b c : 0 <= b < BPB -> 0 <= c < BPB -> b <> c -> Z.to_nat (c / 8) = Z.to_nat (b / 8) -> c mod 8 <> b mod 8.
Proof. unfold BPB, BSIZE. intros Hb Hc Hne E. apply Z2Nat.inj in E; [|zdiv..]. zdiv. Qed.

Lemma bit_range b : 0 <= b < BPB -> (Z.to_nat (b / 8) < length d)%nat.
Proof. rewrite Hd. unfold BPB, BSIZE. change bsize with 512%nat. intros Hb. zdiv. Qed.

Lemma used_set_bit b c : 0 <= b < BPB -> 0 <= c < BPB -> used (set_bit d b) c = if decide (c = b) then true else used d c.
Proof.
  intros Hb Hc. rewrite !used_testbit. unfold set_bit. rewrite byte_at_insert by by apply bit_range.
  pose proof (Z.mod_pos_bound b 8). pose proof (Z.mod_pos_bound c 8). destruct (decide (c = b)) as [->|Hne].
  - rewrite decide_True, Z.lor_spec, bit_of_one, bool_decide_true by (done || lia). apply orb_true_r.
  - case_decide as E; [|done]. rewrite Z.lor_spec, bit_of_one, bool_decide_false by (lia || by apply bit_byte).
    by rewrite orb_false_r, E.
Qed.

Lemma used_clear_bit b c : 0 <= b < BPB -> 0 <= c < BPB -> used (clear_bit d b) c = if decide (c = b) then false else used d c.
Proof.
  intros Hb Hc. rewrite !used_testbit. unfold clear_bit. rewrite byte_at_insert by by apply bit_range.
  pose proof (Z.mod_pos_bound b 8). pose proof (Z.mod_pos_bound c 8). destruct (decide (c = b)) as [->|Hne].
  - rewrite decide_True, Z.land_spec, Z.lnot_spec, bit_of_one, bool_decide_true by (done || lia). apply andb_false_r.
  - case_decide as E; [|done]. rewrite Z.land_spec, Z.lnot_spec, bit_of_one, bool_decide_false by (lia || by apply bit_byte).
    by rewrite andb_true_r, E.
Qed.

Lemma length_set_bit b : length (set_bit d b) = bsize.
Proof. unfold set_bit. by rewrite length_insert. Qed.

(** The scan finds a clear bit if there is one. *)
Lemma balloc_scan_some n bi size k :
  0 <= bi -> balloc_scan n bi 0 size d = Some k -> bi <= k < BPB /\ k < size /\ used d k = false.
Proof.
  revert bi. induction n as [|n IH]; intros bi H0 E; [done|]. cbn [balloc_scan] in E.
  destruct ((bi <? BPB) && (0 + bi <? size)) eqn:Eb; [|done]. zbool. cbv zeta in E. destruct (Z.eqb_spec (Z.land (byte_at d (Z.to_nat (bi / 8))) (Z.shiftl 1 (bi mod 8))) 0) as [Ez|Ez].
  - injection E as <-. split; [lia|]. split; [lia|]. unfold used. by rewrite Ez.
  - apply IH in E; [|lia]. destruct E as (E1 & E2 & E3). split; [lia|]. by split.
Qed.

Lemma balloc_scan_none n bi size k :
  0 <= bi -> balloc_scan n bi 0 size d = None -> bi <= k < bi + Z.of_nat n -> k < BPB -> k < size -> used d k = true.
Proof.
  revert bi. induction n as [|n IH]; intros bi H0 E Hk Hb Hs; [lia|]. cbn [balloc_scan] in E.
  destruct ((bi <? BPB) && (0 + bi <? size)) eqn:Eb; [|apply andb_false_iff in Eb as [?|?]; zbool; lia]. zbool. cbv zeta in E.
  destruct (Z.eqb_spec (Z.land (byte_at d (Z.to_nat (bi / 8))) (Z.shiftl 1 (bi mod 8))) 0) as [Ez|Ez]; [done|].
  destruct (decide (k = bi)) as [->|Hne]; [unfold used; by apply negb_true_iff, Z.eqb_neq|]. apply (IH (bi + 1)); lia || done.
Qed.

End bits.

(** ** The file system's layout *)

(** The superblock [sb] of a file system on [n] blocks whose data blocks start at
    [ds]; one bitmap block is enough for it. *)
Record layout (sb : superblock) (ds n : Z) : Prop := {
  la_size : 0 < sb_size sb <= n;
  la_one : sb_size sb <= BPB;
  la_bm : 0 <= sb_bmapstart sb < ds;
  la_n : n < 2 ^ 31
}.

(** Only data blocks are free. *)
Definition bitmap_ok (sb : superblock) (ds : Z) (V : Z -> block) : Prop :=
  forall b, 0 <= b < sb_size sb -> used (V (sb_bmapstart sb)) b = false -> ds <= b.

(** [F] are free blocks. *)
Definition avail (sb : superblock) (F : list Z) (V : Z -> block) : Prop :=
  NoDup F /\ forall b, b ∈ F -> 0 <= b < sb_size sb /\ used (V (sb_bmapstart sb)) b = false.

(** Contents of blocks count up to pointwise equality. *)
#[export] Instance bitmap_ok_proper sb ds : Proper (pointwise_relation Z eq ==> iff) (bitmap_ok sb ds).
Proof. intros V W E. unfold bitmap_ok. by setoid_rewrite (E (sb_bmapstart sb)). Qed.

#[export] Instance avail_proper sb F : Proper (pointwise_relation Z eq ==> iff) (avail sb F).
Proof. intros V W E. unfold avail. by setoid_rewrite (E (sb_bmapstart sb)). Qed.

(** The blocks after [b] was allocated. *)
Definition allocated (sb : superblock) (b : Z) (V : Z -> block) : Z -> block := fun c =>
  if decide (c = b) then zero_block else if decide (c = sb_bmapstart sb) then set_bit (V c) b else V c.

Lemma BBLOCK_one sb ds n b : layout sb ds n -> 0 <= b < BPB -> ds <= n -> BBLOCK b sb = sb_bmapstart sb.
Proof.
  intros [H1 H2 H3 H4] Hb Hds. unfold BBLOCK. rewrite Z.div_small by done. cbn. apply u32_small. lia.
Qed.

Section alloc.
Context {FU : Fuel} {BD : BlockDevice} {SD : SyncDevice} {DV : DevSw} (p : nat) (sb : superblock) (ds : Z).

Abbreviation bm := (sb_bmapstart sb).

Lemma tx_blk_length H bs s b : tx p H bs s -> 0 <= b < nblocks s -> length (blk s b) = bsize.
Proof. intros Ht Hb. destruct (tx_inv _ _ _ _ Ht) as [l Hi]. by apply (blk_length l). Qed.

Lemma bzero_wp H bs s b (R : unit -> kstate -> Prop) :
  tx p H bs s -> data_block (l_start (klog s)) (nblocks s) b -> b ∉ H.*2 -> (length bs + length H < nbuf)%nat -> (length bs < log_limit)%nat ->
  (forall s', tx p H (absorb b bs) s' -> fframe s s' -> (forall c, blk s' c = if decide (c = b) then zero_block else blk s c) -> R tt s') ->
  wp (bzero ROOTDEV b) R s.
Proof.
  intros Ht Hdb HbH Hn Hl HR. pose proof (proj1 Hdb) as Hb. pose proof (tx_small _ _ _ _ Ht) as Hsm. unfold bzero.
  rewrite (u32_small b) by lia. change (u32 ROOTDEV) with ROOTDEV. apply wp_bind. eapply tx_bread; [done|done|done|done|].
  intros i s1 Ht1 Hf1 Hb1. change (setb i (set_b_data (replicate bsize 0))) with (edit i (fun _ => zero_block)).
  eapply tx_log; [exact Ht1|by rewrite (fframe_start _ _ Hf1), (fframe_nblocks _ _ Hf1)|done|done|]. intros s2 Ht2 Hf2 Hb2. eapply tx_brelse; [exact Ht2|]. intros s3 Ht3 Hf3 Hb3.
  apply HR; [done|by transitivity s1; [|transitivity s2]|]. intros c. rewrite Hb3, Hb2. by case_decide.
Qed.

Lemma balloc_wp H bs s F (R : Z -> kstate -> Prop) :
  tx p H bs s -> ksb s = sb -> layout sb ds (nblocks s) -> l_start (klog s) + LOGSIZE < bm -> ds <= nblocks s -> bitmap_ok sb ds (blk s) -> avail sb F (blk s) -> F <> [] ->
  bm ∉ H.*2 -> (forall b, b ∈ H.*2 -> used (blk s bm) b = true) ->
  (length (absorb bm bs) + length H < nbuf)%nat -> (length bs + length H < nbuf)%nat ->
  (length (absorb bm bs) < log_limit)%nat -> (length bs < log_limit)%nat ->
  (forall b s', 0 <= b < sb_size sb -> used (blk s bm) b = false -> tx p H (absorb b (absorb bm bs)) s' -> fframe s s' ->
     (forall c, blk s' c = allocated sb b (blk s) c) -> R b s') ->
  wp (balloc ROOTDEV) R s.
Proof.
  intros Ht Esb Hla Hlog Hds Hbm Hav HF HbH Hused Hn1 Hn2 Hl1 Hl2 HR. pose proof Hla as [Hsz Hone Hbmr Hn].
  assert (forall s' b, fframe s s' -> bm <= b < nblocks s -> data_block (l_start (klog s')) (nblocks s') b) as Hdat.
  { intros s' b Hf Hb. rewrite (fframe_start _ _ Hf), (fframe_nblocks _ _ Hf). split; lia. }
  unfold balloc. apply wp_bind, wp_gets. rewrite Esb. cbn [balloc_loop]. apply wp_bind, wp_gets. rewrite Esb.
  rewrite (proj2 (Z.ltb_lt _ _)) by lia. cbn [negb]. rewrite (BBLOCK_one sb ds (nblocks s)) by (done || (unfold BPB, BSIZE; lia)).
  apply wp_bind. eapply tx_bread; [done|lia|done|done|]. intros i s1 Ht1 Hf1 Hb1.
  apply wp_bind, getb_wp. rewrite (tx_data _ _ _ _ i bm Ht1) by by left. rewrite Hb1.
  assert (length (blk s bm) = bsize) as Hlen by (eapply tx_blk_length; [done|lia]).
  destruct (balloc_scan _ 0 0 _ _) as [k|] eqn:Ek.
  - apply balloc_scan_some in Ek as (K1 & K2 & K3); [|done|lia]. cbn [Z.add].
    assert (k ∉ H.*2) as HkH by (intros Hin; rewrite (Hused k Hin) in K3; done).
    assert (ds <= k) as Hdk by (apply Hbm; [lia|done]).
    eapply (tx_log p H bs s1 i bm (fun d => set_bit d k)); [exact Ht1|by apply Hdat; [|lia]|rewrite Hb1; by apply length_set_bit|done|].
    intros s2 Ht2 Hf2 Hb2. apply wp_bind. eapply tx_brelse; [exact Ht2|]. intros s3 Ht3 Hf3 Hb3.
    assert (fframe s s3) as Hfs by (transitivity s1; [done|]; by transitivity s2).
    apply wp_bind. eapply bzero_wp; [exact Ht3|apply Hdat; [done|lia]|done|done|done|]. intros s4 Ht4 Hf4 Hb4.
    apply wp_ret. apply HR; [lia|done|done|by transitivity s3|]. intros c. rewrite Hb4, Hb3, Hb2. unfold allocated.
    repeat case_decide; subst; try done; by rewrite Hb1.
  - exfalso. destruct F as [|b F]; [done|]. destruct Hav as [_ Hav]. destruct (Hav b ltac:(by left)) as [B1 B2].
    assert (used (blk s bm) b = true) as Hu; [|congruence].
    eapply balloc_scan_none; [exact Hlen| |exact Ek| |lia|lia]; [lia|]. change (Z.of_nat (Z.to_nat BPB)) with BPB. lia.
Qed.

End alloc.
