(* ===== verification/FsFile.v ===== *)
(** * Files

    Which blocks a file consists of, and that [bmap] finds or adds one without
    disturbing the others. *)

From S2P Require Import Prelude Bytes Monad Machine ProcDefs ProcInv Proc KernDefs Sleeplock Bio BioInv Log LogInv LogCrash LogOps Fs FsTx FsBitmap.

(** The indirect block, and block [k] of the file with inode [x]; 0 if there is none. *)
Definition ind (x : inode) : Z := i_addrs x !!! ndirect.
Definition fblk (V : Z -> block) (x : inode) (k : Z) : Z :=
  if k <? NDIRECT then i_addrs x !!! Z.to_nat k
  else if ind x =? 0 then 0 else get32 (V (ind x)) (Z.to_nat (4 * (k - NDIRECT))).

#[export] Instance fblk_proper : Proper (pointwise_relation Z eq ==> eq ==> eq ==> eq) fblk.
Proof. intros V W E x _ <- k _ <-. unfold fblk. by rewrite (E (ind x)). Qed.

(** Entry [bn] of the inode's array of direct blocks is changed. *)
Lemma fblk_put V x bn b k :
  length (i_addrs x) = S ndirect -> 0 <= bn < NDIRECT -> 0 <= k < MAXFILE ->
  fblk V (set_i_addrs (<[Z.to_nat bn := b]> (i_addrs x)) x) k = if decide (k = bn) then b else fblk V x k.
Proof.
  intros Hl Hbn Hk. assert (Z.to_nat bn <> ndirect /\ (Z.to_nat bn < S ndirect)%nat) as [Hne Hlt].
  { unfold ndirect, NDIRECT in *. lia. }
  unfold fblk, ind. cbn [i_addrs set_i_addrs]. rewrite (list_lookup_total_insert_ne _ _ ndirect) by done. case_decide as E.
  - subst k. rewrite (proj2 (Z.ltb_lt _ _)) by lia. apply list_lookup_total_insert_eq. lia.
  - destruct (k <? NDIRECT); [|done]. apply list_lookup_total_insert_ne. lia.
Qed.

(** Entry [bn] of the indirect block is changed. *)
Lemma fblk_put32 V V' x bn b k :
  ind x <> 0 -> 12 <= bn < 140 -> 0 <= k < 140 -> V' (ind x) = put32 (Z.to_nat (4 * (bn - 12))) b (V (ind x)) -> length (V (ind x)) = bsize ->
  0 <= b < 2 ^ 32 -> fblk V' x k = if decide (k = bn) then b else fblk V x k.
Proof.
  intros Hi Hbn Hk E Hl Hb. change bsize with 512%nat in Hl. unfold fblk. rewrite (proj2 (Z.eqb_neq _ _) Hi). change NDIRECT with 12. rewrite E.
  case_decide as Ek; [subst k; rewrite (proj2 (Z.ltb_ge _ _)) by lia|destruct (Z.ltb_spec k 12); [done|]].
  - rewrite get32_put32 by lia. by apply u32_small.
  - apply get32_put32_ne; lia.
Qed.

Lemma byte_zero j : byte_at zero_block j = 0.
Proof. unfold byte_at, zero_block. generalize bsize. induction j as [|j IH]; intros [|m]; cbn; auto. Qed.

Lemma get32_zero o : get32 zero_block o = 0.
Proof. unfold get32. by rewrite !byte_zero. Qed.

(** The inode gets an indirect block without entries. *)
Lemma fblk_put_ind V x b k :
  length (i_addrs x) = S ndirect -> ind x = 0 -> V b = zero_block -> 0 <= k < MAXFILE ->
  fblk V (set_i_addrs (<[ndirect := b]> (i_addrs x)) x) k = fblk V x k.
Proof.
  intros Hl Hi Hz Hk. unfold fblk. rewrite Hi. destruct (Z.ltb_spec k NDIRECT) as [Hd|Hd].
  - cbn. apply list_lookup_total_insert_ne. unfold ndirect. lia.
  - unfold ind. cbn [i_addrs set_i_addrs]. rewrite list_lookup_total_insert_eq by lia. rewrite Hz, get32_zero. by destruct (b =? 0).
Qed.

Section file.
Context (sb : superblock) (ds : Z).
Abbreviation bm := (sb_bmapstart sb).

(** A data block in use. *)
Definition data_used (V : Z -> block) (b : Z) : Prop := ds <= b < sb_size sb /\ used (V bm) b = true.

(** The file's blocks are in use, each once, and there is one for every part of its
    content. *)
Record file_ok (V : Z -> block) (x : inode) : Prop := {
  fo_dev : i_dev x = ROOTDEV;
  fo_len : length (i_addrs x) = S ndirect;
  fo_blk : forall k, 0 <= k < MAXFILE -> fblk V x k <> 0 -> data_used V (fblk V x k);
  fo_ind : ind x <> 0 -> data_used V (ind x);
  fo_inj : forall k k', 0 <= k < MAXFILE -> 0 <= k' < MAXFILE -> fblk V x k <> 0 -> fblk V x k = fblk V x k' -> k = k';
  fo_sep : forall k, 0 <= k < MAXFILE -> ind x <> 0 -> fblk V x k <> ind x;
  fo_size : 0 <= i_size x <= MAXFILE * BSIZE;
  fo_full : forall k, 0 <= k -> k * BSIZE < i_size x -> fblk V x k <> 0
}.

#[export] Instance file_ok_proper : Proper (pointwise_relation Z eq ==> eq ==> iff) file_ok.
Proof.
  assert (forall V W x, pointwise_relation Z eq V W -> file_ok V x -> file_ok W x) as H.
  { intros V W x E [O1 O2 O3 O4 O5 O6 O7 O8].
    split; try done; unfold data_used in *; rewrite <- ?(E bm); try done; setoid_rewrite <- (fblk_proper V W E x x eq_refl _ _ eq_refl); done. }
  intros V W E x _ <-. split; [by apply H|]. apply H. by symmetry.
Qed.

(** ** Log space

    What a transaction has recorded, plus the bitmap and the indirect block if it has
    not recorded them yet. *)

Definition weight (bs : list Z) (x : inode) : nat :=
  length bs + (if decide (bm ∈ bs) then 0 else 1) + (if decide (ind x <> 0 /\ ind x ∈ bs) then 0 else 1).

Lemma weight_length bs x : (length bs <= weight bs x)%nat.
Proof. unfold weight. lia. Qed.

Lemma length_absorb b bs : (length (absorb b bs) <= S (length bs))%nat.
Proof. unfold absorb. case_decide; rewrite ?length_app; cbn; lia. Qed.

Lemma absorb_length b bs : (length bs <= length (absorb b bs))%nat.
Proof. unfold absorb. case_decide; rewrite ?length_app; cbn; lia. Qed.

Lemma weight_bm bs x : (weight (absorb bm bs) x <= weight bs x)%nat.
Proof.
  unfold weight. assert (bm ∈ absorb bm bs) as Hin by (apply absorb_elem; by left). rewrite (decide_True (P := bm ∈ absorb bm bs)) by done.
  unfold absorb. destruct (decide (bm ∈ bs)) as [H|H]; [lia|]. rewrite length_app. cbn.
  repeat case_decide; try lia. exfalso. set_solver.
Qed.

Lemma weight_absorb b bs x : (weight (absorb b bs) x <= S (weight bs x))%nat.
Proof.
  unfold weight. pose proof (length_absorb b bs).
  assert (bm ∈ bs -> bm ∈ absorb b bs) by (intros; apply absorb_elem; by right).
  assert (ind x ∈ bs -> ind x ∈ absorb b bs) by (intros; apply absorb_elem; by right).
  repeat case_decide; try lia; tauto.
Qed.

Lemma weight_same bs x x' : ind x' = ind x -> weight bs x' = weight bs x.
Proof. intros E. unfold weight. by rewrite E. Qed.

(** Recording the indirect block, which may be new. *)
Lemma weight_ind bs x x' : ind x' <> 0 -> (ind x = ind x' \/ ind x = 0) -> (weight (absorb (ind x') bs) x' <= weight bs x)%nat.
Proof.
  intros H0 Hx. unfold weight. rewrite (decide_True (P := ind x' <> 0 /\ _)) by (split; [done|apply absorb_elem; by left]).
  assert (bm ∈ bs -> bm ∈ absorb (ind x') bs) by (intros; apply absorb_elem; by right).
  unfold absorb in *. destruct (decide (ind x' ∈ bs)) as [Hin|Hin].
  - repeat case_decide; try lia; tauto.
  - rewrite length_app. cbn. destruct (decide (ind x <> 0 /\ ind x ∈ bs)) as [[D1 D2]|D].
    + exfalso. destruct Hx as [Hx|Hx]; [by rewrite Hx in D2|done].
    + repeat case_decide; try lia; tauto.
Qed.

(** ** What is mapped *)

(** Block [bn] of the file is [a] after some blocks were taken: [F] were free, [F']
    are, [n] fewer at most. *)
Record maps (n : nat) (bn a : Z) (V V' : Z -> block) (x x' : inode) (bs bs' : list Z) (F F' : list Z) : Prop := {
  mp_free : (length F <= length F' + n)%nat;
  mp_attr : x' = set_i_addrs (i_addrs x') x;
  mp_ind : ind x' = ind x \/ ind x = 0 /\ used (V bm) (ind x') = false;
  mp_a : fblk V' x' bn = a /\ a <> 0;
  mp_old : fblk V x bn <> 0 -> a = fblk V x bn /\ V' a = V a;
  mp_new : fblk V x bn = 0 -> V' a = zero_block /\ a ∈ bs' /\ used (V bm) a = false;
  mp_other : forall k, 0 <= k < MAXFILE -> k <> bn -> fblk V' x' k = fblk V x k;
  mp_same : forall c, 0 <= c < sb_size sb -> used (V bm) c = true -> c <> bm -> (ind x <> 0 -> c <> ind x) -> V' c = V c;
  mp_used : forall c, 0 <= c < sb_size sb -> used (V bm) c = true -> used (V' bm) c = true;
  mp_weight : (weight bs' x' <= weight bs x + (if decide (fblk V x bn = 0%Z) then 1 else 0))%nat
}.

Lemma maps_refl n bn V V' x bs F :
  fblk V x bn <> 0 -> pointwise_relation Z eq V' V -> maps n bn (fblk V x bn) V V' x x bs bs F F.
Proof.
  intros Ha E. split; try done.
  - lia.
  - by destruct x.
  - by left.
  - by rewrite E.
  - intros k _ _. by rewrite E.
  - intros c _ Hu. by rewrite (E bm).
  - rewrite decide_False by done. lia.
Qed.

(** The file has an indirect block, perhaps a new one. *)
Record grown (V V' : Z -> block) (x x' : inode) (bs bs' : list Z) (F F' : list Z) : Prop := {
  gr_free : (length F <= S (length F'))%nat;
  gr_attr : x' = set_i_addrs (i_addrs x') x;
  gr_ind : ind x' <> 0;
  gr_from : ind x = ind x' \/ ind x = 0 /\ used (V bm) (ind x') = false;
  gr_fblk : forall k, 0 <= k < MAXFILE -> fblk V' x' k = fblk V x k;
  gr_same : forall c, 0 <= c < sb_size sb -> used (V bm) c = true -> c <> bm -> V' c = V c;
  gr_used : forall c, 0 <= c < sb_size sb -> used (V bm) c = true -> used (V' bm) c = true;
  gr_weight : (weight bs' x' <= weight bs x)%nat
}.

Lemma grown_maps bn a V V1 V2 x x1 bs bs1 bs2 F F1 F2 :
  grown V V1 x x1 bs bs1 F F1 -> maps 1 bn a V1 V2 x1 x1 bs1 bs2 F1 F2 -> file_ok V x -> file_ok V2 x1 -> 0 <= bn < MAXFILE ->
  0 < ds -> bm < ds -> maps 2 bn a V V2 x x1 bs bs2 F F2.
Proof.
  intros [G1 G2 G3 G4 G5 G6 G7 G8] [M1 M2 Mi [M3 M3'] M4 M5 M6 M7 M8 M9] Hok Hok2 Hbn Hds Hbm. rewrite (G5 bn Hbn) in M4, M5, M9.
  destruct (fo_blk _ _ Hok2 bn Hbn) as [Hr _]; [congruence|]. rewrite M3 in Hr. split; try done.
  - lia.
  - destruct G4 as [->|G4]; auto.
  - intros H. destruct (M4 H) as [-> ->]. split; [done|]. destruct (fo_blk _ _ Hok bn Hbn H) as [R1 R2]. apply G6; [lia|done|lia].
  - intros H. destruct (M5 H) as (? & ? & Hu). split; [done|]. split; [done|]. apply not_true_iff_false. intros Hu'.
    rewrite (G7 a) in Hu; [done|lia|done].
  - intros k Hk Hne. rewrite M6 by done. by apply G5.
  - intros c Hc Hu H1 H2. rewrite M7; [by apply G6|done|by apply G7|done|]. intros _ ->. destruct G4 as [E|[_ E]]; [|congruence].
    rewrite E in H2. by apply H2.
  - intros c Hc Hu. apply M8; [done|]. by apply G7.
  - lia.
Qed.

Lemma data_used_mono V V' c :
  (forall c, 0 <= c < sb_size sb -> used (V bm) c = true -> used (V' bm) c = true) -> 0 <= ds -> data_used V c -> data_used V' c.
Proof. intros H Hds [H1 H2]. split; [done|]. apply H; [lia|done]. Qed.

(** A block is added to the file. *)
Lemma file_ok_add bn b V V' x x' :
  file_ok V x -> 0 <= bn < MAXFILE -> 0 < ds -> x' = set_i_addrs (i_addrs x') x -> length (i_addrs x') = S ndirect -> ind x' = ind x ->
  used (V bm) b = false -> data_used V' b ->
  (forall c, 0 <= c < sb_size sb -> used (V bm) c = true -> used (V' bm) c = true) ->
  (forall k, 0 <= k < MAXFILE -> fblk V' x' k = if decide (k = bn) then b else fblk V x k) ->
  file_ok V' x'.
Proof.
  intros [O1 O2 O3 O4 O5 O6 O7 O8] Hbn Hds Hx Hl Hi Hu Hb Hmono Hf.
  assert (i_dev x' = i_dev x /\ i_size x' = i_size x) as [Ed Es] by (rewrite Hx; by destruct x).
  assert (b <> 0) as Hb0 by (destruct Hb; lia).
  assert (forall k, 0 <= k < MAXFILE -> fblk V x k <> b) as Hfresh.
  { intros k Hk E. destruct (O3 k Hk) as [_ H]; [congruence|]. rewrite E in H. congruence. }
  split; rewrite ?Ed, ?Es, ?Hi; try done.
  - intros k Hk. rewrite Hf by done. case_decide as Ek; [done|]. intros H. eapply data_used_mono; [exact Hmono|lia|by apply O3].
  - intros H. eapply data_used_mono; [exact Hmono|lia|by apply O4].
  - intros k k' Hk Hk'. rewrite !Hf by done. repeat case_decide; subst; try done.
    + intros _ E. exfalso. by apply (Hfresh k' Hk').
    + intros _ E. exfalso. by apply (Hfresh k Hk).
    + intros. by apply O5.
  - intros k Hk H. rewrite Hf by done. case_decide as Ek; [|by apply O6]. intros E. destruct (O4 H) as [_ Hu']. congruence.
  - intros k Hk Hs. rewrite Hf by (unfold MAXFILE, NDIRECT, NINDIRECT, BSIZE in *; lia). case_decide; [done|]. by apply O8.
Qed.

(** The file gets its indirect block. *)
Lemma file_ok_ind V V' x x' :
  file_ok V x -> 0 < ds -> x' = set_i_addrs (i_addrs x') x -> length (i_addrs x') = S ndirect ->
  used (V bm) (ind x') = false -> data_used V' (ind x') ->
  (forall c, 0 <= c < sb_size sb -> used (V bm) c = true -> used (V' bm) c = true) ->
  (forall k, 0 <= k < MAXFILE -> fblk V' x' k = fblk V x k) ->
  file_ok V' x'.
Proof.
  intros [O1 O2 O3 O4 O5 O6 O7 O8] Hds Hx Hl Hu Hb Hmono Hf.
  assert (i_dev x' = i_dev x /\ i_size x' = i_size x) as [Ed Es] by (rewrite Hx; by destruct x).
  split; rewrite ?Ed, ?Es; try done.
  - intros k Hk. rewrite Hf by done. intros H. eapply data_used_mono; [exact Hmono|lia|by apply O3].
  - intros k k' Hk Hk'. rewrite !Hf by done. by apply O5.
  - intros k Hk H E. rewrite Hf in E by done. destruct (O3 k Hk) as [_ H']; [rewrite E; done|]. congruence.
  - intros k Hk Hs. rewrite Hf by (unfold MAXFILE, NDIRECT, NINDIRECT, BSIZE in *; lia). by apply O8.
Qed.

(** ** After an allocation *)

Section allocated.
Context (V : Z -> block) (b n : Z).
Hypotheses (Hla : layout sb ds n) (Hbm : bitmap_ok sb ds V) (Hlen : length (V bm) = bsize).
Hypotheses (Hb : 0 <= b < sb_size sb) (Hfree : used (V bm) b = false).
Abbreviation V1 := (allocated sb b V).

Lemma alloc_data : ds <= b /\ b <> bm.
Proof. pose proof (Hbm b Hb Hfree). pose proof (la_bm _ _ _ Hla). lia. Qed.

Lemma alloc_used c : 0 <= c < sb_size sb -> used (V1 bm) c = if decide (c = b) then true else used (V bm) c.
Proof.
  intros Hc. pose proof alloc_data. pose proof (la_one _ _ _ Hla). unfold allocated. rewrite decide_False, decide_True by (done || lia).
  apply used_set_bit; [done|lia|lia].
Qed.

Lemma alloc_mono c : 0 <= c < sb_size sb -> used (V bm) c = true -> used (V1 bm) c = true.
Proof. intros Hc H. rewrite alloc_used by done. by case_decide. Qed.

Lemma alloc_data_used : data_used V1 b.
Proof. pose proof alloc_data. split; [lia|]. rewrite alloc_used by done. by rewrite decide_True. Qed.

Lemma alloc_same c : c <> b -> c <> bm -> V1 c = V c.
Proof. intros H1 H2. unfold allocated. by rewrite !decide_False. Qed.

Lemma alloc_bitmap : bitmap_ok sb ds V1.
Proof. intros c Hc. rewrite alloc_used by done. case_decide; [done|]. by apply Hbm. Qed.

Lemma alloc_avail F : avail sb F V -> exists F', avail sb F' V1 /\ (length F <= S (length F'))%nat.
Proof.
  intros [Hn HF]. exists (filter (fun c => c <> b) F). split; [split; [by apply NoDup_filter|]|].
  - intros c Hc%list_elem_of_filter. destruct Hc as [Hne Hc]. destruct (HF c Hc) as [H1 H2]. split; [done|]. rewrite alloc_used by done.
    by rewrite decide_False.
  - clear HF. induction F as [|c F IH]; [cbn; lia|]. apply NoDup_cons in Hn as [Hc Hn]. rewrite filter_cons.
    case_decide as E; cbn; [specialize (IH Hn); lia|]. subst c. rewrite filter_all; [lia|].
    intros x Hx ->. done.
Qed.

Lemma alloc_fblk x k : file_ok V x -> 0 <= k < MAXFILE -> fblk V1 x k = fblk V x k.
Proof.
  intros Hok Hk. unfold fblk. destruct (k <? NDIRECT); [done|]. destruct (Z.eqb_spec (ind x) 0) as [|Hi]; [done|].
  destruct (fo_ind _ _ Hok Hi) as [H1 H2]. pose proof (la_bm _ _ _ Hla). rewrite alloc_same; [done|congruence|lia].
Qed.

Lemma alloc_file x : file_ok V x -> file_ok V1 x.
Proof.
  intros Hok. pose proof Hok as [O1 O2 O3 O4 O5 O6 O7 O8]. pose proof (la_bm _ _ _ Hla) as Hds.
  assert (forall c, data_used V c -> data_used V1 c) as Hm.
  { intros c Hc. apply (data_used_mono V); [apply alloc_mono|lia|done]. }
  split; try done.
  - intros k Hk. rewrite alloc_fblk by done. intros. apply Hm. by apply O3.
  - intros. apply Hm. by apply O4.
  - intros k k' Hk Hk'. rewrite !alloc_fblk by done. by apply O5.
  - intros k Hk. rewrite alloc_fblk by done. by apply O6.
  - intros k Hk Hs. rewrite alloc_fblk by (done || unfold MAXFILE, NDIRECT, NINDIRECT, BSIZE in *; lia). by apply O8.
Qed.

(** The block becomes block [bn] of the file. *)
Lemma alloc_maps bn x x' V' bs bs' F F' :
  file_ok V x -> 0 <= bn < MAXFILE -> fblk V x bn = 0 -> x' = set_i_addrs (i_addrs x') x -> length (i_addrs x') = S ndirect -> ind x' = ind x ->
  (forall c, (ind x <> 0 -> c <> ind x) -> V' c = V1 c) ->
  (forall k, 0 <= k < MAXFILE -> fblk V' x' k = if decide (k = bn) then b else fblk V x k) ->
  b ∈ bs' -> (weight bs' x' <= S (weight bs x))%nat -> (length F <= S (length F'))%nat ->
  file_ok V' x' /\ maps 1 bn b V V' x x' bs bs' F F'.
Proof.
  intros Hok Hbn Ha Hx Hl Hi HV Hf Hin Hw HF. pose proof (la_bm _ _ _ Hla) as Hds. pose proof alloc_data as [Hb1 Hb2].
  assert (ind x <> 0 -> ds <= ind x /\ ind x <> b) as Hind.
  { intros H. destruct (fo_ind _ _ Hok H) as [H1 H2]. split; [lia|congruence]. }
  assert (V' bm = V1 bm) as Em by (apply HV; intros H; destruct (Hind H); lia).
  assert (forall c, 0 <= c < sb_size sb -> used (V bm) c = true -> used (V' bm) c = true) as Hm by (rewrite Em; apply alloc_mono).
  split; [apply (file_ok_add bn b V V' x x'); try done; [lia|]; unfold data_used; rewrite Em; apply alloc_data_used|].
  split; try done.
  - lia.
  - by left.
  - rewrite Hf by done. rewrite decide_True by done. split; [done|lia].
  - intros _. rewrite HV by (intros H; destruct (Hind H); done). unfold allocated. by rewrite decide_True.
  - intros k Hk Hne. rewrite Hf by done. by rewrite decide_False.
  - intros c Hc Hu H1 H2. rewrite HV by done. apply alloc_same; [congruence|done].
  - rewrite decide_True by done. lia.
Qed.

End allocated.

End file.

(** ** [bmap] *)

(** Everything but inode [ip], the cache and the blocks the log names. *)
Record iframe (ip : nat) (s s' : kstate) : Prop := {
  if_kp : quiet (kp s) (kp s');
  if_disk : disk s' = disk s;
  if_log : same_log (klog s) (klog s');
  if_sb : ksb s' = ksb s;
  if_ic : icache s' = <[ip := icache s' !!! ip]> (icache s);
  if_ft : ftable s' = ftable s;
  if_pipes : pipes s' = pipes s;
  if_cons : cons s' = cons s;
  if_ide : ide s' = ide s
}.

Lemma fframe_iframe ip s s' : fframe s s' -> (ip < length (icache s))%nat -> iframe ip s s'.
Proof.
  intros [H1 H2 H3 H4 H5 H6 H7 H8 H9] Hip. split; try done. rewrite H5. symmetry. apply list_insert_id. by apply list_lookup_lookup_total_lt.
Qed.

#[export] Instance iframe_trans ip : Transitive (iframe ip).
Proof.
  intros s1 s2 s3 [A1 A2 A3 A4 A5 A6 A7 A8 A9] [B1 B2 B3 B4 B5 B6 B7 B8 B9].
  split; unfold same_log in *; try congruence; [by transitivity (kp s2)|]. rewrite B5 at 1. rewrite A5. by rewrite list_insert_insert_eq.
Qed.

Lemma iframe_length ip s s' : iframe ip s s' -> length (icache s') = length (icache s).
Proof. intros H. rewrite (if_ic _ _ _ H). apply length_insert. Qed.

Lemma iframe_nblocks ip s s' : iframe ip s s' -> nblocks s' = nblocks s.
Proof. intros H. unfold nblocks. by rewrite (if_disk _ _ _ H). Qed.

Section bmap.
Context {FU : Fuel} {BD : BlockDevice} {SD : SyncDevice} {DV : DevSw} (p : nat) (sb : superblock) (ds : Z) (ip : nat).
Abbreviation bm := (sb_bmapstart sb).

Lemma tx_icache H bs s ic : tx p H bs s -> tx p H bs (put_icache ic s).
Proof. intros [[? ? ?] [l [? ? ? ? ?]] ? ? ? ? ? ? ? ? ? ?]. split; try done. by exists l. Qed.

(** The file system within a transaction of [p] that has recorded [bs], with inode
    [ip] in memory and the blocks [F] free. *)
Record fs_ready (H : list (nat * Z)) (bs F : list Z) (s : kstate) : Prop := {
  fr_tx : tx p H bs s;
  fr_sb : ksb s = sb;
  fr_layout : layout sb ds (nblocks s);
  fr_ds : ds <= sb_size sb;
  fr_log : l_start (klog s) + LOGSIZE < bm;
  fr_bitmap : bitmap_ok sb ds (blk s);
  fr_avail : avail sb F (blk s);
  fr_ip : (ip < length (icache s))%nat;
  fr_file : file_ok sb ds (blk s) (icache s !!! ip)
}.

(** A block the file has. *)
Lemma bmap_old_wp bn bs s (R : Z -> kstate -> Prop) :
  let x := icache s !!! ip in
  tx p [] bs s -> layout sb ds (nblocks s) -> file_ok sb ds (blk s) x -> 0 <= bn < MAXFILE -> (length bs < nbuf)%nat ->
  fblk (blk s) x bn <> 0 ->
  (forall s', tx p [] bs s' -> fframe s s' -> (forall c, blk s' c = blk s c) -> R (fblk (blk s) x bn) s') ->
  wp (bmap ip bn) R s.
Proof.
  intros x Ht Hla Hok Hbn Hn Ha HR. unfold bmap. apply wp_bind, wp_gets. fold x. unfold fblk in Ha, HR. destruct (bn <? NDIRECT) eqn:Ed; zbool.
  - apply wp_bind, wp_gets. fold x. rewrite (proj2 (Z.eqb_neq _ _) Ha). apply wp_ret. by apply HR.
  - destruct (Z.eqb_spec (ind x) 0) as [|Hi]; [done|]. cbv zeta. rewrite (proj2 (Z.ltb_lt _ _)) by (unfold MAXFILE in Hbn; lia).
    apply wp_bind, wp_gets. fold x. change (i_addrs x !!! ndirect) with (ind x). apply wp_bind. rewrite (proj2 (Z.eqb_neq _ _) Hi).
    apply wp_ret, wp_bind. rewrite (fo_dev _ _ _ _ Hok). destruct (fo_ind _ _ _ _ Hok Hi) as [Hr _]. pose proof Hla as [L1 L2 L3 L4].
    eapply tx_bread; [exact Ht|lia|set_solver|cbn; lia|]. intros i s1 Ht1 Hf1 Hb1. apply wp_bind, getb_wp.
    rewrite (tx_data _ _ _ _ i (ind x) Ht1), Hb1 by by left. apply wp_bind. rewrite (proj2 (Z.eqb_neq _ _) Ha). apply wp_ret, wp_bind.
    eapply tx_brelse; [exact Ht1|]. intros s2 Ht2 Hf2 Hb2. apply wp_ret. apply HR; [done|by transitivity s1|]. intros c. by rewrite Hb2.
Qed.

(** An allocation leaves the file as it is. *)
Lemma balloc_ready H bs F s (R : Z -> kstate -> Prop) :
  fs_ready H bs F s -> F <> [] -> bm ∉ H.*2 -> (forall b, b ∈ H.*2 -> used (blk s bm) b = true) -> (length H <= 1)%nat ->
  (weight sb bs (icache s !!! ip) + 1 < log_limit)%nat ->
  (forall b s1 F1, 0 <= b < sb_size sb -> used (blk s bm) b = false -> (forall c, blk s1 c = allocated sb b (blk s) c) ->
     fs_ready H (absorb b (absorb bm bs)) F1 s1 -> (length F <= S (length F1))%nat -> fframe s s1 -> R b s1) ->
  wp (balloc ROOTDEV) R s.
Proof.
  intros [Ht Esb Hla Hds Hlog Hbm Hav Hip Hok] HF HbH Hused HH Hw HR. unfold log_limit in Hw.
  pose proof (weight_length sb bs (icache s !!! ip)). pose proof (weight_length sb (absorb bm bs) (icache s !!! ip)).
  pose proof (weight_bm sb bs (icache s !!! ip)).
  assert (length (blk s bm) = bsize) as Hlen by (eapply tx_blk_length; [done|]; destruct Hla; lia).
  eapply balloc_wp; [exact Ht|exact Esb|exact Hla|exact Hlog|destruct Hla; lia|done|exact Hav|done|done|done| | | | |].
  1-4: unfold log_limit, nbuf; change (Z.to_nat NBUF) with 30%nat; lia.
  intros b s1 Hb Hu Ht1 Hf1 Hb1. destruct (alloc_avail sb ds _ b _ Hla Hbm Hlen Hb Hu F Hav) as (F1 & HF1 & HlF).
  apply (HR b s1 F1); [done|done|done| |done|done].
  pose proof (fframe_nblocks _ _ Hf1) as En. pose proof (ff_ic _ _ Hf1) as Ei.
  split; rewrite ?En, ?Ei, ?(fframe_start _ _ Hf1); try done.
  - rewrite (ff_sb _ _ Hf1). done.
  - rewrite (Hb1 : pointwise_relation Z eq _ _). by eapply alloc_bitmap.
  - by rewrite (Hb1 : pointwise_relation Z eq _ _).
  - rewrite (Hb1 : pointwise_relation Z eq _ _). by eapply alloc_file.
Qed.

Lemma ready_inode H bs F s x : fs_ready H bs F s -> file_ok sb ds (blk s) x -> fs_ready H bs F (put_icache (<[ip := x]> (icache s)) s).
Proof.
  intros [Ht Esb Hla Hds Hlog Hbm Hav Hip Hok] Hx. split; try done; [by apply tx_icache|by cbn; rewrite length_insert|].
  cbn [icache put_icache]. by rewrite list_lookup_total_insert_eq.
Qed.

Lemma iframe_inode s s1 x : fframe s s1 -> (ip < length (icache s))%nat -> iframe ip s (put_icache (<[ip := x]> (icache s1)) s1).
Proof.
  intros Hf Hip. pose proof (ff_ic _ _ Hf) as E. destruct Hf. split; try done. cbn [icache put_icache]. rewrite E.
  by rewrite list_lookup_total_insert_eq by (by rewrite ?E).
Qed.

Lemma ready_bm H bs F s : fs_ready H bs F s -> 0 < ds /\ length (blk s bm) = bsize.
Proof.
  intros Hr. destruct (fr_layout _ _ _ _ Hr). pose proof (fr_ds _ _ _ _ Hr). split; [lia|]. eapply tx_blk_length; [by eapply fr_tx|lia].
Qed.

(** A direct block is added. *)
Lemma bmap_direct_wp bn bs F s (R : Z -> kstate -> Prop) :
  let x := icache s !!! ip in
  fs_ready [] bs F s -> F <> [] -> 0 <= bn < NDIRECT -> fblk (blk s) x bn = 0 -> (weight sb bs x + 1 < log_limit)%nat ->
  (forall a s' bs' F', fs_ready [] bs' F' s' -> iframe ip s s' ->
     maps sb 1 bn a (blk s) (blk s') x (icache s' !!! ip) bs bs' F F' -> R a s') ->
  wp (bmap ip bn) R s.
Proof.
  intros x Hr HF Hbn Ha Hw HR. pose proof Hr as [Ht Esb Hla Hds Hlog Hbm Hav Hip Hok]. fold x in Hok. destruct (ready_bm _ _ _ _ Hr) as [Hds0 Hlen].
  unfold bmap. apply wp_bind, wp_gets. fold x. unfold fblk in Ha. rewrite (proj2 (Z.ltb_lt _ _)) in * by lia.
  apply wp_bind, wp_gets. fold x. rewrite Ha. cbn [Z.eqb]. rewrite (fo_dev _ _ _ _ Hok). apply wp_bind.
  eapply balloc_ready; [exact Hr|done|set_solver|set_solver|cbn; lia|done|]. intros b s1 F1 Hb Hu Hb1 Hr1 HlF Hf1.
  apply wp_bind, wp_modify, wp_ret. rewrite alter_insert. rewrite (ff_ic _ _ Hf1). fold x.
  set (x' := set_i_addrs _ x). pose proof (fo_len _ _ _ _ Hok) as Hal. set (bs1 := absorb b (absorb bm bs)) in *.
  assert (file_ok sb ds (blk s1) x' /\ maps sb 1 bn b (blk s) (blk s1) x x' bs bs1 F F1) as [Hok' Hmaps].
  { assert (ind x' = ind x) as Ei by (unfold ind, x'; cbn; apply list_lookup_total_insert_ne; unfold ndirect, NDIRECT in *; lia).
    eapply alloc_maps; try done.
    - change MAXFILE with 140. change NDIRECT with 12 in Hbn. lia.
    - unfold fblk. by rewrite (proj2 (Z.ltb_lt _ _)) by lia.
    - by cbn; rewrite length_insert.
    - intros k Hk. unfold x'. rewrite (Hb1 : pointwise_relation Z eq _ _), fblk_put by done. case_decide; [done|]. by eapply alloc_fblk.
    - apply absorb_elem. by left.
    - rewrite (weight_same _ _ x x') by done. etransitivity; [apply weight_absorb|]. apply le_n_S, weight_bm. }
  rewrite <- (ff_ic _ _ Hf1). apply (HR b _ bs1 F1).
  - by apply ready_inode.
  - by apply iframe_inode.
  - cbn [icache put_icache]. rewrite list_lookup_total_insert_eq; [done|]. by rewrite (ff_ic _ _ Hf1).
Qed.

Lemma ready_frame H H' bs bs' F s s' :
  fs_ready H bs F s -> tx p H' bs' s' -> fframe s s' -> blk s' bm = blk s bm -> file_ok sb ds (blk s') (icache s !!! ip) -> fs_ready H' bs' F s'.
Proof.
  intros [Ht Esb Hla Hds Hlog Hbm Hav Hip Hok] Ht' Hf E Hok'. pose proof (ff_ic _ _ Hf) as Ei.
  split; rewrite ?(fframe_nblocks _ _ Hf), ?Ei, ?(fframe_start _ _ Hf); try done; [by rewrite (ff_sb _ _ Hf)|..]; unfold bitmap_ok, avail; by rewrite E.
Qed.

(** The indirect block's entry. *)
Lemma bmap_entry_wp bn bs F s (R : Z -> kstate -> Prop) :
  let x := icache s !!! ip in
  let o := Z.to_nat (4 * (bn - NDIRECT)) in
  fs_ready [] bs F s -> F <> [] -> NDIRECT <= bn < MAXFILE -> ind x <> 0 -> (weight sb bs x + 1 < log_limit)%nat ->
  (forall a s' bs' F', fs_ready [] bs' F' s' -> fframe s s' -> maps sb 1 bn a (blk s) (blk s') x x bs bs' F F' -> R a s') ->
  wp (let* bp := bread ROOTDEV (ind x) in
      let* d := getb bp b_data in
      let* addr := (if get32 d o =? 0 then
          let* addr := balloc ROOTDEV in edit bp (put32 o addr) ;;; log_write bp ;;; ret addr
        else ret (get32 d o)) in
      brelse bp ;;; ret addr) R s.
Proof.
  intros x o Hr HF Hbn Hi Hw HR. pose proof Hr as [Ht Esb Hla Hds Hlog Hbm Hav Hip Hok]. fold x in Hok. destruct (ready_bm _ _ _ _ Hr) as [Hds0 Hlen].
  destruct (fo_ind _ _ _ _ Hok Hi) as [Hir Hiu]. pose proof (la_bm _ _ _ Hla) as Hbmr. pose proof (la_size _ _ _ Hla) as Hsz.
  pose proof (weight_length sb bs x) as Hwl. change NDIRECT with 12 in *. change MAXFILE with 140 in Hbn.
  apply wp_bind. eapply tx_bread; [exact Ht|lia|set_solver|cbn; unfold log_limit in Hw; change nbuf with 30%nat; lia|].
  intros i s1 Ht1 Hf1 Hb1. apply wp_bind, getb_wp. rewrite (tx_data _ _ _ _ i (ind x) Ht1), Hb1 by by left.
  assert (fs_ready [(i, ind x)] bs F s1) as Hr1.
  { eapply ready_frame; [exact Hr|done|done|by rewrite Hb1|]. by rewrite (Hb1 : pointwise_relation Z eq _ _). }
  assert (fblk (blk s) x bn = get32 (blk s (ind x)) o) as Ea.
  { unfold fblk. change NDIRECT with 12. rewrite (proj2 (Z.ltb_ge _ _)) by lia. by rewrite (proj2 (Z.eqb_neq _ _) Hi). }
  pose proof (ff_ic _ _ Hf1) as Ei1. rewrite <- Ea. destruct (Z.eqb_spec (fblk (blk s) x bn) 0) as [Ha|Ha].
  - apply wp_bind, wp_bind. eapply balloc_ready; [exact Hr1|done|cbn; set_unfold; lia|..].
    { cbn. intros c Hc%list_elem_of_singleton. subst c. by rewrite Hb1. }
    { done. }
    { by rewrite Ei1. }
    rewrite Hb1. intros b s2 F2 Hb Hu Hb2 Hr2 HlF Hf2. assert (Hb2' : pointwise_relation Z eq (blk s2) (allocated sb b (blk s))).
    { intros c. rewrite Hb2. unfold allocated. by rewrite !Hb1. }
    set (bs2 := absorb b (absorb bm bs)) in *.
    assert (weight sb bs2 x <= S (weight sb bs x))%nat as Hw2 by (etransitivity; [apply weight_absorb|]; apply le_n_S, weight_bm).
    pose proof (weight_length sb bs2 x) as Hwl2.
    assert (blk s2 (ind x) = blk s (ind x)) as Eind.
    { rewrite (Hb2' _). eapply alloc_same; [congruence|lia]. }
    assert (length (blk s (ind x)) = bsize) as Hil by (eapply tx_blk_length; [exact Ht|lia]).
    eapply (tx_log p [] bs2 s2 i (ind x)); [by eapply fr_tx| |by rewrite length_put32, Eind|lia|].
    { assert (fframe s s2) as Hfs by by transitivity s1. rewrite (fframe_start _ _ Hfs), (fframe_nblocks _ _ Hfs). split; lia. }
    intros s3 Ht3 Hf3 Hb3. apply wp_ret, wp_bind. eapply tx_brelse; [exact Ht3|]. intros s4 Ht4 Hf4 Hb4. apply wp_ret.
    assert (fframe s s4) as Hfs by (transitivity s1; [done|]; transitivity s2; [done|]; by transitivity s3).
    assert (forall c, blk s4 c = if decide (c = ind x) then put32 o b (blk s (ind x)) else allocated sb b (blk s) c) as E4.
    { intros c. rewrite Hb4, Hb3, Eind. case_decide; [done|]. apply Hb2'. }
    assert (file_ok sb ds (blk s4) x /\ maps sb 1 bn b (blk s) (blk s4) x x bs (absorb (ind x) bs2) F F2) as [Hok' Hmaps].
    { eapply alloc_maps; try done.
      - change MAXFILE with 140. lia.
      - clear. by destruct x.
      - by apply (fo_len _ _ _ _ Hok).
      - intros c Hc. rewrite E4. by rewrite decide_False by auto.
      - intros k Hk. change MAXFILE with 140 in Hk. apply fblk_put32; [done|lia|lia|by rewrite E4, decide_True|done|destruct Hla; lia].
      - apply absorb_elem. right. apply absorb_elem. by left.
      - etransitivity; [|exact Hw2]. apply weight_ind; [done|by left]. }
    eapply HR; [|done|exact Hmaps]. eapply ready_frame; [exact Hr2|exact Ht4|by transitivity s3| |].
    + rewrite E4, decide_False by lia. symmetry. apply Hb2'.
    + rewrite (ff_ic _ _ Hf2), Ei1. done.
  - apply wp_bind, wp_ret, wp_bind. eapply tx_brelse; [exact Ht1|]. intros s2 Ht2 Hf2 Hb2. apply wp_ret.
    assert (pointwise_relation Z eq (blk s2) (blk s)) as E by (intros c; by rewrite Hb2).
    assert (fframe s s2) as Hfs by by transitivity s1.
    eapply HR; [|done|by apply maps_refl]. eapply ready_frame; [exact Hr|exact Ht2|done|by rewrite (E bm)|]. by rewrite E.
Qed.

(** The indirect block. *)
Lemma bmap_ind_wp bs F s (R : Z -> kstate -> Prop) :
  let x := icache s !!! ip in
  fs_ready [] bs F s -> F <> [] -> (weight sb bs x + 1 < log_limit)%nat ->
  (forall s' bs' F', fs_ready [] bs' F' s' -> iframe ip s s' ->
     grown sb (blk s) (blk s') x (icache s' !!! ip) bs bs' F F' -> R (ind (icache s' !!! ip)) s') ->
  wp (if ind x =? 0 then
        let* addr := balloc ROOTDEV in
        seti ip (fun x => set_i_addrs (<[ndirect := addr]> (i_addrs x)) x) ;;;
        ret addr
      else ret (ind x)) R s.
Proof.
  intros x Hr HF Hw HR. pose proof Hr as [Ht Esb Hla Hds Hlog Hbm Hav Hip Hok]. fold x in Hok. destruct (ready_bm _ _ _ _ Hr) as [Hds0 Hlen].
  destruct (Z.eqb_spec (ind x) 0) as [Hi|Hi].
  - apply wp_bind. eapply balloc_ready; [exact Hr|done|set_solver|set_solver|cbn; lia|done|]. intros b s1 F1 Hb Hu Hb1 Hr1 HlF Hf1.
    apply wp_bind, wp_modify, wp_ret. rewrite alter_insert. rewrite (ff_ic _ _ Hf1). fold x. pose proof (fo_len _ _ _ _ Hok) as Hal.
    set (x' := set_i_addrs _ x). set (bs1 := absorb b (absorb bm bs)) in *.
    assert (ind x' = b) as Ei by (unfold ind, x'; cbn [i_addrs set_i_addrs]; apply list_lookup_total_insert_eq; lia).
    assert (icache (put_icache (<[ip:=x']> (icache s)) s1) !!! ip = x') as Ex by (cbn [icache put_icache]; by apply list_lookup_total_insert_eq).
    assert (b <> 0) as Hb0 by (pose proof (Hbm b Hb Hu); lia).
    assert (blk s1 b = zero_block) as Ez by (rewrite Hb1; unfold allocated; by rewrite decide_True).
    assert (forall k, 0 <= k < MAXFILE -> fblk (blk s1) x' k = fblk (blk s) x k) as Hfb.
    { intros k Hk. unfold x'. rewrite fblk_put_ind by done. rewrite (Hb1 : pointwise_relation Z eq _ _). by eapply alloc_fblk. }
    assert (forall c, 0 <= c < sb_size sb -> used (blk s bm) c = true -> used (blk s1 bm) c = true) as Hm.
    { intros c. rewrite Hb1. by eapply alloc_mono. }
    assert (file_ok sb ds (blk s1) x') as Hok1.
    { eapply (file_ok_ind _ _ (blk s) _ x); rewrite ?Ei; try done; [by cbn; rewrite length_insert|].
      unfold data_used. rewrite Hb1. by eapply alloc_data_used. }
    rewrite <- Ei at 1. rewrite <- Ex at 1. apply (HR _ bs1 F1).
    + pose proof (ready_inode _ _ _ s1 x' Hr1 Hok1) as H. by rewrite (ff_ic _ _ Hf1) in H.
    + pose proof (iframe_inode s s1 x' Hf1 Hip) as H. by rewrite (ff_ic _ _ Hf1) in H.
    + rewrite Ex. split; try done; rewrite ?Ei; try done.
      * by right.
      * intros c Hc Hu' Hne. change (blk s1 c = blk s c). rewrite Hb1. apply alloc_same; [congruence|done].
      * unfold bs1. rewrite <- Ei. etransitivity; [apply (weight_ind _ _ x)|apply weight_bm]; [by rewrite Ei|by right].
  - apply wp_ret. apply (HR s bs F Hr); [apply fframe_iframe; done|]. split; fold x; try done; [lia|clear; by destruct x|by left].
Qed.

Lemma bmap_wp bn bs F s (R : Z -> kstate -> Prop) :
  let x := icache s !!! ip in
  fs_ready [] bs F s -> 0 <= bn < MAXFILE -> (fblk (blk s) x bn = 0 -> (2 <= length F)%nat) -> (weight sb bs x + 1 < log_limit)%nat ->
  (forall a s' bs' F', fs_ready [] bs' F' s' -> iframe ip s s' ->
     maps sb (if decide (fblk (blk s) x bn = 0) then 2 else 0) bn a (blk s) (blk s') x (icache s' !!! ip) bs bs' F F' -> R a s') ->
  wp (bmap ip bn) R s.
Proof.
  intros x Hr Hbn HF Hw HR. pose proof Hr as [Ht Esb Hla Hds Hlog Hbm Hav Hip Hok]. fold x in Hok. destruct (ready_bm _ _ _ _ Hr) as [Hds0 Hlen].
  pose proof (weight_length sb bs x) as Hwl. pose proof (la_bm _ _ _ Hla) as Hbmr. destruct (decide (fblk (blk s) x bn = 0)) as [Ha|Ha].
  2: { eapply bmap_old_wp; [exact Ht|exact Hla|done|done|unfold log_limit in Hw; change nbuf with 30%nat; lia|done|]. fold x.
    intros s1 Ht1 Hf1 Hb1. apply (HR _ s1 bs F).
    - eapply ready_frame; [exact Hr|done|done|by rewrite Hb1|]. by rewrite (Hb1 : pointwise_relation Z eq _ _).
    - by apply fframe_iframe.
    - rewrite (ff_ic _ _ Hf1). by apply maps_refl. }
  specialize (HF Ha). assert (F <> []) as HF0 by (intros ->; cbn in HF; lia). destruct (decide (bn < NDIRECT)) as [Hd|Hd].
  - eapply bmap_direct_wp; [exact Hr|done|lia|done|done|]. intros a s' bs' F' Hr' Hf' [M1 M2 Mi M3 M4 M5 M6 M7 M8 M9].
    eapply HR; [exact Hr'|done|]. split; try done. lia.
  - unfold bmap. apply wp_bind, wp_gets. fold x. rewrite (fo_dev _ _ _ _ Hok). rewrite (proj2 (Z.ltb_ge _ _)) by lia. cbv zeta.
    rewrite (proj2 (Z.ltb_lt _ _)) by (unfold MAXFILE in Hbn; lia). apply wp_bind, wp_gets. fold x. change (i_addrs x !!! ndirect) with (ind x).
    apply wp_bind. eapply bmap_ind_wp; [exact Hr|done|done|]. intros s1 bs1 F1 Hr1 Hf1 Hg. fold x in Hg.
    pose proof (gr_weight _ _ _ _ _ _ _ _ _ Hg) as Gw. pose proof (gr_free _ _ _ _ _ _ _ _ _ Hg) as Gf.
    eapply (bmap_entry_wp bn bs1 F1 s1); [done|by intros ->; cbn in Gf; lia|lia|by apply Hg|lia|].
    intros a s2 bs2 F2 Hr2 Hf2 Hm. apply (HR a s2 bs2 F2); [done| |].
    + transitivity s1; [done|]. apply fframe_iframe; [done|]. by apply Hr1.
    + rewrite (ff_ic _ _ Hf2). eapply grown_maps; [exact Hg|exact Hm|done| |done|done|lia]. rewrite <- (ff_ic _ _ Hf2). by apply Hr2.
Qed.

End bmap.
