(* ===== verification/FsData.v ===== *)
(** * File contents

    [readi] and [writei] against a file as a sequence of bytes. *)

From S2P Require Import Prelude Bytes Monad Machine ProcDefs ProcInv Proc KernDefs Sleeplock Bio BioInv Log LogInv LogCrash LogOps Fs FsTx FsBitmap FsFile.

(** Byte [o] of the file with inode [x], and [n] of its bytes from [off]. *)
Definition fbyte (V : Z -> block) (x : inode) (o : Z) : Z := byte_at (V (fblk V x (o / BSIZE))) (Z.to_nat (o mod BSIZE)).
Definition content (V : Z -> block) (x : inode) (off : Z) (n : nat) : list Z := map (fun i => fbyte V x (off + Z.of_nat i)) (seq 0 n).

Lemma content_app V x off n m : content V x off (n + m) = content V x off n ++ content V x (off + Z.of_nat n) m.
Proof.
  unfold content. rewrite seq_app, map_app. f_equal. cbn [Nat.add]. apply list_eq. intros i. rewrite !list_lookup_fmap.
  destruct (decide (i < m)%nat); [rewrite !lookup_seq_lt by lia; cbn; do 2 f_equal; lia|by rewrite !lookup_seq_ge by lia].
Qed.

Lemma blk_read_bytes o m d : (o + m <= length d)%nat -> blk_read o m d = map (fun i => byte_at d (o + i)) (seq 0 m).
Proof.
  intros Hl. unfold blk_read. apply list_eq. intros i. rewrite list_lookup_fmap. destruct (decide (i < m)%nat) as [Hi|Hi].
  - rewrite lookup_take_lt by lia. rewrite lookup_drop, lookup_seq_lt by lia. cbn. unfold byte_at. rewrite nth_lookup.
    destruct (lookup_lt_is_Some_2 d (o + i)) as [v ->]; [lia|done].
  - rewrite lookup_take_ge, lookup_seq_ge by lia. done.
Qed.

Lemma block_of off m : 0 <= off -> 0 <= m < 512 - off mod 512 -> (off + m) / 512 = off / 512 /\ (off + m) mod 512 = off mod 512 + m.
Proof. intros. zdiv. Qed.

Lemma next_block off : 0 <= off -> (off + (512 - off mod 512)) mod 512 = 0 /\ (off + (512 - off mod 512)) / 512 = off / 512 + 1.
Proof. intros. zdiv. Qed.

(** Part of one block. *)
Lemma content_block V x off m :
  0 <= off -> (m <= 512)%nat -> off mod BSIZE + Z.of_nat m <= BSIZE -> length (V (fblk V x (off / BSIZE))) = bsize ->
  content V x off m = blk_read (Z.to_nat (off mod BSIZE)) m (V (fblk V x (off / BSIZE))).
Proof.
  intros H0 Hm Hr Hl. change bsize with 512%nat in Hl. unfold BSIZE in *. rewrite blk_read_bytes by lia. unfold content.
  apply list_fmap_ext. intros i k [-> Hk]%lookup_seq. cbn. unfold fbyte, BSIZE.
  destruct (block_of off (Z.of_nat i)) as [-> ->]; [lia|lia|]. f_equal. pose proof (Z.mod_pos_bound off 512). lia.
Qed.

#[export] Instance fbyte_proper : Proper (pointwise_relation Z eq ==> eq ==> eq ==> eq) fbyte.
Proof. intros V W E x _ <- o _ <-. unfold fbyte. rewrite (fblk_proper _ _ E _ _ eq_refl _ _ eq_refl). by rewrite (E _). Qed.

#[export] Instance content_proper : Proper (pointwise_relation Z eq ==> eq ==> eq ==> eq ==> eq) content.
Proof. intros V W E x _ <- off _ <- n _ <-. unfold content. apply list_fmap_ext. intros. by rewrite E. Qed.

Section data.
Context {FU : Fuel} {BD : BlockDevice} {SD : SyncDevice} {DV : DevSw} (p : nat) (sb : superblock) (ds : Z) (ip : nat).
Abbreviation bm := (sb_bmapstart sb).

(** ** Reading *)

Lemma readi_loop_wp f bs n tot off acc s (R : list Z -> kstate -> Prop) :
  let x := icache s !!! ip in
  tx p [] bs s -> layout sb ds (nblocks s) -> ds <= nblocks s -> file_ok sb ds (blk s) x -> (length bs + 1 < nbuf)%nat ->
  0 <= off -> 0 <= tot <= n -> off + (n - tot) <= i_size x -> (tot < n -> off mod BSIZE + (n - tot) <= (Z.of_nat f - 1) * BSIZE) -> (0 < f)%nat ->
  (forall s', tx p [] bs s' -> fframe s s' -> (forall c, blk s' c = blk s c) -> R (acc ++ content (blk s) x off (Z.to_nat (n - tot))) s') ->
  wp (readi_loop f ip off n tot acc) R s.
Proof.
  revert tot off acc s. induction f as [|f IH]; intros tot off acc s x Ht Hla Hds Hok Hn Hoff Htot Hsz Hf Hf0 HR; [lia|]. cbn [readi_loop].
  destruct (Z.ltb_spec tot n) as [Hlt|Hge]; cbn [negb].
  2: { apply wp_ret. replace (Z.to_nat (n - tot)) with 0%nat in HR by lia. cbn in HR. rewrite app_nil_r in HR. by apply HR. }
  pose proof (fo_size _ _ _ _ Hok) as Hs. apply wp_bind, wp_gets. fold x. rewrite (fo_dev _ _ _ _ Hok).
  unfold BSIZE in *. change MAXFILE with 140 in Hs.
  assert (0 <= off / 512 < 140 /\ off / 512 * 512 <= off < off / 512 * 512 + 512 /\ 0 <= off mod 512 < 512) as (Hbn & Hbo & Hmo).
  { clear - Hoff Hsz Hs Hlt. zdiv. }
  change 140 with MAXFILE in Hbn.
  assert (fblk (blk s) x (off / 512) <> 0) as Ha by (apply (fo_full _ _ _ _ Hok); unfold BSIZE; lia).
  destruct (fo_blk _ _ _ _ Hok _ Hbn Ha) as [Har Hau]. pose proof (la_bm _ _ _ Hla) as Hbmr. pose proof (la_size _ _ _ Hla) as Hszb.
  apply wp_bind. eapply bmap_old_wp; [exact Ht|exact Hla|done|done|lia|done|]. fold x. intros s1 Ht1 Hf1 Hb1. apply wp_bind.
  eapply tx_bread; [exact Ht1|rewrite (fframe_nblocks _ _ Hf1); lia|set_solver|cbn; lia|]. intros i s2 Ht2 Hf2 Hb2. cbv zeta.
  apply wp_bind, getb_wp. rewrite (tx_data _ _ _ _ i _ Ht2) by by left. rewrite Hb2, Hb1.
  apply wp_bind. eapply tx_brelse; [exact Ht2|]. intros s3 Ht3 Hf3 Hb3.
  assert (fframe s s3) as Hfs by (transitivity s1; [done|]; by transitivity s2).
  assert (pointwise_relation Z eq (blk s3) (blk s)) as Es by (intros c; by rewrite Hb3, Hb2).
  assert (icache s3 !!! ip = x) as Ex by (by rewrite (ff_ic _ _ Hfs)).
  set (m := Z.min (n - tot) (512 - off mod 512)). assert (0 < m <= n - tot /\ m <= 512 - off mod 512) as Hm by (unfold m; lia).
  rewrite (u32_small (off + m)) by lia.
  apply IH; rewrite ?Ex, ?(fframe_nblocks _ _ Hfs); try done; try lia.
  - by rewrite Es.
  - intros Hmore. assert (m = 512 - off mod 512) as -> by (unfold m in *; lia). destruct (next_block off) as [-> _]; lia.
  - intros s4 Ht4 Hf4 Hb4. specialize (HR s4 Ht4 ltac:(by transitivity s3) ltac:(intros c; by rewrite Hb4)).
    replace (Z.to_nat (n - tot)) with (Z.to_nat m + Z.to_nat (n - (tot + m)))%nat in HR by lia.
    rewrite content_app, app_assoc, content_block, Z2Nat.id in HR; unfold BSIZE in *; try lia; [by rewrite Es|].
    eapply tx_blk_length; [exact Ht|lia].
Qed.

(** As many bytes as asked for and as there are. *)
Lemma readi_wp off n bs s (R : option (list Z) -> kstate -> Prop) :
  let x := icache s !!! ip in
  tx p [] bs s -> layout sb ds (nblocks s) -> ds <= nblocks s -> file_ok sb ds (blk s) x -> (length bs + 1 < nbuf)%nat ->
  i_type x <> T_DEV -> 0 <= off <= i_size x -> 0 <= n -> off + n < 2 ^ 32 ->
  (forall s', tx p [] bs s' -> fframe s s' -> (forall c, blk s' c = blk s c) ->
     R (Some (content (blk s) x off (Z.to_nat (Z.min n (i_size x - off))))) s') ->
  wp (readi ip off n) R s.
Proof.
  intros x Ht Hla Hds Hok Hn Hty Hoff Hn0 Hlt HR. pose proof (fo_size _ _ _ _ Hok) as Hs. change (MAXFILE * BSIZE) with 71680 in Hs.
  unfold readi. apply wp_bind, wp_gets. fold x. rewrite (proj2 (Z.eqb_neq _ _) Hty).
  rewrite (u32_small (off + n)), (u32_small (i_size x - off)) by lia.
  rewrite (proj2 (Z.ltb_ge (i_size x) off)), (proj2 (Z.ltb_ge (off + n) off)) by lia. cbn [orb].
  set (n' := if i_size x <? off + n then _ else n). assert (n' = Z.min n (i_size x - off)) as En.
  { unfold n'. destruct (Z.ltb_spec (i_size x) (off + n)); lia. }
  apply wp_bind. eapply readi_loop_wp; [exact Ht|exact Hla|exact Hds|done|done|lia|lia|fold x; lia| |unfold rw_fuel; lia|].
  - intros _. unfold rw_fuel, BSIZE. rewrite !Nat2Z.inj_succ, Z2Nat.id by (clear -En Hn0 Hoff; zdiv). clear. zdiv.
  - intros s' Ht' Hf' Hb'. apply wp_ret. rewrite En, Z.sub_0_r. by apply HR.
Qed.

(** C19. Reading a file that is not a device returns its bytes from [off] on, as
    many as asked for and as there are, and changes nothing. *)
Theorem readi_content off n bs s :
  let x := icache s !!! ip in
  tx p [] bs s -> layout sb ds (nblocks s) -> ds <= nblocks s -> file_ok sb ds (blk s) x -> (length bs + 1 < nbuf)%nat ->
  i_type x <> T_DEV -> 0 <= off <= i_size x -> 0 <= n -> off + n < 2 ^ 32 ->
  wp (readi ip off n)
    (fun r s' => r = Some (content (blk s) x off (Z.to_nat (Z.min n (i_size x - off)))) /\
       tx p [] bs s' /\ fframe s s' /\ forall c, blk s' c = blk s c) s.
Proof. intros x Ht Hla Hds Hok Hn Hty Hoff Hn0 Hlt. eapply readi_wp; [done..|]. done. Qed.

(** ** Writing *)

(** The blocks of the file. *)
Definition owned (V : Z -> block) (x : inode) (c : Z) : Prop :=
  ind x <> 0 /\ c = ind x \/ exists k, 0 <= k < MAXFILE /\ fblk V x k <> 0 /\ c = fblk V x k.

(** The bytes [l] were written to the file at [off]. *)
Record wrote (off : Z) (l : list Z) (V V' : Z -> block) (x x' : inode) : Prop := {
  wr_attr : x' = set_i_addrs (i_addrs x') x;
  wr_new : forall o, off <= o < off + Z.of_nat (length l) -> fblk V' x' (o / BSIZE) <> 0 /\ fbyte V' x' o = nth (Z.to_nat (o - off)) l 0;
  wr_old : forall o, 0 <= o < MAXFILE * BSIZE -> ~ off <= o < off + Z.of_nat (length l) -> fblk V x (o / BSIZE) <> 0 -> fbyte V' x' o = fbyte V x o;
  wr_keep : forall k, 0 <= k < MAXFILE -> fblk V x k <> 0 -> fblk V' x' k = fblk V x k;
  wr_own : forall c, 0 <= c < sb_size sb -> owned V' x' c -> owned V x c \/ used (V bm) c = false;
  wr_same : forall c, 0 <= c < sb_size sb -> used (V bm) c = true -> c <> bm -> ~ owned V x c -> V' c = V c;
  wr_used : forall c, 0 <= c < sb_size sb -> used (V bm) c = true -> used (V' bm) c = true
}.

Lemma wrote_app off l1 l2 V V1 V2 x x1 x2 :
  0 <= off -> off + Z.of_nat (length l1 + length l2) <= MAXFILE * BSIZE ->
  wrote off l1 V V1 x x1 -> wrote (off + Z.of_nat (length l1)) l2 V1 V2 x1 x2 -> wrote off (l1 ++ l2) V V2 x x2.
Proof.
  intros Hoff Hmax [A1 A2 A3 A4 A5 A6 A7] [B1 B2 B3 B4 B5 B6 B7]. unfold BSIZE in *. change MAXFILE with 140 in *. split; unfold BSIZE; change MAXFILE with 140.
  - rewrite B1. cbn. rewrite A1 at 1. done.
  - intros o Ho. rewrite length_app in Ho. destruct (decide (o < off + Z.of_nat (length l1))) as [H1|H1].
    + destruct (A2 o) as [N1 N2]; [lia|]. assert (0 <= o / 512 < 140) as Hk by (clear -Hoff Ho Hmax; zdiv).
      rewrite B4 by done. split; [done|]. rewrite B3, N2 by (done || lia). by rewrite app_nth1 by lia.
    + destruct (B2 o) as [N1 N2]; [lia|]. split; [done|]. rewrite N2, app_nth2 by lia. f_equal. lia.
  - intros o Ho Hn Hk. rewrite length_app in Hn. rewrite B3; [apply A3; [done|lia|done]|done|lia|].
    rewrite A4; [done| |done]. clear -Ho. zdiv.
  - intros k Hk H. rewrite B4; [by apply A4|done|]. by rewrite A4.
  - intros c Hc H. destruct (B5 c Hc H) as [H'|H']; [by apply A5|]. right. apply not_true_iff_false. intros Hu.
    rewrite (A7 c Hc Hu) in H'. done.
  - intros c Hc Hu Hne Ho. rewrite B6; [by apply A6|done|by apply A7|done|]. intros H. destruct (A5 c Hc H); [done|congruence].
  - intros c Hc Hu. by apply B7, A7.
Qed.

Lemma wrote_nil off V V' x : pointwise_relation Z eq V' V -> wrote off [] V V' x x.
Proof.
  intros E. split.
  - clear. by destruct x.
  - cbn. lia.
  - intros. by rewrite E.
  - intros. by rewrite E.
  - intros c _. unfold owned. setoid_rewrite (fblk_proper _ _ E _ _ eq_refl _ _ eq_refl). by left.
  - intros. apply E.
  - intros. by rewrite (E bm).
Qed.

(** Part of one block is written. *)
Section block.
Context (n : nat) (bn a : Z) (V V1 V2 : Z -> block) (x x1 : inode) (bs bs1 F F1 : list Z) (l : list Z) (off : Z).
Hypotheses (Hm : maps sb n bn a V V1 x x1 bs bs1 F F1) (Hok : file_ok sb ds V x) (Hok1 : file_ok sb ds V1 x1).
Hypotheses (Hbn : 0 <= bn < MAXFILE) (Hds : bm < ds) (Hds0 : 0 < ds) (Hoff : 0 <= off) (Hb : off / 512 = bn).
Hypotheses (Hl : off mod 512 + Z.of_nat (length l) <= 512) (Hlen : length (V1 a) = bsize).
Hypothesis H2 : forall c, V2 c = if decide (c = a) then blk_write (Z.to_nat (off mod 512)) l (V1 a) else V1 c.

Lemma block_a : ds <= a < sb_size sb /\ used (V1 bm) a = true.
Proof. destruct (mp_a _ _ _ _ _ _ _ _ _ _ _ _ Hm) as [E E0]. rewrite <- E in E0 |- *. by apply (fo_blk _ _ _ _ Hok1). Qed.

Lemma block_fblk k : 0 <= k < MAXFILE -> fblk V2 x1 k = fblk V1 x1 k.
Proof.
  intros Hk. unfold fblk. destruct (k <? NDIRECT); [done|]. destruct (Z.eqb_spec (ind x1) 0) as [|Hi]; [done|]. rewrite H2, decide_False; [done|].
  destruct (mp_a _ _ _ _ _ _ _ _ _ _ _ _ Hm) as [E _]. pose proof (fo_sep _ _ _ _ Hok1 bn Hbn Hi). congruence.
Qed.

Lemma block_bm : V2 bm = V1 bm.
Proof. pose proof block_a as [Ha _]. rewrite H2, decide_False by lia. done. Qed.

Lemma block_file : file_ok sb ds V2 x1.
Proof.
  destruct Hok1 as [O1 O2 O3 O4 O5 O6 O7 O8]. unfold data_used in *. split; unfold data_used; rewrite ?block_bm; try done.
  - intros k Hk. rewrite block_fblk by done. by apply O3.
  - intros k k' Hk Hk'. rewrite !block_fblk by done. by apply O5.
  - intros k Hk. rewrite block_fblk by done. by apply O6.
  - intros k Hk Hs. rewrite block_fblk by (done || unfold MAXFILE, NDIRECT, NINDIRECT, BSIZE in *; lia). by apply O8.
Qed.

(** A block of the file before. *)
Lemma block_old k : 0 <= k < MAXFILE -> fblk V x k <> 0 -> k <> bn -> fblk V x k <> a /\ V1 (fblk V x k) = V (fblk V x k).
Proof.
  intros Hk H0 Hne. destruct (fo_blk _ _ _ _ Hok k Hk H0) as [Hr Hu]. destruct (mp_a _ _ _ _ _ _ _ _ _ _ _ _ Hm) as [E E0].
  split.
  - intros Ea. apply Hne. apply (fo_inj _ _ _ _ Hok1); [done|done|by rewrite (mp_other _ _ _ _ _ _ _ _ _ _ _ _ Hm)|].
    rewrite (mp_other _ _ _ _ _ _ _ _ _ _ _ _ Hm) by done. by rewrite E.
  - apply (mp_same _ _ _ _ _ _ _ _ _ _ _ _ Hm); [lia|done|lia|]. intros Hi. by apply (fo_sep _ _ _ _ Hok).
Qed.

Lemma block_own c : 0 <= c < sb_size sb -> owned V2 x1 c -> owned V x c \/ used (V bm) c = false.
Proof.
  intros Hc [[Hi ->]|(k & Hk & H0 & ->)].
  - destruct (mp_ind _ _ _ _ _ _ _ _ _ _ _ _ Hm) as [E|[E Hu]]; [left; left; by rewrite <- E|by right].
  - rewrite block_fblk in * by done. destruct (decide (k = bn)) as [->|Hne].
    + destruct (mp_a _ _ _ _ _ _ _ _ _ _ _ _ Hm) as [E E0]. rewrite E. destruct (decide (fblk V x bn = 0)) as [Hz|Hz].
      * right. by apply (mp_new _ _ _ _ _ _ _ _ _ _ _ _ Hm).
      * left. right. exists bn. split; [done|]. split; [done|]. by apply (mp_old _ _ _ _ _ _ _ _ _ _ _ _ Hm).
    + rewrite (mp_other _ _ _ _ _ _ _ _ _ _ _ _ Hm) in * by done. left. right. by exists k.
Qed.

Lemma block_wrote : wrote off l V V2 x x1.
Proof.
  pose proof Hm as [M1 M2 Mi [M3 M3'] M4 M5 M6 M7 M8 M9]. pose proof (Z.mod_pos_bound off 512 ltac:(lia)) as Hmo.
  change bsize with 512%nat in Hlen. split; unfold fbyte, BSIZE.
  - done.
  - intros o Ho. replace o with (off + (o - off)) by lia. destruct (block_of off (o - off)) as [-> ->]; [lia|lia|].
    rewrite Hb, block_fblk, M3 by done. split; [done|]. rewrite H2, decide_True by done.
    rewrite byte_at_blk_write by lia. rewrite decide_True by lia. f_equal. lia.
  - intros o Ho Hno H0. assert (0 <= o / 512 < MAXFILE) as Hk by (change MAXFILE with 140; change (0 <= o < 71680) in Ho; clear -Ho; zdiv).
    rewrite block_fblk by done. destruct (decide (o / 512 = bn)) as [E|E].
    + rewrite E in *. rewrite M3. destruct (M4 H0) as [<- Ev]. rewrite H2, decide_True by done.
      rewrite byte_at_blk_write by lia. rewrite decide_False; [by rewrite Ev|].
      pose proof (Z.div_mod o 512 ltac:(lia)). pose proof (Z.div_mod off 512 ltac:(lia)). pose proof (Z.mod_pos_bound o 512 ltac:(lia)). lia.
    + rewrite M6 by done. destruct (block_old _ Hk H0 E) as [N1 N2]. rewrite H2, decide_False by done. by rewrite N2.
  - intros k Hk H0. rewrite block_fblk by done. destruct (decide (k = bn)) as [->|E]; [|by apply M6].
    rewrite M3. by apply M4.
  - apply block_own.
  - intros c Hc Hu Hne Ho. assert (c <> a).
    { intros ->. destruct (decide (fblk V x bn = 0)) as [Hz|Hz]; [destruct (M5 Hz) as (_ & _ & ?); congruence|].
      apply Ho. right. exists bn. split; [done|]. split; [done|]. by apply M4. }
    rewrite H2, decide_False by done. apply M7; [done|done|done|]. intros Hi ->. apply Ho. by left.
  - rewrite block_bm. done.
Qed.

End block.

Lemma length_absorb_in b bs : b ∈ bs -> absorb b bs = bs.
Proof. intros H. unfold absorb. by rewrite decide_True. Qed.

(** What a mapped block and the change of its content add to the log. *)
Lemma maps_weight n bn a V V' x x' bs bs' F F' :
  maps sb n bn a V V' x x' bs bs' F F' -> (weight sb (absorb a bs') x' <= S (weight sb bs x))%nat.
Proof.
  intros [M1 M2 Mi M3 M4 M5 M6 M7 M8 M9]. destruct (decide (fblk V x bn = 0)) as [Hz|Hz].
  - destruct (M5 Hz) as (_ & Hin & _). rewrite length_absorb_in by done. lia.
  - etransitivity; [apply weight_absorb|]. lia.
Qed.

Lemma writei_loop_wp f k bs F n tot off src s (R : Z -> kstate -> Prop) :
  let x := icache s !!! ip in
  fs_ready p sb ds ip [] bs F s -> 0 <= off -> 0 <= tot <= n -> n - tot = Z.of_nat (length src) -> off + (n - tot) <= MAXFILE * BSIZE ->
  (tot < n -> off mod BSIZE + (n - tot) <= Z.of_nat k * BSIZE) -> (k < f)%nat ->
  (weight sb bs x + k < log_limit)%nat -> (2 * k <= length F)%nat ->
  (forall s' bs' F', fs_ready p sb ds ip [] bs' F' s' -> iframe ip s s' -> wrote off src (blk s) (blk s') x (icache s' !!! ip) ->
     (weight sb bs' (icache s' !!! ip) <= weight sb bs x + k)%nat -> R (off + (n - tot)) s') ->
  wp (writei_loop f ip off n tot src) R s.
Proof.
  revert k bs F tot off src s. induction f as [|f IH]; intros k bs F tot off src s x Hr Hoff Htot Hsrc Hmax Hk Hkf Hw HF HR; [lia|].
  change (MAXFILE * BSIZE) with 71680 in *. unfold BSIZE in *. cbn [writei_loop]. destruct (Z.ltb_spec tot n) as [Hlt|Hge]; cbn [negb].
  2: { apply wp_ret. replace (n - tot) with 0 in * by lia. rewrite Z.add_0_r in HR. destruct src; [|cbn in Hsrc; lia].
    apply (HR s bs F Hr); [by apply fframe_iframe; [|apply Hr]|by apply wrote_nil|fold x; lia]. }
  specialize (Hk Hlt). destruct k as [|k]; [pose proof (Z.mod_pos_bound off 512 ltac:(lia)); lia|].
  pose proof Hr as [Ht Esb Hla Hds Hlog Hbm Hav Hip Hok]. fold x in Hok. apply wp_bind, wp_gets. fold x. rewrite (fo_dev _ _ _ _ Hok).
  pose proof (la_bm _ _ _ Hla) as Hbmr. pose proof (la_size _ _ _ Hla) as Hszb. unfold BSIZE.
  assert (0 <= off / 512 < 140 /\ 0 <= off mod 512 < 512) as [Hbn Hmo] by (clear - Hoff Hmax Hlt; zdiv). change 140 with MAXFILE in Hbn.
  set (m := Z.min (n - tot) (512 - off mod 512)). assert (0 < m <= n - tot /\ m <= 512 - off mod 512) as Hm by (unfold m; lia).
  apply wp_bind. eapply (bmap_wp p sb ds ip); [exact Hr|done|intros; lia|fold x; lia|]. fold x. intros a s1 bs1 F1 Hr1 Hf1 Hmp.
  pose proof (mp_free _ _ _ _ _ _ _ _ _ _ _ _ Hmp) as Hfree. pose proof (maps_weight _ _ _ _ _ _ _ _ _ _ _ Hmp) as Hw1.
  set (x1 := icache s1 !!! ip) in *. pose proof Hr1 as [Ht1 Esb1 Hla1 Hds1 Hlog1 Hbm1 Hav1 Hip1 Hok1]. fold x1 in Hok1.
  set (l := take (Z.to_nat m) src). assert (length l = Z.to_nat m) as El by (unfold l; rewrite length_take; lia).
  assert (0 < ds) as Hds0 by lia. assert (bm < ds) as Hbds by lia. assert (off mod 512 + Z.of_nat (length l) <= 512) as Hll by lia. pose proof (la_size _ _ _ Hla1) as Hszb1. assert (ds <= a < sb_size sb /\ used (blk s1 bm) a = true) as [Har Hau] by (eapply block_a; [exact Hmp|exact Hok1|done]).
  assert (length (blk s1 a) = bsize) as Hla' by (eapply tx_blk_length; [exact Ht1|lia]).
  pose proof (weight_length sb bs1 x1) as Hwl1. pose proof (weight_length sb (absorb a bs1) x1) as Hwl2.
  pose proof (absorb_length a bs1) as Hab.
  apply wp_bind. eapply tx_bread; [exact Ht1|lia|set_solver|cbn; change nbuf with 30%nat; unfold log_limit in Hw; lia|].
  intros i s2 Ht2 Hf2 Hb2. cbv zeta. fold m l. eapply (tx_log p [] bs1 s2 i a); [exact Ht2| |by rewrite length_blk_write, Hb2|lia|].
  { rewrite (fframe_start _ _ Hf2), (fframe_nblocks _ _ Hf2). split; lia. }
  intros s3 Ht3 Hf3 Hb3. apply wp_bind. eapply tx_brelse; [exact Ht3|]. intros s4 Ht4 Hf4 Hb4.
  assert (fframe s1 s4) as Hfs by (transitivity s2; [done|]; by transitivity s3).
  assert (forall c, blk s4 c = if decide (c = a) then blk_write (Z.to_nat (off mod 512)) l (blk s1 a) else blk s1 c) as E4.
  { intros c. rewrite Hb4, Hb3, !Hb2. done. }
  assert (file_ok sb ds (blk s4) x1) as Hok4 by (eapply block_file; [exact Hmp|done..]).
  assert (wrote off l (blk s) (blk s4) x x1) as Hwr by (eapply block_wrote; [exact Hmp|done..]).
  assert (fs_ready p sb ds ip [] (absorb a bs1) F1 s4) as Hr4.
  { eapply ready_frame; [exact Hr1|done|done| |done]. eapply block_bm; [exact Hmp|done..]. }
  assert (icache s4 !!! ip = x1) as Ex by (by rewrite (ff_ic _ _ Hfs)).
  assert (iframe ip s s4) as Hfi by (transitivity s1; [done|]; by apply fframe_iframe).
  rewrite (u32_small (off + m)) by lia. apply (IH k (absorb a bs1) F1); rewrite ?Ex; try done; try lia.
  - rewrite length_drop. lia.
  - intros Hmore. assert (m = 512 - off mod 512) as -> by (unfold m in *; lia). destruct (next_block off) as [-> _]; lia.
  - destruct (decide _); lia.
  - intros s5 bs5 F5 Hr5 Hf5 Hw5 Hwt5. replace (off + m + (n - (tot + m))) with (off + (n - tot)) by lia. apply (HR s5 bs5 F5 Hr5).
    + by transitivity s4.
    + rewrite <- (take_drop (Z.to_nat m) src). eapply wrote_app; [done| |exact Hwr|].
      * fold l. rewrite length_drop. change (MAXFILE * BSIZE) with 71680. lia.
      * fold l. by rewrite El, Z2Nat.id by lia.
    + lia.
Qed.

(** The inode on disk. *)

Lemma length_dinode_store x o d : length (dinode_store x o d) = length d.
Proof.
  unfold dinode_store. assert (forall l o d, length (put_addrs o l d) = length d) as H.
  { induction l as [|a l IH]; intros o' d'; [done|]. cbn. by rewrite IH, length_put32. }
  by rewrite H, length_put32, !length_put16.
Qed.

Lemma iupdate_wp bs s (R : unit -> kstate -> Prop) :
  let x := icache s !!! ip in
  let ib := IBLOCK (i_inum x) sb in
  tx p [] bs s -> ksb s = sb -> i_dev x = ROOTDEV -> data_block (l_start (klog s)) (nblocks s) ib -> (length bs < log_limit)%nat ->
  (forall s', tx p [] (absorb ib bs) s' -> fframe s s' ->
     (forall c, blk s' c = if decide (c = ib) then dinode_store x (dinode_off (i_inum x)) (blk s ib) else blk s c) -> R tt s') ->
  wp (iupdate ip) R s.
Proof.
  intros x ib Ht Esb Hdev Hib Hn HR. unfold iupdate. apply wp_bind, wp_gets, wp_bind, wp_gets. fold x. rewrite Esb, Hdev. fold ib.
  apply wp_bind. eapply tx_bread; [exact Ht|by apply Hib|set_solver|cbn; change nbuf with 30%nat; unfold log_limit in Hn; lia|].
  intros i s1 Ht1 Hf1 Hb1. apply wp_bind, wp_gets. rewrite (ff_ic _ _ Hf1). fold x.
  eapply (tx_log p [] bs s1 i ib); [exact Ht1|by rewrite (fframe_start _ _ Hf1), (fframe_nblocks _ _ Hf1)| |done|].
  { rewrite length_dinode_store, Hb1. eapply tx_blk_length; [exact Ht|by apply Hib]. }
  intros s2 Ht2 Hf2 Hb2. eapply tx_brelse; [exact Ht2|]. intros s3 Ht3 Hf3 Hb3.
  apply HR; [done|transitivity s1; [done|]; by transitivity s2|]. intros c. rewrite Hb3, Hb2, !Hb1. done.
Qed.

Lemma file_meta ib V V' x :
  file_ok sb ds V x -> ib < ds -> ib <> bm -> (forall c, c <> ib -> V' c = V c) ->
  file_ok sb ds V' x /\ (forall k, fblk V' x k = fblk V x k) .
Proof.
  intros Hok Hib Hne HV. assert (forall k, fblk V' x k = fblk V x k) as E.
  { intros k. unfold fblk. destruct (k <? NDIRECT); [done|]. destruct (Z.eqb_spec (ind x) 0) as [|Hi]; [done|]. rewrite HV; [done|].
    destruct (fo_ind _ _ _ _ Hok Hi). lia. }
  split; [|done]. destruct Hok as [O1 O2 O3 O4 O5 O6 O7 O8]. unfold data_used in *. split; unfold data_used; try done; rewrite ?(HV bm) by done; try done.
  all: intros k; rewrite E; try apply O3; try apply O6; try apply O8. intros k'. rewrite E. apply O5.
Qed.

Lemma file_size V x sz :
  file_ok sb ds V x -> 0 <= sz <= MAXFILE * BSIZE -> (forall k, 0 <= k -> k * BSIZE < sz -> fblk V x k <> 0) -> file_ok sb ds V (set_i_size sz x).
Proof. intros [O1 O2 O3 O4 O5 O6 O7 O8] Hsz Hfull. by split. Qed.

(** Blocks that [n] bytes at [off] lie in, at most. *)
Definition blocks (off n : Z) : nat := Z.to_nat ((off mod BSIZE + n + BSIZE - 1) / BSIZE).

(** What [writei] leaves: the size, and the file's bytes, other blocks, the inode on
    disk and the log. *)
Record written (off : Z) (src : list Z) (s s' : kstate) (bs bs' : list Z) : Prop := {
  wn_inode : icache s' !!! ip =
    set_i_size (Z.max (i_size (icache s !!! ip)) (off + Z.of_nat (length src))) (set_i_addrs (i_addrs (icache s' !!! ip)) (icache s !!! ip));
  wn_bytes : forall o, 0 <= o < i_size (icache s' !!! ip) -> fbyte (blk s') (icache s' !!! ip) o =
    if decide (off <= o < off + Z.of_nat (length src)) then nth (Z.to_nat (o - off)) src 0 else fbyte (blk s) (icache s !!! ip) o;
  wn_other : forall c, 0 <= c < sb_size sb -> used (blk s bm) c = true -> c <> bm -> c <> IBLOCK (i_inum (icache s !!! ip)) sb ->
    ~ owned (blk s) (icache s !!! ip) c -> blk s' c = blk s c;
  wn_dinode : blk s' (IBLOCK (i_inum (icache s !!! ip)) sb) =
    if decide (i_size (icache s' !!! ip) = i_size (icache s !!! ip)) then blk s (IBLOCK (i_inum (icache s !!! ip)) sb)
    else dinode_store (icache s' !!! ip) (dinode_off (i_inum (icache s !!! ip))) (blk s (IBLOCK (i_inum (icache s !!! ip)) sb));
  wn_log : (length bs' <= length bs + 3 + blocks off (Z.of_nat (length src)))%nat
}.

Section finish.
Context (off : Z) (src : list Z) (s s1 s' : kstate) (bs bs' : list Z).
Abbreviation x := (icache s !!! ip).
Abbreviation x1 := (icache s1 !!! ip).
Abbreviation ib := (IBLOCK (i_inum (icache s !!! ip)) sb).
Abbreviation n := (Z.of_nat (length src)).
Hypotheses (Hok : file_ok sb ds (blk s) x) (Hok1 : file_ok sb ds (blk s1) x1) (Hwr : wrote off src (blk s) (blk s1) x x1).
Hypotheses (Hoff : 0 <= off <= i_size x) (Hmax : off + n <= 71680) (Hib : 0 <= ib < ds) (Hne : ib <> bm).
Hypotheses (Hds : ds <= sb_size sb) (Hbm : bitmap_ok sb ds (blk s)).

Lemma wrote_size : i_size x1 = i_size x /\ i_inum x1 = i_inum x /\ i_dev x1 = i_dev x.
Proof. rewrite (wr_attr _ _ _ _ _ _ Hwr). done. Qed.

Lemma wrote_ib : blk s1 ib = blk s ib.
Proof.
  apply (wr_same _ _ _ _ _ _ Hwr); [lia| |done|].
  - apply not_false_iff_true. intros H. apply Hbm in H; lia.
  - intros [[Hi E]|(k & Hk & H0 & E)].
    + destruct (fo_ind _ _ _ _ Hok Hi). lia.
    + destruct (fo_blk _ _ _ _ Hok k Hk H0). lia.
Qed.

(** Every byte of the file is in a block the file has. *)
Lemma wrote_full o : 0 <= o < Z.max (i_size x) (off + n) -> fblk (blk s1) x1 (o / 512) <> 0.
Proof.
  intros Ho. pose proof (fo_size _ _ _ _ Hok) as Hs. change (MAXFILE * BSIZE) with 71680 in Hs.
  destruct (decide (off <= o < off + n)) as [Hin|Hout]; [by apply (wr_new _ _ _ _ _ _ Hwr)|].
  assert (0 <= o / 512 < MAXFILE /\ o / 512 * 512 <= o) as [Hk Hle] by (change MAXFILE with 140; clear -Ho Hs Hmax; zdiv).
  assert (fblk (blk s) x (o / 512) <> 0) as H by (apply (fo_full _ _ _ _ Hok); unfold BSIZE; lia).
  by rewrite (wr_keep _ _ _ _ _ _ Hwr).
Qed.

Lemma wrote_written :
  icache s' !!! ip = set_i_size (Z.max (i_size x) (off + n)) x1 -> (forall c, c <> ib -> blk s' c = blk s1 c) ->
  blk s' ib = (if decide (i_size x = Z.max (i_size x) (off + n)) then blk s1 ib
               else dinode_store (icache s' !!! ip) (dinode_off (i_inum x)) (blk s1 ib)) ->
  (length bs' <= length bs + 3 + blocks off n)%nat -> written off src s s' bs bs'.
Proof.
  intros Ex HV Eib Hlog. destruct wrote_size as (E1 & E2 & E3). destruct (file_meta ib (blk s1) (blk s') x1 Hok1 (proj2 Hib) Hne HV) as [_ Hfb].
  assert (i_size (icache s' !!! ip) = Z.max (i_size x) (off + n)) as Esz by by rewrite Ex.
  split; try done.
  - rewrite Ex at 1. rewrite (wr_attr _ _ _ _ _ _ Hwr) at 1. rewrite Ex. done.
  - rewrite Esz. intros o Ho. pose proof (wrote_full o Ho) as Hf0. pose proof (fo_size _ _ _ _ Hok) as Hs. change (MAXFILE * BSIZE) with 71680 in Hs.
    assert (0 <= o / 512 < MAXFILE /\ o / 512 * 512 <= o) as [Hk Hle] by (change MAXFILE with 140; clear -Ho Hs Hmax; zdiv).
    assert (fbyte (blk s') (icache s' !!! ip) o = fbyte (blk s1) x1 o) as ->.
    { unfold fbyte, BSIZE. rewrite Ex. change (fblk (blk s') (set_i_size ?z ?y)) with (fblk (blk s') y). rewrite Hfb, HV; [done|].
      destruct (fo_blk _ _ _ _ Hok1 _ Hk Hf0). lia. }
    destruct (decide (off <= o < off + n)) as [Hin|Hin]; [by apply (wr_new _ _ _ _ _ _ Hwr)|]. apply (wr_old _ _ _ _ _ _ Hwr); [change (MAXFILE * BSIZE) with 71680; lia|done|].
    apply (fo_full _ _ _ _ Hok); unfold BSIZE; lia.
  - intros c Hc Hu H1 H2 Ho. rewrite HV by done. by apply (wr_same _ _ _ _ _ _ Hwr).
  - rewrite Eib, Esz, wrote_ib. repeat case_decide; lia || done.
Qed.

End finish.

Lemma writei_wp off src bs F s :
  let x := icache s !!! ip in
  let n := Z.of_nat (length src) in
  fs_ready p sb ds ip [] bs F s -> i_type x <> T_DEV -> 0 <= off <= i_size x -> off + n <= MAXFILE * BSIZE ->
  l_start (klog s) + LOGSIZE < IBLOCK (i_inum x) sb < ds -> 0 <= IBLOCK (i_inum x) sb -> IBLOCK (i_inum x) sb <> bm ->
  (length bs + 2 + blocks off n < log_limit)%nat -> (2 * blocks off n <= length F)%nat ->
  wp (writei ip src off)
    (fun r s' => r = n /\ exists bs' F', fs_ready p sb ds ip [] bs' F' s' /\ iframe ip s s' /\ written off src s s' bs bs') s.
Proof.
  intros x n Hr Hty Hoff Hmax Hibl Hib0 Hne Hw HF. assert (0 <= IBLOCK (i_inum x) sb < ds) as Hib by lia. pose proof (fo_size _ _ _ _ (fr_file _ _ _ _ _ _ _ _ Hr)) as Hs. fold x in Hs.
  change (MAXFILE * BSIZE) with 71680 in *. unfold writei. fold n. apply wp_bind, wp_gets. fold x. rewrite (proj2 (Z.eqb_neq _ _) Hty).
  rewrite (u32_small (off + n)) by lia. rewrite (proj2 (Z.ltb_ge (i_size x) off)), (proj2 (Z.ltb_ge (off + n) off)) by lia. cbn [orb].
  change (MAXFILE * BSIZE) with 71680. rewrite (proj2 (Z.ltb_ge 71680 (off + n))) by lia.
  assert (weight sb bs x <= length bs + 2)%nat as Hwt by (unfold weight; repeat case_decide; lia).
  pose proof Hr as [Ht Esb Hla Hds Hlog Hbm Hav Hip Hok]. fold x in Hok.
  apply wp_bind. apply (writei_loop_wp _ (blocks off n) bs F); rewrite ?Z.sub_0_r; fold n; try done; try lia.
  { intros _. unfold blocks, BSIZE. clear -Hoff. zdiv. }
  { unfold blocks, rw_fuel, BSIZE. clear -Hoff. zdiv. }
  { fold x. lia. }
  fold x. intros s1 bs1 F1 Hr1 Hf1 Hwr Hw1. pose proof Hr1 as [Ht1 Esb1 Hla1 Hds1 Hlog1 Hbm1 Hav1 Hip1 Hok1].
  destruct (wrote_size _ _ _ _ Hwr) as (E1 & E2 & E3). pose proof (weight_length sb bs1 (icache s1 !!! ip)) as Hwl.
  apply wp_bind, wp_gets. fold x in E1, E2, E3. rewrite E1. destruct (Z.ltb_spec (i_size x) (off + n)) as [Hg|Hg]; [rewrite (proj2 (Z.ltb_lt 0 n)) by lia|rewrite andb_false_r].
  - cbn [andb when]. set (x2 := set_i_size (off + n) (icache s1 !!! ip)). apply wp_bind, wp_bind, wp_modify. rewrite alter_insert. fold x2.
    set (s2 := put_icache (<[ip := x2]> (icache s1)) s1).
    assert (icache s2 !!! ip = x2) as Ex2 by (cbn [icache put_icache s2]; by apply list_lookup_total_insert_eq).
    assert (file_ok sb ds (blk s1) x2) as Hok2.
    { apply file_size; [done|change (MAXFILE * BSIZE) with 71680; lia|]. intros k Hk Hlt. unfold BSIZE in Hlt. rewrite <- (Z.div_mul k 512) by lia.
      eapply (wrote_full off src s s1); try done. fold x n. lia. }
    assert (fs_ready p sb ds ip [] bs1 F1 s2) as Hr2 by by apply ready_inode.
    assert (iframe ip s s2) as Hf2 by (transitivity s1; [done|]; by apply iframe_inode).
    assert (IBLOCK (i_inum x2) sb = IBLOCK (i_inum x) sb) as Eib by (cbn; by rewrite E2).
    eapply iupdate_wp; rewrite ?Ex2, ?Eib; [by apply Hr2|done|cbn; rewrite E3; by apply Hok| |lia|].
    { rewrite (iframe_nblocks _ _ _ Hf2). destruct Hla. destruct (same_log_fields _ _ (if_log _ _ _ Hf2)) as [-> _]. split; lia. }
    intros s3 Ht3 Hf3 Hb3. apply wp_ret. split; [done|]. exists (absorb (IBLOCK (i_inum x) sb) bs1), F1.
    assert (icache s3 !!! ip = x2) as Ex3 by (by rewrite (ff_ic _ _ Hf3)).
    assert (forall c, c <> IBLOCK (i_inum x) sb -> blk s3 c = blk s1 c) as Hb13 by (intros c Hc; rewrite Hb3, decide_False by done; done).
    split; [|split].
    + eapply ready_frame; [exact Hr2|exact Ht3|done|by rewrite Hb13|]. rewrite Ex2.
      by destruct (file_meta _ (blk s1) (blk s3) x2 Hok2 (proj2 Hib) Hne Hb13).
    + transitivity s2; [done|]. apply fframe_iframe; [done|]. by apply Hr2.
    + eapply wrote_written; [exact Hok|exact Hok1|exact Hwr|..]; fold x n; try done.
      * rewrite Ex3, Z.max_r by lia. done.
      * rewrite decide_False by lia. rewrite Hb3, decide_True, Ex3 by done. change (i_inum x2) with (i_inum (icache s1 !!! ip)). by rewrite E2.
      * pose proof (length_absorb (IBLOCK (i_inum x) sb) bs1). lia.
  - cbn [when]. apply wp_bind, wp_ret, wp_ret. split; [done|]. exists bs1, F1. split; [done|]. split; [done|].
    eapply wrote_written; [exact Hok|exact Hok1|exact Hwr|..]; fold x n; try done.
    + rewrite Z.max_l, <- E1 by lia. by destruct (icache s1 !!! ip).
    + rewrite decide_True by lia. done.
    + lia.
Qed.

(** C9. Writing to a file that is not a device: the call returns the number of bytes,
    which are then the file's content from [off] on, with everything else in the file
    as before, and the size raised to the end of what was written. *)
Theorem writei_content off src bs F s :
  let x := icache s !!! ip in
  let n := Z.of_nat (length src) in
  fs_ready p sb ds ip [] bs F s -> i_type x <> T_DEV -> 0 <= off <= i_size x -> off + n <= MAXFILE * BSIZE ->
  l_start (klog s) + LOGSIZE < IBLOCK (i_inum x) sb < ds -> 0 <= IBLOCK (i_inum x) sb -> IBLOCK (i_inum x) sb <> bm ->
  (length bs + 2 + blocks off n < log_limit)%nat -> (2 * blocks off n <= length F)%nat ->
  wp (writei ip src off)
    (fun r s' => r = n /\ exists bs' F', fs_ready p sb ds ip [] bs' F' s' /\ iframe ip s s' /\ written off src s s' bs bs') s.
Proof. intros x n. apply writei_wp. Qed.

End data.
