(* ===== verification/DemoFs.v ===== *)
(** * A small file system

    The disk of [DemoKern] with a bitmap and one file of ten bytes in block 37, in the
    middle of a transaction that has recorded nothing yet. *)

From S2P Require Import Prelude Bytes Monad Machine ProcDefs RunQueue Proc ProcInv DemoProc.
From S2P Require Import KernDefs Sleeplock Bio BioInv Log LogInv LogCrash LogOps DemoKern Fs FsTx FsBitmap FsFile FsData.

#[export] Instance no_devices : DevSw := {| dev_read _ := None; dev_write _ := None |}.

(** Blocks 0 to 37 are in use. *)
Definition demo_bitmap : block := [255; 255; 255; 255; 63] ++ replicate 507 0.
Definition demo_text : block := seqZ 65 10 ++ replicate 502 0.
Definition demo_inode : inode := MkInode ROOTDEV 1 1 (MkSl 1 1) 1 2 0 0 1 10 (37 :: replicate 12 0).
Definition demo_fs : kstate :=
  let s := demo_k buf0 (demo_log [] 1) in
  put_icache (<[0%nat := demo_inode]> (icache s))
    (put_disk (MkDisk (<[36%nat := demo_bitmap]> (<[37%nat := demo_text]> (replicate 64 zero_block))) []) s).
Definition demo_sb : superblock := ksb demo_fs.

Lemma demo_fs_blk b : blk demo_fs b = dblk demo_fs b.
Proof.
  unfold blk. replace (list_find _ _) with (@None (nat * buf)); [done|]. symmetry. apply list_find_None. apply Forall_forall.
  intros x Hx. assert (x = buf0) as -> by (change (x ∈ replicate 30 buf0) in Hx; by apply elem_of_replicate in Hx as [-> _]).
  done.
Qed.

Lemma demo_fs_buf i : (i < nbuf)%nat -> bufs demo_fs !!! i = buf0.
Proof. intros Hi. change (replicate 30 buf0 !!! i = buf0). by apply lookup_total_replicate_2. Qed.

Lemma demo_fs_tx : tx 1 [] [] demo_fs.
Proof.
  split; try done.
  - eapply kctx_same; [apply (demo_kctx buf0 (demo_log [] 1))|done].
  - exists demo_order. split; [done|apply demo_lru| | |].
    + intros i Hi. rewrite demo_fs_buf by done. apply buf0_ok.
    + intros i j b Hi Hj. rewrite !demo_fs_buf by done. done.
    + assert (Forall (fun d => length d = bsize) (d_blocks (disk demo_fs))) as H.
      { apply Forall_insert; [|done]. apply Forall_insert; [|done]. by apply Forall_replicate. }
      intros b Hb. unfold dblk. change (0 <= b < 64) in Hb. apply (Forall_lookup_total_1 _ _ _ H). change (Z.to_nat b < 64)%nat. lia.
  - intros i b Hin. set_solver.
  - intros i Hi _. by rewrite demo_fs_buf.
  - apply NoDup_nil_2.
  - intros i Hi. by rewrite demo_fs_buf.
  - split; [done|done|cbn; lia|done].
  - apply NoDup_nil_2.
Qed.

Lemma demo_fs_layout : layout demo_sb 37 (nblocks demo_fs).
Proof. split; vm_compute; split_and?; congruence. Qed.

Lemma demo_fblk k : 0 <= k < MAXFILE -> fblk (blk demo_fs) demo_inode k = if decide (k = 0) then 37 else 0.
Proof.
  intros Hk. change MAXFILE with 140 in Hk. unfold fblk. change NDIRECT with 12. destruct (Z.ltb_spec k 12) as [H|H].
  - case_decide as E; [by subst k|]. unfold demo_inode. cbn [i_addrs]. destruct (Z.to_nat k) as [|j] eqn:Ej; [lia|]. cbn [lookup_total list_lookup_total].
    change (replicate 12 0 !!! j = 0). apply lookup_total_replicate_2. lia.
  - rewrite decide_False by lia. done.
Qed.

Lemma demo_file_ok : file_ok demo_sb 37 (blk demo_fs) demo_inode.
Proof.
  split; try done.
  - intros k Hk. rewrite demo_fblk by done. case_decide; [|done]. intros _. split; [change (37 <= 37 < 64); lia|]. rewrite demo_fs_blk. by vm_compute.
  - intros k k' Hk Hk'. rewrite !demo_fblk by done. repeat case_decide; lia.
  - intros k Hk Hs. change (k * 512 < 10) in Hs. assert (k = 0) as -> by lia. rewrite demo_fblk; [done|]. vm_compute. split; congruence.
Qed.

Definition demo_free : list Z := seqZ 40 8.

Lemma demo_ready : fs_ready 1 demo_sb 37 0 [] [] demo_free demo_fs.
Proof.
  assert (used (blk demo_fs 36) = used demo_bitmap) as Eu by (by rewrite demo_fs_blk).
  split; [apply demo_fs_tx|done|apply demo_fs_layout|by vm_compute|by vm_compute| | |cbn; lia|apply demo_file_ok].
  - assert (forallb (fun b => used demo_bitmap b || (37 <=? b)) (seqZ 0 64) = true) as H by by vm_compute.
    intros b Hb. change (sb_bmapstart demo_sb) with 36. rewrite Eu. intros Hu. rewrite forallb_forall in H. specialize (H b). 
    rewrite Hu in H. cbn in H. apply Z.leb_le, H, list_elem_of_In, elem_of_seqZ. change (0 <= b < 64) in Hb. lia.
  - split; [apply NoDup_seqZ|]. intros b Hb. assert (forallb (fun b => negb (used demo_bitmap b)) demo_free = true) as H by by vm_compute.
    change (sb_bmapstart demo_sb) with 36. rewrite Eu. rewrite forallb_forall in H. specialize (H b ltac:(by apply list_elem_of_In)).
    unfold demo_free in Hb. apply elem_of_seqZ in Hb. split; [change (0 <= b < 64); lia|]. by apply negb_true_iff.
Qed.

Lemma readi_content_witness :
  wp (readi 0 3 100)
    (fun r s' => r = Some [68; 69; 70; 71; 72; 73; 74] /\ tx 1 [] [] s' /\ fframe demo_fs s' /\ forall c, blk s' c = blk demo_fs c) demo_fs.
Proof.
  assert (content (blk demo_fs) demo_inode 3 7 = [68; 69; 70; 71; 72; 73; 74]) as <- by by vm_compute.
  apply (readi_content 1 demo_sb 37 0 3 100 [] demo_fs).
  - apply demo_fs_tx.
  - apply demo_fs_layout.
  - by vm_compute.
  - apply demo_file_ok.
  - by apply Nat.ltb_lt.
  - done.
  - by vm_compute.
  - lia.
  - lia.
Defined.

(** Six hundred bytes appended to the ten. *)
Lemma writei_content_witness :
  let src := replicate 600 46 in
  wp (writei 0 src 10)
    (fun r s' => r = 600 /\ exists bs' F', fs_ready 1 demo_sb 37 0 [] bs' F' s' /\ iframe 0 demo_fs s' /\ written demo_sb 0 10 src demo_fs s' [] bs') demo_fs.
Proof.
  intros src. apply (writei_content 1 demo_sb 37 0 10 src [] demo_free demo_fs).
  - apply demo_ready.
  - done.
  - by vm_compute.
  - by vm_compute.
  - by vm_compute.
  - by vm_compute.
  - by vm_compute.
  - by apply Nat.ltb_lt; vm_compute.
  - by apply Nat.leb_le; vm_compute.
Defined.
