(* ===== verification/FsDir.v ===== *)
(** * Directories

    A directory as a map from names to inode numbers: [dirlookup] finds what the map
    has, and [dirlink] adds one name to it.  Names count up to [DIRSIZ] bytes, or up
    to their NUL. *)

From S2P Require Import Prelude Strings Bytes Monad Machine ProcDefs RunQueue Proc ProcInv KernDefs Sleeplock.
From S2P Require Import Bio BioInv Log LogInv LogCrash LogOps Fs FsTx FsBitmap FsFile FsData DemoProc DemoKern DemoFs.

(** ** Names *)

(** The part of a name that counts. *)
Definition cut (name : list Z) : list Z := name_of (Z.to_nat DIRSIZ) 0 (fun a => byte_at name (Z.to_nat a)).

Lemma name_of_shift n a b m m' : (forall i, 0 <= i < Z.of_nat n -> m (a + i) = m' (b + i)) -> name_of n a m = name_of n b m'.
Proof.
  revert a b. induction n as [|n IH]; intros a b H; [done|]. cbn [name_of].
  pose proof (H 0 ltac:(lia)) as H0. rewrite !Z.add_0_r in H0. rewrite H0. destruct (m' b =? 0); [done|]. f_equal.
  apply IH. intros i Hi. rewrite <- !Z.add_assoc. apply H. lia.
Qed.

Lemma namecmp_eq s t : namecmp s t = 0 <-> cut s = cut t.
Proof.
  unfold namecmp, cut. change DIRSIZ with 14. rewrite strncmp_eq by lia.
  rewrite (name_of_shift _ 0 0 (two_arrays s t) (fun a => byte_at s (Z.to_nat a))), (name_of_shift _ (2 ^ 16) 0 (two_arrays s t) (fun a => byte_at t (Z.to_nat a))); [done|..];
    intros i Hi; unfold two_arrays.
  - rewrite (proj2 (Z.ltb_ge _ _)) by lia. do 2 f_equal. lia.
  - rewrite (proj2 (Z.ltb_lt _ _)) by lia. done.
Qed.

Lemma length_de_make inum name : length (de_make inum name) = 16%nat.
Proof. unfold de_make. rewrite length_app, length_put16, length_fmap, length_seq. done. Qed.

Lemma de_inum_make inum name : 0 <= inum < 2 ^ 16 -> de_inum (de_make inum name) = inum.
Proof.
  intros Hi. unfold de_inum, de_make, get16, byte_at. rewrite !app_nth1 by (rewrite length_put16; cbn; lia).
  change (get16 (put16 0 inum (replicate 2 0)) 0 = inum). rewrite get16_put16 by (cbn; lia). by apply Z.mod_small.
Qed.

Lemma de_name_make inum name : Forall (fun c => 0 <= c < 256) name -> cut (de_name (de_make inum name)) = cut name.
Proof.
  intros Hn. assert (forall k, 0 <= byte_at name k < 256) as Hb.
  { intros k. unfold byte_at. destruct (nth_in_or_default k name 0) as [Hin| ->]; [|lia]. rewrite Forall_forall in Hn. by apply Hn, list_elem_of_In. }
  unfold cut, de_make. change DIRSIZ with 14. destruct (strncpy_copies 0 (2 ^ 16) 14 (two_arrays [] name)) as (H & _); try lia.
  { intros a. unfold two_arrays. destruct (a <? 2 ^ 16); [|apply Hb]. unfold byte_at. destruct (Z.to_nat a); cbn; lia. }
  etrans; [|etrans; [exact H|]].
  - apply name_of_shift. intros i Hi. unfold de_name. rewrite drop_app_length' by (by rewrite length_put16). unfold byte_at.
    rewrite nth_lookup, list_lookup_fmap, lookup_seq_lt by lia. cbn. f_equal. lia.
  - apply name_of_shift. intros i Hi. unfold two_arrays. rewrite (proj2 (Z.ltb_ge _ _)) by lia. do 2 f_equal. lia.
Qed.

(** ** The map *)

(** The entries of the directory with inode [x]. *)
Definition dir_entry (V : Z -> block) (x : inode) (k : nat) : list Z := content V x (16 * Z.of_nat k) 16.
Definition entries (V : Z -> block) (x : inode) : list (list Z) := map (dir_entry V x) (seq 0 (Z.to_nat (i_size x / de_size))).

(** Entry [e] is for [name]. *)
Definition names (name e : list Z) : Prop := de_inum e <> 0 /\ cut name = cut (de_name e).
#[export] Instance names_dec name e : Decision (names name e) := _.

(** Where [name] is, and the inode number it has. *)
Definition dir_find (es : list (list Z)) (name : list Z) : option (nat * list Z) := list_find (names name) es.
Definition dir_inum (es : list (list Z)) (name : list Z) : option Z := de_inum ∘ snd <$> dir_find es name.

(** The file is a directory. *)
Definition is_dir (x : inode) : Prop := i_type x = T_DIR /\ i_size x mod de_size = 0.

(** The first unused entry, or the end. *)
Definition unused (e : list Z) : Prop := de_inum e = 0.
#[export] Instance unused_dec e : Decision (unused e) := _.
Definition free_entry (es : list (list Z)) : nat := match list_find unused es with Some (k, _) => k | None => length es end.

#[export] Instance entries_proper : Proper (pointwise_relation Z eq ==> eq ==> eq) entries.
Proof. intros V W E x _ <-. unfold entries. apply list_fmap_ext. intros k j _. unfold dir_entry. by rewrite E. Qed.

Lemma free_entry_le es : (free_entry es <= length es)%nat.
Proof.
  unfold free_entry. destruct (list_find unused es) as [[k o]|] eqn:E; [|done].
  apply list_find_Some in E as (H & _). apply lookup_lt_Some in H. lia.
Qed.

Lemma free_entry_unused es o : es !! free_entry es = Some o -> de_inum o = 0.
Proof.
  unfold free_entry. destruct (list_find unused es) as [[k y]|] eqn:E.
  - apply list_find_Some in E as (H & Hu & _). intros H'. by rewrite H in H'; simplify_eq.
  - intros H%lookup_lt_Some. lia.
Qed.

Lemma list_find_insert_other {A} (P : A -> Prop) `{forall x, Decision (P x)} l k x y :
  l !! k = Some y -> ~ P x -> ~ P y -> list_find P (<[k := x]> l) = list_find P l.
Proof.
  revert k. induction l as [|z l IH]; intros [|k] Hk Hx Hy; simplify_eq/=; [by rewrite !decide_False|].
  by rewrite (IH k).
Qed.

Lemma dir_find_cut name name' es : cut name' = cut name -> dir_find es name = None -> dir_find es name' = None.
Proof.
  intros E Hn. apply list_find_None in Hn. apply list_find_None. eapply Forall_impl; [exact Hn|]. intros o Ho [H1 H2]. apply Ho.
  split; [done|]. congruence.
Qed.

(** An unused entry, or a new one at the end, is given to a name that is not there. *)
Definition put_entry (k : nat) (e : list Z) (es : list (list Z)) : list (list Z) :=
  if decide (k < length es)%nat then <[k := e]> es else es ++ [e].

Lemma dir_inum_put k e es name :
  (forall o, es !! k = Some o -> de_inum o = 0) -> dir_find es (de_name e) = None -> de_inum e <> 0 ->
  dir_inum (put_entry k e es) name = if decide (cut name = cut (de_name e)) then Some (de_inum e) else dir_inum es name.
Proof.
  intros Hk Hnone He. unfold dir_inum, dir_find, put_entry in *. apply list_find_None in Hnone.
  destruct (decide (cut name = cut (de_name e))) as [Hn|Hn]; cycle 1.
  - assert (~ names name e) as Hne by (intros [_ ?]; done). destruct (decide (k < length es)%nat) as [Hlt|Hge].
    + destruct (lookup_lt_is_Some_2 es k Hlt) as [o Ho]. rewrite (list_find_insert_other _ _ _ _ o); [done|done|done|].
      intros [H0 _]. by apply H0, Hk.
    + destruct (list_find (names name) es) as [[j o]|] eqn:E; [by rewrite (list_find_app_l _ _ _ _ _ E)|].
      rewrite list_find_app_r by done. cbn. by rewrite decide_False.
  - assert (names name e) as Hm by done. assert (list_find (names name) es = None) as E.
    { apply (dir_find_cut (de_name e)); [done|]. by apply list_find_None. }
    destruct (decide (k < length es)%nat) as [Hlt|Hge].
    + assert (list_find (names name) (<[k := e]> es) = Some (k, e)) as ->; [|done]. apply list_find_Some. split_and!.
      * by apply list_lookup_insert_eq.
      * done.
      * intros j y Hj Hjk. rewrite list_lookup_insert_ne in Hj by lia. rewrite list_find_None, Forall_lookup in E. by apply (E j).
    + rewrite list_find_app_r by done. cbn. by rewrite decide_True.
Qed.

(** ** The inode cache *)

(** The cache entry is for inode [inum] of [dev]. *)
Definition caches (dev inum : Z) (x : inode) : bool := (0 <? i_ref x) && (i_dev x =? dev) && (i_inum x =? inum).

(** Entry [j] of the cache was found for the inode, or recycled for it. *)
Record got_inode (dev inum : Z) (ic ic' : list inode) (j : nat) : Prop := {
  gi_lt : (j < ninode)%nat;
  gi_other : ic' = <[j := ic' !!! j]> ic;
  gi_new : caches dev inum (ic !!! j) = true /\ ic' !!! j = set_i_ref (s32 (i_ref (ic !!! j) + 1)) (ic !!! j) \/
    (forall i, (i < ninode)%nat -> caches dev inum (ic !!! i) = false) /\ i_ref (ic !!! j) = 0 /\
    ic' !!! j = set_i_valid 0 (set_i_ref 1 (set_i_inum inum (set_i_dev dev (ic !!! j))))
}.

Lemma got_alter dev inum ic j f :
  (j < ninode)%nat -> length ic = ninode ->
  (caches dev inum (ic !!! j) = true /\ f (ic !!! j) = set_i_ref (s32 (i_ref (ic !!! j) + 1)) (ic !!! j) \/
   (forall i, (i < ninode)%nat -> caches dev inum (ic !!! i) = false) /\ i_ref (ic !!! j) = 0 /\
   f (ic !!! j) = set_i_valid 0 (set_i_ref 1 (set_i_inum inum (set_i_dev dev (ic !!! j))))) ->
  got_inode dev inum ic (alter f j ic) j.
Proof.
  intros Hj Hl Hf. rewrite <- Hl in Hj. split; [lia| |]; rewrite alter_same by done; [|done].
  by rewrite <- alter_insert.
Qed.

Lemma iget_loop_wp n ip empty dev inum s0 (R : option nat + option nat -> kstate -> Prop) s :
  s = klocked LIcache s0 -> LIcache ∉ held (pm (kp s0)) -> (ip + n = ninode)%nat ->
  (forall i, (i < ip)%nat -> caches dev inum (icache s !!! i) = false) ->
  (forall e, empty = Some e -> (e < ninode)%nat /\ i_ref (icache s !!! e) = 0) ->
  (empty = None -> forall i, (i < ip)%nat -> i_ref (icache s !!! i) <> 0) ->
  (forall j, (j < ninode)%nat -> caches dev inum (icache s !!! j) = true ->
     R (inl (Some j)) (put_icache (alter (fun x => set_i_ref (s32 (i_ref x + 1)) x) j (icache s0)) s0)) ->
  (forall e, (forall i, (i < ninode)%nat -> caches dev inum (icache s !!! i) = false) ->
     (forall j, e = Some j -> (j < ninode)%nat /\ i_ref (icache s !!! j) = 0) ->
     (e = None -> forall i, (i < ninode)%nat -> i_ref (icache s !!! i) <> 0) -> R (inr e) s) ->
  wp (iget_loop n ip empty dev inum) R s.
Proof.
  intros Es Hl. revert ip empty. induction n as [|n IH]; intros ip empty Hn Hno He Hne Hhit Hmiss; cbn [iget_loop].
  { replace ip with ninode in * by lia. apply wp_ret. by apply Hmiss. }
  apply wp_bind, wp_gets. fold (caches dev inum (icache s !!! ip)). destruct (caches dev inum (icache s !!! ip)) eqn:Ec.
  - apply wp_bind, wp_modify, wp_bind. subst s. apply (krelease_plain LIcache (kp s0)); [done|done|]. apply wp_ret.
    specialize (Hhit ip ltac:(lia) Ec). by destruct s0 as [[] ? ? ? ? ? ? ? ? ? ? ?].
  - apply IH; try done.
    + lia.
    + intros i Hi. destruct (decide (i = ip)) as [->|]; [done|]. apply Hno. lia.
    + destruct empty; [done|]. intros e. destruct (Z.eqb_spec (i_ref (icache s !!! ip)) 0); [|done]. intros [= <-]. split; [lia|done].
    + destruct empty; [done|]. destruct (Z.eqb_spec (i_ref (icache s !!! ip)) 0); [done|]. intros _ i Hi.
      destruct (decide (i = ip)) as [->|]; [done|]. apply Hne; [done|lia].
Qed.

Lemma iget_wp dev inum s (R : nat -> kstate -> Prop) :
  LIcache ∉ held (pm (kp s)) -> length (icache s) = ninode -> (exists i, (i < ninode)%nat /\ i_ref (icache s !!! i) = 0) ->
  (forall j ic, got_inode dev inum (icache s) ic j -> R j (put_icache ic s)) ->
  wp (iget dev inum) R s.
Proof.
  intros Hl Hlen (i0 & Hi0 & Hr0) HR. apply wp_bind, kacquire_plain; [done|]. apply wp_bind.
  apply (iget_loop_wp _ _ _ _ _ s); change (icache (klocked LIcache s)) with (icache s); try done; try lia.
  - intros j Hj Hc. apply wp_ret, HR, got_alter; [done|done|]. by left.
  - intros [j|] Hno He Hne; [|by destruct (Hne eq_refl i0)]. destruct (He j eq_refl) as [Hj Hr].
    do 4 (apply wp_bind, wp_modify). apply wp_bind.
    apply (krelease_plain LIcache (kp s)); [done|done|]. apply wp_ret.
    assert (got_inode dev inum (icache s)
      (alter (fun x => set_i_valid 0 (set_i_ref 1 (set_i_inum inum (set_i_dev dev x)))) j (icache s)) j) as Hg.
    { apply got_alter; [done|done|]. by right. }
    specialize (HR _ _ Hg). cbn. rewrite !alter_alter_compose.
    by destruct s as [[] ? ? ? ? ? ? ? ? ? ? ?].
Qed.

(** ** Reading a directory *)

Section dir.
Context {FU : Fuel} {BD : BlockDevice} {SD : SyncDevice} {DV : DevSw} (p : nat) (sb : superblock) (ds : Z) (dp : nat).

Section scan.
Context (bs : list Z) (s0 : kstate).
Abbreviation x := (icache s0 !!! dp).
Abbreviation es := (entries (blk s0) x).
Hypotheses (Hla : layout sb ds (nblocks s0)) (Hds : ds <= nblocks s0) (Hok : file_ok sb ds (blk s0) x) (Hd : is_dir x).
Hypothesis Hn : (length bs + 1 < nbuf)%nat.

(** Nothing changed but the buffers. *)
Definition unchanged (s : kstate) : Prop := tx p [] bs s /\ fframe s0 s /\ forall c, blk s c = blk s0 c.

Lemma dir_size : i_size x = 16 * Z.of_nat (length es) /\ i_size x <= 71680.
Proof.
  clear Hn Hla Hds. destruct Hd as [_ H]. pose proof (fo_size _ _ _ _ Hok) as Hs. change (MAXFILE * BSIZE) with 71680 in Hs. unfold de_size in *.
  unfold entries. rewrite length_fmap, length_seq. unfold de_size. rewrite Z2Nat.id by (apply Z.div_pos; lia). split; [|lia].
  pose proof (Z.div_mod (i_size x) 16). lia.
Qed.

Lemma entries_lookup k : (k < length es)%nat -> es !! k = Some (dir_entry (blk s0) x k).
Proof. intros Hk. unfold entries in *. rewrite length_fmap, length_seq in Hk. by rewrite list_lookup_fmap, lookup_seq_lt. Qed.

Lemma read_entry_wp k s (R : option (list Z) -> kstate -> Prop) :
  unchanged s -> (k < length es)%nat -> (forall s', unchanged s' -> R (Some (dir_entry (blk s0) x k)) s') ->
  wp (readi dp (16 * Z.of_nat k) de_size) R s.
Proof.
  intros (Ht & Hf & Hb) Hk HR. destruct dir_size as [Esz Hmax]. assert (icache s !!! dp = x) as Ex by (by rewrite (ff_ic _ _ Hf)).
  assert (pointwise_relation Z eq (blk s) (blk s0)) as Eb by exact Hb. unfold de_size.
  eapply (readi_wp p sb ds); rewrite ?Ex, ?(fframe_nblocks _ _ Hf); try done; try lia.
  - by rewrite Eb.
  - destruct Hd as [-> _]. done.
  - intros s' Ht' Hf' Hb'. rewrite Eb, Z.min_l by lia. apply HR. split; [done|]. split; [by transitivity s|]. intros c. by rewrite Hb'.
Qed.

Lemma dirlookup_loop_wp name f k s (R : option (nat * Z) -> kstate -> Prop) :
  unchanged s -> (k <= length es < k + f)%nat ->
  (forall s', unchanged s' -> match list_find (names name) (drop k es) with
     | None => R None s'
     | Some (j, e) => wp (iget ROOTDEV (de_inum e)) (fun i s'' => R (Some (i, 16 * Z.of_nat (k + j))) s'') s'
     end) ->
  wp (dirlookup_loop f dp name (16 * Z.of_nat k)) R s.
Proof.
  revert k s. induction f as [|f IH]; intros k s Hs Hk HR; [lia|]. cbn [dirlookup_loop]. destruct dir_size as [Esz Hmax].
  apply wp_bind, wp_gets. assert (icache s !!! dp = x) as Ex by (destruct Hs as (_ & Hf & _); by rewrite (ff_ic _ _ Hf)). rewrite Ex, Esz.
  destruct (Z.ltb_spec (16 * Z.of_nat k) (16 * Z.of_nat (length es))) as [Hlt|Hge]; cbn [negb].
  2: { apply wp_ret. specialize (HR s Hs). by rewrite drop_ge in HR by lia. }
  apply wp_bind. apply read_entry_wp; [done|lia|]. intros s1 Hs1. set (e := dir_entry (blk s0) x k).
  assert (length e = 16%nat) as -> by (unfold e, dir_entry, content; by rewrite length_fmap, length_seq). cbn [negb].
  rewrite (drop_S _ e) in HR by (apply entries_lookup; lia). cbn [list_find] in HR.
  assert (~ names name e -> wp (dirlookup_loop f dp name (u32 (16 * Z.of_nat k + de_size))) R s1) as Hnext.
  { intros Hno. unfold de_size. rewrite u32_small by lia. replace (16 * Z.of_nat k + 16) with (16 * Z.of_nat (S k)) by lia.
    apply IH; [done|lia|]. intros s2 Hs2. specialize (HR s2 Hs2). rewrite decide_False in HR by done.
    destruct (list_find (names name) (drop (S k) es)) as [[j o]|]; [|done]. cbn in HR. by replace (S k + j)%nat with (k + S j)%nat by lia. }
  change (Z.of_nat 16 =? de_size) with true. cbn [negb]. destruct (Z.eqb_spec (de_inum e) 0) as [E0|E0]; [apply Hnext; by intros [? _]|].
  destruct (Z.eqb_spec (namecmp name (de_name e)) 0) as [En|En]; rewrite namecmp_eq in En; [|apply Hnext; by intros [_ ?]].
  apply wp_bind, wp_gets. assert (icache s1 !!! dp = x) as -> by (destruct Hs1 as (_ & Hf & _); by rewrite (ff_ic _ _ Hf)).
  rewrite (fo_dev _ _ _ _ Hok). apply wp_bind. specialize (HR s1 Hs1). rewrite decide_True in HR by done.
  eapply wp_mono; [exact HR|]. intros i s2 H. apply wp_ret. by rewrite Nat.add_0_r in H.
Qed.

Lemma dirlookup_wp name s (R : option (nat * Z) -> kstate -> Prop) :
  unchanged s ->
  (forall s', unchanged s' -> match dir_find es name with
     | None => R None s'
     | Some (j, e) => wp (iget ROOTDEV (de_inum e)) (fun i s'' => R (Some (i, 16 * Z.of_nat j)) s'') s'
     end) ->
  wp (dirlookup dp name) R s.
Proof.
  intros Hs HR. assert (icache s !!! dp = x) as Ex by (destruct Hs as (_ & Hf & _); by rewrite (ff_ic _ _ Hf)).
  apply wp_bind, wp_gets. rewrite Ex. destruct Hd as [Hty _]. rewrite Hty. change (T_DIR =? T_DIR) with true. cbn [negb]. apply wp_bind, wp_gets. rewrite Ex.
  apply (dirlookup_loop_wp name _ 0); [done| |done]. destruct dir_size as [-> _]. unfold dir_fuel, de_size.
  rewrite Z.mul_comm, Z.div_mul, Nat2Z.id by lia. lia.
Qed.

Lemma dirlink_loop_wp f k s (R : Z -> kstate -> Prop) :
  unchanged s -> (k <= length es < k + f)%nat -> (forall i e, (i < k)%nat -> es !! i = Some e -> ~ unused e) ->
  (forall s', unchanged s' -> R (16 * Z.of_nat (free_entry es)) s') ->
  wp (dirlink_loop f dp (16 * Z.of_nat k)) R s.
Proof.
  revert k s. induction f as [|f IH]; intros k s Hs Hk Hused HR; [lia|]. cbn [dirlink_loop]. destruct dir_size as [Esz Hmax].
  apply wp_bind, wp_gets. assert (icache s !!! dp = x) as Ex by (destruct Hs as (_ & Hf & _); by rewrite (ff_ic _ _ Hf)). rewrite Ex, Esz.
  rewrite u32_small by lia. destruct (Z.ltb_spec (16 * Z.of_nat k) (16 * Z.of_nat (length es))) as [Hlt|Hge]; cbn [negb].
  2: { apply wp_ret. specialize (HR s Hs). unfold free_entry in HR. replace (list_find unused es) with (@None (nat * list Z)) in HR.
    - by replace k with (length es) by lia.
    - symmetry. apply list_find_None, Forall_lookup. intros i e He. apply (Hused i e); [|done]. apply lookup_lt_Some in He. lia. }
  apply wp_bind. apply read_entry_wp; [done|lia|]. intros s1 Hs1. set (e := dir_entry (blk s0) x k).
  assert (es !! k = Some e) as He by (apply entries_lookup; lia).
  assert (length e = 16%nat) as -> by (unfold e, dir_entry, content; by rewrite length_fmap, length_seq).
  change (Z.of_nat 16 =? de_size) with true. cbn [negb]. destruct (Z.eqb_spec (de_inum e) 0) as [E0|E0].
  - apply wp_ret. specialize (HR s1 Hs1). unfold free_entry in HR. replace (list_find unused es) with (Some (k, e)) in HR; [done|].
    symmetry. apply list_find_Some. split_and!; [done|done|]. intros i o Ho Hi. by apply (Hused i o).
  - unfold de_size. rewrite s32_small by lia. replace (16 * Z.of_nat k + 16) with (16 * Z.of_nat (S k)) by lia.
    apply IH; [done|lia| |done]. intros i o Hi Ho. destruct (decide (i = k)) as [->|]; [by rewrite He in Ho; simplify_eq|]. apply (Hused i o); [lia|done].
Qed.

End scan.

(** ** Adding an entry *)

Section link.
Context (k : nat) (e : list Z) (s s' : kstate) (bs bs' : list Z).
Abbreviation x := (icache s !!! dp).
Abbreviation x' := (icache s' !!! dp).
Abbreviation es := (entries (blk s) x).
Hypotheses (He : length e = 16%nat) (Hd : is_dir x) (Hok : file_ok sb ds (blk s) x) (Hk : (k <= length es)%nat).
Hypothesis Hw : written sb dp (16 * Z.of_nat k) e s s' bs bs'.

Lemma written_size : i_size x' = 16 * Z.of_nat (Nat.max (length es) (S k)).
Proof. rewrite (wn_inode _ _ _ _ _ _ _ _ Hw). cbn [i_size set_i_size]. destruct (dir_size s Hok Hd) as [-> _]. lia. Qed.

Lemma written_dir : is_dir x'.
Proof.
  split; [rewrite (wn_inode _ _ _ _ _ _ _ _ Hw); apply Hd|]. rewrite written_size. unfold de_size.
  rewrite Z.mul_comm. by apply Z.mod_mul.
Qed.

Lemma written_dirent i : (i < Nat.max (length es) (S k))%nat -> dir_entry (blk s') x' i = if decide (i = k) then e else dir_entry (blk s) x i.
Proof.
  intros Hi. apply list_eq. intros o. destruct (decide (o < 16)%nat) as [Ho|Ho].
  2: { rewrite !lookup_ge_None_2; [done| |]; [case_decide; [lia|]|]; unfold dir_entry, content; rewrite length_fmap, length_seq; lia. }
  unfold dir_entry, content. rewrite list_lookup_fmap, lookup_seq_lt by lia. cbn [fmap option_fmap option_map Nat.add].
  rewrite (wn_bytes _ _ _ _ _ _ _ _ Hw) by (rewrite written_size; lia). rewrite He. destruct (decide (i = k)) as [->|Hne].
  - rewrite decide_True by lia. replace (Z.to_nat _) with o by lia. destruct (lookup_lt_is_Some_2 e o) as [v Hv]; [lia|].
    rewrite Hv. f_equal. by apply nth_lookup_Some.
  - rewrite decide_False by lia. by rewrite list_lookup_fmap, lookup_seq_lt by lia.
Qed.

Lemma written_entries : entries (blk s') x' = put_entry k e es.
Proof.
  assert (length (entries (blk s') x') = Nat.max (length es) (S k)) as El.
  { unfold entries at 1. rewrite length_fmap, length_seq, written_size. unfold de_size. rewrite Z.mul_comm, Z.div_mul, Nat2Z.id by lia. done. }
  apply list_eq. intros i. unfold put_entry. destruct (decide (i < Nat.max (length es) (S k))%nat) as [Hi|Hi].
  - rewrite entries_lookup by lia. rewrite written_dirent by done. destruct (decide (i = k)) as [->|Hne]; case_decide.
    + by rewrite list_lookup_insert_eq.
    + rewrite lookup_app_r by lia. by replace (k - length es)%nat with 0%nat by lia.
    + rewrite list_lookup_insert_ne, entries_lookup by lia. done.
    + rewrite lookup_app_l, entries_lookup by lia. done.
  - rewrite !lookup_ge_None_2; [done| |lia]. case_decide; [rewrite length_insert|rewrite length_app; cbn]; lia.
Qed.

End link.

(** What [dirlink] needs besides a directory without the name: room for an entry, in
    the file, on the disk and in the log. *)
Record can_link (name : list Z) (inum : Z) (bs F : list Z) (s : kstate) : Prop := {
  cl_ready : fs_ready p sb ds dp [] bs F s;
  cl_dir : is_dir (icache s !!! dp);
  cl_name : Forall (fun c => 0 <= c < 256) name;
  cl_inum : 0 < inum < 2 ^ 16;
  cl_size : i_size (icache s !!! dp) + de_size <= MAXFILE * BSIZE;
  cl_ib : 0 <= IBLOCK (i_inum (icache s !!! dp)) sb < ds;
  cl_iblog : l_start (klog s) + LOGSIZE < IBLOCK (i_inum (icache s !!! dp)) sb;
  cl_ibbm : IBLOCK (i_inum (icache s !!! dp)) sb <> sb_bmapstart sb;
  cl_log : (length bs + 4 < log_limit)%nat;
  cl_free : (2 <= length F)%nat
}.

(** The directory with inode [dp] has the entries [es'] now. *)
Record linked (es' : list (list Z)) (bs bs' : list Z) (F' : list Z) (s s' : kstate) : Prop := {
  ln_ready : fs_ready p sb ds dp [] bs' F' s';
  ln_frame : iframe dp s s';
  ln_dir : is_dir (icache s' !!! dp);
  ln_entries : entries (blk s') (icache s' !!! dp) = es';
  ln_log : (length bs' <= length bs + 4)%nat
}.

Lemma ready_unchanged bs F s s' : fs_ready p sb ds dp [] bs F s -> unchanged bs s s' -> fs_ready p sb ds dp [] bs F s'.
Proof.
  intros Hr (Ht & Hf & Hb). eapply ready_frame; [exact Hr|done|done|apply Hb|]. rewrite (Hb : pointwise_relation Z eq _ _). apply Hr.
Qed.

Lemma entry_blocks k : blocks (16 * Z.of_nat k) 16 = 1%nat.
Proof. unfold blocks, BSIZE. zdiv. Qed.

Lemma dirlink_wp name inum bs F s (R : Z -> kstate -> Prop) :
  let es := entries (blk s) (icache s !!! dp) in
  can_link name inum bs F s -> dir_find es name = None ->
  (forall s' bs' F', linked (put_entry (free_entry es) (de_make inum name) es) bs bs' F' s s' -> R 0 s') ->
  wp (dirlink dp name inum) R s.
Proof.
  intros es [Hr Hd Hnm Hin Hsz Hib Hibl Hibm Hlog HF] Hnone HR. pose proof Hr as [Ht Esb Hla Hds Hlg Hbm Hav Hip Hok].
  assert (ds <= nblocks s) as Hdn by (pose proof (la_size _ _ _ Hla); lia).
  assert (length bs + 1 < nbuf)%nat as Hn by (change nbuf with 30%nat; unfold log_limit in Hlog; lia).
  destruct (dir_size s Hok Hd) as [Es Hmax]. fold es in Es. pose proof (free_entry_le es) as Hfe.
  unfold dirlink. apply wp_bind. apply (dirlookup_wp bs s Hla Hdn Hok Hd Hn); [done|]. fold es. rewrite Hnone.
  intros s1 Hs1. apply wp_bind, wp_gets. assert (icache s1 = icache s) as -> by (destruct Hs1 as (_ & Hf & _); apply Hf).
  apply wp_bind. apply (dirlink_loop_wp bs s Hla Hdn Hok Hd Hn _ 0); [done| |lia|].
  { fold es. rewrite Es. unfold dir_fuel, de_size. rewrite Z.mul_comm, Z.div_mul, Nat2Z.id by lia. lia. }
  fold es. set (k := free_entry es) in *. intros s2 Hs2. pose proof (ready_unchanged _ _ _ _ Hr Hs2) as Hr2.
  destruct Hs2 as (Ht2 & Hf2 & Hb2). pose proof (ff_ic _ _ Hf2) as Eic. unfold de_size in *.
  assert (entries (blk s2) (icache s2 !!! dp) = es) as Ees by (unfold es; by rewrite (Hb2 : pointwise_relation Z eq _ _), Eic).
  rewrite u32_small by lia. apply wp_bind. eapply wp_mono; [apply (writei_wp p sb ds dp _ (de_make inum name) bs F s2 Hr2)|]; rewrite ?length_de_make, ?Eic, ?(fframe_start _ _ Hf2); change (Z.of_nat 16) with 16; rewrite ?entry_blocks; try lia.
  { destruct Hd as [-> _]. done. }
  intros r s3 (-> & bs3 & F3 & Hr3 & Hf3 & Hw). change (16 =? 16) with true. cbn [negb]. apply wp_ret.
  apply (HR s3 bs3 F3). pose proof (fr_file _ _ _ _ _ _ _ _ Hr2) as Hok2. assert (is_dir (icache s2 !!! dp)) as Hd2 by by rewrite Eic.
  split; [done| | | |].
  - transitivity s2; [by apply fframe_iframe|done].
  - apply (written_dir k (de_make inum name) s2 s3 bs bs3); rewrite ?Ees; [apply length_de_make|done..].
  - rewrite <- Ees. apply (written_entries k _ s2 s3 bs bs3); rewrite ?Ees; [apply length_de_make|done..].
  - pose proof (wn_log _ _ _ _ _ _ _ _ Hw) as H. rewrite length_de_make, entry_blocks in H. lia.
Qed.

(** What a lookup gives: nothing, or a cache entry for the inode the directory names. *)
Definition looked_up (want : option (nat * list Z)) (ic : list inode) (r : option (nat * Z)) (ic' : list inode) : Prop :=
  match want with
  | None => r = None /\ ic' = ic
  | Some (k, e) => exists j, r = Some (j, 16 * Z.of_nat k) /\ got_inode ROOTDEV (de_inum e) ic ic' j
  end.

Lemma dirlookup_looked name bs s :
  let x := icache s !!! dp in
  tx p [] bs s -> layout sb ds (nblocks s) -> ds <= nblocks s -> file_ok sb ds (blk s) x -> is_dir x -> (length bs + 1 < nbuf)%nat ->
  length (icache s) = ninode -> (exists i, (i < ninode)%nat /\ i_ref (icache s !!! i) = 0) ->
  wp (dirlookup dp name)
    (fun r s' => tx p [] bs s' /\ (forall c, blk s' c = blk s c) /\
       looked_up (dir_find (entries (blk s) x) name) (icache s) r (icache s')) s.
Proof.
  intros x Ht Hla Hds Hok Hd Hn Hlen Hfree. apply (dirlookup_wp bs s Hla Hds Hok Hd Hn); [done|]. intros s1 (Ht1 & Hf1 & Hb1). fold x.
  unfold looked_up. destruct (dir_find _ name) as [[k e]|]; [|split; [done|]; split; [done|]; split; [done|apply Hf1]].
  apply iget_wp; rewrite ?(ff_ic _ _ Hf1); try done; [rewrite (kc_held _ _ _ (tx_ctx _ _ _ _ Ht1)); apply not_elem_of_nil|].
  intros j ic Hg. split; [by apply tx_icache|]. split; [done|]. by exists j.
Qed.

(** C20. Looking a name up in a directory: the call finds the first entry in use whose
    name agrees, up to [DIRSIZ] bytes, and returns its offset and the one cache entry
    for its inode number, with one more reference, or recycled when the inode was not
    cached; it returns nothing when no entry has the name.  No block changes. *)
Theorem dirlookup_finds name bs s :
  let x := icache s !!! dp in
  tx p [] bs s -> layout sb ds (nblocks s) -> ds <= nblocks s -> file_ok sb ds (blk s) x -> is_dir x -> (length bs + 1 < nbuf)%nat ->
  length (icache s) = ninode -> (exists i, (i < ninode)%nat /\ i_ref (icache s !!! i) = 0) ->
  wp (dirlookup dp name)
    (fun r s' => tx p [] bs s' /\ (forall c, blk s' c = blk s c) /\
       looked_up (dir_find (entries (blk s) x) name) (icache s) r (icache s')) s.
Proof. intros x. apply dirlookup_looked. Qed.

Lemma linked_free es' bs bs' F' s s' :
  linked es' bs bs' F' s s' -> length (icache s) = ninode -> (exists i, (i < ninode)%nat /\ i <> dp /\ i_ref (icache s !!! i) = 0) ->
  length (icache s') = ninode /\ exists i, (i < ninode)%nat /\ i_ref (icache s' !!! i) = 0.
Proof.
  intros Hl Hlen (i & Hi & Hne & Hr). pose proof (ln_frame _ _ _ _ _ _ Hl) as Hf. split; [by rewrite (iframe_length _ _ _ Hf)|].
  exists i. split; [done|]. rewrite (if_ic _ _ _ Hf). by rewrite list_lookup_total_insert_ne.
Qed.

(** C11. A directory is a map from names to inode numbers, and [dirlink] adds one name:
    where the directory has no entry for it, the call returns 0, the directory then
    maps the name to the inode and every other name to what it did before, it is
    still a directory, and a later [dirlookup] of any name finds just that. *)
Theorem dirlink_inserts name inum bs F s :
  let es := entries (blk s) (icache s !!! dp) in
  can_link name inum bs F s -> dir_find es name = None ->
  length (icache s) = ninode -> (exists i, (i < ninode)%nat /\ i <> dp /\ i_ref (icache s !!! i) = 0) ->
  wp (dirlink dp name inum)
    (fun r s' => r = 0 /\ exists es' bs' F', linked es' bs bs' F' s s' /\
       (forall name', dir_inum es' name' = if decide (cut name' = cut name) then Some inum else dir_inum es name') /\
       (forall name', wp (dirlookup dp name') (fun r' s'' => looked_up (dir_find es' name') (icache s') r' (icache s'')) s')) s.
Proof.
  intros es Hc Hnone Hlen Hfree. pose proof Hc as [Hr Hd Hnm Hin Hsz Hib Hibl Hibm Hlog HF]. apply (dirlink_wp name inum bs F); [done|done|].
  fold es. set (k := free_entry es). set (e := de_make inum name). intros s' bs' F' Hl. split; [done|].
  assert (de_inum e = inum) as Ei by (apply de_inum_make; lia). assert (cut (de_name e) = cut name) as En by by apply de_name_make.
  exists (put_entry k e es), bs', F'. split; [done|]. split.
  - intros name'. rewrite dir_inum_put, Ei, En; [done|apply free_entry_unused|by apply (dir_find_cut name)|lia].
  - intros name'. destruct (linked_free _ _ _ _ _ _ Hl Hlen Hfree) as [Hlen' Hfree']. pose proof Hl as [[Ht' _ Hla' Hds' _ _ _ _ Hok'] _ Hd' Ees Hlb].
    eapply wp_mono; [apply (dirlookup_looked name' bs' s')|]; try done.
    + pose proof (la_size _ _ _ Hla'). lia.
    + change nbuf with 30%nat. unfold log_limit in Hlog. lia.
    + rewrite Ees. by intros r' s'' (_ & _ & H).
Qed.

End dir.

(** ** Instances on a small directory *)

(** The file of [DemoFs] as a directory with one entry: inode 16961, named CDEFGHIJ. *)
Definition demo_dir_inode : inode := MkInode ROOTDEV 1 1 (MkSl 1 1) 1 T_DIR 0 0 1 16 (37 :: replicate 12 0).
Definition demo_dir : kstate := put_icache (<[0%nat := demo_dir_inode]> (icache demo_fs)) demo_fs.
Definition demo_name : list Z := seqZ 67 8 ++ [0].

Lemma demo_dir_ready : fs_ready 1 demo_sb 37 0 [] [] demo_free demo_dir.
Proof.
  apply ready_inode; [apply demo_ready|]. destruct demo_file_ok as [O1 O2 O3 O4 O5 O6 O7 O8]. split; try done.
  intros k Hk Hs. apply O8; [done|]. change (k * 512 < 16) in Hs. change (k * 512 < 10). lia.
Qed.

Lemma demo_dir_dir : is_dir demo_dir_inode.
Proof. split; reflexivity. Qed.

Lemma demo_dir_length : length (icache demo_dir) = ninode.
Proof. by vm_compute. Qed.

Lemma demo_dir_free : exists i, (i < ninode)%nat /\ i <> 0%nat /\ i_ref (icache demo_dir !!! i) = 0.
Proof. exists 1%nat. split_and!; [by apply Nat.ltb_lt|done|done]. Qed.

Lemma dirlookup_finds_witness :
  wp (dirlookup 0 demo_name)
    (fun r s' => tx 1 [] [] s' /\ (forall c, blk s' c = blk demo_dir c) /\
       exists j, r = Some (j, 0) /\ got_inode ROOTDEV 16961 (icache demo_dir) (icache s') j) demo_dir.
Proof.
  assert (dir_find (entries (blk demo_dir) demo_dir_inode) demo_name = Some (0%nat, seqZ 65 10 ++ replicate 6 0)) as E by by vm_compute.
  pose proof (dirlookup_finds 1 demo_sb 37 0 demo_name [] demo_dir) as H. cbv zeta in H.
  change (icache demo_dir !!! 0%nat) with demo_dir_inode in H. rewrite E in H. apply H.
  - apply demo_dir_ready.
  - apply demo_dir_ready.
  - by vm_compute.
  - apply demo_dir_ready.
  - apply demo_dir_dir.
  - by apply Nat.ltb_lt.
  - apply demo_dir_length.
  - destruct demo_dir_free as (i & H1 & _ & H2). exact (ex_intro _ i (conj H1 H2)).
Defined.

(** The name abc is added for inode 5. *)
Lemma dirlink_inserts_witness :
  wp (dirlink 0 [97; 98; 99; 0] 5)
    (fun r s' => r = 0 /\ exists es' bs' F', linked 1 demo_sb 37 0 es' [] bs' F' demo_dir s' /\
       (forall name', dir_inum es' name' = if decide (cut name' = cut [97; 98; 99; 0]) then Some 5
          else dir_inum (entries (blk demo_dir) demo_dir_inode) name') /\
       (forall name', wp (dirlookup 0 name') (fun r' s'' => looked_up (dir_find es' name') (icache s') r' (icache s'')) s')) demo_dir.
Proof.
  apply (dirlink_inserts 1 demo_sb 37 0 [97; 98; 99; 0] 5 [] demo_free demo_dir).
  - split; [apply demo_dir_ready|apply demo_dir_dir|repeat constructor; lia|lia|by vm_compute|by vm_compute|by vm_compute|by vm_compute|by apply Nat.ltb_lt|by apply Nat.leb_le].
  - by vm_compute.
  - apply demo_dir_length.
  - apply demo_dir_free.
Defined.
