(* ===== verification/FsInode.v ===== *)
(** * Inodes on disk

    What [iupdate] stores is what [ilock] loads. *)

From S2P Require Import Prelude Bytes Monad Machine KernDefs Fs FsData.

(** The inode's fields fit those of [struct dinode]. *)
Record dinode_ok (x : inode) : Prop := {
  di_type : - 2 ^ 15 <= i_type x < 2 ^ 15;
  di_major : - 2 ^ 15 <= i_major x < 2 ^ 15;
  di_minor : - 2 ^ 15 <= i_minor x < 2 ^ 15;
  di_nlink : - 2 ^ 15 <= i_nlink x < 2 ^ 15;
  di_size : 0 <= i_size x < 2 ^ 32;
  di_addrs : length (i_addrs x) = S ndirect;
  di_addr : Forall (fun a => 0 <= a < 2 ^ 32) (i_addrs x)
}.

Lemma s16_u16 z : - 2 ^ 15 <= z < 2 ^ 15 -> s16 (u16 z) = z.
Proof. intros Hz. unfold s16, u16. rewrite Zmod_mod. cbv zeta. destruct (Z.ltb_spec (z mod 2 ^ 16) (2 ^ 15)); zdiv. Qed.

Lemma length_put_addrs l : forall o d, length (put_addrs o l d) = length d.
Proof. induction l as [|a l IH]; intros o d; [done|]. cbn. by rewrite IH, length_put32. Qed.

(** Bytes outside the array stay. *)
Lemma byte_at_put_addrs l : forall o d j, (o + 4 * length l <= length d)%nat -> ~ (o <= j < o + 4 * length l)%nat ->
  byte_at (put_addrs o l d) j = byte_at d j.
Proof.
  induction l as [|a l IH]; intros o d j Hl Hj; [done|]. cbn [put_addrs]. cbn [length] in *.
  rewrite IH by (rewrite ?length_put32; lia). apply byte_at_put32; lia.
Qed.

Lemma get32_put_addrs l : forall o d k a, (o + 4 * length l <= length d)%nat -> l !! k = Some a -> get32 (put_addrs o l d) (o + 4 * k) = u32 a.
Proof.
  induction l as [|b l IH]; intros o d k a Hl Hk; [done|]. cbn [length] in Hl. destruct k as [|k].
  - injection Hk as <-. cbn [put_addrs]. rewrite Nat.mul_0_r, Nat.add_0_r. unfold get32.
    rewrite !byte_at_put_addrs by (rewrite ?length_put32; lia). apply get32_put32. lia.
  - cbn [put_addrs]. replace (o + 4 * S k)%nat with (o + 4 + 4 * k)%nat by lia. apply IH; [rewrite length_put32; lia|done].
Qed.

(** Bytes of another inode stay. *)
Lemma byte_at_dinode x o d j :
  length (i_addrs x) = S ndirect -> (o + 64 <= length d)%nat -> ~ (o <= j < o + 64)%nat -> byte_at (dinode_store x o d) j = byte_at d j.
Proof.
  intros Ha Hl Hj. change (S ndirect) with 13%nat in Ha. unfold dinode_store. cbv zeta.
  rewrite byte_at_put_addrs by (rewrite ?length_put32, ?length_put16; lia).
  rewrite byte_at_put32 by (rewrite ?length_put16; lia). by rewrite !byte_at_put16 by (rewrite ?length_put16; lia).
Qed.

Lemma dinode_fields x o d :
  dinode_ok x -> (o + 64 <= length d)%nat ->
  let d' := dinode_store x o d in
  s16 (get16 d' o) = i_type x /\ s16 (get16 d' (o + 2)) = i_major x /\ s16 (get16 d' (o + 4)) = i_minor x /\ s16 (get16 d' (o + 6)) = i_nlink x /\
  get32 d' (o + 8) = i_size x /\ map (fun k => get32 d' (o + 12 + 4 * k)) (seq 0 (S ndirect)) = i_addrs x.
Proof.
  intros [T1 T2 T3 T4 T5 T6 T7] Hl d'. change (S ndirect) with 13%nat in *.
  assert (forall j, (j < o + 12)%nat -> byte_at d' j = byte_at (put32 (o + 8) (i_size x) (put16 (o + 6) (i_nlink x) (put16 (o + 4) (i_minor x)
    (put16 (o + 2) (i_major x) (put16 o (i_type x) d))))) j) as Hlow.
  { intros j Hj. apply byte_at_put_addrs; rewrite ?length_put32, ?length_put16; lia. }
  assert (forall k, (k + 2 <= o + 12)%nat -> get16 d' k = get16 (put32 (o + 8) (i_size x) (put16 (o + 6) (i_nlink x) (put16 (o + 4) (i_minor x)
    (put16 (o + 2) (i_major x) (put16 o (i_type x) d))))) k) as H16 by (intros k Hk; unfold get16; by rewrite !Hlow by lia).
  rewrite !H16, !get16_put32_ne by (rewrite ?length_put16; lia).
  split_and!.
  1-4: repeat first [rewrite get16_put16 by (rewrite ?length_put16; lia) | rewrite get16_put16_ne by (rewrite ?length_put16; lia)]; by apply s16_u16.
  - unfold get32. rewrite !Hlow by lia. fold (get32 (put32 (o + 8) (i_size x) (put16 (o + 6) (i_nlink x) (put16 (o + 4) (i_minor x)
    (put16 (o + 2) (i_major x) (put16 o (i_type x) d))))) (o + 8)). rewrite get32_put32 by (rewrite ?length_put16; lia). by apply u32_small.
  - apply list_eq. intros k. rewrite list_lookup_fmap. destruct (decide (k < 13)%nat) as [Hk|Hk].
    + rewrite lookup_seq_lt by done. destruct (lookup_lt_is_Some_2 (i_addrs x) k) as [a Ea]; [lia|]. rewrite Ea. cbn [fmap option_fmap option_map Nat.add].
      f_equal. unfold d', dinode_store. cbv zeta. rewrite (get32_put_addrs _ _ _ k a); [|rewrite ?length_put32, ?length_put16; lia|done].
      apply u32_small. by eapply Forall_lookup_1 in T7.
    + rewrite lookup_seq_ge, lookup_ge_None_2 by lia. done.
Qed.

(** An inode stored in its block by [iupdate] is what [ilock] reads back, and the
    other inodes of the block are untouched. *)
Theorem dinode_roundtrip x d y :
  dinode_ok x -> length d = bsize ->
  let d' := dinode_store x (dinode_off (i_inum x)) d in
  dinode_load d' (dinode_off (i_inum x)) y =
    MkInode (i_dev y) (i_inum y) (i_ref y) (i_lock y) (i_valid y) (i_type x) (i_major x) (i_minor x) (i_nlink x) (i_size x) (i_addrs x) /\
  forall inum, inum mod IPB <> i_inum x mod IPB -> dinode_load d' (dinode_off inum) y = dinode_load d (dinode_off inum) y.
Proof.
  intros Hx Hd d'. change bsize with 512%nat in Hd.
  assert (forall i, 0 <= i mod IPB < 8) as Hm by (intros i; apply Z.mod_pos_bound; by vm_compute).
  pose proof (Hm (i_inum x)) as Hi. unfold dinode_off in *. split.
  - destruct (dinode_fields x (dinode_off (i_inum x)) d Hx) as (F1 & F2 & F3 & F4 & F5 & F6); [unfold dinode_off; lia|].
    unfold dinode_off in *. fold d' in F1, F2, F3, F4, F5, F6. unfold dinode_load. by rewrite F1, F2, F3, F4, F5, F6.
  - intros inum Hne. pose proof (Hm inum) as Hj. assert (forall k, (k < 64)%nat -> byte_at d' (Z.to_nat (inum mod IPB * 64) + k) = byte_at d (Z.to_nat (inum mod IPB * 64) + k)) as H.
    { intros k Hk. apply byte_at_dinode; [by apply Hx|lia|lia]. }
    set (o := Z.to_nat (inum mod IPB * 64)) in *.
    assert (forall k, (k + 2 <= 64)%nat -> get16 d' (o + k) = get16 d (o + k)) as H16.
    { intros k Hk. unfold get16. rewrite <- !Nat.add_assoc. by rewrite !H by lia. }
    assert (forall k, (k + 4 <= 64)%nat -> get32 d' (o + k) = get32 d (o + k)) as H32.
    { intros k Hk. unfold get32. rewrite <- !Nat.add_assoc. by rewrite !H by lia. }
    unfold dinode_load. rewrite !H16, H32 by lia. specialize (H16 0%nat). rewrite Nat.add_0_r in H16. rewrite H16 by lia. f_equal.
    apply list_fmap_ext. intros i k [-> Hk]%lookup_seq. change (S ndirect) with 13%nat in Hk. rewrite <- !Nat.add_assoc. apply H32. lia.
Qed.

Lemma dinode_roundtrip_witness :
  let x := MkInode 1 9 1 sl0 1 2 0 (-1) 1 700 (seqZ 40 13) in
  let d' := dinode_store x (dinode_off 9) zero_block in
  dinode_load d' (dinode_off 9) inode0 = MkInode 0 0 0 sl0 0 2 0 (-1) 1 700 (seqZ 40 13) /\
  forall inum, inum mod IPB <> 9 mod IPB -> dinode_load d' (dinode_off inum) inode0 = dinode_load zero_block (dinode_off inum) inode0.
Proof.
  intros x. apply (dinode_roundtrip x zero_block inode0); [|done]. split; cbn; try lia; [done|].
  by repeat (apply Forall_cons; split; [lia|]).
Defined.
