(* ===== verification/FsAtomic.v ===== *)
(** * Files and crashes

    The file layer on top of the log: a write and the end of its operation. *)

From S2P Require Import Prelude Bytes Monad Machine ProcDefs ProcInv Proc DemoProc KernDefs Sleeplock Bio BioInv Log LogInv LogCrash LogOps DemoKern.
From S2P Require Import Fs FsTx FsBitmap FsFile FsData DemoFs.

Section atomic.
Context {FU : Fuel} {BD : BlockDevice} {SD : SyncDevice} {DV : DevSw} (p : nat) (sb : superblock) (ds : Z) (ip : nat).

(** A block the transaction did not record is as on the disk. *)
Lemma tx_clean bs s c : tx p [] bs s -> c ∉ bs -> blk s c = dblk s c.
Proof.
  intros Ht Hc. destruct (tx_inv _ _ _ _ Ht) as [l Hi]. destruct (cached_dec s c) as [(i & Hlt & Hcc)|Hf]; [|by apply blk_uncached].
  rewrite (bi_len _ _ Hi) in Hlt. rewrite (blk_cached l s i c Hi Hlt Hcc). unfold cached in Hcc. apply andb_true_iff in Hcc as [Hk Hf].
  assert (b_refcnt (bufs s !!! i) = 0) as Hr by (apply (tx_free _ _ _ _ Ht); [done|set_solver]).
  destruct (bi_buf _ _ Hi i Hlt) as (Hfl & _ & _ & _ & _ & Hd). pose proof Hk as Hk'. unfold keyed in Hk'. apply andb_true_iff in Hk' as [Hk1%Z.eqb_eq Hk2%Z.eqb_eq]. rewrite <- Hk2.
  apply Hd; [done|done|]. destruct Hfl as [E|[E|E]]; [by rewrite E in Hf|done|].
  destruct (tx_pin _ _ _ _ Ht i Hlt E) as (b & Hb & Hkb). by rewrite (keyed_fun _ _ _ Hk Hkb) in Hc.
Qed.

(** The log's view of the transaction. *)
Lemma tx_log_ctx bs s :
  tx p [] bs s -> l_dev (klog s) = ROOTDEV -> 0 <= l_start (klog s) -> l_start (klog s) + LOGSIZE < nblocks s -> (length bs + 2 <= nbuf)%nat ->
  exists l, log_ctx (l_start (klog s)) bs p l s.
Proof.
  intros Ht Hd Hs0 Hs1 Hl. pose proof Ht as [Hk [l Hi] Hheld Hfree Hnd Hpin [N1 N2 N3 N4] Hon Hrg Hsm Hout Hsz]. exists l.
  split; [done| |done|].
  - split; [done|]. intros i Hlt. apply Hfree; [done|set_solver].
  - split; try done. intros b Hb. by eapply Forall_forall in Hrg.
Qed.

Lemma same_blocks s s' : bufs s' = bufs s -> disk s' = disk s -> blk s' = blk s /\ dblk s' = dblk s /\ nblocks s' = nblocks s.
Proof. intros Eb Ed. unfold blk, dblk, nblocks. by rewrite Eb, Ed. Qed.

Lemma committed_same start bs ws s s0 s' s0' :
  bufs s0 = bufs s -> disk s0 = disk s -> bufs s0' = bufs s' -> disk s0' = disk s' -> committed start bs ws s s' -> committed start bs ws s0 s0'.
Proof.
  intros E1 E2 E3 E4 [C1 C2 C3 C4 C5]. destruct (same_blocks s s0 E1 E2) as (B1 & B2 & B3). destruct (same_blocks s' s0' E3 E4) as (B4 & B5 & B6).
  split; unfold after_crash in *; rewrite ?B1, ?B2, ?B3, ?B4, ?B5, ?E2, ?E4; done.
Qed.

(** C1. Writing to a file is atomic.  When the only operation under way writes up to
    [n] bytes to a file and ends, the disk then has the file with the bytes in place
    and every other data block as before, and an empty log; and a crash after any number of the disk
    writes this takes, followed by recovery, leaves the data blocks all as they were
    or all as after the write. *)
Theorem write_atomic off src F s :
  let x := icache s !!! ip in
  let n := Z.of_nat (length src) in
  let start := l_start (klog s) in
  fs_ready p sb ds ip [] [] F s -> i_type x <> T_DEV -> 0 <= off <= i_size x -> off + n <= MAXFILE * BSIZE ->
  start + LOGSIZE < IBLOCK (i_inum x) sb < ds -> IBLOCK (i_inum x) sb <> sb_bmapstart sb ->
  0 <= start -> l_dev (klog s) = ROOTDEV -> l_committing (klog s) = 0 -> l_outstanding (klog s) = 1 -> hdr_n (dblk s start) = 0 ->
  (5 + blocks off n <= nbuf)%nat -> (2 * blocks off n <= length F)%nat ->
  wp (let* r := writei ip src off in end_op ;;; ret r)
    (fun r s' => r = n /\ exists s1 bs ws,
       written sb ip off src s s1 [] bs /\ kctx p [] s' /\
       d_writes (disk s') = rev ws ++ d_writes (disk s) /\
       (forall c, data_block start (nblocks s) c -> dblk s' c = blk s1 c /\ blk s' c = blk s1 c) /\
       hdr_n (dblk s' start) = 0 /\
       forall k,
         (forall c, data_block start (nblocks s) c -> after_crash start ws k s c = blk s c) \/
         (forall c, data_block start (nblocks s) c -> after_crash start ws k s c = blk s1 c)) s.
Proof.
  intros x n start Hr Hty Hoff Hmax Hib Hne Hs0 Hdev Hcm Hout Hh Hlen HF. change LOGSIZE with 30 in *.
  pose proof (fr_layout _ _ _ _ _ _ _ _ Hr) as [L1 L2 L3 L4]. pose proof (fr_log _ _ _ _ _ _ _ _ Hr) as Hlog. pose proof (fr_ds _ _ _ _ _ _ _ _ Hr) as Hds.
  change nbuf with 30%nat in Hlen. fold start in Hlog. change LOGSIZE with 30 in Hlog. apply wp_bind.
  eapply wp_mono; [apply (writei_wp p sb ds ip off src [] F s); try done; unfold log_limit; cbn [length]; fold x n; change LOGSIZE with 30; lia|].
  intros r s1 (-> & bs & F1 & Hr1 & Hf1 & Hw). pose proof (wn_log _ _ _ _ _ _ _ _ Hw) as Hbs. fold n in Hbs. cbn [length] in Hbs.
  destruct (same_log_fields _ _ (if_log _ _ _ Hf1)) as (S1 & S2 & S3 & S4 & S5). pose proof (if_disk _ _ _ Hf1) as Ed.
  assert (dblk s1 = dblk s /\ nblocks s1 = nblocks s) as [Edb En] by (unfold dblk, nblocks; by rewrite Ed).
  destruct (tx_log_ctx bs s1 (fr_tx _ _ _ _ _ _ _ _ Hr1)) as [l Hc]; [congruence|rewrite S1; done|rewrite S1, En; change LOGSIZE with 30; fold start; lia| |].
  { change nbuf with 30%nat. lia. }
  rewrite S1 in Hc. fold start in Hc. assert (forall c, c ∉ bs -> blk s1 c = dblk s c) as Hcl by (intros c Hcb; rewrite (tx_clean bs) by (done || apply Hr1); by rewrite Edb).
  apply wp_bind. apply (end_op_last_wp start bs p l s1 (fun s2 => exists ws, committed start bs ws s1 s2)); [done|congruence|congruence| |].
  - intros s2 Hc2 Eb2 Ed2 Eg2. destruct (same_blocks s1 s2 Eb2 Ed2) as (_ & Ed2' & _).
    eapply commit_all_wp; [exact Hc2|by rewrite Ed2', Edb|]. intros ws s3 Hk3 _ HC. split; [done|]. exists ws. by eapply committed_same; [..|exact HC].
  - intros s2 s' [ws HC] Hk' Eb' Ed' _. apply wp_ret. split; [done|]. exists s1, bs, ws.
    assert (committed start bs ws s1 s') as [C1 C2 C3 C5 C4] by by eapply committed_same; [..|exact HC]. rewrite En, Ed in *.
    assert (forall c, (if decide (c ∈ bs) then blk s1 c else dblk s1 c) = blk s1 c) as Enew by (intros c; case_decide; [done|]; by rewrite Edb, Hcl).
    split_and!; [done|done|done| |done|].
    + intros c Hd. by rewrite C2, C3, Enew.
    + intros k. unfold after_crash in *. rewrite Edb in C4. destruct (C4 k) as [C|C]; [left|right]; intros c Hd; rewrite C by done.
      * symmetry. apply (tx_clean []); [apply Hr|set_solver].
      * by rewrite <- Edb, Enew.
Qed.

End atomic.

(** Six hundred bytes appended to the file of [DemoFs], and the operation ended. *)
Lemma write_atomic_witness :
  let src := replicate 600 46 in
  wp (let* r := writei 0 src 10 in end_op ;;; ret r)
    (fun r s' => r = 600 /\ exists s1 bs ws,
       written demo_sb 0 10 src demo_fs s1 [] bs /\ kctx 1 [] s' /\
       d_writes (disk s') = rev ws ++ d_writes (disk demo_fs) /\
       (forall c, data_block 2 (nblocks demo_fs) c -> dblk s' c = blk s1 c /\ blk s' c = blk s1 c) /\
       hdr_n (dblk s' 2) = 0 /\
       forall k,
         (forall c, data_block 2 (nblocks demo_fs) c -> after_crash 2 ws k demo_fs c = blk demo_fs c) \/
         (forall c, data_block 2 (nblocks demo_fs) c -> after_crash 2 ws k demo_fs c = blk s1 c)) demo_fs.
Proof.
  intros src. apply (write_atomic 1 demo_sb 37 0 10 src demo_free demo_fs); [apply demo_ready|..|by apply Nat.leb_le; vm_compute|by apply Nat.leb_le; vm_compute].
  all: by vm_compute.
Defined.
