(* ===== verification/Mkfs.v ===== *)
(** * The file system builder (mkfs.c)

    The program that writes the disk image the kernel boots from: superblock, inodes,
    the root directory and the files given as arguments.  The host is little-endian; its
    files are given by the results of [open] and [read]. *)

From S2P Require Import Prelude Strings Bytes Monad Machine KernDefs Log Fs.

Definition NINODES : Z := 200.
Definition nbitmap : Z := FSSIZE / (BSIZE * 8) + 1.
Definition ninodeblocks : Z := NINODES / IPB + 1.
Definition nlog : Z := LOGSIZE.
Definition nmeta : Z := 2 + nlog + ninodeblocks + nbitmap.

(** The image file as a list of blocks, and the counters. *)
Record mkfs_t : Type := MkMkfs { img : list block; freeinode : Z; freeblock : Z }.
Definition set_img (i : list block) (s : mkfs_t) : mkfs_t := MkMkfs i (freeinode s) (freeblock s).

(** The value whose bytes in memory are those of [x] in intel byte order. *)
Definition xshort (x : Z) : Z := get16 [byte_of x 0; byte_of x 1] 0.
Definition xint (x : Z) : Z := get32 [byte_of x 0; byte_of x 1; byte_of x 2; byte_of x 3] 0.

Definition mk_sb : superblock :=
  MkSb (xint FSSIZE) (xint (FSSIZE - nmeta)) (xint NINODES) (xint nlog) (xint 2) (xint (2 + nlog)) (xint (2 + nlog + ninodeblocks)).

(** [memmove(buf, &sb, sizeof(sb))]. *)
Definition sb_bytes (sb : superblock) (d : block) : block :=
  put32 24 (sb_bmapstart sb) (put32 20 (sb_inodestart sb) (put32 16 (sb_logstart sb) (put32 12 (sb_nlog sb)
    (put32 8 (sb_ninodes sb) (put32 4 (sb_nblocks sb) (put32 0 (sb_size sb) d)))))).

(** The block of the file that [lseek] to [sec * BSIZE] finds; writing behind the end
    fills the gap with zeros, reading there gives too few bytes. *)
Definition sector (sec : Z) : nat := Z.to_nat (u32 (sec * BSIZE) / BSIZE).
Definition wsect (sec : Z) (buf : block) : M mkfs_t unit :=
  modify (fun s =>
    let k := sector sec in
    if decide (k < length (img s))%nat then set_img (<[k := buf]> (img s)) s
    else set_img (img s ++ replicate (k - length (img s)) zero_block ++ [buf]) s).
Definition rsect (sec : Z) : M mkfs_t block :=
  let* s := gets (fun s => s) in
  match img s !! sector sec with
  | Some d => ret d
  | None => panic "read"
  end.

(** A [struct dinode] is its 64 bytes. *)
Definition winode (inum : Z) (ip : list Z) : M mkfs_t unit :=
  let bn := IBLOCK inum mk_sb in
  let* buf := rsect bn in
  wsect bn (blk_write (dinode_off inum) ip buf).
Definition rinode (inum : Z) : M mkfs_t (list Z) :=
  let* buf := rsect (IBLOCK inum mk_sb) in
  ret (blk_read (dinode_off inum) 64 buf).

Definition mkfs_ialloc (type : Z) : M mkfs_t Z :=
  let* inum := gets freeinode in
  modify (fun s => MkMkfs (img s) (u32 (inum + 1)) (freeblock s)) ;;;
  let din := replicate 64 0 in
  let din := put16 0 (xshort type) din in
  let din := put16 6 (xshort 1) din in
  let din := put32 8 (xint 0) din in
  winode inum din ;;;
  ret inum.

(** [freeblock++]. *)
Definition take_block : M mkfs_t Z :=
  let* b := gets freeblock in
  modify (fun s => MkMkfs (img s) (freeinode s) (u32 (b + 1))) ;;;
  ret b.

(** Offset of [addrs[k]] in a [struct dinode]. *)
Definition addr_off (k : Z) : nat := Z.to_nat (12 + 4 * k).

(** The block for byte [fbn * BSIZE] of the file, allocated if there is none. *)
Definition iappend_block (din : list Z) (fbn : Z) : M mkfs_t (list Z * Z) :=
  if fbn <? NDIRECT then
    let* din := (if xint (get32 din (addr_off fbn)) =? 0 then
        let* b := take_block in
        ret (put32 (addr_off fbn) (xint b) din)
      else ret din) in
    ret (din, xint (get32 din (addr_off fbn)))
  else
    let* din := (if xint (get32 din (addr_off NDIRECT)) =? 0 then
        let* b := take_block in
        ret (put32 (addr_off NDIRECT) (xint b) din)
      else ret din) in
    let* indirect := rsect (xint (get32 din (addr_off NDIRECT))) in
    let o := Z.to_nat (4 * (fbn - NDIRECT)) in
    let* indirect := (if get32 indirect o =? 0 then
        let* b := take_block in
        let indirect := put32 o (xint b) indirect in
        wsect (xint (get32 din (addr_off NDIRECT))) indirect ;;;
        ret indirect
      else ret indirect) in
    ret (din, xint (get32 indirect o)).

(** The [n] bytes left are [p]. *)
Fixpoint iappend_loop (f : nat) (din : list Z) (off : Z) (p : list Z) : M mkfs_t (list Z * Z) :=
  match f with
  | O => nofuel
  | S f =>
      let n := Z.of_nat (length p) in
      if negb (0 <? n) then ret (din, off) else
      let fbn := off / BSIZE in
      if negb (fbn <? MAXFILE) then panic "assert" else
      let* r := iappend_block din fbn in
      let (din, x) := (r : list Z * Z) in
      let n1 := Z.min n (u32 ((fbn + 1) * BSIZE - off)) in
      let* buf := rsect x in
      wsect x (blk_write (Z.to_nat (off - fbn * BSIZE)) (take (Z.to_nat n1) p) buf) ;;;
      iappend_loop f din (u32 (off + n1)) (drop (Z.to_nat n1) p)
  end.

Definition iappend (inum : Z) (xp : list Z) : M mkfs_t unit :=
  let* din := rinode inum in
  let* r := iappend_loop (S (length xp)) din (xint (get32 din 8)) xp in
  let (din, off) := (r : list Z * Z) in
  winode inum (put32 8 (xint off) din).

Fixpoint mark_used (n : nat) (i : Z) (buf : block) : block :=
  match n with
  | O => buf
  | S n => mark_used n (i + 1) (<[Z.to_nat (i / 8) := u8 (Z.lor (byte_at buf (Z.to_nat (i / 8))) (Z.shiftl 1 (i mod 8)))]> buf)
  end.
Definition mkfs_balloc (used : Z) : M mkfs_t unit :=
  if negb (used <? BSIZE * 8) then panic "assert" else
  wsect (sb_bmapstart mk_sb) (mark_used (Z.to_nat used) 0 zero_block).

(** A [struct dirent] after [bzero], with the name copied by [strncpy]. *)
Definition dirent (inum : Z) (name : list Z) : list Z :=
  put16 0 (xshort inum) (replicate 2 0) ++ take 14 name ++ replicate (14 - length name) 0.

Fixpoint zero_image (n : nat) (i : Z) : M mkfs_t unit :=
  match n with
  | O => ret tt
  | S n => wsect i zero_block ;;; zero_image n (i + 1)
  end.

(** What the calls of [read] return, up to the one that returns 0. *)
Fixpoint append_all (inum : Z) (reads : list (list Z)) : M mkfs_t unit :=
  match reads with
  | [] => ret tt
  | buf :: reads => iappend inum buf ;;; append_all inum reads
  end.

(** A leading [_] is not part of the name in the image. *)
Definition image_name (arg : list Z) : list Z :=
  match arg with
  | c :: rest => if c =? 95 then rest else arg
  | [] => []
  end.

(** An argument: its name, and what reading the file gives; [None] if it cannot be
    opened. *)
Abbreviation arg_t := (list Z * option (list (list Z)))%type.
Fixpoint add_files (rootino : Z) (args : list arg_t) : M mkfs_t unit :=
  match args with
  | [] => ret tt
  | (name, fd) :: args =>
      if bool_decide (47 ∈ name) then panic "assert" else
      match fd with
      | None => panic "open"
      | Some reads =>
          let* inum := mkfs_ialloc T_FILE in
          iappend rootino (dirent inum (image_name name)) ;;;
          append_all inum reads
      end ;;;
      add_files rootino args
  end.

Definition mkfs_main (args : list arg_t) : M mkfs_t unit :=
  modify (fun s => MkMkfs (img s) (freeinode s) nmeta) ;;;
  zero_image (Z.to_nat FSSIZE) 0 ;;;
  wsect 1 (sb_bytes mk_sb zero_block) ;;;
  let* rootino := mkfs_ialloc T_DIR in
  if negb (rootino =? ROOTINO) then panic "assert" else
  iappend rootino (dirent rootino [46]) ;;;
  iappend rootino (dirent rootino [46; 46]) ;;;
  add_files rootino args ;;;
  let* din := rinode rootino in
  let off := xint (get32 din 8) in
  let off := u32 ((off / BSIZE + 1) * BSIZE) in
  winode rootino (put32 8 (xint off) din) ;;;
  let* b := gets freeblock in
  mkfs_balloc b.

(** The file just opened and truncated. *)
Definition mkfs_start : mkfs_t := MkMkfs [] 1 0.
