(* ===== verification/MkfsInv.v ===== *)
(** * The image while it is built

    Every block in use belongs to one place of one file, blocks that are not are zero,
    and the blocks of a file hold its bytes; appending to a file keeps this. *)

From S2P Require Import Prelude Strings Bytes Monad Machine KernDefs Log Fs FsTx FsBitmap FsFile FsData FsInode Mkfs.

(** ** Bytes of inodes *)

(** An inode of the image as [ilock] loads it. *)
Definition node0 : inode := set_i_dev ROOTDEV inode0.
Definition mem (din : list Z) : inode := dinode_load din 0 node0.
Definition dsk (V : Z -> block) (i : Z) : inode := dinode_load (V (IBLOCK i mk_sb)) (dinode_off i) node0.

Lemma xint_u32 x : xint x = u32 x.
Proof. unfold xint. change [_; _; _; _] with (put32 0 x [0; 0; 0; 0]). apply get32_put32. cbn. lia. Qed.
Lemma xshort_u16 x : xshort x = u16 x.
Proof. unfold xshort. change [_; _] with (put16 0 x [0; 0]). apply get16_put16. cbn. lia. Qed.

Lemma dinode_load_ext d o d' o' y :
  (forall j, (j < 64)%nat -> byte_at d (o + j) = byte_at d' (o' + j)) -> dinode_load d o y = dinode_load d' o' y.
Proof.
  intros H. assert (forall j, (j + 2 <= 64)%nat -> get16 d (o + j) = get16 d' (o' + j)) as H16.
  { intros j Hj. unfold get16. rewrite <- !Nat.add_assoc. by rewrite !H by lia. }
  assert (forall j, (j + 4 <= 64)%nat -> get32 d (o + j) = get32 d' (o' + j)) as H32.
  { intros j Hj. unfold get32. rewrite <- !Nat.add_assoc. by rewrite !H by lia. }
  unfold dinode_load. rewrite (H32 8%nat), (H16 6%nat), (H16 4%nat), (H16 2%nat) by lia. pose proof (H16 0%nat ltac:(lia)) as H0. rewrite !Nat.add_0_r in H0. rewrite H0.
  f_equal. apply list_fmap_ext. intros i k [-> Hk]%lookup_seq. change (S ndirect) with 13%nat in Hk. cbn [Nat.add].
  rewrite <- !Nat.add_assoc. apply H32. lia.
Qed.

Lemma mem_put_addr din k v :
  length din = 64%nat -> 0 <= k <= NDIRECT ->
  mem (put32 (addr_off k) v din) = set_i_addrs (<[Z.to_nat k := u32 v]> (i_addrs (mem din))) (mem din).
Proof.
  intros Hl Hk. unfold NDIRECT in Hk. unfold mem, dinode_load, addr_off. cbn [Nat.add]. rewrite !get16_put32_ne, get32_put32_ne by lia.
  unfold set_i_addrs. cbn [i_addrs set_i_size set_i_nlink set_i_minor set_i_major set_i_type i_dev i_inum i_ref i_lock i_valid i_type i_major i_minor i_nlink i_size]. f_equal.
  apply list_eq. intros j. rewrite list_lookup_fmap. change (S ndirect) with 13%nat. destruct (decide (j < 13)%nat) as [Hj|Hj].
  - rewrite lookup_seq_lt by done. cbn [fmap option_fmap option_map Nat.add]. destruct (decide (j = Z.to_nat k)) as [->|Hne].
    + rewrite list_lookup_insert_eq by (rewrite length_map, length_seq; lia). f_equal.
      etransitivity; [|apply (get32_put32 (Z.to_nat (12 + 4 * k)) v din); lia]. f_equal. lia.
    + rewrite list_lookup_insert_ne, list_lookup_fmap, lookup_seq_lt by done. cbn [fmap option_fmap option_map Nat.add]. f_equal. apply get32_put32_ne; lia.
  - rewrite lookup_seq_ge by lia. cbn [fmap option_fmap option_map]. symmetry. apply lookup_ge_None. rewrite length_insert, length_map, length_seq. lia.
Qed.

Lemma mem_put_size din v : length din = 64%nat -> mem (put32 8 v din) = set_i_size (u32 v) (mem din).
Proof.
  intros Hl. unfold mem, dinode_load. cbn [Nat.add]. rewrite !get16_put32_ne, get32_put32 by lia. unfold set_i_addrs, set_i_size.
  cbn [i_addrs set_i_nlink set_i_minor set_i_major set_i_type i_dev i_inum i_ref i_lock i_valid i_type i_major i_minor i_nlink i_size]. f_equal.
  apply list_fmap_ext. intros i k [-> Hk]%lookup_seq. apply get32_put32_ne; lia.
Qed.

Lemma mem_put_type din v : length din = 64%nat -> mem (put16 0 v din) = set_i_type (s16 (u16 v)) (mem din).
Proof.
  intros Hl. unfold mem, dinode_load. cbn [Nat.add]. rewrite (get16_put16 0), !(get16_put16_ne 0), get32_put16_ne by lia. unfold set_i_addrs, set_i_type.
  cbn [i_addrs set_i_nlink set_i_minor set_i_major set_i_size i_dev i_inum i_ref i_lock i_valid i_type i_major i_minor i_nlink i_size]. f_equal.
  apply list_fmap_ext. intros i k [-> Hk]%lookup_seq. change (S ndirect) with 13%nat in Hk. apply get32_put16_ne; lia.
Qed.

Lemma mem_put_nlink din v : length din = 64%nat -> mem (put16 6 v din) = set_i_nlink (s16 (u16 v)) (mem din).
Proof.
  intros Hl. unfold mem, dinode_load. cbn [Nat.add]. rewrite (get16_put16 6), !(get16_put16_ne 6), get32_put16_ne by lia. unfold set_i_addrs, set_i_nlink.
  cbn [i_addrs set_i_type set_i_minor set_i_major set_i_size i_dev i_inum i_ref i_lock i_valid i_type i_major i_minor i_nlink i_size]. f_equal.
  apply list_fmap_ext. intros i k [-> Hk]%lookup_seq. change (S ndirect) with 13%nat in Hk. apply get32_put16_ne; lia.
Qed.

Lemma mem_addrs din k : 0 <= k <= NDIRECT -> i_addrs (mem din) !!! Z.to_nat k = get32 din (addr_off k).
Proof.
  intros Hk. unfold NDIRECT in Hk. cbn [mem dinode_load i_addrs set_i_addrs]. apply list_lookup_total_correct. rewrite list_lookup_fmap. change (S ndirect) with 13%nat.
  rewrite lookup_seq_lt by lia. cbn. do 2 f_equal. unfold addr_off. lia.
Qed.

Lemma mem_len din : length (i_addrs (mem din)) = S ndirect.
Proof. done. Qed.

(** ** Blocks in use *)

(** Slot [k] of a file: the number of its block [k], and of the indirect block for 140. *)
Definition slot (V : Z -> block) (x : inode) (k : Z) : Z := if k =? MAXFILE then ind x else fblk V x k.

Abbreviation inum_ok i := (0 <= i < 208).
Abbreviation slot_ok k := (0 <= k <= 140).

Record data_ok (S : Z -> Z -> Z) (C : Z -> list Z) (V : Z -> block) (fb : Z) : Prop := {
  do_fb : 59 <= fb <= 2000;
  do_rng : forall i k, inum_ok i -> slot_ok k -> S i k <> 0 -> 59 <= S i k < fb;
  do_inj : forall i k i' k', inum_ok i -> inum_ok i' -> slot_ok k -> slot_ok k' -> S i k <> 0 -> S i k = S i' k' -> i = i' /\ k = k';
  do_zero : forall b, fb <= b < 2000 -> V b = zero_block;
  do_byte : forall i k j, inum_ok i -> 0 <= k < 140 -> (j < 512)%nat -> S i k <> 0 -> byte_at (V (S i k)) j = nth (Z.to_nat (k * 512) + j) (C i) 0;
  do_full : forall i k, inum_ok i -> 0 <= k < 140 -> k * 512 < Z.of_nat (length (C i)) -> S i k <> 0;
  do_len : forall b, length (V b) = bsize
}.

Lemma data_ok_ext S S' C C' V fb :
  (forall i k, inum_ok i -> slot_ok k -> S' i k = S i k) -> (forall i, inum_ok i -> C' i = C i) -> data_ok S C V fb -> data_ok S' C' V fb.
Proof.
  intros HS HC [F R I Z B Fu L]. split; try done.
  - intros i k Hi Hk. rewrite HS by done. by apply R.
  - intros i k i' k' Hi Hi' Hk Hk'. rewrite !HS by done. by apply I.
  - intros i k j Hi Hk Hj. rewrite HS, HC by (done || lia). by apply B.
  - intros i k Hi Hk. rewrite HS, HC by (done || lia). by apply Fu.
Qed.

(** A new block in a slot that was empty; indirect blocks may change. *)
Lemma data_alloc S C V V' fb i k :
  data_ok S C V fb -> fb < 2000 -> inum_ok i -> slot_ok k -> S i k = 0 -> (k < 140 -> Z.of_nat (length (C i)) <= k * 512) ->
  (forall b, (forall j, inum_ok j -> S j 140 <> 0 -> S j 140 <> b) -> V' b = V b) -> (forall b, length (V' b) = bsize) ->
  data_ok (fun i' k' => if decide (i' = i /\ k' = k) then fb else S i' k') C V' (fb + 1).
Proof.
  intros [F R I Z B Fu L] Hfb Hi Hk H0 HC HV HL.
  assert (forall b, fb <= b -> V' b = V b) as Hnew.
  { intros b Hb. apply HV. intros j Hj Hne <-. pose proof (R j 140 Hj ltac:(lia) Hne). lia. }
  split.
  - lia.
  - intros i' k' Hi' Hk' Hne. case_decide; [lia|]. pose proof (R i' k' Hi' Hk' Hne). lia.
  - intros i1 k1 i2 k2 Hi1 Hi2 Hk1 Hk2 Hne E. repeat case_decide; [naive_solver|..].
    + destruct (decide (S i2 k2 = 0)); [lia|]. pose proof (R i2 k2 Hi2 Hk2 ltac:(done)). lia.
    + pose proof (R i1 k1 Hi1 Hk1 Hne). lia.
    + by apply I.
  - intros b Hb. rewrite Hnew by lia. apply Z. lia.
  - intros i' k' j Hi' Hk' Hj Hne. case_decide as E.
    + destruct E as [-> ->]. rewrite Hnew, Z by lia. rewrite (nth_overflow (C i)) by (specialize (HC ltac:(lia)); lia).
      apply byte_zero.
    + rewrite HV; [by apply B|]. intros j' Hj' Hn' E'. destruct (I j' 140 i' k' Hj' Hi' ltac:(lia) ltac:(lia) Hn' E'). lia.
  - intros i' k' Hi' Hk' Hlt. case_decide as E; [lia|]. by apply Fu.
  - done.
Qed.

(** Bytes are added to the last block. *)
Lemma data_write S C V V' fb i k l :
  data_ok S C V fb -> inum_ok i -> 0 <= k < 140 -> S i k <> 0 -> let n := Z.of_nat (length (C i)) in
  k * 512 <= n < (k + 1) * 512 -> n + Z.of_nat (length l) <= (k + 1) * 512 ->
  (forall b, V' b = if decide (b = S i k) then blk_write (Z.to_nat (n - k * 512)) l (V b) else V b) ->
  data_ok S (fun i' => if decide (i' = i) then C i ++ l else C i') V' fb.
Proof.
  intros [F R I Z B Fu L] Hi Hk Hne n Hn Hl HV. pose proof (R i k Hi ltac:(lia) Hne) as Hr. split; try done.
  - intros b Hb. rewrite HV. case_decide; [lia|]. by apply Z.
  - intros i' k' j Hi' Hk' Hj Hne'. rewrite HV. case_decide as E.
    + destruct (I i' k' i k Hi' Hi ltac:(lia) ltac:(lia) Hne' E) as [-> ->]. rewrite decide_True by done. clear E.
      rewrite byte_at_blk_write by (rewrite L; change bsize with 512%nat; lia). subst n. case_decide as Ej.
      * rewrite app_nth2 by lia. unfold byte_at. f_equal. lia.
      * rewrite B by done. destruct (decide (Z.to_nat (k * 512) + j < length (C i))%nat); [by rewrite app_nth1|].
        rewrite (nth_overflow (C i)), nth_overflow by (rewrite ?length_app; lia). done.
    + rewrite B by done. case_decide as Ei; [|done]. subst i'. assert (k' <> k) by naive_solver.
      destruct (decide (k' < k)); [by rewrite app_nth1 by lia|]. rewrite !nth_overflow by (rewrite ?length_app; lia). done.
  - intros i' k' Hi' Hk' Hlt. case_decide as Ei; [|by apply Fu]. subst i'. rewrite length_app in Hlt.
    destruct (decide (k' = k)) as [->|]; [done|]. apply Fu; [done|done|]. lia.
  - intros b. rewrite HV. case_decide; [rewrite length_blk_write|]; apply L.
Qed.

(** ** The image *)

Definition imgv (s : mkfs_t) (b : Z) : block := nth (Z.to_nat b) (img s) zero_block.

(** Blocks a file of [n] bytes takes. *)
Definition blocks (n : Z) : Z := (n + 511) / 512 + (if 6144 <? n then 1 else 0).

Lemma blocks_step n m : 0 <= n -> 1 <= m -> n mod 512 + m <= 512 -> blocks (n + m) = blocks (n + 1).
Proof. intros Hn Hm Hb. unfold blocks. f_equal; [zdiv|]. destruct (Z.ltb_spec 6144 (n + m)), (Z.ltb_spec 6144 (n + 1)); zdiv. Qed.

Lemma blocks_first n : 0 <= n -> n mod 512 = 0 -> blocks n + 1 <= blocks (n + 1).
Proof. intros Hn Hb. unfold blocks. destruct (Z.ltb_spec 6144 n), (Z.ltb_spec 6144 (n + 1)); zdiv. Qed.

Lemma blocks_inner n m : 0 <= n -> 0 <= m -> blocks n <= blocks (n + m).
Proof. intros Hn Hm. unfold blocks. destruct (Z.ltb_spec 6144 n), (Z.ltb_spec 6144 (n + m)); zdiv. Qed.

Lemma sector_small b : 0 <= b < 2000 -> sector b = Z.to_nat b.
Proof. intros Hb. unfold sector, BSIZE. rewrite u32_small by lia. f_equal. by apply Z.div_mul. Qed.

Lemma rsect_wp s b (Q : block -> mkfs_t -> Prop) : length (img s) = 2000%nat -> 0 <= b < 2000 -> Q (imgv s b) s -> wp (rsect b) Q s.
Proof.
  intros Hl Hb HQ. unfold rsect. apply wp_bind, wp_gets. rewrite sector_small by done. unfold imgv in HQ. rewrite nth_lookup in HQ.
  destruct (lookup_lt_is_Some_2 (img s) (Z.to_nat b)) as [d Ed]; [lia|]. rewrite Ed in *. by apply wp_ret.
Qed.

Lemma wsect_wp s b d (Q : unit -> mkfs_t -> Prop) :
  length (img s) = 2000%nat -> 0 < b < 2000 ->
  (forall s', length (img s') = 2000%nat -> freeinode s' = freeinode s -> freeblock s' = freeblock s ->
     (forall c, imgv s' c = if decide (c = b) then d else imgv s c) -> Q tt s') -> wp (wsect b d) Q s.
Proof.
  intros Hl Hb HQ. apply wp_modify. cbv zeta. rewrite sector_small, decide_True by lia. apply HQ; cbn; [by rewrite length_insert|done|done|].
  intros c. unfold imgv. cbn. rewrite !nth_lookup. case_decide as E; [subst; by rewrite list_lookup_insert_eq by lia|]. by rewrite list_lookup_insert_ne by lia.
Qed.

Lemma take_block_wp s (Q : Z -> mkfs_t -> Prop) :
  0 <= freeblock s < 2 ^ 32 - 1 -> Q (freeblock s) (MkMkfs (img s) (freeinode s) (freeblock s + 1)) -> wp take_block Q s.
Proof. intros Hb HQ. apply wp_bind, wp_gets, wp_bind, wp_modify. rewrite u32_small by lia. by apply wp_ret. Qed.

Lemma slot_frame V V' x k c :
  (forall b, b <> c -> V' b = V b) -> (ind x = 0 \/ ind x <> c) -> slot V' x k = slot V x k.
Proof.
  intros HV Hc. unfold slot, fblk. destruct (k =? MAXFILE); [done|]. destruct (k <? NDIRECT); [done|]. destruct (Z.eqb_spec (ind x) 0); [done|].
  by rewrite HV by tauto.
Qed.

(** ** Appending *)

(** The inode of file [i] while [iappend] works on its copy [din]. *)
Definition upd_ino (X : Z -> inode) (i : Z) (x : inode) : Z -> inode := fun j => if decide (j = i) then x else X j.
Definition upd_con (C : Z -> list Z) (i : Z) (l : list Z) : Z -> list Z := fun j => if decide (j = i) then l else C j.

Record loop_inv (X : Z -> inode) (C : Z -> list Z) (i : Z) (din : list Z) (s0 s : mkfs_t) : Prop := {
  li_len : length (img s) = 2000%nat;
  li_din : length din = 64%nat;
  li_low : forall b, b < 59 -> imgv s b = imgv s0 b;
  li_ino : freeinode s = freeinode s0;
  li_mem : mem din = set_i_addrs (i_addrs (mem din)) (X i);
  li_data : data_ok (fun j => slot (imgv s) (upd_ino X i (mem din) j)) C (imgv s) (freeblock s)
}.

Section append.
Context (X : Z -> inode) (i : Z) (s0 : mkfs_t).
Hypothesis (Hi : inum_ok i).

Lemma loop_slot C din s k :
  loop_inv X C i din s0 s -> slot_ok k -> slot (imgv s) (mem din) k = 0 \/ 59 <= slot (imgv s) (mem din) k < freeblock s.
Proof.
  intros H Hk. destruct (decide (slot (imgv s) (mem din) k = 0)) as [|Hne]; [by left|right].
  pose proof (do_rng _ _ _ _ (li_data _ _ _ _ _ _ H) i k Hi Hk) as Hr. unfold upd_ino in Hr. rewrite decide_True in Hr by done. by apply Hr.
Qed.

Lemma loop_full C din s k :
  loop_inv X C i din s0 s -> 0 <= k < 140 -> slot (imgv s) (mem din) k = 0 -> Z.of_nat (length (C i)) <= k * 512.
Proof.
  intros H Hk H0. destruct (decide (k * 512 < Z.of_nat (length (C i)))) as [Hlt|]; [|lia].
  pose proof (do_full _ _ _ _ (li_data _ _ _ _ _ _ H) i k Hi Hk Hlt) as Hr. unfold upd_ino in Hr. by rewrite decide_True in Hr.
Qed.

(** A direct block, or the indirect block, gets a number. *)
Lemma loop_addr C din s k (sl : Z) :
  loop_inv X C i din s0 s -> 0 <= k <= NDIRECT -> sl = (if k =? NDIRECT then 140 else k) -> slot (imgv s) (mem din) sl = 0 -> freeblock s < 2000 ->
  (sl < 140 -> Z.of_nat (length (C i)) <= sl * 512) ->
  loop_inv X C i (put32 (addr_off k) (xint (freeblock s)) din) s0 (MkMkfs (img s) (freeinode s) (freeblock s + 1)) /\
  (forall k', slot_ok k' -> slot (imgv s) (mem (put32 (addr_off k) (xint (freeblock s)) din)) k' = if decide (k' = sl) then freeblock s else slot (imgv s) (mem din) k').
Proof.
  intros [L1 L2 L3 L4 L5 L6] Hk Esl H0 Hfb HC. unfold NDIRECT in *. pose proof (do_fb _ _ _ _ L6) as Hf.
  assert (slot_ok sl) as Hsl by (subst sl; destruct (Z.eqb_spec k 12); lia).
  assert (mem (put32 (addr_off k) (xint (freeblock s)) din) = set_i_addrs (<[Z.to_nat k := freeblock s]> (i_addrs (mem din))) (mem din)) as Em.
  { rewrite mem_put_addr by done. rewrite xint_u32, !u32_small by (rewrite ?u32_small; lia). done. }
  assert (forall k', slot_ok k' -> slot (imgv s) (mem (put32 (addr_off k) (xint (freeblock s)) din)) k' = if decide (k' = sl) then freeblock s else slot (imgv s) (mem din) k') as Hs.
  { intros k' Hk'. rewrite Em. unfold slot in *. change MAXFILE with 140 in *. destruct (Z.eqb_spec k 12) as [->|Hne]; subst sl.
    - cbn [Z.eqb Pos.eqb] in H0. destruct (Z.eqb_spec k' 140) as [->|Hne']; [rewrite decide_True by done; unfold ind; cbn [i_addrs set_i_addrs]; apply list_lookup_total_insert_eq; rewrite mem_len; change (S ndirect) with 13%nat; lia|].
      rewrite decide_False by done. apply fblk_put_ind; [apply mem_len|done| |change MAXFILE with 140; lia]. apply (do_zero _ _ _ _ L6). lia.
    - destruct (Z.eqb_spec k' 140) as [->|Hne']; [rewrite decide_False by lia; unfold ind; cbn [i_addrs set_i_addrs]; apply list_lookup_total_insert_ne; unfold ndirect, NDIRECT; lia|].
      apply fblk_put; [apply mem_len|unfold NDIRECT; lia|change MAXFILE with 140; lia]. }
  split; [|exact Hs]. split; cbn [img freeinode freeblock]; [done|by rewrite length_put32|done|done| |].
  - rewrite Em. cbn [i_addrs set_i_addrs]. by rewrite L5 at 2.
  - eapply data_ok_ext; [| |apply (data_alloc _ _ _ (imgv s) _ i sl L6)]; try done; [| |apply L6].
    + intros j k' Hj Hk'. change (imgv _) with (imgv s) at 1. unfold upd_ino. destruct (decide (j = i)) as [->|Hne]; [rewrite Hs by done|]; repeat case_decide; naive_solver.
    + unfold upd_ino. by rewrite decide_True.
Qed.

(** A number in the indirect block. *)
Lemma loop_entry C din s s1 k :
  loop_inv X C i din s0 s -> 12 <= k < 140 -> ind (mem din) <> 0 -> slot (imgv s) (mem din) k = 0 -> freeblock s < 2000 ->
  length (img s1) = 2000%nat -> freeinode s1 = freeinode s -> freeblock s1 = freeblock s + 1 ->
  (forall c, imgv s1 c = if decide (c = ind (mem din)) then put32 (Z.to_nat (4 * (k - 12))) (xint (freeblock s)) (imgv s c) else imgv s c) ->
  loop_inv X C i din s0 s1 /\ slot (imgv s1) (mem din) k = freeblock s.
Proof.
  intros H Hk Hne H0 Hfb M1 M2 M3 M4. pose proof (loop_full C din s k H ltac:(lia) H0) as HC. destruct (loop_slot C din s 140 H ltac:(lia)) as [E|Hr]; [done|].
  destruct H as [L1 L2 L3 L4 L5 L6]. pose proof (do_fb _ _ _ _ L6) as Hf. change (slot (imgv s) (mem din) 140) with (ind (mem din)) in Hr.
  assert (forall j k', inum_ok j -> slot_ok k' -> slot (imgv s1) (upd_ino X i (mem din) j) k' =
    if decide (j = i /\ k' = k) then freeblock s else slot (imgv s) (upd_ino X i (mem din) j) k') as Hs.
  { intros j k' Hj Hk'. unfold upd_ino. destruct (decide (j = i)) as [->|Hji].
    - unfold slot. change MAXFILE with 140. destruct (Z.eqb_spec k' 140) as [->|Hk0]; [rewrite decide_False by lia; done|].
      rewrite (fblk_put32 (imgv s) (imgv s1) (mem din) k (freeblock s) k'); [repeat case_decide; naive_solver|done|lia|lia| |apply L6|lia].
      rewrite M4, decide_True by done. by rewrite xint_u32, u32_small by lia.
    - rewrite decide_False by naive_solver. apply (slot_frame _ _ _ _ (ind (mem din))); [intros b Hb; by rewrite M4, decide_False|].
      destruct (decide (ind (X j) = 0)) as [|Hn]; [by left|right]. intros E.
      destruct (do_inj _ _ _ _ L6 j 140 i 140 Hj Hi ltac:(lia) ltac:(lia)) as [? _]; unfold upd_ino; rewrite ?(decide_True _ _ (eq_refl i)), ?decide_False by done; done. }
  split; [split|].
  - done.
  - done.
  - intros b Hb. rewrite M4, decide_False by lia. by apply L3.
  - congruence.
  - done.
  - rewrite M3. eapply data_ok_ext; [exact Hs|done|]. apply (data_alloc _ _ (imgv s) (imgv s1) _ i k L6); [done|done|lia| |done| |].
    + unfold upd_ino. by rewrite decide_True.
    + intros b Hb. rewrite M4, decide_False; [done|]. intros ->. apply (Hb i Hi); unfold upd_ino; by rewrite decide_True.
    + intros b. rewrite M4. case_decide; [rewrite length_put32|]; apply L6.
  - specialize (Hs i k Hi ltac:(lia)). unfold upd_ino in Hs. rewrite !decide_True in Hs by done. done.
Qed.

(** The numbers in the copy of the inode, as the program reads them. *)
Lemma loop_read C din s k :
  loop_inv X C i din s0 s -> 0 <= k <= NDIRECT -> xint (get32 din (addr_off k)) = slot (imgv s) (mem din) (if k =? NDIRECT then 140 else k).
Proof.
  intros H Hk. pose proof (do_fb _ _ _ _ (li_data _ _ _ _ _ _ H)) as Hf. unfold NDIRECT in *.
  pose proof (loop_slot C din s (if k =? 12 then 140 else k) H ltac:(destruct (Z.eqb_spec k 12); lia)) as Hr.
  assert (get32 din (addr_off k) = slot (imgv s) (mem din) (if k =? 12 then 140 else k)) as E.
  { rewrite <- mem_addrs by done. unfold slot. change MAXFILE with 140. destruct (Z.eqb_spec k 12) as [->|Hne]; [done|].
    destruct (Z.eqb_spec k 140); [lia|]. unfold fblk, NDIRECT. by rewrite (proj2 (Z.ltb_lt _ _)) by lia. }
  rewrite E, xint_u32, u32_small by lia. done.
Qed.

Lemma loop_read_ind C din s k :
  loop_inv X C i din s0 s -> 12 <= k < 140 -> ind (mem din) <> 0 ->
  get32 (imgv s (ind (mem din))) (Z.to_nat (4 * (k - NDIRECT))) = slot (imgv s) (mem din) k.
Proof.
  intros H Hk Hne. unfold slot, fblk. change MAXFILE with 140. destruct (Z.eqb_spec k 140); [lia|]. unfold NDIRECT.
  rewrite (proj2 (Z.ltb_ge _ _)) by lia. by rewrite (proj2 (Z.eqb_neq _ _) Hne).
Qed.

(** ** The block for the next byte *)

Abbreviation len C := (Z.of_nat (length (C i))).
Abbreviation grow C := (blocks (len C + 1) - blocks (len C)).

Lemma loop_grow C din s :
  loop_inv X C i din s0 s -> len C / 512 < 140 -> slot (imgv s) (mem din) (len C / 512) = 0 -> len C = len C / 512 * 512 /\ 1 <= grow C.
Proof.
  intros H Hk H0. assert (0 <= len C / 512) by zdiv. pose proof (loop_full C din s (len C / 512) H ltac:(lia) H0) as Hle.
  assert (len C mod 512 = 0) as Hm by (clear -Hle; zdiv). pose proof (blocks_first (len C) ltac:(lia) Hm). split; [|lia]. clear -Hm. zdiv.
Qed.

Lemma direct_wp C din s (R : list Z * Z -> mkfs_t -> Prop) :
  loop_inv X C i din s0 s -> let fbn := len C / 512 in fbn < 12 -> freeblock s + grow C <= 2000 ->
  (forall din' s' x, loop_inv X C i din' s0 s' -> x = slot (imgv s') (mem din') fbn -> x <> 0 ->
     freeblock s <= freeblock s' <= freeblock s + grow C -> R (din', x) s') ->
  wp (iappend_block din fbn) R s.
Proof.
  intros H fbn Hk Hfb HR. assert (0 <= fbn) as Hk0 by (unfold fbn; zdiv). unfold iappend_block. rewrite (proj2 (Z.ltb_lt _ _)) by (unfold NDIRECT; lia).
  assert (forall din s, loop_inv X C i din s0 s -> xint (get32 din (addr_off fbn)) = slot (imgv s) (mem din) fbn) as Hrd.
  { intros d s' H'. rewrite (loop_read C d s' fbn H') by (unfold NDIRECT; lia). unfold NDIRECT. by rewrite (proj2 (Z.eqb_neq fbn 12)) by lia. }
  rewrite (Hrd din s H). apply wp_bind. pose proof (do_fb _ _ _ _ (li_data _ _ _ _ _ _ H)) as Hf.
  destruct (Z.eqb_spec (slot (imgv s) (mem din) fbn) 0) as [E|E].
  - destruct (loop_grow C din s H ltac:(lia) E) as [El Eg]. apply wp_bind, take_block_wp; [lia|]. apply wp_ret.
    destruct (loop_addr C din s fbn fbn H) as [H' Hs]; [unfold NDIRECT; lia|unfold NDIRECT; by rewrite (proj2 (Z.eqb_neq fbn 12)) by lia|done|lia|intros _; fold fbn in El; lia|].
    apply wp_ret. rewrite (Hrd _ _ H'). apply HR; [done|done| |cbn; lia]. specialize (Hs fbn ltac:(lia)). rewrite decide_True in Hs by done.
    change (imgv _) with (imgv s). rewrite Hs. lia.
  - assert (0 <= grow C) by (pose proof (blocks_inner (len C) 1); lia). apply wp_ret, wp_ret. rewrite (Hrd din s H). apply HR; [done|done|done|lia].
Qed.

(** The indirect block is there. *)
Lemma entry_wp C din s bound (R : list Z * Z -> mkfs_t -> Prop) :
  loop_inv X C i din s0 s -> let fbn := len C / 512 in 12 <= fbn < 140 -> ind (mem din) <> 0 -> bound <= 2000 -> freeblock s <= bound ->
  (slot (imgv s) (mem din) fbn = 0 -> freeblock s + 1 <= bound) ->
  (forall s' x, loop_inv X C i din s0 s' -> x = slot (imgv s') (mem din) fbn -> x <> 0 ->
     freeblock s <= freeblock s' <= bound -> R (din, x) s') ->
  wp (let* indirect := rsect (xint (get32 din (addr_off NDIRECT))) in
      let o := Z.to_nat (4 * (fbn - NDIRECT)) in
      let* indirect := (if get32 indirect o =? 0 then
          let* b := take_block in
          let indirect := put32 o (xint b) indirect in
          wsect (xint (get32 din (addr_off NDIRECT))) indirect ;;;
          ret indirect
        else ret indirect) in
      ret (din, xint (get32 indirect o))) R s.
Proof.
  intros H fbn Hk Hne Hb Hfb Hz HR. pose proof (do_fb _ _ _ _ (li_data _ _ _ _ _ _ H)) as Hf.
  rewrite (loop_read C din s NDIRECT H) by (unfold NDIRECT; lia). cbn [Z.eqb Pos.eqb NDIRECT]. change (slot (imgv s) (mem din) 140) with (ind (mem din)).
  destruct (loop_slot C din s 140 H ltac:(lia)) as [E|Hr]; [done|]. change (slot (imgv s) (mem din) 140) with (ind (mem din)) in Hr.
  apply wp_bind, rsect_wp; [apply H|lia|]. cbv zeta. rewrite (loop_read_ind C din s fbn H) by done. apply wp_bind.
  destruct (Z.eqb_spec (slot (imgv s) (mem din) fbn) 0) as [E|E].
  - specialize (Hz E). apply wp_bind, take_block_wp; [lia|]. apply wp_bind, wsect_wp; [apply H|lia|]. intros s' M1 M2 M3 M4. apply wp_ret.
    destruct (loop_entry C din s s' fbn H) as [H' Hs]; [lia|done|done|lia|done|done|done| |].
    { intros c. rewrite M4. change (imgv (MkMkfs _ _ _)) with (imgv s). case_decide as Ec; [by subst c|done]. }
    apply wp_ret. pose proof (do_len _ _ _ _ (li_data _ _ _ _ _ _ H) (ind (mem din))) as Hl. change bsize with 512%nat in Hl.
    rewrite get32_put32 by (unfold NDIRECT; lia). assert (xint (freeblock s) = freeblock s) as Ex by (rewrite xint_u32; apply u32_small; lia). rewrite Ex, u32_small, Ex by lia.
    apply HR; [done|by rewrite Hs|lia|]. rewrite M3. cbn [freeblock]. lia.
  - apply wp_ret, wp_ret. rewrite (loop_read_ind C din s fbn H) by done. destruct (loop_slot C din s fbn H ltac:(lia)) as [|Hr']; [done|].
    rewrite xint_u32, u32_small by lia. apply HR; [done|done|done|lia].
Qed.

Lemma iappend_block_wp C din s (R : list Z * Z -> mkfs_t -> Prop) :
  loop_inv X C i din s0 s -> let fbn := len C / 512 in fbn < 140 -> freeblock s + grow C <= 2000 ->
  (forall din' s' x, loop_inv X C i din' s0 s' -> x = slot (imgv s') (mem din') fbn -> x <> 0 ->
     freeblock s <= freeblock s' <= freeblock s + grow C -> R (din', x) s') ->
  wp (iappend_block din fbn) R s.
Proof.
  intros H fbn Hk Hfb HR. destruct (decide (fbn < 12)) as [Hd|Hd]; [by apply direct_wp|]. unfold iappend_block. rewrite (proj2 (Z.ltb_ge _ _)) by (unfold NDIRECT; lia).
  rewrite (loop_read C din s NDIRECT H) by (unfold NDIRECT; lia). cbn [Z.eqb Pos.eqb NDIRECT]. pose proof (do_fb _ _ _ _ (li_data _ _ _ _ _ _ H)) as Hf.
  assert (0 <= grow C) by (pose proof (blocks_inner (len C) 1); lia).
  apply wp_bind. destruct (Z.eqb_spec (slot (imgv s) (mem din) 140) 0) as [E|E].
  - assert (forall k, 12 <= k < 140 -> slot (imgv s) (mem din) k = 0) as Hnone.
    { intros k Hk'. unfold slot, fblk in *. change MAXFILE with 140 in *. cbn [Z.eqb Pos.eqb] in E. destruct (Z.eqb_spec k 140); [lia|].
      unfold NDIRECT. rewrite (proj2 (Z.ltb_ge _ _)) by lia. by rewrite E. }
    pose proof (loop_full C din s 12 H ltac:(lia) (Hnone 12 ltac:(lia))) as Hle. assert (len C = 6144) as El by (unfold fbn in Hd; clear -Hle Hd; zdiv).
    assert (grow C = 2) as Eg by (rewrite El; reflexivity).
    apply wp_bind, take_block_wp; [lia|]. apply wp_ret. destruct (loop_addr C din s NDIRECT 140 H) as [H' Hs]; [unfold NDIRECT; lia|done|done|lia|lia|].
    eapply (entry_wp C _ _ (freeblock s + grow C) _ H'); [fold fbn; lia| |lia|cbn; lia|cbn; lia|].
    + specialize (Hs 140 ltac:(lia)). rewrite decide_True in Hs by done. change (slot _ ?x 140) with (ind x) in Hs. rewrite Hs. lia.
    + intros s' x H2 Hx Hne Hr. apply HR; [done|done|done|]. cbn [freeblock] in Hr. lia.
  - apply wp_ret. eapply (entry_wp C din s (freeblock s + grow C) _ H); [fold fbn; lia|done|lia|lia| |].
    + intros E'. pose proof (loop_grow C din s H Hk E'). lia.
    + intros s' x H2 Hx Hne Hr. by apply HR.
Qed.
End append.
