(* ===== verification/MkfsOps.v ===== *)
(** * Building the image

    The operations of mkfs.c keep the image well formed, with the bytes appended to each
    file. *)

From S2P Require Import Prelude Strings Bytes Monad Machine KernDefs Log Fs FsTx FsBitmap FsFile FsData FsInode Mkfs MkfsInv.

(** ** The loop of [iappend] *)

Section loop.
Context (X : Z -> inode) (i : Z) (s0 : mkfs_t).
Hypothesis (Hi : inum_ok i).
Abbreviation len C := (Z.of_nat (length (C i))).

(** Bytes are written to the block found. *)
Lemma loop_write C din s s1 l :
  loop_inv X C i din s0 s -> let k := len C / 512 in k < 140 -> let x := slot (imgv s) (mem din) k in x <> 0 ->
  len C + Z.of_nat (length l) <= (k + 1) * 512 ->
  length (img s1) = 2000%nat -> freeinode s1 = freeinode s -> freeblock s1 = freeblock s ->
  (forall c, imgv s1 c = if decide (c = x) then blk_write (Z.to_nat (len C - k * 512)) l (imgv s c) else imgv s c) ->
  loop_inv X (upd_con C i (C i ++ l)) i din s0 s1.
Proof.
  intros H k Hk x Hne Hl M1 M2 M3 M4. assert (0 <= k) as Hk0 by (unfold k; zdiv). destruct (loop_slot X i s0 Hi C din s k H ltac:(lia)) as [|Hr]; [done|]. fold x in Hr.
  destruct H as [L1 L2 L3 L4 L5 L6]. split; [done|done| |congruence|done|].
  - intros b Hb. rewrite M4, decide_False by lia. by apply L3.
  - rewrite M3. eapply data_ok_ext; [| |apply (data_write _ _ _ (imgv s1) _ i k l L6 Hi)].
    + intros j k' Hj Hk'. apply (slot_frame _ _ _ _ x); [intros b Hb; by rewrite M4, decide_False|].
      destruct (decide (ind (upd_ino X i (mem din) j) = 0)) as [|Hn]; [by left|right]. intros E.
      destruct (do_inj _ _ _ _ L6 j 140 i k Hj Hi ltac:(lia) ltac:(lia)) as [_ E2]; [done|unfold upd_ino at 2; by rewrite decide_True|lia].
    + done.
    + lia.
    + unfold upd_ino. by rewrite decide_True.
    + unfold k. zdiv.
    + lia.
    + intros b. rewrite M4. unfold upd_ino. by rewrite (decide_True _ _ (eq_refl i)).
Qed.

Lemma upd_con_len C l : length (upd_con C i l i) = length l.
Proof. unfold upd_con. by rewrite decide_True. Qed.

Lemma iappend_loop_wp f C din s p (R : list Z * Z -> mkfs_t -> Prop) :
  loop_inv X C i din s0 s -> let n := Z.of_nat (length p) in
  (length p < f)%nat -> len C + n <= 71680 -> freeblock s + (blocks (len C + n) - blocks (len C)) <= 2000 ->
  (forall din' s', loop_inv X (upd_con C i (C i ++ p)) i din' s0 s' ->
     freeblock s <= freeblock s' <= freeblock s + (blocks (len C + n) - blocks (len C)) -> R (din', len C + n) s') ->
  wp (iappend_loop f din (len C) p) R s.
Proof.
  revert C din s p. induction f as [|f IH]; intros C din s p H n Hf Hm Hfb HR; [lia|]. cbn [iappend_loop]. fold n.
  destruct (Z.ltb_spec 0 n) as [Hn|Hn]; cbn [negb].
  2:{ apply wp_ret. assert (p = []) as -> by (destruct p; [done|cbn in n; lia]). rewrite app_nil_r in HR. assert (len C + n = len C) as En by lia. rewrite En in HR.
      apply HR; [|lia]. destruct H as [L1 L2 L3 L4 L5 L6]. split; try done. eapply data_ok_ext; [done| |exact L6].
      intros j _. unfold upd_con. case_decide; naive_solver. }
  unfold BSIZE, MAXFILE. change (NDIRECT + NINDIRECT) with 140. assert (0 <= len C / 512 < 140) as Hk by (split; [zdiv|apply Z.div_lt_upper_bound; lia]).
  rewrite (proj2 (Z.ltb_lt (len C / 512) 140)) by lia. cbn [negb]. set (k := len C / 512) in *.
  assert (k * 512 <= len C < (k + 1) * 512) as Hb by (unfold k; zdiv). set (n1 := Z.min n (u32 ((k + 1) * 512 - len C))).
  assert (n1 = Z.min n ((k + 1) * 512 - len C)) as En1 by (unfold n1; by rewrite u32_small by lia). 
  assert (blocks (len C + n1) = blocks (len C + 1)) as Eb1 by (apply blocks_step; [lia|lia|]; replace (len C mod 512) with (len C - k * 512); [lia|unfold k; zdiv]).
  pose proof (blocks_inner (len C + n1) (n - n1) ltac:(lia) ltac:(lia)) as Hle. replace (len C + n1 + (n - n1)) with (len C + n) in Hle by lia.
  apply wp_bind. eapply (iappend_block_wp X i s0 Hi C din s); [exact H|fold k; lia|lia|]. fold k. intros din' s' x H' -> Hx Hfb'.
  destruct (loop_slot X i s0 Hi C din' s' k H' ltac:(lia)) as [|Hr]; [done|]. pose proof (do_fb _ _ _ _ (li_data _ _ _ _ _ _ H')) as Hf2.
  apply wp_bind, rsect_wp; [apply H'|lia|]. apply wp_bind, wsect_wp; [apply H'|lia|]. intros s1 M1 M2 M3 M4.
  set (l := take (Z.to_nat n1) p) in *. assert (length l = Z.to_nat n1) as Ell by (unfold l; rewrite length_take; lia).
  assert (loop_inv X (upd_con C i (C i ++ l)) i din' s0 s1) as H1.
  { apply (loop_write C din' s' s1 l H'); fold k; [lia|done|lia|done|done|done|]. intros c. rewrite M4. case_decide as Ec; [by subst c|done]. }
  assert (len (upd_con C i (C i ++ l)) = len C + n1) as El1 by (rewrite upd_con_len, length_app; lia).
  rewrite u32_small by lia. rewrite <- El1. eapply IH; [exact H1|rewrite length_drop; lia|rewrite El1, length_drop; lia|rewrite El1, length_drop, M3|].
  - replace (len C + n1 + Z.of_nat (length p - Z.to_nat n1)) with (len C + n) by lia. lia.
  - rewrite El1, length_drop, M3. replace (len C + n1 + Z.of_nat (length p - Z.to_nat n1)) with (len C + n) by lia.
    intros din2 s2 H2 Hfb2. apply HR; [|lia]. destruct H2 as [L1 L2 L3 L4 L5 L6]. split; try done. eapply data_ok_ext; [done| |exact L6].
    intros j _. unfold upd_con. rewrite (decide_True _ _ (eq_refl i)). unfold l. rewrite <- app_assoc, take_drop. case_decide; done.
Qed.
End loop.

(** ** Inodes in the image *)

Definition fresh_node : inode := mem (replicate 64 0).

Record mk_inv (X : Z -> inode) (C : Z -> list Z) (s : mkfs_t) : Prop := {
  mi_len : length (img s) = 2000%nat;
  mi_disk : forall i, inum_ok i -> dsk (imgv s) i = X i;
  mi_data : data_ok (fun i => slot (imgv s) (X i)) C (imgv s) (freeblock s);
  mi_low : forall b, 0 <= b < 59 -> ~ 32 <= b < 58 -> imgv s b = if decide (b = 1) then sb_bytes mk_sb zero_block else zero_block;
  mi_ino : 1 <= freeinode s;
  mi_fresh : forall i, freeinode s <= i < 208 -> X i = fresh_node /\ C i = []
}.

Lemma IBLOCK_at i : inum_ok i -> IBLOCK i mk_sb = 32 + i / 8 /\ 32 <= 32 + i / 8 < 58.
Proof.
  intros Hi. assert (0 <= i / 8 < 26) by zdiv. unfold IBLOCK. change (sb_inodestart mk_sb) with 32. change IPB with 8. rewrite u32_small by lia. lia.
Qed.

Lemma dinode_off_at i : inum_ok i -> (dinode_off i + 64 <= 512)%nat.
Proof. intros Hi. unfold dinode_off. change IPB with 8. zdiv. Qed.

Lemma byte_at_blk_read o n d j : (j < n)%nat -> byte_at (blk_read o n d) j = byte_at d (o + j).
Proof. intros Hj. unfold byte_at, blk_read. rewrite !nth_lookup. by rewrite lookup_take_lt, lookup_drop. Qed.

Lemma rinode_wp X C s i (Q : list Z -> mkfs_t -> Prop) :
  mk_inv X C s -> inum_ok i -> (forall din, length din = 64%nat -> mem din = X i -> Q din s) -> wp (rinode i) Q s.
Proof.
  intros H Hi HQ. destruct (IBLOCK_at i Hi) as [Eb Hb]. unfold rinode. apply wp_bind, rsect_wp; [apply H|lia|]. apply wp_ret. apply HQ.
  - unfold blk_read. rewrite length_take, length_drop, (do_len _ _ _ _ (mi_data _ _ _ H)). pose proof (dinode_off_at i Hi). change bsize with 512%nat. lia.
  - rewrite <- (mi_disk _ _ _ H i Hi). unfold mem, dsk. apply dinode_load_ext. intros j Hj. by rewrite byte_at_blk_read.
Qed.

Lemma data_ok_low S C V V' fb :
  (forall b, 59 <= b -> V' b = V b) -> (forall b, length (V' b) = bsize) -> data_ok S C V fb -> data_ok S C V' fb.
Proof.
  intros HV HL [F R I Z B Fu L]. split; try done.
  - intros b Hb. rewrite HV by lia. by apply Z.
  - intros i k j Hi Hk Hj Hne. rewrite HV by (pose proof (R i k Hi ltac:(lia) Hne); lia). by apply B.
Qed.

Lemma slot_low V V' x k : (forall b, 59 <= b -> V' b = V b) -> (ind x = 0 \/ 59 <= ind x) -> slot V' x k = slot V x k.
Proof.
  intros HV Hc. unfold slot, fblk. destruct (k =? MAXFILE); [done|]. destruct (k <? NDIRECT); [done|]. destruct (Z.eqb_spec (ind x) 0); [done|].
  by rewrite HV by lia.
Qed.

(** The inode's block after [winode]. *)
Lemma winode_dsk V V' i din :
  inum_ok i -> length din = 64%nat -> length (V (IBLOCK i mk_sb)) = bsize ->
  (forall c, V' c = if decide (c = IBLOCK i mk_sb) then blk_write (dinode_off i) din (V c) else V c) ->
  forall j, inum_ok j -> dsk V' j = if decide (j = i) then mem din else dsk V j.
Proof.
  intros Hi Hd Hl HV j Hj. pose proof (dinode_off_at i Hi). change bsize with 512%nat in Hl. unfold dsk. rewrite HV.
  destruct (IBLOCK_at i Hi) as [Ei _], (IBLOCK_at j Hj) as [Ej _]. case_decide as E.
  - rewrite E in *. case_decide as Eji.
    + subst j. unfold mem. apply dinode_load_ext. intros k Hk. rewrite byte_at_blk_write by lia. rewrite decide_True by lia. unfold byte_at. f_equal. lia.
    + apply dinode_load_ext. intros k Hk. rewrite byte_at_blk_write by lia. rewrite decide_False; [done|]. unfold dinode_off. change IPB with 8. zdiv.
  - rewrite decide_False by naive_solver. done.
Qed.

Lemma winode_wp X C X' C' s s1 i din (Q : unit -> mkfs_t -> Prop) :
  inum_ok i -> length din = 64%nat -> length (img s1) = 2000%nat ->
  (forall b, b < 59 -> imgv s1 b = imgv s b) -> mk_inv X C s ->
  data_ok (fun j => slot (imgv s1) (upd_ino X i (mem din) j)) C' (imgv s1) (freeblock s1) ->
  1 <= freeinode s1 -> (forall j, freeinode s1 <= j < 208 -> upd_ino X i (mem din) j = fresh_node /\ C' j = []) ->
  (forall j, X' j = upd_ino X i (mem din) j) ->
  (forall s', mk_inv X' C' s' -> freeblock s' = freeblock s1 -> freeinode s' = freeinode s1 -> Q tt s') ->
  wp (winode i din) Q s1.
Proof.
  intros Hi Hd Hl Hlow H Hdat Hino Hfr HX HQ. destruct (IBLOCK_at i Hi) as [Eb Hb]. unfold winode. apply wp_bind, rsect_wp; [done|lia|].
  apply wsect_wp; [done|lia|]. intros s' M1 M2 M3 M4.
  assert (forall b, length (imgv s' b) = bsize) as HL by (intros b; rewrite M4; case_decide; [rewrite length_blk_write|]; apply Hdat).
  assert (forall c, imgv s' c = if decide (c = IBLOCK i mk_sb) then blk_write (dinode_off i) din (imgv s1 c) else imgv s1 c) as HV.
  { intros c. rewrite M4. case_decide as Ec; [by subst c|done]. }
  assert (forall b, 59 <= b -> imgv s' b = imgv s1 b) as Hhi by (intros b Hb'; rewrite HV, decide_False by lia; done).
  apply HQ; [split|done|done]; try (rewrite ?M2, ?M3; done).
  - intros j Hj. rewrite HX. unfold upd_ino. rewrite (winode_dsk _ _ i din Hi Hd (do_len _ _ _ _ Hdat _) HV j Hj). case_decide; [done|].
    rewrite <- (mi_disk _ _ _ H j Hj). unfold dsk. destruct (IBLOCK_at j Hj). by rewrite Hlow by lia.
  - rewrite M3. apply (data_ok_low _ _ (imgv s1)); [done|done|]. eapply data_ok_ext; [|done|exact Hdat]. intros j k Hj Hk. rewrite HX. apply slot_low; [done|].
    destruct (decide (ind (upd_ino X i (mem din) j) = 0)); [by left|right]. by apply (do_rng _ _ _ _ Hdat j 140 Hj ltac:(lia)).
  - intros b Hb1 Hb2. rewrite HV, decide_False, Hlow by lia. by apply H.
  - intros j Hj. rewrite M2 in Hj. rewrite HX. by apply Hfr.
Qed.

(** ** The operations *)

Lemma iappend_wp X C s i p (Q : unit -> mkfs_t -> Prop) :
  mk_inv X C s -> 1 <= i < freeinode s -> inum_ok i -> let len := Z.of_nat (length (C i)) in let n := Z.of_nat (length p) in
  i_size (X i) = len -> len + n <= 71680 -> freeblock s + (blocks (len + n) - blocks len) <= 2000 ->
  (forall X' s', mk_inv X' (upd_con C i (C i ++ p)) s' -> (forall j, j <> i -> X' j = X j) ->
     (exists a, X' i = set_i_size (len + n) (set_i_addrs a (X i))) ->
     freeblock s' <= freeblock s + (blocks (len + n) - blocks len) -> freeinode s' = freeinode s -> Q tt s') ->
  wp (iappend i p) Q s.
Proof.
  intros H Hif Hi len n Hs Hm Hfb HQ. unfold iappend. apply wp_bind. eapply rinode_wp; [exact H|done|]. intros din Hd Em.
  assert (xint (get32 din 8) = len) as ->.
  { assert (get32 din 8 = i_size (mem din)) as -> by done. rewrite Em, Hs, xint_u32. apply u32_small. unfold len. lia. }
  assert (loop_inv X C i din s s) as Hl.
  { split; [apply H|done|done|done|rewrite Em; by destruct (X i)|]. eapply data_ok_ext; [|done|apply H]. intros j k Hj Hk. unfold upd_ino. case_decide; [subst; by rewrite Em|done]. }
  apply wp_bind. apply (iappend_loop_wp X i s Hi (S (length p)) C din s p); [done|lia|done|done|]. fold len n. intros din' s' Hl' Hfb'.
  assert (length din' = 64%nat) as Hd' by apply Hl'. assert (mem (put32 8 (xint (len + n)) din') = set_i_size (len + n) (mem din')) as Es.
  { rewrite mem_put_size by done. f_equal. rewrite xint_u32, !u32_small; unfold len, n in *; rewrite ?u32_small; lia. }
  eapply (winode_wp X C (upd_ino X i (set_i_size (len + n) (mem din'))) (upd_con C i (C i ++ p)) s); [done|by rewrite length_put32|apply Hl'|apply Hl'|done| | | | |].
  - rewrite Es. eapply data_ok_ext; [|done|apply Hl']. intros j k Hj Hk. unfold upd_ino. case_decide; done.
  - rewrite (li_ino _ _ _ _ _ _ Hl'). apply H.
  - rewrite (li_ino _ _ _ _ _ _ Hl'). intros j Hj. unfold upd_ino, upd_con. rewrite !decide_False by lia. by apply H.
  - intros j. by rewrite Es.
  - intros s2 H2 E2 E3. apply (HQ (upd_ino X i (set_i_size (len + n) (mem din')))); [done| | |lia|].
    + intros j Hj. unfold upd_ino. by rewrite decide_False.
    + exists (i_addrs (mem din')). unfold upd_ino. rewrite decide_True by done. by rewrite (li_mem _ _ _ _ _ _ Hl') at 1.
    + rewrite E3. apply Hl'.
Qed.

Lemma slot_none V x k : i_addrs x = replicate 13 0 -> 0 <= k -> slot V x k = 0.
Proof.
  intros Ha Hk. assert (ind x = 0) as Ei by (unfold ind; rewrite Ha; done). unfold slot, fblk. rewrite Ei. destruct (k =? MAXFILE); [done|].
  unfold NDIRECT. destruct (Z.ltb_spec k 12); [|done]. rewrite Ha. apply list_lookup_total_correct, lookup_replicate_2. lia.
Qed.

(** A new inode. *)
Definition new_node (type : Z) : inode := set_i_nlink 1 (set_i_type type fresh_node).

Lemma set_size_same x : i_size x = 0 -> set_i_size 0 x = x.
Proof. destruct x. cbn. by intros ->. Qed.

Lemma mkfs_ialloc_wp X C s type (Q : Z -> mkfs_t -> Prop) :
  mk_inv X C s -> freeinode s < 208 -> 0 <= type < 2 ^ 15 ->
  (forall s', mk_inv (upd_ino X (freeinode s) (new_node type)) C s' -> freeblock s' = freeblock s -> freeinode s' = freeinode s + 1 -> Q (freeinode s) s') ->
  wp (mkfs_ialloc type) Q s.
Proof.
  intros H Hf Ht HQ. pose proof (mi_ino _ _ _ H) as H1. set (i := freeinode s) in *. assert (inum_ok i) as Hi by lia.
  destruct (mi_fresh _ _ _ H i ltac:(lia)) as [EX EC]. unfold mkfs_ialloc. apply wp_bind, wp_gets, wp_bind, wp_modify. fold i. rewrite u32_small by lia. cbv zeta.
  set (din := put32 8 _ _). assert (mem din = new_node type) as Em.
  { unfold din. rewrite mem_put_size, mem_put_nlink, mem_put_type by (by rewrite ?length_put16).
    assert (xshort type = type) as -> by (rewrite xshort_u16; unfold u16; apply Z.mod_small; lia). rewrite (s16_u16 type) by lia.
    assert (s16 (u16 (xshort 1)) = 1 /\ u32 (xint 0) = 0) as [-> ->] by (split; reflexivity).
    apply (set_size_same (new_node type)). vm_compute. reflexivity. }
  assert (forall V k, 0 <= k -> slot V (mem din) k = slot V (X i) k) as Hsl.
  { intros V k Hk. rewrite Em, EX. by rewrite !slot_none. }
  apply wp_bind. eapply (winode_wp X C (upd_ino X i (new_node type)) C s); [done|unfold din; by rewrite length_put32, !length_put16|apply H|done|done| | | | |].
  - cbn [freeblock imgv img]. eapply data_ok_ext; [|done|apply H]. intros j k Hj Hk. unfold upd_ino. case_decide; [subst; by rewrite Hsl by lia|done].
  - cbn. lia.
  - cbn. intros j Hj. unfold upd_ino. rewrite decide_False by lia. apply H. fold i. lia.
  - intros j. by rewrite Em.
  - intros s' H' E1 E2. apply wp_ret. by apply HQ.
Qed.
