(* ===== verification/MkfsMain.v ===== *)
(** * The image [mkfs] builds

    The superblock describes the layout, the log is empty, the root directory lists the
    files and the files have the bytes that were read, in blocks of their own that the
    bitmap marks. *)

From S2P Require Import Prelude Strings Bytes Monad Machine KernDefs Log Fs FsTx FsBitmap FsFile FsData FsInode Mkfs MkfsInv MkfsOps.

(** The inode of a file of [n] bytes. *)
Record node_ok (type n : Z) (x : inode) : Prop := {
  no_dev : i_dev x = ROOTDEV;
  no_type : i_type x = type;
  no_nlink : i_nlink x = 1;
  no_size : i_size x = n
}.

Lemma node_grown type n x x' n' : node_ok type n x -> (exists a, x' = set_i_size n' (set_i_addrs a x)) -> node_ok type n' x'.
Proof. intros [N1 N2 N3 N4] [a ->]. by split. Qed.

Lemma length_dirent inum name : length (dirent inum name) = 16%nat.
Proof. unfold dirent. rewrite !length_app, length_put16, length_take, !length_replicate. lia. Qed.

(** ** Files *)

Abbreviation zlen l := (Z.of_nat (length l)).

Lemma append_all_wp X C s i type reads (Q : unit -> mkfs_t -> Prop) :
  let n := zlen (C i) in let m := zlen (concat reads) in
  mk_inv X C s -> 1 <= i < freeinode s -> inum_ok i -> node_ok type n (X i) -> n + m <= 71680 -> freeblock s + (blocks (n + m) - blocks n) <= 2000 ->
  (forall X' s', mk_inv X' (upd_con C i (C i ++ concat reads)) s' -> (forall j, j <> i -> X' j = X j) -> node_ok type (n + m) (X' i) ->
     freeblock s' <= freeblock s + (blocks (n + m) - blocks n) -> freeinode s' = freeinode s -> Q tt s') ->
  wp (append_all i reads) Q s.
Proof.
  revert X C s. induction reads as [|p reads IH]; intros X C s n m H Hif Hi Hno Hm Hfb HQ; cbn [append_all].
  - apply wp_ret. unfold m in *. cbn [concat length Z.of_nat] in *. rewrite Z.add_0_r in HQ. apply (HQ X); [|done|done|lia|done].
    rewrite app_nil_r. destruct H as [L1 L2 L3 L4 L5 L6].
    assert (forall j, upd_con C i (C i) j = C j) as E by (intros j; unfold upd_con; case_decide; naive_solver).
    split; [done|done|eapply data_ok_ext; [done|intros j _; apply E|done]|done|done|]. intros j Hj. rewrite E. by apply L6.
  - unfold m in *. cbn [concat] in *. rewrite length_app, Nat2Z.inj_add in *. rewrite !Z.add_assoc in *.
    pose proof (blocks_inner (n + zlen p) (zlen (concat reads)) ltac:(lia) ltac:(lia)).
    apply wp_bind. apply (iappend_wp X C s i p); [done|done|done|apply Hno|fold n; lia|fold n; lia|]. fold n. intros X1 s1 H1 HX1 HXi Hf1 Hi1.
    assert (zlen (upd_con C i (C i ++ p) i) = n + zlen p) as El by (rewrite upd_con_len, length_app; lia).
    apply (IH X1 (upd_con C i (C i ++ p)) s1); rewrite ?El; [done|lia|done|by eapply node_grown|lia|lia|].
    intros X2 s2 H2 HX2 HXi2 Hf2 Hi2. apply (HQ X2); [|intros j Hj; by rewrite HX2, HX1|done|lia|congruence].
    assert (forall j, upd_con (upd_con C i (C i ++ p)) i (upd_con C i (C i ++ p) i ++ concat reads) j = upd_con C i (C i ++ p ++ concat reads) j) as E.
    { intros j. unfold upd_con. rewrite (decide_True _ _ (eq_refl i)). case_decide; [by rewrite app_assoc|done]. }
    destruct H2 as [L1 L2 L3 L4 L5 L6]. split; [done|done|eapply data_ok_ext; [done|intros j _; by rewrite <- E|done]|done|done|].
    intros j Hj. rewrite <- E. by apply L6.
Qed.

(** ** The directory *)

Definition dirents (k : nat) (args : list arg_t) : list Z := concat (imap (fun j (a : arg_t) => dirent (2 + Z.of_nat (k + j)) (image_name a.1)) args).
Definition root_bytes (args : list arg_t) : list Z := dirent 1 [46] ++ dirent 1 [46; 46] ++ dirents 0 args.

Definition file_bytes (a : arg_t) : list Z := concat (default [] a.2).
Fixpoint file_blocks (args : list arg_t) : Z :=
  match args with
  | [] => 0
  | a :: args => blocks (zlen (file_bytes a)) + file_blocks args
  end.
(** Blocks the whole image takes. *)
Definition image_blocks (args : list arg_t) : Z := 59 + blocks (16 * (2 + zlen args)) + file_blocks args.

(** The files can be opened, have no slash in their names and fit. *)
Definition arg_ok (a : arg_t) : bool := bool_decide (47 ∉ a.1) && bool_decide (is_Some a.2) && (zlen (file_bytes a) <=? 71680).

Record built (args : list arg_t) (X : Z -> inode) (C : Z -> list Z) (s : mkfs_t) : Prop := {
  bu_inv : mk_inv X C s;
  bu_ino : freeinode s = 2 + zlen args;
  bu_blocks : freeblock s <= image_blocks args;
  bu_root : C 1 = root_bytes args /\ node_ok T_DIR (zlen (root_bytes args)) (X 1);
  bu_file : forall k a, args !! k = Some a -> C (2 + Z.of_nat k) = file_bytes a /\ node_ok T_FILE (zlen (file_bytes a)) (X (2 + Z.of_nat k))
}.

Lemma file_blocks_app l1 l2 : file_blocks (l1 ++ l2) = file_blocks l1 + file_blocks l2.
Proof. induction l1 as [|a l1 IH]; cbn; [done|]. rewrite IH. lia. Qed.

Lemma file_blocks_pos l : 0 <= file_blocks l.
Proof. induction l as [|a l IH]; cbn; [done|]. pose proof (blocks_inner 0 (zlen (file_bytes a)) ltac:(lia) ltac:(lia)) as Hb. rewrite Z.add_0_l in Hb. change (blocks 0) with 0 in Hb. lia. Qed.

Lemma dirents_app args a : dirents 0 (args ++ [a]) = dirents 0 args ++ dirent (2 + zlen args) (image_name a.1).
Proof. unfold dirents. rewrite imap_app, concat_app. cbn. by rewrite app_nil_r, Nat.add_0_r. Qed.

Lemma root_bytes_app args a : root_bytes (args ++ [a]) = root_bytes args ++ dirent (2 + zlen args) (image_name a.1).
Proof. unfold root_bytes. by rewrite dirents_app, !app_assoc. Qed.

Lemma length_root args : zlen (root_bytes args) = 16 * (2 + zlen args).
Proof.
  induction args as [|a args IH] using rev_ind; [done|]. rewrite root_bytes_app, !length_app, length_dirent. cbn [length]. lia.
Qed.

Lemma image_blocks_le args rest : image_blocks args <= image_blocks (args ++ rest).
Proof.
  unfold image_blocks. rewrite file_blocks_app, length_app. pose proof (file_blocks_pos rest).
  pose proof (blocks_inner (16 * (2 + zlen args)) (16 * zlen rest) ltac:(lia) ltac:(lia)) as Hb.
  replace (16 * (2 + zlen args) + 16 * zlen rest) with (16 * (2 + Z.of_nat (length args + length rest))) in Hb by lia. lia.
Qed.

Lemma add_files_wp args : forall donea X C s (Q : unit -> mkfs_t -> Prop),
  built donea X C s -> forallb arg_ok args = true -> zlen (donea ++ args) <= 198 -> image_blocks (donea ++ args) <= 2000 ->
  (forall X' C' s', built (donea ++ args) X' C' s' -> Q tt s') -> wp (add_files 1 args) Q s.
Proof.
  induction args as [|[name fd] args IH]; intros donea X C s Q HB Hok Hn Hb HQ; cbn [add_files]; [apply wp_ret; rewrite app_nil_r in HQ; by eapply HQ|].
  cbn [forallb] in Hok. apply andb_true_iff in Hok as [Ha Hok]. unfold arg_ok in Ha. cbn [fst snd] in Ha. apply andb_true_iff in Ha as [Ha Hsz]. apply andb_true_iff in Ha as [Hs Hfd].
  apply bool_decide_eq_true in Hs, Hfd. destruct Hfd as [reads ->]. rewrite bool_decide_false by done. zbool. change (file_bytes (name, Some reads)) with (concat reads) in Hsz.
  pose (a := ((name, Some reads) : arg_t)). change (donea ++ (name, Some reads) :: args) with (donea ++ [a] ++ args) in *. rewrite app_assoc in *.
  pose proof (image_blocks_le (donea ++ [a]) args) as Hle. rewrite (length_app (donea ++ [a])), length_app in Hn. cbn [length] in Hn.
  assert (image_blocks (donea ++ [a]) = image_blocks donea + (blocks (16 * (3 + zlen donea)) - blocks (16 * (2 + zlen donea))) + blocks (zlen (concat reads))) as Eib.
  { unfold image_blocks. rewrite file_blocks_app, length_app. cbn [file_blocks length]. replace (16 * (2 + Z.of_nat (length donea + 1))) with (16 * (3 + zlen donea)) by lia.
    change (file_bytes a) with (concat reads). lia. }
  destruct HB as [B1 B2 B3 [B4 B5] B6]. apply wp_bind, wp_bind. set (i := 2 + zlen donea) in *. unfold i in Eib.
  pose proof (blocks_inner 0 (zlen (concat reads)) ltac:(lia) ltac:(lia)) as Hfp. rewrite Z.add_0_l in Hfp. change (blocks 0) with 0 in Hfp.
  apply (mkfs_ialloc_wp X C s T_FILE); [done|lia|by unfold T_FILE|]. rewrite B2. intros s1 H1 E1 E2. set (X1 := upd_ino X i (new_node T_FILE)) in *.
  assert (X1 1 = X 1 /\ X1 i = new_node T_FILE) as [EX1 EXi] by (unfold X1, upd_ino; split; [rewrite decide_False by lia|rewrite decide_True by done]; done).
  assert (C i = []) as EC by (apply B1; lia).
  pose proof (length_root donea) as Hlr. pose proof (length_dirent i (image_name name)) as Hld.
  apply wp_bind. apply (iappend_wp X1 C s1 1); [done|lia|lia| | | |]; rewrite ?B4, ?Hld, ?Hlr, ?EX1.
  { rewrite <- Hlr. apply B5. }
  { lia. }
  { replace (16 * (2 + zlen donea) + Z.of_nat 16) with (16 * (3 + zlen donea)) by lia. lia. }
  replace (16 * (2 + zlen donea) + Z.of_nat 16) with (16 * (3 + zlen donea)) by lia.
  intros X2 s2 H2 HX2 HXr Hf2 Hi2. set (C2 := upd_con C 1 _) in *. assert (C2 i = []) as EC2 by (unfold C2, upd_con; by rewrite decide_False by lia).
  apply (append_all_wp X2 C2 s2 i T_FILE reads); rewrite ?EC2; cbn [length app]; change (Z.of_nat 0) with 0; rewrite ?Z.add_0_l; change (blocks 0) with 0; [done|lia|lia| |lia|lia|].
  { rewrite HX2, EXi by lia. by split. }
  intros X3 s3 H3 HX3 HXi3 Hf3 Hi3.
  eapply (IH (donea ++ [a])); [|done|rewrite !length_app; cbn [length]; lia|done|done]. split; [exact H3|rewrite length_app; cbn [length]; lia|lia| |].
  - rewrite root_bytes_app. fold i. cbn [a fst]. split; [unfold upd_con, C2; rewrite decide_False by lia; unfold upd_con; by rewrite decide_True|].
    rewrite HX3 by lia. eapply (node_grown T_DIR _ (X 1)); [exact B5|]. rewrite length_app, Hld, Nat2Z.inj_add, Hlr.
    replace (16 * (2 + zlen donea) + Z.of_nat 16) with (16 * (3 + zlen donea)) by lia. done.
  - intros k b Hk. destruct (decide (k < length donea)%nat) as [Hlt|Hge].
    + rewrite lookup_app_l in Hk by done. destruct (B6 k b Hk) as [F1 F2]. rewrite HX3, HX2 by lia. unfold X1, upd_ino, upd_con, C2, upd_con. rewrite !decide_False by lia. done.
    + assert (k = length donea) as -> by (apply lookup_lt_Some in Hk; rewrite length_app in Hk; cbn in Hk; lia). rewrite list_lookup_middle in Hk by done. injection Hk as <-.
      fold i. unfold upd_con. rewrite decide_True by done. done.
Qed.

(** ** The bitmap *)

Lemma testbit_u8 z j : 0 <= j < 8 -> Z.testbit (u8 z) j = Z.testbit z j.
Proof. intros Hj. unfold u8. change 256 with (2 ^ 8). apply Z.mod_pow2_bits_low. lia. Qed.

Lemma mark_used_spec n : forall i d, 0 <= i -> i + Z.of_nat n <= 4096 -> length d = bsize ->
  length (mark_used n i d) = bsize /\
  forall b, 0 <= b < 4096 -> used (mark_used n i d) b = if decide (i <= b < i + Z.of_nat n) then true else used d b.
Proof.
  induction n as [|n IH]; intros i d Hi Hn Hl; [split; [done|]; intros b Hb; by rewrite decide_False by lia|]. cbn [mark_used].
  set (d1 := <[_ := _]> d). assert (length d1 = bsize) as Hl1 by (unfold d1; by rewrite length_insert).
  destruct (IH (i + 1) d1 ltac:(lia) ltac:(lia) Hl1) as [IH1 IH2]. split; [done|]. intros b Hb. rewrite IH2 by done.
  assert (used d1 b = if decide (b = i) then true else used d b) as ->.
  { rewrite <- (used_set_bit d Hl i b) by (unfold BPB, BSIZE; lia). rewrite !used_testbit. unfold d1, set_bit.
    assert (Z.to_nat (i / 8) < length d)%nat as Hr by (apply bit_range; [done|unfold BPB, BSIZE; lia]). rewrite !byte_at_insert by done.
    case_decide; [|done]. apply testbit_u8. pose proof (Z.mod_pos_bound b 8). lia. }
  repeat case_decide; done || lia.
Qed.

(** ** The start *)

Lemma zero_image_wp n : forall s (Q : unit -> mkfs_t -> Prop),
  (length (img s) + n <= 2000)%nat -> Q tt (set_img (img s ++ replicate n zero_block) s) -> wp (zero_image n (zlen (img s))) Q s.
Proof.
  induction n as [|n IH]; intros s Q Hl HQ; cbn [zero_image].
  - apply wp_ret. rewrite app_nil_r in HQ. by destruct s.
  - apply wp_bind, wp_modify. cbv zeta. rewrite sector_small by lia. rewrite Nat2Z.id, decide_False, Nat.sub_diag by lia. cbn [replicate app].
    set (s1 := set_img _ s). replace (zlen (img s) + 1) with (zlen (img s1)) by (cbn; rewrite length_app; cbn; lia). apply IH; cbn.
    + rewrite length_app. cbn. lia.
    + rewrite <- app_assoc. cbn [app]. by destruct s.
Qed.

Lemma dsk_zero V i : V (IBLOCK i mk_sb) = zero_block -> dsk V i = fresh_node.
Proof.
  intros E. unfold dsk, fresh_node, mem. rewrite E. apply dinode_load_ext. intros j Hj. rewrite byte_zero. unfold byte_at. rewrite nth_lookup, lookup_replicate_2 by lia. done.
Qed.

Lemma start_inv s :
  length (img s) = 2000%nat -> freeinode s = 1 -> freeblock s = 59 -> (forall c, imgv s c = if decide (c = 1) then sb_bytes mk_sb zero_block else zero_block) ->
  mk_inv (fun _ => fresh_node) (fun _ => []) s.
Proof.
  intros M1 M2 M3 M4. assert (forall k, 0 <= k -> slot (imgv s) fresh_node k = 0) as Hs by (intros k Hk; by apply slot_none). split.
  - done.
  - intros i Hi. destruct (IBLOCK_at i Hi). apply dsk_zero. by rewrite M4, decide_False by lia.
  - rewrite M3. split; try (intros; rewrite Hs in * by lia; done).
    + lia.
    + intros b Hb. by rewrite M4, decide_False by lia.
    + intros i k Hi Hk Hlt. cbn in Hlt. lia.
    + intros b. rewrite M4. case_decide; [|done]. unfold sb_bytes. by rewrite !length_put32.
  - intros b Hb _. apply M4.
  - lia.
  - intros i Hi. done.
Qed.

Lemma root_wp s (Q : unit -> mkfs_t -> Prop) :
  mk_inv (fun _ => fresh_node) (fun _ => []) s -> freeinode s = 1 -> freeblock s = 59 ->
  (forall X C s', built [] X C s' -> Q tt s') ->
  wp (let* rootino := mkfs_ialloc T_DIR in
      if negb (rootino =? ROOTINO) then panic "assert" else
      iappend rootino (dirent rootino [46]) ;;;
      iappend rootino (dirent rootino [46; 46])) Q s.
Proof.
  intros H E1 E2 HQ. apply wp_bind. eapply mkfs_ialloc_wp; [exact H|lia|by unfold T_DIR|]. rewrite E1. intros s1 H1 F1 F2. cbn [ROOTINO Z.eqb Pos.eqb negb].
  apply wp_bind. eapply (iappend_wp _ _ s1 1); [exact H1|lia|lia|done|done|rewrite F1, E2; vm_compute; discriminate|].
  intros X2 s2 H2 HX2 HXr Hf2 Hi2. cbn [app] in H2. rewrite length_dirent in HXr, Hf2. change (upd_ino _ 1 (new_node T_DIR) 1) with (new_node T_DIR) in HXr.
  assert (node_ok T_DIR 16 (X2 1)) as N2 by (eapply (node_grown T_DIR 0 (new_node T_DIR)); [by split|exact HXr]).
  rewrite F1, E2 in Hf2. change (freeblock s2 <= 60) in Hf2.
  eapply (iappend_wp _ _ s2 1); [exact H2|lia|lia|apply N2| | |].
  - rewrite upd_con_len, !length_dirent. done.
  - rewrite upd_con_len, !length_dirent. change (blocks (Z.of_nat 16 + Z.of_nat 16) - blocks (Z.of_nat 16)) with 0. lia.
  - rewrite upd_con_len, !length_dirent. change (blocks (Z.of_nat 16 + Z.of_nat 16) - blocks (Z.of_nat 16)) with 0.
    intros X3 s3 H3 HX3 HXr3 Hf3 Hi3. eapply HQ. split; [exact H3|cbn; lia|change (image_blocks []) with 60; lia| |].
    + split; [done|]. by eapply (node_grown T_DIR 16 (X2 1)).
    + intros k a Hk. done.
Qed.

(** ** The result *)

(** The size of the directory is rounded up to the next block. *)
Definition root_size (args : list arg_t) : Z := (zlen (root_bytes args) / BSIZE + 1) * BSIZE.

Record image_ok (args : list arg_t) (V : Z -> block) : Prop := {
  im_sb : sb_decode (V 1) = mk_sb;
  im_layout : layout mk_sb nmeta FSSIZE;
  im_log : hdr_n (V (sb_logstart mk_sb)) = 0;
  im_bitmap : exists fb, nmeta <= fb <= image_blocks args /\ forall b, 0 <= b < FSSIZE -> used (V (sb_bmapstart mk_sb)) b = (b <? fb);
  im_root : let x := dsk V ROOTINO in
    node_ok T_DIR (root_size args) x /\ file_ok mk_sb nmeta V (set_i_size (zlen (root_bytes args)) x) /\
    content V x 0 (length (root_bytes args)) = root_bytes args;
  im_root_end : (2 + zlen args) mod 32 <> 0 -> let x := dsk V ROOTINO in
    file_ok mk_sb nmeta V x /\
    content V x 0 (Z.to_nat (root_size args)) = root_bytes args ++ replicate (Z.to_nat (root_size args) - length (root_bytes args)) 0;
  im_file : forall k a, args !! k = Some a -> let x := dsk V (2 + Z.of_nat k) in
    node_ok T_FILE (zlen (file_bytes a)) x /\ file_ok mk_sb nmeta V x /\ content V x 0 (length (file_bytes a)) = file_bytes a;
  im_apart : forall i j k l, 0 <= i < NINODES -> 0 <= j < NINODES -> 0 <= k < MAXFILE -> 0 <= l < MAXFILE ->
    fblk V (dsk V i) k <> 0 -> fblk V (dsk V i) k = fblk V (dsk V j) l -> i = j /\ k = l
}.

Lemma slot_fblk V x k : 0 <= k < 140 -> slot V x k = fblk V x k.
Proof. intros Hk. unfold slot. change MAXFILE with 140. by rewrite (proj2 (Z.eqb_neq _ _)) by lia. Qed.

(** A file of the image, up to [n] bytes, is well formed for the kernel and has its bytes. *)
Lemma image_file C V fb i n :
  data_ok (fun j => slot V (dsk V j)) C V fb -> inum_ok i -> zlen (C i) <= n <= 71680 ->
  (forall k, 0 <= k -> k * 512 < n -> fblk V (dsk V i) k <> 0) -> (forall b, 0 <= b < 2000 -> used (V 58) b = (b <? fb)) ->
  file_ok mk_sb nmeta V (set_i_size n (dsk V i)) /\ content V (dsk V i) 0 (Z.to_nat n) = C i ++ replicate (Z.to_nat n - length (C i)) 0.
Proof.
  intros [F R I Z B Fu L] Hi Hr Hfull Hu. change MAXFILE with 140 in *.
  assert (forall b, 59 <= b < fb -> data_used mk_sb nmeta V b) as Hd.
  { intros b Hb. split; [change (59 <= b < 2000); lia|]. change (sb_bmapstart mk_sb) with 58. rewrite Hu by lia. apply Z.ltb_lt. lia. }
  assert (forall k, fblk V (set_i_size n (dsk V i)) k = fblk V (dsk V i) k) as Ef by done.
  split; [split|]; try setoid_rewrite Ef.
  - done.
  - done.
  - change MAXFILE with 140. intros k Hk Hne. rewrite <- slot_fblk in * by done. apply Hd, R; [done|lia|done].
  - intros Hne. apply Hd. by apply (R i 140 Hi ltac:(lia)).
  - change MAXFILE with 140. intros k k' Hk Hk' Hne E. rewrite <- !slot_fblk in * by done. by destruct (I i k i k' Hi Hi ltac:(lia) ltac:(lia) Hne E).
  - change MAXFILE with 140. intros k Hk Hne E. rewrite <- slot_fblk in E by done. destruct (I i 140 i k Hi Hi ltac:(lia) ltac:(lia) Hne (eq_sym E)). lia.
  - cbn [i_size set_i_size]. change (MAXFILE * BSIZE) with 71680. lia.
  - unfold BSIZE. cbn [i_size set_i_size]. intros k Hk Hlt. apply Hfull; lia.
  - apply list_eq. intros o. unfold content. rewrite list_lookup_fmap. destruct (decide (o < Z.to_nat n)%nat) as [Ho|Ho].
    + rewrite lookup_seq_lt by done. cbn [fmap option_fmap option_map]. rewrite Nat.add_0_l, Z.add_0_l. unfold fbyte, BSIZE.
      assert (0 <= Z.of_nat o / 512 < 140 /\ Z.of_nat o / 512 * 512 <= Z.of_nat o /\ Z.of_nat o = Z.of_nat o / 512 * 512 + Z.of_nat o mod 512 /\ 0 <= Z.of_nat o mod 512 < 512) as (O1 & O2 & O3 & O4) by zdiv.
      pose proof (Hfull (Z.of_nat o / 512) ltac:(lia) ltac:(lia)) as Hne. rewrite <- slot_fblk in * by done. rewrite B by (done || lia).
      replace (Z.to_nat (Z.of_nat o / 512 * 512) + Z.to_nat (Z.of_nat o mod 512))%nat with o by lia. rewrite nth_lookup.
      destruct (decide (o < length (C i))%nat) as [Hlt|Hge].
      * rewrite lookup_app_l by done. destruct (lookup_lt_is_Some_2 _ _ Hlt) as [c ->]. done.
      * rewrite lookup_app_r, lookup_replicate_2, lookup_ge_None_2 by lia. done.
    + rewrite lookup_seq_ge by lia. cbn [fmap option_fmap option_map]. symmetry. apply lookup_ge_None. rewrite length_app, length_replicate. lia.
Qed.

(** The end of [main]: the size of the directory and the bitmap. *)
Definition finish : M mkfs_t unit :=
  let* din := rinode 1 in
  let off := xint (get32 din 8) in
  let off := u32 ((off / BSIZE + 1) * BSIZE) in
  winode 1 (put32 8 (xint off) din) ;;;
  let* b := gets freeblock in
  mkfs_balloc b.

Lemma finish_wp args X C s (Q : unit -> mkfs_t -> Prop) :
  built args X C s -> zlen args <= 198 -> image_blocks args <= 2000 ->
  (forall X' s', mk_inv X C s -> length (img s') = 2000%nat -> (forall i, inum_ok i -> dsk (imgv s') i = X' i) ->
     data_ok (fun j => slot (imgv s') (X' j)) C (imgv s') (freeblock s) -> (forall j, j <> 1 -> X' j = X j) -> node_ok T_DIR (root_size args) (X' 1) ->
     (forall b, 0 <= b < 32 -> imgv s' b = if decide (b = 1) then sb_bytes mk_sb zero_block else zero_block) ->
     (forall b, 0 <= b < 2000 -> used (imgv s' 58) b = (b <? freeblock s)) -> Q tt s') ->
  wp finish Q s.
Proof.
  intros [B1 B2 B3 [B4 B5] B6] Hn Hb HQ. pose proof (length_root args) as Hlr. unfold finish. apply wp_bind. eapply rinode_wp; [exact B1|lia|]. intros din Hd Em. cbv zeta.
  assert (0 <= zlen (root_bytes args) / 512 <= 6) as Hq by (rewrite Hlr; clear -Hn; zdiv).
  assert (xint (get32 din 8) = zlen (root_bytes args)) as ->.
  { assert (get32 din 8 = i_size (mem din)) as -> by done. rewrite Em, (no_size _ _ _ B5), xint_u32, u32_small; [done|lia]. }
  fold (root_size args). assert (0 <= root_size args < 2 ^ 16) as Hrs by (unfold root_size, BSIZE; lia). rewrite u32_small by lia.
  assert (mem (put32 8 (xint (root_size args)) din) = set_i_size (root_size args) (X 1)) as Es.
  { rewrite mem_put_size, xint_u32, !u32_small by (rewrite ?u32_small; done || lia). by rewrite Em. }
  apply wp_bind. eapply (winode_wp X C (upd_ino X 1 (set_i_size (root_size args) (X 1))) C s s); [lia|by rewrite length_put32|apply B1|done|exact B1| | | | |].
  - eapply data_ok_ext; [|done|apply B1]. intros j k Hj Hk. unfold upd_ino. rewrite Es. case_decide; [by subst|done].
  - apply B1.
  - intros j Hj. unfold upd_ino. rewrite decide_False by lia. by apply B1.
  - intros j. by rewrite Es.
  - intros s1 H1 E1 E2. apply wp_bind, wp_gets. pose proof (do_fb _ _ _ _ (mi_data _ _ _ H1)) as Hf. unfold mkfs_balloc, BSIZE.
    rewrite (proj2 (Z.ltb_lt _ _)) by lia. cbn [negb]. change (sb_bmapstart mk_sb) with 58. apply wsect_wp; [apply H1|lia|]. intros s2 M1 M2 M3 M4.
    destruct (mark_used_spec (Z.to_nat (freeblock s1)) 0 zero_block) as [Hl Hu]; [lia|lia|done|].
    apply (HQ (upd_ino X 1 (set_i_size (root_size args) (X 1)))); [done|done| | | | | |].
    + intros j Hj. rewrite <- (mi_disk _ _ _ H1 j Hj). unfold dsk. destruct (IBLOCK_at j Hj). by rewrite M4, decide_False by lia.
    + rewrite <- E1. apply (data_ok_low _ _ (imgv s1)); [intros b Hb'; by rewrite M4, decide_False by lia|intros b; rewrite M4; case_decide; [done|apply H1]|].
      eapply data_ok_ext; [|done|apply H1]. intros j k Hj Hk. apply slot_low; [intros b Hb'; by rewrite M4, decide_False by lia|].
      destruct (decide (ind (upd_ino X 1 (set_i_size (root_size args) (X 1)) j) = 0)); [by left|right]. by apply (do_rng _ _ _ _ (mi_data _ _ _ H1) j 140 Hj ltac:(lia)).
    + intros j Hj. unfold upd_ino. by rewrite decide_False.
    + unfold upd_ino. rewrite decide_True by done. destruct B5. by split.
    + intros b Hb'. rewrite M4, decide_False by lia. apply (mi_low _ _ _ H1); lia.
    + intros b Hb'. rewrite M4, decide_True by done. rewrite Hu by lia. rewrite <- E1. case_decide; symmetry; [apply Z.ltb_lt; lia|].
      rewrite used_testbit, byte_zero, Z.bits_0. apply Z.ltb_ge. lia.
Qed.

Lemma mk_sb_decode : sb_decode (sb_bytes mk_sb zero_block) = mk_sb.
Proof. vm_compute. reflexivity. Qed.

Lemma mk_layout : layout mk_sb nmeta FSSIZE.
Proof. split; vm_compute; repeat split; discriminate. Qed.

Lemma main_wp args (Q : unit -> mkfs_t -> Prop) :
  forallb arg_ok args = true -> zlen args <= 198 -> image_blocks args <= FSSIZE ->
  (forall X C s, built args X C s -> wp finish Q s) ->
  wp (mkfs_main args) Q mkfs_start.
Proof.
  intros Hok Hn Hb HQ. unfold mkfs_main. apply wp_bind, wp_modify, wp_bind.
  apply (zero_image_wp 2000 (MkMkfs [] 1 nmeta)); [done|]. set (s0 := set_img _ _).
  assert (length (img s0) = 2000%nat) as H0 by apply length_replicate.
  apply wp_bind, wsect_wp; [done|lia|]. intros s1 M1 M2 M3 M4.
  assert (mk_inv (fun _ => fresh_node) (fun _ => []) s1) as Hinv.
  { apply start_inv; [done|done|done|]. intros c. rewrite M4. case_decide; [done|]. unfold imgv. cbn [img s0 set_img app].
    rewrite nth_lookup. destruct (replicate 2000 zero_block !! Z.to_nat c) as [d|] eqn:E; [|done]. by apply lookup_replicate in E as [-> _]. }
  assert (forall X C s, built [] X C s -> wp (add_files 1 args ;;; finish) Q s) as Hrest.
  { intros X C s HB. apply wp_bind. eapply (add_files_wp args []); [exact HB|done|done|done|]. intros X' C' s'. apply HQ. }
  pose proof (root_wp s1 (fun _ s => wp (add_files 1 args ;;; finish) Q s) Hinv M2 M3 Hrest) as Hr.
  clear -Hr. unfold wp, bind in *. destruct (mkfs_ialloc T_DIR s1) as [r s2| | |]; cbn [obind] in *; try done.
  destruct (Z.eqb_spec r ROOTINO) as [->|]; cbn [negb] in *; [|done].
  destruct (iappend ROOTINO (dirent ROOTINO [46]) s2) as [u s3| | |]; cbn [obind] in *; try done.
  destruct (iappend ROOTINO (dirent ROOTINO [46; 46]) s3) as [v s4| | |]; cbn [obind] in *; done.
Qed.

Lemma set_i_size_same x n : i_size x = n -> set_i_size n x = x.
Proof. intros <-. by destruct x. Qed.

(** C14. The image that mkfs builds from files that fit is one the kernel can use: the
    superblock it reads back has the layout the file system code relies on, the log has
    nothing to recover, the root directory up to its entries and every file are well
    formed, hold the directory entries and the bytes that were read, and share no
    block, and the bitmap marks exactly the blocks up to the last one allocated.  The
    size of the root directory is that of its entries rounded up to the next block,
    which the directory has, filled with unused entries, except when the number of
    entries is a multiple of 32. *)
Theorem mkfs_image args :
  forallb arg_ok args = true -> zlen args <= NINODES - 2 -> image_blocks args <= FSSIZE ->
  wp (mkfs_main args) (fun _ s => length (img s) = Z.to_nat FSSIZE /\ image_ok args (imgv s)) mkfs_start.
Proof.
  intros Hok Hn Hb. unfold NINODES, FSSIZE in *. apply main_wp; [done|lia|done|]. intros X C s HB. eapply finish_wp; [exact HB|lia|done|].
  intros X' s' Hinv M1 Hdsk Hdat HX HX1 Hlow Hbm. split; [done|]. destruct HB as [B1 B2 B3 [B4 B5] B6].
  assert (data_ok (fun j => slot (imgv s') (dsk (imgv s') j)) C (imgv s') (freeblock s)) as Hdat'.
  { eapply data_ok_ext; [|done|exact Hdat]. intros j k Hj Hk. by rewrite Hdsk. }
  pose proof (do_fb _ _ _ _ Hdat) as Hf. pose proof (length_root args) as Hlr.
  assert (dsk (imgv s') ROOTINO = X' 1) as Ex1 by (apply Hdsk; unfold ROOTINO; lia).
  assert (forall k, 0 <= k -> k * 512 < zlen (root_bytes args) -> fblk (imgv s') (dsk (imgv s') ROOTINO) k <> 0) as Hroot.
  { intros k Hk Hlt. rewrite <- slot_fblk by lia. apply (do_full _ _ _ _ Hdat' 1 k); [lia|lia|by rewrite B4]. }
  split.
  - by rewrite Hlow, decide_True, mk_sb_decode by lia.
  - exact mk_layout.
  - change (sb_logstart mk_sb) with 2. by rewrite Hlow, decide_False by lia.
  - exists (freeblock s). split; [change nmeta with 59; lia|exact Hbm].
  - cbv zeta. split; [by rewrite Ex1|].
    destruct (image_file C _ _ ROOTINO (zlen (root_bytes args)) Hdat') as [G1 G2]; [unfold ROOTINO; lia| |exact Hroot|exact Hbm|].
    + change (C ROOTINO) with (C 1). rewrite B4, Hlr. lia.
    + split; [exact G1|]. change (C ROOTINO) with (C 1) in G2. by rewrite Nat2Z.id, B4, Nat.sub_diag, app_nil_r in G2.
  - intros Hm. cbv zeta. rewrite <- B4. rewrite <- (set_i_size_same (dsk (imgv s') ROOTINO) (root_size args)) at 1 by (rewrite Ex1; apply HX1).
    apply (image_file C _ _ ROOTINO (root_size args) Hdat'); [unfold ROOTINO; lia| | |done].
    + change (C ROOTINO) with (C 1). rewrite B4, Hlr. unfold root_size, BSIZE. rewrite Hlr. clear -Hn. zdiv.
    + intros k Hk Hlt. apply Hroot; [done|]. unfold root_size, BSIZE in Hlt. rewrite Hlr in *. clear -Hlt Hm Hk. zdiv.
  - intros k a Hk. cbv zeta. destruct (B6 k a Hk) as [F1 F2]. assert (k < length args)%nat as Hkl by by eapply lookup_lt_Some.
    assert (dsk (imgv s') (2 + Z.of_nat k) = X (2 + Z.of_nat k)) as Ex by (rewrite Hdsk, HX by lia; done). split; [by rewrite Ex|].
    assert (arg_ok a = true) as Ha by (rewrite forallb_forall in Hok; apply Hok, list_elem_of_In; by eapply list_elem_of_lookup_2).
    unfold arg_ok in Ha. apply andb_true_iff in Ha as [_ Ha]. zbool.
    destruct (image_file C _ _ (2 + Z.of_nat k) (zlen (file_bytes a)) Hdat') as [G1 G2]; [lia|rewrite F1; lia| |done|].
    + intros q Hq Hlt. rewrite <- slot_fblk by lia. apply (do_full _ _ _ _ Hdat'); [lia|lia|by rewrite F1].
    + rewrite set_i_size_same in G1 by (rewrite Ex; apply F2). split; [done|]. by rewrite Nat2Z.id, F1, Nat.sub_diag, app_nil_r in G2.
  - change MAXFILE with 140. unfold NINODES. intros i j k l Hi Hj Hk Hl Hne E. rewrite <- !slot_fblk in * by done. by apply (do_inj _ _ _ _ Hdat' i k j l); lia || done.
Qed.

(** ** A concrete image *)

(** [_init] with two blocks, [README] empty. *)
Definition demo_args : list arg_t :=
  [([95; 105; 110; 105; 116], Some [replicate 512 65; replicate 100 66]); ([82; 69; 65; 68; 77; 69], Some [])].

Lemma mkfs_image_witness :
  image_blocks demo_args = 62 /\
  wp (mkfs_main demo_args) (fun _ s => length (img s) = 2000%nat /\ image_ok demo_args (imgv s)) mkfs_start.
Proof. split; [reflexivity|]. apply (mkfs_image demo_args); [reflexivity|vm_compute; discriminate|vm_compute; discriminate]. Defined.

(** With a multiple of 32 entries the directory is given one block more than it has. *)
Lemma mkfs_root_hole :
  let args := replicate 30 (([97], Some []) : arg_t) in
  wp (mkfs_main args) (fun _ s => let x := dsk (imgv s) ROOTINO in i_size x = 1024 /\ fblk (imgv s) x 1 = 0) mkfs_start.
Proof.
  cbv zeta. eapply wp_mono; [eapply (wp_eval _ (fun _ s => (i_size (dsk (imgv s) ROOTINO) =? 1024) && (fblk (imgv s) (dsk (imgv s) ROOTINO) 1 =? 0))); vm_compute; reflexivity|].
  intros _ s [E1 E2]%andb_true_iff. by zbool.
Qed.
